(* ===== verification/_CoqProject ===== *)
-Q . S2P
Prelude.v
Telemetry.v
Radix.v
NetAddr.v
Encoding.v
AddrText.v
Names.v
Rpz.v
Firewall.v
Utf8.v
Ttl.v
Owner.v
Dns.v
Acl.v
Records.v
Sorting.v
Tree.v
Signer.v
KeyStore.v
Files.v
Store.v
Cache.v
Access.v
Upstream.v
Validator.v
Config.v
Summary.v
RootHints.v
Sql.v
Logging.v
Console.v
Feeds.v
Reports.v
Retention.v
Schema.v
Tester.v
Rules.v
Refresh.v
Http.v
WebUI.v
Watcher.v
Query.v
Concurrent.v
Iterative.v
Reply.v
Update.v
Handlers.v
Api.v
Puts.v
Xfr.v
Processor.v
RateLimit.v
Network.v
Runtime.v
Start.v
Services.v
Stream.v
