(* ===== verification/Prelude.v ===== *)
(** * arx-dns: a verification library

    arx-dns is an authoritative and recursive DNS server with a management API
    and a compliance tester. This library translates the Go sources under
    src/internal and src/cmd and proves what makes them correct. Every
    definition keeps the name of the function it models; its source lines are
    listed in the manifest of the library.

    ** The program and its parts

    A query arrives over UDP, TCP, TLS or HTTPS ([network]), is decided by the
    query processor ([dnsproc]) and answered from the zone store ([storage]),
    from policies ([rpz], [firewall]), or by a resolver behind an answer cache:
    the forwarder or the iterative resolver, whose answers the validator
    checks. Access lists ([acl]) decide who may query, recurse, transfer zones,
    and which of two views of the zones a client sees. Zones change by the
    management API's record edits ([api]), by dynamic updates and by files a
    watcher reloads; each edit clones the live tree of the view, edits the
    clone, publishes it, signs it when Auto-DNSSEC is on ([dnssec]) and
    rewrites the zone file. The settings ([config]) come from a file and from
    the API, which puts them in force while the server runs ([runtime]). Two
    SQLite databases keep rules, feeds, keys, settings, rollups and the audit
    log ([telemetry]); every log line goes to a file, to a history and to the
    readers of the log stream ([logger]). [cmd/arx-dns] starts and stops all
    of it.

    ** Files, bottom up

    - Prelude: Go errors, strings, integers, map ranges; automation.
      Telemetry: stats.go, flusher.go, prometheus.go and the history windows
      of db.go; its counters are what every other file reports.
    - Radix: the third-party radix tree as the interface [RadixOps] with its
      laws [RadixLaws]; [gtree] is an instance over finite maps.
    - NetAddr: net and net/netip. Encoding: hex, base64 and big-endian
      integers. Names: label reversal and ancestry. Utf8: decoding as Go's
      range does. Sorting: the contract of sort.Slice. Sql: what the tables of
      database/sql have in common.
    - Dns: records and messages, and the DNS package as the interfaces
      [DnsText] and [DnsMsg] with [DnsMsgLaws].
    - Rpz: rpz/engine.go. Policies are parsed into a snapshot that writers
      replace by compare-and-swap: [addStep] is the step relation of any number
      of concurrent [AddPolicy] calls.
    - Firewall: firewall/engine.go, blocklist.go, loader.go. Feeds: its
      sources.go, custom.go and sync.go.
    - Acl: acl/acl.go, named match lists with references between them, the
      policies per zone and view selection. Rules and Access: acl/rules.go,
      dnsproc/acl.go, network/acl.go, network/cookies.go. Refresh: changes of
      the query rules and reloads of their checker that overlap.
    - Ttl, Owner, Records: storage/ttl.go, validate.go, records.go and the owner
      names of memory.go and mutations.go: from API input to records and back
      to text.
    - Tree: storage/tree.go and the tree functions of memory.go, zones_crud.go,
      dnssec.go. Signer: dnssec/signer.go. KeyStore: dnssec/keys.go and
      store.go, over the SQL statements as the interface [KeyDB]. Files: paths
      and the file system as [FileSys] with [FileSysLaws].
    - Store: memory.go, registry.go, ttl_hints.go, mutations.go, records_api.go,
      update_apply.go, zones_crud.go, dnssec.go and loader.go of storage. [Memory]
      is the state of the store, [system] adds files and keys, [mutation] lists
      its operations. Watcher: both file watchers, as a machine whose steps are
      notifications, timers and reloads.
    - Cache: storage/cache.go and ecs.go over the third-party cache [Ristretto].
    - Upstream: config/upstream.go, dnsproc/rtt.go and forwarder.go. Iterative:
      iterative.go. RootHints: roothints.go. Validator: dnssec/anchors.go and
      dnsproc/validator.go.
    - Query: resolution from the store, of dnsproc/processor.go, ad_traffic.go
      and xfr.go; Concurrent: the same lookups when the store changes between
      them. Reply: the [Processor] record, the [world] a query reads and
      changes, the state monad [M] of the handlers; cookies, EDNS0 and packing.
      Update, Xfr, Processor: update.go and notify.go, xfr.go, and the pipeline
      of processor.go ([buildResponse], [HandleTCP]).
    - RateLimit: network/rrl.go. Network: udp.go, tcp.go, dot.go, doh.go,
      answer.go, address.go, client_addr.go.
    - Config: the files of config; Summary: its startup_summary.go.
    - Logging: ring.go, broadcast.go, stream_writer.go, multi_handler.go,
      config.go and logger.go of logger; Console: console_handler.go and
      timestamp.go.
    - Reports: telemetry/audit.go and the history of db.go. Retention: the
      workers of flusher.go and the purge of db.go. Schema: the opening
      of the databases and their migrations, of db.go.
    - Http: requests, routes and gates of the API; Handlers: one definition per
      handler of api/zones.go, dnssec.go, firewall.go, settings.go, config.go,
      acl.go, rpz.go, stats.go and logs.go, over one [state]; Api: the routes
      of server.go, the audit middleware and requests from end to end; Puts:
      changes of the configuration that overlap.
    - Runtime: runtime/applier.go. Start: [main] of cmd/arx-dns up to its
      services; Services: the services side by side, signals and shutdown.
      Stream: the loop of the log stream, the sending of NOTIFY, the embedded
      files of api/webui_enabled.go.
    - Tester: cmd/arx-tester.

    The interfaces carry the interaction: Tree and Firewall are proved against
    [RadixLaws], Store against [FileSysLaws] and [KeyDB], Cache against
    [RistrettoLaws], Reply against [DnsMsgLaws], the tables against the laws of
    their statements; each has an instance (named [demo_*], [gtree], [ram],
    [key_table]) on which the witnesses evaluate. The processor is proved for
    any resolver ([ExchangeResolver]) and validator; Upstream, Iterative and
    Validator implement them, and Start puts them together.

    ** What the theorems show

    - Zone store. From the empty store, every sequence of operations keeps both
      trees well formed and no edit of a view touches the other; the tree
      operations refine an abstract store (name and type to records); adding,
      deleting and updating records, creating and deleting zones have exactly
      their described effect, dynamic updates are transactions on unsigned
      zones, the file is replaced as a whole, the SOA cannot be deleted by the
      record API. Notifications that stop are followed by one reload of the
      files as they are.
    - Query path. Local answers: NXDOMAIN exactly for names in no visible tree,
      CNAME chains exactly as specified with loops and depth bounded, the
      public view independent of internal data, even when both change during a
      query, and every answer in force at its moment. Gates: the cache, resolver and
      validator are consulted only for granted recursion, queries change no
      zone, UPDATE changes a zone only with a verified TSIG, an existing zone
      and prerequisites that hold as RFC 2136 says, transfers need every grant
      and carry exactly the zone; policies come before data; bogus answers are
      neither relayed nor cached. Replies carry one OPT record when the request
      did, and their cookie is accepted in the next request.
    - Resolvers. The forwarder answers as soon as one of its servers does; what
      the iterative resolver answers was said by a server it asked, and it walks
      to the last zone of any chain of agreeing servers, or to its depth limit;
      the validator accepts a response along a chain of signatures and digests
      from an anchor and, when there is one, does accept it.
    - Cache. A hit is an answer stored under that key and aged by the elapsed
      time; different questions never share a key.
    - Listeners. A TCP stream serves the same messages however it is cut, a TLS
      connection one after the other to its end, a GET over HTTPS what the POST
      would; a client's allowance depends on its own requests alone.
    - Policies. Concurrent policy edits are linearizable and each completes;
      evaluation and the block decision are sound and, for label-aligned data,
      complete; loading a directory of lists yields exactly its domains.
      Access lists accept exactly the acyclic references and decide as their
      inductive meaning does; query rules decide independently of row order.
    - Signing. Every RRset of a zone is covered by signatures over its records,
      the signed content is the zone's with a bumped serial, the NSEC chain is a
      single cycle through all names (in map order: see the findings).
    - Management. A request without the token changes nothing but the audit
      log; an edit of rules, feeds or settings is refused without effect or has
      its effect on the table, and on the engine when the table can be read
      back; the engines can be built from a saved configuration, and applying
      it leaves the server as a restart would, but for the parts the applier
      never touches; requests and reloads together keep the store's discipline.
      An old database is upgraded without losing a row.
    - Process. A start that fails had at most the API and the plain listeners
      running; every interleaving of the services comes to its end once a
      signal has come or a service has failed, and the exit status says which;
      the log history is the last lines written, the log stream is what was
      published; the rollups account for every counted query until they are
      thirty days old; the tester's verdict is that of its counters in whatever
      order the workers run.
    - Text forms. TTL texts denote their value modulo 2^64 and then a 32-bit
      range check, TXT quoting, record values, root hints and encodings round
      trip; the start-up summary shows no secret.

    ** Bounds and fuel

    Integers of width w are [N] below 2^w with the wrap-around written out
    ([u16], [u32], [u64]); an int is a [Z] or, where it counts, a [nat]. Loops
    over lists are structural. Explicit fuel: the CNAME walk has the source's
    own bound of eight; the iterative resolver's depth is the source's limit
    and its fuel; [ACL.walk] and [ACL.contains_fuel] take one more than the
    number of named lists, which [ACL.resolve_accepts_acyclic] and
    [ACL.list_contains_verdict] show enough; [Records.splitLoop],
    [Xfr.batchLoop] and the framing loop of Network consume at least a byte, a
    record or a frame a round and take the length of their input
    ([Records.txt_roundtrip], [Xfr.xfer_answers_exact] and
    [Network.tcp_serves_frames] depend on its being enough); the address parsers
    of NetAddr have the eight groups and four digits of an IPv6 address. The
    interleavings of Services and Tester are step relations with a measure that
    every step of the code decreases, so a shutdown is bounded by fifty steps
    per [Services.shutdown_completes] and a permutation by its pool.

    ** Abstractions

    Third-party code, the standard library's crypto, the database and the
    operating system are parameters. The maps a Go [range] visits are taken in
    an arbitrary order ([MapRange]). The pipeline of Processor reads one store
    value per query; what changes of the store between its lookups can do is
    shown in Concurrent, for the resolution of a question. Data races on
    configuration fields are not modelled; requests of the API are handled one
    at a time, except for the changes of the configuration in Puts and of the query
    rules in Refresh. Lower-casing and character classes are those of ASCII, except where
    Utf8 is used. Log messages are dropped where the code only writes them;
    counters are a list of increments.

    ** Not modelled

    The libraries the sources call: the event loop of gnet, net/http with its
    multiplexer beyond the routes, crypto/tls, the cache's eviction, the
    rotation of log files, encoding/json and TOML, SQLite beyond the
    statements of the sources, the JSON handler of log/slog. The contents of
    the embedded user interface are data. *)
From stdpp Require Export base tactics list fin_sets gmap strings numbers sorting pretty.
From Stdlib Require Export Ascii.
From Stdlib Require Import Lia.

Declare Scope go_scope.
Delimit Scope go_scope with go.

(** ** Go errors

    [errNew] is [errors.New]/[fmt.Errorf] without [%w] (identified by its
    message or format text), [errWrap] is [fmt.Errorf] with one [%w]. *)
Inductive error :=
| errNew (text : string)
| errWrap (fmt : string) (inner : error).

#[export] Instance error_eq_dec : EqDecision error.
Proof. solve_decision. Defined.

(** [errors.Is]: the target is somewhere on the wrapping chain. *)
Fixpoint errors_is (e target : error) : bool :=
  bool_decide (e = target) ||
  match e with errNew _ => false | errWrap _ e' => errors_is e' target end.

(** ** Results of fallible functions: Go's [(T, error)] pairs *)
Inductive res (A : Type) :=
| Ok (a : A)
| Err (e : error).
Arguments Ok {A} _.
Arguments Err {A} _.

Definition res_bind {A B} (r : res A) (f : A → res B) : res B :=
  match r with Ok a => f a | Err e => Err e end.

(** [if err := e; err != nil { return fmt.Errorf(fmt, err) }] *)
Definition res_wrap {A} (fmt : string) (r : res A) : res A :=
  match r with Ok a => Ok a | Err e => Err (errWrap fmt e) end.

Definition is_ok {A} (r : res A) : bool :=
  match r with Ok _ => true | Err _ => false end.

(** The value of a result known to be [Ok], for closed examples. *)
Definition from_ok {A} (d : A) (r : res A) : A :=
  match r with Ok a => a | Err _ => d end.

Notation "'let?' x ':=' r 'in' k" := (res_bind r (λ x, k))
  (at level 10, x pattern, r at level 100, k at level 200,
   format "'[v' 'let?'  x  ':='  r  'in' '/' k ']'") : go_scope.
Open Scope go_scope.

Fixpoint res_map {A B} (f : A → res B) (l : list A) : res (list B) :=
  match l with
  | [] => Ok []
  | x :: l' => let? y := f x in let? ys := res_map f l' in Ok (y :: ys)
  end.

(** ** Machine integers: unsigned values are [N] kept below [2^w] *)
Definition u16 (n : N) : N := (n mod 65536)%N.
Definition u32 (n : N) : N := (n mod 4294967296)%N.
Definition u64 (n : N) : N := (n mod 18446744073709551616)%N.
Definition max_u32 : N := 4294967295%N.

(** ** Byte strings *)
Definition bytes (s : string) : list ascii := String.list_ascii_of_string s.
Definition mk (l : list ascii) : string := String.string_of_list_ascii l.
Definition code (c : ascii) : N := N_of_ascii c.

Definition slen (s : string) : nat := length (bytes s).

(** Byte classes; bytes above 127 belong to none of them. *)
Definition is_space (c : ascii) : bool :=
  ((9 <=? code c) && (code c <=? 13) || (code c =? 32))%N.
Definition is_digit (c : ascii) : bool := ((48 <=? code c) && (code c <=? 57))%N.
Definition is_upper (c : ascii) : bool := ((65 <=? code c) && (code c <=? 90))%N.
Definition is_lower (c : ascii) : bool := ((97 <=? code c) && (code c <=? 122))%N.
Definition is_letter (c : ascii) : bool := is_upper c || is_lower c.
Definition lower (c : ascii) : ascii :=
  if is_upper c then ascii_of_N (code c + 32) else c.
Definition upper (c : ascii) : ascii :=
  if is_lower c then ascii_of_N (code c - 32) else c.

(** [strings.ToLower], [strings.ToUpper], [strings.EqualFold] on ASCII. *)
Definition to_lower (s : string) : string := mk (map lower (bytes s)).
Definition to_upper (s : string) : string := mk (map upper (bytes s)).
Definition equal_fold (s t : string) : bool := bool_decide (to_lower s = to_lower t).

(** [strings.TrimSpace]. *)
Fixpoint drop_while {A} (p : A → bool) (l : list A) : list A :=
  match l with
  | [] => []
  | x :: l' => if p x then drop_while p l' else l
  end.
Definition drop_while_end {A} (p : A → bool) (l : list A) : list A :=
  reverse (drop_while p (reverse l)).
Definition trim {A} (p : A → bool) (l : list A) : list A :=
  drop_while_end p (drop_while p l).
Definition trim_space (s : string) : string := mk (trim is_space (bytes s)).

(** [strings.HasPrefix], [HasSuffix], [TrimPrefix], [TrimSuffix], [Contains]. *)
Definition has_prefix (s p : string) : bool := bool_decide (bytes p `prefix_of` bytes s).
Definition has_suffix (s p : string) : bool := bool_decide (bytes p `suffix_of` bytes s).
Definition trim_prefix (s p : string) : string :=
  if has_prefix s p then mk (drop (slen p) (bytes s)) else s.
Definition trim_suffix (s p : string) : string :=
  if has_suffix s p then mk (take (slen s - slen p) (bytes s)) else s.

Fixpoint sub_at (l sub : list ascii) : bool :=
  bool_decide (sub `prefix_of` l) ||
  match l with [] => false | _ :: l' => sub_at l' sub end.
Definition contains (s sub : string) : bool := sub_at (bytes s) (bytes sub).
Definition contains_any (s chars : string) : bool :=
  existsb (λ c, bool_decide (c ∈ bytes chars)) (bytes s).

(** [strings.Split] on one byte, [strings.Join], [strings.Fields]. *)
Fixpoint split_with (p : ascii → bool) (l : list ascii) : list (list ascii) :=
  match l with
  | [] => [[]]
  | c :: l' =>
      if p c then [] :: split_with p l'
      else match split_with p l' with
           | [] => [[c]]
           | w :: ws => (c :: w) :: ws
           end
  end.
Fixpoint join_with (sep : list ascii) (ws : list (list ascii)) : list ascii :=
  match ws with
  | [] => []
  | [w] => w
  | w :: ws' => w ++ sep ++ join_with sep ws'
  end.
Definition is_char (c x : ascii) : bool := bool_decide (x = c).
Definition split (s : string) (sep : ascii) : list string :=
  map mk (split_with (is_char sep) (bytes s)).
Definition join (ws : list string) (sep : string) : string :=
  mk (join_with (bytes sep) (map bytes ws)).
Definition fields (s : string) : list string :=
  map mk (List.filter (λ w, negb (bool_decide (w = []))) (split_with is_space (bytes s))).

(** [strings.IndexByte(s, c)] followed by [s[:idx]] when found. *)
Fixpoint take_until (p : ascii → bool) (l : list ascii) : list ascii :=
  match l with
  | [] => []
  | c :: l' => if p c then [] else c :: take_until p l'
  end.

(** [strconv.ParseUint(s, 10, bits)] and [strconv.FormatUint(n, 10)]. *)
Fixpoint digits_val (acc : N) (l : list ascii) : option N :=
  match l with
  | [] => Some acc
  | c :: l' => if is_digit c then digits_val (acc * 10 + (code c - 48)) l' else None
  end%N.
Definition parse_uint (bits : N) (s : string) : option N :=
  match bytes s with
  | [] => None
  | l => match digits_val 0 l with
         | Some n => if (n <? 2 ^ bits)%N then Some n else None
         | None => None
         end
  end.
(** [strconv.Atoi]/[ParseInt(s, 10, 64)]: optional sign, int64 range. *)
Definition atoi (s : string) : option Z :=
  match bytes s with
  | "-"%char :: l =>
      match parse_uint 64 (mk l) with
      | Some n => if (n <=? 2 ^ 63)%N then Some (- Z.of_N n)%Z else None
      | None => None
      end
  | "+"%char :: l =>
      match parse_uint 64 (mk l) with
      | Some n => if (n <? 2 ^ 63)%N then Some (Z.of_N n) else None
      | None => None
      end
  | _ =>
      match parse_uint 64 s with
      | Some n => if (n <? 2 ^ 63)%N then Some (Z.of_N n) else None
      | None => None
      end
  end.
Definition format_uint (n : N) : string := pretty n.

(** Byte-wise string comparison, Go's [<] on strings. *)
Fixpoint bytes_lt (l k : list ascii) : bool :=
  match l, k with
  | _, [] => false
  | [], _ :: _ => true
  | x :: l', y :: k' =>
      (code x <? code y)%N || ((code x =? code y)%N && bytes_lt l' k')
  end.
Definition str_lt (s t : string) : bool := bytes_lt (bytes s) (bytes t).

(** The range of a Go [map]: an unspecified order on its entries. *)
Class MapRange := {
  range : ∀ {K V : Type} `{Countable K}, gmap K V → list (K * V);
  range_perm : ∀ {K V : Type} `{Countable K} (m : gmap K V),
    range m ≡ₚ map_to_list m
}.

(** One admissible order, used to evaluate witnesses. *)
#[export] Program Instance map_to_list_range : MapRange | 100 :=
  {| range := λ K V _ _ m, map_to_list m |}.
Next Obligation. done. Qed.

(** * Automation *)
Arguments trim_space : simpl never.
Arguments to_lower : simpl never.
Arguments to_upper : simpl never.
Arguments equal_fold : simpl never.
Arguments has_prefix : simpl never.
Arguments has_suffix : simpl never.
Arguments trim_prefix : simpl never.
Arguments trim_suffix : simpl never.
Arguments contains : simpl never.
Arguments contains_any : simpl never.
Arguments split : simpl never.
Arguments join : simpl never.
Arguments fields : simpl never.
Arguments parse_uint : simpl never.
Arguments atoi : simpl never.
Arguments format_uint : simpl never.
Arguments slen : simpl never.
Arguments bool_decide : simpl never.
Arguments decide : simpl never.
Arguments String.eq_dec : simpl never.
Arguments Ascii.eq_dec : simpl never.
Arguments option_eq_dec : simpl never.

Create HintDb arx.
Create Rewrite HintDb arx.

(** Case analysis on every stuck [match]/[if] of the goal, cleaning up. *)
Ltac go_cases := repeat (case_match; simplify_eq/=).

(** Decide the string comparisons of the goal between constants. *)
Ltac decide_strings :=
  repeat match goal with
  | |- context [bool_decide (?a = ?b)] =>
      first [ rewrite (bool_decide_true (a = b)) by reflexivity
            | rewrite (bool_decide_false (a = b)) by discriminate ]
  end; cbn [orb andb negb].

(** Turn boolean tests of the hypotheses into propositions. *)
Ltac bool_hyps :=
  repeat match goal with
  | H : bool_decide _ = true |- _ => apply bool_decide_eq_true in H
  | H : bool_decide _ = false |- _ => apply bool_decide_eq_false in H
  | H : _ && _ = true |- _ => apply andb_true_iff in H as [? ?]
  | H : _ || _ = false |- _ => apply orb_false_iff in H as [? ?]
  | H : negb _ = true |- _ => apply negb_true_iff in H
  | H : negb _ = false |- _ => apply negb_false_iff in H
  | H : (_ <? _)%N = true |- _ => apply N.ltb_lt in H
  | H : (_ <? _)%N = false |- _ => apply N.ltb_ge in H
  | H : (_ <=? _)%N = true |- _ => apply N.leb_le in H
  | H : (_ <=? _)%N = false |- _ => apply N.leb_gt in H
  | H : (_ =? _)%N = true |- _ => apply N.eqb_eq in H
  | H : (_ =? _)%N = false |- _ => apply N.eqb_neq in H
  end; simplify_eq.

(** * Lemmas: results *)
Lemma from_ok_eq {A} (d : A) r : is_ok r = true → r = Ok (from_ok d r).
Proof. by destruct r. Qed.

Lemma res_bind_ok {A B} (r : res A) (f : A → res B) b :
  res_bind r f = Ok b ↔ ∃ a, r = Ok a ∧ f a = Ok b.
Proof. destruct r; naive_solver. Qed.

Lemma res_bind_err {A B} (r : res A) (f : A → res B) e :
  res_bind r f = Err e ↔ r = Err e ∨ ∃ a, r = Ok a ∧ f a = Err e.
Proof. destruct r; naive_solver. Qed.

Lemma res_wrap_ok {A} fmt (r : res A) a : res_wrap fmt r = Ok a ↔ r = Ok a.
Proof. destruct r; naive_solver. Qed.

#[export] Hint Rewrite @res_bind_ok @res_wrap_ok : arx.

Lemma res_map_ok {A B} (f : A → res B) l ys :
  res_map f l = Ok ys ↔ Forall2 (λ x y, f x = Ok y) l ys.
Proof.
  revert ys. induction l as [|x l IH]; intros ys; simpl.
  - split; [by intros [= <-] | by inversion 1].
  - rewrite res_bind_ok. setoid_rewrite res_bind_ok. setoid_rewrite IH. split.
    + intros (y & ? & ys' & ? & [= <-]). by constructor.
    + inversion 1; subst. eauto 10.
Qed.

(** * Lemmas: byte strings *)
Lemma bytes_mk l : bytes (mk l) = l.
Proof. apply String.list_ascii_of_string_of_list_ascii. Qed.

Lemma mk_bytes s : mk (bytes s) = s.
Proof. apply String.string_of_list_ascii_of_string. Qed.

Lemma bytes_inj s t : bytes s = bytes t → s = t.
Proof. intros H. by rewrite <-(mk_bytes s), H, mk_bytes. Qed.

Lemma mk_inj l k : mk l = mk k → l = k.
Proof. intros H. by rewrite <-(bytes_mk l), H, bytes_mk. Qed.

Lemma bytes_app s t : bytes (s +:+ t) = bytes s ++ bytes t.
Proof. induction s; simpl; by f_equal. Qed.

Lemma mk_app l k : mk (l ++ k) = mk l +:+ mk k.
Proof. apply bytes_inj. by rewrite bytes_app, !bytes_mk. Qed.

Lemma bytes_nil s : bytes s = [] ↔ s = "".
Proof. by destruct s. Qed.

#[export] Hint Rewrite bytes_mk mk_bytes bytes_app : arx.

Lemma has_prefix_spec s p : has_prefix s p = true ↔ ∃ t, s = p +:+ t.
Proof.
  unfold has_prefix. rewrite bool_decide_eq_true. split.
  - intros [k Hk]. exists (mk k). apply bytes_inj. by autorewrite with arx.
  - intros [t ->]. exists (bytes t). by autorewrite with arx.
Qed.

Lemma has_suffix_spec s p : has_suffix s p = true ↔ ∃ t, s = t +:+ p.
Proof.
  unfold has_suffix. rewrite bool_decide_eq_true. split.
  - intros [k Hk]. exists (mk k). apply bytes_inj. by autorewrite with arx.
  - intros [t ->]. exists (bytes t). by autorewrite with arx.
Qed.

Lemma trim_suffix_app s p : trim_suffix (s +:+ p) p = s.
Proof.
  unfold trim_suffix. rewrite (proj2 (has_suffix_spec _ _)) by eauto.
  unfold slen. rewrite bytes_app, length_app, Nat.add_sub, take_app_length.
  apply mk_bytes.
Qed.

Lemma trim_prefix_app s p : trim_prefix (p +:+ s) p = s.
Proof.
  unfold trim_prefix. rewrite (proj2 (has_prefix_spec _ _)) by eauto.
  unfold slen. rewrite bytes_app, drop_app_length. apply mk_bytes.
Qed.

Lemma trim_suffix_no s p : has_suffix s p = false → trim_suffix s p = s.
Proof. unfold trim_suffix. by intros ->. Qed.

(** ** Case folding *)
Lemma code_inj c d : code c = code d → c = d.
Proof.
  unfold code. intros H. apply (f_equal ascii_of_N) in H.
  by rewrite !ascii_N_embedding in H.
Qed.

Lemma code_lt c : (code c < 256)%N.
Proof. apply N_ascii_bounded. Qed.

Lemma code_of_N n : (n < 256)%N → code (ascii_of_N n) = n.
Proof. apply N_ascii_embedding. Qed.

Lemma code_lower c :
  code (lower c) = if is_upper c then (code c + 32)%N else code c.
Proof.
  unfold lower. destruct (is_upper c) eqn:H; [|done].
  unfold is_upper in H. bool_hyps. apply code_of_N. lia.
Qed.

Lemma lower_not_upper c : is_upper (lower c) = false.
Proof.
  unfold is_upper at 1. rewrite code_lower.
  destruct (is_upper c) eqn:H; [|done].
  unfold is_upper in H. bool_hyps. apply andb_false_iff. right. apply N.leb_gt. lia.
Qed.

Lemma lower_idemp c : lower (lower c) = lower c.
Proof. unfold lower at 1. by rewrite lower_not_upper. Qed.

Lemma lower_is_space c : is_space (lower c) = is_space c.
Proof.
  unfold is_space. rewrite code_lower. destruct (is_upper c) eqn:H; [|done].
  unfold is_upper in H. bool_hyps.
  destruct (code c + 32 <=? 13)%N eqn:?, (code c + 32 =? 32)%N eqn:?,
    (code c <=? 13)%N eqn:?, (code c =? 32)%N eqn:?; bool_hyps; try lia;
    by rewrite !andb_false_r.
Qed.

Lemma lower_dot c : lower c = "."%char ↔ c = "."%char.
Proof.
  split; [|by intros ->]. intros H. apply code_inj.
  assert (Hc : code (lower c) = 46%N) by by rewrite H.
  rewrite code_lower in Hc. destruct (is_upper c) eqn:Hu; [|done].
  unfold is_upper in Hu. bool_hyps. lia.
Qed.

Lemma to_lower_idemp s : to_lower (to_lower s) = to_lower s.
Proof.
  unfold to_lower. rewrite bytes_mk, map_map. f_equal.
  apply map_ext, lower_idemp.
Qed.

Lemma to_lower_app s t : to_lower (s +:+ t) = to_lower s +:+ to_lower t.
Proof. unfold to_lower. by rewrite bytes_app, map_app, mk_app. Qed.

Lemma slen_to_lower s : slen (to_lower s) = slen s.
Proof. unfold slen, to_lower. by rewrite bytes_mk, length_map. Qed.

Lemma slen_app s t : slen (s +:+ t) = slen s + slen t.
Proof. unfold slen. by rewrite bytes_app, length_app. Qed.

(** ** Trimming *)
Definition starts_ok {A} (p : A → bool) (l : list A) : Prop :=
  match l with [] => True | x :: _ => p x = false end.

Lemma drop_while_starts {A} (p : A → bool) l : starts_ok p (drop_while p l).
Proof. induction l as [|x l IH]; simpl; [done|]. by destruct (p x) eqn:?. Qed.

Lemma drop_while_id {A} (p : A → bool) l : starts_ok p l → drop_while p l = l.
Proof. destruct l; simpl; [done|]. by intros ->. Qed.

Lemma drop_while_suffix {A} (p : A → bool) l : drop_while p l `suffix_of` l.
Proof.
  induction l as [|x l IH]; simpl; [done|].
  destruct (p x); [by apply suffix_cons_r | done].
Qed.

Lemma drop_while_end_starts {A} (p : A → bool) l :
  starts_ok p l → starts_ok p (drop_while_end p l).
Proof.
  intros Hs. unfold drop_while_end.
  destruct (drop_while_suffix p (reverse l)) as [k Hk].
  revert Hk. generalize (drop_while p (reverse l)) as d. intros d Hk.
  apply (f_equal reverse) in Hk. rewrite reverse_involutive, reverse_app in Hk.
  rewrite Hk in Hs. by destruct (reverse d).
Qed.

Lemma trim_id {A} (p : A → bool) l :
  starts_ok p l → starts_ok p (reverse l) → trim p l = l.
Proof.
  intros ??. unfold trim, drop_while_end.
  rewrite (drop_while_id p l), (drop_while_id p (reverse l)) by done.
  apply reverse_involutive.
Qed.

Lemma trim_ok {A} (p : A → bool) l :
  starts_ok p (trim p l) ∧ starts_ok p (reverse (trim p l)).
Proof.
  unfold trim. split.
  - apply drop_while_end_starts, drop_while_starts.
  - unfold drop_while_end. rewrite reverse_involutive. apply drop_while_starts.
Qed.

Lemma trim_idemp {A} (p : A → bool) l : trim p (trim p l) = trim p l.
Proof. destruct (trim_ok p l). by apply trim_id. Qed.

Lemma starts_ok_map {A} (p : A → bool) f l :
  (∀ x, p (f x) = p x) → starts_ok p l → starts_ok p (map f l).
Proof. intros Hf. destruct l; simpl; [done|]. by rewrite Hf. Qed.

(** A string that [TrimSpace] leaves alone. *)
Definition trimmed (s : string) : Prop :=
  starts_ok is_space (bytes s) ∧ starts_ok is_space (reverse (bytes s)).

Lemma trim_space_trimmed s : trimmed (trim_space s).
Proof. unfold trimmed, trim_space. rewrite bytes_mk. apply trim_ok. Qed.

Lemma trimmed_trim s : trimmed s → trim_space s = s.
Proof. intros []. unfold trim_space. by rewrite trim_id, mk_bytes. Qed.

Lemma trim_space_idemp s : trim_space (trim_space s) = trim_space s.
Proof. apply trimmed_trim, trim_space_trimmed. Qed.

Lemma trimmed_lower s : trimmed s → trimmed (to_lower s).
Proof.
  intros []. unfold trimmed, to_lower. rewrite bytes_mk. split.
  - by apply starts_ok_map; [apply lower_is_space|].
  - unfold reverse in *. rewrite rev_append_rev, app_nil_r, <-map_rev in *.
    by apply starts_ok_map; [apply lower_is_space|].
Qed.

Lemma upper_is_space c : is_space (upper c) = is_space c.
Proof. by destruct c as [[] [] [] [] [] [] [] []]. Qed.

Lemma upper_idemp c : upper (upper c) = upper c.
Proof. by destruct c as [[] [] [] [] [] [] [] []]. Qed.

Lemma to_upper_idemp s : to_upper (to_upper s) = to_upper s.
Proof. unfold to_upper. rewrite bytes_mk, map_map. f_equal. apply map_ext, upper_idemp. Qed.

Lemma trimmed_upper s : trimmed s → trimmed (to_upper s).
Proof.
  intros []. unfold trimmed, to_upper. rewrite bytes_mk. split.
  - by apply starts_ok_map; [apply upper_is_space|].
  - unfold reverse in *. rewrite rev_append_rev, app_nil_r, <-map_rev in *.
    by apply starts_ok_map; [apply upper_is_space|].
Qed.

Lemma trimmed_snoc s c :
  trimmed s → is_space c = false → trimmed (s +:+ String c "").
Proof.
  intros [H1 H2] Hc. unfold trimmed. rewrite bytes_app. simpl. split.
  - by destruct (bytes s).
  - by rewrite reverse_snoc.
Qed.

#[export] Hint Resolve trim_space_trimmed trimmed_lower trimmed_upper trimmed_snoc : arx.

(** ** Splitting and joining *)
Lemma split_with_nonnil p l : split_with p l ≠ [].
Proof.
  destruct l as [|c l]; simpl; [done|]. destruct (p c); [done|].
  by destruct (split_with p l).
Qed.

Lemma join_split_with c l : join_with [c] (split_with (is_char c) l) = l.
Proof.
  induction l as [|x l IH]; simpl; [done|].
  pose proof (split_with_nonnil (is_char c) l).
  destruct (is_char c x) eqn:Hx.
  - unfold is_char in Hx. bool_hyps. simpl.
    destruct (split_with _ l); [done|]. by rewrite IH.
  - destruct (split_with _ l) as [|w ws]; [done|].
    destruct ws; simpl in *; by rewrite IH.
Qed.

Lemma split_with_app p w l :
  Forall (λ x, p x = false) w →
  split_with p (w ++ l) =
    match split_with p l with [] => [w] | v :: vs => (w ++ v) :: vs end.
Proof.
  induction 1 as [|x w Hx _ IH]; simpl.
  - by destruct (split_with p l) eqn:?; [destruct (split_with_nonnil p l)|].
  - rewrite Hx, IH. by destruct (split_with p l).
Qed.

Lemma split_with_snoc p l c : p c = true → split_with p (l ++ [c]) = split_with p l ++ [[]].
Proof.
  intros Hc. induction l as [|x l IH]; cbn [split_with app]; [by rewrite Hc|].
  rewrite IH. destruct (p x); [done|].
  pose proof (split_with_nonnil p l). by destruct (split_with p l).
Qed.

Lemma split_join_gen p c ws :
  p c = true → ws ≠ [] → Forall (Forall (λ x, p x = false)) ws →
  split_with p (join_with [c] ws) = ws.
Proof.
  intros Hc Hne Hall. induction Hall as [|w ws Hw Hws IH]; [done|].
  destruct ws as [|v ws].
  - simpl. rewrite <-(app_nil_r w) at 1. rewrite split_with_app by done.
    simpl. by rewrite app_nil_r.
  - change (join_with [c] (w :: v :: ws)) with (w ++ c :: join_with [c] (v :: ws)).
    rewrite split_with_app by done. simpl. rewrite Hc, app_nil_r. f_equal. by apply IH.
Qed.

Lemma split_join_with c ws :
  ws ≠ [] → Forall (Forall (λ x, is_char c x = false)) ws →
  split_with (is_char c) (join_with [c] ws) = ws.
Proof. apply split_join_gen. by apply bool_decide_true. Qed.

Lemma split_with_words p l : Forall (Forall (λ x, p x = false)) (split_with p l).
Proof.
  induction l as [|x l IH]; simpl; [by repeat constructor|].
  destruct (p x) eqn:Hx; [by constructor|].
  destruct (split_with p l); [by repeat constructor|].
  inversion IH; subst. by repeat constructor.
Qed.

Lemma join_with_app sep ws vs :
  ws ≠ [] → vs ≠ [] →
  join_with sep (ws ++ vs) = join_with sep ws ++ sep ++ join_with sep vs.
Proof.
  intros Hws Hvs. induction ws as [|w [|w' ws] IH]; [done|..].
  - simpl. by destruct vs.
  - change (join_with sep ((w :: w' :: ws) ++ vs))
      with (w ++ sep ++ join_with sep ((w' :: ws) ++ vs)).
    rewrite IH by done. simpl. by rewrite <-!app_assoc.
Qed.

Lemma bytes_join ws sep : bytes (join ws sep) = join_with (bytes sep) (map bytes ws).
Proof. apply bytes_mk. Qed.

Lemma map_bytes_mk ls : map bytes (map mk ls) = ls.
Proof. rewrite map_map, (map_ext _ id); [apply map_id | apply bytes_mk]. Qed.

Lemma map_mk_bytes ss : map mk (map bytes ss) = ss.
Proof. rewrite map_map, (map_ext _ id); [apply map_id | apply mk_bytes]. Qed.

Lemma join_split s c : join (split s c) (mk [c]) = s.
Proof.
  apply bytes_inj. rewrite bytes_join, bytes_mk. unfold split. rewrite map_bytes_mk.
  apply join_split_with.
Qed.

(** A word [Fields] can return. *)
Definition word (w : string) : Prop :=
  w ≠ "" ∧ Forall (λ c, is_space c = false) (bytes w).

Lemma fields_words s : Forall word (fields s).
Proof.
  unfold fields. apply Forall_forall. intros x (l & <- & Hl)%list_elem_of_In%in_map_iff.
  apply filter_In in Hl as [Hin Hne]. bool_hyps. unfold word. rewrite bytes_mk. split.
  - by intros E%(f_equal bytes); rewrite bytes_mk in E.
  - pose proof (split_with_words is_space (bytes s)) as Hw.
    rewrite Forall_forall in Hw. by apply Hw, list_elem_of_In.
Qed.

Lemma fields_join ws : Forall word ws → ws ≠ [] → fields (join ws " ") = ws.
Proof.
  intros Hws Hne. unfold fields. rewrite bytes_join.
  change (bytes " ") with [" "%char]. rewrite split_join_gen.
  - rewrite (proj2 (List.filter_ext_in_iff _ (λ _, true) _)).
    + rewrite List.filter_true. apply map_mk_bytes.
    + intros l (w & <- & Hw%list_elem_of_In)%in_map_iff.
      rewrite Forall_forall in Hws. destruct (Hws w Hw) as [Hn _].
      rewrite bool_decide_false; [done|]. by rewrite bytes_nil.
  - done.
  - by destruct ws.
  - apply Forall_map. eapply Forall_impl; [exact Hws|]. by intros w [].
Qed.

Lemma word_trimmed w : word w → trimmed w.
Proof.
  intros [_ Hw]. split; [by destruct Hw|]. apply Forall_reverse in Hw. by destruct Hw.
Qed.

Lemma join_words_trimmed ws : Forall word ws → trimmed (join ws " ").
Proof.
  intros Hws. unfold trimmed. rewrite bytes_join. change (bytes " ") with [" "%char].
  assert (∀ l, starts_ok is_space l → ∀ k, l ≠ [] → starts_ok is_space (l ++ k)) as Hst
    by (by intros [|c l]).
  induction Hws as [|w ws [Hw1 Hw2] Hws IH]; [done|].
  rewrite <-bytes_nil in Hw1.
  assert (starts_ok is_space (bytes w) ∧ starts_ok is_space (reverse (bytes w))) as [S1 S2].
  { split; [by destruct Hw2|]. apply Forall_reverse in Hw2. by destruct Hw2. }
  destruct ws as [|v ws]; [done|].
  change (join_with [" "%char] (map bytes (w :: v :: ws)))
    with (bytes w ++ [" "%char] ++ join_with [" "%char] (map bytes (v :: ws))).
  destruct IH as [I1 I2]. split; [by apply Hst|].
  rewrite !reverse_app. rewrite <-app_assoc. apply Hst; [done|].
  intros E%(f_equal reverse). rewrite reverse_involutive in E.
  apply Forall_inv in Hws as [Hv _]. rewrite <-bytes_nil in Hv.
  cbn [map] in E. destruct (map bytes ws); cbn in E; [done|].
  by destruct (bytes v).
Qed.

(** ** Decimal numbers *)
Lemma digits_val_app acc l k :
  digits_val acc (l ++ k) = match digits_val acc l with Some n => digits_val n k | None => None end.
Proof.
  revert acc. induction l as [|c l IH]; intros acc; simpl; [done|].
  destruct (is_digit c); [apply IH | done].
Qed.

Lemma pretty_digit n : (n < 10)%N →
  is_digit (pretty_N_char n) = true ∧ (code (pretty_N_char n) - 48)%N = n.
Proof.
  intros. assert (n = 0 ∨ n = 1 ∨ n = 2 ∨ n = 3 ∨ n = 4 ∨ n = 5 ∨ n = 6 ∨ n = 7
    ∨ n = 8 ∨ n = 9)%N by lia. naive_solver.
Qed.

Lemma pretty_go_digits n s :
  ∃ l, bytes (pretty_N_go n s) = l ++ bytes s ∧ digits_val 0 l = Some n ∧
    Forall (λ c, is_digit c = true) l.
Proof.
  revert s. induction (N.lt_wf_0 n) as [n _ IH]; intros s.
  destruct (decide (n = 0)%N) as [->|].
  { exists []. by rewrite pretty_N_go_0. }
  rewrite pretty_N_go_step by lia.
  assert (n `div` 10 < n)%N as Hlt by (apply N.div_lt; lia).
  destruct (IH _ Hlt (String (pretty_N_char (n `mod` 10)) s)) as (l & Hl & Hv & Hd).
  exists (l ++ [pretty_N_char (n `mod` 10)]).
  destruct (pretty_digit (n `mod` 10)) as [Hd1 Hd2]; [by apply N.mod_lt|].
  rewrite Hl, <-app_assoc. split_and!; [done| |].
  - rewrite digits_val_app, Hv. simpl. rewrite Hd1, Hd2. f_equal.
    rewrite N.mul_comm. symmetry. by apply N.div_mod.
  - by apply Forall_app; split; [|constructor].
Qed.

Lemma format_uint_digits n :
  digits_val 0 (bytes (format_uint n)) = Some n ∧
  Forall (λ c, is_digit c = true) (bytes (format_uint n)) ∧
  bytes (format_uint n) ≠ [].
Proof.
  unfold format_uint, pretty, pretty_N. case_decide; subst.
  { split_and!; [done| by constructor | done]. }
  destruct (pretty_go_digits n "") as (l & -> & Hv & Hd).
  rewrite app_nil_r. split_and!; [done..|]. intros ->. simpl in Hv. naive_solver.
Qed.

Lemma digit_not_space c : is_digit c = true → is_space c = false.
Proof.
  unfold is_digit, is_space. intros. bool_hyps.
  rewrite (proj2 (N.leb_gt (code c) 13)) by lia. rewrite andb_false_r. cbn [orb].
  apply N.eqb_neq. lia.
Qed.

Lemma format_uint_word n : word (format_uint n).
Proof.
  destruct (format_uint_digits n) as (_ & Hd & Hne). split.
  - by rewrite <-bytes_nil.
  - eapply Forall_impl; [exact Hd|]. apply digit_not_space.
Qed.

#[export] Hint Resolve format_uint_word word_trimmed join_words_trimmed : arx.

Lemma parse_format_uint bits n :
  (n < 2 ^ bits)%N → parse_uint bits (format_uint n) = Some n.
Proof.
  intros Hn. destruct (format_uint_digits n) as (Hv & _ & Hne).
  unfold parse_uint. destruct (bytes (format_uint n)); [done|].
  rewrite Hv. by apply N.ltb_lt in Hn as ->.
Qed.

Lemma parse_uint_lt bits s n : parse_uint bits s = Some n → (n < 2 ^ bits)%N.
Proof.
  unfold parse_uint. intros H. repeat case_match; simplify_eq. by bool_hyps.
Qed.

Lemma u32_lt n : (u32 n < 4294967296)%N.
Proof. by apply N.mod_lt. Qed.

Lemma u32_id n : (n < 4294967296)%N → u32 n = n.
Proof. apply N.mod_small. Qed.

#[export] Hint Resolve u32_lt : arx.

(** [Atoi] of a plain decimal text. *)
Lemma atoi_digits s c l :
  bytes s = c :: l → is_digit c = true →
  atoi s = match parse_uint 64 s with
           | Some n => if (n <? 2 ^ 63)%N then Some (Z.of_N n) else None
           | None => None
           end.
Proof.
  intros Hs Hc. unfold atoi. rewrite Hs.
  destruct c as [[] [] [] [] [] [] [] []]; first [reflexivity | by vm_compute in Hc].
Qed.

Lemma atoi_format_uint n : (n < 2 ^ 63)%N → atoi (format_uint n) = Some (Z.of_N n).
Proof.
  intros Hn. destruct (format_uint_digits n) as (_ & Hd & Hne).
  destruct (bytes (format_uint n)) as [|c l] eqn:E; [done|].
  rewrite (atoi_digits _ c l) by (done || by inversion Hd).
  rewrite parse_format_uint by lia. by rewrite (proj2 (N.ltb_lt _ _)).
Qed.

Lemma trim_space_blank t : trimmed t → trim_space (" " +:+ t) = t.
Proof.
  intros [T1 T2]. unfold trim_space. rewrite bytes_app.
  change (trim is_space (bytes " " ++ bytes t)) with (trim is_space (bytes t)).
  rewrite trim_id by done. apply mk_bytes.
Qed.

Lemma join_single w sep : join [w] sep = w.
Proof. apply mk_bytes. Qed.

Lemma join_cons w v ws sep : join (w :: v :: ws) sep = w +:+ sep +:+ join (v :: ws) sep.
Proof. apply bytes_inj. rewrite !bytes_app, !bytes_join. done. Qed.

(** [bytes_lt] is a strict total order. *)
Lemma bytes_lt_irrefl l : bytes_lt l l = false.
Proof. induction l as [|x l IH]; [done|]. cbn [bytes_lt]. by rewrite N.ltb_irrefl, IH, andb_false_r. Qed.

Lemma bytes_lt_cons x y l k :
  bytes_lt (x :: l) (y :: k) = true ↔
  (code x < code y)%N ∨ (x = y ∧ bytes_lt l k = true).
Proof.
  cbn [bytes_lt]. rewrite orb_true_iff, andb_true_iff, N.ltb_lt, N.eqb_eq.
  split; (intros [?|[E ?]]; [by left|right]); [split; [by apply code_inj | done]|by subst].
Qed.

Lemma bytes_lt_trans l k m :
  bytes_lt l k = true → bytes_lt k m = true → bytes_lt l m = true.
Proof.
  revert k m. induction l as [|x l IH]; intros [|y k] [|z m]; try done.
  rewrite !bytes_lt_cons. intros [?|[-> ?]] [?|[-> ?]]; [left; lia|left; lia|by left|].
  right. split; [done|]. eauto.
Qed.

Lemma bytes_lt_total l k : bytes_lt l k = false → bytes_lt k l = false → l = k.
Proof.
  revert k. induction l as [|x l IH]; intros [|y k] H1 H2; [done..|].
  assert (E : code x = code y).
  { destruct (N.lt_trichotomy (code x) (code y)) as [H|[H|H]]; [|done|].
    - assert (bytes_lt (x :: l) (y :: k) = true) by (apply bytes_lt_cons; by left). congruence.
    - assert (bytes_lt (y :: k) (x :: l) = true) by (apply bytes_lt_cons; by left). congruence. }
  apply code_inj in E as ->. f_equal. cbn [bytes_lt] in H1, H2.
  rewrite N.ltb_irrefl, N.eqb_refl in H1, H2. by apply IH.
Qed.

Lemma str_lt_irrefl s : str_lt s s = false.
Proof. apply bytes_lt_irrefl. Qed.
Lemma str_lt_trans s t u : str_lt s t = true → str_lt t u = true → str_lt s u = true.
Proof. apply bytes_lt_trans. Qed.
Lemma str_lt_total s t : str_lt s t = false → str_lt t s = false → s = t.
Proof. intros H1 H2. by apply bytes_inj, bytes_lt_total. Qed.

(** ** Sums over a list, one element of which changes *)
Lemma sum_insert {A} (f : A → nat) l i x y : l !! i = Some x →
  sum_list_with f (<[i := y]> l) + f x = sum_list_with f l + f y.
Proof.
  revert i. induction l as [|z l IH]; intros [|i]; simpl; [done..| |].
  - intros [= ->]. lia.
  - intros H. specialize (IH i H). simpl in *. lia.
Qed.

Lemma sum_lookup {A} (f : A → nat) l i x : l !! i = Some x → f x ≤ sum_list_with f l.
Proof. revert i. induction l as [|z l IH]; intros [|i]; cbn; [done..|intros [= ->]; lia|intros H%IH; lia]. Qed.

Lemma sum_replicate {A} (f : A → nat) n x : sum_list_with f (replicate n x) = n * f x.
Proof. induction n as [|n IH]; cbn; [done|]. rewrite IH. lia. Qed.
