(* ===== verification/Telemetry.v ===== *)
(** * Telemetry: internal/telemetry/stats.go, flusher.go, prometheus.go, db.go

    [Counters]: the counters of the server, of which every component reports
    the increments, and their snapshot. [Telemetry]: the rollups persisted
    every minute, over an interface of the database, the metrics exported to
    Prometheus, and the time windows of the history. *)
From S2P Require Import Prelude.

Module Counters.

(** The atomic fields of [Stats]. *)
Inductive cell :=
| totalQueries | udpQueries | tcpQueries | dotQueries | dohQueries | droppedPackets
| parseErrors | writeErrors | refusedAnswers | authoritativeAnswers | nxdomainAnswers
| forwardedQueries | localQueries | upstreamQueries | upstreamFailures | cacheHits
| cacheMisses | negativeCacheHits | aclRejected | refusedQueries | truncatedResponses
| tcpTimeouts | firewallBlocked | rpzMatched | dnssecValidationsPassed
| dnssecValidationsFailed | rrlDropped | cookiesVerified | cookiesRejected
| ecsQueriesForwarded | xfrCompleted | xfrRefused | notifySent | notifyFailed
| qnameMinFallbacks | rttTrackedIPs.

(** The [Inc] methods. *)
Inductive counter :=
| TotalQuery | UDPQuery | TCPQuery | DoTQuery | DoHQuery | Dropped | ParseError | WriteError
| RefusedAnswer | AuthoritativeAnswer | NXDomainAnswer | ForwardedQuery | LocalQuery
| UpstreamQuery | UpstreamFailure | CacheHit | CacheMiss | NegativeCacheHit | ACLRejected
| RefusedQueries | TruncatedResponse | TCPTimeout | FirewallBlocked | RPZMatched
| DNSSECValidationPassed | DNSSECValidationFailed | RRLDropped | CookiesVerified
| CookiesRejected | ECSQueriesForwarded | XFRCompleted | XFRRefused | NotifySent | NotifyFailed
| QNameMinFallback.

#[export] Instance cell_eq_dec : EqDecision cell.
Proof. solve_decision. Defined.
#[export] Instance counter_eq_dec : EqDecision counter.
Proof. solve_decision. Defined.

(** Atomic 64-bit words. *)
Definition Stats := cell → N.
Definition New : Stats := λ _, 0%N.
Definition Add (c : cell) (s : Stats) : Stats :=
  λ c', if decide (c' = c) then u64 (s c' + 1) else s c'.
Definition SetRTTTrackedIPs (count : N) (s : Stats) : Stats :=
  λ c, if decide (c = rttTrackedIPs) then u64 count else s c.

Definition IncTotalQuery := Add totalQueries.
Definition IncDropped := Add droppedPackets.
Definition Inc (c : counter) (s : Stats) : Stats :=
  match c with
  | TotalQuery => IncTotalQuery s
  | UDPQuery => IncTotalQuery (Add udpQueries s)
  | TCPQuery => IncTotalQuery (Add tcpQueries s)
  | DoTQuery => IncTotalQuery (Add dotQueries s)
  | DoHQuery => IncTotalQuery (Add dohQueries s)
  | Dropped => IncDropped s
  | ParseError => IncDropped (Add parseErrors s)
  | WriteError => IncDropped (Add writeErrors s)
  | RefusedAnswer => Add refusedAnswers s
  | AuthoritativeAnswer => Add authoritativeAnswers s
  | NXDomainAnswer => Add nxdomainAnswers s
  | ForwardedQuery => Add forwardedQueries s
  | LocalQuery => Add localQueries s
  | UpstreamQuery => Add upstreamQueries s
  | UpstreamFailure => Add upstreamFailures s
  | CacheHit => Add cacheHits s
  | CacheMiss => Add cacheMisses s
  | NegativeCacheHit => Add negativeCacheHits s
  | ACLRejected => Add aclRejected s
  | RefusedQueries => Add refusedQueries s
  | TruncatedResponse => Add truncatedResponses s
  | TCPTimeout => Add tcpTimeouts s
  | FirewallBlocked => Add firewallBlocked s
  | RPZMatched => Add rpzMatched s
  | DNSSECValidationPassed => Add dnssecValidationsPassed s
  | DNSSECValidationFailed => Add dnssecValidationsFailed s
  | RRLDropped => Add rrlDropped s
  | CookiesVerified => Add cookiesVerified s
  | CookiesRejected => Add cookiesRejected s
  | ECSQueriesForwarded => Add ecsQueriesForwarded s
  | XFRCompleted => Add xfrCompleted s
  | XFRRefused => Add xfrRefused s
  | NotifySent => Add notifySent s
  | NotifyFailed => Add notifyFailed s
  | QNameMinFallback => Add qnameMinFallbacks s
  end.
Definition IncAll (l : list counter) (s : Stats) : Stats := foldl (λ s c, Inc c s) s l.

(** [json] names of the fields *)
Record Snapshot := MkSnapshot {
  total_queries : N; udp_queries : N; tcp_queries : N; dot_queries : N; doh_queries : N;
  dropped_packets : N; parse_errors : N; write_errors : N; refused_answers : N;
  authoritative_answers : N; nxdomain_answers : N; forwarded_queries : N; local_queries : N;
  upstream_queries : N; upstream_failures : N; cache_hits : N; cache_misses : N;
  negative_cache_hits : N; acl_rejected : N; refused_queries : N; truncated_responses : N;
  tcp_timeouts : N; firewall_blocked : N; rpz_matched : N; dnssec_validations_passed : N;
  dnssec_validations_failed : N; rrl_dropped : N; cookies_verified : N; cookies_rejected : N;
  ecs_queries_forwarded : N; xfr_completed : N; xfr_refused : N; notify_sent : N;
  notify_failed : N; qname_min_fallbacks : N; rtt_tracked_ips : N
}.

Definition snapshot (s : Stats) : Snapshot := {|
  total_queries := s totalQueries; udp_queries := s udpQueries; tcp_queries := s tcpQueries;
  dot_queries := s dotQueries; doh_queries := s dohQueries;
  dropped_packets := s droppedPackets; parse_errors := s parseErrors;
  write_errors := s writeErrors; refused_answers := s refusedAnswers;
  authoritative_answers := s authoritativeAnswers; nxdomain_answers := s nxdomainAnswers;
  forwarded_queries := s forwardedQueries; local_queries := s localQueries;
  upstream_queries := s upstreamQueries; upstream_failures := s upstreamFailures;
  cache_hits := s cacheHits; cache_misses := s cacheMisses;
  negative_cache_hits := s negativeCacheHits; acl_rejected := s aclRejected;
  refused_queries := s refusedQueries; truncated_responses := s truncatedResponses;
  tcp_timeouts := s tcpTimeouts; firewall_blocked := s firewallBlocked;
  rpz_matched := s rpzMatched; dnssec_validations_passed := s dnssecValidationsPassed;
  dnssec_validations_failed := s dnssecValidationsFailed; rrl_dropped := s rrlDropped;
  cookies_verified := s cookiesVerified; cookies_rejected := s cookiesRejected;
  ecs_queries_forwarded := s ecsQueriesForwarded; xfr_completed := s xfrCompleted;
  xfr_refused := s xfrRefused; notify_sent := s notifySent; notify_failed := s notifyFailed;
  qname_min_fallbacks := s qnameMinFallbacks; rtt_tracked_ips := s rttTrackedIPs
|}.

End Counters.
Import Counters.

Module Telemetry.

(** ** prometheus.go *)
Definition metricsNamespace := "arxdns".
Record counterSpec := MkSpec { s_name : string; s_help : string; s_load : Snapshot → N }.

Definition specs : list counterSpec := [
  MkSpec "queries_total"
    "Total number of DNS queries processed." total_queries;
  MkSpec "udp_queries_total"
    "Total number of DNS queries received over UDP." udp_queries;
  MkSpec "tcp_queries_total"
    "Total number of DNS queries received over TCP." tcp_queries;
  MkSpec "dot_queries_total"
    "Total number of DNS queries received over DNS-over-TLS." dot_queries;
  MkSpec "doh_queries_total"
    "Total number of DNS queries received over DNS-over-HTTPS." doh_queries;
  MkSpec "dropped_packets_total"
    "Total number of dropped packets (parse failures, invalid frames, write errors)." dropped_packets;
  MkSpec "parse_errors_total"
    "Total number of DNS message parse failures." parse_errors;
  MkSpec "write_errors_total"
    "Total number of DNS response write failures." write_errors;
  MkSpec "refused_answers_total"
    "Total number of REFUSED DNS responses sent." refused_answers;
  MkSpec "authoritative_answers_total"
    "Total number of authoritative NOERROR or NODATA responses sent." authoritative_answers;
  MkSpec "nxdomain_answers_total"
    "Total number of NXDOMAIN DNS responses sent." nxdomain_answers;
  MkSpec "forwarded_queries_total"
    "Total number of recursive queries forwarded upstream." forwarded_queries;
  MkSpec "local_queries_total"
    "Total number of queries answered locally (cache, zone data, or AD optimization)." local_queries;
  MkSpec "upstream_queries_total"
    "Total number of recursive queries handed off to a forwarder or iterative resolver." upstream_queries;
  MkSpec "upstream_failures_total"
    "Total number of recursive queries where all upstreams failed." upstream_failures;
  MkSpec "cache_hits_total"
    "Total number of forwarded queries served from the response cache." cache_hits;
  MkSpec "cache_misses_total"
    "Total number of forwarded queries that missed the response cache." cache_misses;
  MkSpec "negative_cache_hits_total"
    "Total number of forwarded NXDOMAIN or NODATA answers served from the response cache." negative_cache_hits;
  MkSpec "acl_rejected_total"
    "Total number of recursive queries denied because the client IP is untrusted." acl_rejected;
  MkSpec "refused_queries_total"
    "Total number of DNS queries refused by the query access ACL." refused_queries;
  MkSpec "truncated_responses_total"
    "Total number of UDP responses truncated with the TC bit set." truncated_responses;
  MkSpec "tcp_timeouts_total"
    "Total number of TCP connections closed due to read-frame timeout." tcp_timeouts;
  MkSpec "firewall_blocked_total"
    "Total number of queries blocked by the DNS firewall blocklist engine." firewall_blocked;
  MkSpec "rpz_matched_total"
    "Total number of queries matched by the Response Policy Zone engine." rpz_matched;
  MkSpec "dnssec_validations_passed_total"
    "Total number of forwarded upstream responses that passed DNSSEC signature verification." dnssec_validations_passed;
  MkSpec "dnssec_validations_failed_total"
    "Total number of forwarded upstream responses rejected as BOGUS after DNSSEC checks." dnssec_validations_failed;
  MkSpec "rrl_dropped_total"
    "Total number of DNS queries silently dropped by response rate limiting." rrl_dropped;
  MkSpec "cookies_verified_total"
    "Total number of DNS queries with a valid client and server cookie pair." cookies_verified;
  MkSpec "cookies_rejected_total"
    "Total number of DNS queries rejected with BADCOOKIE due to an invalid server cookie." cookies_rejected;
  MkSpec "ecs_queries_forwarded_total"
    "Total number of recursive queries forwarded upstream with an EDNS Client Subnet option." ecs_queries_forwarded;
  MkSpec "xfr_completed_total"
    "Total number of completed AXFR or IXFR-downgraded zone transfers." xfr_completed;
  MkSpec "xfr_refused_total"
    "Total number of refused or unauthorized zone transfer attempts." xfr_refused;
  MkSpec "notify_sent_total"
    "Total number of RFC 1996 NOTIFY messages sent to slaves." notify_sent;
  MkSpec "notify_failed_total"
    "Total number of failed NOTIFY delivery attempts." notify_failed;
  MkSpec "qname_min_fallbacks_total"
    "Total number of iterative queries that fell back from QNAME minimization to the full QNAME." qname_min_fallbacks
].
Definition gaugeSpecs : list counterSpec := [
  MkSpec "rtt_tracked_ips"
    "Current number of upstream nameserver IPs tracked in the RTT registry." rtt_tracked_ips
].

(** The prometheus library joins the parts of a metric's name, and takes its
    value as a floating point number. *)
Class Prometheus (F : Type) := {
  build_fq_name : string → string → string → string;
  float64_of : N → F
}.

Record Desc := MkDesc { fqName : string; d_help : string }.
Inductive valueType := CounterValue | GaugeValue.
Record Metric (F : Type) := MkMetric { m_desc : option Desc; m_type : valueType; m_value : F }.
Arguments MkMetric {F}.
Arguments m_desc {F}.
Arguments m_type {F}.
Arguments m_value {F}.

Section prometheus.
Context {F : Type} {PR : Prometheus F}.

Definition addDesc (descs : gmap string Desc) (spec : counterSpec) : gmap string Desc :=
  <[s_name spec := MkDesc (build_fq_name metricsNamespace "" (s_name spec)) (s_help spec)]> descs.
Definition descs : gmap string Desc := foldl addDesc (foldl addDesc ∅ specs) gaugeSpecs.

(** A metric over a descriptor that is missing would panic: [metrics_complete]. *)
Definition Collect (stats : Stats) : list (Metric F) :=
  let snap := snapshot stats in
  let metric t spec := MkMetric (descs !! s_name spec) t (float64_of (s_load spec snap)) in
  map (metric CounterValue) specs ++ map (metric GaugeValue) gaugeSpecs.
End prometheus.

(** ** flusher.go *)
Record counterState := MkState {
  queries : N; cacheHits_ : N; dropped : N; dnssecFails : N; localQueries_ : N; upstreamQueries_ : N
}.

Definition sample (snap : Snapshot) : counterState :=
  MkState (total_queries snap) (cache_hits snap) (dropped_packets snap)
    (dnssec_validations_failed snap) (local_queries snap) (upstream_queries snap).

Definition counterDelta (current previous : N) : N :=
  if (previous <=? current)%N then (current - previous)%N else current.

Definition deltaState (snap prev : counterState) : counterState :=
  MkState (counterDelta (queries snap) (queries prev))
    (counterDelta (cacheHits_ snap) (cacheHits_ prev))
    (counterDelta (dropped snap) (dropped prev))
    (counterDelta (dnssecFails snap) (dnssecFails prev))
    (counterDelta (localQueries_ snap) (localQueries_ prev))
    (counterDelta (upstreamQueries_ snap) (upstreamQueries_ prev)).

(** The table [metrics_rollup]: the [INSERT] of a row at a time in seconds. *)
Class MetricsDB (D : Type) := {
  insert_row : N → counterState → D → option error * D;
  rows_of : D → list counterState
}.
(** An insert adds the row or fails and leaves the table. *)
Class MetricsLaws D `{MetricsDB D} : Prop := {
  insert_law : ∀ t row d,
    (insert_row t row d).1 = None ∧ rows_of (insert_row t row d).2 = rows_of d ++ [row] ∨
    (insert_row t row d).1 ≠ None ∧ rows_of (insert_row t row d).2 = rows_of d
}.

(** The state of [Flusher] that changes. *)
Record Flusher := MkFlusher { prev : counterState }.

Section flusher.
Context {D : Type} {MD : MetricsDB D}.

Definition InsertRollup (now : N) (row : counterState) (d : D) : option error * D :=
  let '(e, d) := insert_row now row d in (errWrap "insert metrics rollup: %w" <$> e, d).

Definition seedPrevious (stats : Stats) : Flusher := MkFlusher (sample (snapshot stats)).

Definition flush (now : N) (stats : Stats) (f : Flusher) (d : D) : Flusher * D :=
  let snap := sample (snapshot stats) in
  match InsertRollup now (deltaState snap (prev f)) d with
  | (Some _, d) => (f, d)
  | (None, d) => (MkFlusher snap, d)
  end.

(** What happens while the server runs: counters advance, the worker flushes. *)
Inductive step := SInc (c : counter) | SFlush (now : N).
Definition exec (st : Stats * Flusher * D) (s : step) : Stats * Flusher * D :=
  let '(stats, f, d) := st in
  match s with
  | SInc c => (Inc c stats, f, d)
  | SFlush now => let '(f, d) := flush now stats f d in (stats, f, d)
  end.
Definition run : Stats * Flusher * D → list step → Stats * Flusher * D := foldl exec.
End flusher.

(** ** db.go: the windows of the history *)
Definition QueryHistory (window : string) : res (string * string * string) :=
  if bool_decide (window = "5m") then Ok ("minute", "-5 minutes", "%Y-%m-%d %H:%M:00")
  else if bool_decide (window = "1h") then Ok ("minute", "-1 hour", "%Y-%m-%d %H:%M:00")
  else if bool_decide (window = "30d") then Ok ("day", "-30 days", "%Y-%m-%d")
  else Err (errNew "unsupported window %q").

(** [WHERE timestamp >= datetime('now', ...)]: SQLite compares texts bytewise. *)
Definition inWindow (timestamp since : string) : bool := negb (str_lt timestamp since).

(** * Lemmas *)

(** How often a counter's increment adds to a cell. *)
Definition hits (k : counter) (c : cell) : N := Inc k New c.

Lemma inc_cell k s c : (s c < 2 ^ 64)%N → Inc k s c = u64 (s c + hits k c).
Proof.
  intros Hs. assert (E : u64 (s c + 0) = s c) by (unfold u64; rewrite N.add_0_r; by apply N.mod_small).
  unfold hits. destruct k; cbn [Inc]; unfold IncTotalQuery, IncDropped, Add, New;
    repeat case_decide; simplify_eq; try done; by rewrite E.
Qed.

Lemma inc_bound k s c : (s c < 2 ^ 64)%N → (Inc k s c < 2 ^ 64)%N.
Proof. intros Hs. rewrite inc_cell by done. unfold u64. by apply N.mod_lt. Qed.

Fixpoint sumN (l : list N) : N := match l with [] => 0 | x :: l => x + sumN l end%N.
Lemma sumN_app l k : sumN (l ++ k) = (sumN l + sumN k)%N.
Proof. induction l; cbn [sumN app]; lia. Qed.

Lemma inc_all_cell l s c : (s c + sumN (map (λ k, hits k c) l) < 2 ^ 64)%N →
  IncAll l s c = (s c + sumN (map (λ k, hits k c) l))%N.
Proof.
  revert s. induction l as [|k l IH]; intros s; cbn [IncAll foldl map sumN]; [lia|]. intros Hs.
  assert (E : Inc k s c = (s c + hits k c)%N).
  { rewrite inc_cell by lia. unfold u64. apply N.mod_small. lia. }
  change (foldl _ (Inc k s) l) with (IncAll l (Inc k s)). rewrite IH; rewrite E; lia.
Qed.

(** The columns of a rollup and their cells. *)
Inductive column := CQueries | CCacheHits | CDropped | CFails | CLocal | CUpstream.
Definition col (k : column) (r : counterState) : N :=
  match k with
  | CQueries => queries r | CCacheHits => cacheHits_ r | CDropped => dropped r
  | CFails => dnssecFails r | CLocal => localQueries_ r | CUpstream => upstreamQueries_ r
  end.
Definition col_cell (k : column) : cell :=
  match k with
  | CQueries => totalQueries | CCacheHits => cacheHits | CDropped => droppedPackets
  | CFails => dnssecValidationsFailed | CLocal => localQueries | CUpstream => upstreamQueries
  end.

Lemma col_sample k s : col k (sample (snapshot s)) = s (col_cell k).
Proof. by destruct k. Qed.
Lemma col_delta k a b : col k (deltaState a b) = counterDelta (col k a) (col k b).
Proof. by destruct k. Qed.

(** The sum of a column over the table, and the increments a run makes. *)
Definition total (k : column) (rows : list counterState) : N := sumN (map (col k) rows).
Definition increments (k : column) (steps : list step) : N :=
  sumN (map (λ s, match s with SInc c => hits c (col_cell k) | SFlush _ => 0%N end) steps).

Section rollups.
Context {D : Type} {MD : MetricsDB D} {ML : MetricsLaws D}.

Lemma flush_spec now stats f d f' d' k : flush now stats f d = (f', d') →
  (col k (prev f) ≤ stats (col_cell k))%N →
  (total k (rows_of d') + col k (prev f) = total k (rows_of d) + col k (prev f'))%N ∧
  (col k (prev f') ≤ stats (col_cell k))%N ∧ (col k (prev f) ≤ col k (prev f'))%N ∧
  ((InsertRollup now (deltaState (sample (snapshot stats)) (prev f)) d).1 = None →
   col k (prev f') = stats (col_cell k)).
Proof.
  unfold flush, InsertRollup. set (row := deltaState _ _). intros E Hle.
  pose proof (insert_law now row d) as Hl. destruct (insert_row now row d) as [e d2]. cbn in Hl.
  destruct Hl as [[-> Hr]|[He Hr]]; [|destruct e as [e|]; [|done]];
    cbn [fmap option_fmap option_map] in E; injection E as <- <-.
  - cbn [prev]. rewrite Hr, col_sample. unfold total. rewrite map_app, sumN_app.
    cbn [map sumN]. unfold row. rewrite col_delta, col_sample. unfold counterDelta.
    destruct (N.leb_spec (col k (prev f)) (stats (col_cell k))); [|lia]. split_and!; [lia..|done].
  - rewrite Hr. split_and!; [done..|]. by cbn.
Qed.

Lemma run_spec k steps s0 f0 d0 s f d : run (s0, f0, d0) steps = (s, f, d) →
  (col k (prev f0) ≤ s0 (col_cell k))%N → (s0 (col_cell k) + increments k steps < 2 ^ 64)%N →
  (total k (rows_of d) + col k (prev f0) = total k (rows_of d0) + col k (prev f))%N ∧
  (col k (prev f) ≤ s (col_cell k))%N ∧ s (col_cell k) = (s0 (col_cell k) + increments k steps)%N.
Proof.
  revert s0 f0 d0. induction steps as [|st steps IH]; intros s0 f0 d0; cbn [run foldl].
  - intros [= -> -> ->] ? ?. unfold increments. cbn [map sumN]. lia.
  - unfold increments. cbn [map sumN]. intros E Hp Hb. destruct st as [c|now]; cbn [exec] in E.
    + assert (Ei : Inc c s0 (col_cell k) = (s0 (col_cell k) + hits c (col_cell k))%N).
      { rewrite inc_cell by lia. unfold u64. apply N.mod_small. lia. }
      apply IH in E as (? & ? & ?); [|rewrite Ei; lia|rewrite Ei; unfold increments; lia].
      unfold increments in *. lia.
    + destruct (flush now s0 f0 d0) as [f1 d1] eqn:Ef.
      apply (flush_spec _ _ _ _ _ _ k) in Ef as (? & ? & ? & _); [|done].
      apply IH in E as (? & ? & ?); [|done|unfold increments; lia]. unfold increments in *. lia.
Qed.
End rollups.

Lemma spec_names : NoDup (map s_name (specs ++ gaugeSpecs)).
Proof. apply (bool_decide_unpack _). by vm_compute. Qed.

Lemma spec_of_cell c :
  Exists (λ spec, ∀ s, s_load spec (snapshot s) = s c) (specs ++ gaugeSpecs).
Proof. destruct c; cbn [app specs gaugeSpecs]; repeat first [left; intros; reflexivity|right]. Qed.

Section metrics.
Context {F : Type} {PR : Prometheus F}.

Definition desc_of (spec : counterSpec) : Desc :=
  MkDesc (build_fq_name metricsNamespace "" (s_name spec)) (s_help spec).

Lemma fold_descs l m spec : NoDup (map s_name l) → spec ∈ l →
  foldl addDesc m l !! s_name spec = Some (desc_of spec).
Proof.
  induction l as [|x l IH] using rev_ind; [by rewrite elem_of_nil|].
  rewrite map_app, foldl_app, NoDup_app, elem_of_app, list_elem_of_singleton. cbn [map foldl].
  intros (Hl & Hx & _) Hs. unfold addDesc at 1. destruct Hs as [Hs| ->]; [|apply lookup_insert_eq].
  rewrite lookup_insert_ne; [by apply IH|]. intros E. apply (Hx (s_name spec)).
  - rewrite list_elem_of_fmap. by exists spec.
  - rewrite E. by left.
Qed.

Lemma descs_lookup spec : spec ∈ specs ++ gaugeSpecs → descs !! s_name spec = Some (desc_of spec).
Proof. unfold descs. rewrite <-foldl_app. apply fold_descs, spec_names. Qed.
End metrics.

(** * Properties *)

(** no increment is lost or persisted twice: however increments and
    flushes interleave, and whichever inserts fail, once a flush succeeds the
    rows written since the start add up, column by column, to the increments
    made since the start. *)
Theorem rollups_exact {D : Type} {MD : MetricsDB D} {ML : MetricsLaws D} steps now s0 d0 s f d
    f' d' k :
  run (s0, seedPrevious s0, d0) steps = (s, f, d) →
  flush now s f d = (f', d') →
  (InsertRollup now (deltaState (sample (snapshot s)) (prev f)) d).1 = None →
  (s0 (col_cell k) + increments k steps < 2 ^ 64)%N →
  total k (rows_of d') = (total k (rows_of d0) + increments k steps)%N.
Proof.
  intros Er Ef Hok Hb. apply (run_spec k) in Er as (H1 & H2 & H3); [|by cbn; rewrite col_sample|done].
  apply (flush_spec _ _ _ _ _ _ k) in Ef as (H4 & H5 & H6 & H7); [|done].
  specialize (H7 Hok). cbn [seedPrevious prev] in H1. rewrite col_sample in H1. lia.
Qed.

(** every counter is exported, under one name: the metric of that name has
    a descriptor and the value of the counter, and no two metrics share a name. *)
Theorem metrics_complete {F : Type} {PR : Prometheus F} (stats : Stats) (c : cell) :
  NoDup (map s_name (specs ++ gaugeSpecs)) ∧
  Forall (λ m, is_Some (m_desc m)) (Collect (F := F) stats) ∧
  ∃ spec d t, spec ∈ specs ++ gaugeSpecs ∧ (∀ s, s_load spec (snapshot s) = s c) ∧
    descs !! s_name spec = Some d ∧ d_help d = s_help spec ∧
    MkMetric (Some d) t (float64_of (stats c)) ∈ Collect (F := F) stats.
Proof.
  split; [exact spec_names|].
  split.
  { unfold Collect. rewrite Forall_app, !Forall_map. split; apply Forall_forall; intros spec Hs;
      cbn [m_desc]; rewrite descs_lookup by (rewrite elem_of_app; auto); eauto. }
  destruct (proj1 (List.Exists_exists _ _) (spec_of_cell c)) as (spec & Hs & Hl).
  apply list_elem_of_In in Hs. pose proof (descs_lookup spec Hs) as Hd.
  exists spec, (desc_of spec). rewrite <-(Hl stats). unfold Collect.
  apply elem_of_app in Hs as Hs'.
  destruct Hs' as [Hs'|Hs']; [exists CounterValue|exists GaugeValue];
    (split; [done|split; [exact Hl|split; [exact Hd|split; [done|]]]]);
    rewrite elem_of_app, !list_elem_of_fmap; [left|right]; exists spec; by rewrite Hd.
Qed.

(** ** Witnesses and consequences *)

(** The rows written and, for every insert to come, whether it fails. *)
Definition table : Type := list counterState * list bool.
#[export] Instance table_db : MetricsDB table := {|
  insert_row t row d :=
    match d.2 with
    | true :: fails => (Some (errNew "database is locked"), (d.1, fails))
    | _ => (None, (d.1 ++ [row], tail d.2))
    end;
  rows_of := fst
|}.
#[export] Instance table_laws : MetricsLaws table.
Proof. split. intros t row [rows [|[] fails]]; cbn; auto. Qed.

Definition demo_steps : list step :=
  [SInc UDPQuery; SInc ParseError; SFlush 60; SInc UDPQuery; SInc CacheHit; SFlush 120; SInc DoHQuery].

Lemma rollups_exact_witness :
  let '(s, f, d) := run (New, seedPrevious New, ([], [false; true]) : table) demo_steps in
  total CQueries (rows_of (flush 180 s f d).2) = 3%N.
Proof.
  assert (Ed : (run (New, seedPrevious New, ([], [false; true]) : table) demo_steps).2 =
    ([deltaState (MkState 1 0 1 0 0 0) (MkState 0 0 0 0 0 0)], [])) by by vm_compute.
  destruct (run (New, seedPrevious New, ([], [false; true]) : table) demo_steps) as [[s f] d] eqn:E.
  destruct (flush 180 s f d) as [f' d'] eqn:Ef. cbn [snd] in *.
  apply (rollups_exact demo_steps 180 New ([], [false; true]) s f d f' d' CQueries E Ef);
    [by rewrite Ed|by vm_compute].
Defined.

(** A row of the day of the cutoff is in every window, however old it is: its
    text has a [T] where that of [datetime] has a blank. *)
Lemma history_window_whole_day day time cutoff :
  inWindow (day +:+ "T" +:+ time +:+ "Z") (day +:+ " " +:+ cutoff) = true.
Proof.
  unfold inWindow, str_lt. rewrite negb_true_iff. rewrite !bytes_app.
  induction (bytes day) as [|x l IH]; cbn [app bytes_lt]; [done|].
  by rewrite N.ltb_irrefl, N.eqb_refl.
Qed.

End Telemetry.
