(* ===== verification/Radix.v ===== *)
(** * The radix tree interface

    [github.com/armon/go-radix] is not under src/: the zone store, the RPZ
    engine and the firewall use it through [New], [Get], [Insert], [Delete],
    [Walk], [LongestPrefix] and [Len]. [RadixOps] names these operations,
    [RadixLaws] states the behaviour its documentation promises, through the
    finite map [contents] a tree stands for. Clients are proved against the
    class; [gmap_radix] shows the laws can hold and evaluates witnesses. *)
From S2P Require Import Prelude.

Class RadixOps (T : Type → Type) := {
  radix_new : ∀ {V}, T V;
  radix_get : ∀ {V}, T V → string → option V;
  radix_insert : ∀ {V}, T V → string → V → T V;
  radix_delete : ∀ {V}, T V → string → T V;
  radix_walk : ∀ {V}, T V → list (string * V);
  radix_longest_prefix : ∀ {V}, T V → string → option (string * V);
  radix_len : ∀ {V}, T V → nat
}.

Class RadixLaws (T : Type → Type) `{RadixOps T} := {
  contents : ∀ {V}, T V → gmap string V;
  contents_new : ∀ V, contents (@radix_new T _ V) = ∅;
  contents_get : ∀ V (t : T V) k, radix_get t k = contents t !! k;
  contents_insert : ∀ V (t : T V) k v,
    contents (radix_insert t k v) = <[k := v]> (contents t);
  contents_delete : ∀ V (t : T V) k,
    contents (radix_delete t k) = delete k (contents t);
  contents_walk : ∀ V (t : T V), radix_walk t ≡ₚ map_to_list (contents t);
  contents_len : ∀ V (t : T V), radix_len t = size (contents t);
  longest_prefix_some : ∀ V (t : T V) s k v,
    radix_longest_prefix t s = Some (k, v) →
    contents t !! k = Some v ∧ has_prefix s k = true ∧
    ∀ k', is_Some (contents t !! k') → has_prefix s k' = true → slen k' ≤ slen k;
  longest_prefix_none : ∀ V (t : T V) s k,
    radix_longest_prefix t s = None →
    is_Some (contents t !! k) → has_prefix s k = false
}.

(** The tree a loop of [Insert]s builds. *)
Fixpoint radix_insert_all {T V} `{RadixOps T} (t : T V) (kvs : list (string * V)) : T V :=
  match kvs with
  | [] => t
  | (k, v) :: kvs' => radix_insert_all (radix_insert t k v) kvs'
  end.

(** Deleting every name of a list, as the zone sweeps do. *)
Fixpoint radix_delete_all {T V} `{RadixOps T} (t : T V) (ks : list string) : T V :=
  match ks with
  | [] => t
  | k :: ks' => radix_delete_all (radix_delete t k) ks'
  end.

(** ** The map-backed instance *)
Definition gtree (V : Type) : Type := gmap string V.

Fixpoint gtree_longest {V} (m : gtree V) (l : list ascii) (n : nat) : option (string * V) :=
  match (m : gmap string V) !! mk (take n l) with
  | Some v => Some (mk (take n l), v)
  | None => match n with O => None | S n' => gtree_longest m l n' end
  end.

#[export] Instance gtree_ops : RadixOps gtree := {|
  radix_new V := (∅ : gmap string V);
  radix_get V t k := (t : gmap string V) !! k;
  radix_insert V t k v := <[k := v]> (t : gmap string V);
  radix_delete V t k := delete k (t : gmap string V);
  radix_walk V t := map_to_list (t : gmap string V);
  radix_longest_prefix V t s := gtree_longest t (bytes s) (length (bytes s));
  radix_len V t := size (t : gmap string V)
|}.

Lemma prefix_take_eq {A} (k l : list A) : k `prefix_of` l → k = take (length k) l.
Proof. intros [x ->]. by rewrite take_app_length. Qed.

Lemma gtree_longest_some {V} (m : gmap string V) l n k v :
  gtree_longest m l n = Some (k, v) →
  m !! k = Some v ∧ bytes k `prefix_of` l ∧
  ∀ k', is_Some (m !! k') → bytes k' `prefix_of` l → length (bytes k') ≤ n →
    length (bytes k') ≤ length (bytes k).
Proof.
  induction n as [|n IH]; cbn [gtree_longest]; intros H.
  - destruct (m !! _) eqn:Hm; simplify_eq. split_and!; [done| | simpl; lia].
    rewrite bytes_mk. apply prefix_take.
  - destruct (m !! mk (take (S n) l)) eqn:Hm; simplify_eq.
    + split_and!; [done| rewrite bytes_mk; apply prefix_take |].
      intros k' _ Hp Hle. rewrite bytes_mk, length_take.
      apply prefix_length in Hp. lia.
    + destruct (IH H) as (? & ? & Hmax). split_and!; [done..|].
      intros k' [v' Hk'] Hp Hle. destruct (decide (length (bytes k') = S n)) as [E|].
      * apply prefix_take_eq in Hp as Ht. rewrite E in Ht.
        rewrite <-Ht, mk_bytes in Hm. congruence.
      * apply Hmax; [by eexists | done | lia].
Qed.

Lemma gtree_longest_none {V} (m : gmap string V) l n k :
  gtree_longest m l n = None → is_Some (m !! k) →
  length (bytes k) ≤ n → ¬ bytes k `prefix_of` l.
Proof.
  induction n as [|n IH]; cbn [gtree_longest]; intros H [v Hk] Hle Hp;
    destruct (m !! mk _) eqn:Hm; simplify_eq;
    apply prefix_take_eq in Hp as Ht.
  - destruct k; [|simpl in Hle; lia]. rewrite take_0 in Hm. cbn in Hm. congruence.
  - destruct (decide (length (bytes k) = S n)) as [E|].
    + rewrite E in Ht. rewrite <-Ht, mk_bytes in Hm. congruence.
    + apply (IH H); [by eexists | lia | done].
Qed.

#[export] Program Instance gtree_laws : RadixLaws gtree :=
  {| contents V t := (t : gmap string V) |}.
Next Obligation. done. Qed.
Next Obligation. done. Qed.
Next Obligation. done. Qed.
Next Obligation. done. Qed.
Next Obligation. done. Qed.
Next Obligation. done. Qed.
Next Obligation.
  intros V t s k v H. apply gtree_longest_some in H as (? & ? & Hmax).
  split_and!; [done | by apply bool_decide_eq_true |].
  intros k' ? Hp%bool_decide_eq_true. apply Hmax; [done..|].
  by apply prefix_length.
Qed.
Next Obligation.
  intros V t s k H Hk. apply bool_decide_eq_false. intros Hp.
  eapply gtree_longest_none; [exact H | exact Hk | by apply prefix_length | done].
Qed.

(** ** Consequences of the laws *)
#[export] Hint Rewrite @contents_new @contents_get @contents_insert
  @contents_delete @contents_len : arx.

Section lemmas.
Context {T : Type → Type} `{RadixLaws T} {V : Type}.
Implicit Types t : T V.

Lemma walk_elem t k v : (k, v) ∈ radix_walk t ↔ contents t !! k = Some v.
Proof. by rewrite contents_walk, elem_of_map_to_list. Qed.

Lemma contents_insert_all t kvs :
  contents (radix_insert_all t kvs) = foldl (λ m kv, <[kv.1 := kv.2]> m) (contents t) kvs.
Proof.
  revert t. induction kvs as [|[k v] kvs IH]; intros t; simpl; [done|].
  by rewrite IH, contents_insert.
Qed.

Lemma foldl_insert_lookup (m : gmap string V) kvs k :
  NoDup kvs.*1 →
  foldl (λ m kv, <[kv.1 := kv.2]> m) m kvs !! k =
    match (list_to_map kvs : gmap string V) !! k with
    | Some v => Some v | None => m !! k end.
Proof.
  revert m. induction kvs as [|[j w] kvs IH]; intros m; simpl; [by rewrite lookup_empty|].
  intros [Hj Hnd]%NoDup_cons. rewrite IH by done.
  destruct (decide (j = k)) as [->|].
  - rewrite !lookup_insert_eq. by rewrite not_elem_of_list_to_map_1.
  - by rewrite !lookup_insert_ne.
Qed.

(** Rebuilding a map from a range over it, in whatever order. *)
Lemma foldl_insert_range {MR : MapRange} (m : gmap string V) :
  foldl (λ m kv, <[kv.1 := kv.2]> m) ∅ (range m) = m.
Proof.
  assert (NoDup (range m).*1) as Hnd.
  { rewrite range_perm. apply NoDup_fst_map_to_list. }
  apply map_eq. intros k. rewrite foldl_insert_lookup, lookup_empty by done.
  rewrite (list_to_map_proper _ (map_to_list m)); [| done | apply range_perm].
  rewrite list_to_map_to_list. by destruct (m !! k).
Qed.

(** Copying a tree by walking it gives the same contents, as [cloneTree] and
    [cloneSnapshot] rely on. *)
Lemma contents_rebuild t f :
  (∀ v, f v = v) →
  contents (radix_insert_all radix_new (map (λ kv, (kv.1, f kv.2)) (radix_walk t)) : T V)
  = contents t.
Proof.
  intros Hf. rewrite contents_insert_all, contents_new.
  assert (map (λ kv, (kv.1, f kv.2)) (radix_walk t) = radix_walk t) as ->.
  { rewrite <-(map_id (radix_walk t)) at 2. apply map_ext. intros [k v]. by rewrite Hf. }
  assert (NoDup (radix_walk t).*1) as Hnd.
  { rewrite contents_walk. apply NoDup_fst_map_to_list. }
  apply map_eq. intros k. rewrite foldl_insert_lookup, lookup_empty by done.
  rewrite (list_to_map_proper _ (map_to_list (contents t)));
    [| done | apply contents_walk].
  rewrite list_to_map_to_list. by destruct (contents t !! k).
Qed.

(** [LongestPrefix] depends on the contents only. *)
Lemma longest_prefix_contents t1 t2 s :
  contents t1 = contents t2 → radix_longest_prefix t1 s = radix_longest_prefix t2 s.
Proof.
  intros Hc. destruct (radix_longest_prefix t1 s) as [[k1 v1]|] eqn:E1,
    (radix_longest_prefix t2 s) as [[k2 v2]|] eqn:E2; [| | |done].
  - apply longest_prefix_some in E1 as (G1 & P1 & M1), E2 as (G2 & P2 & M2).
    rewrite Hc in G1, M1.
    specialize (M1 k2 ltac:(by eexists) P2). specialize (M2 k1 ltac:(by eexists) P1).
    assert (k1 = k2) as ->; [|congruence].
    unfold has_prefix, slen in *. bool_hyps. apply bytes_inj.
    rewrite (prefix_take_eq _ _ P1), (prefix_take_eq _ _ P2). f_equal. lia.
  - apply longest_prefix_some in E1 as (G1 & P1 & _). rewrite Hc in G1.
    eapply longest_prefix_none in E2; [|by eexists]. congruence.
  - apply longest_prefix_some in E2 as (G2 & P2 & _). rewrite <-Hc in G2.
    eapply longest_prefix_none in E1; [|by eexists]. congruence.
Qed.

Lemma contents_delete_all t ks k :
  contents (radix_delete_all t ks) !! k = if decide (k ∈ ks) then None else contents t !! k.
Proof.
  revert t. induction ks as [|j ks IH]; intros t; cbn [radix_delete_all].
  - destruct (decide (k ∈ [])) as [Hk|]; [by apply elem_of_nil in Hk | done].
  - rewrite IH, contents_delete.
    destruct (decide (k ∈ ks)), (decide (k ∈ j :: ks)) as [Hin|Hin]; set_unfold;
      try (by exfalso; tauto); [done| |].
    + destruct Hin as [->|]; [apply lookup_delete_eq | done].
    + rewrite lookup_delete_ne; [done | naive_solver].
Qed.

End lemmas.
