(* ===== verification/NetAddr.v ===== *)
(** * Go's net and net/netip, as far as the sources use them

    Addresses, prefixes and their text forms: [netip.Addr], [netip.Prefix],
    [ParseAddr], [ParsePrefix], [Masked], [Contains], [Unmap], [IsLoopback],
    [net.ParseIP], [net.ParseCIDR], [IP.To4], [IP.String]. An IPv4 address is
    a 32-bit and an IPv6 address a 128-bit natural number; a [net.IP] is kept
    in its 16-byte form, IPv4 as the mapped address ::ffff:a.b.c.d. *)
From S2P Require Import Prelude.

Inductive addr :=
| AInvalid
| A4 (n : N)
| A6 (n : N) (zone : string).

#[export] Instance addr_eq_dec : EqDecision addr.
Proof. solve_decision. Defined.

#[export] Instance addr_countable : Countable addr.
Proof.
  apply (inj_countable'
    (λ a, match a with
          | AInvalid => inl () | A4 n => inr (inl n) | A6 n z => inr (inr (n, z)) end)
    (λ s, match s with
          | inl _ => AInvalid | inr (inl n) => A4 n | inr (inr (n, z)) => A6 n z end)).
  by intros [].
Defined.

Definition is_valid (a : addr) : bool :=
  match a with AInvalid => false | _ => true end.
Definition is4 (a : addr) : bool := match a with A4 _ => true | _ => false end.
Definition is6 (a : addr) : bool := match a with A6 _ _ => true | _ => false end.
Definition bit_len (a : addr) : N :=
  match a with AInvalid => 0 | A4 _ => 32 | A6 _ _ => 128 end.
Definition addr_bits (a : addr) : N :=
  match a with AInvalid => 0 | A4 n => n | A6 n _ => n end.
Definition has_zone (a : addr) : bool :=
  match a with A6 _ z => negb (bool_decide (z = "")) | _ => false end.

Definition v4_mapped_prefix : N := 65535.
Definition is_4in6 (n : N) : bool := (N.shiftr n 32 =? v4_mapped_prefix)%N.

(** [Addr.Unmap] *)
Definition unmap (a : addr) : addr :=
  match a with
  | A6 n _ => if is_4in6 n then A4 (n mod 2 ^ 32) else a
  | _ => a
  end.

(** [Addr.IsLoopback] *)
Definition is_loopback (a : addr) : bool :=
  match unmap a with
  | A4 n => (N.shiftr n 24 =? 127)%N
  | A6 n _ => (n =? 1)%N
  | AInvalid => false
  end.

(** ** Prefixes. [PrefixFrom] of a bad length gives an invalid prefix. *)
Record prefix := Prefix { p_addr : addr; p_bits : Z }.

#[export] Instance prefix_eq_dec : EqDecision prefix.
Proof. solve_decision. Defined.

Definition without_zone (a : addr) : addr :=
  match a with A6 n _ => A6 n "" | _ => a end.

Definition prefix_from (a : addr) (bits : Z) : prefix :=
  if is_valid a && (0 <=? bits)%Z && (bits <=? Z.of_N (bit_len a))%Z
  then Prefix (without_zone a) bits
  else Prefix (without_zone a) (-1).
Definition prefix_valid (p : prefix) : bool := (0 <=? p_bits p)%Z.

Definition mask_top (w bits n : N) : N := N.shiftl (N.shiftr n (w - bits)) (w - bits).

Definition masked (p : prefix) : prefix :=
  if prefix_valid p then
    match p_addr p with
    | A4 n => Prefix (A4 (mask_top 32 (Z.to_N (p_bits p)) n)) (p_bits p)
    | A6 n z => Prefix (A6 (mask_top 128 (Z.to_N (p_bits p)) n) z) (p_bits p)
    | AInvalid => Prefix AInvalid (-1)
    end
  else Prefix AInvalid (-1).

Definition top_bits_eq (w bits n m : N) : bool :=
  (N.shiftr n (w - bits) =? N.shiftr m (w - bits))%N.

(** [Prefix.Contains] *)
Definition prefix_contains (p : prefix) (a : addr) : bool :=
  prefix_valid p && negb (has_zone a) &&
  match p_addr p, a with
  | A4 n, A4 m => top_bits_eq 32 (Z.to_N (p_bits p)) n m
  | A6 n _, A6 m _ => top_bits_eq 128 (Z.to_N (p_bits p)) n m
  | _, _ => false
  end.

(** ** Text forms *)
Definition octet (l : list ascii) : option N :=
  match l with
  | [] => None
  | c :: l' =>
      if bool_decide (c = "0"%char) && negb (bool_decide (l' = [])) then None
      else match digits_val 0 l with
           | Some n => if (n <=? 255)%N then Some n else None
           | None => None
           end
  end.

Definition parse_ipv4 (l : list ascii) : option N :=
  match split_with (is_char ".") l with
  | [a; b; c; d] =>
      match octet a, octet b, octet c, octet d with
      | Some x, Some y, Some z, Some w => Some (x * 2 ^ 24 + y * 2 ^ 16 + z * 2 ^ 8 + w)%N
      | _, _, _, _ => None
      end
  | _ => None
  end.

Definition hex_val (c : ascii) : option N :=
  let n := code c in
  if is_digit c then Some (n - 48)%N
  else if ((97 <=? n) && (n <=? 102))%N then Some (n - 87)%N
  else if ((65 <=? n) && (n <=? 70))%N then Some (n - 55)%N
  else None.

(** The hexadecimal digits a group starts with: value, count, rest. *)
Fixpoint hex_run (acc : N) (off : nat) (l : list ascii) : N * nat * list ascii :=
  match l with
  | c :: l' => match hex_val c with
               | Some v => hex_run (acc * 16 + v) (S off) l'
               | None => (acc, off, l)
               end
  | [] => (acc, off, [])
  end.

(** The loop of [parseIPv6] over 16-bit groups; [gs] are the groups read so
    far, [ell] the position of "::"; [fuel] is the eight rounds of the loop. *)
Fixpoint parse6_loop (fuel : nat) (s : list ascii) (gs : list N) (ell : option nat)
    : option (list ascii * list N * option nat) :=
  match fuel with
  | O => Some (s, gs, ell)
  | S fuel' =>
      let '(acc, off, rest) := hex_run 0 0 s in
      if (off =? 0)%nat || (4 <? off)%nat then None
      else match rest with
           | "."%char :: _ =>
               if bool_decide (ell = None) && negb (length gs =? 6)%nat then None
               else if (6 <? length gs)%nat then None
               else match parse_ipv4 s with
                    | Some v => Some ([], gs ++ [N.shiftr v 16; (v mod 65536)%N], ell)
                    | None => None
                    end
           | [] => Some ([], gs ++ [acc], ell)
           | ":"%char :: s' =>
               let gs' := gs ++ [acc] in
               match s' with
               | [] => None
               | ":"%char :: s'' =>
                   if bool_decide (ell ≠ None) then None
                   else if bool_decide (s'' = []) then Some ([], gs', Some (length gs'))
                   else parse6_loop fuel' s'' gs' (Some (length gs'))
               | _ => parse6_loop fuel' s' gs' ell
               end
           | _ => None
           end
  end.

Definition groups_val (gs : list N) : N := foldl (λ a g, a * 65536 + g)%N 0%N gs.

Definition parse6_finish (r : option (list ascii * list N * option nat)) : option N :=
  match r with
  | Some (rest, gs, ell) =>
      if negb (bool_decide (rest = [])) then None
      else if (length gs <? 8)%nat then
        match ell with
        | None => None
        | Some e => Some (groups_val (take e gs ++ replicate (8 - length gs) 0%N ++ drop e gs))
        end
      else if bool_decide (ell ≠ None) then None else Some (groups_val gs)
  | None => None
  end.

Definition parse_ipv6 (l : list ascii) : option addr :=
  let s := take_until (is_char "%") l in
  let zone := drop (S (length s)) l in
  if (length s <? length l)%nat && bool_decide (zone = []) then None
  else
    let r := match s with
             | ":"%char :: ":"%char :: s' =>
                 if bool_decide (s' = []) then Some ([], [], Some 0)
                 else parse6_loop 8 s' [] (Some 0)
             | _ => parse6_loop 8 s [] None
             end in
    (λ n, A6 n (mk zone)) <$> parse6_finish r.

(** [netip.ParseAddr]: the first of ['.'], [':'], ['%'] decides the family. *)
Definition parse_addr (s : string) : option addr :=
  let sep c := is_char "." c || is_char ":" c || is_char "%" c in
  match drop_while (λ c, negb (sep c)) (bytes s) with
  | "."%char :: _ => A4 <$> parse_ipv4 (bytes s)
  | ":"%char :: _ => parse_ipv6 (bytes s)
  | _ => None
  end.

(** ** [net.IP], always in 16-byte form *)
Definition ip16 (a : addr) : N :=
  match a with A4 n => v4_mapped_prefix * 2 ^ 32 + n | A6 n _ => n | AInvalid => 0 end%N.
Definition to4 (ip : N) : option N :=
  if is_4in6 ip then Some (ip mod 2 ^ 32)%N else None.
Definition parse_ip (s : string) : option N :=
  match parse_addr s with
  | Some a => if has_zone a then None else Some (ip16 a)
  | None => None
  end.
(** [netip.AddrFromSlice] of a 16-byte slice. *)
Definition addr_from_ip (ip : N) : addr := A6 ip "".

Definition format_ipv4 (n : N) : string :=
  format_uint (N.shiftr n 24 mod 256) +:+ "." +:+ format_uint (N.shiftr n 16 mod 256)
  +:+ "." +:+ format_uint (N.shiftr n 8 mod 256) +:+ "." +:+ format_uint (n mod 256).

Definition hex_digit (n : N) : ascii :=
  ascii_of_N (if (n <? 10)%N then n + 48 else n + 87)%N.
Fixpoint hex_go (fuel : nat) (n : N) (acc : list ascii) : list ascii :=
  match fuel with
  | O => acc
  | S f => let acc' := hex_digit (n mod 16) :: acc in
           if (n <? 16)%N then acc' else hex_go f (n / 16) acc'
  end.
Definition format_hex (n : N) : string := mk (hex_go 4 n []).

Definition groups_of (n : N) : list N :=
  map (λ i, N.shiftr n (16 * i) mod 65536)%N [7; 6; 5; 4; 3; 2; 1; 0]%N.

Fixpoint zero_run (gs : list N) : nat :=
  match gs with 0%N :: gs' => S (zero_run gs') | _ => 0 end.
(** The first longest run of at least two zero groups: position and length. *)
Fixpoint best_run (i : nat) (gs : list N) (best : nat * nat) : nat * nat :=
  match gs with
  | [] => best
  | _ :: gs' =>
      let r := zero_run gs in
      best_run (S i) gs' (if (2 <=? r)%nat && (snd best <? r)%nat then (i, r) else best)
  end.

Definition format_ipv6 (n : N) : string :=
  let gs := groups_of n in
  let '(i, r) := best_run 0 gs (0, 0) in
  if (r =? 0)%nat then join (map format_hex gs) ":"
  else join (map format_hex (take i gs)) ":" +:+ "::" +:+
       join (map format_hex (drop (i + r) gs)) ":".

(** [IP.String] of a 16-byte form *)
Definition ip_string (ip : N) : string :=
  match to4 ip with Some v => format_ipv4 v | None => format_ipv6 ip end.

(** [Addr.String] *)
Definition addr_string (a : addr) : string :=
  match a with
  | AInvalid => "invalid IP"
  | A4 n => format_ipv4 n
  | A6 n z =>
      (if is_4in6 n then "::ffff:" +:+ format_ipv4 (n mod 2 ^ 32) else format_ipv6 n)
      +:+ (if bool_decide (z = "") then "" else "%" +:+ z)
  end.

(** [netip.ParsePrefix]: the last ['/'] separates the length, which has no
    sign and no leading zero. *)
Definition parse_prefix (s : string) : option prefix :=
  let rb := reverse (bytes s) in
  let rbits := take_until (is_char "/") rb in
  if (length rbits <? length rb)%nat then
    let bits := reverse rbits in
    match parse_addr (mk (reverse (drop (S (length rbits)) rb))) with
    | Some a =>
        if has_zone a then None
        else if (1 <? length bits)%nat &&
                match bits with c :: _ => bool_decide (c = "0"%char) || negb (is_digit c)
                | [] => false end then None
        else match atoi (mk bits) with
             | Some b => if (0 <=? b)%Z && (b <=? Z.of_N (bit_len a))%Z
                         then Some (prefix_from a b) else None
             | None => None
             end
    | None => None
    end
  else None.

(** [net.ParseCIDR]: the network address in 16-byte form and the mask's ones;
    an IPv4 network is masked as an IPv4 address. *)
Definition parse_cidr (s : string) : option (N * N) :=
  let a := take_until (is_char "/") (bytes s) in
  if (length a <? length (bytes s))%nat then
    let m := drop (S (length a)) (bytes s) in
    match parse_addr (mk a), m, digits_val 0 m with
    | Some ad, _ :: _, Some n =>
        if has_zone ad || (bit_len ad <? n)%N || (16777215 <=? n)%N then None
        else match ad with
             | A4 v => Some (ip16 (A4 (mask_top 32 n v)), n)
             | A6 v _ => Some (mask_top 128 n v, n)
             | AInvalid => None
             end
    | _, _, _ => None
    end
  else None.

(** ** [net.IP] as a byte slice: nil, four bytes or sixteen *)
Inductive net_ip := IPNil | IP4b (n : N) | IP16b (n : N).

#[export] Instance net_ip_eq_dec : EqDecision net_ip.
Proof. solve_decision. Defined.

(** [net.IP.String] *)
Definition net_ip_string (ip : net_ip) : string :=
  match ip with
  | IPNil => "<nil>"
  | IP4b n => format_ipv4 n
  | IP16b n => ip_string n
  end.

(** [netip.AddrFromSlice]: fails on other lengths, so on nil. *)
Definition addr_from_slice (ip : net_ip) : option addr :=
  match ip with
  | IPNil => None
  | IP4b n => Some (A4 n)
  | IP16b n => Some (A6 n "")
  end.

(** [IP.To4]: the four-byte form, or nil. *)
Definition net_to4 (ip : net_ip) : net_ip :=
  match ip with
  | IP4b n => IP4b n
  | IP16b n => match to4 n with Some v => IP4b v | None => IPNil end
  | IPNil => IPNil
  end.

(** [net.ParseIP] gives the sixteen-byte form. *)
Definition net_parse_ip (s : string) : net_ip :=
  match parse_ip s with Some n => IP16b n | None => IPNil end.

(** ** Lemmas *)
Arguments is_4in6 : simpl never.

Lemma unmap_idemp a : unmap (unmap a) = unmap a.
Proof.
  destruct a as [| |n z]; [reflexivity..|]. cbn [unmap].
  destruct (is_4in6 n) eqn:E; cbn [unmap]; [|rewrite E]; reflexivity.
Qed.

Lemma unmap_valid a : is_valid (unmap a) = is_valid a.
Proof.
  destruct a as [| |n z]; [reflexivity..|]. cbn [unmap].
  destruct (is_4in6 n); reflexivity.
Qed.

Lemma shiftr_mask_top w bits n :
  N.shiftr (mask_top w bits n) (w - bits) = N.shiftr n (w - bits).
Proof.
  unfold mask_top. rewrite N.shiftr_shiftl_l by done. by rewrite N.sub_diag, N.shiftl_0_r.
Qed.

(** Masking a prefix does not change what it contains. *)
Lemma masked_contains p a : prefix_contains (masked p) a = prefix_contains p a.
Proof.
  unfold prefix_contains, masked. destruct (prefix_valid p) eqn:Hv; [|done].
  unfold prefix_valid in *.
  destruct (p_addr p) as [|n|n z]; cbn [p_bits p_addr].
  - by rewrite !andb_false_r.
  - rewrite Hv. unfold top_bits_eq. by rewrite shiftr_mask_top.
  - rewrite Hv. unfold top_bits_eq. by rewrite shiftr_mask_top.
Qed.
