(* ===== verification/Encoding.v ===== *)
(** * Texts of bytes: the encodings of the Go standard library

    [encoding/hex], [encoding/base64] and [encoding/binary] as the sources use
    them, with their round trips. *)
From S2P Require Import Prelude NetAddr.

(** ** encoding/hex *)
Fixpoint hex_pairs (l : list ascii) : option (list ascii) :=
  match l with
  | [] => Some []
  | [_] => None
  | a :: b :: l =>
      match hex_val a, hex_val b, hex_pairs l with
      | Some x, Some y, Some out => Some (ascii_of_N (x * 16 + y) :: out)
      | _, _, _ => None
      end
  end.
Definition hex_decode (s : string) : res string :=
  match hex_pairs (bytes s) with
  | Some l => Ok (mk l)
  | None => Err (errNew "encoding/hex: invalid byte")
  end.

(** [hex.EncodeToString] *)
Definition hex_encode (s : string) : string :=
  mk (concat (map (λ c, [hex_digit (code c / 16); hex_digit (code c mod 16)]%N) (bytes s))).

(** ** encoding/base64 *)
Record base64_encoding := Base64 { alphabet : string; padded : bool }.
Definition StdEncoding :=
  Base64 "ABCDEFGHIJKLMNOPQRSTUVWXYZabcdefghijklmnopqrstuvwxyz0123456789+/" true.
Definition RawURLEncoding :=
  Base64 "ABCDEFGHIJKLMNOPQRSTUVWXYZabcdefghijklmnopqrstuvwxyz0123456789-_" false.

Fixpoint index_from (i : N) (c : ascii) (l : list ascii) : option N :=
  match l with
  | [] => None
  | x :: l => if is_char c x then Some i else index_from (i + 1) c l
  end.
Definition base64_val (e : base64_encoding) (c : ascii) : option N :=
  index_from 0 c (bytes (alphabet e)).
Definition base64_char (e : base64_encoding) (n : N) : ascii :=
  nth (N.to_nat n) (bytes (alphabet e)) "A"%char.

Definition is_pad (e : base64_encoding) (c : ascii) : bool := padded e && is_char "=" c.
Definition byte_of (n : N) : ascii := ascii_of_N (n mod 256).

(** The three bytes of a quantum of 24 bits. *)
Definition quantum (x y z u : N) : ascii * ascii * ascii :=
  let val := (x * 262144 + y * 4096 + z * 64 + u)%N in
  (byte_of (val / 65536), byte_of (val / 256), byte_of val).

(** The bits a last group leaves over are dropped. *)
Fixpoint base64_groups (e : base64_encoding) (l : list ascii) : option (list ascii) :=
  let last2 a b :=
    match base64_val e a, base64_val e b with
    | Some x, Some y => Some [(quantum x y 0 0).1.1]
    | _, _ => None
    end in
  let last3 a b c :=
    match base64_val e a, base64_val e b, base64_val e c with
    | Some x, Some y, Some z => Some [(quantum x y z 0).1.1; (quantum x y z 0).1.2]
    | _, _, _ => None
    end in
  match l with
  | [] => Some []
  | [_] => None
  | [a; b] => if padded e then None else last2 a b
  | [a; b; c] => if padded e then None else last3 a b c
  | a :: b :: c :: d :: rest =>
      if is_pad e c then if is_pad e d && bool_decide (rest = []) then last2 a b else None
      else if is_pad e d then if bool_decide (rest = []) then last3 a b c else None
      else
        match base64_val e a, base64_val e b, base64_val e c, base64_val e d, base64_groups e rest with
        | Some x, Some y, Some z, Some u, Some out =>
            let '(i, j, k) := quantum x y z u in Some (i :: j :: k :: out)
        | _, _, _, _, _ => None
        end
  end.

(** [DecodeString]: line breaks are skipped. *)
Definition base64_decode (e : base64_encoding) (s : string) : res string :=
  match base64_groups e
          (List.filter (λ c, negb ((code c =? 10) || (code c =? 13))%N) (bytes s)) with
  | Some l => Ok (mk l)
  | None => Err (errNew "illegal base64 data at input byte")
  end.

(** [EncodeToString] without padding. *)
Fixpoint raw_groups (e : base64_encoding) (l : list ascii) : list ascii :=
  let digits val := map (base64_char e)
    [val / 262144; val / 4096 mod 64; val / 64 mod 64; val mod 64]%N in
  match l with
  | [] => []
  | [a] => take 2 (digits (code a * 65536)%N)
  | [a; b] => take 3 (digits (code a * 65536 + code b * 256)%N)
  | a :: b :: c :: rest => digits (code a * 65536 + code b * 256 + code c)%N ++ raw_groups e rest
  end.
Definition raw_url_encode (s : string) : string := mk (raw_groups RawURLEncoding (bytes s)).

(** ** encoding/binary: 16-bit big-endian words *)
Definition put_uint16 (n : N) : string := mk [byte_of (n / 256); byte_of n].
Definition uint16_of (a b : ascii) : N := (code a * 256 + code b)%N.

(** ** strconv *)

(** [strconv.Itoa] *)
Definition itoa (n : Z) : string :=
  if (n <? 0)%Z then "-" +:+ format_uint (Z.to_N (- n)) else format_uint (Z.to_N n).

(** * Lemmas *)
Lemma code_bound c : (code c < 256)%N.
Proof. apply N_ascii_bounded. Qed.
Lemma byte_of_code c : byte_of (code c) = c.
Proof. unfold byte_of. rewrite N.mod_small by apply code_bound. apply ascii_N_embedding. Qed.
Lemma byte_of_mod n : byte_of (n mod 256) = byte_of n.
Proof. unfold byte_of. by rewrite N.Div0.mod_mod. Qed.
Lemma code_byte_of n : code (byte_of n) = (n mod 256)%N.
Proof. apply N_ascii_embedding. by apply N.mod_lt. Qed.

(** A property of the numbers below [k] that is checked one by one. *)
Lemma below_forall (P : N → Prop) k :
  Forall P (map N.of_nat (seq 0 k)) → ∀ n, (n < N.of_nat k)%N → P n.
Proof.
  intros HF n Hn. rewrite Forall_forall in HF. apply HF.
  apply list_elem_of_In, in_map_iff. exists (N.to_nat n). rewrite N2Nat.id.
  split; [done|]. apply in_seq. lia.
Qed.

Lemma hex_pairs_length l out : hex_pairs l = Some out → length l = 2 * length out.
Proof.
  revert out. induction l as [l IH] using (induction_ltof1 _ (@length ascii)); intros out.
  destruct l as [|a [|b l]]; cbn [hex_pairs]; [by intros [= <-]|done|].
  destruct (hex_val a), (hex_val b), (hex_pairs l) as [o|] eqn:E; try done.
  intros [= <-]. apply IH in E; [cbn [length]; lia|unfold ltof; cbn [length]; lia].
Qed.

Lemma hex_digit_val n : (n < 16)%N → hex_val (hex_digit n) = Some n.
Proof. revert n. apply (below_forall (λ n, hex_val (hex_digit n) = Some n) 16). by repeat constructor. Qed.

(** Hexadecimal text decodes to the bytes it encodes. *)
Lemma hex_roundtrip s : hex_decode (hex_encode s) = Ok s.
Proof.
  unfold hex_decode, hex_encode. rewrite bytes_mk.
  assert (H : ∀ l, hex_pairs (concat (map (λ c, [hex_digit (code c / 16); hex_digit (code c mod 16)]%N) l))
    = Some l).
  { induction l as [|c l IH]; [done|]. cbn [map concat app hex_pairs].
    pose proof (code_bound c).
    rewrite !hex_digit_val, IH by (first [apply N.mod_lt; done | apply N.Div0.div_lt_upper_bound; lia]).
    f_equal. f_equal. rewrite N.mul_comm, <-N.div_mod by done. apply ascii_N_embedding. }
  by rewrite H, mk_bytes.
Qed.

Lemma hex_encode_length s : slen (hex_encode s) = 2 * slen s.
Proof.
  pose proof (hex_roundtrip s) as H. unfold hex_decode in H.
  destruct (hex_pairs (bytes (hex_encode s))) as [l|] eqn:E; [|done]. injection H as <-.
  unfold slen. rewrite bytes_mk. by apply hex_pairs_length.
Qed.

Lemma raw_url_val n : (n < 64)%N → base64_val RawURLEncoding (base64_char RawURLEncoding n) = Some n.
Proof.
  revert n. apply (below_forall (λ n, base64_val RawURLEncoding (base64_char RawURLEncoding n) = Some n) 64).
  vm_compute. by repeat constructor.
Qed.

Lemma quantum_digits val : (val < 16777216)%N →
  quantum (val / 262144) (val / 4096 mod 64) (val / 64 mod 64) (val mod 64) =
    (byte_of (val / 65536), byte_of (val / 256), byte_of val).
Proof.
  intros Hv. unfold quantum.
  replace (val / 262144 * 262144 + val / 4096 mod 64 * 4096 + val / 64 mod 64 * 64 + val mod 64)%N
    with val; [done|].
  zify. Z.to_euclidean_division_equations. lia.
Qed.

Definition url_char (c : ascii) : Prop := (∃ n, (n < 64)%N ∧ c = base64_char RawURLEncoding n).

Lemma raw_groups_url l : Forall url_char (raw_groups RawURLEncoding l).
Proof.
  assert (Hd : ∀ val, (val < 16777216)%N → Forall url_char (map (base64_char RawURLEncoding)
    [val / 262144; val / 4096 mod 64; val / 64 mod 64; val mod 64]%N)).
  { intros val Hv. cbn [map]. repeat constructor; eexists; (split; [|reflexivity]);
      first [apply N.mod_lt; done | apply N.Div0.div_lt_upper_bound; lia]. }
  induction l as [l IH] using (induction_ltof1 _ (@length ascii)).
  destruct l as [|a [|b [|c l]]]; cbn [raw_groups]; [constructor|apply Forall_take, Hd|apply Forall_take, Hd|].
  - pose proof (code_bound a). lia.
  - pose proof (code_bound a). pose proof (code_bound b). lia.
  - apply Forall_app. split.
    + apply Hd. pose proof (code_bound a). pose proof (code_bound b). pose proof (code_bound c). lia.
    + apply IH. unfold ltof. cbn [length]. lia.
Qed.

Lemma quantum_bytes x y z u a b c : (u < 64)%N → (z < 64)%N → (y < 64)%N →
  (x * 262144 + y * 4096 + z * 64 + u = code a * 65536 + code b * 256 + code c)%N →
  quantum x y z u = (a, b, c).
Proof.
  intros Hu Hz Hy E. unfold quantum. rewrite E.
  pose proof (code_bound a). pose proof (code_bound b). pose proof (code_bound c).
  set (val := (code a * 65536 + code b * 256 + code c)%N).
  assert (val / 65536 = code a)%N as -> by (subst val; zify; Z.to_euclidean_division_equations; lia).
  rewrite <-(byte_of_mod (val / 256)), <-(byte_of_mod val).
  assert (val / 256 mod 256 = code b)%N as ->
    by (subst val; zify; Z.to_euclidean_division_equations; lia).
  assert (val mod 256 = code c)%N as -> by (subst val; zify; Z.to_euclidean_division_equations; lia).
  by rewrite !byte_of_code.
Qed.

Lemma raw_groups_decode l : base64_groups RawURLEncoding (raw_groups RawURLEncoding l) = Some l.
Proof.
  induction l as [l IH] using (induction_ltof1 _ (@length ascii)).
  assert (Hdiv : ∀ n, (n < 16777216)%N → (n / 262144 < 64)%N)
    by (intros; apply N.Div0.div_lt_upper_bound; lia).
  assert (Hmod : ∀ n, (n mod 64 < 64)%N) by (intros; by apply N.mod_lt).
  pose (zero := ascii_of_N 0).
  destruct l as [|a [|b [|c l]]]; [done| | |];
    pose proof (code_bound a) as Ha; cbn [raw_groups map take app base64_groups padded RawURLEncoding];
    fold RawURLEncoding.
  - rewrite !raw_url_val by (first [apply Hdiv; lia|apply Hmod]).
    rewrite (quantum_bytes _ _ 0 0 a zero zero); [done|done|done|apply Hmod|].
    change (code zero) with 0%N. zify. Z.to_euclidean_division_equations. lia.
  - pose proof (code_bound b) as Hb.
    rewrite !raw_url_val by (first [apply Hdiv; lia|apply Hmod]).
    rewrite (quantum_bytes _ _ _ 0 a b zero); [done|done|apply Hmod|apply Hmod|].
    change (code zero) with 0%N. zify. Z.to_euclidean_division_equations. lia.
  - pose proof (code_bound b) as Hb. pose proof (code_bound c) as Hc.
    cbn [is_pad padded RawURLEncoding andb]. fold RawURLEncoding.
    rewrite !raw_url_val by (first [apply Hdiv; lia|apply Hmod]).
    rewrite IH by (unfold ltof; cbn [length]; lia).
    rewrite (quantum_bytes _ _ _ _ a b c); [done|apply Hmod|apply Hmod|apply Hmod|].
    zify. Z.to_euclidean_division_equations. lia.
Qed.

(** Base64 without padding decodes to the bytes it encodes. *)
Lemma raw_url_roundtrip s : base64_decode RawURLEncoding (raw_url_encode s) = Ok s.
Proof.
  unfold base64_decode, raw_url_encode. rewrite bytes_mk, List.forallb_filter_id.
  - by rewrite raw_groups_decode, mk_bytes.
  - apply forallb_forall. intros x Hx%list_elem_of_In.
    pose proof (raw_groups_url (bytes s)) as HF. rewrite Forall_forall in HF.
    destruct (HF x Hx) as (n & Hn & ->). clear Hx. revert n Hn.
    apply (below_forall (λ n, negb ((code (base64_char RawURLEncoding n) =? 10)
      || (code (base64_char RawURLEncoding n) =? 13))%N = true) 64).
    vm_compute. by repeat constructor.
Qed.

Lemma put_uint16_roundtrip n : (n < 65536)%N →
  ∃ a b, put_uint16 n = mk [a; b] ∧ uint16_of a b = n.
Proof.
  intros Hn. exists (byte_of (n / 256)), (byte_of n). split; [done|].
  unfold uint16_of. rewrite !code_byte_of, (N.mod_small (n / 256))
    by (apply N.Div0.div_lt_upper_bound; lia).
  rewrite N.mul_comm. symmetry. by apply N.div_mod.
Qed.

Lemma url_char_plain c : url_char c → is_space c = false.
Proof.
  intros (n & Hn & ->). revert n Hn.
  apply (below_forall (λ n, is_space (base64_char RawURLEncoding n) = false) 64).
  vm_compute. by repeat constructor.
Qed.

Lemma raw_url_trimmed s : trimmed (raw_url_encode s).
Proof.
  assert (HF : Forall (λ c, is_space c = false) (bytes (raw_url_encode s))).
  { unfold raw_url_encode. rewrite bytes_mk.
    eapply Forall_impl; [apply raw_groups_url|]. apply url_char_plain. }
  assert (Hs : ∀ l, Forall (λ c, is_space c = false) l → starts_ok is_space l)
    by (by intros [|c l] Hl; inversion Hl).
  split; apply Hs; [done|by apply Forall_reverse].
Qed.

Lemma raw_url_nonempty s : 1 ≤ slen s → raw_url_encode s ≠ "".
Proof.
  intros Hs He. pose proof (raw_url_roundtrip s) as Hr. rewrite He in Hr.
  change (base64_decode RawURLEncoding "") with (Ok (A := string) "") in Hr. injection Hr as <-.
  unfold slen in Hs. cbn in Hs. lia.
Qed.

(** ** IPv4 addresses in text *)
Definition ipv4_char (c : ascii) : Prop := is_digit c = true ∨ c = "."%char.

Lemma ipv4_char_plain c : ipv4_char c →
  is_space c = false ∧ is_char ":" c = false ∧ is_char "[" c = false ∧ is_char "]" c = false ∧
  is_char "%" c = false.
Proof.
  intros [Hc| ->]; [|done]. rewrite (digit_not_space _ Hc).
  split_and!; try done; unfold is_char; apply bool_decide_eq_false; intros ->; done.
Qed.

Lemma octet_text k : (k < 256)%N →
  octet (bytes (format_uint k)) = Some k ∧ forallb is_digit (bytes (format_uint k)) = true ∧
  format_uint k ≠ "".
Proof.
  revert k. apply (below_forall (λ k, octet (bytes (format_uint k)) = Some k ∧
    forallb is_digit (bytes (format_uint k)) = true ∧ format_uint k ≠ "") 256).
  apply (bool_decide_unpack _). vm_compute. exact I.
Qed.

Lemma digits_chars l : forallb is_digit l = true → Forall ipv4_char l ∧ Forall (λ c, is_char "." c = false) l.
Proof.
  intros Hl. rewrite forallb_forall in Hl.
  split; apply Forall_forall; intros c Hc%list_elem_of_In%Hl; [by left|].
  unfold is_char. apply bool_decide_eq_false. by intros ->.
Qed.

Lemma format_ipv4_bytes n : ∃ a b c d,
  bytes (format_ipv4 n) = join_with ["."%char] [bytes (format_uint a); bytes (format_uint b);
    bytes (format_uint c); bytes (format_uint d)] ∧
  (a < 256 ∧ b < 256 ∧ c < 256 ∧ d < 256)%N ∧
  ((n < 2 ^ 32)%N → n = (a * 2 ^ 24 + b * 2 ^ 16 + c * 2 ^ 8 + d)%N).
Proof.
  exists (N.shiftr n 24 mod 256)%N, (N.shiftr n 16 mod 256)%N, (N.shiftr n 8 mod 256)%N, (n mod 256)%N.
  split; [unfold format_ipv4; by rewrite !bytes_app|].
  split; [split_and!; by apply N.mod_lt|]. intros Hn. rewrite !N.shiftr_div_pow2.
  change (2 ^ 32)%N with 4294967296%N in Hn. change (2 ^ 24)%N with 16777216%N.
  change (2 ^ 16)%N with 65536%N. change (2 ^ 8)%N with 256%N.
  zify. Z.to_euclidean_division_equations. lia.
Qed.

Lemma join_chars (P : ascii → Prop) c ws : P c → Forall (Forall P) ws → Forall P (join_with [c] ws).
Proof.
  intros Hc. induction 1 as [|w ws Hw Hws IH]; [constructor|].
  destruct ws as [|v ws]; [done|]. cbn [join_with]. apply Forall_app. split; [done|].
  apply Forall_app. split; [by repeat constructor|exact IH].
Qed.

Lemma format_ipv4_chars n : Forall ipv4_char (bytes (format_ipv4 n)) ∧ format_ipv4 n ≠ "" ∧
  ∃ d l, bytes (format_ipv4 n) = d ++ "."%char :: l ∧ Forall (λ c, is_digit c = true) d.
Proof.
  destruct (format_ipv4_bytes n) as (a & b & c & d & E & (Ha & Hb & Hc & Hd) & _).
  destruct (octet_text a Ha) as (_ & A & Na), (octet_text b Hb) as (_ & B & _),
    (octet_text c Hc) as (_ & C & _), (octet_text d Hd) as (_ & D & _).
  split_and!.
  - rewrite E. apply join_chars; [by right|].
    repeat (constructor; [by apply digits_chars|]). constructor.
  - intros En. rewrite En in E. by destruct (bytes (format_uint a)).
  - eexists (bytes (format_uint a)), _. split; [exact E|].
    apply Forall_forall. intros x Hx%list_elem_of_In. rewrite forallb_forall in A. by apply A.
Qed.

Lemma drop_while_app {A} (p : A → bool) l k : Forall (λ x, p x = true) l →
  drop_while p (l ++ k) = drop_while p k.
Proof. induction 1 as [|x l Hx Hl IH]; cbn [drop_while app]; [done|]. by rewrite Hx. Qed.

(** An IPv4 address is read back from its text. *)
Lemma ipv4_roundtrip n : (n < 2 ^ 32)%N → parse_addr (format_ipv4 n) = Some (A4 n).
Proof.
  intros Hn. destruct (format_ipv4_chars n) as (_ & _ & d0 & l & El & Hd0).
  unfold parse_addr. rewrite El, drop_while_app.
  2:{ eapply Forall_impl; [exact Hd0|]. cbn. intros c Hc. destruct (ipv4_char_plain c) as (_ & -> & _ & _ & ->);
        [by left|]. destruct (is_char "." c) eqn:Ec; [|done].
      unfold is_char in Ec. apply bool_decide_eq_true in Ec as ->. done. }
  cbn [drop_while]. match goal with |- context [if ?b then _ else _] => change b with false end.
  cbn iota. rewrite <-El.
  destruct (format_ipv4_bytes n) as (a & b & c & d & E & (Ha & Hb & Hc & Hd) & Hv).
  unfold parse_ipv4. rewrite E, split_join_with; [|done|].
  - destruct (octet_text a Ha) as (-> & _), (octet_text b Hb) as (-> & _),
      (octet_text c Hc) as (-> & _), (octet_text d Hd) as (-> & _). cbn [fmap option_fmap option_map].
    by rewrite <-Hv.
  - destruct (octet_text a Ha) as (_ & A & _), (octet_text b Hb) as (_ & B & _),
      (octet_text c Hc) as (_ & C & _), (octet_text d Hd) as (_ & D & _).
    repeat (constructor; [by apply digits_chars|]). constructor.
Qed.
