(* ===== verification/AddrText.v ===== *)
(** * The text of an address determines it: net.IP.String

    RFC 5952 text of IPv6 addresses as Go writes it (the longest run of zero
    groups left out), read back as the words between its colons; no two
    addresses have the same text, and none has the text of an IPv4 address.
    The cache's keys depend on it. *)
From S2P Require Import Prelude NetAddr Encoding.

(** ** Hexadecimal groups *)
Definition hexv (l : list ascii) : option N :=
  foldl (λ a c, a ← a; v ← hex_val c; Some (a * 16 + v)%N) (Some 0%N) l.

Lemma hexv_app l c : hexv (l ++ [c]) = (a ← hexv l; v ← hex_val c; Some (a * 16 + v)%N).
Proof. unfold hexv. by rewrite foldl_app. Qed.

Lemma hex_go_app f n acc : hex_go f n acc = hex_go f n [] ++ acc.
Proof.
  revert n acc. induction f as [|f IH]; intros n acc; [done|]. cbn [hex_go].
  destruct (n <? 16)%N; [done|]. rewrite (IH _ (_ :: acc)), (IH _ [_]), <-app_assoc. done.
Qed.

Lemma hexv_go f n : (n < 16 ^ N.of_nat f)%N → (0 < f)%nat → hexv (hex_go f n []) = Some n.
Proof.
  revert n. induction f as [|f IH]; intros n Hn Hf; [lia|]. cbn [hex_go].
  destruct (N.ltb_spec n 16) as [Hs|Hs].
  - cbn. rewrite N.mod_small by done. by rewrite hex_digit_val.
  - rewrite hex_go_app, hexv_app. rewrite IH.
    + cbn. rewrite hex_digit_val by (apply N.mod_lt; done). cbn. f_equal. pose proof (N.div_mod' n 16). lia.
    + rewrite Nat2N.inj_succ, N.pow_succ_r' in Hn. apply N.Div0.div_lt_upper_bound. lia.
    + destruct f; [|lia]. cbn in Hn. lia.
Qed.

Lemma format_hex_inj g h : (g < 65536)%N → (h < 65536)%N → format_hex g = format_hex h → g = h.
Proof.
  intros Hg Hh E%(f_equal bytes). unfold format_hex in E. rewrite !bytes_mk in E.
  apply (f_equal hexv) in E. rewrite !hexv_go in E by (try lia; done). by injection E.
Qed.

Lemma hex_go_chars f n acc : Forall (λ c, is_char ":" c = false) acc → Forall (λ c, is_char ":" c = false) (hex_go f n acc).
Proof.
  revert n acc. induction f as [|f IH]; intros n acc Ha; [done|]. cbn [hex_go].
  assert (Forall (λ c, is_char ":" c = false) (hex_digit (n mod 16) :: acc)).
  { constructor; [|done]. assert (Hm : (n mod 16 < 16)%N) by (apply N.mod_lt; done). revert Hm. generalize (n mod 16)%N.
    intros m Hm. assert (Hi : m ∈ N.of_nat <$> seq 0 16).
    { apply list_elem_of_fmap. exists (N.to_nat m). rewrite elem_of_seq. lia. }
    revert Hi. generalize m. apply Forall_forall. repeat constructor; by vm_compute. }
  destruct (n <? 16)%N; auto.
Qed.

Lemma hex_go_nonempty f n : hex_go (S f) n [] ≠ [].
Proof.
  cbn [hex_go]. destruct (n <? 16)%N; [done|]. rewrite hex_go_app. by intros [_ ?]%app_eq_nil.
Qed.

Lemma format_hex_word g : Forall (λ c, is_char ":" c = false) (bytes (format_hex g)) ∧ bytes (format_hex g) ≠ [].
Proof.
  unfold format_hex. rewrite bytes_mk. split; [by apply hex_go_chars|]. apply hex_go_nonempty.
Qed.

(** The words between the colons. *)
Definition words (s : string) : list (list ascii) := split_with (is_char ":") (bytes s).
Definition hexes (gs : list N) : list (list ascii) := map (λ g, bytes (format_hex g)) gs.

Lemma words_colon l s : Forall (λ c, is_char ":" c = false) l →
  split_with (is_char ":") (l ++ ":"%char :: s) = l :: split_with (is_char ":") s.
Proof. intros Hl. rewrite split_with_app by done. cbn [split_with]. change (is_char ":" ":") with true. cbn. by rewrite app_nil_r. Qed.

Lemma hexes_words gs : Forall (Forall (λ c, is_char ":" c = false)) (hexes gs).
Proof. apply Forall_forall. intros w (g & -> & _)%list_elem_of_fmap. apply format_hex_word. Qed.

Lemma words_join_with ws s : ws ≠ [] → Forall (Forall (λ c, is_char ":" c = false)) ws →
  split_with (is_char ":") (join_with [":"%char] ws ++ ":"%char :: s) = ws ++ split_with (is_char ":") s.
Proof.
  intros Hne HF. induction HF as [|w ws Hw HF IH]; [done|]. destruct ws as [|v ws].
  - cbn [join_with]. by rewrite words_colon.
  - change (join_with [":"%char] (w :: v :: ws)) with (w ++ ":"%char :: join_with [":"%char] (v :: ws)).
    rewrite <-app_assoc. cbn [app]. rewrite words_colon by done. by rewrite IH.
Qed.

Lemma words_start s : split_with (is_char ":") (":"%char :: s) = [] :: split_with (is_char ":") s.
Proof. exact (words_colon [] s ltac:(constructor)). Qed.

Lemma bytes_join_hex gs : bytes (join (map format_hex gs) ":") = join_with [":"%char] (hexes gs).
Proof. rewrite bytes_join, map_map. done. Qed.

Lemma hexes_ne gs : gs ≠ [] → hexes gs ≠ [].
Proof. by destruct gs. Qed.

Lemma words_join gs s : gs ≠ [] →
  split_with (is_char ":") (bytes (join (map format_hex gs) ":") ++ ":"%char :: s) =
  hexes gs ++ split_with (is_char ":") s.
Proof. intros Hg. rewrite bytes_join_hex. apply words_join_with; [by apply hexes_ne | apply hexes_words]. Qed.

Lemma words_join_end gs : gs ≠ [] → split_with (is_char ":") (bytes (join (map format_hex gs) ":")) = hexes gs.
Proof. intros Hg. rewrite bytes_join_hex. apply split_join_with; [by apply hexes_ne | apply hexes_words]. Qed.

(** The longest run is one of zeros. *)
Lemma zero_run_spec gs : take (zero_run gs) gs = replicate (zero_run gs) 0%N ∧ zero_run gs ≤ length gs.
Proof.
  induction gs as [|g gs [IH1 IH2]]; [done|]. destruct g as [|p]; cbn; [|split; [done|lia]]. split; [by f_equal|lia].
Qed.

Lemma best_run_spec gs0 i gs best : drop i gs0 = gs → i + length gs = length gs0 →
  (best.2 = 0 ∨ 2 ≤ best.2) → take best.2 (drop best.1 gs0) = replicate best.2 0%N → best.1 + best.2 ≤ length gs0 →
  let b := best_run i gs best in
  (b.2 = 0 ∨ 2 ≤ b.2) ∧ take b.2 (drop b.1 gs0) = replicate b.2 0%N ∧ b.1 + b.2 ≤ length gs0.
Proof.
  revert i best. induction gs as [|g gs IH]; intros i best Hd Hl H1 H2 H3; [done|]. cbn zeta. 
  change (best_run i (g :: gs) best) with
    (best_run (S i) gs (if (2 <=? zero_run (g :: gs))%nat && (snd best <? zero_run (g :: gs))%nat then (i, zero_run (g :: gs)) else best)).
  assert (Hd' : drop (S i) gs0 = gs).
  { rewrite <-Nat.add_1_r, <-drop_drop, Hd. done. }
  cbn [length] in Hl. apply IH; [done|lia|..]; destruct (_ && _) eqn:E; try done.
  - apply andb_true_iff in E as [E _]. apply Nat.leb_le in E. by right.
  - cbn [fst snd]. rewrite Hd. apply zero_run_spec.
  - cbn [fst snd]. pose proof (proj2 (zero_run_spec (g :: gs))). cbn [length] in *. lia.
Qed.

(** The groups with the run left out, as the words of the text. *)
Definition shown (gs : list N) : list (list ascii) :=
  let '(i, r) := best_run 0 gs (0, 0) in
  if (r =? 0)%nat then hexes gs
  else (if (i =? 0)%nat then [[]] else hexes (take i gs)) ++ [] ::
       (if (i + r =? length gs)%nat then [[]] else hexes (drop (i + r) gs)).

Lemma format_ipv6_words n : words (format_ipv6 n) = shown (groups_of n).
Proof.
  unfold words, format_ipv6, shown.
  pose proof (best_run_spec (groups_of n) 0 (groups_of n) (0, 0) eq_refl eq_refl ltac:(by left) eq_refl ltac:(cbn; lia)) as Hb.
  destruct (best_run 0 (groups_of n) (0, 0)) as [i r]. cbn [fst snd] in Hb. destruct Hb as (_ & _ & Hle).
  destruct (r =? 0)%nat eqn:Er; [by apply words_join_end|]. apply Nat.eqb_neq in Er.
  rewrite !bytes_app. change (bytes "::") with [":"%char; ":"%char]. cbn [app].
  assert (Hrest : split_with (is_char ":") (":"%char :: bytes (join (map format_hex (drop (i + r) (groups_of n))) ":")) =
    [] :: (if (i + r =? length (groups_of n))%nat then [[]] else hexes (drop (i + r) (groups_of n)))).
  { rewrite words_start. f_equal.
    destruct (Nat.eqb_spec (i + r) (length (groups_of n))) as [E|E].
    - by rewrite E, drop_all.
    - apply words_join_end. intros Hn. apply (f_equal length) in Hn. rewrite length_drop in Hn. cbn in *. lia. }
  destruct (Nat.eqb_spec i 0) as [->|Hi].
  - rewrite take_0. cbn [map]. change (bytes (join [] ":")) with (@nil ascii). cbn [app].
    rewrite words_start. by rewrite Hrest.
  - rewrite words_join; [by rewrite Hrest|]. intros Hn. apply (f_equal length) in Hn. rewrite length_take in Hn. cbn in *. lia.
Qed.

Lemma hexes_nonempty gs : [] ∉ hexes gs.
Proof. intros (g & E & _)%list_elem_of_fmap. by destruct (format_hex_word g) as [_ []]. Qed.

Lemma hexes_inj gs hs : Forall (λ g, g < 65536)%N gs → Forall (λ g, g < 65536)%N hs → hexes gs = hexes hs → gs = hs.
Proof.
  intros Hg. revert hs. induction Hg as [|g gs Hg0 _ IH]; intros [|h hs] Hh E; try done.
  apply Forall_cons in Hh as [Hh0 Hh]. injection E as E1 E2. apply bytes_inj, format_hex_inj in E1 as ->; [|done..].
  f_equal. by apply IH.
Qed.


Lemma app_first_pivot {A} (x : A) a b a' b' :
  x ∉ a → x ∉ a' → a ++ x :: b = a' ++ x :: b' → a = a' ∧ b = b'.
Proof.
  revert a'. induction a as [|y a IH]; intros [|y' a'] Ha Ha' [=]; subst; try set_solver.
  destruct (IH a' ltac:(set_solver) ltac:(set_solver)) as [-> ->]; done.
Qed.

(** Both ends of the shortened text: a lone empty word, or the groups' words. *)
Definition ends (gs : list N) : list (list ascii) := if (length gs =? 0)%nat then [[]] else hexes gs.

Lemma ends_inj gs hs : Forall (λ g, g < 65536)%N gs → Forall (λ g, g < 65536)%N hs → ends gs = ends hs → gs = hs.
Proof.
  intros Hg Hh. destruct gs as [|g gs], hs as [|h hs]; [done|..]; cbn [ends length Nat.eqb]; intros E.
  - exfalso. apply (hexes_nonempty (h :: hs)). unfold ends in E. cbn in E. cbn. rewrite <-E. left.
  - exfalso. apply (hexes_nonempty (g :: gs)). unfold ends in E. cbn in E. cbn. rewrite E. left.
  - unfold ends in E. cbn [length Nat.eqb] in E. by apply hexes_inj.
Qed.

Lemma ends_pivot gs hs s s' : ends gs ++ [] :: s = ends hs ++ [] :: s' → ends gs = ends hs ∧ s = s'.
Proof.
  destruct gs as [|g gs], hs as [|h hs]; unfold ends; cbn [length Nat.eqb].
  - by intros [= ->].
  - cbn. intros [= E _]. by destruct (format_hex_word h) as [_ []].
  - cbn. intros [= E _]. by destruct (format_hex_word g) as [_ []].
  - intros [E ->]%app_first_pivot; [done|apply hexes_nonempty..].
Qed.

Lemma shown_ends gs : ∃ i r, i + r ≤ length gs ∧ gs = take i gs ++ replicate r 0%N ++ drop (i + r) gs ∧
  ((r = 0 ∧ shown gs = hexes gs) ∨
   (r ≠ 0 ∧ shown gs = ends (take i gs) ++ [] :: ends (drop (i + r) gs))).
Proof.
  pose proof (best_run_spec gs 0 gs (0, 0) eq_refl eq_refl ltac:(by left) eq_refl ltac:(cbn; lia)) as Hb.
  unfold shown. destruct (best_run 0 gs (0, 0)) as [i r]. cbn [fst snd] in Hb. destruct Hb as (_ & Ht & Hle).
  exists i, r. split; [done|]. split.
  { rewrite <-Ht, <-drop_drop, take_drop, take_drop. done. }
  destruct (Nat.eqb_spec r 0) as [->|Hr]; [by left|right]. split; [done|].
  unfold ends. rewrite length_take, length_drop. f_equal.
  - destruct (Nat.eqb_spec i 0) as [->|]; [done|]. destruct (Nat.eqb_spec (i `min` length gs) 0); [lia|done].
  - destruct (Nat.eqb_spec (i + r) (length gs)), (Nat.eqb_spec (length gs - (i + r)) 0); try lia; done.
Qed.

Lemma shown_inj gs hs : length gs = length hs →
  Forall (λ g, g < 65536)%N gs → Forall (λ g, g < 65536)%N hs → shown gs = shown hs → gs = hs.
Proof.
  intros Hlen Hg Hh E.
  destruct (shown_ends gs) as (i & r & Hle & Egs & [[-> Es]|[Hr Es]]),
    (shown_ends hs) as (j & k & Hle' & Ehs & [[-> Es']|[Hk Es']]); rewrite Es, Es' in E.
  - by apply hexes_inj.
  - exfalso. apply (hexes_nonempty gs). rewrite E. set_solver.
  - exfalso. apply (hexes_nonempty hs). rewrite <-E. set_solver.
  - apply ends_pivot in E as [E1 E2].
    apply ends_inj in E1; [|by apply Forall_take..]. apply ends_inj in E2; [|by apply Forall_drop..].
    assert (r = k) as <-.
    { apply (f_equal length) in E1, E2. rewrite !length_take in E1. rewrite !length_drop in E2. lia. }
    by rewrite Egs, Ehs, E1, E2.
Qed.

(** The groups of an address. *)
Lemma groups_lt n : Forall (λ g, g < 65536)%N (groups_of n).
Proof. apply Forall_forall. intros g (i & -> & _)%list_elem_of_fmap. by apply N.mod_lt. Qed.

Lemma next_group n i : (n / 2 ^ (16 * (i + 1)) * 65536 + n / 2 ^ (16 * i) mod 65536 = n / 2 ^ (16 * i))%N.
Proof.
  rewrite N.mul_add_distr_l, N.mul_1_r.
  rewrite N.pow_add_r, <-N.Div0.div_div. change (2 ^ 16)%N with 65536%N.
  rewrite (N.mul_comm _ 65536). symmetry. apply N.div_mod'.
Qed.

Lemma groups_val n : (n < 2 ^ 128)%N → foldl (λ a g, a * 65536 + g)%N 0%N (groups_of n) = n.
Proof.
  intros Hn. unfold groups_of. cbn [map foldl]. rewrite !N.shiftr_div_pow2.
  assert (H7 : (n / 2 ^ 112 < 65536)%N) by (apply N.Div0.div_lt_upper_bound; exact Hn).
  change 112%N with (16 * (6 + 1))%N in H7. change (16 * 7)%N with (16 * (6 + 1))%N.
  rewrite (N.mod_small (n / 2 ^ (16 * (6 + 1)))) by exact H7. rewrite N.mul_0_l, N.add_0_l.
  rewrite (next_group n 6). change (16 * 6)%N with (16 * (5 + 1))%N. rewrite (next_group n 5).
  change (16 * 5)%N with (16 * (4 + 1))%N. rewrite (next_group n 4). change (16 * 4)%N with (16 * (3 + 1))%N. rewrite (next_group n 3).
  change (16 * 3)%N with (16 * (2 + 1))%N. rewrite (next_group n 2). change (16 * 2)%N with (16 * (1 + 1))%N. rewrite (next_group n 1).
  change (16 * 1)%N with (16 * (0 + 1))%N. rewrite (next_group n 0). apply N.div_1_r.
Qed.

Lemma format_ipv6_inj n m : (n < 2 ^ 128)%N → (m < 2 ^ 128)%N → format_ipv6 n = format_ipv6 m → n = m.
Proof.
  intros Hn Hm E. apply (f_equal words) in E. rewrite !format_ipv6_words in E.
  apply shown_inj in E; [|done|apply groups_lt..].
  by rewrite <-(groups_val n Hn), <-(groups_val m Hm), E.
Qed.

Lemma format_ipv6_colon n : ":"%char ∈ bytes (format_ipv6 n).
Proof.
  unfold format_ipv6. destruct (best_run _ _ _) as [i r]. destruct (r =? 0)%nat.
  - cbn [map groups_of]. rewrite join_cons, !bytes_app, !elem_of_app.
    right; left. by apply list_elem_of_singleton.
  - rewrite !bytes_app, !elem_of_app. right; left. left.
Qed.

Lemma format_ipv4_no_colon n : ":"%char ∉ bytes (format_ipv4 n).
Proof.
  intros Hc. destruct (format_ipv4_chars n) as [HF _]. rewrite Forall_forall in HF. specialize (HF _ Hc). destruct HF; discriminate.
Qed.

(** The sixteen-byte form of a [net.IP], and an address of the right width. *)
Definition as16 (ip : net_ip) : N :=
  match ip with IPNil => 0 | IP4b n => ip16 (A4 n) | IP16b n => n end%N.
Definition net_ip_wide (ip : net_ip) : Prop :=
  match ip with IPNil => True | IP4b n => (n < 2 ^ 32)%N | IP16b n => (n < 2 ^ 128)%N end.

Lemma to4_mapped n : (n < 2 ^ 32)%N → to4 (ip16 (A4 n)) = Some n.
Proof.
  intros Hn. unfold to4, ip16, is_4in6. rewrite N.shiftr_div_pow2, N.add_comm, N.div_add, N.div_small by done.
  cbn [N.add]. rewrite N.eqb_refl. f_equal. rewrite N.Div0.mod_add. by apply N.mod_small.
Qed.

Lemma to4_inv m v : to4 m = Some v → m = ip16 (A4 v) ∧ (v < 2 ^ 32)%N.
Proof.
  unfold to4, is_4in6. destruct (N.eqb_spec (N.shiftr m 32) v4_mapped_prefix) as [E|]; [|done]. intros [= <-].
  rewrite N.shiftr_div_pow2 in E. split; [|by apply N.mod_lt].
  unfold ip16. rewrite <-E, N.mul_comm. apply N.div_mod'.
Qed.

Lemma net_ip_string_16 ip : ip ≠ IPNil → net_ip_wide ip → net_ip_string ip = ip_string (as16 ip).
Proof.
  destruct ip as [|n|n]; [done| |done]; intros _ Hn. unfold ip_string. cbn [as16]. by rewrite to4_mapped.
Qed.

Lemma as16_wide ip : net_ip_wide ip → (as16 ip < 2 ^ 128)%N.
Proof.
  destruct ip as [|n|n]; cbn [net_ip_wide as16 ip16]; [done| |done]. intros Hn. 
  unfold v4_mapped_prefix. change (2 ^ 128)%N with 340282366920938463463374607431768211456%N. change (2 ^ 32)%N with 4294967296%N in *. lia.
Qed.

Lemma ip_string_inj n m : (n < 2 ^ 128)%N → (m < 2 ^ 128)%N → ip_string n = ip_string m → n = m.
Proof.
  intros Hn Hm. unfold ip_string. destruct (to4 n) as [v|] eqn:En, (to4 m) as [w|] eqn:Em; intros E.
  - apply to4_inv in En as [-> Hv], Em as [-> Hw]. apply (f_equal parse_addr) in E.
    rewrite !ipv4_roundtrip in E by done. by simplify_eq.
  - destruct (format_ipv4_no_colon v). rewrite E. apply format_ipv6_colon.
  - destruct (format_ipv4_no_colon w). rewrite <-E. apply format_ipv6_colon.
  - by apply format_ipv6_inj.
Qed.
