(* ===== verification/Names.v ===== *)
(** * Domain names as label sequences

    Generic facts on dotted names shared by the RPZ engine, the firewall and
    the zone store: splitting at dots, reversing the labels, and what it means
    for a name to lie below another. *)
From S2P Require Import Prelude.

(** Reversing the dot-separated labels of a byte string: the loop of
    [reverseDomain]/[ReverseDomain] between [Split] and [Join]. *)
Definition reverse_labels (s : string) : string :=
  join (reverse (split s ".")) ".".

(** [n] is [a] with at least one more label in front. *)
Definition strictly_below (n a : string) : Prop := ∃ x, n = x +:+ "." +:+ a.

(** [n] is [a] or lies below it. *)
Definition at_or_below (n a : string) : Prop := n = a ∨ strictly_below n a.

(** The lower-cased, trimmed form without a trailing dot that both
    [normalizeName] (rpz) and [normalizeDomain] (firewall) compute. *)
Definition bare_form (s : string) : string := trim_suffix (to_lower (trim_space s)) ".".

(** * Lemmas *)
Definition dotless (w : list ascii) : Prop := Forall (λ x, is_char "." x = false) w.

Lemma split_dot_app l k :
  split_with (is_char ".") (l ++ "."%char :: k) =
  split_with (is_char ".") l ++ split_with (is_char ".") k.
Proof.
  induction l as [|x l IH]; simpl; [done|].
  rewrite IH. destruct (is_char "." x); [done|].
  destruct (split_with _ l) eqn:E; [|done]. by destruct (split_with_nonnil _ _ E).
Qed.

Lemma split_parts s : split s "." = map mk (split_with (is_char ".") (bytes s)).
Proof. done. Qed.

Lemma bytes_reverse_labels s :
  bytes (reverse_labels s) =
  join_with ["."%char] (reverse (split_with (is_char ".") (bytes s))).
Proof.
  unfold reverse_labels. rewrite bytes_join, split_parts. f_equal.
  unfold reverse. rewrite !rev_append_rev, !app_nil_r, map_rev. f_equal.
  apply map_bytes_mk.
Qed.

Lemma split_reverse_labels s :
  split_with (is_char ".") (bytes (reverse_labels s)) =
  reverse (split_with (is_char ".") (bytes s)).
Proof.
  rewrite bytes_reverse_labels. apply split_join_with.
  - intros H%(f_equal reverse). rewrite reverse_involutive in H.
    by apply split_with_nonnil in H.
  - apply Forall_reverse, split_with_words.
Qed.

Lemma reverse_labels_involutive s : reverse_labels (reverse_labels s) = s.
Proof.
  apply bytes_inj. rewrite bytes_reverse_labels, split_reverse_labels.
  rewrite reverse_involutive. apply join_split_with.
Qed.

Lemma reverse_labels_inj s t : reverse_labels s = reverse_labels t → s = t.
Proof.
  intros H. by rewrite <-(reverse_labels_involutive s), H, reverse_labels_involutive.
Qed.

Lemma reverse_labels_app x a :
  reverse_labels (x +:+ "." +:+ a) = reverse_labels a +:+ "." +:+ reverse_labels x.
Proof.
  apply bytes_inj. rewrite !bytes_app, !bytes_reverse_labels, !bytes_app.
  change (bytes "." ++ bytes a) with ("."%char :: bytes a).
  rewrite split_dot_app, reverse_app, join_with_app; [done|..];
    intros H%(f_equal reverse); rewrite reverse_involutive in H;
    by apply split_with_nonnil in H.
Qed.

Lemma reverse_labels_empty s : reverse_labels s = "" ↔ s = "".
Proof.
  split; [|by intros ->]. intros H. by rewrite <-(reverse_labels_involutive s), H.
Qed.

(** A reversed key followed by a dot is a prefix exactly for the names below. *)
Lemma reversed_prefix_below n a :
  has_prefix (reverse_labels n) (reverse_labels a +:+ ".") = true ↔ strictly_below n a.
Proof.
  rewrite has_prefix_spec. split.
  - intros [y Hy]. exists (reverse_labels y). apply reverse_labels_inj.
    rewrite reverse_labels_app, reverse_labels_involutive, Hy.
    apply bytes_inj. by rewrite !bytes_app, <-app_assoc.
  - intros [x ->]. rewrite reverse_labels_app. exists (reverse_labels x).
    apply bytes_inj. by rewrite !bytes_app, <-app_assoc.
Qed.

Lemma reversed_prefix_at_or_below n a :
  at_or_below n a →
  has_prefix (reverse_labels n) (reverse_labels a) = true.
Proof.
  intros [->|Hb]; [by apply has_prefix_spec; exists ""; apply bytes_inj;
    rewrite bytes_app, app_nil_r|].
  apply reversed_prefix_below, has_prefix_spec in Hb as [t ->].
  apply has_prefix_spec. exists ("." +:+ t). apply bytes_inj.
  by rewrite !bytes_app, <-app_assoc.
Qed.

Lemma strictly_below_longer n a : strictly_below n a → slen a < slen n.
Proof.
  intros [x ->]. rewrite !slen_app. change (slen ".") with 1. lia.
Qed.

Lemma strictly_below_trans n a b : strictly_below n a → strictly_below a b → strictly_below n b.
Proof.
  intros [x ->] [y ->]. exists (x +:+ "." +:+ y). apply bytes_inj.
  by rewrite !bytes_app, <-!app_assoc.
Qed.

Lemma slen_reverse_labels s : slen (reverse_labels s) = slen s.
Proof.
  unfold slen. rewrite bytes_reverse_labels.
  assert (∀ ws, ws ≠ [] →
    length (join_with ["."%char] ws) + 1 = sum_list_with length ws + length ws) as Hlen.
  { induction ws as [|w ws IH]; [done|]. intros _. destruct ws as [|v ws].
    - simpl. lia.
    - change (join_with ["."%char] (w :: v :: ws))
        with (w ++ ["."%char] ++ join_with ["."%char] (v :: ws)).
      rewrite !length_app. specialize (IH ltac:(done)). simpl in *. lia. }
  pose proof (split_with_nonnil (is_char ".") (bytes s)) as Hne.
  rewrite <-(join_split_with "." (bytes s)) at 2.
  apply Hlen in Hne as H1.
  assert (reverse (split_with (is_char ".") (bytes s)) ≠ []) as Hne'.
  { intros H%(f_equal reverse). by rewrite reverse_involutive in H. }
  apply Hlen in Hne'. rewrite length_reverse, sum_list_with_reverse in Hne'. lia.
Qed.
