(* ===== verification/Rpz.v ===== *)
(** * Response policy zones: internal/rpz/engine.go

    The RPZ engine keeps an immutable snapshot (a map of exact names and a
    radix tree of reversed wildcard apexes) behind an atomic pointer. [RPZ]
    models every operation; [addStep] models the compare-and-swap loop of
    [AddPolicy] under arbitrary interleaving with other writers. *)
From S2P Require Import Prelude Radix NetAddr Names.

Module RPZ.

(** ** Actions and errors *)
Definition ActionNXDOMAIN := "NXDOMAIN".
Definition ActionNODATA := "NODATA".
Definition ActionDROP := "DROP".
Definition ActionCNAME := "CNAME".
Definition ActionA := "A".
Definition ActionAAAA := "AAAA".

Definition errUnknownAction := errNew "unknown rpz action".
Definition errEmptyPattern := errNew "rpz pattern must not be empty".
Definition errInvalidWildcard := errNew "rpz wildcard pattern must start with *.".
Definition errCNAMEWithoutTarget := errNew "rpz CNAME action requires a target".
Definition errAWithoutTarget := errNew "rpz A action requires an IPv4 target".
Definition errAAAAWithoutTarget := errNew "rpz AAAA action requires an IPv6 target".
Definition errInvalidIPv4Target := errNew "rpz A action requires a valid IPv4 address".
Definition errInvalidIPv6Target := errNew "rpz AAAA action requires a valid IPv6 address".

Record policyEntry := PolicyEntry { action : string; target : string }.

Record Policy := MkPolicy { Pattern : string; PAction : string; Target : string }.

Definition ParseAction (raw : string) : res string :=
  let a := to_upper (trim_space raw) in
  if bool_decide (a = ActionNXDOMAIN) || bool_decide (a = "") then Ok ActionNXDOMAIN
  else if bool_decide (a = ActionNODATA) then Ok ActionNODATA
  else if bool_decide (a = ActionDROP) then Ok ActionDROP
  else if bool_decide (a = ActionCNAME) then Ok ActionCNAME
  else if bool_decide (a = ActionA) then Ok ActionA
  else if bool_decide (a = ActionAAAA) then Ok ActionAAAA
  else Err (errWrap "%w: %q" errUnknownAction).

Definition normalizeName (name : string) : string :=
  let name := trim_space name in
  let name := to_lower name in
  trim_suffix name ".".

Definition reverseDomain (name : string) : string :=
  let name := normalizeName name in
  if bool_decide (name = "") then ""
  else join (reverse (split name ".")) ".".

Definition normalizeTarget (action target : string) : res string :=
  let target := trim_space target in
  if bool_decide (action = ActionCNAME) then
    let target := normalizeName target in
    if bool_decide (target = "") then Err errCNAMEWithoutTarget
    else Ok (target +:+ ".")
  else if bool_decide (action = ActionA) then
    if bool_decide (target = "") then Err errAWithoutTarget
    else match parse_ip target with
         | Some ip => match to4 ip with
                      | Some v => Ok (format_ipv4 v)
                      | None => Err errInvalidIPv4Target
                      end
         | None => Err errInvalidIPv4Target
         end
  else if bool_decide (action = ActionAAAA) then
    if bool_decide (target = "") then Err errAAAAWithoutTarget
    else match parse_ip target with
         | Some ip => match to4 ip with
                      | Some _ => Err errInvalidIPv6Target
                      | None => Ok (ip_string ip)
                      end
         | None => Err errInvalidIPv6Target
         end
  else if negb (bool_decide (target = "")) then
    Err (errNew "rpz target is only valid for CNAME, A, and AAAA actions")
  else Ok "".

(** The entry and, for a wildcard pattern, its reversed apex ("" otherwise). *)
Definition parsePattern (pattern action target : string) : res (policyEntry * string) :=
  let pattern := trim_space pattern in
  if bool_decide (pattern = "") then Err errEmptyPattern
  else
    let? action := ParseAction action in
    let? target := normalizeTarget action target in
    let entry := PolicyEntry action target in
    if has_prefix pattern "*." then
      let apex := normalizeName (trim_prefix pattern "*.") in
      if bool_decide (apex = "") then Err errInvalidWildcard
      else
        let reversed := reverseDomain apex in
        if bool_decide (reversed = "") then Err errInvalidWildcard
        else Ok (entry, reversed)
    else if contains pattern "*" then Err errInvalidWildcard
    else Ok (entry, "").

Section engine.
Context {T : Type → Type} `{RadixOps T} `{MapRange}.

Record policySnapshot := Snapshot {
  exact : gmap string policyEntry;
  wildcards : T policyEntry
}.

Record Engine := MkEngine { enabled : bool; snapshot : policySnapshot }.

Definition New : Engine := MkEngine true (Snapshot ∅ radix_new).

(** Pointers to an engine may be nil. *)
Definition Enabled (e : option Engine) : bool :=
  match e with None => false | Some e => enabled e end.

Definition SetEnabled (e : option Engine) (b : bool) : option Engine :=
  match e with None => None | Some e => Some (MkEngine b (snapshot e)) end.

Definition cloneSnapshot (cur : policySnapshot) : policySnapshot :=
  let nextExact := foldl (λ m kv, <[kv.1 := kv.2]> m) ∅ (range (exact cur)) in
  let nextWildcards := radix_insert_all radix_new (radix_walk (wildcards cur)) in
  Snapshot nextExact nextWildcards.

(** The body of [AddPolicy]'s loop between [Load] and [CompareAndSwap]. *)
Definition addToClone (cur : policySnapshot) (pattern : string)
    (entry : policyEntry) (reversedWildcard : string) : policySnapshot :=
  let next := cloneSnapshot cur in
  if bool_decide (reversedWildcard = "") then
    Snapshot (<[normalizeName pattern := entry]> (exact next)) (wildcards next)
  else
    Snapshot (exact next) (radix_insert (wildcards next) reversedWildcard entry).

(** [AddPolicy] when no other writer interferes: the first swap succeeds. *)
Definition AddPolicy (e : option Engine) (pattern action target : string) : res Engine :=
  match e with
  | None => Err (errNew "rpz engine is nil")
  | Some e =>
      let? (entry, reversedWildcard) := parsePattern pattern action target in
      Ok (MkEngine (enabled e) (addToClone (snapshot e) pattern entry reversedWildcard))
  end.

Fixpoint replaceLoop (acc : policySnapshot) (policies : list Policy) : res policySnapshot :=
  match policies with
  | [] => Ok acc
  | p :: ps =>
      let? (entry, reversedWildcard) := parsePattern (Pattern p) (PAction p) (Target p) in
      if bool_decide (reversedWildcard = "") then
        replaceLoop (Snapshot (<[normalizeName (Pattern p) := entry]> (exact acc))
                              (wildcards acc)) ps
      else
        replaceLoop (Snapshot (exact acc)
                              (radix_insert (wildcards acc) reversedWildcard entry)) ps
  end.

(** The engine afterwards and the error, if any. *)
Definition ReplacePolicies (e : option Engine) (policies : list Policy)
    : option Engine * option error :=
  match e with
  | None => (None, Some (errNew "rpz engine is nil"))
  | Some e =>
      match replaceLoop (Snapshot ∅ radix_new) policies with
      | Err err => (Some e, Some err)
      | Ok snap => (Some (MkEngine (enabled e) snap), None)
      end
  end.

Definition PolicyCount (e : option Engine) : nat :=
  match e with
  | None => 0
  | Some e => size (exact (snapshot e)) + radix_len (wildcards (snapshot e))
  end.

Definition Evaluate (e : option Engine) (qname : string) : option (string * string) :=
  match e with
  | None => None
  | Some e =>
      if negb (enabled e) then None
      else
        let name := normalizeName qname in
        if bool_decide (name = "") then None
        else
          match exact (snapshot e) !! name with
          | Some entry => Some (action entry, target entry)
          | None =>
              let reversed := reverseDomain name in
              if bool_decide (reversed = "") then None
              else
                match radix_longest_prefix (wildcards (snapshot e)) reversed with
                | None => None
                | Some (pre, entry) =>
                    if bool_decide (pre = "") then None
                    else if (slen reversed =? slen pre)%nat then None
                    else if bool_decide (nth_error (bytes reversed) (slen pre) = Some "."%char)
                    then Some (action entry, target entry)
                    else None
                end
          end
  end.

(** ** [AddPolicy] under concurrency

    Threads run the load / clone / compare-and-swap loop against the shared
    pointer; [version] is the identity of the published snapshot object.
    [committed] lists the policies in the order their swaps succeeded. *)
Record update := Update { uPattern : string; uEntry : policyEntry; uRev : string }.

Inductive pc :=
| AtLoad (u : update)
| AtCAS (u : update) (loaded : nat) (next : policySnapshot)
| Returned (u : update).

Record cstate := CState {
  version : nat;
  current : policySnapshot;
  threads : list pc;
  committed : list update
}.

Definition applyUpdate (s : policySnapshot) (u : update) : policySnapshot :=
  addToClone s (uPattern u) (uEntry u) (uRev u).

Inductive addStep : cstate → cstate → Prop :=
| step_load c i u :
    threads c !! i = Some (AtLoad u) →
    addStep c (CState (version c) (current c)
      (<[i := AtCAS u (version c) (applyUpdate (current c) u)]> (threads c)) (committed c))
| step_cas_ok c i u next :
    threads c !! i = Some (AtCAS u (version c) next) →
    addStep c (CState (S (version c)) next
      (<[i := Returned u]> (threads c)) (committed c ++ [u]))
| step_cas_fail c i u loaded next :
    threads c !! i = Some (AtCAS u loaded next) → loaded ≠ version c →
    addStep c (CState (version c) (current c)
      (<[i := AtLoad u]> (threads c)) (committed c)).

Definition initial (s : policySnapshot) (us : list update) : cstate :=
  CState 0 s (AtLoad <$> us) [].

Definition returned (p : pc) : option update :=
  match p with Returned u => Some u | _ => None end.

End engine.

(** ** Normal forms *)
Lemma normalizeName_bare name : normalizeName name = bare_form name.
Proof. done. Qed.

Lemma reverseDomain_labels name : reverseDomain name = reverse_labels (normalizeName name).
Proof.
  unfold reverseDomain. case_bool_decide as E; [by rewrite E | done].
Qed.

Section props.
Context {T : Type → Type} `{RadixLaws T} `{MapRange}.
Implicit Types e : @Engine T.
Implicit Types s : @policySnapshot T.

(** Snapshots that no operation can tell apart: same exact map, trees with
    the same contents. *)
Definition snap_equiv s1 s2 : Prop :=
  exact s1 = exact s2 ∧ contents (wildcards s1) = contents (wildcards s2).

#[local] Instance snap_equiv_equivalence : Equivalence snap_equiv.
Proof. split; unfold snap_equiv; repeat intro; intuition congruence. Qed.

Lemma cloneSnapshot_equiv s : snap_equiv (cloneSnapshot s) s.
Proof.
  split; simpl; [apply foldl_insert_range|].
  rewrite <-(contents_rebuild (wildcards s) id) by done. f_equal. f_equal.
  rewrite <-(map_id (radix_walk (wildcards s))) at 1. apply map_ext. by intros [].
Qed.

(** What one policy does to a snapshot, as a change of the two maps. *)
Lemma addToClone_spec s p en rw :
  exact (addToClone s p en rw) =
    (if decide (rw = "") then <[normalizeName p := en]> (exact s) else exact s) ∧
  contents (wildcards (addToClone s p en rw)) =
    (if decide (rw = "") then contents (wildcards s)
     else <[rw := en]> (contents (wildcards s))).
Proof.
  destruct (cloneSnapshot_equiv s) as [C1 C2]. unfold addToClone. revert C1 C2.
  generalize (cloneSnapshot s) as c. intros c C1 C2.
  case_bool_decide; case_decide; try done; simpl.
  - by rewrite C1, C2.
  - by rewrite contents_insert, C2, C1.
Qed.

#[local] Instance addToClone_proper :
  Proper (snap_equiv ==> eq ==> eq ==> eq ==> snap_equiv) addToClone.
Proof.
  intros s1 s2 [C1 C2] p ? <- en ? <- rw ? <-.
  destruct (addToClone_spec s1 p en rw) as [A1 A2].
  destruct (addToClone_spec s2 p en rw) as [B1 B2].
  split; [rewrite A1, B1, C1 | rewrite A2, B2, C2]; done.
Qed.

#[local] Instance applyUpdate_proper : Proper (snap_equiv ==> eq ==> snap_equiv) applyUpdate.
Proof. intros s1 s2 Hs u ? <-. unfold applyUpdate. by rewrite Hs. Qed.

Lemma nth_error_dot (l k : list ascii) c :
  k `prefix_of` l → nth_error l (length k) = Some c → (k ++ [c]) `prefix_of` l.
Proof.
  intros [x ->]. rewrite nth_error_app2, Nat.sub_diag by done.
  destruct x; simpl; [done|]. intros [= ->]. exists x. by rewrite <-app_assoc.
Qed.

(** A wildcard answer comes from a stored apex strictly above the name. *)
Lemma evaluate_inv e qname a t :
  Evaluate (Some e) qname = Some (a, t) →
  enabled e = true ∧ normalizeName qname ≠ "" ∧
  (exact (snapshot e) !! normalizeName qname = Some (PolicyEntry a t) ∨
   exact (snapshot e) !! normalizeName qname = None ∧
   ∃ apex, contents (wildcards (snapshot e)) !! reverse_labels apex = Some (PolicyEntry a t) ∧
     strictly_below (normalizeName (normalizeName qname)) apex).
Proof.
  unfold Evaluate. intros Hev. destruct (enabled e); [|done]. cbn [negb] in Hev.
  case_bool_decide; [done|]. split_and!; [done..|].
  destruct (exact (snapshot e) !! normalizeName qname) as [[a' t']|].
  { injection Hev as <- <-. by left. }
  right. split; [done|]. case_bool_decide; [done|].
  destruct (radix_longest_prefix _ _) as [[pre [a' t']]|] eqn:Hlp; [|done].
  case_bool_decide; [done|]. destruct (slen _ =? slen pre)%nat; [done|].
  case_bool_decide as Hn; [|done]. injection Hev as <- <-.
  apply longest_prefix_some in Hlp as (Hget & Hpre & _).
  exists (reverse_labels pre). rewrite reverse_labels_involutive. split; [done|].
  apply reversed_prefix_below. rewrite reverse_labels_involutive.
  rewrite reverseDomain_labels in *. unfold has_prefix in *.
  apply bool_decide_eq_true in Hpre. apply bool_decide_eq_true.
  rewrite bytes_app. by apply nth_error_dot.
Qed.

Lemma evaluate_wildcard e qname apex en :
  enabled e = true →
  exact (snapshot e) !! normalizeName qname = None →
  apex ≠ "" → normalizeName qname ≠ "" →
  strictly_below (normalizeName (normalizeName qname)) apex →
  contents (wildcards (snapshot e)) !! reverse_labels apex = Some en →
  (∀ k, is_Some (contents (wildcards (snapshot e)) !! k) →
    has_prefix (reverse_labels (normalizeName (normalizeName qname))) k = true →
    slen k ≤ slen apex) →
  Evaluate (Some e) qname = Some (action en, target en).
Proof.
  intros Hen Hex Hne Hq Hbelow Hin Hmax. unfold Evaluate. rewrite Hen, Hex. cbn [negb].
  rewrite bool_decide_false by done. rewrite reverseDomain_labels.
  set (n := normalizeName (normalizeName qname)) in *.
  pose proof (strictly_below_longer _ _ Hbelow) as Hlen.
  assert (has_prefix (reverse_labels n) (reverse_labels apex) = true) as Hpa.
  { apply reversed_prefix_at_or_below. by right. }
  rewrite bool_decide_false.
  2:{ intros E%(proj1 (reverse_labels_empty _)). rewrite E in Hlen.
      unfold slen in Hlen. cbn in Hlen. lia. }
  destruct (radix_longest_prefix _ _) as [[pre en']|] eqn:Hlp.
  2:{ eapply longest_prefix_none in Hlp; [|by eexists]. congruence. }
  apply longest_prefix_some in Hlp as (Hget & Hpre & Hlong).
  assert (pre = reverse_labels apex) as ->.
  { specialize (Hlong (reverse_labels apex) ltac:(by eexists) Hpa).
    specialize (Hmax pre ltac:(by eexists) Hpre).
    rewrite slen_reverse_labels in Hlong.
    apply bytes_inj. unfold has_prefix in Hpa, Hpre. bool_hyps.
    apply prefix_take_eq in Hpa, Hpre. rewrite Hpa, Hpre. f_equal.
    pose proof (slen_reverse_labels apex). unfold slen in *. lia. }
  rewrite Hin in Hget. injection Hget as <-.
  rewrite bool_decide_false by by rewrite reverse_labels_empty.
  rewrite !slen_reverse_labels. destruct (Nat.eqb_spec (slen n) (slen apex)); [lia|].
  apply reversed_prefix_below, has_prefix_spec in Hbelow as [t Ht].
  rewrite Ht, !bytes_app, <-app_assoc.
  rewrite <-(slen_reverse_labels apex). unfold slen.
  rewrite nth_error_app2, Nat.sub_diag by done. done.
Qed.

Lemma replaceLoop_app acc ps1 ps2 :
  replaceLoop acc (ps1 ++ ps2) = (let? s := replaceLoop acc ps1 in replaceLoop s ps2).
Proof.
  revert acc. induction ps1 as [|p ps1 IH]; intros acc; simpl; [done|].
  destruct (parsePattern _ _ _) as [[en rw]|]; simpl; [|done].
  by case_bool_decide.
Qed.

(** ** The compare-and-swap loop *)
Definition update_of (p : @pc T) : update :=
  match p with AtLoad u => u | AtCAS u _ _ => u | Returned u => u end.

(** What every reachable state of the loop satisfies. *)
Record cas_inv (s0 : policySnapshot) (us : list update) (c : @cstate T) : Prop := {
  inv_fold : snap_equiv (current c) (foldl applyUpdate s0 (committed c));
  inv_perm : omap returned (threads c) ≡ₚ committed c;
  inv_threads : update_of <$> threads c = us;
  inv_cas : ∀ i u v next, threads c !! i = Some (AtCAS u v next) →
    v ≤ version c ∧ (v = version c → snap_equiv next (applyUpdate (current c) u))
}.

Lemma omap_insert_none (l : list (@pc T)) i p p' :
  l !! i = Some p → returned p = None → returned p' = None →
  omap returned (<[i := p']> l) = omap returned l.
Proof.
  intros Hi Hp Hp'. pose proof (lookup_lt_Some _ _ _ Hi).
  rewrite <-(take_drop_middle l i p Hi) at 2.
  rewrite insert_take_drop, !omap_app by done. simpl. by rewrite Hp, Hp'.
Qed.

Lemma omap_insert_some (l : list (@pc T)) i p u :
  l !! i = Some p → returned p = None →
  omap returned (<[i := Returned u]> l) ≡ₚ omap returned l ++ [u].
Proof.
  intros Hi Hp. pose proof (lookup_lt_Some _ _ _ Hi).
  rewrite <-(take_drop_middle l i p Hi) at 2.
  rewrite insert_take_drop, !omap_app by done. simpl. rewrite Hp.
  rewrite <-app_assoc. apply Permutation_app_head. apply Permutation_cons_append.
Qed.

Lemma update_of_insert (l : list (@pc T)) i p p' :
  l !! i = Some p → update_of p = update_of p' →
  update_of <$> <[i := p']> l = update_of <$> l.
Proof.
  intros Hi Hp. rewrite list_fmap_insert, <-Hp. apply list_insert_id.
  by rewrite list_lookup_fmap, Hi.
Qed.

Lemma cas_inv_initial s us : cas_inv s us (initial s us).
Proof.
  split; simpl.
  - reflexivity.
  - by induction us.
  - rewrite <-list_fmap_compose. by apply list_fmap_id.
  - intros i u v next Hi. rewrite list_lookup_fmap in Hi. by destruct (us !! i).
Qed.

Lemma cas_inv_step s us c c' : addStep c c' → cas_inv s us c → cas_inv s us c'.
Proof.
  intros Hstep [If Ip It Ic]. destruct Hstep as [c i u Hi | c i u next Hi | c i u v next Hi Hv];
    (split; cbn [version current threads committed]; [| | |]).
  - done.
  - by erewrite omap_insert_none.
  - by erewrite update_of_insert.
  - intros j u' v' n' [(-> & Hj & ?)|[? Hj]]%list_lookup_insert_Some; [|by eapply Ic].
    injection Hj as <- <- <-. split; [done|]. reflexivity.
  - rewrite foldl_app. simpl. rewrite <-If. by eapply Ic.
  - by rewrite omap_insert_some, Ip.
  - by erewrite update_of_insert.
  - intros j u' v' n' [(-> & Hj & ?)|[? Hj]]%list_lookup_insert_Some; [done|].
    apply Ic in Hj as [? _]. split; lia.
  - done.
  - by erewrite omap_insert_none.
  - by erewrite update_of_insert.
  - intros j u' v' n' [(-> & Hj & ?)|[? Hj]]%list_lookup_insert_Some; [done|].
    by eapply Ic.
Qed.

Lemma cas_inv_reachable s us c : rtc addStep (initial s us) c → cas_inv s us c.
Proof.
  revert c. apply rtc_ind_r; eauto using cas_inv_initial, cas_inv_step.
Qed.

#[local] Instance evaluate_proper b :
  Proper (snap_equiv ==> eq ==> eq) (λ s q, Evaluate (Some (MkEngine b s)) q).
Proof.
  intros s1 s2 [C1 C2] q ? <-. unfold Evaluate. cbn [enabled snapshot].
  by rewrite C1, (longest_prefix_contents (wildcards s1) (wildcards s2)).
Qed.

(** From any state, a thread that has not returned can be run to its return. *)
Lemma run_thread (c : @cstate T) i p :
  threads c !! i = Some p →
  ∃ c' u, rtc addStep c c' ∧ threads c' = <[i := Returned u]> (threads c).
Proof.
  intros Hi. pose proof (lookup_lt_Some _ _ _ Hi) as Hlt.
  assert (∀ (c0 : cstate) u, threads c0 !! i = Some (AtLoad u) →
    ∃ c', rtc addStep c0 c' ∧ threads c' = <[i := Returned u]> (threads c0)) as Hload.
  { intros c0 u Hu. pose proof (lookup_lt_Some _ _ _ Hu). eexists. split.
    - eapply rtc_l; [by eapply step_load|]. eapply rtc_once, step_cas_ok.
      simpl. by rewrite list_lookup_insert_eq.
    - simpl. by rewrite list_insert_insert_eq. }
  destruct p as [u | u v next | u].
  - destruct (Hload c u Hi) as (c' & ? & ?). eauto.
  - destruct (decide (v = version c)) as [->|Hv].
    + eexists _, u. split; [by eapply rtc_once, step_cas_ok|]. done.
    + destruct (Hload (CState (version c) (current c) (<[i := AtLoad u]> (threads c))
        (committed c)) u) as (c' & Hr & Ht).
      { simpl. by rewrite list_lookup_insert_eq. }
      exists c', u. split; [eapply rtc_l; [by eapply step_cas_fail | done]|].
      rewrite Ht. simpl. by rewrite list_insert_insert_eq.
  - exists c, u. split; [done|]. by rewrite list_insert_id.
Qed.

Lemma run_all (c : @cstate T) :
  ∃ c', rtc addStep c c' ∧ Forall (λ p, is_Some (returned p)) (threads c').
Proof.
  assert (∀ n, n ≤ length (threads c) → ∃ c', rtc addStep c c' ∧
    length (threads c') = length (threads c) ∧
    Forall (λ p, is_Some (returned p)) (take n (threads c'))) as Hn.
  { induction n as [|n IH]; intros Hle; [exists c; split_and!; [done..|constructor]|].
    destruct IH as (c1 & R1 & L1 & F1); [lia|].
    destruct (lookup_lt_is_Some_2 (threads c1) n) as [p Hp]; [lia|].
    destruct (run_thread c1 n p Hp) as (c2 & u & R2 & T2). exists c2.
    split_and!; [by etrans | by rewrite T2, length_insert |].
    rewrite T2, (take_S_r _ _ (Returned u)) by (apply list_lookup_insert_eq; lia).
    rewrite take_insert_ge by done. apply Forall_app. split; [done|].
    constructor; [by eexists | constructor]. }
  destruct (Hn (length (threads c)) (Nat.le_refl _)) as (c' & Hr & Hl & Hf).
  exists c'. split; [done|]. by rewrite <-Hl, take_ge in Hf.
Qed.

(** Adding policies one at a time, the specification of the bulk operation. *)
Fixpoint add_all (e : Engine) (ps : list Policy) : res Engine :=
  match ps with
  | [] => Ok e
  | p :: ps' =>
      let? e' := AddPolicy (Some e) (Pattern p) (PAction p) (Target p) in add_all e' ps'
  end.

Lemma replaceLoop_add_all b s1 s2 ps :
  snap_equiv s1 s2 →
  match replaceLoop s1 ps, add_all (MkEngine b s2) ps with
  | Err e1, Err e2 => e1 = e2
  | Ok s, Ok e' => enabled e' = b ∧ snap_equiv s (snapshot e')
  | _, _ => False
  end.
Proof.
  revert s1 s2. induction ps as [|p ps IH]; intros s1 s2 Hs; cbn [replaceLoop add_all];
    [done|]. unfold AddPolicy. cbn [enabled snapshot].
  destruct (parsePattern _ _ _) as [[en rw]|err]; cbn [res_bind]; [|done].
  destruct (addToClone_spec s2 (Pattern p) en rw) as [A1 A2]. destruct Hs as [C1 C2].
  case_bool_decide; case_decide; try done; apply IH; split; cbn [exact wildcards];
    rewrite ?A1, ?A2, ?contents_insert; congruence.
Qed.

(** * Properties *)


(** the loop is free of deadlock: from every reachable state some schedule
    lets every call return, and then all the requested policies are in. *)
Theorem add_policy_completes s us c :
  rtc addStep (initial s us) c →
  ∃ c', rtc addStep c c' ∧ committed c' ≡ₚ us ∧
    snap_equiv (current c') (foldl applyUpdate s (committed c')).
Proof.
  intros Hr. destruct (run_all c) as (c' & Hr' & Hall). exists c'. split; [done|].
  destruct (cas_inv_reachable s us c' ltac:(by etrans)) as [If Ip It _].
  split; [|done]. rewrite <-Ip, <-It. clear -Hall.
  induction Hall as [|p l [u Hu] _ IH]; [done|].
  destruct p; simplify_eq/=. by rewrite IH.
Qed.

(** an answer of [Evaluate] is always one that was configured: the engine
    is enabled and either the exact name has that entry, or no exact entry
    exists and the entry belongs to a wildcard apex strictly above the name
    ("match subdomains only, not the apex itself"). *)
Theorem evaluate_sound (e : Engine) qname a t :
  Evaluate (Some e) qname = Some (a, t) →
  enabled e = true ∧
  (exact (snapshot e) !! normalizeName qname = Some (PolicyEntry a t) ∨
   exact (snapshot e) !! normalizeName qname = None ∧
   ∃ apex, contents (wildcards (snapshot e)) !! reverse_labels apex = Some (PolicyEntry a t) ∧
     strictly_below (normalizeName (normalizeName qname)) apex).
Proof. intros Hev. by destruct (evaluate_inv e qname a t Hev) as (? & ? & ?). Qed.

(** after [AddPolicy] of an exact pattern every spelling of that name is
    answered with the policy's canonical action and target, and every other
    name is answered as before. *)
Theorem add_policy_exact_roundtrip (e e' : Engine) pattern act tgt :
  AddPolicy (Some e) pattern act tgt = Ok e' →
  has_prefix (trim_space pattern) "*." = false →
  enabled e = true → normalizeName pattern ≠ "" →
  (∃ a t, ParseAction act = Ok a ∧ normalizeTarget a tgt = Ok t ∧
    ∀ q, normalizeName q = normalizeName pattern → Evaluate (Some e') q = Some (a, t)) ∧
  (∀ q, normalizeName q ≠ normalizeName pattern → Evaluate (Some e') q = Evaluate (Some e) q).
Proof.
  unfold AddPolicy, parsePattern. intros Hadd Hp Hen Hne. rewrite Hp in Hadd.
  case_bool_decide; [done|].
  destruct (ParseAction act) as [a|]; [|done]; cbn [res_bind] in Hadd.
  destruct (normalizeTarget a tgt) as [t|] eqn:Ht; [|done]; cbn [res_bind] in Hadd.
  destruct (contains _ _); [done|]. injection Hadd as <-.
  destruct (addToClone_spec (snapshot e) pattern (PolicyEntry a t) "") as [A1 A2].
  rewrite decide_True in A1, A2 by done. split.
  - exists a, t. split_and!; [done..|]. intros q Hq.
    unfold Evaluate. cbn [enabled snapshot]. rewrite Hen, A1, Hq.
    cbn [negb]. rewrite bool_decide_false by done. by rewrite lookup_insert_eq.
  - intros q Hq. unfold Evaluate. cbn [enabled snapshot].
    rewrite A1, lookup_insert_ne by done.
    by rewrite (longest_prefix_contents _ (wildcards (snapshot e))).
Qed.

(** a wildcard policy applies to every name strictly below its apex that
    has no exact entry, provided no stored wildcard key is a longer byte
    prefix of the reversed name. *)
Theorem evaluate_wildcard_applies (e : Engine) qname apex en :
  enabled e = true →
  exact (snapshot e) !! normalizeName qname = None →
  apex ≠ "" → normalizeName qname ≠ "" →
  strictly_below (normalizeName (normalizeName qname)) apex →
  contents (wildcards (snapshot e)) !! reverse_labels apex = Some en →
  (∀ k, is_Some (contents (wildcards (snapshot e)) !! k) →
    has_prefix (reverse_labels (normalizeName (normalizeName qname))) k = true →
    slen k ≤ slen apex) →
  Evaluate (Some e) qname = Some (action en, target en).
Proof. apply evaluate_wildcard. Qed.

(** [ReplacePolicies] is all or nothing: if adding the policies one by one
    to an empty engine fails, it fails with the same error and leaves the
    engine as it was; otherwise the new snapshot is the one that adding them
    one by one gives, whatever the engine held before. *)
Theorem replace_policies_atomic (e : Engine) ps :
  match ReplacePolicies (Some e) ps,
        add_all (MkEngine (enabled e) (Snapshot ∅ radix_new)) ps with
  | (r, Some err), Err err' => err = err' ∧ r = Some e
  | (Some e1, None), Ok e2 =>
      enabled e1 = enabled e ∧ snap_equiv (snapshot e1) (snapshot e2)
  | _, _ => False
  end.
Proof.
  pose proof (replaceLoop_add_all (enabled e) (Snapshot ∅ radix_new)
    (Snapshot ∅ radix_new) ps ltac:(done)) as Hr.
  unfold ReplacePolicies. destruct (replaceLoop _ ps), (add_all _ ps); naive_solver.
Qed.

End props.

(** ** Witnesses *)
Definition demo_engine : @Engine gtree :=
  from_ok New (AddPolicy (Some New) "*.Ads.example" "CNAME" "sink.local").

Definition shadow_engine1 : @Engine gtree :=
  from_ok New (AddPolicy (Some New) "*.com" "NXDOMAIN" "").
Definition shadow_engine2 : @Engine gtree :=
  from_ok New (AddPolicy (Some shadow_engine1) "*.exam.com" "NODATA" "").

Definition demo_updates : list update :=
  [Update "a.example" (PolicyEntry "DROP" "") ""; Update "*.b" (PolicyEntry "NODATA" "") "b"].

Definition demo_final : @cstate gtree :=
  CState 1 (applyUpdate (snapshot New) (Update "*.b" (PolicyEntry "NODATA" "") "b"))
    [AtCAS (Update "a.example" (PolicyEntry "DROP" "") "") 0
       (applyUpdate (snapshot New) (Update "a.example" (PolicyEntry "DROP" "") ""));
     Returned (Update "*.b" (PolicyEntry "NODATA" "") "b")]
    [Update "*.b" (PolicyEntry "NODATA" "") "b"].

(** The second thread overtakes the first between its load and its swap. *)
Lemma demo_reachable : rtc addStep (initial (snapshot New) demo_updates) demo_final.
Proof.
  eapply rtc_l; [by eapply (step_load _ 0)|].
  eapply rtc_l; [by eapply (step_load _ 1)|].
  eapply rtc_l; [by eapply (step_cas_ok _ 1)|]. apply rtc_refl.
Qed.


Lemma add_policy_completes_witness :
  ∃ c', rtc addStep demo_final c' ∧ committed c' ≡ₚ demo_updates.
Proof.
  destruct (add_policy_completes _ _ _ demo_reachable) as (c' & ? & ? & _).
  by exists c'.
Defined.

Lemma evaluate_sound_witness :
  Evaluate (Some demo_engine) " X.ADS.example. " = Some ("CNAME", "sink.local.") ∧
  enabled demo_engine = true.
Proof.
  assert (Evaluate (Some demo_engine) " X.ADS.example. " = Some ("CNAME", "sink.local."))
    as Hev by (vm_compute; reflexivity).
  split; [exact Hev | exact (proj1 (evaluate_sound _ _ _ _ Hev))].
Defined.

Lemma add_policy_exact_roundtrip_witness :
  ∃ e', AddPolicy (Some demo_engine) "Bad.Example." "a" "0.0.0.0" = Ok e' ∧
    Evaluate (Some e') "good.example" = Evaluate (Some demo_engine) "good.example".
Proof.
  exists (from_ok New (AddPolicy (Some demo_engine) "Bad.Example." "a" "0.0.0.0")).
  assert (AddPolicy (Some demo_engine) "Bad.Example." "a" "0.0.0.0" = Ok (from_ok New
    (AddPolicy (Some demo_engine) "Bad.Example." "a" "0.0.0.0"))) as Hadd
    by (apply from_ok_eq; by vm_compute).
  split; [exact Hadd|].
  refine (proj2 (add_policy_exact_roundtrip demo_engine _ "Bad.Example." "a" "0.0.0.0"
    Hadd _ _ _) "good.example" _); by vm_compute.
Defined.

Lemma evaluate_wildcard_applies_witness :
  Evaluate (Some demo_engine) "x.ads.example" = Some ("CNAME", "sink.local.").
Proof.
  apply (evaluate_wildcard_applies demo_engine "x.ads.example" "ads.example"
    (PolicyEntry "CNAME" "sink.local.")); try (by vm_compute).
  - exists "x". by vm_compute.
  - intros k [v Hk] _. vm_compute in Hk.
    destruct (decide (k = "example.ads")) as [->|Hne]; [by vm_compute|].
    exfalso. revert Hk. change (({["example.ads" := PolicyEntry "CNAME" "sink.local."]}
      : gmap string policyEntry) !! k = Some v → False).
    by rewrite lookup_singleton_ne.
Defined.

(** the longest-prefix match is on bytes, not labels: with "*.com" and
    "*.exam.com" both loaded, "example.com" gets no policy although "*.com"
    alone covers it (the longer key "com.exam" is no label boundary and no
    shorter key is tried); "exam.com" itself is lost in the same way. *)
Theorem wildcard_shadowed :
  ∃ e1 e2 : @Engine gtree,
    AddPolicy (Some New) "*.com" "NXDOMAIN" "" = Ok e1 ∧
    AddPolicy (Some e1) "*.exam.com" "NODATA" "" = Ok e2 ∧
    Evaluate (Some e1) "example.com" = Some (ActionNXDOMAIN, "") ∧
    Evaluate (Some e2) "example.com" = None ∧
    Evaluate (Some e1) "exam.com" = Some (ActionNXDOMAIN, "") ∧
    Evaluate (Some e2) "exam.com" = None.
Proof.
  exists shadow_engine1, shadow_engine2.
  split; [apply from_ok_eq; by vm_compute|].
  split; [apply from_ok_eq; by vm_compute|].
  split_and!; by vm_compute.
Qed.

End RPZ.
