(* ===== verification/Firewall.v ===== *)
(** * The DNS firewall: internal/firewall/{engine,blocklist,custom,loader}.go

    Blocked domains are stored reversed in a radix tree behind an atomic
    pointer; [Blocked] is a longest-prefix lookup. Files, directories and the
    database are inputs: what [os.ReadDir], the scanner and the two SELECT
    statements return ([DirEntry], [Reader], [DB]). *)
From S2P Require Import Prelude Radix NetAddr Names.

Module Firewall.

Definition BlockActionNXDOMAIN := "NXDOMAIN".
Definition BlockActionZeroIP := "ZEROIP".
Definition errUnknownBlockAction :=
  errNew "unknown block-action; use NXDOMAIN or ZEROIP".
Definition ErrInvalidCustomDomain := errNew "invalid custom blocklist domain".

Definition feedFilePrefix := "feed-".
Definition feedFileSuffix := ".list".

Definition ParseBlockAction (raw : string) : res string :=
  let a := to_upper (trim_space raw) in
  if bool_decide (a = BlockActionNXDOMAIN) || bool_decide (a = "")
  then Ok BlockActionNXDOMAIN
  else if bool_decide (a = BlockActionZeroIP) then Ok BlockActionZeroIP
  else Err errUnknownBlockAction.

Definition normalizeDomain (name : string) : string :=
  let name := trim_space name in
  let name := to_lower name in
  trim_suffix name ".".

Definition ReverseDomain (name : string) : string :=
  let name := normalizeDomain name in
  if bool_decide (name = "") then ""
  else join (reverse (split name ".")) ".".

(** [net.ParseIP(fields[0]) != nil] tells a HOSTS line from a plain one. *)
Definition ParseBlocklistLine (line : string) : list string :=
  let line := trim_space line in
  if bool_decide (line = "") then []
  else
    let line := if existsb (is_char "#") (bytes line)
                then trim_space (mk (take_until (is_char "#") (bytes line)))
                else line in
    if bool_decide (line = "") then []
    else
      match fields line with
      | [] => []
      | f0 :: rest =>
          match parse_ip f0 with
          | Some _ =>
              List.filter (λ d, negb (bool_decide (d = ""))) (map normalizeDomain rest)
          | None =>
              let domain := normalizeDomain f0 in
              if bool_decide (domain = "") then [] else [domain]
          end
      end.

Definition ValidateCustomDomain (raw : string) : res string :=
  match ParseBlocklistLine raw with
  | [d] => Ok d
  | _ => Err ErrInvalidCustomDomain
  end.

Definition isManagedFeedFile (name : string) : bool :=
  has_prefix name feedFilePrefix && has_suffix name feedFileSuffix.

Definition sourceIDFromFeedFile (name : string) : option Z :=
  if negb (isManagedFeedFile name) then None
  else
    let idPart := trim_prefix name feedFilePrefix in
    let idPart := trim_suffix idPart feedFileSuffix in
    match atoi idPart with
    | Some id => if (id <=? 0)%Z then None else Some id
    | None => None
    end.

(** What the line scanner delivers: the lines read, then an error or the end. *)
Record Reader := MkReader { r_lines : list string; r_err : option error }.

Record DirEntry := MkDirEntry {
  d_name : string; d_isDir : bool; d_open : res Reader
}.

(** [os.ReadDir]: the entries, "does not exist", or another error. *)
Inductive ReadDirResult :=
| DirEntries (es : list DirEntry)
| DirNotExist
| DirError.

(** The results of [ListCustomBlocklistDomains] and
    [ListEnabledBlocklistSources]. *)
Record DB := MkDB {
  db_custom_domains : res (list string);
  db_enabled_sources : res (list Z)
}.

(** [sourceID, ok := sourceIDFromFeedFile(name); ok && db != nil && !enabled[id]] *)
Definition feedDisabled (db : option DB) (ids : list Z) (e : DirEntry) : bool :=
  match sourceIDFromFeedFile (d_name e), db with
  | Some id, Some _ => negb (bool_decide (id ∈ ids))
  | _, _ => false
  end.

Section engine.
Context {T : Type → Type} `{RadixOps T}.

Record Engine := MkEngine { tree : T unit; fw_action : string }.

Definition New (action : string) : Engine := MkEngine radix_new action.
Definition Action (e : Engine) : string := fw_action e.
Definition SetAction (e : Engine) (action : string) : Engine := MkEngine (tree e) action.
Definition SwapTree (e : Engine) (t : option (T unit)) : Engine :=
  match t with
  | None => MkEngine radix_new (fw_action e)
  | Some t => MkEngine t (fw_action e)
  end.
Definition BlockedDomainsCount (e : Engine) : nat := radix_len (tree e).

Definition Blocked (e : Engine) (name : string) : bool :=
  let reversed := ReverseDomain name in
  if bool_decide (reversed = "") then false
  else
    match radix_longest_prefix (tree e) reversed with
    | None => false
    | Some (pre, _) =>
        if bool_decide (pre = "") then false
        else if (slen pre =? slen reversed)%nat then true
        else bool_decide (nth_error (bytes reversed) (slen pre) = Some "."%char)
    end.

(** The inner loop of [IngestBlocklist] and [ingestCustomDomains]. *)
Fixpoint ingestDomains (t : T unit) (count : nat) (domains : list string) : T unit * nat :=
  match domains with
  | [] => (t, count)
  | d :: ds =>
      let reversed := ReverseDomain d in
      if bool_decide (reversed = "") then ingestDomains t count ds
      else match radix_get t reversed with
           | Some _ => ingestDomains t count ds
           | None => ingestDomains (radix_insert t reversed ()) (S count) ds
           end
  end.

Fixpoint ingestLines (t : T unit) (count : nat) (lines : list string) : T unit * nat :=
  match lines with
  | [] => (t, count)
  | l :: ls =>
      let '(t, count) := ingestDomains t count (ParseBlocklistLine l) in
      ingestLines t count ls
  end.

(** The tree is filled in place: what was read before an error stays. *)
Definition IngestBlocklist (r : Reader) (t : T unit) : T unit * nat * option error :=
  let '(t, count) := ingestLines t 0 (r_lines r) in
  match r_err r with
  | Some err => (t, count, Some (errWrap "read blocklist: %w" err))
  | None => (t, count, None)
  end.

Definition LoadBlocklistFile (open : res Reader) (t : T unit) : T unit * nat * option error :=
  match open with
  | Err err => (t, 0, Some (errWrap "open blocklist: %w" err))
  | Ok r => IngestBlocklist r t
  end.

Definition ingestCustomDomains (db : option DB) (t : T unit) : T unit * nat :=
  match db with
  | None => (t, 0)
  | Some db =>
      match db_custom_domains db with
      | Err _ => (t, 0)
      | Ok entries => ingestDomains t 0 entries
      end
  end.

Definition enabledBlocklistSourceIDs (db : option DB) : list Z :=
  match db with
  | None => []
  | Some db => match db_enabled_sources db with Err _ => [] | Ok ids => ids end
  end.

(** The loop of [buildTreeFromDir] over the directory entries. *)
Fixpoint loadEntries (db : option DB) (ids : list Z) (t : T unit) (loaded skipped : nat)
    (es : list DirEntry) : T unit * nat * nat :=
  match es with
  | [] => (t, loaded, skipped)
  | e :: es' =>
      if d_isDir e then loadEntries db ids t loaded skipped es'
      else
        if feedDisabled db ids e then loadEntries db ids t loaded (S skipped) es'
        else
          match LoadBlocklistFile (d_open e) t with
          | (t', _, Some _) => loadEntries db ids t' loaded (S skipped) es'
          | (t', _, None) => loadEntries db ids t' (S loaded) skipped es'
          end
  end.

Definition buildTreeFromDir (dir : ReadDirResult) (db : option DB)
    : option (T unit) * nat * nat * nat :=
  match dir with
  | DirNotExist =>
      let '(t, custom) := ingestCustomDomains db radix_new in
      (Some t, 0, 0, custom)
  | DirError => (None, 0, 0, 0)
  | DirEntries es =>
      let ids := enabledBlocklistSourceIDs db in
      let '(t, loaded, skipped) := loadEntries db ids radix_new 0 0 es in
      let '(t, custom) := ingestCustomDomains db t in
      (Some t, loaded, skipped, custom)
  end.

Definition LoadFromDirWithDB (dir : ReadDirResult) (db : option DB) (e : Engine) : Engine :=
  let '(t, _, _, _) := buildTreeFromDir dir db in
  let t := match t with None => radix_new | Some t => t end in
  SwapTree e (Some t).

End engine.

Arguments Engine : clear implicits.

(** ** The specification: a set of blocked names *)

(** The reversed keys a list of domains stands for. *)
Definition keys_of (ds : list string) : gset string :=
  list_to_set (List.filter (λ k, negb (bool_decide (k = ""))) (map ReverseDomain ds)).

(** Every domain a directory load takes in, in order. *)
Definition entry_domains (db : option DB) (ids : list Z) (e : DirEntry) : list string :=
  if d_isDir e then []
  else if feedDisabled db ids e then []
  else match d_open e with
       | Err _ => []
       | Ok r => concat (map ParseBlocklistLine (r_lines r))
       end.

Definition custom_domains (db : option DB) : list string :=
  match db with
  | Some db => match db_custom_domains db with Ok ds => ds | Err _ => [] end
  | None => []
  end.

Lemma ReverseDomain_labels name : ReverseDomain name = reverse_labels (normalizeDomain name).
Proof. unfold ReverseDomain. case_bool_decide as E; [by rewrite E | done]. Qed.

Lemma keys_of_app ds1 ds2 : keys_of (ds1 ++ ds2) = keys_of ds1 ∪ keys_of ds2.
Proof. unfold keys_of. by rewrite map_app, List.filter_app, list_to_set_app_L. Qed.

Lemma elem_of_keys_of k ds :
  k ∈ keys_of ds ↔ k ≠ "" ∧ ∃ d, d ∈ ds ∧ k = ReverseDomain d.
Proof.
  unfold keys_of. rewrite elem_of_list_to_set, list_elem_of_In, filter_In, in_map_iff.
  rewrite negb_true_iff, bool_decide_eq_false.
  setoid_rewrite list_elem_of_In. naive_solver.
Qed.

Lemma keys_of_nil : keys_of [] = ∅.
Proof. done. Qed.

Section props.
Context {T : Type → Type} `{HO : RadixOps T, HL : !RadixLaws T}.
Implicit Types t : T unit.

Definition keys (t : T unit) : gset string := dom (contents t).

Lemma elem_of_keys t k : k ∈ keys t ↔ is_Some (contents t !! k).
Proof. apply elem_of_dom. Qed.

Lemma keys_new : keys radix_new = ∅.
Proof. unfold keys. by rewrite contents_new, dom_empty_L. Qed.

Lemma ingestDomains_spec t n ds t' n' :
  ingestDomains t n ds = (t', n') →
  keys t' = keys t ∪ keys_of ds ∧ n' + size (keys t) = n + size (keys t').
Proof.
  revert t n. induction ds as [|d ds IH]; intros t n; cbn [ingestDomains].
  - intros [= <- <-]. rewrite keys_of_nil, (right_id_L ∅ (∪)). split; [done | lia].
  - change (d :: ds) with ([d] ++ ds). rewrite keys_of_app.
    assert (keys_of [d] =
      if decide (ReverseDomain d = "") then ∅ else {[ReverseDomain d]}) as ->.
    { apply set_eq. intros k. rewrite elem_of_keys_of.
      destruct (decide _); set_unfold; naive_solver. }
    case_bool_decide as Hr; [rewrite decide_True by done | rewrite decide_False by done].
    + intros [-> ?]%IH. split; [set_solver | done].
    + rewrite contents_get. destruct (contents t !! ReverseDomain d) eqn:Hg.
      * assert (ReverseDomain d ∈ keys t) as Hin by (apply elem_of_keys; by eexists).
        intros [-> ?]%IH. split; [|done]. clear -Hin. set_solver.
      * assert (ReverseDomain d ∉ keys t) as Hni by by apply not_elem_of_dom.
        intros [Hk Hn]%IH. unfold keys in *. rewrite contents_insert in *.
        rewrite dom_insert_L in *. rewrite size_union, size_singleton in Hn by set_solver.
        split; [|lia]. rewrite Hk. clear.
        by rewrite (comm_L (∪) {[_]}), (assoc_L (∪)).
Qed.

Lemma ingestLines_spec t n ls t' n' :
  ingestLines t n ls = (t', n') →
  keys t' = keys t ∪ keys_of (concat (map ParseBlocklistLine ls)) ∧
  n' + size (keys t) = n + size (keys t').
Proof.
  revert t n. induction ls as [|l ls IH]; intros t n; cbn [ingestLines map concat].
  - intros [= <- <-]. rewrite keys_of_nil, (right_id_L ∅ (∪)). split; [done | lia].
  - destruct (ingestDomains t n _) as [t1 n1] eqn:E.
    apply ingestDomains_spec in E as [K1 N1]. intros [K2 N2]%IH.
    split; [by rewrite keys_of_app, K2, K1, (assoc_L (∪)) | lia].
Qed.

Lemma loadEntries_spec db ids t l s es t' l' s' :
  loadEntries db ids t l s es = (t', l', s') →
  keys t' = keys t ∪ keys_of (concat (map (entry_domains db ids) es)).
Proof.
  revert t l s. induction es as [|e es IH]; intros t l s; cbn [loadEntries map concat].
  - intros [= <- _ _]. by rewrite keys_of_nil, (right_id_L ∅ (∪)).
  - rewrite keys_of_app. unfold entry_domains at 1.
    destruct (d_isDir e).
    { intros ->%IH. by rewrite keys_of_nil, (left_id_L ∅ (∪)). }
    destruct (feedDisabled db ids e).
    { intros ->%IH. by rewrite keys_of_nil, (left_id_L ∅ (∪)). }
    unfold LoadBlocklistFile, IngestBlocklist. destruct (d_open e) as [r|].
    + destruct (ingestLines t 0 (r_lines r)) as [t1 n1] eqn:E.
      apply ingestLines_spec in E as [K1 _].
      destruct (r_err r); intros ->%IH; by rewrite K1, (assoc_L (∪)).
    + intros ->%IH. by rewrite keys_of_nil, (left_id_L ∅ (∪)).
Qed.

Lemma ingestCustomDomains_spec db t :
  keys (fst (ingestCustomDomains db t)) = keys t ∪ keys_of (custom_domains db).
Proof.
  assert (keys t = keys t ∪ keys_of []) as Hnil
    by by rewrite keys_of_nil, (right_id_L ∅ (∪)).
  unfold ingestCustomDomains, custom_domains. destruct db as [db|]; [|done].
  destruct (db_custom_domains db); [|done].
  destruct (ingestDomains t 0 a) as [t' n'] eqn:E.
  by apply ingestDomains_spec in E as [? _].
Qed.

Lemma blocked_inv (e : Engine T) name :
  Blocked e name = true →
  ∃ d, reverse_labels d ∈ keys (tree e) ∧ d ≠ "" ∧ at_or_below (normalizeDomain name) d.
Proof.
  unfold Blocked. case_bool_decide; [done|].
  destruct (radix_longest_prefix _ _) as [[pre []]|] eqn:Hlp; [|done].
  case_bool_decide as Hne; [done|]. rewrite ReverseDomain_labels in *.
  apply longest_prefix_some in Hlp as (Hget & Hpre & _). intros Hb.
  exists (reverse_labels pre). rewrite reverse_labels_involutive.
  split; [by apply elem_of_dom_2 in Hget|].
  split; [by rewrite reverse_labels_empty|].
  unfold has_prefix in Hpre. apply bool_decide_eq_true in Hpre.
  destruct (Nat.eqb_spec (slen pre) (slen (reverse_labels (normalizeDomain name)))) as [E|E].
  - left. rewrite <-(reverse_labels_involutive (normalizeDomain name)). f_equal.
    apply bytes_inj. rewrite (prefix_take_eq _ _ Hpre). unfold slen in E.
    by rewrite E, take_ge.
  - right. apply reversed_prefix_below. rewrite reverse_labels_involutive.
    apply bool_decide_eq_true in Hb. apply bool_decide_eq_true. rewrite bytes_app.
    destruct Hpre as [k Hk]. rewrite Hk in Hb |- *.
    unfold slen in Hb. rewrite nth_error_app2, Nat.sub_diag in Hb by done.
    destruct k; [done|]. injection Hb as ->. exists k. by rewrite <-app_assoc.
Qed.

Lemma blocked_longest (e : Engine T) name d :
  d ≠ "" → normalizeDomain name ≠ "" →
  reverse_labels d ∈ keys (tree e) → at_or_below (normalizeDomain name) d →
  (∀ k, k ∈ keys (tree e) →
    has_prefix (reverse_labels (normalizeDomain name)) k = true → slen k ≤ slen d) →
  Blocked e name = true.
Proof.
  intros Hd Hne Hin Hbelow Hmax. unfold Blocked. rewrite ReverseDomain_labels.
  set (n := normalizeDomain name) in *.
  pose proof (reversed_prefix_at_or_below _ _ Hbelow) as Hpd.
  rewrite bool_decide_false by by rewrite reverse_labels_empty.
  apply elem_of_keys in Hin as Hsome.
  destruct (radix_longest_prefix _ _) as [[pre []]|] eqn:Hlp.
  2:{ eapply longest_prefix_none in Hlp; [|exact Hsome]. congruence. }
  apply longest_prefix_some in Hlp as (Hget & Hpre & Hlong).
  assert (pre = reverse_labels d) as ->.
  { specialize (Hlong _ Hsome Hpd).
    specialize (Hmax pre ltac:(apply elem_of_keys; by eexists) Hpre).
    rewrite slen_reverse_labels in Hlong.
    unfold has_prefix in Hpre, Hpd. bool_hyps. apply bytes_inj.
    rewrite (prefix_take_eq _ _ Hpre), (prefix_take_eq _ _ Hpd). f_equal.
    pose proof (slen_reverse_labels d). unfold slen in *. lia. }
  rewrite bool_decide_false by by rewrite reverse_labels_empty.
  rewrite !slen_reverse_labels. destruct Hbelow as [->|Hb].
  - by rewrite Nat.eqb_refl.
  - pose proof (strictly_below_longer _ _ Hb).
    destruct (Nat.eqb_spec (slen d) (slen n)); [lia|].
    apply reversed_prefix_below, has_prefix_spec in Hb as [x ->].
    apply bool_decide_eq_true. rewrite !bytes_app, <-app_assoc.
    rewrite <-(slen_reverse_labels d). unfold slen.
    by rewrite nth_error_app2, Nat.sub_diag by done.
Qed.

(** * Properties *)

(** loading a directory replaces the blocklist by exactly the domains of
    the readable, enabled files and the custom domains of the database (nothing
    of the old tree survives), and [BlockedDomainsCount] is their number. *)
Theorem load_dir_exact es db (e : Engine T) :
  let e' := LoadFromDirWithDB (DirEntries es) db e in
  keys (tree e') =
    keys_of (concat (map (entry_domains db (enabledBlocklistSourceIDs db)) es)) ∪
    keys_of (custom_domains db) ∧
  BlockedDomainsCount e' = size (keys (tree e')) ∧ fw_action e' = fw_action e.
Proof.
  cbn zeta. unfold LoadFromDirWithDB, buildTreeFromDir, BlockedDomainsCount.
  destruct (loadEntries _ _ _ _ _ _) as [[t l] s] eqn:E.
  destruct (ingestCustomDomains db t) as [t2 c] eqn:E2. cbn [SwapTree tree fw_action].
  apply loadEntries_spec in E. rewrite keys_new, (left_id_L ∅ (∪)) in E.
  pose proof (ingestCustomDomains_spec db t) as Hc. rewrite E2 in Hc. cbn [fst] in Hc.
  split_and!; [by rewrite Hc, E | | done].
  unfold keys. by rewrite contents_len, size_dom.
Qed.

(** a blocked name is a listed domain or lies below one: blocking never
    spills over to unrelated names such as "notexample.com". *)
Theorem blocked_sound (e : Engine T) name :
  Blocked e name = true →
  ∃ d, reverse_labels d ∈ keys (tree e) ∧ d ≠ "" ∧ at_or_below (normalizeDomain name) d.
Proof. apply blocked_inv. Qed.

(** a listed domain blocks itself and every subdomain, provided no stored
    key is a longer byte prefix of the reversed name. *)
Theorem blocked_complete (e : Engine T) name d :
  d ≠ "" → normalizeDomain name ≠ "" →
  reverse_labels d ∈ keys (tree e) → at_or_below (normalizeDomain name) d →
  (∀ k, k ∈ keys (tree e) →
    has_prefix (reverse_labels (normalizeDomain name)) k = true → slen k ≤ slen d) →
  Blocked e name = true.
Proof. apply blocked_longest. Qed.

End props.

(** ** Witnesses *)
Definition demo_reader : Reader :=
  MkReader ["# ads"; "0.0.0.0 Ads.Example.com tracker.net."; "example.com # apex"] None.
Definition demo_dir : list DirEntry :=
  [MkDirEntry "base.list" false (Ok demo_reader);
   MkDirEntry "feed-7.list" false (Ok (MkReader ["disabled.org"] None))].
Definition demo_db : option DB := Some (MkDB (Ok ["custom.test"]) (Ok [3%Z])).
Definition demo_engine : Engine gtree :=
  LoadFromDirWithDB (DirEntries demo_dir) demo_db (New BlockActionZeroIP).

Lemma blocked_sound_witness :
  Blocked demo_engine "WWW.tracker.net." = true ∧
  ∃ d, reverse_labels d ∈ keys (tree demo_engine) ∧ d ≠ "" ∧
    at_or_below (normalizeDomain "WWW.tracker.net.") d.
Proof.
  assert (Blocked demo_engine "WWW.tracker.net." = true) as Hb by by vm_compute.
  split; [exact Hb | exact (blocked_sound demo_engine _ Hb)].
Defined.

Definition small_engine : Engine gtree :=
  MkEngine ({["com.example" := ()]} : gmap string unit) BlockActionNXDOMAIN.

Lemma blocked_complete_witness : Blocked small_engine "a.b.Example.com" = true.
Proof.
  apply (blocked_complete small_engine _ "example.com"); [by vm_compute..| | |].
  - apply elem_of_keys. exists (). by vm_compute.
  - right. exists "a.b". by vm_compute.
  - intros k Hk _. apply elem_of_keys in Hk as [v Hk].
    apply (lookup_singleton_Some "com.example" k ()) in Hk as [<- _]. by vm_compute; lia.
Defined.

Definition one_file (lines : list string) : ReadDirResult :=
  DirEntries [MkDirEntry "list" false (Ok (MkReader lines None))].

(** adding an entry can unblock names: with "example.com" alone
    "ads.example.com" is blocked, with "ad.example.com" listed as well it is
    not (the longest byte prefix "com.example.ad" ends inside a label and no
    shorter key is tried), against the documented subdomain blocking. *)
Theorem longer_entry_unblocks :
  let e1 := LoadFromDirWithDB (one_file ["example.com"]) None (New BlockActionNXDOMAIN) in
  let e2 := LoadFromDirWithDB (one_file ["example.com"; "ad.example.com"]) None
              (New BlockActionNXDOMAIN) in
  Blocked (T := gtree) e1 "ads.example.com" = true ∧
  Blocked (T := gtree) e2 "ads.example.com" = false ∧
  Blocked (T := gtree) e2 "x.example.com" = true.
Proof. split_and!; by vm_compute. Qed.

End Firewall.
