(* ===== verification/Utf8.v ===== *)
(** * UTF-8 as Go's [range] over a string and [unicode/utf8] see it

    A string is cut into runes: the encodings [utf8.DecodeRune] accepts, and
    every other byte on its own. [WriteRune] writes an accepted rune back as
    it was and U+FFFD for any other byte. *)
From S2P Require Import Prelude.

Definition in_range (lo hi : N) (c : ascii) : bool :=
  ((lo <=? code c) && (code c <=? hi))%N.
Definition is_cont : ascii → bool := in_range 128 191.

(** Validity of the second byte after a leading byte. *)
Definition second_ok (c d : ascii) : bool :=
  if (code c =? 224)%N then in_range 160 191 d
  else if (code c =? 237)%N then in_range 128 159 d
  else if (code c =? 240)%N then in_range 144 191 d
  else if (code c =? 244)%N then in_range 128 143 d
  else is_cont d.

(** The bytes of the string cut at rune boundaries. *)
Fixpoint runes (l : list ascii) : list (list ascii) :=
  match l with
  | [] => []
  | c :: l1 =>
      if in_range 194 223 c then
        match l1 with
        | d :: l2 => if is_cont d then [c; d] :: runes l2 else [c] :: runes l1
        | [] => [[c]]
        end
      else if in_range 224 239 c then
        match l1 with
        | d :: e :: l3 =>
            if second_ok c d && is_cont e then [c; d; e] :: runes l3 else [c] :: runes l1
        | _ => [c] :: runes l1
        end
      else if in_range 240 244 c then
        match l1 with
        | d :: e :: f :: l4 =>
            if second_ok c d && is_cont e && is_cont f then [c; d; e; f] :: runes l4
            else [c] :: runes l1
        | _ => [c] :: runes l1
        end
      else [c] :: runes l1
  end.

Definition ascii_byte (c : ascii) : bool := (code c <? 128)%N.

(** A rune [DecodeRune] accepted. *)
Definition rune_ok (r : list ascii) : bool :=
  match r with [c] => ascii_byte c | _ => true end.

(** [WriteRune]: U+FFFD is EF BF BD. *)
Definition write_rune (r : list ascii) : list ascii :=
  if rune_ok r then r else [ascii_of_N 239; ascii_of_N 191; ascii_of_N 189].

Definition utf8_valid (s : string) : bool := forallb rune_ok (runes (bytes s)).

(** * Lemmas *)
Lemma in_range_ascii lo hi c : (128 <= lo)%N → ascii_byte c = true → in_range lo hi c = false.
Proof.
  unfold ascii_byte, in_range. intros. bool_hyps. apply andb_false_iff. left.
  apply N.leb_gt. lia.
Qed.

Lemma runes_ascii c l : ascii_byte c = true → runes (c :: l) = [c] :: runes l.
Proof. intros Hc. cbn [runes]. by rewrite !in_range_ascii. Qed.

(** Induction along the cut. *)
Lemma runes_ind (P : list ascii → Prop) :
  P [] →
  (∀ r l, runes (r ++ l) = r :: runes l → r ≠ [] → P l → P (r ++ l)) → ∀ l, P l.
Proof.
  intros Hnil Hstep l.
  remember (length l) as n eqn:Hn. revert l Hn.
  induction (lt_wf n) as [n _ IH]. intros l ->.
  assert (∃ r k, l = r ++ k ∧ (l ≠ [] → r ≠ [] ∧ runes l = r :: runes k)) as (r & k & -> & Hr).
  { destruct l as [|c l1]; [by exists [], []|].
    assert (∀ P0 : Prop, runes (c :: l1) = [c] :: runes l1 →
      ∃ r k, c :: l1 = r ++ k ∧ (P0 → r ≠ [] ∧ runes (c :: l1) = r :: runes k)) as H1.
    { intros P0 E. exists [c], l1. done. }
    destruct (in_range 194 223 c) eqn:E1;
      [|destruct (in_range 224 239 c) eqn:E2; [|destruct (in_range 240 244 c) eqn:E3]].
    - destruct l1 as [|d l2]; [apply H1; cbn [runes]; by rewrite E1|].
      destruct (is_cont d) eqn:E; [|apply H1; cbn [runes]; by rewrite E1, E].
      exists [c; d], l2. split; [done|]. intros _. split; [done|].
      cbn [runes]. by rewrite E1, E.
    - destruct l1 as [|d [|e l3]]; try (apply H1; cbn [runes]; by rewrite E1, E2).
      destruct (second_ok c d && is_cont e) eqn:E;
        [|apply H1; cbn [runes]; by rewrite E1, E2, E].
      exists [c; d; e], l3. split; [done|]. intros _. split; [done|].
      cbn [runes]. by rewrite E1, E2, E.
    - destruct l1 as [|d [|e [|f l4]]]; try (apply H1; cbn [runes]; by rewrite E1, E2, E3).
      destruct (second_ok c d && is_cont e && is_cont f) eqn:E;
        [|apply H1; cbn [runes]; by rewrite E1, E2, E3, E].
      exists [c; d; e; f], l4. split; [done|]. intros _. split; [done|].
      cbn [runes]. by rewrite E1, E2, E3, E.
    - apply H1. cbn [runes]. by rewrite E1, E2, E3. }
  destruct (decide (r ++ k = [])) as [E|Hne]; [by rewrite E|].
  destruct (Hr Hne) as [Hrne Hrunes].
  apply Hstep; [done..|]. apply (IH (length k)); [|done].
  rewrite length_app. destruct r; [done | simpl; lia].
Qed.

Lemma concat_runes l : concat (runes l) = l.
Proof.
  induction l as [|r l E _ IH] using runes_ind; [done|]. rewrite E. cbn. by rewrite IH.
Qed.

(** An accepted rune is cut off whatever follows it. *)
Lemma runes_cons_ok r l :
  runes (r ++ l) = r :: runes l → r ≠ [] → rune_ok r = true →
  ∀ m, runes (r ++ m) = r :: runes m.
Proof.
  intros E Hne Hr m. destruct r as [|c [|d r]]; [done| |].
  { cbn [rune_ok] in Hr. by apply runes_ascii. }
  cbn [app runes] in E |- *.
  destruct (in_range 194 223 c).
  { destruct (is_cont d); [|done]. injection E as E1 E2.
    destruct r; [done|]. by apply (f_equal length) in E1. }
  destruct (in_range 224 239 c).
  { destruct r as [|e r]; cbn [app] in *.
    - destruct l; [done|]. by destruct (_ && _).
    - destruct (second_ok c d && is_cont e); [|done]. by destruct r. }
  destruct (in_range 240 244 c); [|done].
  destruct r as [|e [|f r]]; cbn [app] in *.
  - destruct l as [|? [|? ?]]; [done..|]. by destruct (_ && _).
  - destruct l as [|? ?]; [done|]. by destruct (_ && _).
  - destruct (second_ok c d && is_cont e && is_cont f); [|done]. by destruct r.
Qed.

Lemma runes_app_ok l k :
  forallb rune_ok (runes l) = true → runes (l ++ k) = runes l ++ runes k.
Proof.
  induction l as [|r l E Hne IH] using runes_ind; [done|].
  rewrite E. cbn [forallb]. intros [Hr Hl]%andb_true_iff.
  rewrite <-app_assoc. cbn [app]. rewrite <-(IH Hl). by eapply runes_cons_ok.
Qed.

Lemma utf8_valid_app s t : utf8_valid s = true → utf8_valid (s +:+ t) = utf8_valid t.
Proof.
  unfold utf8_valid. intros Hs. rewrite bytes_app, runes_app_ok by done.
  by rewrite forallb_app, Hs.
Qed.

(** The bytes of a longer rune lie beyond ASCII. *)
Definition high (c : ascii) : bool := (128 <=? code c)%N.
Lemma in_range_high lo hi c : (128 <= lo)%N → in_range lo hi c = true → high c = true.
Proof. unfold in_range, high. intros. bool_hyps. apply N.leb_le. lia. Qed.
Lemma second_high c d : second_ok c d = true → high d = true.
Proof.
  unfold second_ok, is_cont. repeat case_match; apply in_range_high; lia.
Qed.

Lemma runes_high l : Forall (λ r, Forall (λ c, high c = true) r ∨ ∃ c, r = [c]) (runes l).
Proof.
  assert (Hc : ∀ c, is_cont c = true → high c = true) by (intros c; by apply in_range_high).
  assert (H2 : ∀ c lo hi, (194 <= lo)%N → in_range lo hi c = true → high c = true)
    by (intros c lo hi ?; apply in_range_high; lia).
  induction l as [l IH] using (induction_ltof1 _ (@length ascii)). unfold ltof in IH.
  assert (Hone : ∀ c k, length (c :: k) ≤ length l → Forall (λ r, Forall (λ c, high c = true) r ∨ ∃ c, r = [c]) ([c] :: runes k)).
  { intros c k Hk. constructor; [right; by exists c|]. apply IH. cbn in Hk. lia. }
  destruct l as [|c l1]; [constructor|]. cbn [runes].
  destruct (in_range 194 223 c) eqn:E1; [|destruct (in_range 224 239 c) eqn:E2; [|destruct (in_range 240 244 c) eqn:E3]];
    [..|by apply Hone].
  - destruct l1 as [|d l2]; [by apply (Hone c [])|]. destruct (is_cont d) eqn:Ed; [|by apply Hone].
    constructor; [|apply IH; cbn; lia]. left. repeat constructor; [eapply H2; [|exact E1]; lia|by apply Hc].
  - destruct l1 as [|d [|e l3]]; try by apply Hone. destruct (second_ok c d && is_cont e) eqn:Ed; [|by apply Hone].
    apply andb_true_iff in Ed as [Hd He]. constructor; [|apply IH; cbn; lia]. left.
    repeat constructor; [eapply H2; [|exact E2]; lia|by eapply second_high|by apply Hc].
  - destruct l1 as [|d [|e [|f l4]]]; try by apply Hone.
    destruct (second_ok c d && is_cont e && is_cont f) eqn:Ed; [|by apply Hone].
    apply andb_true_iff in Ed as [[Hd He]%andb_true_iff Hf]. constructor; [|apply IH; cbn; lia]. left.
    repeat constructor; [eapply H2; [|exact E3]; lia|by eapply second_high|by apply Hc|by apply Hc].
Qed.
