(* ===== verification/Ttl.v ===== *)
(** * TTL texts and zone names: internal/storage/ttl.go, validate.go

    [ParseBindTTL] adds up in a uint64, written [u64] at each step. Texts are
    taken as ASCII in [isPlainTTLNumber]: a TTL with a digit outside ASCII is
    refused by the code too. *)
From S2P Require Import Prelude Utf8.

Module TTL.

Definition isPlainTTLNumber (raw : string) : bool :=
  negb (bool_decide (raw = "")) && forallb is_digit (bytes raw).

(** Seconds of a unit suffix. *)
Definition ttl_unit (c : ascii) : option N :=
  if bool_decide (c = "s"%char) then Some 1%N
  else if bool_decide (c = "m"%char) then Some 60%N
  else if bool_decide (c = "h"%char) then Some 3600%N
  else if bool_decide (c = "d"%char) then Some 86400%N
  else if bool_decide (c = "w"%char) then Some 604800%N
  else None.

(** The loop over [rest], with the inner loop over the digits unrolled:
    [digits] is [rest[:i]] so far. *)
Fixpoint ttl_loop (digits rest : list ascii) (total : N) : res N :=
  match rest with
  | [] =>
      if bool_decide (digits = []) then Ok total
      else match parse_uint 32 (mk digits) with
           | None => Err (errNew "invalid TTL %q")
           | Some _ => Err (errNew "invalid TTL %q: missing unit suffix")
           end
  | c :: rest' =>
      if is_digit c then ttl_loop (digits ++ [c]) rest' total
      else if bool_decide (digits = []) then Err (errNew "invalid TTL %q")
      else match parse_uint 32 (mk digits) with
           | None => Err (errNew "invalid TTL %q")
           | Some n =>
               match ttl_unit c with
               | None => Err (errNew "invalid TTL unit %q in %q")
               | Some secs => ttl_loop [] rest' (u64 (total + n * secs))
               end
           end
  end.

Definition ParseBindTTL (raw : string) : res (N * string) :=
  let raw := trim_space raw in
  if bool_decide (raw = "") then Err (errNew "TTL is required")
  else if isPlainTTLNumber raw then
    match parse_uint 32 raw with
    | Some n => if (n =? 0)%N then Err (errNew "invalid TTL %q") else Ok (n, raw)
    | None => Err (errNew "invalid TTL %q")
    end
  else
    let? total := ttl_loop [] (bytes raw) 0 in
    if (total =? 0)%N then Err (errNew "invalid TTL %q")
    else if (max_u32 <? total)%N then Err (errNew "TTL %q exceeds maximum")
    else Ok (u32 total, to_lower raw).

(** The JSON payload of the record API; [in_ttl] is the number, [in_ttl_text]
    the string form of its [ttl] member. *)
Record RecordInput := MkRecordInput {
  in_name : string; in_type : string; in_ttl : N; in_ttl_text : string;
  in_value : string; in_view : string
}.

Definition ResolveRecordTTL (i : RecordInput) : res (N * string) :=
  let text := trim_space (in_ttl_text i) in
  if negb (bool_decide (text = "")) then ParseBindTTL text
  else if (0 <? in_ttl i)%N then Ok (in_ttl i, format_uint (in_ttl i))
  else Ok (300%N, "300").

(** ** Zone names *)
Section validate.

(** [unicode.IsLetter] or [IsDigit] of a rune outside ASCII. *)
Variable wide_alnum : list ascii → bool.

Definition label_rune_ok (r : list ascii) : bool :=
  match r with
  | [c] => bool_decide (c = "-"%char) || is_letter c || is_digit c
  | _ => wide_alnum r
  end.

Definition validateLabel (label : string) : option error :=
  match bytes label with
  | [] => Some (errNew "invalid zone name")
  | c :: _ =>
      if (63 <? slen label)%nat then
        Some (errNew "invalid zone name: label exceeds 63 characters")
      else if bool_decide (c = "-"%char) || bool_decide (last (bytes label) = Some "-"%char)
      then Some (errNew "invalid zone name: label cannot start or end with hyphen")
      else if forallb label_rune_ok (runes (bytes label)) then None
      else Some (errNew "invalid zone name: only alphanumeric characters, hyphens, and dots are allowed")
  end.

Fixpoint validateLabels (labels : list string) : option error :=
  match labels with
  | [] => None
  | l :: ls => match validateLabel l with Some e => Some e | None => validateLabels ls end
  end.

Definition ValidateZoneName (zone : string) : option error :=
  let zone := trim_space zone in
  if bool_decide (zone = "") then Some (errNew "zone name is required")
  else
    let zone := trim_suffix zone "." in
    if bool_decide (zone = "") then Some (errNew "invalid zone name")
    else if contains zone ".." then Some (errNew "invalid zone name")
    else if contains_any zone "/\" then Some (errNew "invalid zone name")
    else validateLabels (split zone ".").

End validate.

(** ** The uint64 total wraps: 2^64 + 1 seconds written in segments *)
Definition overflow_text : string :=
  mk (concat (replicate 7101 (bytes "4294967295w")) ++
      bytes "2006143148w25217s").

Definition ttl_seconds (raw : string) : option N :=
  match ParseBindTTL raw with Ok (n, _) => Some n | Err _ => None end.

(** * Lemmas *)

(** What a TTL text denotes, without machine integers: segments of a number
    below 2^32 and a unit. *)
Inductive denotes : list ascii → N → Prop :=
| denotes_end : denotes [] 0
| denotes_seg ds n c secs rest total :
    ds ≠ [] → forallb is_digit ds = true → parse_uint 32 (mk ds) = Some n →
    ttl_unit c = Some secs → denotes rest total →
    denotes (ds ++ c :: rest) (n * secs + total).

Lemma ttl_unit_facts c secs :
  ttl_unit c = Some secs →
  is_digit c = false ∧ lower c = c ∧ is_space c = false ∧ (1 <= secs <= 604800)%N.
Proof.
  unfold ttl_unit. intros H. repeat case_bool_decide; simplify_eq;
    (split_and!; [vm_compute; reflexivity..| lia | lia]).
Qed.

Lemma digit_facts c : is_digit c = true → lower c = c ∧ is_space c = false.
Proof.
  unfold is_digit, lower, is_upper, is_space. intros H. bool_hyps. split.
  - by rewrite (proj2 (N.leb_gt 65 (code c))) by lia.
  - rewrite (proj2 (N.leb_gt (code c) 13)) by lia. rewrite andb_false_r. cbn [orb].
    apply N.eqb_neq. lia.
Qed.

Lemma ttl_loop_digits ds ds' rest total :
  forallb is_digit ds' = true →
  ttl_loop ds (ds' ++ rest) total = ttl_loop (ds ++ ds') rest total.
Proof.
  revert ds. induction ds' as [|c ds' IH]; intros ds; cbn [app ttl_loop forallb].
  { by rewrite app_nil_r. }
  intros [-> Hds]%andb_true_iff. rewrite IH by done. by rewrite <-app_assoc.
Qed.

(** One segment of the loop. *)
Lemma ttl_loop_seg ds n c secs rest total :
  ds ≠ [] → forallb is_digit ds = true → parse_uint 32 (mk ds) = Some n →
  ttl_unit c = Some secs →
  ttl_loop [] (ds ++ c :: rest) total = ttl_loop [] rest (u64 (total + n * secs)).
Proof.
  intros Hne Hds Hn Hc. rewrite ttl_loop_digits by done. cbn [app ttl_loop].
  destruct (ttl_unit_facts _ _ Hc) as (-> & _). rewrite bool_decide_false by done.
  by rewrite Hn, Hc.
Qed.

(** The loop answers exactly on denoting texts, modulo 2^64. *)
Lemma ttl_loop_ok ds rest total r :
  forallb is_digit ds = true →
  ttl_loop ds rest total = Ok r →
  ∃ v, denotes (ds ++ rest) v ∧ ((total < 2 ^ 64)%N → r = u64 (total + v)).
Proof.
  revert ds total. induction rest as [|c rest IH]; intros ds total Hds; cbn [ttl_loop].
  - case_bool_decide; [|by repeat case_match]. intros [= <-]. subst ds.
    exists 0%N. split; [constructor|]. intros. rewrite N.add_0_r. symmetry. by apply N.mod_small.
  - destruct (is_digit c) eqn:Hc.
    { intros H. apply IH in H; [by rewrite <-app_assoc in H|].
      by rewrite forallb_app, Hds; cbn; rewrite Hc. }
    case_bool_decide as Hne; [done|].
    destruct (parse_uint 32 (mk ds)) as [n|] eqn:Hn; [|done].
    destruct (ttl_unit c) as [secs|] eqn:Hu; [|done]. intros H.
    apply IH in H as (v & Hv & Hr); [|done]. exists (n * secs + v)%N. split.
    { by apply (denotes_seg ds n c secs). }
    intros Ht. rewrite Hr by (by apply N.mod_lt). unfold u64.
    rewrite N.add_mod_idemp_l by done. f_equal. lia.
Qed.

Lemma denotes_loop l v total :
  denotes l v → (total < 2 ^ 64)%N → ttl_loop [] l total = Ok (u64 (total + v)).
Proof.
  intros H. revert total. induction H as [|ds n c secs rest v Hne Hds Hn Hu Hd IH];
    intros total Ht.
  - cbn [ttl_loop]. rewrite bool_decide_true by done. unfold u64.
    rewrite N.add_0_r. by rewrite N.mod_small.
  - rewrite (ttl_loop_seg ds n c secs) by done. rewrite IH by (by apply N.mod_lt).
    unfold u64. rewrite N.add_mod_idemp_l by done. do 2 f_equal. lia.
Qed.

(** A denoting text is lower case and has no blank. *)
Lemma denotes_chars l v :
  denotes l v → Forall (λ c, lower c = c ∧ is_space c = false) l.
Proof.
  induction 1 as [|ds n c secs rest v Hne Hds Hn Hu Hd IH]; [constructor|].
  apply Forall_app. split.
  - apply Forall_forall. intros x Hx. apply digit_facts.
    rewrite forallb_forall in Hds. apply Hds. by apply list_elem_of_In.
  - constructor; [|done]. apply ttl_unit_facts in Hu. tauto.
Qed.

(** Each segment takes two bytes at least and adds less than 2^32 weeks. *)
Lemma denotes_bound l v : denotes l v → (2 * v <= N.of_nat (length l) * (4294967295 * 604800))%N.
Proof.
  induction 1 as [|ds n c secs rest v Hne Hds Hn Hu Hd IH]; [done|].
  apply parse_uint_lt in Hn. apply ttl_unit_facts in Hu as (_ & _ & _ & Hs).
  rewrite length_app. cbn [length].
  assert (1 <= N.of_nat (length ds))%N by (destruct ds; [done | simpl; lia]).
  assert (n * secs <= 4294967295 * 604800)%N by (apply N.mul_le_mono; lia).
  rewrite Nat2N.inj_add, Nat2N.inj_succ. lia.
Qed.

Lemma plain_spec s :
  isPlainTTLNumber s = true ↔ s ≠ "" ∧ forallb is_digit (bytes s) = true.
Proof.
  unfold isPlainTTLNumber. rewrite andb_true_iff, negb_true_iff, bool_decide_eq_false. done.
Qed.

Lemma denotes_not_plain l v : denotes l v → l ≠ [] → forallb is_digit l = false.
Proof.
  intros H Hl. destruct H as [|ds n c secs rest v Hne Hds Hn Hu Hd]; [done|].
  apply not_true_iff_false. rewrite forallb_app. cbn [forallb].
  apply ttl_unit_facts in Hu as (-> & _). by rewrite andb_false_r.
Qed.

Lemma chars_trimmed l : Forall (λ c, is_space c = false) l → trim is_space l = l.
Proof.
  intros Hl. apply trim_id.
  - by destruct Hl.
  - apply Forall_reverse in Hl. by destruct Hl.
Qed.

Lemma digits_trim s : forallb is_digit (bytes s) = true → trim_space s = s.
Proof.
  intros Hd. unfold trim_space. rewrite chars_trimmed; [apply mk_bytes|].
  apply Forall_forall. intros c Hc. apply digit_facts.
  rewrite forallb_forall in Hd. by apply Hd, list_elem_of_In.
Qed.

Lemma format_uint_plain n : isPlainTTLNumber (format_uint n) = true.
Proof.
  destruct (format_uint_digits n) as (_ & Hd & Hne). apply plain_spec. split.
  - intros E. by rewrite E in Hne.
  - apply forallb_forall. intros c Hc%list_elem_of_In. by eapply Forall_forall in Hd.
Qed.

Lemma ParseBindTTL_format n :
  (0 < n < 2 ^ 32)%N → ParseBindTTL (format_uint n) = Ok (n, format_uint n).
Proof.
  intros [Hn1 Hn2]. pose proof (format_uint_plain n) as Hp.
  apply plain_spec in Hp as Hp'. destruct Hp' as [Hne Hd]. unfold ParseBindTTL.
  rewrite (digits_trim _ Hd), Hp, bool_decide_false by done.
  rewrite parse_format_uint by done. by rewrite (proj2 (N.eqb_neq _ _)) by lia.
Qed.

(** The reading of a TTL text: a plain number or a sequence of segments. *)
Definition ttl_text (t : string) (n : N) : Prop :=
  (isPlainTTLNumber t = true ∧ digits_val 0 (bytes t) = Some n) ∨ denotes (bytes t) n.

Lemma parse_uint_digits bits s n :
  s ≠ "" → parse_uint bits s = Some n ↔ digits_val 0 (bytes s) = Some n ∧ (n < 2 ^ bits)%N.
Proof.
  intros Hs. unfold parse_uint. rewrite <-bytes_nil in Hs. destruct (bytes s); [done|].
  destruct (digits_val 0 _) as [m|]; [|naive_solver].
  destruct (m <? 2 ^ bits)%N eqn:E; bool_hyps; split.
  - by intros [= ->].
  - by intros [[= ->] _].
  - done.
  - intros [[= ->] ?]. lia.
Qed.

Lemma lower_id_string s : Forall (λ c, lower c = c) (bytes s) → to_lower s = s.
Proof.
  intros H. apply bytes_inj. unfold to_lower. rewrite bytes_mk.
  induction H as [|c l Hc _ IH]; [done|]. cbn. by rewrite Hc, IH.
Qed.

(** What a successful parse says, for any length. *)
Lemma ParseBindTTL_inv raw n t :
  ParseBindTTL raw = Ok (n, t) →
  t = trim_space raw ∧ (0 < n < 2 ^ 32)%N ∧
  ((isPlainTTLNumber t = true ∧ digits_val 0 (bytes t) = Some n) ∨
   ∃ v, denotes (bytes t) v ∧ n = u64 v).
Proof.
  unfold ParseBindTTL. case_bool_decide as Hne; [done|].
  destruct (isPlainTTLNumber (trim_space raw)) eqn:Hp.
  - destruct (parse_uint 32 _) as [m|] eqn:Hm; [|done].
    destruct (m =? 0)%N eqn:E; [done|]. intros [= <- <-]. bool_hyps.
    apply parse_uint_digits in Hm as [Hd Hlt]; [|done].
    split; [done|]. split; [lia|]. by left.
  - destruct (ttl_loop _ _ _) as [m|] eqn:Hl; cbn [res_bind]; [|done].
    destruct (m =? 0)%N eqn:E; [done|]. destruct (max_u32 <? m)%N eqn:E2; [done|].
    intros [= <- <-]. bool_hyps.
    apply ttl_loop_ok in Hl as (v & Hv & Hr); [|done]. cbn [app] in Hv.
    rewrite N.add_0_l in Hr. specialize (Hr ltac:(done)). unfold max_u32 in E2.
    rewrite u32_id by lia. pose proof (denotes_chars _ _ Hv) as Hch. split_and!; [|lia..|].
    + apply lower_id_string. eapply Forall_impl; [exact Hch|]. by intros ? [].
    + right. exists v. split; [|done]. rewrite lower_id_string; [done|].
      eapply Forall_impl; [exact Hch|]. by intros ? [].
Qed.

Lemma trim_idemp_ttl t : trim_space (trim_space t) = trim_space t.
Proof. apply trim_space_idemp. Qed.

(** * Properties *)

(** C40: on texts of at most 14,000 bytes [ParseBindTTL] succeeds exactly when
    the trimmed text is a positive number below 2^32 or a sequence of
    number-unit segments whose exact sum is one; it returns that number and
    the trimmed text unchanged. (Longer texts can overflow the uint64 total:
    [ttl_overflow].) *)
Theorem parse_ttl_denotes raw n t :
  (N.of_nat (slen (trim_space raw)) ≤ 14000)%N →
  ParseBindTTL raw = Ok (n, t) ↔
    t = trim_space raw ∧ (0 < n < 2 ^ 32)%N ∧ ttl_text t n.
Proof.
  intros Hlen. split.
  - intros H. apply ParseBindTTL_inv in H as (-> & Hn & Ht). split_and!; [done|lia..|].
    destruct Ht as [?|(v & Hv & ->)]; [by left|]. right.
    apply denotes_bound in Hv as Hb. unfold slen in Hlen.
    unfold u64. by rewrite N.mod_small by lia.
  - intros (-> & Hn & Ht). unfold ParseBindTTL.
    rewrite bool_decide_false.
    2:{ intros E. rewrite E in Ht. destruct Ht as [[? ?]|Hd]; [done|]. inversion Hd.
        - subst. lia.
        - by destruct ds. }
    destruct Ht as [[Hp Hd]|Hd].
    + rewrite Hp. apply plain_spec in Hp as [Hne _].
      rewrite (proj2 (parse_uint_digits 32 _ n Hne)) by (split; [done | lia]).
      by rewrite (proj2 (N.eqb_neq _ _)) by lia.
    + assert (bytes (trim_space raw) ≠ []) as Hne.
      { intros E. rewrite E in Hd. inversion Hd; [subst; lia | by destruct ds]. }
      assert (isPlainTTLNumber (trim_space raw) = false) as ->.
      { apply not_true_iff_false. rewrite plain_spec. intros [_ Hf].
        by rewrite (denotes_not_plain _ _ Hd Hne) in Hf. }
      rewrite (denotes_loop _ n 0) by done. cbn [res_bind]. rewrite N.add_0_l.
      assert (u64 n = n) as -> by (apply N.mod_small; lia).
      rewrite (proj2 (N.eqb_neq _ _)), (proj2 (N.ltb_ge _ _)) by (unfold max_u32; lia).
      rewrite u32_id by lia. rewrite lower_id_string; [done|].
      eapply Forall_impl; [exact (denotes_chars _ _ Hd)|]. by intros ? [].
Qed.

(** the text a parse returns is a normal form: it parses to the same TTL
    and to itself, and so does the decimal text of the TTL, which is what a
    record without a stored text is written with. *)
Theorem parse_ttl_stable raw n t :
  ParseBindTTL raw = Ok (n, t) →
  ParseBindTTL t = Ok (n, t) ∧ ParseBindTTL (format_uint n) = Ok (n, format_uint n).
Proof.
  intros H. apply ParseBindTTL_inv in H as Hi. destruct Hi as (-> & Hn & _). split.
  - unfold ParseBindTTL in *. by rewrite trim_space_idemp.
  - by apply ParseBindTTL_format.
Qed.

(** ** Witnesses *)
Lemma ttl_overflow : ttl_seconds overflow_text = Some 1%N.
Proof. by vm_compute. Qed.

Lemma parse_ttl_denotes_witness :
  "1d2h" = trim_space " 1d2h " ∧ (0 < 93600 < 2 ^ 32)%N ∧ ttl_text "1d2h" 93600.
Proof.
  apply (proj1 (parse_ttl_denotes " 1d2h " 93600 "1d2h" ltac:(by vm_compute))).
  by vm_compute.
Defined.

Lemma parse_ttl_stable_witness :
  ParseBindTTL "5m" = Ok (300%N, "5m") ∧
  ParseBindTTL (format_uint 300) = Ok (300%N, format_uint 300).
Proof. apply (parse_ttl_stable " 5m"). by vm_compute. Defined.

End TTL.
