(* ===== verification/Owner.v ===== *)
(** * Owner names: internal/storage/memory.go, tree.go, records.go, mutations.go

    [NormalizeName] and the functions that relate an owner name to the origin
    of its zone, with the round trip between zone-relative and absolute
    names. *)
From S2P Require Import Prelude Names.

Module Owner.

(** [NormalizeName] *)
Definition NormalizeName (name : string) : string :=
  let name := to_lower (trim_space name) in
  if bool_decide (name = "") then "."
  else if negb (has_suffix name ".") then name +:+ "." else name.

(** The suffix test of [isNameInZone] and [relativeOwnerName]. *)
Definition zoneSuffix (origin : string) : string :=
  "." +:+ trim_suffix origin "." +:+ ".".

Definition isNameInZone (name origin : string) : bool :=
  let name := NormalizeName name in
  let origin := NormalizeName origin in
  if bool_decide (name = origin) then true
  else has_suffix name (zoneSuffix origin).

Definition relativeOwnerName (name origin : string) : string :=
  let name := NormalizeName name in
  let origin := NormalizeName origin in
  if bool_decide (name = origin) then "@"
  else if has_suffix name (zoneSuffix origin) then trim_suffix name (zoneSuffix origin)
  else name.

Definition qualifyHostTarget (raw : string) : res string :=
  let raw := trim_space raw in
  if bool_decide (raw = "") then Err (errNew "hostname is required")
  else if contains_any raw (" " +:+ String (ascii_of_N 9) "/\") then
    Err (errNew "hostname contains invalid characters")
  else Ok (NormalizeName raw).

Definition qualifyRecordName (zoneOrigin name : string) : res string :=
  let zoneOrigin := NormalizeName zoneOrigin in
  if bool_decide (zoneOrigin = ".") then Err (errNew "invalid zone origin")
  else
    let name := trim_space name in
    if bool_decide (name = "") || bool_decide (name = "@") then Ok zoneOrigin
    else if has_suffix name "." then Ok (NormalizeName name)
    else Ok (NormalizeName (name +:+ "." +:+ trim_suffix zoneOrigin ".")).

(** * Lemmas *)

(** A name [NormalizeName] leaves alone. *)
Definition normal (n : string) : Prop := NormalizeName n = n.

Lemma normal_iff n :
  normal n ↔ trimmed n ∧ to_lower n = n ∧ has_suffix n "." = true.
Proof.
  unfold normal, NormalizeName. split.
  - case_bool_decide as E; [intros <-; split_and!; [repeat constructor| |]; by vm_compute|].
    destruct (has_suffix (to_lower (trim_space n)) ".") eqn:Hs; cbn [negb].
    + intros H. split_and!; rewrite <-H; [auto with arx | apply to_lower_idemp | done].
    + intros H. split_and!; rewrite <-H.
      * apply trimmed_snoc; [auto with arx | done].
      * by rewrite to_lower_app, to_lower_idemp.
      * apply has_suffix_spec. by eexists.
  - intros (Ht & Hl & Hs). rewrite (trimmed_trim _ Ht), Hl.
    rewrite Hs. cbn [negb]. case_bool_decide as E; [|done]. subst n. by vm_compute in Hs.
Qed.

Lemma normalize_normal n : normal (NormalizeName n).
Proof.
  apply normal_iff. unfold NormalizeName.
  case_bool_decide; [split_and!; [repeat constructor| |]; by vm_compute|].
  destruct (has_suffix _ ".") eqn:Hs; cbn [negb].
  - split_and!; [auto with arx | by rewrite to_lower_idemp | done].
  - split_and!.
    + apply trimmed_snoc; [auto with arx | done].
    + by rewrite to_lower_app, to_lower_idemp.
    + apply has_suffix_spec. by eexists.
Qed.

Lemma normalize_idemp n : NormalizeName (NormalizeName n) = NormalizeName n.
Proof. apply normalize_normal. Qed.

Lemma normal_dot : normal ".".
Proof. by vm_compute. Qed.

#[export] Hint Resolve normalize_normal : arx.
#[export] Hint Rewrite normalize_idemp : arx.

Lemma normal_trim_suffix n : normal n → n = trim_suffix n "." +:+ ".".
Proof.
  intros (_ & _ & [x ->]%has_suffix_spec)%normal_iff. by rewrite trim_suffix_app.
Qed.

(** In-zone names, seen on normal forms. *)
Lemma in_zone_below n o :
  normal n → normal o → isNameInZone n o = true ↔ at_or_below n o.
Proof.
  intros Hn Ho. unfold isNameInZone, at_or_below, strictly_below.
  rewrite Hn, Ho. case_bool_decide as E; [naive_solver|].
  rewrite has_suffix_spec. unfold zoneSuffix. rewrite <-(normal_trim_suffix o Ho). naive_solver.
Qed.

Lemma in_zone_normalize n o : isNameInZone (NormalizeName n) (NormalizeName o) = isNameInZone n o.
Proof. unfold isNameInZone. by rewrite !normalize_idemp. Qed.

Lemma in_zone_normalize_r n o : isNameInZone n (NormalizeName o) = isNameInZone n o.
Proof. unfold isNameInZone. by rewrite !normalize_idemp. Qed.

Lemma in_zone_normalize_l n o : isNameInZone (NormalizeName n) o = isNameInZone n o.
Proof. unfold isNameInZone. by rewrite !normalize_idemp. Qed.

Lemma in_zone_apex o : isNameInZone o o = true.
Proof. unfold isNameInZone. by rewrite bool_decide_true. Qed.

(** A usable relative owner: not read as the apex or as an absolute name. *)
Definition relative_ok (x : string) : Prop :=
  trimmed x ∧ to_lower x = x ∧ x ≠ "" ∧ x ≠ "@" ∧ has_suffix x "." = false.

Lemma trimmed_app x y :
  trimmed x → trimmed y → x ≠ "" → y ≠ "" → trimmed (x +:+ y).
Proof.
  intros [X1 X2] [Y1 Y2] Hx Hy. rewrite <-bytes_nil in Hx, Hy.
  unfold trimmed. rewrite bytes_app, reverse_app. split.
  - by destruct (bytes x).
  - destruct (reverse (bytes y)) eqn:E; [|done].
    apply (f_equal reverse) in E. by rewrite reverse_involutive in E.
Qed.

Lemma trimmed_dot_prefix y : trimmed y → y ≠ "" → trimmed ("." +:+ y).
Proof. intros. apply trimmed_app; [repeat constructor | done..]. Qed.

Lemma below_not_self x o : x +:+ "." +:+ o ≠ o.
Proof. intros H%(f_equal slen). rewrite !slen_app in H. change (slen ".") with 1 in H. lia. Qed.

Lemma relative_below x o :
  normal o → normal (x +:+ "." +:+ o) → relativeOwnerName (x +:+ "." +:+ o) o = x.
Proof.
  intros Ho Hn. unfold relativeOwnerName.
  rewrite Hn, Ho, bool_decide_false by apply below_not_self.
  unfold zoneSuffix. rewrite <-(normal_trim_suffix o Ho).
  rewrite (proj2 (has_suffix_spec _ _)) by (by exists x).
  apply trim_suffix_app.
Qed.

(** The form of an in-zone owner and its relative text. *)
Lemma relative_spec n o :
  normal n → normal o → isNameInZone n o = true →
  (n = o ∧ relativeOwnerName n o = "@") ∨
  n = relativeOwnerName n o +:+ "." +:+ o.
Proof.
  intros Hn Ho Hin. apply in_zone_below in Hin as [->|[x Hx]]; [| |done|done].
  - left. split; [done|]. unfold relativeOwnerName. by rewrite bool_decide_true.
  - right. subst n. by rewrite relative_below.
Qed.

(** An origin whose text without the final dot is itself a clean name, as every
    name [ValidateZoneName] accepts. *)
Definition origin_ok (o : string) : Prop :=
  normal o ∧ trim_suffix o "." ≠ "" ∧ trimmed (trim_suffix o ".") ∧
  has_suffix (trim_suffix o ".") "." = false.

Lemma app_string_assoc x y z : (x +:+ y) +:+ z = x +:+ (y +:+ z).
Proof. apply bytes_inj. by rewrite !bytes_app, app_assoc. Qed.

Lemma app_string_inj_r x y z : x +:+ z = y +:+ z → x = y.
Proof.
  intros H%(f_equal bytes). rewrite !bytes_app in H. by apply app_inj_tail_iff in H || (apply app_inv_tail in H; by apply bytes_inj).
Qed.

Lemma has_suffix_dot_app x y : y ≠ "" → has_suffix (x +:+ y) "." = has_suffix y ".".
Proof.
  intros Hy. rewrite <-bytes_nil in Hy.
  destruct (has_suffix y ".") eqn:E.
  - apply has_suffix_spec in E as [z ->]. apply has_suffix_spec. exists (x +:+ z).
    by rewrite app_string_assoc.
  - apply not_true_iff_false. intros [z Hz%(f_equal bytes)]%has_suffix_spec.
    rewrite !bytes_app in Hz. destruct (bytes y) as [|c l _] eqn:Ey using rev_ind; [done|].
    rewrite app_assoc in Hz. change (bytes ".") with ["."%char] in Hz.
    apply app_inj_tail in Hz as [_ ->].
    assert (has_suffix y "." = true); [|congruence].
    apply has_suffix_spec. exists (mk l). apply bytes_inj.
    by rewrite bytes_app, bytes_mk, Ey.
Qed.

Lemma qualify_normal o x :
  origin_ok o → relative_ok x → normal (x +:+ "." +:+ o) →
  qualifyRecordName o x = Ok (x +:+ "." +:+ o).
Proof.
  intros (Ho & Ha1 & Ha2 & Ha3) (Ht & _ & Hne & Hat & Hs) Hn. unfold qualifyRecordName.
  pose proof (normal_trim_suffix o Ho) as Hsp.
  rewrite Ho, bool_decide_false by (intros ->; by vm_compute in Ha1).
  rewrite (trimmed_trim _ Ht).
  rewrite !bool_decide_false by done. cbn [orb]. rewrite Hs. f_equal.
  set (a := trim_suffix o ".") in *. rewrite Hsp in Hn |- *.
  rewrite <-!app_string_assoc in Hn. rewrite <-!app_string_assoc.
  set (s := (x +:+ ".") +:+ a) in *.
  assert (trimmed s) as Hts.
  { unfold s. apply trimmed_app; [|done| |done].
    - apply trimmed_app; [done | repeat constructor | done..].
    - intros E%(f_equal slen). rewrite slen_app in E. change (slen ".") with 1 in E.
      change (slen "") with 0 in E. lia. }
  apply normal_iff in Hn as (_ & Hl & _). rewrite to_lower_app in Hl.
  change (to_lower ".") with "." in Hl. apply app_string_inj_r in Hl.
  unfold NormalizeName. rewrite (trimmed_trim _ Hts), Hl.
  rewrite bool_decide_false.
  - unfold s at 1. by rewrite has_suffix_dot_app, Ha3 by done.
  - intros E%(f_equal slen). unfold s in E. rewrite !slen_app in E.
    change (slen ".") with 1 in E. change (slen "") with 0 in E. lia.
Qed.

(** * Properties *)

(** the zone-relative owner written to a zone file or shown by the API
    names the same record when it is read back: qualifying it with the origin
    gives the absolute name, for every in-zone name other than the few whose
    relative part is itself special ("@", or ending in a dot). *)
Theorem qualify_relative n o :
  origin_ok o → normal n → isNameInZone n o = true →
  n = o ∨ relative_ok (relativeOwnerName n o) →
  qualifyRecordName o (relativeOwnerName n o) = Ok n.
Proof.
  intros Ho Hn Hin Hrel. pose proof (proj1 Ho) as Hno.
  apply relative_spec in Hin as [[-> ->]|Hn']; [| |done|done].
  - unfold qualifyRecordName. rewrite Hno, bool_decide_false; [done|].
    intros ->. destruct Ho as (_ & Ha & _). by vm_compute in Ha.
  - destruct Hrel as [->|Hrel]; [by apply symmetry, below_not_self in Hn'|].
    rewrite Hn' at 2. apply qualify_normal; [done..|]. by rewrite <-Hn'.
Qed.

(** ** Witnesses *)
Lemma qualify_relative_witness :
  qualifyRecordName "example.com." (relativeOwnerName "a.b.example.com." "example.com.")
  = Ok "a.b.example.com.".
Proof.
  apply (qualify_relative "a.b.example.com." "example.com.").
  - split_and!; [by vm_compute | by vm_compute | repeat constructor; by vm_compute | by vm_compute].
  - by vm_compute.
  - by vm_compute.
  - right. split_and!; [split; by vm_compute | by vm_compute | by vm_compute | by vm_compute | by vm_compute].
Defined.

End Owner.
