(* ===== verification/Dns.v ===== *)
(** * DNS messages

    The data of [github.com/miekg/dns] the sources build and take apart, and,
    as the interfaces [DnsText] and [DnsMsg], the functions of that package
    they call: it is not under src/, so these are parameters. The laws the
    proofs use are stated in [DnsMsgLaws]; [demo_*] instances evaluate
    witnesses. Nil records and messages are not represented: the package never
    puts them into a message. [mdns.Copy] is the identity on values. *)
From S2P Require Import Prelude NetAddr.

(** ** Numbers (RFC 1035 and successors) *)
Definition TypeA := 1%N.
Definition TypeNS := 2%N.
Definition TypeCNAME := 5%N.
Definition TypeSOA := 6%N.
Definition TypePTR := 12%N.
Definition TypeHINFO := 13%N.
Definition TypeMX := 15%N.
Definition TypeTXT := 16%N.
Definition TypeAAAA := 28%N.
Definition TypeSRV := 33%N.
Definition TypeOPT := 41%N.
Definition TypeDS := 43%N.
Definition TypeRRSIG := 46%N.
Definition TypeNSEC := 47%N.
Definition TypeDNSKEY := 48%N.
Definition TypeIXFR := 251%N.
Definition TypeAXFR := 252%N.
Definition TypeANY := 255%N.
Definition TypeCAA := 257%N.

Definition ClassINET := 1%N.
Definition ClassNONE := 254%N.
Definition ClassANY := 255%N.

Definition RcodeSuccess := 0%N.
Definition RcodeFormatError := 1%N.
Definition RcodeServerFailure := 2%N.
Definition RcodeNameError := 3%N.
Definition RcodeRefused := 5%N.
Definition RcodeYXDomain := 6%N.
Definition RcodeYXRrset := 7%N.
Definition RcodeNXRrset := 8%N.
Definition RcodeNotAuth := 9%N.
Definition RcodeNotZone := 10%N.
Definition RcodeBadCookie := 23%N.

Definition OpcodeQuery := 0%N.
Definition OpcodeNotify := 4%N.
Definition OpcodeUpdate := 5%N.

Definition MinMsgSize := 512%N.
Definition DefaultMsgSize := 4096%N.
Definition SEP := 1%N.

(** ** Records *)
Record edns_subnet := Subnet {
  e_family : N; e_netmask : N; e_scope : N; e_address : net_ip
}.

Inductive edns_option :=
| OSubnet (s : edns_subnet)
| OCookie (hex : string)
| OOther (code : N) (data : string).

Record rr_header := Hdr { h_name : string; h_rrtype : N; h_class : N; h_ttl : N }.

Record rrsig_data := RRSIGData {
  TypeCovered : N; SigAlgorithm : N; SigLabels : N; OrigTtl : N;
  Expiration : N; Inception : N; SigKeyTag : N; SignerName : string;
  Signature : string
}.
Record dnskey_data := DNSKEYData {
  KFlags : N; KProtocol : N; KAlgorithm : N; PublicKey : string
}.
Record ds_data := DSData {
  DKeyTag : N; DAlgorithm : N; DDigestType : N; DDigest : string
}.
Record soa_data := SOAData {
  s_ns : string; s_mbox : string; s_serial : N; s_refresh : N; s_retry : N;
  s_expire : N; s_minttl : N
}.

(** The concrete type behind an [mdns.RR]; [DOther] is any type whose fields
    the sources never touch, kept with its presentation text. *)
Inductive rdata :=
| DA (ip : net_ip)
| DAAAA (ip : net_ip)
| DCNAME (target : string)
| DTXT (txt : list string)
| DNS (ns : string)
| DMX (preference : N) (mx : string)
| DPTR (ptr : string)
| DSRV (priority weight port : N) (target : string)
| DSOA (soa : soa_data)
| DCAA (flag : N) (tag value : string)
| DRFC3597 (hexdata : string)
| DHINFO (cpu os : string)
| DOPT (options : list edns_option)
| DRRSIG (sig : rrsig_data)
| DDNSKEY (key : dnskey_data)
| DDS (ds : ds_data)
| DNSEC (next : string) (types : list N)
| DTSIG (algorithm mac : string)
| DOther (text : string).

Record rr := RR { hdr : rr_header; dat : rdata }.

#[export] Instance edns_subnet_eq_dec : EqDecision edns_subnet.
Proof. solve_decision. Defined.
#[export] Instance edns_option_eq_dec : EqDecision edns_option.
Proof. solve_decision. Defined.
#[export] Instance rr_header_eq_dec : EqDecision rr_header.
Proof. solve_decision. Defined.
#[export] Instance rrsig_data_eq_dec : EqDecision rrsig_data.
Proof. solve_decision. Defined.
#[export] Instance dnskey_data_eq_dec : EqDecision dnskey_data.
Proof. solve_decision. Defined.
#[export] Instance ds_data_eq_dec : EqDecision ds_data.
Proof. solve_decision. Defined.
#[export] Instance soa_data_eq_dec : EqDecision soa_data.
Proof. solve_decision. Defined.
#[export] Instance rdata_eq_dec : EqDecision rdata.
Proof. solve_decision. Defined.
#[export] Instance rr_eq_dec : EqDecision rr.
Proof. solve_decision. Defined.

Definition name_of (r : rr) : string := h_name (hdr r).
Definition type_of (r : rr) : N := h_rrtype (hdr r).
Definition class_of (r : rr) : N := h_class (hdr r).
Definition ttl_of (r : rr) : N := h_ttl (hdr r).
Definition with_ttl (r : rr) (ttl : N) : rr :=
  RR (Hdr (name_of r) (type_of r) (class_of r) ttl) (dat r).

Definition is_opt (r : rr) : bool := match dat r with DOPT _ => true | _ => false end.

(** ** Messages *)
Record question := Question { q_name : string; q_type : N; q_class : N }.

Record msg := Msg {
  m_id : N; m_response : bool; m_opcode : N; m_aa : bool; m_tc : bool;
  m_rd : bool; m_ra : bool; m_ad : bool; m_cd : bool; m_rcode : N;
  m_compress : bool;
  m_question : list question; m_answer : list rr; m_ns : list rr; m_extra : list rr
}.

(** [new(mdns.Msg)] *)
Definition new_msg : msg :=
  Msg 0 false 0 false false false false false false 0 false [] [] [] [].

Definition set_aa (m : msg) b := Msg (m_id m) (m_response m) (m_opcode m) b (m_tc m)
  (m_rd m) (m_ra m) (m_ad m) (m_cd m) (m_rcode m) (m_compress m) (m_question m)
  (m_answer m) (m_ns m) (m_extra m).
Definition set_tc (m : msg) b := Msg (m_id m) (m_response m) (m_opcode m) (m_aa m) b
  (m_rd m) (m_ra m) (m_ad m) (m_cd m) (m_rcode m) (m_compress m) (m_question m)
  (m_answer m) (m_ns m) (m_extra m).
Definition set_rd (m : msg) b := Msg (m_id m) (m_response m) (m_opcode m) (m_aa m)
  (m_tc m) b (m_ra m) (m_ad m) (m_cd m) (m_rcode m) (m_compress m) (m_question m)
  (m_answer m) (m_ns m) (m_extra m).
Definition set_ra (m : msg) b := Msg (m_id m) (m_response m) (m_opcode m) (m_aa m)
  (m_tc m) (m_rd m) b (m_ad m) (m_cd m) (m_rcode m) (m_compress m) (m_question m)
  (m_answer m) (m_ns m) (m_extra m).
Definition set_ad (m : msg) b := Msg (m_id m) (m_response m) (m_opcode m) (m_aa m)
  (m_tc m) (m_rd m) (m_ra m) b (m_cd m) (m_rcode m) (m_compress m) (m_question m)
  (m_answer m) (m_ns m) (m_extra m).
Definition set_rcode (m : msg) r := Msg (m_id m) (m_response m) (m_opcode m) (m_aa m)
  (m_tc m) (m_rd m) (m_ra m) (m_ad m) (m_cd m) r (m_compress m) (m_question m)
  (m_answer m) (m_ns m) (m_extra m).
Definition set_compress (m : msg) b := Msg (m_id m) (m_response m) (m_opcode m) (m_aa m)
  (m_tc m) (m_rd m) (m_ra m) (m_ad m) (m_cd m) (m_rcode m) b (m_question m)
  (m_answer m) (m_ns m) (m_extra m).
Definition set_question (m : msg) q := Msg (m_id m) (m_response m) (m_opcode m) (m_aa m)
  (m_tc m) (m_rd m) (m_ra m) (m_ad m) (m_cd m) (m_rcode m) (m_compress m) q
  (m_answer m) (m_ns m) (m_extra m).
Definition set_answer (m : msg) a := Msg (m_id m) (m_response m) (m_opcode m) (m_aa m)
  (m_tc m) (m_rd m) (m_ra m) (m_ad m) (m_cd m) (m_rcode m) (m_compress m) (m_question m)
  a (m_ns m) (m_extra m).
Definition set_ns (m : msg) n := Msg (m_id m) (m_response m) (m_opcode m) (m_aa m)
  (m_tc m) (m_rd m) (m_ra m) (m_ad m) (m_cd m) (m_rcode m) (m_compress m) (m_question m)
  (m_answer m) n (m_extra m).
Definition set_extra (m : msg) x := Msg (m_id m) (m_response m) (m_opcode m) (m_aa m)
  (m_tc m) (m_rd m) (m_ra m) (m_ad m) (m_cd m) (m_rcode m) (m_compress m) (m_question m)
  (m_answer m) (m_ns m) x.

(** ** Interfaces to the package *)

(** Names, types and record texts. *)
Class DnsText := {
  type_string : N → string;               (* mdns.Type(t).String() *)
  string_to_type : string → option N;     (* mdns.StringToType *)
  rr_string : rr → string;                (* rr.String() *)
  new_rr : string → res (option rr);      (* mdns.NewRR: nil for a text without a record *)
  is_duplicate : rr → rr → bool;          (* mdns.IsDuplicate *)
  canonical_name : string → string;       (* mdns.CanonicalName *)
  fqdn : string → string                  (* mdns.Fqdn *)
}.

(** Messages: [edns_index] is the position in the Additional section of the
    record [IsEdns0] returns a pointer to. *)
Class DnsMsg := {
  unpack : string → res msg;              (* Msg.Unpack *)
  pack : msg → res string;                (* Msg.Pack *)
  truncate : msg → N → msg;               (* Msg.Truncate *)
  set_reply : msg → msg → msg;            (* resp.SetReply(req) *)
  edns_index : msg → option nat;          (* Msg.IsEdns0 *)
  set_edns0 : msg → N → bool → msg;       (* Msg.SetEdns0 *)
  opt_udp_size : rr → N;                  (* OPT.UDPSize *)
  opt_do : rr → bool;                     (* OPT.Do *)
  opt_set_udp_size : rr → N → rr;         (* OPT.SetUDPSize *)
  opt_set_do : rr → rr                    (* OPT.SetDo *)
}.

Section msg.
Context `{DnsMsg}.

(** [msg.IsEdns0()] *)
Definition is_edns0 (m : msg) : option rr :=
  match edns_index m with Some i => m_extra m !! i | None => None end.

(** A write through the pointer [IsEdns0] returned. *)
Definition update_edns0 (f : rr → rr) (m : msg) : msg :=
  match edns_index m with
  | Some i => set_extra m (alter f i (m_extra m))
  | None => m
  end.

Definition opt_options (o : rr) : list edns_option :=
  match dat o with DOPT os => os | _ => [] end.
Definition opt_set_options (os : list edns_option) (o : rr) : rr := RR (hdr o) (DOPT os).

End msg.

(** What the documentation of the package promises. *)
Class DnsMsgLaws `{DnsMsg} : Prop := {
  edns_index_some : ∀ m i, edns_index m = Some i →
    ∃ o, m_extra m !! i = Some o ∧ is_opt o = true;
  edns_index_none : ∀ m, edns_index m = None ↔ Forall (λ r, is_opt r = false) (m_extra m);
  set_edns0_appends : ∀ m size d,
    ∃ o, set_edns0 m size d = set_extra m (m_extra m ++ [o]) ∧ is_opt o = true ∧
      opt_options o = [];
  (* "creates a reply message from a request message" *)
  set_reply_rcode : ∀ m req, m_rcode (set_reply m req) = RcodeSuccess;
  set_reply_id : ∀ m req, m_id (set_reply m req) = m_id req;
  set_reply_response : ∀ m req, m_response (set_reply m req) = true;
  set_reply_answer : ∀ m req, m_answer (set_reply m req) = m_answer m;
  set_reply_ns : ∀ m req, m_ns (set_reply m req) = m_ns m;
  set_reply_extra : ∀ m req, m_extra (set_reply m req) = m_extra m;
  (* "removing records that exceed the requested size"; the OPT record stays *)
  truncate_rcode : ∀ m n, m_rcode (truncate m n) = m_rcode m;
  truncate_answer : ∀ m n, m_answer (truncate m n) `prefix_of` m_answer m;
  (* the setters of an OPT record leave its options alone *)
  set_do_options : ∀ o, opt_options (opt_set_do o) = opt_options o;
  set_udp_size_options : ∀ o n, opt_options (opt_set_udp_size o n) = opt_options o;
  set_do_opt : ∀ o, is_opt o = true → is_opt (opt_set_do o) = true;
  set_udp_size_opt : ∀ o n, is_opt o = true → is_opt (opt_set_udp_size o n) = true;
  edns_index_shape : ∀ m m', map is_opt (m_extra m) = map is_opt (m_extra m') →
    edns_index m = edns_index m';
  truncate_opt : ∀ m n o, List.filter is_opt (m_extra m) = [o] →
    List.filter is_opt (m_extra (truncate m n)) = [o]
}.

(** Questions: [Msg.SetQuestion], whose random message ID is not modelled, and
    [mdns.SplitDomainName], which "splits a name string into its labels". *)
Class DnsQuestion := {
  set_question_of : msg → string → N → msg;
  split_domain_name : string → list string
}.

Class DnsQuestionLaws `{DnsQuestion} `{DnsText} : Prop := {
  set_question_question m z t :
    m_question (set_question_of m z t) = [Question z t ClassINET];
  set_question_rd m z t : m_rd (set_question_of m z t) = true;
  set_question_extra m z t : m_extra (set_question_of m z t) = m_extra m;
  fqdn_idemp s : fqdn (fqdn s) = fqdn s;
  split_suffix s k : k < length (split_domain_name s) →
    split_domain_name (fqdn (join (drop k (split_domain_name s)) ".")) =
      drop k (split_domain_name s)
}.

(** [mdns.CanonicalName] "returns the domain name in canonical form": fully
    qualified and in lower case. *)
Class DnsNameLaws `{DnsText} : Prop := {
  canonical_idemp s : canonical_name (canonical_name s) = canonical_name s;
  canonical_dot s : has_suffix (canonical_name s) "." = true
}.

(** ** Instances that evaluate witnesses *)
Definition demo_type_table : list (N * string) :=
  [(1, "A"); (2, "NS"); (5, "CNAME"); (6, "SOA"); (12, "PTR"); (15, "MX"); (16, "TXT");
   (28, "AAAA"); (33, "SRV"); (255, "ANY")]%N.

Definition demo_canonical (s : string) : string :=
  let s := to_lower s in if has_suffix s "." then s else s +:+ ".".

#[export] Instance demo_dns_text : DnsText | 100 := {|
  type_string t :=
    match List.find (λ p, (fst p =? t)%N) demo_type_table with
    | Some p => snd p | None => "TYPE" +:+ format_uint t end;
  string_to_type s :=
    fst <$> List.find (λ p, bool_decide (snd p = s)) demo_type_table;
  rr_string r := match dat r with DOther t => t | _ => "" end;
  new_rr line := Err (errNew "dns: parse error");
  is_duplicate a b :=
    bool_decide (demo_canonical (name_of a) = demo_canonical (name_of b)) &&
    bool_decide (type_of a = type_of b) && bool_decide (class_of a = class_of b) &&
    bool_decide (dat a = dat b);
  canonical_name := demo_canonical;
  fqdn s := if has_suffix s "." then s else s +:+ "."
|}.

#[export] Instance demo_dns_question : DnsQuestion | 100 := {|
  set_question_of m z t := set_rd (set_question m [Question z t ClassINET]) true;
  split_domain_name s := List.filter (λ l, negb (bool_decide (l = ""))) (split s ".")
|}.

Fixpoint find_opt (i : nat) (l : list rr) : option nat :=
  match l with
  | [] => None
  | r :: l' => if is_opt r then Some i else find_opt (S i) l'
  end.

#[export] Instance demo_dns_msg : DnsMsg | 100 := {|
  unpack s := Err (errNew "dns: buffer size too small");
  pack m := Ok "";
  truncate m n := m;
  set_reply m req :=
    Msg (m_id req) true (m_opcode req) (m_aa m) (m_tc m) (m_rd req) (m_ra m) (m_ad m)
      (m_cd req) RcodeSuccess (m_compress m)
      (match m_question req with q :: _ => [q] | [] => m_question m end)
      (m_answer m) (m_ns m) (m_extra m);
  edns_index m := find_opt 0 (m_extra m);
  set_edns0 m size d := set_extra m (m_extra m ++
    [RR (Hdr "." TypeOPT size (if d then 32768 else 0)%N) (DOPT [])]);
  opt_udp_size o := class_of o;
  opt_do o := N.testbit (ttl_of o) 15;
  opt_set_udp_size o n := RR (Hdr (name_of o) (type_of o) n (ttl_of o)) (dat o);
  opt_set_do o := with_ttl o (N.lor (ttl_of o) 32768)
|}.

Lemma find_opt_some n l i :
  find_opt n l = Some i → n ≤ i ∧ ∃ o, l !! (i - n) = Some o ∧ is_opt o = true.
Proof.
  revert n. induction l as [|r l IH]; intros n; simpl; [done|].
  destruct (is_opt r) eqn:E.
  - intros [= <-]. rewrite Nat.sub_diag. eauto.
  - intros [? (o & Ho & ?)]%IH. split; [lia|]. exists o.
    replace (i - n) with (S (i - S n)) by lia. done.
Qed.

Lemma find_opt_none n l : find_opt n l = None ↔ Forall (λ r, is_opt r = false) l.
Proof.
  revert n. induction l as [|r l IH]; intros n; simpl; [done|].
  rewrite Forall_cons, <-(IH (S n)). destruct (is_opt r); naive_solver.
Qed.

Lemma find_opt_shape n l l' : map is_opt l = map is_opt l' → find_opt n l = find_opt n l'.
Proof.
  revert n l'. induction l as [|r l IH]; intros n [|r' l'] [=]; [done|].
  cbn [find_opt]. rewrite H0. destruct (is_opt r'); [done|]. by apply IH.
Qed.

#[export] Instance demo_dns_msg_laws : DnsMsgLaws.
Proof.
  split; try done.
  4: { intros m m' H. by apply find_opt_shape. }
  - intros m i Hi. apply (find_opt_some 0) in Hi as [_ Hi]. by rewrite Nat.sub_0_r in Hi.
  - intros m. apply (find_opt_none 0).
  - intros m size d. eexists. split; [reflexivity | done].
Qed.

Lemma demo_split_labels s :
  Forall (λ l, l ≠ "" ∧ Forall (λ c, is_char "." c = false) (bytes l)) (split_domain_name s).
Proof.
  apply Forall_forall. intros l (Hl & Hn)%list_elem_of_In%filter_In.
  apply in_map_iff in Hl as (w & <- & Hw). bool_hyps. split; [done|]. rewrite bytes_mk.
  pose proof (split_with_words (is_char ".") (bytes s)) as HF. rewrite Forall_forall in HF.
  by apply HF, list_elem_of_In.
Qed.

(** A joined list of labels splits into those labels, with the final dot. *)
Lemma demo_split_join ls : ls ≠ [] →
  Forall (λ l, l ≠ "" ∧ Forall (λ c, is_char "." c = false) (bytes l)) ls →
  split_domain_name (fqdn (join ls ".")) = ls.
Proof.
  intros Hne HF.
  assert (Hj : split_with (is_char ".") (bytes (join ls ".")) = map bytes ls).
  { rewrite bytes_join. apply split_join_with; [by destruct ls|].
    apply Forall_map. eapply Forall_impl; [exact HF|]. by intros l [_ ?]. }
  assert (Hs : has_suffix (join ls ".") "." = false).
  { apply not_true_iff_false. rewrite has_suffix_spec. intros (u & Hu).
    rewrite Hu, bytes_app in Hj. change (bytes ".") with ["."%char] in Hj.
    rewrite split_with_snoc in Hj by done.
    destruct (exists_last Hne) as (ls' & w & ->). rewrite map_app in Hj.
    apply app_inj_tail in Hj as [_ Hw]. apply Forall_app in HF as [_ [[Hw' _] _]%Forall_cons].
    symmetry in Hw. by apply bytes_nil in Hw. }
  cbn [split_domain_name demo_dns_question fqdn demo_dns_text]. rewrite Hs. unfold split.
  rewrite bytes_app. change (bytes ".") with ["."%char].
  rewrite split_with_snoc, Hj, map_app, map_mk_bytes by done. rewrite List.filter_app.
  cbn [List.filter map]. rewrite bool_decide_true by done. cbn [negb]. rewrite app_nil_r.
  clear Hne Hj Hs. induction HF as [|l ls [Hl _] _ IH]; [done|]. cbn [List.filter].
  rewrite bool_decide_false by done. cbn [negb]. by rewrite IH.
Qed.

#[export] Instance demo_dns_name_laws : DnsNameLaws.
Proof.
  assert (Hd : ∀ s, has_suffix (demo_canonical s) "." = true).
  { intros s. unfold demo_canonical. destruct (has_suffix (to_lower s) ".") eqn:E; [done|].
    apply has_suffix_spec. eauto. }
  split; [|done]. intros s. cbn [canonical_name demo_dns_text].
  assert (El : to_lower (demo_canonical s) = demo_canonical s).
  { unfold demo_canonical. destruct (has_suffix (to_lower s) ".");
      rewrite ?to_lower_app, to_lower_idemp; done. }
  unfold demo_canonical at 1. by rewrite El, Hd.
Qed.

#[export] Instance demo_dns_question_laws : DnsQuestionLaws.
Proof.
  split; try done.
  - intros s. cbn [fqdn demo_dns_text]. destruct (has_suffix s ".") eqn:E; [by rewrite E|].
    by rewrite (proj2 (has_suffix_spec _ _)) by eauto.
  - intros s k Hk. apply demo_split_join.
    + intros E. apply (f_equal length) in E. rewrite length_drop in E. cbn [length] in E. lia.
    + apply Forall_drop, demo_split_labels.
Qed.

(** ** Lemmas: the OPT record of a message *)
Section edns.
Context `{DL : DnsMsgLaws}.

(** An only OPT record at the end is the one [IsEdns0] finds. *)
Lemma edns_index_last m l o :
  m_extra m = l ++ [o] → Forall (λ r, is_opt r = false) l → is_opt o = true →
  edns_index m = Some (length l).
Proof.
  intros E HF Ho. destruct (edns_index m) as [i|] eqn:Ei.
  - destruct (edns_index_some m i Ei) as (o' & Hi & Ho'). rewrite E in Hi.
    apply lookup_app_Some in Hi as [Hi|[Hle Hi]].
    + rewrite Forall_lookup in HF. specialize (HF _ _ Hi). congruence.
    + apply list_lookup_singleton_Some in Hi as [Hi _]. f_equal. lia.
  - apply edns_index_none in Ei. rewrite E, Forall_app, Forall_singleton in Ei.
    destruct Ei. congruence.
Qed.

Lemma is_edns0_none m : is_edns0 m = None → Forall (λ r, is_opt r = false) (m_extra m).
Proof.
  unfold is_edns0. destruct (edns_index m) as [i|] eqn:E.
  - destruct (edns_index_some m i E) as (o & -> & _). done.
  - intros _. by apply edns_index_none.
Qed.

Lemma is_edns0_update f m : (∀ o, is_opt o = true → is_opt (f o) = true) →
  is_edns0 (update_edns0 f m) = f <$> is_edns0 m.
Proof.
  intros Hf. unfold is_edns0, update_edns0. destruct (edns_index m) as [i|] eqn:E.
  - destruct (edns_index_some m i E) as (o & Hi & Ho).
    assert (Hs : edns_index (set_extra m (alter f i (m_extra m))) = Some i).
    { rewrite <-E. apply edns_index_shape. cbn [m_extra set_extra].
      apply list_eq. intros j. rewrite !list_lookup_fmap.
      rewrite list_lookup_alter. destruct (decide (i = j)) as [<-|Hj]; [|done].
      rewrite Hi. cbn [fmap option_fmap option_map]. by rewrite (Hf _ Ho), Ho. }
    rewrite Hs. cbn [m_extra set_extra]. by rewrite list_lookup_alter, decide_True.
  - by rewrite E.
Qed.

Lemma is_edns0_set m size d : is_edns0 m = None →
  ∃ o, is_edns0 (set_edns0 m size d) = Some o ∧ opt_options o = [].
Proof.
  intros Hn%is_edns0_none. destruct (set_edns0_appends m size d) as (o & -> & Ho & Hos).
  exists o. split; [|done]. unfold is_edns0.
  rewrite (edns_index_last _ (m_extra m) o) by done. cbn [m_extra set_extra].
  by rewrite list_lookup_middle.
Qed.

End edns.
