(* ===== verification/Acl.v ===== *)
(** * Access control lists and view selection: internal/acl/acl.go

    BIND-style match lists that may refer to named lists, the runtime policy
    engine and the choice of the split-DNS view. Evaluation of a list follows
    named references, so it is fuelled; [list_contains] fixes the fuel at one
    more than the number of named lists, which suffices for every registry
    [BuildNamedLists] accepts. *)
From S2P Require Import Prelude NetAddr Dns.

Module ACL.

Definition ViewPublic := "public".
Definition ViewInternal := "internal".
Definition KeywordAny := "any".
Definition KeywordNone := "none".
Definition keywordLocalhost := "localhost".

(** One element of a match list: the [kind] with the field it uses. *)
Inductive MatchEntry :=
| entryIP (p : prefix)
| entryNamed (name : string)
| entryAny
| entryNone
| entryLocalhost.

#[export] Instance MatchEntry_eq_dec : EqDecision MatchEntry.
Proof. solve_decision. Defined.

(** A [MatchList] pointer is [option MatchList]: nil means "not configured". *)
Abbreviation MatchList := (list MatchEntry).
Abbreviation Registry := (gmap string MatchList).

Record PolicySet := MkPolicySet {
  pAllowQuery : option MatchList;
  pAllowRecursion : option MatchList;
  pAllowTransfer : option MatchList
}.

Record ViewRule := MkViewRule {
  v_name : string; v_match : option MatchList; v_useECS : bool
}.

Record Engine := MkEngine {
  named : Registry;
  global : PolicySet;
  zones : gmap string PolicySet;
  views : list ViewRule;
  defaultView : string;
  legacyRecursion : option MatchList
}.

(** ** Parsing *)
Definition parseMatchElement (raw : string) : res MatchEntry :=
  let raw := trim_space raw in
  if bool_decide (raw = "") then Err (errNew "empty match list element")
  else
    let low := to_lower raw in
    if bool_decide (low = KeywordAny) then Ok entryAny
    else if bool_decide (low = KeywordNone) then Ok entryNone
    else if bool_decide (low = keywordLocalhost) then Ok entryLocalhost
    else match parse_ip raw with
         | Some ip =>
             let a := unmap (addr_from_ip ip) in
             let bits := if is4 a then 32%Z else 128%Z in
             Ok (entryIP (masked (prefix_from a bits)))
         | None =>
             match parse_prefix raw with
             | Some p => Ok (entryIP (masked p))
             | None => Ok (entryNamed low)
             end
         end.

Definition ParseMatchList (elements : list string) : res (option MatchList) :=
  match elements with
  | [] => Ok None
  | _ => let? es := res_map parseMatchElement elements in Ok (Some es)
  end.

(** Insert each parsed list under its canonical name, in range order. *)
Fixpoint buildLists (out : Registry) (lists : list (string * list string)) : res Registry :=
  match lists with
  | [] => Ok out
  | (name, elements) :: rest =>
      let canonical := to_lower (trim_space name) in
      if bool_decide (canonical = "") then
        Err (errNew "acl named list name must not be empty")
      else
        let? list := res_wrap "acl list %q: %w" (ParseMatchList elements) in
        buildLists (<[canonical := default [] list]> out) rest
  end.

(** The loop of [walk] over the entries of one list. *)
Fixpoint walkEntries (rec : string → gset string → option (res (gset string)))
    (es : MatchList) (visited : gset string) : option (res (gset string)) :=
  match es with
  | [] => Some (Ok visited)
  | entryNamed n :: es' =>
      match rec n visited with
      | Some (Ok visited') => walkEntries rec es' visited'
      | r => r
      end
  | _ :: es' => walkEntries rec es' visited
  end.

(** [walk]: depth-first search with the visiting and visited marks; [None] is
    fuel exhaustion. *)
Fixpoint walk (fuel : nat) (named : Registry) (visiting : gset string) (name : string)
    (visited : gset string) : option (res (gset string)) :=
  match fuel with
  | O => None
  | S fuel' =>
      if bool_decide (name ∈ visited) then Some (Ok visited)
      else if bool_decide (name ∈ visiting) then
        Some (Err (errNew "circular acl reference involving %q"))
      else match named !! name with
           | None => Some (Err (errNew "undefined acl %q"))
           | Some list =>
               match walkEntries (walk fuel' named ({[name]} ∪ visiting)) list visited with
               | Some (Ok visited') => Some (Ok ({[name]} ∪ visited'))
               | r => r
               end
           end
  end.

Fixpoint walkAll (fuel : nat) (named : Registry) (names : list string)
    (visited : gset string) : option (res (gset string)) :=
  match names with
  | [] => Some (Ok visited)
  | n :: ns =>
      match walk fuel named ∅ n visited with
      | Some (Ok visited') => walkAll fuel named ns visited'
      | r => r
      end
  end.

Section build.
Context `{MapRange}.

Definition resolveNamedReferences (named : Registry) : option (res (gset string)) :=
  walkAll (S (size named)) named (map fst (range named)) ∅.

Definition BuildNamedLists (lists : gmap string (list string)) : option (res Registry) :=
  match buildLists ∅ (range lists) with
  | Err e => Some (Err e)
  | Ok out =>
      match resolveNamedReferences out with
      | Some (Ok _) => Some (Ok out)
      | Some (Err e) => Some (Err e)
      | None => None
      end
  end.

End build.

Definition ValidateNamedReferences (list : option MatchList) (named : Registry) : option error :=
  match list with
  | None => None
  | Some es =>
      if existsb (λ e, match e with
                       | entryNamed n => bool_decide (named !! n = None)
                       | _ => false end) es
      then Some (errNew "undefined acl %q") else None
  end.

(** ** Matching *)
Definition localhost_net : prefix := Prefix (A4 2130706432) 8.

Definition isLocalhost (a : addr) : bool :=
  if negb (is_valid a) then false
  else if is_loopback a then true
  else if is4 a then prefix_contains localhost_net a
  else false.

(** The entry loop of [MatchList.contains]: the first decisive entry wins. *)
Fixpoint scanEntries (rec : MatchList → option bool) (named : Registry) (a : addr)
    (es : MatchList) : option bool :=
  match es with
  | [] => Some false
  | entryAny :: _ => Some true
  | entryNone :: _ => Some false
  | entryLocalhost :: es' =>
      if isLocalhost a then Some true else scanEntries rec named a es'
  | entryIP p :: es' =>
      if prefix_contains p a then Some true else scanEntries rec named a es'
  | entryNamed n :: es' =>
      match named !! n with
      | None => scanEntries rec named a es'
      | Some ref =>
          match rec ref with
          | Some true => Some true
          | Some false => scanEntries rec named a es'
          | None => None
          end
      end
  end.

(** [MatchList.contains] on a non-nil list; [None] is fuel exhaustion. *)
Fixpoint contains_fuel (fuel : nat) (named : Registry) (a : addr) (ml : MatchList)
    : option bool :=
  match fuel with
  | O => None
  | S fuel' =>
      if negb (is_valid a) then Some false
      else
        let a := unmap a in
        scanEntries (contains_fuel fuel' named a) named a ml
  end.

Definition list_contains (named : Registry) (ml : option MatchList) (a : addr) : bool :=
  match ml with
  | None => true
  | Some ml => default false (contains_fuel (S (size named)) named a ml)
  end.

(** [ACL.Allow] for a [net.IP]; [acl] nil or without a list allows. *)
Definition Allow (acl : option (option MatchList * Registry)) (ip : net_ip) : bool :=
  match acl with
  | None | Some (None, _) => true
  | Some (Some ml, named) =>
      match addr_from_slice ip with
      | None => false
      | Some a => list_contains named (Some ml) (unmap a)
      end
  end.

(** ** The engine *)
Definition normalizeZoneName (name : string) : string :=
  let name := to_lower (trim_space name) in
  if bool_decide (name = "") || bool_decide (name = ".") then "."
  else if negb (has_suffix name ".") then name +:+ "." else name.

Definition NewEngine (named : Registry) (global : PolicySet) (zones : gmap string PolicySet)
    (views : list ViewRule) (defaultView : string) (legacy : option MatchList) : Engine :=
  let defaultView := if bool_decide (defaultView = "") then ViewPublic else defaultView in
  MkEngine named global zones views defaultView legacy.

Definition allow (e : option Engine) (list : option MatchList) (a : addr) : bool :=
  match e with
  | None => true
  | Some e =>
      match list with
      | None => true
      | Some _ =>
          if negb (is_valid a) then false
          else list_contains (named e) list (unmap a)
      end
  end.

(** [AllowQuery] dereferences the engine: callers check for nil. *)
Definition AllowQuery (e : Engine) (a : addr) : bool :=
  allow (Some e) (pAllowQuery (global e)) a.

Definition AllowQueryZone (e : option Engine) (a : addr) (zoneApex : string) : bool :=
  match e with
  | None => true
  | Some en =>
      if negb (AllowQuery en a) then false
      else
        let zoneApex := normalizeZoneName zoneApex in
        if bool_decide (zoneApex = ".") then true
        else match zones en !! zoneApex with
             | None => true
             | Some policy =>
                 match pAllowQuery policy with
                 | None => true
                 | Some _ => allow e (pAllowQuery policy) a
                 end
             end
  end.

Definition AllowRecursion (e : option Engine) (a : addr) : bool :=
  match e with
  | None => true
  | Some en =>
      match pAllowRecursion (global en) with
      | Some _ => allow e (pAllowRecursion (global en)) a
      | None =>
          match legacyRecursion en with
          | Some _ => allow e (legacyRecursion en) a
          | None => false
          end
      end
  end.

Definition AllowTransfer (e : option Engine) (a : addr) (zoneApex : string) : bool :=
  match e with
  | None => false
  | Some en =>
      let zoneApex := normalizeZoneName zoneApex in
      let globalRule :=
        match pAllowTransfer (global en) with
        | Some _ => allow e (pAllowTransfer (global en)) a
        | None => false
        end in
      match zones en !! zoneApex with
      | Some policy =>
          match pAllowTransfer policy with
          | Some _ => allow e (pAllowTransfer policy) a
          | None => globalRule
          end
      | None => globalRule
      end
  end.

Definition parseViewName (name : string) : string :=
  if bool_decide (to_lower (trim_space name) = ViewInternal) then ViewInternal else ViewPublic.

Section ecs.
Context `{DnsMsg}.

Definition extractECSSubnet (req : option msg) : option edns_subnet :=
  match req with
  | None => None
  | Some req =>
      match is_edns0 req with
      | None => None
      | Some opt =>
          (fix first (os : list edns_option) :=
             match os with
             | [] => None
             | OSubnet s :: _ => Some s
             | _ :: os' => first os'
             end) (opt_options opt)
      end
  end.

(** The address of a subnet option, masked to its source prefix length. *)
Definition subnetAddr (subnet : edns_subnet) : option addr :=
  match addr_from_slice (e_address subnet) with
  | None => None
  | Some a =>
      let a := if (0 <? e_netmask subnet)%N then
                 p_addr (masked (prefix_from a (Z.of_N (e_netmask subnet))))
               else a in
      Some (unmap a)
  end.

Definition ecsClientAddr (req : option msg) : option addr :=
  match extractECSSubnet req with
  | None => None
  | Some subnet => subnetAddr subnet
  end.

(** The addresses a rule is tried on. *)
Definition ruleAddrs (rule : ViewRule) (client : addr) (ecs : option addr) : list addr :=
  let candidates := match ecs with Some e => [e; client] | None => [client] end in
  if negb (v_useECS rule) then [client]
  else match ecs with Some e => [e] | None => candidates end.

Fixpoint selectRule (e : Engine) (rules : list ViewRule) (client : addr) (ecs : option addr)
    : string :=
  match rules with
  | [] => defaultView e
  | rule :: rest =>
      if existsb (allow (Some e) (v_match rule)) (ruleAddrs rule client ecs)
      then parseViewName (v_name rule)
      else selectRule e rest client ecs
  end.

Definition SelectView (e : option Engine) (client : addr) (req : option msg) : string :=
  match e with
  | None => ViewPublic
  | Some en =>
      match views en with
      | [] =>
          match legacyRecursion en with
          | Some _ => if allow e (legacyRecursion en) client then ViewInternal else ViewPublic
          | None => ViewPublic
          end
      | rules => selectRule en rules client (ecsClientAddr req)
      end
  end.

End ecs.

(** * Lemmas *)

(** [n]'s list mentions [m]. *)
Definition refs (named : Registry) (n m : string) : Prop :=
  ∃ l, named !! n = Some l ∧ entryNamed m ∈ l.

(** [n] is defined and following references from it ends. *)
Inductive grounded (named : Registry) : string → Prop :=
| grounded_intro n l :
    named !! n = Some l → (∀ m, entryNamed m ∈ l → grounded named m) → grounded named n.

Lemma grounded_acyclic named n : grounded named n → ¬ tc (refs named) n n.
Proof.
  induction 1 as [n l Hl _ IH]. intros Hc.
  assert (∃ m, refs named n m ∧ rtc (refs named) m n) as (m & Hm & Hr).
  { inversion Hc; subst; [by eauto using rtc_refl|]. eauto using tc_rtc. }
  destruct Hm as (l' & Hl' & Hin). assert (l' = l) as -> by congruence.
  apply (IH m Hin). eapply tc_rtc_l; [done|]. apply tc_once. by exists l.
Qed.

Lemma grounded_refs named n m : grounded named n → refs named n m → grounded named m.
Proof. intros [? l Hl Hall] (l' & ? & ?). apply Hall. congruence. Qed.

Lemma size_insert_visiting (named : Registry) (vis : gset string) n :
  n ∈ dom named → n ∉ vis →
  S (size (dom named ∖ ({[n]} ∪ vis))) = size (dom named ∖ vis).
Proof.
  intros. assert (dom named ∖ vis = {[n]} ∪ (dom named ∖ ({[n]} ∪ vis))) as ->.
  { apply set_eq. intros x. destruct (decide (x = n)) as [->|]; set_solver. }
  rewrite (size_union {[n]} (dom named ∖ ({[n]} ∪ vis))) by set_solver.
  by rewrite size_singleton.
Qed.

Section walk.
Variable named : Registry.

Lemma walkEntries_sound rec es vis vis' :
  (∀ n v v', rec n v = Some (Ok v') → (∀ x, x ∈ v → grounded named x) →
    (∀ x, x ∈ v' → grounded named x) ∧ v ⊆ v' ∧ n ∈ v') →
  walkEntries rec es vis = Some (Ok vis') →
  (∀ x, x ∈ vis → grounded named x) →
  (∀ x, x ∈ vis' → grounded named x) ∧ vis ⊆ vis' ∧
  (∀ m, entryNamed m ∈ es → m ∈ vis').
Proof.
  intros Hrec. revert vis. induction es as [|e es IH]; intros vis; cbn [walkEntries].
  { intros [= ->] Hg. split_and!; [done..|]. by intros m ?%elem_of_nil. }
  destruct e as [|n| | |]; intros Hw Hg;
    try (destruct (IH _ Hw Hg) as (? & ? & ?); split_and!; [done..|];
         intros m [|]%elem_of_cons; [done | auto]).
  destruct (rec n vis) as [[v1|]|] eqn:E; [|done..].
  destruct (Hrec _ _ _ E Hg) as (G1 & S1 & I1).
  destruct (IH _ Hw G1) as (G2 & S2 & I2). split_and!; [done | set_solver|].
  intros m [[= ->]|?]%elem_of_cons; [set_solver | auto].
Qed.

Lemma walk_sound fuel visiting n vis vis' :
  walk fuel named visiting n vis = Some (Ok vis') →
  (∀ x, x ∈ vis → grounded named x) →
  (∀ x, x ∈ vis' → grounded named x) ∧ vis ⊆ vis' ∧ n ∈ vis'.
Proof.
  revert visiting n vis vis'. induction fuel as [|fuel IH]; intros visiting n vis vis';
    cbn [walk]; [done|]. case_bool_decide; [by intros [= ->]|].
  case_bool_decide; [done|]. destruct (named !! n) as [l|] eqn:Hl; [|done].
  destruct (walkEntries _ l vis) as [[v1|]|] eqn:E; [|done..]. intros [= <-] Hg.
  destruct (walkEntries_sound _ _ _ _ (λ n v v', IH _ n v v') E Hg) as (G & Hs & Hin).
  split_and!; [|set_solver..].
  intros x [->%elem_of_singleton|?]%elem_of_union; [|auto].
  by apply (grounded_intro _ _ l); auto.
Qed.

Lemma walkEntries_some rec es vis :
  (∀ n v, entryNamed n ∈ es → is_Some (rec n v)) → is_Some (walkEntries rec es vis).
Proof.
  revert vis. induction es as [|e es IH]; intros vis Hrec; cbn [walkEntries]; [done|].
  assert (∀ v, is_Some (walkEntries rec es v)) by (intros v; apply IH; set_solver).
  destruct e as [|n| | |]; auto.
  destruct (Hrec n vis) as [[v|] ->]; [left | auto | by eexists].
Qed.

Lemma walk_some fuel visiting n vis :
  size (dom named ∖ visiting) < fuel → is_Some (walk fuel named visiting n vis).
Proof.
  revert visiting n vis. induction fuel as [|fuel IH]; intros visiting n vis Hf;
    cbn [walk]; [lia|]. case_bool_decide; [by eexists|].
  case_bool_decide as Hv; [by eexists|]. destruct (named !! n) as [l|] eqn:Hl; [|by eexists].
  apply elem_of_dom_2 in Hl.
  destruct (walkEntries_some (walk fuel named ({[n]} ∪ visiting)) l vis) as [[v|] ->];
    [|by eexists..].
  intros m v _. apply IH. pose proof (size_insert_visiting named visiting n Hl Hv). lia.
Qed.

Lemma walkEntries_complete rec es vis r :
  (∀ n v r, entryNamed n ∈ es → rec n v = Some r → is_ok r = true) →
  walkEntries rec es vis = Some r → is_ok r = true.
Proof.
  intros Hrec. revert vis. induction es as [|e es IH]; intros vis; cbn [walkEntries].
  { by intros [= <-]. }
  assert (∀ v, walkEntries rec es v = Some r → is_ok r = true)
    as H by (intros v; apply IH; intros ? ? ? ?; apply Hrec; set_solver).
  destruct e as [p|n| | |]; intros Hw; try (by eapply H).
  destruct (rec n vis) as [[v|]|] eqn:E; [by eapply H| |done].
  injection Hw as <-. apply (Hrec n vis); [set_solver | done].
Qed.

Lemma walk_complete fuel visiting n vis r :
  walk fuel named visiting n vis = Some r → grounded named n →
  (∀ x, x ∈ visiting → tc (refs named) x n) → is_ok r = true.
Proof.
  revert visiting n vis r. induction fuel as [|fuel IH]; intros visiting n vis r;
    cbn [walk]; [done|]. intros Hw Hg Hpath.
  case_bool_decide; [by injection Hw as <-|]. rewrite bool_decide_false in Hw.
  2:{ intros Hin. eapply grounded_acyclic; eauto. }
  destruct Hg as [n l Hl Hall]. rewrite Hl in Hw.
  destruct (walkEntries _ l vis) as [r'|] eqn:E; [|done].
  apply walkEntries_complete in E; [by destruct r'; simplify_eq|].
  intros m v r0 Hm Hw0. eapply IH; [exact Hw0 | auto |].
  assert (refs named n m) by by exists l.
  intros x [->%elem_of_singleton|?]%elem_of_union; [by apply tc_once|].
  eapply tc_r; eauto.
Qed.

Lemma walkAll_ok fuel names vis vis' :
  walkAll fuel named names vis = Some (Ok vis') → (∀ x, x ∈ vis → grounded named x) →
  ∀ n, n ∈ names → grounded named n.
Proof.
  revert vis. induction names as [|m names IH]; intros vis; cbn [walkAll].
  { by intros _ _ n ?%elem_of_nil. }
  destruct (walk _ _ _ _ _) as [[v|]|] eqn:E; [|done..]. intros Hw Hg n Hn.
  apply walk_sound in E as (G & _ & Hin); [|done].
  apply elem_of_cons in Hn as [->|]; eauto.
Qed.

Lemma walkAll_complete fuel names vis :
  size (dom named) < fuel → (∀ n, n ∈ names → grounded named n) →
  ∃ vis', walkAll fuel named names vis = Some (Ok vis').
Proof.
  intros Hf. revert vis. induction names as [|m names IH]; intros vis Hg; cbn [walkAll].
  { by eexists. }
  destruct (walk_some fuel ∅ m vis) as [r Hr]; [by rewrite difference_empty_L|].
  rewrite Hr. apply walk_complete in Hr; [|set_solver..]. destruct r; [|done].
  apply IH. set_solver.
Qed.

(** With every defined name grounded, scanning stays within the fuel. *)
Lemma contains_fuel_some fuel a ml (path : gset string) :
  (∀ n, n ∈ dom named → grounded named n) →
  (∀ m, entryNamed m ∈ ml → ∀ x, x ∈ path → tc (refs named) x m) →
  size (dom named ∖ path) < fuel → is_Some (contains_fuel fuel named a ml).
Proof.
  intros Hg. revert a ml path. induction fuel as [|fuel IH]; intros a ml path Hp Hf;
    cbn [contains_fuel]; [lia|]. destruct (is_valid a); cbn [negb]; [|by eexists].
  induction ml as [|e ml IHml]; cbn [scanEntries]; [by eexists|].
  ospecialize (IHml _); [set_solver|].
  destruct e as [p|n| | |]; [by destruct (prefix_contains _ _); [eexists|]| |
    by eexists.. | by destruct (isLocalhost _); [eexists|]].
  destruct (named !! n) as [ref|] eqn:Hn; [|done].
  apply elem_of_dom_2 in Hn as Hd.
  assert (n ∉ path) as Hni.
  { intros Hin. apply (grounded_acyclic named n (Hg n Hd)). apply Hp; [set_solver | done]. }
  destruct (IH (unmap a) ref ({[n]} ∪ path)) as [[] ->]; [| |by eexists | done].
  - intros m Hm x. assert (refs named n m) by by exists ref.
    intros [->%elem_of_singleton|Hx]%elem_of_union; [by apply tc_once|].
    eapply tc_r; [|done]. apply Hp; [set_solver | done].
  - pose proof (size_insert_visiting named path n Hd Hni). lia.
Qed.

End walk.

(** The verdict of a match list on an address, with no fuel: entries are read
    in order, the first decisive one settles it, and a named entry decides
    when the list it names says yes. *)
Inductive verdict (named : Registry) (a : addr) : MatchList → bool → Prop :=
| v_end : verdict named a [] false
| v_any es : verdict named a (entryAny :: es) true
| v_none es : verdict named a (entryNone :: es) false
| v_local_hit es : isLocalhost a = true → verdict named a (entryLocalhost :: es) true
| v_local_miss es b :
    isLocalhost a = false → verdict named a es b → verdict named a (entryLocalhost :: es) b
| v_ip_hit p es : prefix_contains p a = true → verdict named a (entryIP p :: es) true
| v_ip_miss p es b :
    prefix_contains p a = false → verdict named a es b → verdict named a (entryIP p :: es) b
| v_named_hit n ref es :
    named !! n = Some ref → verdict named a ref true → verdict named a (entryNamed n :: es) true
| v_named_miss n ref es b :
    named !! n = Some ref → verdict named a ref false → verdict named a es b →
    verdict named a (entryNamed n :: es) b
| v_named_undef n es b :
    named !! n = None → verdict named a es b → verdict named a (entryNamed n :: es) b.

Lemma verdict_det named a ml b1 b2 : verdict named a ml b1 → verdict named a ml b2 → b1 = b2.
Proof.
  intros H1. revert b2. induction H1; intros b2 H2; inversion H2; simplify_eq;
    try congruence; eauto.
  all: match goal with
       | Hx : verdict _ _ ?r _, IH : ∀ b', verdict _ _ ?r b' → _ = b' |- _ => by apply IH in Hx
       end.
Qed.

Lemma contains_fuel_verdict fuel named a ml b :
  is_valid a = true → contains_fuel fuel named a ml = Some b → verdict named (unmap a) ml b.
Proof.
  revert a ml b. induction fuel as [|fuel IH]; intros a ml b Hv; cbn [contains_fuel]; [done|].
  rewrite Hv. cbn [negb]. revert b. induction ml as [|e ml IHml]; intros b; cbn [scanEntries].
  { intros [= <-]. constructor. }
  destruct e as [p|n| | |].
  - destruct (prefix_contains p (unmap a)) eqn:E; [intros [= <-]|]; constructor; auto.
  - destruct (named !! n) as [ref|] eqn:Hn; [|intros; apply v_named_undef; auto].
    destruct (contains_fuel fuel named (unmap a) ref) as [[]|] eqn:E; [| |done];
      apply IH in E; rewrite ?unmap_idemp, ?unmap_valid in *; try done.
    + intros [= <-]. by apply (v_named_hit _ _ _ ref).
    + intros. apply (v_named_miss _ _ _ ref); auto.
  - intros [= <-]. constructor.
  - intros [= <-]. constructor.
  - destruct (isLocalhost (unmap a)) eqn:E; [intros [= <-]|]; constructor; auto.
Qed.

Section accepted.
Context `{MapRange}.

Lemma resolve_grounded (named : Registry) :
  (∃ v, resolveNamedReferences named = Some (Ok v)) ↔ ∀ n, n ∈ dom named → grounded named n.
Proof.
  assert (∀ n, n ∈ map fst (range named) ↔ n ∈ dom named) as Hdom.
  { intros n. change (map fst (range named)) with ((range named).*1).
    rewrite range_perm. rewrite elem_of_dom. split.
    - intros ([k v] & -> & Hin)%list_elem_of_fmap. apply elem_of_map_to_list in Hin.
      by eexists.
    - intros [v Hv]. apply list_elem_of_fmap. exists (n, v).
      by rewrite elem_of_map_to_list. }
  unfold resolveNamedReferences. split.
  - intros [v Hw] n Hn. eapply walkAll_ok; [done | set_solver | by apply Hdom].
  - intros Hg. apply walkAll_complete; [rewrite size_dom; lia|].
    intros n Hn. by apply Hg, Hdom.
Qed.

Lemma resolve_some (named : Registry) : is_Some (resolveNamedReferences named).
Proof.
  unfold resolveNamedReferences. generalize (map fst (range named)) as ns. intros ns.
  assert (∀ vis, is_Some (walkAll (S (size named)) named ns vis)) as Hall; [|done].
  induction ns as [|n ns IH]; intros vis; cbn [walkAll]; [by eexists|].
  destruct (walk_some named (S (size named)) ∅ n vis) as [[v|] ->]; [|done|by eexists].
  rewrite difference_empty_L, size_dom. lia.
Qed.

Lemma build_named_some (lists : gmap string (list string)) : is_Some (BuildNamedLists lists).
Proof.
  unfold BuildNamedLists. destruct (buildLists ∅ (range lists)) as [out|e]; [|by eexists].
  destruct (resolve_some out) as [[v|e] ->]; by eexists.
Qed.

Lemma grounded_contains (named : Registry) ml a :
  (∀ n, n ∈ dom named → grounded named n) →
  is_Some (contains_fuel (S (size named)) named a ml).
Proof.
  intros Hg. apply (contains_fuel_some named _ _ _ ∅); [done | set_solver|].
  rewrite difference_empty_L, size_dom. lia.
Qed.

End accepted.

(** * Properties *)

(** [resolveNamedReferences] always answers (the recursion is bounded by
    the number of lists) and accepts a registry exactly when every name is
    defined and no chain of references cycles; the outcome does not depend on
    the order in which Go ranges over the map. *)
Theorem resolve_accepts_acyclic `{MapRange} (named : Registry) :
  (is_Some (resolveNamedReferences named)) ∧
  ((∃ v, resolveNamedReferences named = Some (Ok v)) ↔
   ∀ n, n ∈ dom named → grounded named n).
Proof.
  split; [apply resolve_some | apply resolve_grounded].
Qed.

(** for an accepted registry a match list evaluates to its verdict: no
    chain of named lists exhausts the fuel, and the answer is that of reading
    the entries in order. *)
Theorem list_contains_verdict `{MapRange} (named : Registry) v ml a b :
  resolveNamedReferences named = Some (Ok v) → is_valid a = true →
  list_contains named (Some ml) a = b ↔ verdict named (unmap a) ml b.
Proof.
  intros Hr Hv. destruct (grounded_contains named ml a) as [b' Hb].
  { apply resolve_grounded. eauto. }
  unfold list_contains. rewrite Hb. cbn [default].
  apply contains_fuel_verdict in Hb as Hver; [|done].
  split; [by intros <- | by apply verdict_det].
Qed.

(** query admission is monotone in the zone: whatever a zone policy says,
    a client admitted to a zone passed the global policy, a zone without its
    own list admits exactly those, and an invalid address is refused wherever
    a list is configured. *)
Theorem allow_query_zone_refines (e : Engine) a apex :
  (AllowQueryZone (Some e) a apex = true → AllowQuery e a = true) ∧
  (zones e !! normalizeZoneName apex ≫= pAllowQuery = None →
   AllowQueryZone (Some e) a apex = AllowQuery e a) ∧
  (pAllowQuery (global e) ≠ None → is_valid a = false →
   AllowQueryZone (Some e) a apex = false).
Proof.
  unfold AllowQueryZone. split_and!.
  - by destruct (AllowQuery e a).
  - intros Hz. destruct (AllowQuery e a); cbn [negb]; [|done].
    case_bool_decide; [done|]. destruct (zones e !! _) as [p|]; [|done].
    simpl in Hz. by rewrite Hz.
  - intros Hp Hv. unfold AllowQuery, allow. destruct (pAllowQuery (global e)); [|done].
    by rewrite Hv.
Qed.

(** zone transfer is denied by default and a zone's own list overrides
    the global one. *)
Theorem allow_transfer_precedence (e : Engine) a apex :
  AllowTransfer (Some e) a apex =
    match zones e !! normalizeZoneName apex ≫= pAllowTransfer with
    | Some ml => is_valid a && list_contains (named e) (Some ml) (unmap a)
    | None =>
        match pAllowTransfer (global e) with
        | Some ml => is_valid a && list_contains (named e) (Some ml) (unmap a)
        | None => false
        end
    end ∧ AllowTransfer None a apex = false.
Proof.
  split; [|done]. unfold AllowTransfer, allow.
  destruct (zones e !! _) as [[q r [t|]]|]; cbn; destruct (pAllowTransfer (global e));
    by destruct (is_valid a).
Qed.

(** a view rule without [UseECS] looks at the client address only: when
    no rule uses ECS the view does not depend on the request, against the
    comment of [SelectView] ("or when no rules match on client IP"). *)
Theorem select_view_ignores_ecs `{DnsMsg} (e : Engine) client req :
  Forall (λ r, v_useECS r = false) (views e) →
  SelectView (Some e) client req = SelectView (Some e) client None.
Proof.
  intros Hall. unfold SelectView. destruct (views e) as [|r rs]; [done|].
  revert Hall. generalize (r :: rs) as rules.
  induction rules as [|r' rules IH]; [done|].
  intros [Hr Hrs]%Forall_cons. cbn [selectRule]. rewrite IH by done.
  unfold ruleAddrs. by rewrite Hr.
Qed.

(** an IPv4 client subnet carried in the 16-byte form (the form
    [net.IPv4] gives, which [BuildECSSubnet] stores) is masked as an IPv6
    address: every IPv4 prefix length wipes the whole address, so the view is
    chosen for "::" whatever the client network is. *)
Theorem ecs_ipv4_wiped n bits scope :
  (n < 2 ^ 32)%N → (0 < bits ≤ 32)%N →
  subnetAddr (Subnet 1 bits scope (IP16b (ip16 (A4 n)))) = Some (A6 0 "").
Proof.
  intros Hn [Hb1 Hb2]. unfold subnetAddr. cbn [e_address e_netmask addr_from_slice].
  rewrite (proj2 (N.ltb_lt 0 bits)) by done. unfold prefix_from. cbn [is_valid bit_len].
  rewrite (proj2 (Z.leb_le 0 _)), (proj2 (Z.leb_le _ _)) by lia. cbn [andb].
  unfold masked, prefix_valid. cbn [p_bits p_addr without_zone].
  rewrite (proj2 (Z.leb_le 0 _)) by lia. cbn [p_addr].
  assert (mask_top 128 (Z.to_N (Z.of_N bits)) (ip16 (A4 n)) = 0%N) as ->; [|done].
  unfold mask_top. rewrite N2Z.id.
  assert (N.shiftr (ip16 (A4 n)) (128 - bits) = 0%N) as ->; [|apply N.shiftl_0_l].
  rewrite N.shiftr_div_pow2. apply N.div_small. unfold ip16, v4_mapped_prefix.
  apply N.lt_le_trans with (2 ^ 96)%N; [lia|]. apply N.pow_le_mono_r; lia.
Qed.

(** ** Witnesses *)
Definition demo_registry : Registry :=
  <["office" := [entryIP (Prefix (A4 167772160) 8); entryNamed "lab"]]>
    (<["lab" := [entryLocalhost]]> ∅).

Definition demo_visited : gset string :=
  match resolveNamedReferences demo_registry with Some (Ok v) => v | _ => ∅ end.

Lemma demo_registry_ok : resolveNamedReferences demo_registry = Some (Ok demo_visited).
Proof.
  assert (match resolveNamedReferences demo_registry with
          | Some r => is_ok r | None => false end = true) as Hok by by vm_compute.
  unfold demo_visited. by destruct (resolveNamedReferences demo_registry) as [[]|].
Qed.

Lemma list_contains_verdict_witness :
  verdict demo_registry (A4 2130706433) [entryNamed "office"; entryNone] true.
Proof.
  apply (list_contains_verdict demo_registry demo_visited _ (A4 2130706433));
    [exact demo_registry_ok | by vm_compute | by vm_compute].
Defined.

Definition demo_policy : Engine :=
  NewEngine demo_registry (MkPolicySet (Some [entryAny]) None None)
    (<["corp.test." := MkPolicySet (Some [entryNamed "office"]) None None]> ∅)
    [MkViewRule "internal" (Some [entryNamed "office"]) false] "" None.

Lemma allow_query_zone_refines_witness :
  AllowQueryZone (Some demo_policy) (A4 167772161) "Corp.test" = true ∧
  AllowQuery demo_policy (A4 167772161) = true ∧
  AllowQueryZone (Some demo_policy) (A4 1) "other.test" = AllowQuery demo_policy (A4 1) ∧
  AllowQueryZone (Some demo_policy) AInvalid "other.test" = false.
Proof.
  assert (AllowQueryZone (Some demo_policy) (A4 167772161) "Corp.test" = true) as Hq
    by by vm_compute.
  split_and!; [exact Hq | | |].
  - exact (proj1 (allow_query_zone_refines demo_policy _ "Corp.test") Hq).
  - apply (proj1 (proj2 (allow_query_zone_refines demo_policy (A4 1) "other.test"))).
    by vm_compute.
  - by apply (proj2 (proj2 (allow_query_zone_refines demo_policy AInvalid "other.test"))).
Defined.

Lemma select_view_ignores_ecs_witness :
  SelectView (Some demo_policy) (A4 167772161)
    (Some (set_extra new_msg [RR (Hdr "." TypeOPT 1232 0)
      (DOPT [OSubnet (Subnet 1 24 0 (IP4b 1))])])) = ViewInternal.
Proof.
  rewrite (select_view_ignores_ecs demo_policy); [by vm_compute | by repeat constructor].
Defined.

Lemma ecs_ipv4_wiped_witness :
  subnetAddr (Subnet 1 24 0 (IP16b (ip16 (A4 3405803776)))) = Some (A6 0 "").
Proof. apply (ecs_ipv4_wiped 3405803776 24 0); lia. Defined.

End ACL.
