(* ===== verification/Records.v ===== *)
(** * Record data: internal/storage/records.go

    Building a resource record from API input, the canonical text of its data
    and the quoting of TXT and generic (RFC 3597) data. The record parser
    [mdns.NewRR] and the type tables belong to the class [DnsText]. *)
From S2P Require Import Prelude Utf8 NetAddr Owner Ttl Dns.
Import Owner TTL.

Module Records.

Definition quote : ascii := ascii_of_N 34.
Definition backslash : ascii := ascii_of_N 92.
Definition qs : string := String quote "".
Definition tab : string := String (ascii_of_N 9) "".
Definition generic_mark : string := "\#".

(** ** TXT data *)
Definition validateTXTChunk (chunk : string) : option error :=
  if bool_decide (chunk = "") then Some (errNew "TXT chunk must not be empty")
  else if (255 <? N.of_nat (slen chunk))%N then Some (errNew "TXT chunk exceeds 255 octets")
  else if negb (utf8_valid chunk) then Some (errNew "TXT chunk must be valid UTF-8")
  else None.

Fixpoint validateChunks (chunks : list string) : option error :=
  match chunks with
  | [] => None
  | c :: cs => match validateTXTChunk c with Some e => Some e | None => validateChunks cs end
  end.

(** The inner loop of [splitQuotedTXT]: the runes after an opening quote; the
    text of the chunk and the runes after the closing quote. *)
Fixpoint scanChunk (rs : list (list ascii)) (escaped : bool) (chunk : list ascii)
    : option (list ascii * list (list ascii)) :=
  match rs with
  | [] => None
  | r :: rs' =>
      if escaped then scanChunk rs' false (chunk ++ write_rune r)
      else if bool_decide (r = [backslash]) then scanChunk rs' true chunk
      else if bool_decide (r = [quote]) then Some (chunk, rs')
      else scanChunk rs' false (chunk ++ write_rune r)
  end.

(** The outer loop; [None] is fuel exhaustion. *)
Fixpoint splitLoop (fuel : nat) (rest : string) (chunks : list string)
    : option (res (list string)) :=
  match fuel with
  | O => None
  | S fuel' =>
      match bytes rest with
      | [] => Some (Ok chunks)
      | c :: l =>
          if negb (bool_decide (c = quote)) then
            Some (Err (errNew "TXT value contains unquoted segments; wrap each chunk in double quotes"))
          else match scanChunk (runes l) false [] with
               | None => Some (Err (errNew "TXT value has unterminated quoted string"))
               | Some (chunk, rs) =>
                   splitLoop fuel' (trim_space (mk (concat rs))) (chunks ++ [mk chunk])
               end
      end
  end.

(** Each round consumes a byte, so the fuel is never exhausted:
    [split_loop_some]. *)
Definition splitQuotedTXT (value : string) : res (list string) :=
  let rest := trim_space value in
  default (Err (errNew "out of fuel")) (splitLoop (S (slen rest)) rest []).

Definition parseTXTValue (value : string) : res (list string) :=
  let value := trim_space value in
  if bool_decide (value = "") then Err (errNew "TXT value is required")
  else if has_prefix value qs then
    let? chunks := splitQuotedTXT value in
    if bool_decide (chunks = []) then Err (errNew "TXT value is required")
    else match validateChunks chunks with Some e => Err e | None => Ok chunks end
  else match validateTXTChunk value with Some e => Err e | None => Ok [value] end.

Definition escape_rune (r : list ascii) : list ascii :=
  if bool_decide (r = [backslash]) || bool_decide (r = [quote]) then backslash :: r
  else write_rune r.

Definition escapeTXTChunk (chunk : string) : string :=
  mk (concat (map escape_rune (runes (bytes chunk)))).

Definition formatTXTRdata (chunks : list string) : string :=
  match chunks with
  | [] => ""
  | _ => join (map (λ chunk, qs +:+ escapeTXTChunk chunk +:+ qs) chunks) " "
  end.

Definition formatCAAValue (value : string) : string :=
  if bool_decide (value = "") then qs +:+ qs
  else if contains_any value (" " +:+ tab +:+ qs) then qs +:+ escapeTXTChunk value +:+ qs
  else value.

(** ** Generic data *)
Definition is_hex (c : ascii) : bool := match hex_val c with Some _ => true | None => false end.

Definition parseRFC3597Value (value : string) : res string :=
  let value := trim_space value in
  if bool_decide (value = "") then Err (errNew "RFC 3597 value is required")
  else
    let raw := if has_prefix value generic_mark
               then trim_space (trim_prefix value generic_mark) else value in
    match fields raw with
    | [] => Err (errNew "RFC 3597 value is required")
    | f0 :: fs =>
        let? (declaredLen, hexPayload) :=
          match fs with
          | [] =>
              let hexPayload := to_lower f0 in
              if negb (Nat.even (slen hexPayload)) then
                Err (errNew "RFC 3597 hex data must have an even number of digits")
              else Ok (Z.of_nat (Nat.div2 (slen hexPayload)), hexPayload)
          | _ =>
              match atoi f0 with
              | Some n =>
                  if (n <? 0)%Z || (65535 <? n)%Z then
                    Err (errNew "RFC 3597 length must be an integer between 0 and 65535")
                  else Ok (n, to_lower (join fs ""))
              | None => Err (errNew "RFC 3597 length must be an integer between 0 and 65535")
              end
          end in
        if bool_decide (hexPayload = "") then
          if negb (declaredLen =? 0)%Z then Err (errNew "RFC 3597 hex data is required")
          else Ok "\# 0"
        else if negb (Nat.even (slen hexPayload)) then
          Err (errNew "RFC 3597 hex data must have an even number of digits")
        else if negb (forallb is_hex (bytes hexPayload)) then
          Err (errWrap "RFC 3597 hex data is invalid: %w" (errNew "encoding/hex: invalid byte"))
        else
          let actualLen := Z.of_nat (Nat.div2 (slen hexPayload)) in
          if negb (actualLen =? declaredLen)%Z then
            Err (errNew "RFC 3597 length %d does not match hex data (%d octets)")
          else Ok ("\# " +:+ format_uint (Z.to_N declaredLen) +:+ " " +:+ hexPayload)
    end.

Definition formatRFC3597Rdata (hexdata : string) : string :=
  "\# " +:+ format_uint (N.of_nat (Nat.div2 (slen hexdata))) +:+ " " +:+ hexdata.

(** ** Field parsers *)
Definition parseSOAField (raw field : string) : res N :=
  match ParseBindTTL raw with
  | Ok (seconds, _) => Ok seconds
  | Err _ => Err (errNew ("invalid SOA " +:+ field +:+ " %q"))
  end.

Definition parseSOAValue (value : string) : res soa_data :=
  match fields value with
  | f0 :: f1 :: f2 :: f3 :: f4 :: f5 :: f6 :: _ =>
      let? ns := res_wrap "invalid SOA nameserver: %w" (qualifyHostTarget f0) in
      let? mbox := res_wrap "invalid SOA mailbox: %w" (qualifyHostTarget f1) in
      let? serial := parseSOAField f2 "serial" in
      let? refresh := parseSOAField f3 "refresh" in
      let? retry := parseSOAField f4 "retry" in
      let? expire := parseSOAField f5 "expire" in
      let? minimum := parseSOAField f6 "minimum" in
      Ok (SOAData ns mbox serial refresh retry expire minimum)
  | _ => Err (errNew "SOA value must be ns mbox serial refresh retry expire minimum")
  end.

Definition parseMXValue (value : string) : res (N * string) :=
  match fields value with
  | [f0; f1] =>
      match parse_uint 16 f0 with
      | None => Err (errNew "invalid MX preference %q")
      | Some pref =>
          let? exchanger := res_wrap "invalid MX exchanger: %w" (qualifyHostTarget f1) in
          Ok (pref, exchanger)
      end
  | _ => Err (errNew "MX value must be preference and hostname")
  end.

Definition parseSRVField (raw field : string) : res N :=
  match parse_uint 16 raw with
  | Some n => Ok n
  | None => Err (errNew ("invalid SRV " +:+ field +:+ " %q"))
  end.

Definition parseSRVValue (value : string) : res (N * N * N * string) :=
  match fields value with
  | [f0; f1; f2; f3] =>
      let? priority := parseSRVField f0 "priority" in
      let? weight := parseSRVField f1 "weight" in
      let? port := parseSRVField f2 "port" in
      if (port =? 0)%N then Err (errNew "invalid SRV port: must be between 1 and 65535")
      else
        let? target := res_wrap "invalid SRV target: %w" (qualifyHostTarget f3) in
        Ok (priority, weight, port, target)
  | _ => Err (errNew "SRV value must be priority weight port target")
  end.

(** ** Builders *)
Definition inet (owner : string) (typ ttl : N) : rr_header := Hdr owner typ ClassINET ttl.

Definition buildMXRecord (owner : string) (ttl : N) (value : string) : res rr :=
  let? (preference, exchanger) := parseMXValue value in
  Ok (RR (inet owner TypeMX ttl) (DMX preference exchanger)).

Definition buildTXTRecord (owner : string) (ttl : N) (value : string) : res rr :=
  let? chunks := parseTXTValue value in
  Ok (RR (inet owner TypeTXT ttl) (DTXT chunks)).

Definition buildSRVRecord (owner : string) (ttl : N) (value : string) : res rr :=
  let? (priority, weight, port, target) := parseSRVValue value in
  Ok (RR (inet owner TypeSRV ttl) (DSRV priority weight port target)).

Definition buildNSRecord (owner : string) (ttl : N) (value : string) : res rr :=
  let? target := res_wrap "invalid NS target: %w" (qualifyHostTarget value) in
  Ok (RR (inet owner TypeNS ttl) (Dns.DNS target)).

Definition buildSOARecord (owner : string) (ttl : N) (value : string) : res rr :=
  let? soa := parseSOAValue value in
  Ok (RR (inet owner TypeSOA ttl) (DSOA soa)).

Definition buildPTRRecord (owner : string) (ttl : N) (value : string) : res rr :=
  let? target := res_wrap "invalid PTR target: %w" (qualifyHostTarget value) in
  Ok (RR (inet owner TypePTR ttl) (DPTR target)).

Section text.
Context `{DnsText}.

(** The presentation line handed to [mdns.NewRR]. *)
Definition record_line (owner : string) (ttl : N) (typ value : string) : string :=
  owner +:+ " " +:+ format_uint ttl +:+ " IN " +:+ typ +:+ " " +:+ value.

Definition buildCAARecord (owner : string) (ttl : N) (value : string) : res (option rr) :=
  res_wrap "invalid CAA record: %w" (new_rr (record_line owner ttl "CAA" value)).

Definition buildSVCBRecord (owner : string) (ttl : N) (typ value : string) : res (option rr) :=
  res_wrap "invalid %s record: %w" (new_rr (record_line owner ttl typ value)).

Definition isRFC3597TypeName (typ : string) : bool :=
  if has_prefix typ "TYPE" then true
  else match string_to_type typ with
       | Some _ => false
       | None => bool_decide (is_Some (parse_uint 16 typ))
       end.

Definition buildRFC3597Record (owner : string) (ttl : N) (typ value : string) : res rr :=
  let num := trim_prefix typ "TYPE" in
  if bool_decide (num = "") then Err (errNew "invalid record type %q")
  else match parse_uint 16 num with
       | None => Err (errNew "invalid record type %q")
       | Some typeCode =>
           let? rdata := parseRFC3597Value value in
           let? r := res_wrap "invalid %s record: %w"
                       (new_rr (record_line owner ttl typ rdata)) in
           match r with
           | Some (RR h (DRFC3597 rd)) =>
               if negb (h_rrtype h =? typeCode)%N then Err (errNew "record type mismatch for %s")
               else Ok (RR h (DRFC3597 rd))
           | _ => Err (errNew "%s did not produce an RFC 3597 record")
           end
       end.

(** [NewRR] gives no record and no error for a line that holds none, as a
    comment does, and that is handed on: the result can be nil. *)
Definition some (r : res rr) : res (option rr) := let? r := r in Ok (Some r).

Definition BuildRecord (zoneOrigin : string) (i : RecordInput) : res (option rr) :=
  let? fqdn := qualifyRecordName zoneOrigin (in_name i) in
  let typ := to_upper (trim_space (in_type i)) in
  if bool_decide (typ = "") then Err (errNew "record type is required")
  else
    let value := trim_space (in_value i) in
    if bool_decide (value = "") then Err (errNew "record value is required")
    else
      let? (ttl, ttlText) := ResolveRecordTTL i in
      if bool_decide (typ = "MX") then some (buildMXRecord fqdn ttl value)
      else if bool_decide (typ = "TXT") then some (buildTXTRecord fqdn ttl value)
      else if bool_decide (typ = "SRV") then some (buildSRVRecord fqdn ttl value)
      else if bool_decide (typ = "NS") then some (buildNSRecord fqdn ttl value)
      else if bool_decide (typ = "SOA") then some (buildSOARecord fqdn ttl value)
      else if bool_decide (typ = "PTR") then some (buildPTRRecord fqdn ttl value)
      else if bool_decide (typ = "CAA") then buildCAARecord fqdn ttl value
      else if bool_decide (typ = "SVCB") || bool_decide (typ = "HTTPS") then
        buildSVCBRecord fqdn ttl typ value
      else if isRFC3597TypeName typ then
        let typ := if negb (has_prefix typ "TYPE") then "TYPE" +:+ typ else typ in
        some (buildRFC3597Record fqdn ttl typ value)
      else res_wrap "invalid record: %w" (new_rr (record_line fqdn ttl typ value)).

Definition parseRecordType (typeName : string) : res N :=
  let typeName := to_upper (trim_space typeName) in
  if bool_decide (typeName = "") then Err (errNew "record type is required")
  else if has_prefix typeName "TYPE" then
    let num := trim_prefix typeName "TYPE" in
    if bool_decide (num = "") then Err (errNew "invalid record type %q")
    else match parse_uint 16 num with
         | Some n => Ok n
         | None => Err (errNew "invalid record type %q")
         end
  else match string_to_type typeName with
       | Some qtype => Ok qtype
       | None => Err (errNew "unsupported record type %q")
       end.

Definition rrDataValue (r : rr) : string :=
  match dat r with
  | DA ip => net_ip_string ip
  | DAAAA ip => net_ip_string ip
  | DCNAME target => target
  | DTXT txt => match txt with [] => "" | _ => join txt " " end
  | Dns.DNS ns => ns
  | DMX preference mx => format_uint preference +:+ " " +:+ mx
  | DPTR ptr => ptr
  | DSRV priority weight port target =>
      join [format_uint priority; format_uint weight; format_uint port; target] " "
  | DSOA s =>
      join [s_ns s; s_mbox s; format_uint (s_serial s); format_uint (s_refresh s);
            format_uint (s_retry s); format_uint (s_expire s); format_uint (s_minttl s)] " "
  | DCAA flag tag value => format_uint flag +:+ " " +:+ tag +:+ " " +:+ formatCAAValue value
  | DRFC3597 hexdata => formatRFC3597Rdata hexdata
  | _ =>
      let fs := fields (rr_string r) in
      if (length fs <? 5)%nat then "" else join (drop 4 fs) " "
  end.

Definition recordValuesMatch (r : rr) (want : string) : bool :=
  let got := rrDataValue r in
  match dat r with
  | DRFC3597 hexdata =>
      match parseRFC3597Value want with
      | Ok wantNorm => bool_decide (formatRFC3597Rdata hexdata = wantNorm)
      | Err _ => bool_decide (got = want)
      end
  | _ => bool_decide (got = want)
  end.

End text.

(** ** API payloads: [UnmarshalJSON] on a decoded object, where the raw [ttl]
    member is absent, a JSON number that fits a uint32, a string, or other. *)
Inductive json_ttl := TTLAbsent | TTLNumber (n : N) | TTLString (s : string) | TTLOther.

Definition UnmarshalJSON (name type value view : string) (ttl : json_ttl) : res RecordInput :=
  match ttl with
  | TTLAbsent => Ok (MkRecordInput name type 0 "" value view)
  | TTLNumber n => Ok (MkRecordInput name type n "" value view)
  | TTLString s => Ok (MkRecordInput name type 0 (trim_space s) value view)
  | TTLOther => Err (errNew "ttl must be a number or BIND TTL string")
  end.

(** * Lemmas *)

(** ** TXT *)
Lemma scan_chunk_shorter rs e acc chunk rs' :
  scanChunk rs e acc = Some (chunk, rs') →
  (length (concat rs') ≤ length (concat rs))%nat.
Proof.
  revert e acc. induction rs as [|r rs IH]; intros e acc; cbn [scanChunk]; [done|].
  assert (∀ e' acc', scanChunk rs e' acc' = Some (chunk, rs') →
    length (concat rs') ≤ length (concat (r :: rs)))%nat as Hrec.
  { intros e' acc' E%IH. cbn [concat]. rewrite length_app. lia. }
  destruct e; [apply Hrec|]. case_bool_decide; [apply Hrec|].
  case_bool_decide; [|apply Hrec]. intros [= _ <-]. cbn [concat]. rewrite length_app. lia.
Qed.

Lemma length_drop_while {A} (p : A → bool) l : (length (drop_while p l) ≤ length l)%nat.
Proof. destruct (drop_while_suffix p l) as [k Hk]. rewrite Hk at 2. rewrite length_app. lia. Qed.

Lemma slen_trim_space s : (slen (trim_space s) ≤ slen s)%nat.
Proof.
  unfold slen, trim_space, trim, drop_while_end. rewrite bytes_mk, length_reverse.
  etrans; [apply length_drop_while|]. rewrite length_reverse. apply length_drop_while.
Qed.

Lemma split_loop_some fuel rest chunks :
  (slen rest < fuel)%nat → is_Some (splitLoop fuel rest chunks).
Proof.
  revert rest chunks. induction fuel as [|fuel IH]; intros rest chunks Hf; [lia|].
  cbn [splitLoop]. destruct (bytes rest) as [|c l] eqn:E; [by eexists|].
  case_bool_decide; cbn [negb]; [|by eexists].
  destruct (scanChunk (runes l) false []) as [[chunk rs]|] eqn:Hs; [|by eexists].
  apply IH. apply scan_chunk_shorter in Hs. rewrite concat_runes in Hs.
  pose proof (slen_trim_space (mk (concat rs))) as Ht.
  unfold slen in *. rewrite bytes_mk in Ht. rewrite E in Hf. simpl in Hf. lia.
Qed.

(** The runes an escaped rune is read back as. *)
Definition escaped_runes (r : list ascii) : list (list ascii) :=
  if bool_decide (r = [backslash]) || bool_decide (r = [quote]) then [[backslash]; r] else [r].

Definition escape_bytes (l : list ascii) : list ascii := concat (map escape_rune (runes l)).

Lemma runes_escape l k :
  forallb rune_ok (runes l) = true →
  runes (escape_bytes l ++ k) = concat (map escaped_runes (runes l)) ++ runes k.
Proof.
  unfold escape_bytes.
  induction l as [|r l E Hne IH] using runes_ind; [done|].
  rewrite E. cbn [forallb map concat]. intros [Hr Hl]%andb_true_iff.
  specialize (IH Hl). rewrite <-!app_assoc.
  assert (∀ m, runes (r ++ m) = r :: runes m) as Hcons by by eapply runes_cons_ok.
  unfold escape_rune at 1, escaped_runes at 1.
  destruct (_ || _).
  - cbn [app]. rewrite runes_ascii by done. rewrite Hcons. by rewrite IH.
  - unfold write_rune. rewrite Hr, Hcons. by rewrite IH.
Qed.

Lemma scan_escaped rs acc k :
  forallb rune_ok rs = true →
  scanChunk (concat (map escaped_runes rs) ++ [quote] :: k) false acc
    = Some (acc ++ concat rs, k).
Proof.
  revert acc. induction rs as [|r rs IH]; intros acc; cbn [map concat app scanChunk forallb].
  { intros _. rewrite bool_decide_false by done. rewrite bool_decide_true by done.
    by rewrite app_nil_r. }
  intros [Hr Hrs]%andb_true_iff. unfold escaped_runes at 1.
  destruct (bool_decide (r = [backslash])) eqn:E1;
    [|destruct (bool_decide (r = [quote])) eqn:E2]; bool_hyps; cbn [orb app scanChunk].
  - rewrite bool_decide_true by done. rewrite IH by done. by rewrite <-app_assoc.
  - rewrite bool_decide_true by done. rewrite IH by done. by rewrite <-app_assoc.
  - rewrite !bool_decide_false by done. rewrite IH by done.
    unfold write_rune. by rewrite Hr, <-app_assoc.
Qed.

(** The bytes of a formatted list of chunks. *)
Definition quoted (chunk : string) : list ascii :=
  quote :: escape_bytes (bytes chunk) ++ [quote].

Lemma bytes_format chunks :
  bytes (formatTXTRdata chunks) = join_with [" "%char] (map quoted chunks).
Proof.
  destruct chunks as [|c cs]; [done|]. unfold formatTXTRdata. rewrite bytes_join.
  change (bytes " ") with [" "%char]. f_equal. rewrite map_map. apply map_ext. intros x.
  unfold quoted, qs, escapeTXTChunk. rewrite !bytes_app, bytes_mk. done.
Qed.

Lemma quoted_ends chunks :
  chunks ≠ [] →
  starts_ok is_space (join_with [" "%char] (map quoted chunks)) ∧
  starts_ok is_space (reverse (join_with [" "%char] (map quoted chunks))).
Proof.
  induction chunks as [|c [|d cs] IH]; [done|..]; intros _.
  - cbn [map join_with]. split; [done|]. unfold quoted. by rewrite app_comm_cons, reverse_snoc.
  - change (join_with [" "%char] (map quoted (c :: d :: cs)))
      with (quoted c ++ [" "%char] ++ join_with [" "%char] (map quoted (d :: cs))).
    split; [done|]. rewrite !reverse_app.
    destruct IH as [_ IH]; [done|].
    assert (join_with [" "%char] (map quoted (d :: cs)) ≠ []) as Hne
      by (by destruct cs).
    destruct (reverse (join_with _ _)) eqn:E; [|done].
    apply (f_equal reverse) in E. by rewrite reverse_involutive in E.
Qed.

Definition chunks_ok (chunks : list string) : Prop :=
  Forall (λ c, validateTXTChunk c = None) chunks.

Lemma chunk_runes_ok c : validateTXTChunk c = None → forallb rune_ok (runes (bytes c)) = true.
Proof.
  unfold validateTXTChunk. repeat case_match; try done. by bool_hyps.
Qed.

Lemma split_loop_format chunks fuel acc :
  (length chunks < fuel)%nat → chunks_ok chunks →
  splitLoop fuel (mk (join_with [" "%char] (map quoted chunks))) acc = Some (Ok (acc ++ chunks)).
Proof.
  intros Hf Hok. revert fuel acc Hf. induction Hok as [|c cs Hc Hcs IH]; intros fuel acc Hf.
  { destruct fuel; [lia|]. cbn. by rewrite app_nil_r. }
  destruct fuel as [|fuel]; [lia|]. cbn [splitLoop]. rewrite bytes_mk.
  set (k := match cs with [] => [] | _ => " "%char :: join_with [" "%char] (map quoted cs) end).
  assert (join_with [" "%char] (map quoted (c :: cs)) =
    quote :: escape_bytes (bytes c) ++ quote :: k) as ->.
  { unfold k. destruct cs; cbn [map join_with]; unfold quoted; [done|].
    cbn [app]. f_equal. by rewrite <-app_assoc. }
  rewrite bool_decide_true by done. cbn [negb].
  apply chunk_runes_ok in Hc. rewrite runes_escape by done.
  rewrite (runes_ascii quote) by done. rewrite scan_escaped by done. cbn [app].
  rewrite !concat_runes.
  assert (trim_space (mk k) = mk (join_with [" "%char] (map quoted cs))) as ->.
  { unfold k, trim_space. rewrite bytes_mk. destruct cs as [|d cs]; [done|].
    f_equal. destruct (quoted_ends (d :: cs)) as [S1 S2]; [done|].
    change (trim is_space (" "%char :: join_with [" "%char] (map quoted (d :: cs))))
      with (trim is_space (join_with [" "%char] (map quoted (d :: cs)))).
    by apply trim_id. }
  rewrite IH by (simpl in Hf; lia). by rewrite mk_bytes, <-app_assoc.
Qed.

Lemma validate_chunks_ok chunks : chunks_ok chunks ↔ validateChunks chunks = None.
Proof.
  unfold chunks_ok. induction chunks as [|c cs IH]; cbn [validateChunks]; [done|].
  rewrite Forall_cons, IH. destruct (validateTXTChunk c); naive_solver.
Qed.

Lemma length_quoted chunks :
  (length chunks ≤ length (join_with [" "%char] (map quoted chunks)))%nat.
Proof.
  induction chunks as [|c [|d cs] IH]; [done|simpl; lia|].
  change (join_with [" "%char] (map quoted (c :: d :: cs)))
    with (quoted c ++ [" "%char] ++ join_with [" "%char] (map quoted (d :: cs))).
  rewrite !length_app. cbn [length] in *. lia.
Qed.

(** ** Generic data *)

(** Lower-case hexadecimal text of at least one octet. *)
Definition hex_text (h : string) : Prop :=
  h ≠ "" ∧ to_lower h = h ∧ Nat.even (slen h) = true ∧ forallb is_hex (bytes h) = true.

Lemma hex_not_space c : is_hex c = true → is_space c = false.
Proof.
  unfold is_hex, hex_val. destruct (is_digit c) eqn:Hd; [by rewrite (digit_not_space _ Hd)|].
  unfold is_space. intros Hx.
  assert (65 <= code c)%N as Hc.
  { apply N.le_ngt. intros Hlt.
    rewrite (proj2 (N.leb_gt 97 (code c))) in Hx by lia. cbn [andb] in Hx.
    by rewrite (proj2 (N.leb_gt 65 (code c))) in Hx by lia. }
  rewrite (proj2 (N.leb_gt (code c) 13)) by lia. rewrite andb_false_r. cbn [orb].
  apply N.eqb_neq. lia.
Qed.

Lemma hex_word h : hex_text h → word h.
Proof.
  intros (Hne & _ & _ & Hx). split; [done|]. apply Forall_forall. intros c Hc.
  apply hex_not_space. rewrite forallb_forall in Hx. by apply Hx, list_elem_of_In.
Qed.

Lemma format_words h :
  formatRFC3597Rdata h = join [generic_mark; format_uint (N.of_nat (Nat.div2 (slen h))); h] " ".
Proof. rewrite !join_cons, join_single. done. Qed.

Lemma parse_rfc3597_inv v s :
  parseRFC3597Value v = Ok s → ∃ h, hex_text h ∧ s = formatRFC3597Rdata h.
Proof.
  unfold parseRFC3597Value. case_bool_decide; [done|].
  destruct (fields _) as [|f0 fs] eqn:Ef; [done|].
  pose proof (fields_words (if has_prefix (trim_space v) generic_mark
    then trim_space (trim_prefix (trim_space v) generic_mark) else trim_space v)) as Hw.
  rewrite Ef in Hw. apply Forall_cons in Hw as [[Hf0 _] Hfs].
  set (pre := match fs with [] => _ | _ => _ end).
  destruct pre as [[n h]|e] eqn:Epre; cbn [res_bind]; [|done].
  assert (h ≠ "" ∧ to_lower h = h) as [Hne Hlow].
  { unfold pre in Epre. destruct fs as [|f1 fs].
    - destruct (Nat.even _); cbn [negb] in Epre; [|done]. injection Epre as _ <-.
      split; [|apply to_lower_idemp]. intros E%(f_equal slen). rewrite slen_to_lower in E.
      by destruct f0.
    - destruct (atoi f0); [|done]. destruct (_ || _); [done|]. injection Epre as _ <-.
      split; [|apply to_lower_idemp]. intros E%(f_equal slen). rewrite slen_to_lower in E.
      apply Forall_inv in Hfs as [Hf1 _]. unfold slen in E. rewrite bytes_join in E.
      cbn [map join_with] in E. destruct f1; [done|]. by destruct (map bytes fs). }
  rewrite bool_decide_false by done.
  destruct (Nat.even (slen h)) eqn:He; cbn [negb]; [|done].
  destruct (forallb is_hex (bytes h)) eqn:Hx; cbn [negb]; [|done].
  destruct (_ =? n)%Z eqn:En; cbn [negb]; [|done]. intros [= <-].
  exists h. split; [done|]. apply Z.eqb_eq in En as <-.
  unfold formatRFC3597Rdata. by rewrite <-nat_N_Z, N2Z.id.
Qed.

Lemma parse_rfc3597_format h :
  hex_text h → (N.of_nat (slen h) ≤ 131070)%N →
  parseRFC3597Value (formatRFC3597Rdata h) = Ok (formatRFC3597Rdata h).
Proof.
  intros Hh Hlen. pose proof (hex_word h Hh) as Hhw.
  destruct Hh as (Hne & Hlow & He & Hx).
  set (d := N.of_nat (Nat.div2 (slen h))).
  assert (d <= 65535)%N as Hd.
  { unfold d. pose proof (Nat.div2_odd (slen h)).
    destruct (Nat.odd (slen h)); simpl in *; lia. }
  assert (Forall word [generic_mark; format_uint d; h]) as Hws.
  { apply Forall_cons; split; [split; [done | by repeat constructor]|].
    apply Forall_cons; split; [apply format_uint_word|].
    by apply Forall_cons. }
  unfold parseRFC3597Value. rewrite (trimmed_trim (formatRFC3597Rdata h)).
  2:{ rewrite format_words. by apply join_words_trimmed. }
  rewrite bool_decide_false by done.
  assert (formatRFC3597Rdata h = generic_mark +:+ " " +:+ join [format_uint d; h] " ") as Hs.
  { rewrite join_cons, join_single. done. }
  rewrite Hs, (proj2 (has_prefix_spec _ _)) by eauto. rewrite trim_prefix_app.
  apply Forall_cons in Hws as [_ Hws].
  rewrite trim_space_blank by by apply join_words_trimmed.
  rewrite fields_join by done. rewrite atoi_format_uint by lia.
  rewrite (proj2 (Z.ltb_ge _ _)), (proj2 (Z.ltb_ge _ _)) by lia. cbn [orb res_bind].
  rewrite join_single, Hlow, bool_decide_false, He, Hx by done. cbn [negb].
  unfold d at 1. rewrite nat_N_Z, Z.eqb_refl. cbn [negb].
  rewrite N2Z.id, join_cons, join_single. done.
Qed.

(** ** Host names *)
Lemma contains_any_app s t cs : contains_any (s +:+ t) cs = contains_any s cs || contains_any t cs.
Proof. unfold contains_any. by rewrite bytes_app, existsb_app. Qed.

Definition host_chars : string := " " +:+ tab +:+ "/\".

Lemma lower_host_char c : lower c ∈ bytes host_chars → c ∈ bytes host_chars.
Proof.
  intros Hin. destruct (is_upper c) eqn:Hu; [|by unfold lower in Hin; rewrite Hu in Hin].
  exfalso. assert (is_lower (lower c) = true) as Hl.
  { unfold is_lower. rewrite code_lower, Hu. unfold is_upper in Hu. bool_hyps.
    apply andb_true_iff. split; apply N.leb_le; lia. }
  revert Hl Hin. generalize (lower c) as x. intros x Hl Hin.
  assert (bytes host_chars = [" "%char; ascii_of_N 9; "/"%char; "\"%char]) as E by by vm_compute.
  rewrite E in Hin. clear E.
  do 4 (apply elem_of_cons in Hin as [->|Hin]; [by vm_compute in Hl|]).
  by apply elem_of_nil in Hin.
Qed.

Lemma existsb_false {A} (p : A → bool) l : existsb p l = false ↔ ∀ x, x ∈ l → p x = false.
Proof.
  split.
  - intros H x Hx%list_elem_of_In. apply not_true_iff_false. intros Hp.
    assert (existsb p l = true) as E by (apply existsb_exists; eauto). congruence.
  - intros H. apply not_true_iff_false. intros (x & Hx%list_elem_of_In & Hp)%existsb_exists.
    by rewrite H in Hp.
Qed.

Lemma normalize_host_chars s :
  trimmed s → contains_any s host_chars = false →
  contains_any (NormalizeName s) host_chars = false.
Proof.
  intros Ht Hs. assert (contains_any (to_lower s) host_chars = false) as Hl.
  { unfold contains_any, to_lower in *. rewrite existsb_false in *. rewrite bytes_mk.
    intros x (c & -> & Hc)%list_elem_of_fmap. specialize (Hs c Hc). bool_hyps.
    apply bool_decide_eq_false. intros Hin. by apply Hs, lower_host_char. }
  unfold NormalizeName. rewrite (trimmed_trim s) by done. case_bool_decide; [done|].
  destruct (has_suffix _ _); cbn [negb]; [done|]. rewrite contains_any_app, Hl. done.
Qed.

(** A host name in the form the builders store. *)
Definition host_ok (h : string) : Prop := normal h ∧ contains_any h host_chars = false.

Lemma normal_nonempty h : normal h → h ≠ "".
Proof. intros (_ & _ & Hs)%normal_iff ->. by vm_compute in Hs. Qed.

Lemma qualify_host_ok raw h : qualifyHostTarget raw = Ok h → host_ok h.
Proof.
  unfold qualifyHostTarget. change (" " +:+ String (ascii_of_N 9) "/\") with host_chars. case_bool_decide; [done|].
  destruct (contains_any _ _) eqn:E; [done|]. intros [= <-]. split; [auto with arx|].
  apply normalize_host_chars; [auto with arx | done].
Qed.

Lemma qualify_host_self h : host_ok h → qualifyHostTarget h = Ok h.
Proof.
  intros [Hn Hc]. unfold qualifyHostTarget. change (" " +:+ String (ascii_of_N 9) "/\") with host_chars.
  apply normal_iff in Hn as Hn'. destruct Hn' as (Ht & _).
  rewrite (trimmed_trim _ Ht), bool_decide_false by by apply normal_nonempty.
  by rewrite Hc, Hn.
Qed.


Lemma host_word w h : word w → qualifyHostTarget w = Ok h → word h.
Proof.
  intros Hw. unfold qualifyHostTarget. rewrite (trimmed_trim w) by auto with arx.
  case_bool_decide; [done|]. destruct (contains_any _ _); [done|]. intros [= <-].
  assert (word (to_lower w)) as Hl.
  { destruct Hw as [Hne Hw]. split.
    - intros E%(f_equal slen). rewrite slen_to_lower in E. by destruct w.
    - unfold to_lower. rewrite bytes_mk. apply Forall_map.
      eapply Forall_impl; [exact Hw|]. intros c Hc. cbn. by rewrite lower_is_space. }
  unfold NormalizeName. rewrite (trimmed_trim w) by auto with arx.
  destruct Hl as [Hl1 Hl2]. rewrite bool_decide_false by done.
  destruct (has_suffix _ _); cbn [negb]; [done|]. split.
  - by destruct (to_lower w).
  - rewrite bytes_app. apply Forall_app. by repeat constructor.
Qed.

Lemma qualify_wrap f w h : res_wrap f (qualifyHostTarget w) = Ok h → qualifyHostTarget w = Ok h.
Proof. apply res_wrap_ok. Qed.

Lemma host_again f w h :
  qualifyHostTarget w = Ok h → res_wrap f (qualifyHostTarget h) = Ok h.
Proof. intros H. by rewrite (qualify_host_self h (qualify_host_ok _ _ H)). Qed.

Lemma soa_field_again raw f n : parseSOAField raw f = Ok n → parseSOAField (format_uint n) f = Ok n.
Proof.
  unfold parseSOAField. destruct (ParseBindTTL raw) as [[m t]|] eqn:E; [|done].
  intros [= <-]. apply ParseBindTTL_inv in E as (_ & Hn & _). by rewrite ParseBindTTL_format.
Qed.

Lemma srv_field_again raw f n : parseSRVField raw f = Ok n → parseSRVField (format_uint n) f = Ok n.
Proof.
  unfold parseSRVField. destruct (parse_uint 16 raw) as [m|] eqn:E; [|done].
  intros [= <-]. apply parse_uint_lt in E. by rewrite parse_format_uint.
Qed.

Section builders.
Context `{DnsText}.

(** The value text of a record rebuilds it, and survives [TrimSpace]. *)
Definition rebuilds (build : string → res rr) (r : rr) : Prop :=
  build (rrDataValue r) = Ok r ∧ rrDataValue r ≠ "" ∧ trimmed (rrDataValue r).

Lemma words_value ws :
  Forall word ws → ws ≠ [] → join ws " " ≠ "" ∧ trimmed (join ws " ").
Proof.
  intros Hw Hne. split; [|by apply join_words_trimmed].
  destruct Hw as [|w ws [Hw _] _]; [done|]. intros E%(f_equal bytes).
  rewrite bytes_join in E. cbn [map join_with] in E. rewrite <-bytes_nil in Hw.
  destruct (bytes w); [done|]. by destruct (map bytes ws).
Qed.

Lemma host_value_rebuilds h : host_ok h → h ≠ "" ∧ trimmed h.
Proof. intros [Hn _]. split; [by apply normal_nonempty | apply normal_iff in Hn; tauto]. Qed.

Lemma mx_rebuilds o t v r : buildMXRecord o t v = Ok r → rebuilds (buildMXRecord o t) r.
Proof.
  unfold buildMXRecord, parseMXValue, rebuilds.
  pose proof (fields_words v) as Hw. destruct (fields v) as [|f0 [|f1 [|]]]; try done.
  destruct (parse_uint 16 f0) as [p|] eqn:Hp; [|done].
  destruct (res_wrap _ _) as [h|] eqn:Hh; [|done]. cbn [res_bind]. intros [= <-].
  apply qualify_wrap in Hh. apply Forall_cons in Hw as [_ Hw%Forall_inv].
  assert (rrDataValue (RR (inet o TypeMX t) (DMX p h)) = join [format_uint p; h] " ") as ->.
  { by rewrite join_cons, join_single. }
  assert (Forall word [format_uint p; h]) as Hws.
  { apply Forall_cons; split; [apply format_uint_word|]. apply Forall_cons; split; [|done].
    by eapply host_word. }
  split; [|by apply words_value]. rewrite fields_join by done.
  apply parse_uint_lt in Hp. rewrite parse_format_uint by done.
  by rewrite (host_again _ _ _ Hh).
Qed.

Lemma srv_rebuilds o t v r : buildSRVRecord o t v = Ok r → rebuilds (buildSRVRecord o t) r.
Proof.
  unfold buildSRVRecord, parseSRVValue, rebuilds.
  pose proof (fields_words v) as Hw. destruct (fields v) as [|f0 [|f1 [|f2 [|f3 [|]]]]]; try done.
  destruct (parseSRVField f0 _) as [a|] eqn:Ha; [|done].
  destruct (parseSRVField f1 _) as [b|] eqn:Hb; [|done].
  destruct (parseSRVField f2 _) as [c|] eqn:Hc; [|done]. cbn [res_bind].
  destruct (c =? 0)%N eqn:Hc0; [done|].
  destruct (res_wrap _ _) as [h|] eqn:Hh; [|done]. cbn [res_bind]. intros [= <-].
  apply qualify_wrap in Hh. do 3 apply Forall_cons in Hw as [_ Hw]. apply Forall_inv in Hw.
  assert (Forall word [format_uint a; format_uint b; format_uint c; h]) as Hws.
  { do 3 (apply Forall_cons; split; [apply format_uint_word|]).
    apply Forall_cons; split; [|done]. by eapply host_word. }
  split; [|by apply words_value]. cbn [rrDataValue dat]. rewrite fields_join by done.
  erewrite !srv_field_again by done. cbn [res_bind].
  by rewrite Hc0, (host_again _ _ _ Hh).
Qed.

Lemma soa_rebuilds o t v r : buildSOARecord o t v = Ok r → rebuilds (buildSOARecord o t) r.
Proof.
  unfold buildSOARecord, parseSOAValue, rebuilds.
  pose proof (fields_words v) as Hw.
  destruct (fields v) as [|f0 [|f1 [|f2 [|f3 [|f4 [|f5 [|f6 fs]]]]]]]; try done.
  destruct (res_wrap _ (qualifyHostTarget f0)) as [ns|] eqn:H0; [|done]. cbn [res_bind].
  destruct (res_wrap _ (qualifyHostTarget f1)) as [mb|] eqn:H1; [|done]. cbn [res_bind].
  destruct (parseSOAField f2 _) as [a|] eqn:Ha; [|done]. cbn [res_bind].
  destruct (parseSOAField f3 _) as [b|] eqn:Hb; [|done]. cbn [res_bind].
  destruct (parseSOAField f4 _) as [c|] eqn:Hc; [|done]. cbn [res_bind].
  destruct (parseSOAField f5 _) as [d|] eqn:Hd; [|done]. cbn [res_bind].
  destruct (parseSOAField f6 _) as [e|] eqn:He; [|done]. cbn [res_bind]. intros [= <-].
  apply qualify_wrap in H0, H1. apply Forall_cons in Hw as [W0 [W1 _]%Forall_cons].
  set (ws := [ns; mb; format_uint a; format_uint b; format_uint c; format_uint d; format_uint e]).
  assert (Forall word ws) as Hws.
  { unfold ws. apply Forall_cons; split; [exact (host_word _ _ W0 H0)|].
    apply Forall_cons; split; [exact (host_word _ _ W1 H1)|].
    by repeat (apply Forall_cons; split; [apply format_uint_word|]). }
  split; [|by apply (words_value ws)].
  change (rrDataValue _) with (join ws " "). rewrite fields_join by done. unfold ws.
  rewrite (host_again _ _ _ H0), (host_again _ _ _ H1). cbn [res_bind].
  erewrite soa_field_again by exact Ha. cbn [res_bind].
  erewrite soa_field_again by exact Hb. cbn [res_bind].
  erewrite soa_field_again by exact Hc. cbn [res_bind].
  erewrite soa_field_again by exact Hd. cbn [res_bind].
  by erewrite soa_field_again by exact He.
Qed.

Lemma ns_rebuilds o t v r : buildNSRecord o t v = Ok r → rebuilds (buildNSRecord o t) r.
Proof.
  unfold buildNSRecord, rebuilds. destruct (res_wrap _ _) as [h|] eqn:Hh; [|done].
  intros [= <-]. apply qualify_wrap in Hh. cbn [rrDataValue dat].
  rewrite (host_again _ _ _ Hh). split; [done|]. eapply host_value_rebuilds, qualify_host_ok, Hh.
Qed.

Lemma ptr_rebuilds o t v r : buildPTRRecord o t v = Ok r → rebuilds (buildPTRRecord o t) r.
Proof.
  unfold buildPTRRecord, rebuilds. destruct (res_wrap _ _) as [h|] eqn:Hh; [|done].
  intros [= <-]. apply qualify_wrap in Hh. cbn [rrDataValue dat].
  rewrite (host_again _ _ _ Hh). split; [done|]. eapply host_value_rebuilds, qualify_host_ok, Hh.
Qed.

End builders.

(** The builders put the record under their owner, in class IN. *)
Definition built (o : string) (t : N) (r : rr) : Prop :=
  name_of r = o ∧ class_of r = ClassINET ∧ ttl_of r = t.

Lemma mx_built o t v r : buildMXRecord o t v = Ok r → built o t r.
Proof. unfold buildMXRecord. destruct (parseMXValue v) as [[]|]; [by intros [= <-]|done]. Qed.
Lemma srv_built o t v r : buildSRVRecord o t v = Ok r → built o t r.
Proof.
  unfold buildSRVRecord. destruct (parseSRVValue v) as [[[[]]]|]; [by intros [= <-]|done].
Qed.
Lemma ns_built o t v r : buildNSRecord o t v = Ok r → built o t r.
Proof. unfold buildNSRecord. destruct (res_wrap _ _); [by intros [= <-]|done]. Qed.
Lemma soa_built o t v r : buildSOARecord o t v = Ok r → built o t r.
Proof. unfold buildSOARecord. destruct (parseSOAValue v); [by intros [= <-]|done]. Qed.
Lemma ptr_built o t v r : buildPTRRecord o t v = Ok r → built o t r.
Proof. unfold buildPTRRecord. destruct (res_wrap _ _); [by intros [= <-]|done]. Qed.

(** One branch of [BuildRecord], taken again with the value of its result. *)
Lemma rebuilt `{DnsText} (build : string → N → string → res rr) o t v r
    (text : string) (q : res string) (res0 : res (N * string)) :
  (∀ o t v r, build o t v = Ok r → rebuilds (build o t) r) →
  (if bool_decide (v = "") then Err (errNew "record value is required") else some (build o t v)) = Ok (Some r) →
  (∀ o t v r, build o t v = Ok r → built o t r) →
  q = Ok o → res0 = Ok (t, text) →
  (if bool_decide (trim_space (rrDataValue r) = "") then Err (errNew "record value is required")
   else some (build o t (trim_space (rrDataValue r)))) = Ok (Some r) ∧
  class_of r = ClassINET ∧ q = Ok (name_of r) ∧ ∃ text', res0 = Ok (ttl_of r, text').
Proof.
  intros Hre Hb Hbt -> ->. case_bool_decide; [done|]. unfold some in *.
  destruct (build o t v) as [r0|] eqn:Hb0; cbn [res_bind] in Hb; [|done]. injection Hb as ->. rename Hb0 into Hb.
  destruct (Hre _ _ _ _ Hb) as (Hv & Hne & Ht). rewrite (trimmed_trim _ Ht).
  rewrite bool_decide_false by done. rewrite Hv. destruct (Hbt _ _ _ _ Hb) as (-> & -> & ->). eauto 6.
Qed.

(** The payload with another value. *)
Definition with_value (i : RecordInput) (v : string) : RecordInput :=
  MkRecordInput (in_name i) (in_type i) (in_ttl i) (in_ttl_text i) v (in_view i).

(** The types the server builds field by field, TXT apart. *)
Definition field_types : list string := ["MX"; "SRV"; "NS"; "SOA"; "PTR"].

(** * Properties *)

(** TXT data survives the zone file: any list of valid chunks (1 to 255
    octets of UTF-8, quotes, backslashes and blanks included) is read back
    from its quoted text exactly, and whatever text [parseTXTValue] accepts
    yields valid chunks. *)
Theorem txt_roundtrip :
  (∀ chunks, chunks ≠ [] → chunks_ok chunks →
     parseTXTValue (formatTXTRdata chunks) = Ok chunks) ∧
  (∀ value chunks, parseTXTValue value = Ok chunks → chunks ≠ [] ∧ chunks_ok chunks).
Proof.
  split.
  - intros chunks Hne Hok. unfold parseTXTValue.
    assert (trimmed (formatTXTRdata chunks)) as Ht.
    { unfold trimmed. rewrite bytes_format. by apply quoted_ends. }
    rewrite (trimmed_trim _ Ht).
    assert (∃ l, bytes (formatTXTRdata chunks) = quote :: l) as [l El].
    { rewrite bytes_format. destruct chunks as [|c [|d cs]]; [done|..];
        cbn [map join_with]; unfold quoted at 1; cbn [app]; by eexists. }
    rewrite bool_decide_false by (intros E; by rewrite E in El).
    assert (has_prefix (formatTXTRdata chunks) qs = true) as ->.
    { apply bool_decide_true. rewrite El. by exists l. }
    unfold splitQuotedTXT. rewrite (trimmed_trim _ Ht).
    assert (slen (formatTXTRdata chunks) = length (join_with [" "%char] (map quoted chunks))) as ->.
    { unfold slen. by rewrite bytes_format. }
    rewrite <-(mk_bytes (formatTXTRdata chunks)), bytes_format.
    rewrite split_loop_format; [|pose proof (length_quoted chunks); lia | done].
    cbn [from_option id app res_bind]. rewrite bool_decide_false by done.
    by rewrite (proj1 (validate_chunks_ok _) Hok).
  - intros value chunks. unfold parseTXTValue. case_bool_decide; [done|].
    destruct (has_prefix _ _).
    + destruct (splitQuotedTXT _) as [cs|]; cbn [res_bind]; [|done].
      case_bool_decide; [done|]. destruct (validateChunks cs) eqn:Hv; [done|].
      intros [= <-]. split; [done|]. by apply validate_chunks_ok.
    + destruct (validateTXTChunk _) eqn:Hv; [done|]. intros [= <-]. split; [done|].
      by constructor.
Qed.

(** generic RDATA is normalised: what [parseRFC3597Value] returns is the
    canonical text of a whole number of octets in lower-case hexadecimal, the
    form the store prints, and parsing that text again changes nothing as long
    as the length fits the 65535 octets of the wire format. *)
Theorem rfc3597_normal_form v s :
  parseRFC3597Value v = Ok s →
  ∃ h, hex_text h ∧ s = formatRFC3597Rdata h ∧
    ((N.of_nat (slen h) ≤ 131070)%N → parseRFC3597Value s = Ok s).
Proof.
  intros (h & Hh & ->)%parse_rfc3597_inv. exists h. split_and!; [done..|].
  by apply parse_rfc3597_format.
Qed.

(** editing a record with the value the API shows for it changes nothing:
    for the types the server builds field by field, building again from the
    canonical value gives the same record, in class IN, under the qualified
    owner and with the TTL resolved from the payload. *)
Theorem build_value_roundtrip `{DnsText} o i r :
  to_upper (trim_space (in_type i)) ∈ field_types →
  BuildRecord o i = Ok (Some r) →
  BuildRecord o (with_value i (rrDataValue r)) = Ok (Some r) ∧
  class_of r = ClassINET ∧ qualifyRecordName o (in_name i) = Ok (name_of r) ∧
  ∃ text, ResolveRecordTTL i = Ok (ttl_of r, text).
Proof.
  intros Hty. unfold BuildRecord. cbn [in_name in_type in_value with_value].
  destruct (qualifyRecordName o (in_name i)) as [fqdn|] eqn:Hq; cbn [res_bind]; [|done].
  set (typ := to_upper (trim_space (in_type i))) in *.
  destruct (bool_decide (typ = "")); [done|].
  assert (ResolveRecordTTL (with_value i (rrDataValue r)) = ResolveRecordTTL i) as -> by done.
  destruct (ResolveRecordTTL i) as [[ttl text]|] eqn:Ht; cbn [res_bind]; [|by case_bool_decide].
  clearbody typ. unfold field_types in Hty.
  repeat (apply elem_of_cons in Hty as [->|Hty]); [..|by apply elem_of_nil in Hty];
    decide_strings; intros Hb.
  - by eapply rebuilt; [apply mx_rebuilds | exact Hb | apply mx_built|reflexivity|reflexivity].
  - by eapply rebuilt; [apply srv_rebuilds | exact Hb | apply srv_built|reflexivity|reflexivity].
  - by eapply rebuilt; [apply ns_rebuilds | exact Hb | apply ns_built|reflexivity|reflexivity].
  - by eapply rebuilt; [apply soa_rebuilds | exact Hb | apply soa_built|reflexivity|reflexivity].
  - by eapply rebuilt; [apply ptr_rebuilds | exact Hb | apply ptr_built|reflexivity|reflexivity].
Qed.

(** ** Witnesses *)
Definition demo_chunks : list string :=
  ["v=spf1 -all"; "a" +:+ qs +:+ String backslash "b "].

Lemma txt_roundtrip_witness : parseTXTValue (formatTXTRdata demo_chunks) = Ok demo_chunks.
Proof.
  apply (proj1 txt_roundtrip); [done | repeat constructor; by vm_compute].
Defined.

Lemma rfc3597_normal_form_witness :
  ∃ h, hex_text h ∧ "\# 3 abcdef" = formatRFC3597Rdata h ∧
    ((N.of_nat (slen h) ≤ 131070)%N → parseRFC3597Value "\# 3 abcdef" = Ok "\# 3 abcdef").
Proof. apply (rfc3597_normal_form " \# 3 AB CDEF "). by vm_compute. Defined.

(** The zero-length form the code means to produce is not accepted. *)
Lemma rfc3597_zero_refused :
  parseRFC3597Value "\# 0" =
    Err (errNew "RFC 3597 hex data must have an even number of digits").
Proof. by vm_compute. Qed.

Definition demo_mx_input : RecordInput :=
  MkRecordInput "@" "mx" 0 "1h" "10 Mail.Example.COM" "".
Definition demo_mx : rr :=
  RR (inet "example.com." TypeMX 3600) (DMX 10 "mail.example.com.").

Lemma build_value_roundtrip_witness :
  BuildRecord "example.com" (with_value demo_mx_input (rrDataValue demo_mx)) = Ok (Some demo_mx) ∧
  class_of demo_mx = ClassINET ∧
  qualifyRecordName "example.com" (in_name demo_mx_input) = Ok (name_of demo_mx) ∧
  ∃ text, ResolveRecordTTL demo_mx_input = Ok (ttl_of demo_mx, text).
Proof.
  apply (build_value_roundtrip "example.com" demo_mx_input demo_mx).
  - change (to_upper (trim_space (in_type demo_mx_input))) with "MX". by left.
  - by vm_compute.
Defined.

(** The type names of the example instance read back as their types. *)
Lemma upper_digit c : is_digit c = true → upper c = c.
Proof.
  unfold is_digit, upper, is_lower. intros. bool_hyps.
  by rewrite (proj2 (N.leb_gt 97 (code c))) by lia.
Qed.

Lemma demo_types_read_back t q : parseRecordType (type_string t) = Ok q → q = t.
Proof.
  cbn [type_string demo_dns_text].
  destruct (List.find (λ p, (fst p =? t)%N) demo_type_table) as [[n s]|] eqn:E.
  - apply List.find_some in E as [Hin Hn]. cbn [fst] in Hn. apply N.eqb_eq in Hn as ->.
    cbn [snd]. unfold demo_type_table in Hin. cbn [In] in Hin.
    repeat (destruct Hin as [[= <- <-]|Hin]; [by vm_compute; intros [= <-]|]). done.
  - intros H. clear E. destruct (format_uint_digits t) as (Hv & Hd & Hne).
    assert (to_upper (trim_space ("TYPE" +:+ format_uint t)) = "TYPE" +:+ format_uint t) as Hu.
    { rewrite trimmed_trim.
      2:{ apply trimmed_app; [repeat constructor|auto with arx|done|apply format_uint_word]. }
      apply bytes_inj. unfold to_upper. rewrite bytes_mk, !bytes_app, map_app. f_equal.
      clear Hv Hne H. induction Hd as [|c l Hc _ IH]; [done|]. cbn. by rewrite IH, upper_digit. }
    unfold parseRecordType in H. rewrite Hu in H.
    rewrite bool_decide_false in H by done.
    rewrite (proj2 (has_prefix_spec _ _)) in H by eauto. rewrite trim_prefix_app in H.
    case_bool_decide; [done|]. destruct (parse_uint 16 (format_uint t)) as [n|] eqn:Ep; [|done].
    injection H as <-. apply parse_uint_digits in Ep as [Ed _]; [congruence | done].
Qed.

End Records.
