(* ===== verification/Sorting.v ===== *)
(** * sort.Slice

    Go's [sort.Slice] orders a slice by a strict weak order, in an unspecified
    way among equivalent elements: the sources are proved against the class
    [SortSlice]; the instance is an insertion sort that evaluates witnesses. *)
From S2P Require Import Prelude.

(** What [sort.Slice] asks of its [less] argument. *)
Record strict_weak {A} (less : A → A → bool) : Prop := {
  sw_irrefl : ∀ x, less x x = false;
  sw_trans : ∀ x y z, less x y = true → less y z = true → less x z = true;
  sw_incomp : ∀ x y z, less x y = false → less y x = false →
    less y z = false → less z y = false → less x z = false ∧ less z x = false
}.

(** No later element is less than an earlier one. *)
Definition sorted_by {A} (less : A → A → bool) (l : list A) : Prop :=
  ∀ i j x y, i < j → l !! i = Some x → l !! j = Some y → less y x = false.

Class SortSlice := {
  sort_slice : ∀ {A}, (A → A → bool) → list A → list A;
  sort_slice_perm : ∀ {A} (less : A → A → bool) l, sort_slice less l ≡ₚ l;
  sort_slice_sorted : ∀ {A} (less : A → A → bool) l,
    strict_weak less → sorted_by less (sort_slice less l)
}.

(** ** Insertion sort *)
Fixpoint insert_sorted {A} (less : A → A → bool) (x : A) (l : list A) : list A :=
  match l with
  | [] => [x]
  | y :: l' => if less y x then y :: insert_sorted less x l' else x :: l
  end.
Fixpoint insertion_sort {A} (less : A → A → bool) (l : list A) : list A :=
  match l with
  | [] => []
  | x :: l' => insert_sorted less x (insertion_sort less l')
  end.

Lemma insert_sorted_perm {A} less (x : A) l : insert_sorted less x l ≡ₚ x :: l.
Proof.
  induction l as [|y l IH]; cbn [insert_sorted]; [done|].
  destruct (less y x); [|done]. rewrite IH. constructor.
Qed.

Lemma insertion_sort_perm {A} less (l : list A) : insertion_sort less l ≡ₚ l.
Proof.
  induction l as [|x l IH]; cbn [insertion_sort]; [done|]. by rewrite insert_sorted_perm, IH.
Qed.

Lemma sorted_by_cons {A} less (x : A) l :
  sorted_by less (x :: l) ↔ (∀ y, y ∈ l → less y x = false) ∧ sorted_by less l.
Proof.
  split.
  - intros H. split.
    + intros y [i Hi]%list_elem_of_lookup. by apply (H 0 (S i)); [lia|..].
    + intros i j a b Hij Ha Hb. by apply (H (S i) (S j)); [lia|..].
  - intros [H1 H2] [|i] [|j] a b Hij Ha Hb; [lia| |lia|].
    + simpl in Ha, Hb. simplify_eq. apply H1. apply list_elem_of_lookup. eauto.
    + apply (H2 i j); [lia | done..].
Qed.

(** For a strict weak order, [not less] is transitive. *)
Lemma not_less_trans {A} (less : A → A → bool) x y z :
  strict_weak less → less y x = false → less z y = false → less z x = false.
Proof.
  intros [Hi Ht Hc] Hyx Hzy. destruct (less z x) eqn:Hzx; [|done]. exfalso.
  destruct (less x y) eqn:Hxy.
  - assert (less z y = true) by eauto. congruence.
  - destruct (less y z) eqn:Hyz.
    + assert (less y x = true) by eauto. congruence.
    + destruct (Hc x y z) as [_ ?]; [done..|]. congruence.
Qed.

Lemma insertion_sort_sorted {A} (less : A → A → bool) l :
  strict_weak less → sorted_by less (insertion_sort less l).
Proof.
  intros Hsw. induction l as [|x l IH]; cbn [insertion_sort]; [intros ????; done|].
  revert IH. generalize (insertion_sort less l) as k. intros k.
  induction k as [|y k IHk]; cbn [insert_sorted]; intros Hs.
  { apply sorted_by_cons. split; [by intros ? ?%elem_of_nil | done]. }
  apply sorted_by_cons in Hs as Hs'. destruct Hs' as [Hy Hk].
  destruct (less y x) eqn:E.
  - apply sorted_by_cons. split; [|by apply IHk].
    intros z. rewrite insert_sorted_perm. intros [->|Hz]%elem_of_cons; [|by apply Hy].
    destruct (less x y) eqn:E2; [|done].
    by rewrite (sw_trans less Hsw _ _ _ E2 E) in E || (exfalso;
      pose proof (sw_trans less Hsw _ _ _ E2 E) as Hxx; rewrite (sw_irrefl less Hsw) in Hxx).
  - apply sorted_by_cons. split; [|done].
    intros z [->|Hz]%elem_of_cons; [done|].
    by apply (not_less_trans less x y z Hsw); [|apply Hy].
Qed.

#[export] Program Instance insertion_sort_slice : SortSlice | 100 :=
  {| sort_slice A := insertion_sort |}.
Next Obligation. intros. apply insertion_sort_perm. Qed.
Next Obligation. intros. by apply insertion_sort_sorted. Qed.

Lemma sort_slice_elem `{SortSlice} {A} (less : A → A → bool) l x :
  x ∈ sort_slice less l ↔ x ∈ l.
Proof. by rewrite sort_slice_perm. Qed.

(** A total order leaves the sort no choice. *)
Lemma sorted_by_unique {A} (less : A → A → bool) l k :
  (∀ x y, less x y = false → less y x = false → x = y) →
  sorted_by less l → sorted_by less k → l ≡ₚ k → l = k.
Proof.
  intros Ht. revert k. induction l as [|x l IH]; intros k Hl Hk Hp.
  { symmetry in Hp. by apply Permutation_nil_r in Hp as ->. }
  destruct k as [|y k]; [by apply Permutation_nil_r in Hp|].
  apply sorted_by_cons in Hl as [Hx Hl], Hk as [Hy Hk].
  assert (x = y) as ->.
  { assert (H1 : x ∈ y :: k) by (rewrite <-Hp; left).
    assert (H2 : y ∈ x :: l) by (rewrite Hp; left).
    apply elem_of_cons in H1 as [?|H1]; [done|]. apply elem_of_cons in H2 as [?|H2]; [done|].
    apply Ht; auto. }
  f_equal. apply IH; [done..|]. by apply Permutation_cons_inv in Hp.
Qed.
