(* ===== verification/Tree.v ===== *)
(** * Zone trees: internal/storage/tree.go and the lookups of memory.go

    A tree maps a normalized owner name to its RRsets by type. The trees are
    radix trees; a value [map[uint16][]mdns.RR] is a [gmap]. Every tree the
    functions below change is private to its caller (a clone or a tree under
    construction), so updating a value in place and inserting it again is
    [radix_insert] of the new value. Nil trees and records do not occur. *)
From S2P Require Import Prelude Radix NetAddr Names Owner Records Sorting Dns.
Import Owner Records.

Module Tree.

Abbreviation byType := (gmap N (list rr)).

Inductive LookupStatus := LookupNotFound | LookupNodata | LookupFound.

#[export] Instance LookupStatus_eq_dec : EqDecision LookupStatus.
Proof. solve_decision. Defined.

Section tree.
Context {T : Type → Type} {RO : RadixOps T} `{MapRange}.

(** The RRsets of a name one after the other, in the order of the range. *)
Definition allRRs (m : byType) : list rr := concat (map snd (range m)).

Definition copyByType (m : byType) : byType := list_to_map (range m).

Definition cloneTree (tree : T byType) : T byType :=
  radix_insert_all radix_new (map (λ kv, (kv.1, copyByType kv.2)) (radix_walk tree)).

Definition insertRR (tree : T byType) (r : rr) : T byType :=
  let name := NormalizeName (name_of r) in
  let m := default ∅ (radix_get tree name) in
  radix_insert tree name (<[type_of r := default [] (m !! type_of r) ++ [r]]> m).

Definition lookupInTree (tree : T byType) (name : string) (qtype : N)
    : list rr * LookupStatus :=
  match radix_get tree (NormalizeName name) with
  | None => ([], LookupNotFound)
  | Some m =>
      match m !! qtype with
      | None | Some [] => ([], LookupNodata)
      | Some rrs => (rrs, LookupFound)
      end
  end.

Definition nameExistsInTree (tree : T byType) (name : string) : bool :=
  bool_decide (is_Some (radix_get tree (NormalizeName name))).

Definition lookupAllAtName (tree : T byType) (name : string) : list rr * LookupStatus :=
  match radix_get tree (NormalizeName name) with
  | None => ([], LookupNotFound)
  | Some m => match allRRs m with [] => ([], LookupNodata) | out => (out, LookupFound) end
  end.

Definition collectZoneRecords (tree : T byType) (origin : string) : list rr :=
  concat (map (λ kv, if isNameInZone kv.1 origin then allRRs kv.2 else [])
              (radix_walk tree)).

Definition countZoneRecords (tree : T byType) (origin : string) : nat :=
  length (collectZoneRecords tree origin).

Definition zoneHasSOA (tree : T byType) (origin : string) : bool :=
  bool_decide ((lookupInTree tree origin TypeSOA).2 = LookupFound).

(** Deleting an emptied name, storing the others. *)
Definition storeOrDelete (tree : T byType) (name : string) (m : byType) : T byType :=
  if bool_decide (m = ∅) then radix_delete tree name else radix_insert tree name m.

Definition removeMatchingRR `{DnsText} (tree : T byType) (name : string) (qtype : N)
    (value : string) : bool * T byType :=
  let name := NormalizeName name in
  match radix_get tree name with
  | None => (false, tree)
  | Some m =>
      match m !! qtype with
      | None | Some [] => (false, tree)
      | Some rrs =>
          let wantValue := trim_space value in
          let kept := List.filter (λ r, negb (recordValuesMatch r wantValue)) rrs in
          if negb (existsb (λ r, recordValuesMatch r wantValue) rrs) then (false, tree)
          else
            let m := match kept with [] => delete qtype m | _ => <[qtype := kept]> m end in
            (true, storeOrDelete tree name m)
      end
  end.

Definition removeRRset (tree : T byType) (name : string) (qtype : N) : bool * T byType :=
  let name := NormalizeName name in
  match radix_get tree name with
  | None => (false, tree)
  | Some m =>
      if bool_decide (qtype = TypeANY) then (true, radix_delete tree name)
      else match m !! qtype with
           | None => (false, tree)
           | Some _ => (true, storeOrDelete tree name (delete qtype m))
           end
  end.

Definition removeAllAtName (tree : T byType) (name : string) : bool * T byType :=
  let name := NormalizeName name in
  match radix_get tree name with
  | None => (false, tree)
  | Some _ => (true, radix_delete tree name)
  end.

Definition rrExists `{DnsText} (tree : T byType) (r : rr) : bool :=
  match lookupInTree tree (name_of r) (type_of r) with
  | (rrs, LookupFound) => existsb (λ candidate, is_duplicate candidate r) rrs
  | _ => false
  end.

Definition rrsetExists (tree : T byType) (name : string) (qtype : N) : bool :=
  bool_decide ((lookupInTree tree name qtype).2 = LookupFound).

(** The names of a zone, in walk order. *)
Definition zoneNames (tree : T byType) (origin : string) : list string :=
  List.filter (λ name, isNameInZone name origin) (map fst (radix_walk tree)).

(** [removeZoneFromTree] (zones_crud.go) and [stripAllZoneRecords] (dnssec.go). *)
Definition removeZoneFromTree (tree : T byType) (origin : string) : T byType :=
  let origin := NormalizeName origin in
  radix_delete_all tree (zoneNames tree origin).

Definition stripAllZoneRecords (tree : T byType) (origin : string) : T byType :=
  radix_delete_all tree (zoneNames tree origin).

Definition stripName (tree : T byType) (name : string) : T byType :=
  match radix_get tree name with
  | None => tree
  | Some m =>
      storeOrDelete tree name (delete TypeDNSKEY (delete TypeNSEC (delete TypeRRSIG m)))
  end.

Definition stripDNSSECRecords (tree : T byType) (origin : string) : T byType :=
  foldl stripName tree (zoneNames tree origin).

Definition applySignedRecords (tree : T byType) (origin : string) (signed : list rr) : T byType :=
  foldl insertRR (stripAllZoneRecords tree origin) signed.

(** The order of [ZoneRecords] and [WriteZoneFile]. *)
Definition recordLess `{DnsText} (left right : rr) : bool :=
  if negb (bool_decide (name_of left = name_of right)) then str_lt (name_of left) (name_of right)
  else if negb (type_of left =? type_of right)%N then (type_of left <? type_of right)%N
  else str_lt (rrDataValue left) (rrDataValue right).

Definition sortedZoneRecords `{DnsText} `{SortSlice} (tree : T byType) (origin : string) : list rr :=
  sort_slice recordLess (collectZoneRecords tree origin).

Fixpoint zoneTTLFromRecords (records : list rr) : N :=
  match records with
  | [] => 300%N
  | r :: rest =>
      match dat r with
      | DSOA _ =>
          if (type_of r =? TypeSOA)%N && (0 <? ttl_of r)%N then ttl_of r
          else zoneTTLFromRecords rest
      | _ => zoneTTLFromRecords rest
      end
  end.

End tree.

(** * The abstract store: an RRset for every name and type *)
Definition rrset {T} `{RadixOps T, !RadixLaws T} (t : T byType) (name : string) (q : N) : list rr :=
  default [] (contents t !! name ≫= (.!! q)).

(** A value holds records of its name only, under their type, no list empty. *)
Definition wf_value (name : string) (m : byType) : Prop :=
  m ≠ ∅ ∧ map_Forall (λ q rrs, rrs ≠ [] ∧
    Forall (λ r, NormalizeName (name_of r) = name ∧ type_of r = q) rrs) m.

Definition wf_tree {T} `{RadixOps T, !RadixLaws T} (t : T byType) : Prop :=
  map_Forall (λ name m, normal name ∧ wf_value name m) (contents t).

(** * Lemmas *)
Section lemmas.
Context {T : Type → Type} {RO : RadixOps T} {RL : RadixLaws T} {MR : MapRange}.
Implicit Types t : T byType.

Lemma copyByType_id m : copyByType m = m.
Proof.
  unfold copyByType. rewrite (list_to_map_proper _ (map_to_list m)).
  - apply list_to_map_to_list.
  - rewrite range_perm. apply NoDup_fst_map_to_list.
  - apply range_perm.
Qed.

Lemma contents_cloneTree t : contents (cloneTree t) = contents t.
Proof. apply (contents_rebuild t copyByType), copyByType_id. Qed.

Lemma rrset_contents t1 t2 : contents t1 = contents t2 → rrset t1 = rrset t2.
Proof. intros E. unfold rrset. by rewrite E. Qed.

Lemma rrset_clone t : rrset (cloneTree t) = rrset t.
Proof. apply rrset_contents, contents_cloneTree. Qed.

Lemma wf_clone t : wf_tree (cloneTree t) ↔ wf_tree t.
Proof. unfold wf_tree. by rewrite contents_cloneTree. Qed.

Lemma wf_new : wf_tree (radix_new : T byType).
Proof. unfold wf_tree. rewrite contents_new. apply map_Forall_empty. Qed.

Lemma elem_allRRs r m : r ∈ allRRs m ↔ ∃ q rrs, m !! q = Some rrs ∧ r ∈ rrs.
Proof.
  unfold allRRs. rewrite list_elem_of_In, in_concat. split.
  - intros (rrs & Hin & Hr). apply in_map_iff in Hin as ([q rrs'] & <- & Hin).
    exists q, rrs'. split; [|by apply list_elem_of_In].
    apply list_elem_of_In in Hin. rewrite range_perm in Hin. by apply elem_of_map_to_list in Hin.
  - intros (q & rrs & Hm & Hr). exists rrs. split; [|by apply list_elem_of_In].
    apply in_map_iff. exists (q, rrs). split; [done|]. apply list_elem_of_In.
    rewrite range_perm. by apply elem_of_map_to_list.
Qed.

Lemma elem_rrset t n q r :
  r ∈ rrset t n q ↔ ∃ m rrs, contents t !! n = Some m ∧ m !! q = Some rrs ∧ r ∈ rrs.
Proof.
  unfold rrset. destruct (contents t !! n) as [m|]; cbn; [|split; [by intros ?%elem_of_nil|naive_solver]].
  destruct (m !! q) as [rrs|] eqn:E; cbn.
  - split; [eauto|]. intros (? & ? & ? & ? & ?). by simplify_eq.
  - split; [by intros ?%elem_of_nil|]. intros (? & ? & ? & ? & ?). by simplify_eq.
Qed.

(** The records of a zone. *)
Lemma elem_collect t o r :
  r ∈ collectZoneRecords t o ↔ ∃ n q, isNameInZone n o = true ∧ r ∈ rrset t n q.
Proof.
  unfold collectZoneRecords. rewrite list_elem_of_In, in_concat. setoid_rewrite elem_rrset. split.
  - intros (rrs & Hin & Hr). apply in_map_iff in Hin as ([n m] & <- & Hin). cbn [fst snd] in Hr.
    apply list_elem_of_In, walk_elem in Hin. destruct (isNameInZone n o) eqn:E; [|done].
    apply list_elem_of_In, elem_allRRs in Hr as (q & rrs & Hm & Hr). eauto 10.
  - intros (n & q & Hz & m & rrs & Hc & Hm & Hr). exists (allRRs m). split.
    + apply in_map_iff. exists (n, m). cbn [fst snd]. rewrite Hz. split; [done|].
      by apply list_elem_of_In, walk_elem.
    + apply list_elem_of_In, elem_allRRs. eauto.
Qed.

(** ** The functional behaviour of each operation on [rrset] *)
Lemma rrset_insert t r n q :
  rrset (insertRR t r) n q =
    if decide (n = NormalizeName (name_of r) ∧ q = type_of r) then rrset t n q ++ [r]
    else rrset t n q.
Proof.
  unfold rrset, insertRR. rewrite contents_insert, contents_get.
  destruct (decide (n = NormalizeName (name_of r))) as [->|Hn].
  - rewrite lookup_insert_eq. cbn.
    destruct (decide (q = type_of r)) as [->|Hq].
    + rewrite lookup_insert_eq, decide_True by done. cbn.
      by destruct (contents t !! _) as [m|]; cbn; [destruct (m !! _)|].
    + rewrite lookup_insert_ne, decide_False by naive_solver.
      destruct (contents t !! _) as [m|]; cbn; [done|]. by rewrite lookup_empty.
  - rewrite lookup_insert_ne, decide_False by naive_solver. done.
Qed.

Lemma rrset_delete t name n q :
  rrset (radix_delete t name) n q = if decide (n = name) then [] else rrset t n q.
Proof.
  unfold rrset. rewrite contents_delete. destruct (decide (n = name)) as [->|].
  - by rewrite lookup_delete_eq.
  - by rewrite lookup_delete_ne.
Qed.

Lemma rrset_store t name m n q :
  rrset (storeOrDelete t name m) n q =
    if decide (n = name) then default [] (m !! q) else rrset t n q.
Proof.
  unfold storeOrDelete. case_bool_decide as E.
  - subst m. rewrite rrset_delete. destruct (decide _); [|done]. by rewrite lookup_empty.
  - unfold rrset. rewrite contents_insert. destruct (decide (n = name)) as [->|].
    + by rewrite lookup_insert_eq.
    + by rewrite lookup_insert_ne.
Qed.

Lemma rrset_delete_all t names n q :
  rrset (radix_delete_all t names) n q = if decide (n ∈ names) then [] else rrset t n q.
Proof. unfold rrset. rewrite contents_delete_all. by destruct (decide (n ∈ names)). Qed.

Lemma elem_zoneNames t o n :
  n ∈ zoneNames t o ↔ isNameInZone n o = true ∧ is_Some (contents t !! n).
Proof.
  unfold zoneNames. rewrite list_elem_of_In, filter_In, in_map_iff. split.
  - intros [([k m] & <- & Hin%list_elem_of_In%walk_elem) Hz]. cbn in *. eauto.
  - intros [Hz [m Hm]]. split; [|done]. exists (n, m). split; [done|].
    by apply list_elem_of_In, walk_elem.
Qed.

(** A sweep empties the zone and nothing else. *)
Lemma rrset_strip_all t o n q :
  rrset (stripAllZoneRecords t o) n q = if isNameInZone n o then [] else rrset t n q.
Proof.
  unfold stripAllZoneRecords. rewrite rrset_delete_all.
  destruct (decide (n ∈ zoneNames t o)) as [Hin|Hin].
  - apply elem_zoneNames in Hin as [-> _]. done.
  - destruct (isNameInZone n o) eqn:E; [|done].
    rewrite elem_zoneNames in Hin. unfold rrset.
    destruct (contents t !! n) eqn:Hc; [|done]. exfalso. apply Hin. eauto.
Qed.

Lemma zoneNames_normalize t o : zoneNames t (NormalizeName o) = zoneNames t o.
Proof.
  unfold zoneNames. apply filter_ext. intros n. apply in_zone_normalize_r.
Qed.

Lemma remove_is_strip t o : removeZoneFromTree t o = stripAllZoneRecords t o.
Proof. unfold removeZoneFromTree, stripAllZoneRecords. by rewrite zoneNames_normalize. Qed.

Lemma rrset_removeRRset t name q b t' n q' :
  removeRRset t name q = (b, t') →
  rrset t' n q' = if decide (n = NormalizeName name ∧ (q = q' ∨ q = TypeANY)) then []
                  else rrset t n q'.
Proof.
  unfold removeRRset. rewrite contents_get. set (nm := NormalizeName name).
  assert (∀ m : option byType, contents t !! nm = m → rrset t nm q' = default [] (m ≫= (.!! q')))
    as Hr by (intros m <-; done).
  destruct (contents t !! nm) as [m|] eqn:Hm.
  2:{ intros [= <- <-]. destruct (decide _) as [[-> _]|]; [|done]. by rewrite (Hr None). }
  case_bool_decide as Ha.
  { intros [= <- <-]. rewrite rrset_delete.
    destruct (decide (n = nm)), (decide _); naive_solver. }
  destruct (m !! q) as [rrs|] eqn:Hq.
  - intros [= <- <-]. rewrite rrset_store. destruct (decide (n = nm)) as [->|].
    + destruct (decide (q = q')) as [->|].
      * rewrite lookup_delete_eq, decide_True by naive_solver. done.
      * rewrite lookup_delete_ne, decide_False by naive_solver. by rewrite (Hr (Some m)).
    + rewrite decide_False by naive_solver. done.
  - intros [= <- <-]. destruct (decide _) as [[-> [<-|?]]|]; [|done..].
    rewrite (Hr (Some m)) by done. cbn. by rewrite Hq.
Qed.

Lemma rrset_removeAll t name b t' n q :
  removeAllAtName t name = (b, t') →
  rrset t' n q = if decide (n = NormalizeName name) then [] else rrset t n q.
Proof.
  unfold removeAllAtName. rewrite contents_get.
  destruct (contents t !! NormalizeName name) eqn:Hm; intros [= <- <-].
  - apply rrset_delete.
  - destruct (decide _) as [->|]; [|done]. unfold rrset. by rewrite Hm.
Qed.

Lemma filter_none {A} (p : A → bool) l :
  existsb p l = false → List.filter (λ x, negb (p x)) l = l.
Proof.
  induction l as [|x l IH]; cbn; [done|]. intros [-> Hl]%orb_false_iff. cbn. by rewrite IH.
Qed.

Lemma rrset_removeMatching `{DnsText} t name q v b t' n q' :
  removeMatchingRR t name q v = (b, t') →
  b = existsb (λ r, recordValuesMatch r (trim_space v)) (rrset t (NormalizeName name) q) ∧
  rrset t' n q' =
    if decide (n = NormalizeName name ∧ q' = q)
    then List.filter (λ r, negb (recordValuesMatch r (trim_space v))) (rrset t n q')
    else rrset t n q'.
Proof.
  unfold removeMatchingRR. rewrite contents_get. set (nm := NormalizeName name).
  assert (∀ m : option byType, contents t !! nm = m → ∀ q, rrset t nm q = default [] (m ≫= (.!! q)))
    as Hr by (intros m <- ?; done).
  destruct (contents t !! nm) as [m|] eqn:Hm.
  2:{ intros [= <- <-]. rewrite (Hr None) by done. split; [done|].
      destruct (decide _) as [[-> ->]|]; [|done]. by rewrite (Hr None). }
  specialize (Hr (Some m) eq_refl). cbn in Hr.
  assert (m !! q = None ∨ m !! q = Some [] →
    false = existsb (λ r, recordValuesMatch r (trim_space v)) (rrset t nm q) ∧
    rrset t n q' = if decide (n = nm ∧ q' = q)
      then List.filter (λ r, negb (recordValuesMatch r (trim_space v))) (rrset t n q')
      else rrset t n q') as Hnone.
  { intros Hn. assert (rrset t nm q = []) as E by (rewrite Hr; destruct Hn as [-> | ->]; done).
    rewrite E. split; [done|]. destruct (decide _) as [[-> ->]|]; [|done]. by rewrite E. }
  destruct (m !! q) as [[|r0 rrs]|] eqn:Hq; [intros [= <- <-]; auto| |intros [= <- <-]; auto].
  set (l := r0 :: rrs) in *. clearbody l. clear Hnone. destruct (existsb _ l) eqn:Ex; cbn [negb].
  - intros [= <- <-]. rewrite Hr, Hq. cbn [default from_option id]. split; [done|].
    rewrite rrset_store. destruct (decide (n = nm)) as [->|];
      [|by rewrite decide_False by naive_solver].
    destruct (decide (q' = q)) as [->|].
    + rewrite decide_True by done. rewrite Hr, Hq. cbn [default from_option id].
      destruct (List.filter _ l) eqn:Ef.
      * by rewrite lookup_delete_eq.
      * by rewrite lookup_insert_eq.
    + rewrite decide_False by naive_solver. rewrite Hr.
      destruct (List.filter _ l); by rewrite ?lookup_delete_ne, ?lookup_insert_ne.
  - intros [= <- <-]. rewrite Hr, Hq. cbn [default from_option id]. split; [done|].
    destruct (decide _) as [[-> ->]|]; [|done]. rewrite Hr, Hq. cbn [default from_option id].
    by rewrite filter_none.
Qed.


(** ** Well-formedness *)
Lemma wf_value_entry name m q rrs :
  wf_value name m → m !! q = Some rrs →
  rrs ≠ [] ∧ Forall (λ r, NormalizeName (name_of r) = name ∧ type_of r = q) rrs.
Proof. intros [_ Hm] Hq. by apply (Hm q). Qed.

Lemma wf_value_delete name m q : wf_value name m → delete q m = ∅ ∨ wf_value name (delete q m).
Proof.
  intros [_ Hm]. destruct (decide (delete q m = ∅)); [by left|]. right. split; [done|].
  by apply map_Forall_delete.
Qed.

Lemma wf_value_insert name m q rrs :
  map_Forall (λ q rrs, rrs ≠ [] ∧
    Forall (λ r, NormalizeName (name_of r) = name ∧ type_of r = q) rrs) m →
  rrs ≠ [] → Forall (λ r, NormalizeName (name_of r) = name ∧ type_of r = q) rrs →
  wf_value name (<[q := rrs]> m).
Proof.
  intros Hm Hne Hrrs. split.
  - apply insert_non_empty.
  - by apply map_Forall_insert_2.
Qed.

Lemma wf_radix_insert t name m :
  wf_tree t → normal name → wf_value name m → wf_tree (radix_insert t name m).
Proof. intros Ht Hn Hm. unfold wf_tree. rewrite contents_insert. by apply map_Forall_insert_2. Qed.

Lemma wf_delete t name : wf_tree t → wf_tree (radix_delete t name).
Proof. intros Ht. unfold wf_tree. rewrite contents_delete. by apply map_Forall_delete. Qed.

Lemma wf_store t name m :
  wf_tree t → normal name → m = ∅ ∨ wf_value name m → wf_tree (storeOrDelete t name m).
Proof.
  intros Ht Hn Hm. unfold storeOrDelete. case_bool_decide; [by apply wf_delete|].
  apply wf_radix_insert; naive_solver.
Qed.

Lemma wf_insertRR t r : wf_tree t → wf_tree (insertRR t r).
Proof.
  intros Ht. unfold insertRR. rewrite contents_get. set (nm := NormalizeName (name_of r)).
  assert (map_Forall (λ q rrs, rrs ≠ [] ∧
    Forall (λ r, NormalizeName (name_of r) = nm ∧ type_of r = q) rrs)
    (default ∅ (contents t !! nm))) as Hm.
  { destruct (contents t !! nm) as [m|] eqn:E; [|apply map_Forall_empty].
    by destruct (Ht nm m E) as [_ [_ Hm]]. }
  apply wf_radix_insert; [done | by apply normalize_normal|]. apply wf_value_insert; [done| |].
  - by destruct (default [] _).
  - apply Forall_app. split; [|by constructor].
    destruct (default ∅ _ !! type_of r) eqn:E; cbn; [|constructor]. by destruct (Hm _ _ E).
Qed.

Lemma wf_insert_all t rrs : wf_tree t → wf_tree (foldl insertRR t rrs).
Proof. revert t. induction rrs as [|r rrs IH]; intros t Ht; [done|]. by apply IH, wf_insertRR. Qed.

Lemma wf_delete_all t names : wf_tree t → wf_tree (radix_delete_all t names).
Proof.
  revert t. induction names as [|n names IH]; intros t Ht; [done|]. by apply IH, wf_delete.
Qed.

Lemma wf_strip_all t o : wf_tree t → wf_tree (stripAllZoneRecords t o).
Proof. apply wf_delete_all. Qed.

Lemma wf_removeMatching `{DnsText} t name q v :
  wf_tree t → wf_tree (removeMatchingRR t name q v).2.
Proof.
  intros Ht. unfold removeMatchingRR. rewrite contents_get. set (nm := NormalizeName name).
  destruct (contents t !! nm) as [m|] eqn:E; [|done]. destruct (Ht nm m E) as [Hn Hm].
  destruct (m !! q) as [[|r0 rrs]|] eqn:Hq; [done| |done].
  set (l := r0 :: rrs) in *. clearbody l. destruct (existsb _ l); cbn [negb snd]; [|done].
  apply wf_store; [done..|]. apply (wf_value_entry _ _ _ _ Hm) in Hq as [_ Hl].
  destruct (List.filter _ l) as [|r1 kept] eqn:Ef; [by apply wf_value_delete|].
  right. rewrite <-Ef. apply wf_value_insert; [apply Hm | by rewrite Ef|].
  apply Forall_forall. intros x Hx. rewrite list_elem_of_In, filter_In in Hx.
  rewrite Forall_forall in Hl. destruct Hx as [Hx _]. apply Hl. by rewrite list_elem_of_In.
Qed.

Lemma wf_removeRRset t name q : wf_tree t → wf_tree (removeRRset t name q).2.
Proof.
  intros Ht. unfold removeRRset. rewrite contents_get. set (nm := NormalizeName name).
  destruct (contents t !! nm) as [m|] eqn:E; [|done]. destruct (Ht nm m E) as [Hn Hm].
  case_bool_decide; [by apply wf_delete|]. destruct (m !! q); [|done].
  apply wf_store; [done..|]. by apply wf_value_delete.
Qed.

Lemma wf_removeAll t name : wf_tree t → wf_tree (removeAllAtName t name).2.
Proof.
  intros Ht. unfold removeAllAtName. destruct (radix_get _ _); [by apply wf_delete | done].
Qed.

Lemma wf_stripName t name : wf_tree t → wf_tree (stripName t name).
Proof.
  intros Ht. unfold stripName. rewrite contents_get.
  destruct (contents t !! name) as [m|] eqn:E; [|done]. destruct (Ht name m E) as [Hn Hm].
  apply wf_store; [done..|].
  assert (∀ m q, m = ∅ ∨ wf_value name m → delete q m = ∅ ∨ wf_value name (delete q m)) as Hd.
  { intros m' q [->|?]; [left; apply delete_empty | by apply wf_value_delete]. }
  auto.
Qed.

Lemma wf_stripDNSSEC t o : wf_tree t → wf_tree (stripDNSSECRecords t o).
Proof.
  unfold stripDNSSECRecords. generalize (zoneNames t o). intros names. revert t.
  induction names as [|n names IH]; intros t Ht; [done|]. by apply IH, wf_stripName.
Qed.

Lemma rrset_stripName t name n q :
  rrset (stripName t name) n q =
    if decide (n = name ∧ q ∈ [TypeRRSIG; TypeNSEC; TypeDNSKEY]) then [] else rrset t n q.
Proof.
  unfold stripName. rewrite contents_get.
  destruct (contents t !! name) as [m|] eqn:E.
  2:{ destruct (decide _) as [[-> _]|]; [|done]. unfold rrset. by rewrite E. }
  rewrite rrset_store. destruct (decide (n = name)) as [->|].
  2:{ by rewrite decide_False by naive_solver. }
  destruct (decide (q = TypeDNSKEY)) as [->|H1].
  { rewrite lookup_delete_eq, decide_True by (split; [done|set_solver]). done. }
  rewrite lookup_delete_ne by done. destruct (decide (q = TypeNSEC)) as [->|H2].
  { rewrite lookup_delete_eq, decide_True by (split; [done|set_solver]). done. }
  rewrite lookup_delete_ne by done. destruct (decide (q = TypeRRSIG)) as [->|H3].
  { rewrite lookup_delete_eq, decide_True by (split; [done|set_solver]). done. }
  rewrite lookup_delete_ne, decide_False by (done || set_solver).
  unfold rrset. by rewrite E.
Qed.

(** Stripping removes the three signing types in the zone and nothing else. *)
Lemma rrset_stripDNSSEC t o n q :
  rrset (stripDNSSECRecords t o) n q =
    if isNameInZone n o && bool_decide (q ∈ [TypeRRSIG; TypeNSEC; TypeDNSKEY])
    then [] else rrset t n q.
Proof.
  unfold stripDNSSECRecords.
  assert (∀ names t, rrset (foldl stripName t names) n q =
    if decide (n ∈ names ∧ q ∈ [TypeRRSIG; TypeNSEC; TypeDNSKEY]) then [] else rrset t n q)
    as Hfold.
  { intros names. induction names as [|x names IH]; intros t'; cbn [foldl].
    - rewrite decide_False; [done|]. by intros [?%elem_of_nil _].
    - rewrite IH, rrset_stripName. repeat destruct (decide _); set_solver. }
  rewrite Hfold. case_bool_decide as Hq; [|by rewrite andb_false_r, decide_False by naive_solver].
  rewrite andb_true_r. destruct (isNameInZone n o) eqn:Hz.
  - destruct (decide _) as [|Hn]; [done|]. rewrite elem_zoneNames in Hn.
    unfold rrset. destruct (contents t !! n) eqn:E; [|done]. exfalso. apply Hn. eauto.
  - rewrite decide_False; [done|]. intros [[Hz' _]%elem_zoneNames _]. congruence.
Qed.

(** What a lookup answers on a well-formed tree. *)
Lemma lookup_cases t name q :
  wf_tree t →
  let n := NormalizeName name in
  match lookupInTree t name q with
  | (rrs, LookupFound) => rrs = rrset t n q ∧ rrs ≠ []
  | (rrs, LookupNodata) => rrs = [] ∧ rrset t n q = [] ∧ ∃ q', rrset t n q' ≠ []
  | (rrs, LookupNotFound) => rrs = [] ∧ ∀ q', rrset t n q' = []
  end.
Proof.
  intros Ht n. unfold lookupInTree, rrset. rewrite contents_get. fold n.
  destruct (contents t !! n) as [m|] eqn:E; cbn; [|done].
  destruct (Ht n m E) as [_ [Hne Hm]].
  assert (∃ q', default [] (m !! q') ≠ []) as Hex.
  { apply map_choose in Hne as (q' & rrs & Hq). exists q'. rewrite Hq. by apply (Hm q'). }
  destruct (m !! q) as [[|r rrs]|] eqn:Hq; done.
Qed.

End lemmas.

(** * The abstract store and its operations *)
Definition astore : Type := string → N → list rr.

Definition a_insert (s : astore) (r : rr) : astore := λ n q,
  if decide (n = NormalizeName (name_of r) ∧ q = type_of r) then s n q ++ [r] else s n q.
Definition a_filter (p : string → N → rr → bool) (s : astore) : astore := λ n q,
  List.filter (p n q) (s n q).
Definition a_remove_matching `{DnsText} (s : astore) name q v : astore :=
  a_filter (λ n q' r, negb (bool_decide (n = NormalizeName name) && bool_decide (q' = q) &&
                            recordValuesMatch r (trim_space v))) s.
Definition a_remove_rrset (s : astore) name q : astore :=
  a_filter (λ n q' _, negb (bool_decide (n = NormalizeName name) &&
                            (bool_decide (q = q') || bool_decide (q = TypeANY)))) s.
Definition a_remove_zone (s : astore) origin : astore :=
  a_filter (λ n _ _, negb (isNameInZone n origin)) s.

Section properties.
Context {T : Type → Type} {RO : RadixOps T} {RL : RadixLaws T} {MR : MapRange} {DT : DnsText}.

Lemma filter_const {A} (b : bool) (l : list A) :
  List.filter (λ _, b) l = if b then l else [].
Proof. induction l as [|x l IH]; cbn; destruct b; [done..| by rewrite IH | done]. Qed.

Lemma removeMatching_refines (t : T byType) name ty v :
  (∀ n q, rrset (removeMatchingRR t name ty v).2 n q = a_remove_matching (rrset t) name ty v n q) ∧
  (removeMatchingRR t name ty v).1 =
    existsb (λ r, recordValuesMatch r (trim_space v)) (rrset t (NormalizeName name) ty).
Proof.
  destruct (removeMatchingRR t name ty v) as [b t'] eqn:E. cbn [fst snd]. split.
  - intros n q. pose proof (rrset_removeMatching t name ty v b t' n q E) as [_ Hr]. rewrite Hr.
    unfold a_remove_matching, a_filter. destruct (decide _) as [[-> ->]|Hne].
    + by rewrite !bool_decide_true by done.
    + symmetry. rewrite <-(filter_const true (rrset t n q)) at 2. apply filter_ext.
      intros r. apply negb_true_iff, not_true_iff_false.
      rewrite !andb_true_iff, !bool_decide_eq_true. naive_solver.
  - by pose proof (rrset_removeMatching t name ty v b t' "" 0%N E) as [Hb _].
Qed.

(** * Properties *)

(** C26: the tree operations implement the abstract store of RRsets by name
    and type: inserting appends to one RRset, the removals delete exactly the
    records they name, sweeping a zone deletes exactly the names in it, and a
    clone is the same store; the removal by value says whether it found one. *)
Theorem tree_refines_store (t : T byType) :
  (∀ n q, rrset (cloneTree t) n q = rrset t n q) ∧
  (∀ r n q, rrset (insertRR t r) n q = a_insert (rrset t) r n q) ∧
  (∀ name ty v n q,
     rrset (removeMatchingRR t name ty v).2 n q = a_remove_matching (rrset t) name ty v n q ∧
     (removeMatchingRR t name ty v).1 =
       existsb (λ r, recordValuesMatch r (trim_space v)) (rrset t (NormalizeName name) ty)) ∧
  (∀ name ty n q,
     rrset (removeRRset t name ty).2 n q = a_remove_rrset (rrset t) name ty n q) ∧
  (∀ name n q, rrset (removeAllAtName t name).2 n q = a_remove_rrset (rrset t) name TypeANY n q) ∧
  (∀ o n q, rrset (removeZoneFromTree t o) n q = a_remove_zone (rrset t) o n q).
Proof.
  split_and!.
  - intros. by rewrite rrset_clone.
  - intros. apply rrset_insert.
  - intros name ty v n q. by destruct (removeMatching_refines t name ty v).
  - intros name ty n q. destruct (removeRRset t name ty) as [b t'] eqn:E. cbn [fst snd].
    apply (rrset_removeRRset t name ty b t' n q) in E as ->.
    unfold a_remove_rrset, a_filter. rewrite filter_const.
    repeat case_bool_decide; destruct (decide _); naive_solver.
  - intros name n q. destruct (removeAllAtName t name) as [b t'] eqn:E. cbn [fst snd].
    apply (rrset_removeAll t name b t' n q) in E as ->.
    unfold a_remove_rrset, a_filter. rewrite filter_const.
    rewrite (bool_decide_true (TypeANY = TypeANY)), orb_true_r, andb_true_r by done.
    case_bool_decide; destruct (decide _); naive_solver.
  - intros o n q. rewrite remove_is_strip, rrset_strip_all. unfold a_remove_zone, a_filter.
    rewrite filter_const. by destruct (isNameInZone n o).
Qed.

(** well-formed trees stay well-formed under every operation: each key is
    a normalized name, holds only records of that name filed under their
    type, and neither an empty RRset nor an empty name is kept. *)
Theorem tree_ops_wf (t : T byType) :
  wf_tree t →
  wf_tree (cloneTree t) ∧ (∀ r, wf_tree (insertRR t r)) ∧
  (∀ name q v, wf_tree (removeMatchingRR t name q v).2) ∧
  (∀ name q, wf_tree (removeRRset t name q).2) ∧
  (∀ name, wf_tree (removeAllAtName t name).2) ∧
  (∀ o, wf_tree (removeZoneFromTree t o)) ∧ (∀ o, wf_tree (stripDNSSECRecords t o)) ∧
  (∀ o signed, wf_tree (applySignedRecords t o signed)).
Proof.
  intros Ht. split_and!.
  - by apply wf_clone.
  - intros. by apply wf_insertRR.
  - intros. by apply wf_removeMatching.
  - intros. by apply wf_removeRRset.
  - intros. by apply wf_removeAll.
  - intros. rewrite remove_is_strip. by apply wf_strip_all.
  - intros. by apply wf_stripDNSSEC.
  - intros. by apply wf_insert_all, wf_strip_all.
Qed.

(** a lookup tells the three authoritative outcomes apart: the records of
    the name and type when there are any, NODATA when the name has records of
    other types only, and NXDOMAIN when it has none at all; [NameExists] and
    [LookupAllAtName] agree with it. *)
Theorem lookup_outcomes (t : T byType) name q :
  wf_tree t →
  let n := NormalizeName name in
  lookupInTree t name q =
    (rrset t n q,
     if decide (rrset t n q ≠ []) then LookupFound
     else if nameExistsInTree t name then LookupNodata else LookupNotFound) ∧
  (nameExistsInTree t name = true ↔ ∃ q', rrset t n q' ≠ []) ∧
  (∀ r, r ∈ (lookupAllAtName t name).1 ↔ ∃ q', r ∈ rrset t n q') ∧
  ((lookupAllAtName t name).2 = LookupFound ↔ nameExistsInTree t name = true).
Proof.
  intros Ht n.
  assert (nameExistsInTree t name = true ↔ ∃ q', rrset t n q' ≠ []) as Hex.
  { unfold nameExistsInTree. rewrite bool_decide_eq_true, contents_get. fold n. split.
    - intros [m Hm]. destruct (Ht n m Hm) as [_ [Hne Hall]].
      apply map_choose in Hne as (q' & rrs & Hq). exists q'. unfold rrset. rewrite Hm. cbn.
      rewrite Hq. by apply (Hall q').
    - intros [q' Hq]. unfold rrset in Hq. by destruct (contents t !! n); [eexists|]. }
  split_and!; [|done| |].
  - pose proof (lookup_cases t name q Ht) as Hl. cbn zeta in Hl. fold n in Hl.
    destruct (lookupInTree t name q) as [rrs []].
    + destruct Hl as [-> Hl]. rewrite Hl, decide_False by naive_solver.
      assert (nameExistsInTree t name = false) as ->; [|done].
      apply not_true_iff_false. rewrite Hex. naive_solver.
    + destruct Hl as (-> & Hq & Hq'). rewrite Hq, decide_False by naive_solver.
      by rewrite (proj2 Hex).
    + destruct Hl as [-> Hl]. by rewrite decide_True.
  - intros r. unfold lookupAllAtName. rewrite contents_get. fold n.
    setoid_rewrite elem_rrset. destruct (contents t !! n) as [m|] eqn:E.
    + assert (r ∈ (match allRRs m with [] => ([], LookupNodata) | out => (out, LookupFound) end).1
              ↔ r ∈ allRRs m) as -> by (by destruct (allRRs m)).
      rewrite elem_allRRs. naive_solver.
    + split; [by intros ?%elem_of_nil | naive_solver].
  - rewrite Hex. unfold lookupAllAtName. rewrite contents_get. fold n.
    destruct (contents t !! n) as [m|] eqn:E.
    + destruct (Ht n m E) as [_ [Hne Hall]]. apply map_choose in Hne as (q' & rrs & Hq).
      destruct (Hall q' rrs Hq) as [Hrrs _].
      destruct (allRRs m) as [|x l] eqn:Ea; [|split; [|done]].
      * exfalso. destruct rrs as [|r rrs]; [done|].
        assert (r ∈ allRRs m) as Hr by (apply elem_allRRs; exists q', (r :: rrs); set_solver).
        rewrite Ea in Hr. by apply elem_of_nil in Hr.
      * intros _. exists q'. unfold rrset. rewrite E. cbn. by rewrite Hq.
    + split; [done|]. intros [q' Hq]. unfold rrset in Hq. by rewrite E in Hq.
Qed.

End properties.

(** ** Witnesses *)
Definition demo_rr : rr := RR (Hdr "WWW.Example.com." TypeA ClassINET 300) (DA (IP4b 1)).
Definition demo_tree : gtree byType := insertRR radix_new demo_rr.

Lemma tree_ops_wf_witness : wf_tree (removeRRset demo_tree "www.example.com" TypeA).2.
Proof.
  destruct (tree_ops_wf demo_tree) as (_ & _ & _ & Hr & _);
    [apply wf_insertRR, wf_new | apply Hr].
Defined.

Lemma lookup_outcomes_witness : nameExistsInTree demo_tree "www.example.com" = true.
Proof.
  destruct (lookup_outcomes demo_tree "www.example.com" TypeA) as (_ & Hex & _);
    [apply wf_insertRR, wf_new | apply Hex; exists TypeA; by vm_compute].
Defined.

End Tree.
