(* ===== verification/Signer.v ===== *)
(** * Zone signing: internal/dnssec/signer.go

    [SignZone] on the records of a zone. Signatures, key tags and
    [CompareDomainName] belong to the packages the source imports: they form
    the class [DnssecCrypto]. The clock is an argument, in Unix seconds. *)
From S2P Require Import Prelude NetAddr Dns Sorting.

Class DnssecCrypto (P : Type) := {
  is_signer : P → bool;                       (* priv.(crypto.Signer) *)
  key_tag : dnskey_data → N;                  (* DNSKEY.KeyTag *)
  (* RRSIG.Sign: completes the record, or fails *)
  rrsig_sign : P → rr_header → rrsig_data → list rr → res (rr_header * rrsig_data);
  (* mdns.CompareDomainName: the number of labels two names share *)
  compare_domain_name : string → string → N
}.

(** [RRSIG.Sign] signs the set it is given: it keeps the key's identity and
    writes the owner and the type of the first record of the set. *)
Class DnssecCryptoLaws (P : Type) `{DnssecCrypto P} : Prop := {
  sign_keeps : ∀ p h d r rs h' d', rrsig_sign p h d (r :: rs) = Ok (h', d') →
    h_name h' = name_of r ∧ h_rrtype h' = TypeRRSIG ∧ TypeCovered d' = type_of r ∧
    SigKeyTag d' = SigKeyTag d ∧ SigAlgorithm d' = SigAlgorithm d ∧
    SignerName d' = SignerName d ∧ Inception d' = Inception d ∧ Expiration d' = Expiration d
}.

Module Signer.

Definition defaultSignatureLifetime : N := 2592000.
Definition defaultInceptionSkew : N := 3600.

(** A DNSKEY with its private key; [KeyType] is "KSK" or "ZSK". *)
Record KeyMaterial (P : Type) := MkKeyMaterial {
  KeyType : string; k_hdr : rr_header; k_dnskey : dnskey_data; Private : P; CreatedAt : string
}.
Arguments MkKeyMaterial {P}.
Arguments KeyType {P}.
Arguments k_hdr {P}.
Arguments k_dnskey {P}.
Arguments Private {P}.
Arguments CreatedAt {P}.

Abbreviation rrsetKey := (string * N)%type.
Abbreviation typeSet := (gmap N ()).

Definition dnssec_type (t : N) : bool :=
  (t =? TypeRRSIG)%N || (t =? TypeNSEC)%N || (t =? TypeDNSKEY)%N.

Definition filterUnsignedRecords (records : list rr) : list rr :=
  List.filter (λ r, negb (dnssec_type (type_of r))) records.

Fixpoint zoneTTL (records : list rr) : N :=
  match records with
  | [] => 300%N
  | r :: rest =>
      match dat r with
      | DSOA _ => if (type_of r =? TypeSOA)%N && (0 <? ttl_of r)%N then ttl_of r else zoneTTL rest
      | _ => zoneTTL rest
      end
  end.

Section signer.
Context {P : Type} {DT : DnsText} {MR : MapRange} {SS : SortSlice} {DC : DnssecCrypto P}.

Definition isApexSOA (origin : string) (r : rr) : bool :=
  (type_of r =? TypeSOA)%N && bool_decide (canonical_name (name_of r) = origin).

(** The loop: records kept so far, and the apex SOA seen first. *)
Fixpoint uniqueApex (origin : string) (records out : list rr) (apexSOA : option rr) : list rr :=
  match records with
  | [] => match apexSOA with Some soa => out ++ [soa] | None => out end
  | r :: rest =>
      if isApexSOA origin r then
        uniqueApex origin rest out (match apexSOA with None => Some r | s => s end)
      else uniqueApex origin rest (out ++ [r]) apexSOA
  end.

Definition ensureUniqueApexSOA (records : list rr) (origin : string) : list rr :=
  uniqueApex (canonical_name origin) records [] None.

Definition bumpSerial (r : rr) : rr :=
  match dat r with
  | DSOA s => RR (hdr r) (DSOA (SOAData (s_ns s) (s_mbox s) (u32 (s_serial s + 1))
                (s_refresh s) (s_retry s) (s_expire s) (s_minttl s)))
  | _ => r
  end.

Fixpoint bumpLoop (origin : string) (records out : list rr) (bumped : bool) : list rr :=
  match records with
  | [] => out
  | r :: rest =>
      if isApexSOA origin r then
        if bumped then bumpLoop origin rest out bumped
        else bumpLoop origin rest (out ++ [bumpSerial r]) true
      else bumpLoop origin rest (out ++ [r]) bumped
  end.

Definition bumpSOASerial (records : list rr) (origin : string) : list rr :=
  bumpLoop (canonical_name origin) records [] false.

Definition addType (m : gmap string typeSet) (name : string) (t : N) : gmap string typeSet :=
  <[name := <[t := ()]> (default ∅ (m !! name))]> m.

Definition collectTypesAtName (records : list rr) : gmap string typeSet :=
  foldl (λ m r,
    let name := canonical_name (name_of r) in
    addType (addType (addType m name (type_of r)) name TypeRRSIG) name TypeNSEC)
    ∅ records.

(** [mdns.CompareDomainName(a, b) == -1] *)
Definition nameLess (a b : string) : bool := (Z.of_N (compare_domain_name a b) =? -1)%Z.

Definition nsecFor (ttl : N) (typesAtName : gmap string typeSet) (names : list string)
    (i : nat) (name : string) : rr :=
  let next := nth ((i + 1) mod length names) names "" in
  let types := sort_slice N.ltb (map fst (range (default ∅ (typesAtName !! name)))) in
  RR (Hdr name TypeNSEC ClassINET ttl) (DNSEC next types).

Definition buildNSECChain (typesAtName : gmap string typeSet) (ttl : N) : list rr :=
  let names := sort_slice nameLess (map fst (range typesAtName)) in
  match names with
  | [] => []
  | _ => imap (nsecFor ttl typesAtName names) names
  end.

Definition key_of (r : rr) : rrsetKey := (canonical_name (name_of r), type_of r).

Definition groupStep (st : list rrsetKey * gmap rrsetKey (list rr)) (r : rr)
    : list rrsetKey * gmap rrsetKey (list rr) :=
  if (type_of r =? TypeRRSIG)%N then st
  else
    let key := key_of r in
    let order := match st.2 !! key with Some _ => st.1 | None => st.1 ++ [key] end in
    (order, <[key := default [] (st.2 !! key) ++ [r]]> st.2).

Definition keyLess (a b : rrsetKey) : bool :=
  if negb (bool_decide (a.1 = b.1)) then nameLess a.1 b.1 else (a.2 <? b.2)%N.

Definition rrsetCanonicalLess (left right : rr) : bool := str_lt (rr_string left) (rr_string right).

Definition groupRRsets (records : list rr) : list (list rr) :=
  let '(order, sets) := foldl groupStep ([], ∅) records in
  map (λ key, sort_slice rrsetCanonicalLess (default [] (sets !! key)))
      (sort_slice keyLess order).

Definition count_dots (s : string) : nat := length (List.filter (is_char ".") (bytes s)).

Definition ownerLabelCount (name : string) : N :=
  let name := trim_suffix (canonical_name name) "." in
  if bool_decide (name = "") then 0%N else (N.of_nat (count_dots name + 1) mod 256)%N.

Definition signRRset (signer : P) (dnskey : dnskey_data) (rrset : list rr) (origin : string)
    (ttl inception expiration : N) : res rr :=
  match rrset with
  | [] => Err (errNew "empty rrset")
  | r :: _ =>
      let h := Hdr (name_of r) TypeRRSIG ClassINET ttl in
      let d := RRSIGData (type_of r) (KAlgorithm dnskey) (ownerLabelCount (name_of r))
                 (ttl_of r) expiration inception (key_tag dnskey) origin "" in
      let? (h', d') := rrsig_sign signer h d rrset in
      Ok (RR h' (DRRSIG d'))
  end.

Definition recordOrder (left right : rr) : bool :=
  if negb (bool_decide (name_of left = name_of right)) then nameLess (name_of left) (name_of right)
  else if negb (type_of left =? type_of right)%N then (type_of left <? type_of right)%N
  else rrsetCanonicalLess left right.

Definition signerKeyFor (ksk zsk : KeyMaterial P) (t : N) : KeyMaterial P :=
  if (t =? TypeDNSKEY)%N then ksk else zsk.

(** The signing loop of [SignZone]: the signatures of the sets, in order. *)
Fixpoint signSets (ksk zsk : KeyMaterial P) (origin : string) (ttl inception expiration : N)
    (rrsets : list (list rr)) : res (list rr) :=
  match rrsets with
  | [] => Ok []
  | rrset :: rest =>
      match rrset with
      | [] => signSets ksk zsk origin ttl inception expiration rest
      | r :: _ =>
          if (type_of r =? TypeRRSIG)%N then signSets ksk zsk origin ttl inception expiration rest
          else
            let signerKey := signerKeyFor ksk zsk (type_of r) in
            if negb (is_signer (Private signerKey)) then
              Err (errNew "private key for %s is not a signer")
            else
              let? sig := res_wrap "sign %s %s: %w"
                (signRRset (Private signerKey) (k_dnskey signerKey) rrset origin ttl
                   inception expiration) in
              let? sigs := signSets ksk zsk origin ttl inception expiration rest in
              Ok (sig :: sigs)
      end
  end.

(** The records [SignZone] signs: the input without old DNSSEC records, one
    apex SOA with the next serial, the two keys and the NSEC chain. *)
Definition toSign (origin : string) (records : list rr) (ksk zsk : KeyMaterial P) : list rr :=
  let unsigned0 := filterUnsignedRecords records in
  let ttl := zoneTTL unsigned0 in
  let keyRR k := with_ttl (RR (k_hdr k) (DDNSKEY (k_dnskey k))) ttl in
  let unsigned := bumpSOASerial (ensureUniqueApexSOA unsigned0 origin) origin in
  let typesAtName := addType (collectTypesAtName unsigned) origin TypeDNSKEY in
  unsigned ++ [keyRR ksk; keyRR zsk] ++ buildNSECChain typesAtName ttl.

Definition SignZone (now : N) (origin : string) (records : list rr)
    (ksk zsk : option (KeyMaterial P)) : res (list rr) :=
  match ksk, zsk with
  | Some ksk, Some zsk =>
      let origin := canonical_name origin in
      let unsigned := filterUnsignedRecords records in
      match unsigned with
      | [] => Err (errNew "zone %s has no records to sign")
      | _ =>
          let ttl := zoneTTL unsigned in
          let inception := u32 (now - defaultInceptionSkew) in
          let expiration := u32 (now + defaultSignatureLifetime) in
          let signed := toSign origin records ksk zsk in
          let? sigs := signSets ksk zsk origin ttl inception expiration (groupRRsets signed) in
          Ok (sort_slice recordOrder (signed ++ sigs))
      end
  | _, _ => Err (errNew "ksk and zsk are required")
  end.

End signer.


(** * Lemmas *)

(** A successful signature [sig] of the RRset with key [k]. *)
Definition signs `{DnsText} {P} `{DnssecCrypto P} (ksk zsk : KeyMaterial P)
    (now : N) (origin : string) (k : rrsetKey) (sig : rr) : Prop :=
  type_of sig = TypeRRSIG ∧ canonical_name (name_of sig) = k.1 ∧
  ∃ d, dat sig = DRRSIG d ∧ TypeCovered d = k.2 ∧
    SigKeyTag d = key_tag (k_dnskey (signerKeyFor ksk zsk k.2)) ∧
    SigAlgorithm d = KAlgorithm (k_dnskey (signerKeyFor ksk zsk k.2)) ∧
    SignerName d = canonical_name origin ∧
    Inception d = u32 (now - defaultInceptionSkew) ∧
    Expiration d = u32 (now + defaultSignatureLifetime).

Section lemmas.
Context {P : Type} {DT : DnsText} {MR : MapRange} {SS : SortSlice}
  {DC : DnssecCrypto P} {DL : DnssecCryptoLaws P}.

Definition signable (k : rrsetKey) (r : rr) : bool :=
  negb (type_of r =? TypeRRSIG)%N && bool_decide (key_of r = k).

(** What the grouping loop has built. *)
Definition grouped (recs : list rr) (st : list rrsetKey * gmap rrsetKey (list rr)) : Prop :=
  NoDup st.1 ∧
  (∀ k, k ∈ st.1 ↔ List.filter (signable k) recs ≠ []) ∧
  (∀ k, st.2 !! k = match List.filter (signable k) recs with [] => None | rs => Some rs end).

Lemma group_step_inv recs st r : grouped recs st → grouped (recs ++ [r]) (groupStep st r).
Proof.
  intros (Hnd & Hin & Hget). unfold groupStep.
  assert (∀ k, List.filter (signable k) (recs ++ [r]) =
    List.filter (signable k) recs ++ (if signable k r then [r] else [])) as Hf.
  { intros k. rewrite List.filter_app. cbn. by destruct (signable k r). }
  destruct (type_of r =? TypeRRSIG)%N eqn:Ht.
  { assert (∀ k, signable k r = false) as Hno by (intros k; unfold signable; by rewrite Ht).
    split_and!; [done| |]; intros k; rewrite Hf, Hno, app_nil_r; auto. }
  assert (∀ k, signable k r = bool_decide (key_of r = k)) as Hs
    by (intros k; unfold signable; by rewrite Ht).
  set (key := key_of r) in *. unfold grouped. cbn [fst snd].
  assert (st.2 !! key = None → List.filter (signable key) recs = []) as Hnone.
  { rewrite Hget. by destruct (List.filter _ _). }
  split_and!.
  - destruct (st.2 !! key) eqn:E; [done|]. apply NoDup_app. split_and!; [done| |].
    + intros k Hk ->%list_elem_of_singleton. apply Hin in Hk. by rewrite Hnone in Hk.
    + by repeat constructor; intros ?%elem_of_nil.
  - intros k. rewrite Hf, Hs. case_bool_decide as Ek.
    + subst k. split; [by destruct (List.filter _ _)|]. intros _.
      destruct (st.2 !! key) eqn:E; [|set_solver].
      apply Hin. rewrite Hget in E. by destruct (List.filter _ _).
    + rewrite app_nil_r, <-Hin. destruct (st.2 !! key); [done|]. set_solver.
  - intros k. rewrite Hf, Hs. case_bool_decide as Ek.
    + subst k. rewrite lookup_insert_eq, Hget. by destruct (List.filter _ _).
    + by rewrite lookup_insert_ne, app_nil_r.
Qed.

Lemma group_inv recs : grouped recs (foldl groupStep ([], ∅) recs).
Proof.
  induction recs as [|r recs IH] using rev_ind.
  - split_and!; [constructor| |]; intros k; cbn; [|done].
    split; [by intros ?%elem_of_nil | done].
  - rewrite foldl_app. cbn [foldl]. by apply group_step_inv.
Qed.

(** The sets to sign: one per key, with exactly the records of that key. *)
Lemma group_spec recs : ∃ keys, NoDup keys ∧
  (∀ k, k ∈ keys ↔ ∃ r, r ∈ recs ∧ type_of r ≠ TypeRRSIG ∧ key_of r = k) ∧
  Forall2 (λ k rrset, rrset ≡ₚ List.filter (signable k) recs ∧ rrset ≠ []) keys
    (groupRRsets recs).
Proof.
  unfold groupRRsets. destruct (foldl groupStep ([], ∅) recs) as [order sets] eqn:E.
  pose proof (group_inv recs) as (Hnd & Hin & Hget). rewrite E in Hnd, Hin, Hget.
  cbn [fst snd] in *. exists (sort_slice keyLess order).
  assert (∀ k, k ∈ sort_slice keyLess order ↔ List.filter (signable k) recs ≠ []) as Hin'.
  { intros k. by rewrite sort_slice_elem. }
  split_and!.
  - by rewrite sort_slice_perm.
  - intros k. rewrite Hin'. split.
    + intros Hne. destruct (List.filter (signable k) recs) as [|r rs] eqn:Ef; [done|].
      assert (In r (List.filter (signable k) recs)) as Hr by (rewrite Ef; by left).
      apply filter_In in Hr as [Hr Hs]. exists r. unfold signable in Hs. bool_hyps.
      split; [by apply list_elem_of_In | done].
    + intros (r & Hr & Ht & Hk) Hnil.
      assert (In r (List.filter (signable k) recs)) as Hr'.
      { apply filter_In. split; [by apply list_elem_of_In|]. unfold signable.
        rewrite (proj2 (N.eqb_neq _ _)), bool_decide_true by done. done. }
      by rewrite Hnil in Hr'.
  - apply Forall2_fmap_r. apply Forall_Forall2_diag. apply Forall_forall.
    intros k Hk%Hin'. cbn. rewrite Hget.
    destruct (List.filter (signable k) recs) as [|r rs]; [done|]. cbn [default from_option id].
    split; [apply sort_slice_perm|]. intros Hnil. apply (f_equal length) in Hnil.
    by rewrite (Permutation_length (sort_slice_perm _ _)) in Hnil.
Qed.

Lemma sign_sets_spec ksk zsk now origin ttl keys rrsets recs sigs :
  Forall2 (λ k rrset, rrset ≡ₚ List.filter (signable k) recs ∧ rrset ≠ []) keys rrsets →
  signSets ksk zsk (canonical_name origin) ttl (u32 (now - defaultInceptionSkew))
    (u32 (now + defaultSignatureLifetime)) rrsets = Ok sigs →
  Forall2 (signs ksk zsk now origin) keys sigs.
Proof.
  intros Hall. revert sigs. induction Hall as [|k rrset keys rrsets [Hp Hne] _ IH];
    intros sigs; cbn [signSets]; [by intros [= <-]|].
  destruct rrset as [|r rs]; [done|].
  assert (In r (List.filter (signable k) recs)) as Hr.
  { apply list_elem_of_In. rewrite <-Hp. by left. }
  apply filter_In in Hr as [_ Hr]. unfold signable in Hr.
  apply andb_true_iff in Hr as [Ht Hk]. apply bool_decide_eq_true in Hk.
  apply negb_true_iff in Ht. rewrite Ht.
  destruct (is_signer _); cbn [negb]; [|done].
  unfold signRRset. destruct (rrsig_sign _ _ _ _) as [[h d]|] eqn:Es; cbn [res_bind res_wrap]; [|done].
  destruct (signSets _ _ _ _ _ _ _) as [sigs'|]; cbn [res_bind]; [|done].
  intros [= <-]. constructor; [|by apply IH].
  apply sign_keeps in Es as (Hn & Hty & Hc & Htag & Halg & Hsn & Hinc & Hexp).
  cbn in Htag, Halg, Hsn, Hinc, Hexp. subst k. unfold signs, key_of. cbn [fst snd].
  split_and!; [done | by unfold name_of at 1; cbn; rewrite Hn|].
  exists d. split_and!; done.
Qed.

(** ** The records that are signed *)
Lemma unique_apex_spec o recs out apex :
  uniqueApex o recs out apex =
    out ++ List.filter (λ r, negb (isApexSOA o r)) recs ++
    match apex with
    | Some soa => [soa]
    | None => match List.find (isApexSOA o) recs with Some soa => [soa] | None => [] end
    end.
Proof.
  revert out apex. induction recs as [|r recs IH]; intros out apex;
    cbn [uniqueApex List.filter List.find].
  - destruct apex; [done|]. by rewrite app_nil_r.
  - destruct (isApexSOA o r) eqn:E; cbn [negb]; rewrite IH.
    + by destruct apex.
    + by rewrite <-app_assoc.
Qed.

Lemma bump_no_apex o recs out b :
  forallb (λ r, negb (isApexSOA o r)) recs = true → bumpLoop o recs out b = out ++ recs.
Proof.
  revert out b. induction recs as [|r recs IH]; intros out b; cbn [bumpLoop forallb].
  { by rewrite app_nil_r. }
  intros [Hr Hrs]%andb_true_iff. apply negb_true_iff in Hr. rewrite Hr, IH by done.
  by rewrite <-app_assoc.
Qed.

Lemma bump_app o l k out b :
  forallb (λ r, negb (isApexSOA o r)) l = true →
  bumpLoop o (l ++ k) out b = bumpLoop o k (out ++ l) b.
Proof.
  revert out b. induction l as [|r l IH]; intros out b; cbn [app bumpLoop forallb].
  { by rewrite app_nil_r. }
  intros [Hr Hrs]%andb_true_iff. apply negb_true_iff in Hr. rewrite Hr, IH by done.
  by rewrite <-app_assoc.
Qed.

Lemma filter_forallb {A} (p : A → bool) l : forallb p (List.filter p l) = true.
Proof. apply forallb_forall. by intros x [_ ?]%filter_In. Qed.

(** One apex SOA with the next serial after the other records. *)
Lemma unsigned_spec origin recs :
  (∀ n, canonical_name (canonical_name n) = canonical_name n) →
  let o := canonical_name origin in
  bumpSOASerial (ensureUniqueApexSOA recs o) o =
    List.filter (λ r, negb (isApexSOA o r)) recs ++
    match List.find (isApexSOA o) recs with Some soa => [bumpSerial soa] | None => [] end.
Proof.
  intros Hc o. unfold bumpSOASerial, ensureUniqueApexSOA.
  assert (canonical_name o = o) as -> by apply Hc.
  rewrite unique_apex_spec. cbn [app].
  rewrite bump_app by apply filter_forallb. cbn [app].
  destruct (List.find (isApexSOA o) recs) as [soa|] eqn:Ef; cbn [bumpLoop].
  - apply List.find_some in Ef as [_ ->]. done.
  - by rewrite app_nil_r.
Qed.

(** ** The NSEC chain *)
Lemma in_types (m : gmap string typeSet) n :
  n ∈ map fst (range m) ↔ is_Some (m !! n).
Proof.
  rewrite list_elem_of_In, in_map_iff. split.
  - intros ([k v] & <- & Hin). apply list_elem_of_In in Hin. rewrite range_perm in Hin.
    apply elem_of_map_to_list in Hin. by eexists.
  - intros [v Hv]. exists (n, v). split; [done|]. apply list_elem_of_In. rewrite range_perm.
    by apply elem_of_map_to_list.
Qed.

Lemma NoDup_range {K V} `{Countable K} (m : gmap K V) : NoDup (map fst (range m)).
Proof.
  change (map fst (range m)) with ((range m).*1). rewrite range_perm.
  apply NoDup_fst_map_to_list.
Qed.

Lemma length_rotate {A} (l : list A) : length (tail l ++ take 1 l) = length l.
Proof.
  rewrite length_app. destruct l as [|x l]; [done|]. rewrite firstn_cons, take_0. simpl. lia.
Qed.

Lemma lookup_rotate (l : list string) i :
  i < length l → (tail l ++ take 1 l) !! i = Some (nth ((i + 1) mod length l) l "").
Proof.
  intros Hi. destruct l as [|x l]; [simpl in Hi; lia|]. cbn [tail take length] in *.
  destruct (decide (i = length l)) as [->|].
  - rewrite Nat.add_1_r, Nat.Div0.mod_same. rewrite lookup_app_r, Nat.sub_diag by lia. done.
  - rewrite Nat.mod_small by lia. rewrite lookup_app_l by lia.
    rewrite Nat.add_1_r. cbn [nth]. destruct (lookup_lt_is_Some_2 l i) as [y Hy]; [lia|].
    rewrite Hy. f_equal. symmetry. by apply nth_lookup_Some.
Qed.

Lemma strict_weak_ltb : strict_weak N.ltb.
Proof.
  split; [apply N.ltb_irrefl|..].
  - intros x y z ??. bool_hyps. apply N.ltb_lt. lia.
  - intros x y z ????. bool_hyps. split; apply N.ltb_ge; lia.
Qed.

Lemma imap_names {A} (f : nat → string → rr) (g : rr → A) names (l : list A) :
  length l = length names →
  (∀ i n, names !! i = Some n → l !! i = Some (g (f i n))) →
  map g (imap f names) = l.
Proof.
  intros Hlen Hl. apply list_eq. intros i. change (map g) with (fmap (M:=list) g).
  rewrite list_lookup_fmap, list_lookup_imap. destruct (names !! i) as [n|] eqn:E; cbn.
  - symmetry. by apply Hl.
  - symmetry. apply lookup_ge_None. apply lookup_ge_None in E. lia.
Qed.

End lemmas.

(** The data of an NSEC record. *)
Definition next_of (r : rr) : string := match dat r with DNSEC next _ => next | _ => "" end.
Definition bitmap_of (r : rr) : list N := match dat r with DNSEC _ ts => ts | _ => [] end.

Section properties.
Context {P : Type} {DT : DnsText} {MR : MapRange} {SS : SortSlice}
  {DC : DnssecCrypto P} {DL : DnssecCryptoLaws P}.

(** * Properties *)

(** a signed zone is the records to sign plus exactly one signature per
    RRset: the KSK signs the DNSKEY set, the ZSK every other, over the
    validity window around the clock, and no signature stands without its
    set. *)
Theorem sign_zone_covers now origin records (ksk zsk : KeyMaterial P) signed :
  SignZone now origin records (Some ksk) (Some zsk) = Ok signed →
  let body := toSign (canonical_name origin) records ksk zsk in
  ∃ keys sigs,
    signed ≡ₚ body ++ sigs ∧ NoDup keys ∧
    (∀ k, k ∈ keys ↔ ∃ r, r ∈ body ∧ type_of r ≠ TypeRRSIG ∧ key_of r = k) ∧
    Forall2 (signs ksk zsk now origin) keys sigs.
Proof.
  unfold SignZone. destruct (filterUnsignedRecords records) as [|r0 rs]; [done|].
  set (body := toSign _ records ksk zsk).
  destruct (signSets _ _ _ _ _ _ _) as [sigs|] eqn:Es; cbn [res_bind]; [|done].
  intros [= <-]. destruct (group_spec body) as (keys & Hnd & Hin & Hall).
  exists keys, sigs. split_and!; [apply sort_slice_perm | done..|].
  by eapply sign_sets_spec.
Qed.

(** signing changes the zone data in one place only: the records other
    than RRSIG, NSEC and DNSKEY are those of the input, the apex keeps one SOA
    (its first) and its serial goes up by one modulo 2^32; every record added
    is a DNSKEY or an NSEC. *)
Theorem sign_zone_content origin records (ksk zsk : KeyMaterial P) :
  (∀ n, canonical_name (canonical_name n) = canonical_name n) →
  h_rrtype (k_hdr ksk) = TypeDNSKEY → h_rrtype (k_hdr zsk) = TypeDNSKEY →
  let o := canonical_name origin in
  let plain := filterUnsignedRecords records in
  ∃ added,
    toSign o records ksk zsk =
      List.filter (λ r, negb (isApexSOA o r)) plain ++
      match List.find (isApexSOA o) plain with Some soa => [bumpSerial soa] | None => [] end ++
      added ∧
    Forall (λ r, type_of r = TypeDNSKEY ∨ type_of r = TypeNSEC) added.
Proof.
  intros Hc Hk Hz o plain. eexists. split.
  - pose proof (unsigned_spec origin plain Hc) as Hu. cbn zeta in Hu. fold o in Hu.
    unfold toSign. fold plain. rewrite Hu, <-app_assoc. reflexivity.
  - apply Forall_app. split.
    + apply Forall_cons. split; [by left|]. apply Forall_cons. split; [by left | done].
    + unfold buildNSECChain. set (names := sort_slice _ _). destruct names as [|n ns]; [done|].
      apply Forall_forall. intros r (i & n' & -> & _)%elem_of_lookup_imap_1. by right.
Qed.

(** the NSEC records form one closed chain: each name of the zone owns
    exactly one, following [NextDomain] from each visits the next name and the
    last leads back to the first, and each type bitmap lists in increasing
    order exactly the types present at its name. The order of the names is the
    one the map iteration gave: the comparison used never says "less". *)
Theorem nsec_chain_closed (types : gmap string typeSet) ttl :
  let chain := buildNSECChain types ttl in
  let names := map name_of chain in
  NoDup names ∧ (∀ n, n ∈ names ↔ is_Some (types !! n)) ∧
  map next_of chain = tail names ++ take 1 names ∧
  (∀ r, r ∈ chain → sorted_by N.ltb (bitmap_of r) ∧
     ∀ t, t ∈ bitmap_of r ↔ is_Some (default ∅ (types !! name_of r) !! t)) ∧
  (∀ a b, nameLess a b = false).
Proof.
  set (names := sort_slice nameLess (map fst (range types))).
  assert (buildNSECChain types ttl = imap (nsecFor ttl types names) names) as ->.
  { unfold buildNSECChain. fold names. by destruct names. }
  cbn zeta.
  assert (map name_of (imap (nsecFor ttl types names) names) = names) as Hnames.
  { by apply imap_names. }
  rewrite Hnames. split_and!.
  - unfold names. rewrite sort_slice_perm. apply NoDup_range.
  - intros n. unfold names. by rewrite sort_slice_elem, in_types.
  - apply imap_names.
    + apply length_rotate.
    + intros i n Hi%lookup_lt_Some. by rewrite lookup_rotate.
  - intros r (i & n & -> & Hn)%elem_of_lookup_imap_1. cbn. split.
    + apply sort_slice_sorted, strict_weak_ltb.
    + intros t. rewrite sort_slice_elem.
      rewrite list_elem_of_In, in_map_iff. split.
      * intros ([t' []] & <- & Hin). apply list_elem_of_In in Hin. rewrite range_perm in Hin.
        apply elem_of_map_to_list in Hin. by eexists.
      * intros [[] Ht]. exists (t, ()). split; [done|]. apply list_elem_of_In.
        rewrite range_perm. by apply elem_of_map_to_list.
  - intros a b. unfold nameLess. apply Z.eqb_neq. lia.
Qed.

End properties.

(** ** Witnesses *)
#[export] Instance demo_crypto : DnssecCrypto string | 100 := {|
  is_signer _ := true;
  key_tag k := N.of_nat (slen (PublicKey k));
  rrsig_sign p h d rrset :=
    match rrset with
    | [] => Err (errNew "dns: bad rrset")
    | r :: _ => Ok (Hdr (name_of r) TypeRRSIG ClassINET (h_ttl h),
        RRSIGData (type_of r) (SigAlgorithm d) (SigLabels d) (OrigTtl d) (Expiration d)
          (Inception d) (SigKeyTag d) (SignerName d) p)
    end;
  compare_domain_name a b := 0%N
|}.

#[export] Instance demo_crypto_laws : DnssecCryptoLaws string | 100.
Proof. split. intros p h d r rs h' d'. cbn. intros [= <- <-]. split_and!; reflexivity. Qed.

Definition demo_key (role key : string) (flags : N) : KeyMaterial string :=
  MkKeyMaterial role (Hdr "example.com." TypeDNSKEY ClassINET 300)
    (DNSKEYData flags 3 13 key) ("private " +:+ role) "".
Definition demo_zone : list rr :=
  [RR (Hdr "example.com." TypeSOA ClassINET 300)
     (DSOA (SOAData "ns1.example.com." "admin.example.com." 7 3600 600 86400 300));
   RR (Hdr "www.example.com." TypeA ClassINET 300) (DA (IP4b 1))].
Definition demo_signed : res (list rr) :=
  SignZone 1700000000 "example.com." demo_zone (Some (demo_key "KSK" "k1" 257))
    (Some (demo_key "ZSK" "zsk" 256)).

Lemma sign_zone_covers_witness :
  ∃ keys sigs,
    from_ok [] demo_signed ≡ₚ
      toSign (canonical_name "example.com.") demo_zone (demo_key "KSK" "k1" 257) (demo_key "ZSK" "zsk" 256) ++ sigs ∧
    NoDup keys ∧
    (∀ k, k ∈ keys ↔ ∃ r, r ∈ toSign (canonical_name "example.com.") demo_zone (demo_key "KSK" "k1" 257)
        (demo_key "ZSK" "zsk" 256) ∧ type_of r ≠ TypeRRSIG ∧ key_of r = k) ∧
    Forall2 (signs (demo_key "KSK" "k1" 257) (demo_key "ZSK" "zsk" 256) 1700000000
      "example.com.") keys sigs.
Proof.
  apply (sign_zone_covers 1700000000 "example.com." demo_zone (demo_key "KSK" "k1" 257)
    (demo_key "ZSK" "zsk" 256) (from_ok [] demo_signed)).
  apply from_ok_eq. by vm_compute.
Defined.

Lemma canonical_idemp n : demo_canonical (demo_canonical n) = demo_canonical n.
Proof.
  unfold demo_canonical. destruct (has_suffix (to_lower n) ".") eqn:E.
  - by rewrite to_lower_idemp, E.
  - rewrite to_lower_app, to_lower_idemp. change (to_lower ".") with ".".
    by rewrite (proj2 (has_suffix_spec _ _)) by (by eexists).
Qed.

Lemma sign_zone_content_witness :
  ∃ added,
    toSign (canonical_name "example.com.") demo_zone (demo_key "KSK" "k1" 257) (demo_key "ZSK" "zsk" 256) =
      List.filter (λ r, negb (isApexSOA (canonical_name "example.com.") r)) (filterUnsignedRecords demo_zone) ++
      match List.find (isApexSOA (canonical_name "example.com.")) (filterUnsignedRecords demo_zone) with
      | Some soa => [bumpSerial soa] | None => [] end ++ added ∧
    Forall (λ r, type_of r = TypeDNSKEY ∨ type_of r = TypeNSEC) added.
Proof.
  exact (sign_zone_content "example.com." demo_zone (demo_key "KSK" "k1" 257)
           (demo_key "ZSK" "zsk" 256) canonical_idemp eq_refl eq_refl).
Defined.

End Signer.
