(* ===== verification/KeyStore.v ===== *)
(** * Signing keys: internal/dnssec/store.go, keys.go

    The table [dnssec_keys] of the SQL database is reached through [KeyDB],
    one operation per statement the source runs; key generation and the PEM
    and DNSKEY texts through [KeyText]. A nil store or database is not
    represented: [NewStore] is always given one. *)
From S2P Require Import Prelude NetAddr Dns Signer.
Import Signer.

(** A row of [dnssec_keys] but for its zone and view. *)
Record key_row := KeyRow {
  row_type : string; row_algorithm : N; row_private : string; row_public : string;
  row_created : string
}.

Class KeyDB (D : Type) := {
  kd_count : D → string → string → res N;             (* SELECT COUNT ... IN ('KSK','ZSK') *)
  kd_upsert : D → string → string → key_row → res D;  (* INSERT ... ON CONFLICT DO UPDATE *)
  kd_select : D → string → string → res (list key_row);
  kd_delete : D → string → string → res D
}.

Abbreviation key_table := (gmap (string * string * string) key_row).

(** The statements act on a table keyed by zone, view and key type. *)
Class KeyDBLaws (D : Type) `{KeyDB D} := {
  kd_table : D → key_table;
  kd_count_law : ∀ d z v n, kd_count d z v = Ok n →
    n = N.of_nat (length (List.filter
      (λ t, bool_decide (is_Some (kd_table d !! (z, v, t)))) ["KSK"; "ZSK"]));
  kd_upsert_law : ∀ d z v r d', kd_upsert d z v r = Ok d' →
    kd_table d' = <[(z, v, row_type r) := r]> (kd_table d);
  kd_select_law : ∀ d z v rows, kd_select d z v = Ok rows →
    NoDup (map row_type rows) ∧
    ∀ r, r ∈ rows ↔ kd_table d !! (z, v, row_type r) = Some r;
  kd_delete_law : ∀ d z v d', kd_delete d z v = Ok d' →
    ∀ k, kd_table d' !! k = if decide (k.1 = (z, v)) then None else kd_table d !! k
}.

Class KeyText (P : Type) := {
  generate_key : string → dnskey_data → res (dnskey_data * P);   (* DNSKEY.Generate, from entropy *)
  private_key_string : dnskey_data → P → string;
  new_private_key : dnskey_data → string → res P;
  pem_encode : string → string → string;
  pem_decode : string → option string;
  to_ds : rr_header → dnskey_data → N → option (rr_header * ds_data)
}.

Module KeyStore.

Definition Algorithm : N := 13.
Definition ZONE : N := 256.
Definition SHA256 : N := 2.

Definition normalizeZone (zone : string) : string :=
  let zone := trim_space (to_lower zone) in
  if bool_decide (zone = "") then "."
  else if negb (has_suffix zone ".") then zone +:+ "." else zone.

Definition normalizeView (view : string) : string :=
  let view := trim_space (to_lower view) in
  if bool_decide (view = "") then "public" else view.

Record Status := MkStatus {
  st_enabled : bool; st_zone : string; st_view : string; st_algorithm : N;
  st_ksk_tag : N; st_zsk_tag : N; st_ds : string; st_created : string
}.

Section store.
Context {P D : Type} {DT : DnsText} {DC : DnssecCrypto P} {KT : KeyText P} {KD : KeyDB D}.

Definition GenerateKeyPair (entropy now : string) (origin keyType : string) (ttl : N)
    : res (KeyMaterial P) :=
  let origin := canonical_name origin in
  if bool_decide (origin = "") || bool_decide (origin = ".") then
    Err (errNew "invalid zone origin %q")
  else
    let flags := if bool_decide (keyType = "KSK") then N.lor ZONE SEP else ZONE in
    let h := Hdr origin TypeDNSKEY ClassINET ttl in
    let? (dnskey, priv) := res_wrap "generate %s DNSKEY: %w"
      (generate_key entropy (DNSKEYData flags 3 Algorithm "")) in
    Ok (MkKeyMaterial keyType h dnskey priv now).

Definition EncodePrivateKeyPEM (dnskey : dnskey_data) (priv : P) : res string :=
  let body := private_key_string dnskey priv in
  if bool_decide (body = "") then Err (errNew "unsupported private key type")
  else Ok (pem_encode "DNSSEC PRIVATE KEY" body).

Definition EncodePublicKeyPEM (h : rr_header) (dnskey : dnskey_data) : string :=
  pem_encode "DNSSEC PUBLIC KEY" (rr_string (RR h (DDNSKEY dnskey))).

Definition LoadPrivateKey (dnskey : dnskey_data) (pemText : string) : res P :=
  match pem_decode (trim_space pemText) with
  | None => Err (errNew "invalid PEM private key")
  | Some block => res_wrap "parse private key: %w" (new_private_key dnskey block)
  end.

Definition LoadPublicDNSKEY (pemText : string) : res (rr_header * dnskey_data) :=
  match pem_decode (trim_space pemText) with
  | None => Err (errNew "invalid PEM public key")
  | Some block =>
      let? r := res_wrap "parse public DNSKEY: %w" (new_rr (trim_space block)) in
      match r with
      | Some (RR h (DDNSKEY k)) => Ok (h, k)
      | _ => Err (errNew "PEM block is not a DNSKEY record")
      end
  end.

Definition DSRecord (origin : string) (h : rr_header) (ksk : dnskey_data) (digestType : N) : res rr :=
  match to_ds h ksk digestType with
  | None => Err (errNew "unsupported digest type %d")
  | Some (hd, ds) =>
      Ok (RR (Hdr (canonical_name origin) (h_rrtype hd) (h_class hd) (h_ttl hd)) (DDS ds))
  end.

Definition FormatDS (origin : string) (ds : ds_data) : string :=
  join [trim_suffix (canonical_name origin) "."; format_uint (DKeyTag ds);
        format_uint (DAlgorithm ds); format_uint (DDigestType ds); to_upper (DDigest ds)] " ".

Definition IsEnabled (d : D) (zone view : string) : res bool :=
  let? count := res_wrap "query dnssec keys: %w"
    (kd_count d (normalizeZone zone) (normalizeView view)) in
  Ok (2 <=? count)%N.

Definition SaveKey (d : D) (zone view : string) (material : KeyMaterial P) : res D :=
  let? privPEM := EncodePrivateKeyPEM (k_dnskey material) (Private material) in
  let pubPEM := EncodePublicKeyPEM (k_hdr material) (k_dnskey material) in
  res_wrap "save dnssec key: %w"
    (kd_upsert d (normalizeZone zone) (normalizeView view)
       (KeyRow (KeyType material) (KAlgorithm (k_dnskey material)) privPEM pubPEM
          (CreatedAt material))).

(** One row scanned: the public key takes the zone's name and the stored
    algorithm. *)
Definition rowMaterial (zone : string) (r : key_row) : res (KeyMaterial P) :=
  let? (h, k) := LoadPublicDNSKEY (row_public r) in
  let h := Hdr zone (h_rrtype h) (h_class h) (h_ttl h) in
  let k := DNSKEYData (KFlags k) (KProtocol k) (row_algorithm r) (PublicKey k) in
  let? priv := LoadPrivateKey k (row_private r) in
  Ok (MkKeyMaterial (row_type r) h k priv (row_created r)).

Fixpoint scanRows (zone : string) (rows : list key_row) (ksk zsk : option (KeyMaterial P))
    : res (option (KeyMaterial P) * option (KeyMaterial P)) :=
  match rows with
  | [] => Ok (ksk, zsk)
  | r :: rest =>
      let? material := rowMaterial zone r in
      if bool_decide (row_type r = "KSK") then scanRows zone rest (Some material) zsk
      else if bool_decide (row_type r = "ZSK") then scanRows zone rest ksk (Some material)
      else scanRows zone rest ksk zsk
  end.

Definition LoadKeys (d : D) (zone view : string) : res (KeyMaterial P * KeyMaterial P) :=
  let zone := normalizeZone zone in
  let view := normalizeView view in
  let? rows := res_wrap "query dnssec keys: %w" (kd_select d zone view) in
  let? found := scanRows zone rows None None in
  match found with
  | (Some ksk, Some zsk) => Ok (ksk, zsk)
  | _ => Err (errNew "missing KSK or ZSK for zone %s view %s")
  end.

Definition GetStatus (d : D) (zone view : string) : res Status :=
  let zone := normalizeZone zone in
  let view := normalizeView view in
  let? enabled := IsEnabled d zone view in
  if negb enabled then Ok (MkStatus false zone view 0 0 0 "" "")
  else
    let? (ksk, zsk) := LoadKeys d zone view in
    let? ds := DSRecord zone (k_hdr ksk) (k_dnskey ksk) SHA256 in
    Ok (MkStatus enabled zone view (KAlgorithm (k_dnskey ksk)) (key_tag (k_dnskey ksk))
          (key_tag (k_dnskey zsk))
          (match dat ds with DDS x => FormatDS zone x | _ => "" end) (CreatedAt ksk)).

(** [EnsureKeys]: a failure after the KSK was saved leaves it saved, so the
    database is returned with the error. *)
Definition EnsureKeys (entropy : string → string) (now : string) (d : D) (zone view : string)
    (ttl : N) : D * option error :=
  match IsEnabled d zone view with
  | Err e => (d, Some e)
  | Ok true => (d, None)
  | Ok false =>
      let zone := normalizeZone zone in
      let save d keyType :=
        let? material := GenerateKeyPair (entropy keyType) now zone keyType ttl in
        SaveKey d zone view material in
      match save d "KSK" with
      | Err e => (d, Some e)
      | Ok d1 => match save d1 "ZSK" with Err e => (d1, Some e) | Ok d2 => (d2, None) end
      end
  end.

Definition DeleteKeys (d : D) (zone view : string) : res D :=
  res_wrap "delete dnssec keys: %w" (kd_delete d (normalizeZone zone) (normalizeView view)).

End store.

(** * Lemmas *)
Section lemmas.
Context {P D : Type} {DT : DnsText} {DC : DnssecCrypto P} {KT : KeyText P} {KD : KeyDB D}
  {KL : KeyDBLaws D}.

Lemma enabled_iff (d : D) z v b :
  IsEnabled d z v = Ok b →
  b = true ↔ is_Some (kd_table d !! (normalizeZone z, normalizeView v, "KSK")) ∧
             is_Some (kd_table d !! (normalizeZone z, normalizeView v, "ZSK")).
Proof.
  unfold IsEnabled. destruct (kd_count _ _ _) as [n|] eqn:E; cbn [res_wrap res_bind]; [|done].
  intros [= <-]. apply kd_count_law in E as ->. cbn [List.filter].
  repeat case_bool_decide; cbn; naive_solver.
Qed.

Lemma normalizeZone_idemp z : normalizeZone (normalizeZone z) = normalizeZone z.
Proof.
  unfold normalizeZone at 2 3. case_bool_decide as E; [done|].
  set (t := trim_space (to_lower z)) in *.
  assert (to_lower t = t ∧ trim_space t = t) as [Hl Ht].
  { split; [|apply trim_space_idemp]. unfold t, trim_space.
    assert (∀ l, map lower l = l → map lower (trim is_space l) = trim is_space l) as Hm.
    { intros l Hl. assert (∀ k, k ⊆ l → map lower k = k) as Hsub.
      { intros k Hk. rewrite <-(map_id k) at 2. apply map_ext_in. intros c Hc.
        apply list_elem_of_In, Hk, list_elem_of_lookup in Hc as [i Hi].
        assert (map lower l !! i = l !! i) as Hi' by by rewrite Hl.
        change (map lower l) with (lower <$> l) in Hi'.
        rewrite list_lookup_fmap, Hi in Hi'. by injection Hi'. }
      apply Hsub. intros c Hc. unfold trim, drop_while_end in Hc.
      apply elem_of_reverse in Hc.
      destruct (drop_while_suffix is_space (reverse (drop_while is_space l))) as [k1 E1].
      assert (c ∈ reverse (drop_while is_space l)) as Hc1 by (rewrite E1; set_solver).
      apply elem_of_reverse in Hc1.
      destruct (drop_while_suffix is_space l) as [k2 E2]. rewrite E2. set_solver. }
    unfold to_lower at 1. rewrite bytes_mk. f_equal. rewrite Hm; [done|].
    rewrite <-(bytes_mk (map lower _)). fold (to_lower (to_lower z)).
    by rewrite to_lower_idemp. }
  destruct (has_suffix t ".") eqn:Hs; cbn [negb]; unfold normalizeZone.
  - rewrite Hl, Ht, Hs. by rewrite bool_decide_false.
  - rewrite to_lower_app, Hl. change (to_lower ".") with ".".
    rewrite trimmed_trim; [|apply trimmed_snoc; [|done]].
    + rewrite bool_decide_false.
      * by rewrite (proj2 (has_suffix_spec _ _)) by (by eexists).
      * intros E'%(f_equal slen). rewrite slen_app in E'. change (slen ".") with 1 in E'.
        change (slen "") with 0 in E'. lia.
    + rewrite <-Ht. apply trim_space_trimmed.
Qed.

(** * Properties *)

(** Auto-DNSSEC is on for a zone and view exactly when both keys are in
    the table: [EnsureKeys] without an error turns it on, [DeleteKeys] turns
    it off, neither touches another zone or view, and an error of
    [EnsureKeys] leaves at most the KSK behind. *)
Theorem keys_lifecycle entropy now (d : D) z v ttl :
  let at_ := (normalizeZone z, normalizeView v) in
  (∀ d', EnsureKeys entropy now d z v ttl = (d', None) →
     is_Some (kd_table d' !! (at_, "KSK")) ∧ is_Some (kd_table d' !! (at_, "ZSK"))) ∧
  (∀ d' e k, EnsureKeys entropy now d z v ttl = (d', e) →
     k.1 ≠ at_ → kd_table d' !! k = kd_table d !! k) ∧
  (∀ d' b, DeleteKeys d z v = Ok d' → IsEnabled d' z v = Ok b → b = false) ∧
  (∀ d' k, DeleteKeys d z v = Ok d' → k.1 ≠ at_ → kd_table d' !! k = kd_table d !! k).
Proof.
  intros at_. assert (∀ d t m d', SaveKey d (normalizeZone z) v m = Ok d' →
    KeyType m = t → ∃ r, kd_table d' = <[(at_, t) := r]> (kd_table d)) as Hsave.
  { intros d0 t m d' Hs <-. unfold SaveKey in Hs.
    destruct (EncodePrivateKeyPEM _ _); cbn [res_bind] in Hs; [|done].
    apply res_wrap_ok, kd_upsert_law in Hs. rewrite normalizeZone_idemp in Hs. eauto. }
  assert (∀ ent t m, GenerateKeyPair ent now (normalizeZone z) t ttl = Ok m → KeyType m = t) as Hgen.
  { intros ent t m. unfold GenerateKeyPair. destruct (_ || _); [done|].
    destruct (res_wrap _ _) as [[]|]; cbn [res_bind]; [by intros [= <-] | done]. }
  assert (∀ d' e, EnsureKeys entropy now d z v ttl = (d', e) →
    (d' = d ∧ (e = None → is_Some (kd_table d !! (at_, "KSK")) ∧ is_Some (kd_table d !! (at_, "ZSK"))))
    ∨ (e ≠ None ∧ ∃ r, kd_table d' = <[(at_, "KSK") := r]> (kd_table d))
    ∨ ∃ r s, kd_table d' = <[(at_, "ZSK") := s]> (<[(at_, "KSK") := r]> (kd_table d))) as Hens.
  { intros d' e. unfold EnsureKeys. destruct (IsEnabled d z v) as [[]|] eqn:Een.
    - intros [= <- <-]. left. split; [done|]. intros _. by apply (enabled_iff d z v true).
    - destruct (GenerateKeyPair _ _ _ "KSK" _) as [m1|] eqn:G1; cbn [res_bind].
      2:{ intros [= <- <-]. by left. }
      destruct (SaveKey d _ v m1) as [d1|] eqn:S1; [|intros [= <- <-]; by left].
      apply (Hsave _ "KSK") in S1 as [r1 R1]; [|by eapply Hgen].
      destruct (GenerateKeyPair _ _ _ "ZSK" _) as [m2|] eqn:G2; cbn [res_bind].
      2:{ intros [= <- <-]. right. left. eauto. }
      destruct (SaveKey d1 _ v m2) as [d2|] eqn:S2; [|intros [= <- <-]; right; left; eauto].
      apply (Hsave _ "ZSK") in S2 as [r2 R2]; [|by eapply Hgen].
      intros [= <- <-]. right. right. exists r1, r2. by rewrite R2, R1.
    - intros [= <- <-]. by left. }
  split_and!.
  - intros d' [[-> Hk]|[[? _]|(r & s & ->)]]%Hens; [by apply Hk | done|]. split.
    + rewrite lookup_insert_ne by done. rewrite lookup_insert_eq. by eexists.
    + rewrite lookup_insert_eq. by eexists.
  - intros d' e k [[-> _]|[[_ [r ->]]|(r & s & ->)]]%Hens Hk; [done|..].
    + rewrite lookup_insert_ne; [done|]. by intros <-.
    + rewrite !lookup_insert_ne; [done|..]; by intros <-.
  - intros d' b Hd Hb. unfold DeleteKeys in Hd. apply res_wrap_ok in Hd.
    apply enabled_iff in Hb. destruct b; [|done]. exfalso.
    destruct (proj1 Hb eq_refl) as [[r Hr] _].
    rewrite (kd_delete_law _ _ _ _ Hd) in Hr. cbn in Hr. by rewrite decide_True in Hr.
  - intros d' k Hd Hk. unfold DeleteKeys in Hd. apply res_wrap_ok in Hd.
    rewrite (kd_delete_law _ _ _ _ Hd). by rewrite decide_False.
Qed.

End lemmas.

(** ** Witnesses: the table itself as the database *)
Definition table_count (d : key_table) (z v : string) : N :=
  N.of_nat (length (List.filter (λ t, bool_decide (is_Some (d !! (z, v, t)))) ["KSK"; "ZSK"])).
Definition table_select (d : key_table) (z v : string) : list key_row :=
  map snd (map_to_list (filter (λ kr, kr.1.1 = (z, v) ∧ kr.1.2 = row_type kr.2) d)).

#[export] Instance table_db : KeyDB key_table | 100 := {|
  kd_count d z v := Ok (table_count d z v);
  kd_upsert d z v r := Ok (<[(z, v, row_type r) := r]> d);
  kd_select d z v := Ok (table_select d z v);
  kd_delete d z v := Ok (filter (λ kr, kr.1.1 ≠ (z, v)) d)
|}.

Lemma elem_table_select d z v r : r ∈ table_select d z v ↔ d !! (z, v, row_type r) = Some r.
Proof.
  unfold table_select. rewrite list_elem_of_fmap. split.
  - intros ([[k t] r'] & -> & Hin%elem_of_map_to_list). cbn.
    apply map_lookup_filter_Some in Hin as [Hd [E1 E2]]. cbn in E1, E2. by subst.
  - intros Hd. exists (z, v, row_type r, r). split; [done|].
    apply elem_of_map_to_list, map_lookup_filter_Some. done.
Qed.

#[export] Program Instance table_db_laws : KeyDBLaws key_table | 100 := {| kd_table d := d |}.
Next Obligation. by intros d z v n [= <-]. Qed.
Next Obligation. by intros d z v r d' [= <-]. Qed.
Next Obligation.
  intros d z v rows [= <-]. split; [|intros; apply elem_table_select].
  unfold table_select. rewrite map_map.
  set (m := filter _ d). assert (∀ k r, m !! k = Some r → k.1 = (z, v) ∧ row_type r = k.2) as Hm.
  { intros k r [_ [? ?]]%map_lookup_filter_Some. by subst. }
  change (NoDup ((λ x : string * string * string * key_row, row_type x.2) <$> map_to_list m)).
  apply NoDup_fmap_2_strong; [|apply NoDup_map_to_list].
  intros [k1 r1] [k2 r2] H1%elem_of_map_to_list H2%elem_of_map_to_list E. cbn in E.
  assert (k1 = k2) as <-; [|congruence].
  apply Hm in H1 as [? ?], H2 as [? ?]. destruct k1, k2. simpl in *. congruence.
Qed.
Next Obligation.
  intros d z v d' [= <-] k. destruct (decide (k.1 = (z, v))) as [E|E].
  - apply map_lookup_filter_None. right. intros r _. cbn. tauto.
  - destruct (d !! k) as [r|] eqn:Hd.
    + by apply map_lookup_filter_Some.
    + apply map_lookup_filter_None. by left.
Qed.

#[export] Instance demo_key_text : KeyText string | 100 := {|
  generate_key e k := Ok (DNSKEYData (KFlags k) (KProtocol k) (KAlgorithm k) e, e);
  private_key_string k p := "Private-key-format: " +:+ p;
  new_private_key k s := Ok s;
  pem_encode t b := t +:+ b;
  pem_decode s := Some s;
  to_ds h k t := None
|}.

Definition demo_keys : key_table * option error :=
  EnsureKeys (λ role, role +:+ "-entropy") "2026-01-01T00:00:00Z" ∅ "Example.com" "public" 300.

Lemma keys_lifecycle_witness :
  is_Some (kd_table demo_keys.1 !! (normalizeZone "Example.com", normalizeView "public", "KSK")) ∧
  is_Some (kd_table demo_keys.1 !! (normalizeZone "Example.com", normalizeView "public", "ZSK")).
Proof.
  apply (proj1 (keys_lifecycle (λ role, role +:+ "-entropy") "2026-01-01T00:00:00Z"
    (∅ : key_table) "Example.com" "public" 300) demo_keys.1).
  assert (demo_keys.2 = None) as E by by vm_compute.
  change (demo_keys = (demo_keys.1, None)). rewrite <-E. by destruct demo_keys.
Defined.

End KeyStore.
