(* ===== verification/Files.v ===== *)
(** * Paths and files

    Go's [path/filepath] on Unix ([Clean], [Join], [Dir], [Base], [Ext]) and
    the interface [FileSys] of the calls of package os the sources make, with
    what those calls promise about the contents of the named files. *)
From S2P Require Import Prelude.

(** ** filepath *)
Definition path_segments (p : string) : list string := split p "/".

Definition clean_step (rooted : bool) (out : list string) (seg : string) : list string :=
  if bool_decide (seg = "") || bool_decide (seg = ".") then out
  else if bool_decide (seg = "..") then
    match last out with
    | None => if rooted then [] else [".."]
    | Some l => if bool_decide (l = "..") then out ++ [".."] else removelast out
    end
  else out ++ [seg].

Definition path_clean (p : string) : string :=
  let rooted := has_prefix p "/" in
  let body := join (foldl (clean_step rooted) [] (path_segments p)) "/" in
  if rooted then "/" +:+ body else if bool_decide (body = "") then "." else body.

Definition path_join (elems : list string) : string :=
  match List.filter (λ e, negb (bool_decide (e = ""))) elems with
  | [] => ""
  | es => path_clean (join es "/")
  end.

(** Up to and excluding the last slash, and what follows it. *)
Definition before_slash (p : string) : string :=
  let r := reverse (bytes p) in
  mk (reverse (drop (S (length (take_until (is_char "/") r))) r)).
Definition after_slash (p : string) : string :=
  mk (reverse (take_until (is_char "/") (reverse (bytes p)))).

Definition path_dir (p : string) : string :=
  if contains p "/" then
    path_clean (if has_prefix p "/" && bool_decide (before_slash p = "") then "/" else before_slash p)
  else ".".

Definition path_base (p : string) : string :=
  if bool_decide (p = "") then "."
  else
    let stripped := mk (drop_while_end (is_char "/") (bytes p)) in
    if bool_decide (stripped = "") then "/" else after_slash stripped.

(** The suffix of the last element from its final dot. *)
Definition path_ext (p : string) : string :=
  let r := reverse (bytes (after_slash p)) in
  let e := take_until (is_char ".") r in
  if (length e <? length r)%nat then "." +:+ mk (reverse e) else "".

(** ** Files *)
Record dir_entry := DirEntry { de_name : string; de_is_dir : bool }.

Class FileSys (W : Type) := {
  fs_mkdir_all : W → string → W * option error;
  fs_open_trunc : W → string → W * option error;
  fs_append : W → string → string → W * option error;
  fs_close : W → string → W * option error;
  fs_rename : W → string → string → W * option error;
  fs_remove : W → string → W * option error;
  fs_is_not_exist : error → bool;
  fs_read : W → string → res string;
  fs_read_dir : W → string → res (list dir_entry)
}.

(** [os.WriteFile]: the first error of the write and the close is reported. *)
Definition os_write_file {W} `{FileSys W} (w : W) (p data : string) : W * option error :=
  match fs_open_trunc w p with
  | (w, Some e) => (w, Some e)
  | (w, None) =>
      let '(w, e1) := fs_append w p data in
      let '(w, e2) := fs_close w p in
      (w, match e1 with Some e => Some e | None => e2 end)
  end.

(** [os.Stat]: the time of the last change. *)
Class FileStat (W : Type) := { fs_stat : W → string → res N }.

Class FileSysLaws (W : Type) `{FileSys W} := {
  fs_file : W → string → option string;
  mkdir_files : ∀ w p q, fs_file (fs_mkdir_all w p).1 q = fs_file w q;
  open_other : ∀ w p q, q ≠ p → fs_file (fs_open_trunc w p).1 q = fs_file w q;
  open_ok : ∀ w p w', fs_open_trunc w p = (w', None) → fs_file w' p = Some "";
  append_other : ∀ w p s q, q ≠ p → fs_file (fs_append w p s).1 q = fs_file w q;
  append_ok : ∀ w p s w' t, fs_append w p s = (w', None) → fs_file w p = Some t →
    fs_file w' p = Some (t +:+ s);
  close_files : ∀ w p q, fs_file (fs_close w p).1 q = fs_file w q;
  rename_ok : ∀ w p q w' r, fs_rename w p q = (w', None) → p ≠ q →
    fs_file w' r = if decide (r = q) then fs_file w p
                   else if decide (r = p) then None else fs_file w r;
  rename_err : ∀ w p q w' e r, fs_rename w p q = (w', Some e) → fs_file w' r = fs_file w r;
  remove_other : ∀ w p q, q ≠ p → fs_file (fs_remove w p).1 q = fs_file w q;
  remove_ok : ∀ w p w', fs_remove w p = (w', None) → fs_file w' p = None;
  remove_err : ∀ w p w' e, fs_remove w p = (w', Some e) → fs_file w' p = fs_file w p;
  remove_absent : ∀ w p w' e, fs_remove w p = (w', Some e) → fs_is_not_exist e = true → fs_file w p = None
}.

(** What a file holds is what reading it gives, and a file that can be read
    has a time. *)
Class FileReads (W : Type) `{FileSysLaws W} : Prop := {
  read_file w p t : fs_file w p = Some t → fs_read w p = Ok t
}.
Class FileReadLaws (W : Type) `{FileReads W} `{FileStat W} : Prop := {
  read_stat w p t : fs_read w p = Ok t → ∃ m, fs_stat w p = Ok m
}.

Lemma os_write_file_ok `{FileSysLaws W} w p data w' :
  os_write_file w p data = (w', None) → fs_file w' p = Some data.
Proof.
  unfold os_write_file. destruct (fs_open_trunc w p) as [w1 [e|]] eqn:E1; [done|].
  destruct (fs_append w1 p data) as [w2 e2] eqn:E2.
  destruct (fs_close w2 p) as [w3 e3] eqn:E3. intros [= -> He]. destruct e2; [done|].
  apply open_ok in E1. apply (append_ok _ _ _ _ "") in E2; [|done].
  change w' with ((w', e3).1). rewrite <-E3, close_files. exact E2.
Qed.

(** A name that can be that of a directory entry. *)
Definition entry_name (n : string) : bool :=
  negb (bool_decide (n = "")) && negb (bool_decide (n = ".")) && negb (bool_decide (n = "..")) &&
  negb (existsb (is_char "/") (bytes n)).

Lemma entry_name_slash n : entry_name n = true → Forall (λ c, is_char "/" c = false) (bytes n).
Proof.
  unfold entry_name. rewrite !andb_true_iff, !negb_true_iff. intros (_ & He).
  apply Forall_forall. intros c Hc. apply not_true_iff_false. intros E.
  apply not_true_iff_false in He. apply He, existsb_exists. exists c. by rewrite <-list_elem_of_In.
Qed.

Lemma split_with_app_sep p l c m : p c = true →
  split_with p (l ++ c :: m) = split_with p l ++ split_with p m.
Proof.
  intros Hc. induction l as [|x l IH]; cbn [split_with app]; [by rewrite Hc|].
  rewrite IH. destruct (p x); [done|].
  pose proof (split_with_nonnil p l). by destruct (split_with p l).
Qed.

(** The path of an entry is a part that depends on the directory alone, and
    the name. *)
Definition dir_part (dir : string) : string :=
  if bool_decide (dir = "") then ""
  else
    let rooted := has_prefix dir "/" in
    let out := foldl (clean_step rooted) [] (path_segments dir) in
    (if rooted then "/" else "") +:+ (if bool_decide (out = []) then "" else join out "/" +:+ "/").

Lemma path_segments_entry n : entry_name n = true → path_segments n = [n].
Proof.
  intros Hn%entry_name_slash. unfold path_segments, split.
  rewrite <-(app_nil_r (bytes n)), split_with_app by done. cbn. by rewrite app_nil_r, mk_bytes.
Qed.

Lemma clean_step_entry rooted out n : entry_name n = true → clean_step rooted out n = out ++ [n].
Proof.
  unfold entry_name, clean_step. rewrite !andb_true_iff, !negb_true_iff. intros (((-> & ->) & ->) & _).
  done.
Qed.

Lemma entry_not_rooted n : entry_name n = true → has_prefix n "/" = false.
Proof.
  intros Hn%entry_name_slash. apply not_true_iff_false. intros [t ->]%has_prefix_spec.
  by apply Forall_cons in Hn as [? _].
Qed.

Lemma path_join_entry dir n : entry_name n = true → path_join [dir; n] = dir_part dir +:+ n.
Proof.
  intros Hn. assert (Hne : n ≠ "") by (intros ->; done).
  unfold path_join, dir_part. cbn [List.filter]. rewrite (bool_decide_eq_false_2 (n = "")) by done.
  cbn [negb]. case_bool_decide as Hd; cbn [negb].
  - rewrite join_single. unfold path_clean. rewrite entry_not_rooted, path_segments_entry by done.
    cbn [foldl]. rewrite clean_step_entry by done. cbn [app]. rewrite join_single.
    by rewrite bool_decide_eq_false_2.
  - rewrite join_cons, join_single. unfold path_clean.
    assert (Hr : has_prefix (dir +:+ "/" +:+ n) "/" = has_prefix dir "/").
    { destruct dir as [|c dir]; [done|]. unfold has_prefix. apply bool_decide_ext.
      rewrite !bytes_app. cbn. split; intros [k Hk]; injection Hk as -> _; by eexists. }
    rewrite Hr. assert (Hs : path_segments (dir +:+ "/" +:+ n) = path_segments dir ++ [n]).
    { unfold path_segments, split. rewrite !bytes_app. change (bytes "/" ++ bytes n) with ("/"%char :: bytes n).
      rewrite split_with_app_sep, map_app by done. f_equal. by apply path_segments_entry. }
    rewrite Hs, foldl_app. cbn [foldl]. rewrite clean_step_entry by done.
    set (out := foldl _ _ _).
    assert (Hj : join (out ++ [n]) "/" = (if bool_decide (out = []) then "" else join out "/" +:+ "/") +:+ n).
    { clearbody out. case_bool_decide as E; [by rewrite E; apply join_single|]. apply bytes_inj.
      rewrite bytes_join, map_app, join_with_app, !bytes_app, bytes_join, <-app_assoc; [done| |done].
      by destruct out. }
    rewrite Hj. destruct (has_prefix dir "/"); [by apply bytes_inj; rewrite !bytes_app, <-app_assoc|].
    rewrite bool_decide_eq_false_2; [done|].
    by destruct (if bool_decide (out = []) then _ else _).
Qed.

Lemma path_join_inj dir n n' : entry_name n = true → entry_name n' = true →
  path_join [dir; n] = path_join [dir; n'] → n = n'.
Proof.
  intros Hn Hn'. rewrite !path_join_entry by done. intros E%(f_equal bytes).
  rewrite !bytes_app in E. by apply app_inv_head, bytes_inj in E.
Qed.

(** A directory lists the files in it, each once. *)
Class DirLaws (W : Type) `{FileSysLaws W} : Prop := {
  read_dir_names w dir es : fs_read_dir w dir = Ok es →
    NoDup (map de_name es) ∧ Forall (λ e, entry_name (de_name e) = true) es;
  read_dir_files w dir es n : fs_read_dir w dir = Ok es → entry_name n = true →
    is_Some (fs_file w (path_join [dir; n])) ↔
    ∃ e, e ∈ es ∧ de_name e = n ∧ de_is_dir e = false;
  read_dir_none w dir e n : fs_read_dir w dir = Err e → fs_is_not_exist e = true →
    entry_name n = true → fs_file w (path_join [dir; n]) = None
}.

(** ** Lines of a file *)

(** [bufio.Scanner]: the lines, without a trailing carriage return, and the
    error of a line that does not fit in the scanner's buffer. *)
Definition errTooLong := errNew "bufio.Scanner: token too long".
Definition maxScanTokenSize := 65536%N.
Fixpoint scan (lines : list (list ascii)) : list string * option error :=
  match lines with
  | [] | [[]] => ([], None)
  | l :: lines =>
      if (maxScanTokenSize <=? N.of_nat (length l))%N then ([], Some errTooLong)
      else
        let '(out, e) := scan lines in
        (trim_suffix (mk l) (String (ascii_of_N 13) "") :: out, e)
  end.
Definition scan_text (data : string) : list string * option error :=
  scan (split_with (is_char (ascii_of_N 10)) (bytes data)).

(** [io.ReadAll] of an [io.LimitReader] over a body and the error that may end
    it. *)
Definition read_limited (n : N) (b : string * option error) : res string :=
  if (n <=? N.of_nat (slen b.1))%N then Ok (mk (take (N.to_nat n) (bytes b.1)))
  else match b.2 with Some e => Err e | None => Ok b.1 end.

(** ** A file system in memory, for witnesses *)
Abbreviation ram := (gmap string string).
#[export] Instance ram_stat : FileStat ram | 100 := {|
  fs_stat w p := match w !! p with Some _ => Ok 0%N | None => Err (errNew "no such file or directory") end
|}.

(** The names of the files in a directory. *)
Definition ram_names (w : ram) (dir : string) : list string :=
  List.filter entry_name (omap
    (λ p, if has_prefix p (dir_part dir) then Some (trim_prefix p (dir_part dir)) else None)
    (map_to_list w).*1).

#[export] Instance ram_fs : FileSys ram | 100 := {|
  fs_mkdir_all w p := (w, None);
  fs_open_trunc w p := (<[p := ""]> w, None);
  fs_append w p s := (alter (λ t, t +:+ s) p w, None);
  fs_close w p := (w, None);
  fs_rename w p q :=
    match w !! p with
    | Some t => (if decide (p = q) then w else <[q := t]> (delete p w), None)
    | None => (w, Some (errNew "no such file or directory"))
    end;
  fs_remove w p :=
    match w !! p with
    | Some _ => (delete p w, None)
    | None => (w, Some (errNew "no such file or directory"))
    end;
  fs_is_not_exist e := bool_decide (e = errNew "no such file or directory");
  fs_read w p := match w !! p with Some t => Ok t | None => Err (errNew "no such file or directory") end;
  fs_read_dir w p := Ok (map (λ n, DirEntry n false) (ram_names w p))
|}.

#[export] Program Instance ram_fs_laws : FileSysLaws ram | 100 := {| fs_file w p := w !! p |}.
Next Obligation. done. Qed.
Next Obligation. intros w p q Hq. cbn. by rewrite lookup_insert_ne. Qed.
Next Obligation. intros w p w' [= <-]. by rewrite lookup_insert_eq. Qed.
Next Obligation. intros w p s q Hq. cbn. by rewrite lookup_alter_ne. Qed.
Next Obligation. intros w p s w' t [= <-] Hp. by rewrite lookup_alter_eq, Hp. Qed.
Next Obligation. done. Qed.
Next Obligation.
  intros w p q w' r. cbn. destruct (w !! p) as [t|] eqn:Hp; [|done]. intros [= <-] Hne.
  rewrite decide_False by done. destruct (decide (r = q)) as [->|].
  - by rewrite lookup_insert_eq.
  - rewrite lookup_insert_ne by done. destruct (decide (r = p)) as [->|].
    + by rewrite lookup_delete_eq.
    + by rewrite lookup_delete_ne.
Qed.
Next Obligation.
  intros w p q w' e r. cbn. destruct (w !! p); [done|]. by intros [= <- _].
Qed.
Next Obligation.
  intros w p q Hq. cbn. destruct (w !! p); cbn; [|done]. by rewrite lookup_delete_ne.
Qed.
Next Obligation.
  intros w p w'. cbn. destruct (w !! p) eqn:E; [|done]. intros [= <-]. by rewrite lookup_delete_eq.
Qed.
Next Obligation.
  intros w p w' e. cbn. destruct (w !! p) eqn:E; [done|]. by intros [= <- _].
Qed.
Next Obligation. intros w p w' e. cbn. by destruct (w !! p). Qed.

#[export] Instance ram_reads : FileReads ram.
Proof. split. intros w p t. cbn. destruct (w !! p); [by intros [= ->]|done]. Qed.
#[export] Instance ram_read_laws : FileReadLaws ram.
Proof. split; intros w p t; cbn; destruct (w !! p); [by eexists|done]. Qed.

Lemma ram_names_spec (w : ram) dir n :
  n ∈ ram_names w dir ↔ entry_name n = true ∧ is_Some (w !! (dir_part dir +:+ n)).
Proof.
  unfold ram_names. rewrite list_elem_of_In, filter_In, <-list_elem_of_In, list_elem_of_omap.
  split.
  - intros [(p & [[p' t] [-> Hp]]%list_elem_of_fmap & Hn) He]. cbn in Hn. case_match eqn:Hpre; [|done].
    injection Hn as <-. split; [done|]. apply has_prefix_spec in Hpre as [u ->].
    rewrite trim_prefix_app. exists t. by apply elem_of_map_to_list.
  - intros [He [t Ht]]. split; [|done]. exists (dir_part dir +:+ n). split.
    + apply list_elem_of_fmap. exists (dir_part dir +:+ n, t). split; [done|]. by apply elem_of_map_to_list.
    + assert (has_prefix (dir_part dir +:+ n) (dir_part dir) = true) as -> by (apply has_prefix_spec; by eexists).
      by rewrite trim_prefix_app.
Qed.

Lemma ram_names_NoDup (w : ram) dir : NoDup (ram_names w dir).
Proof.
  unfold ram_names. apply NoDup_ListNoDup, List.NoDup_filter, NoDup_ListNoDup.
  pose proof (NoDup_fst_map_to_list w) as Hnd. induction Hnd as [|p ps Hni Hnd IH]; [constructor|].
  cbn [omap list_omap]. case_match eqn:Hp; [|exact IH]. constructor; [|exact IH].
  intros (p' & Hin & Hp')%list_elem_of_omap.
  assert (E : ∀ q u, (if has_prefix q (dir_part dir) then Some (trim_prefix q (dir_part dir)) else None) = Some u →
    q = dir_part dir +:+ u).
  { intros q u. destruct (has_prefix q _) eqn:E; [|done]. intros [= <-].
    apply has_prefix_spec in E as [v ->]. by rewrite trim_prefix_app. }
  apply E in Hp as ->. apply E in Hp' as ->. done.
Qed.

#[export] Instance ram_dir_laws : DirLaws ram.
Proof.
  split.
  - intros w dir es [= <-]. split.
    { rewrite map_map. erewrite map_ext; [rewrite map_id; apply ram_names_NoDup|done]. }
    apply Forall_forall. intros e [n [-> Hn]]%list_elem_of_fmap. by apply ram_names_spec in Hn as [? _].
  - intros w dir es n [= <-] Hn. rewrite path_join_entry by done. split.
    + intros Hs. exists (DirEntry n false). split; [|done]. apply list_elem_of_fmap.
      exists n. split; [done|]. by apply ram_names_spec.
    + intros (e & [m [-> Hm]]%list_elem_of_fmap & [= <-] & _). by apply ram_names_spec in Hm as [_ ?].
  - done.
Qed.

(** ** Replacing a file through a temporary one

    The common shape of the writers: directory, temporary file, rename; an
    error after the temporary file was opened removes it. The labels are those
    of the errors the writer returns. *)
Section replace.
Context {W : Type} `{FileSys W}.

Definition drop_tmp (w : W) (tmp : string) (label : string) (e : error) : W * option error :=
  ((fs_remove w tmp).1, Some (errWrap label e)).

End replace.

(** What a replacement leaves: the file is replaced as a whole or left alone,
    and no other but the temporary one changes. *)
Definition replaced {W} `{FileSysLaws W} (w w' : W) (path text : string) (e : option error) : Prop :=
  (fs_file w' path = if e then fs_file w path else Some text) ∧
  ∀ q, q ≠ path → q ≠ path +:+ ".tmp" → fs_file w' q = fs_file w q.

Lemma tmp_ne (path : string) : path +:+ ".tmp" ≠ path.
Proof. intros E%(f_equal slen). rewrite slen_app in E. change (slen ".tmp") with 4 in E. lia. Qed.

Lemma os_write_other `{FileSysLaws W} w p data q :
  q ≠ p → fs_file (os_write_file w p data).1 q = fs_file w q.
Proof.
  intros Hq. unfold os_write_file. pose proof (open_other w p q Hq) as H1.
  destruct (fs_open_trunc w p) as [w1 [e|]]; cbn [fst] in *; [done|].
  pose proof (append_other w1 p data q Hq) as H2. destruct (fs_append w1 p data) as [w2 e2].
  pose proof (close_files w2 p q) as H3. destruct (fs_close w2 p) as [w3 e3].
  cbn [fst] in *. congruence.
Qed.

(** Giving up: only the temporary file is touched. *)
Lemma drop_tmp_replaced `{FileSysLaws W} w0 w path text label e0 w' e :
  (∀ q, q ≠ path +:+ ".tmp" → fs_file w q = fs_file w0 q) →
  drop_tmp w (path +:+ ".tmp") label e0 = (w', e) → replaced w0 w' path text e.
Proof.
  unfold drop_tmp. intros Hw [= <- <-].
  pose proof (not_eq_sym (tmp_ne path)) as Ht.
  assert (H3 : ∀ q, q ≠ path +:+ ".tmp" → fs_file (fs_remove w (path +:+ ".tmp")).1 q = fs_file w0 q).
  { intros q Hq. by rewrite remove_other, Hw. }
  split; [by apply H3|]. intros q _ Hq. by apply H3.
Qed.

(** The last step of the writers: rename the temporary file, or drop it. *)
Lemma swap_tmp_replaced `{FileSysLaws W} w0 w path text label w' e :
  (∀ q, q ≠ path +:+ ".tmp" → fs_file w q = fs_file w0 q) →
  fs_file w (path +:+ ".tmp") = Some text →
  match fs_rename w (path +:+ ".tmp") path with
  | (w, Some e) => drop_tmp w (path +:+ ".tmp") label e
  | (w, None) => (w, None)
  end = (w', e) → replaced w0 w' path text e.
Proof.
  intros Hw Ht. pose proof (tmp_ne path) as Hne.
  destruct (fs_rename w (path +:+ ".tmp") path) as [w3 [e3|]] eqn:E3.
  - apply drop_tmp_replaced. intros q Hq. rewrite (rename_err _ _ _ _ _ q E3). by apply Hw.
  - intros [= <- <-]. pose proof (λ r, rename_ok _ _ _ _ r E3 Hne) as H3. split.
    + by rewrite H3, decide_True.
    + intros q Hq Hq'. rewrite H3, !decide_False by done. by apply Hw.
Qed.
