(* ===== verification/Store.v ===== *)
(** * The zone store: internal/storage/memory.go, registry.go, ttl_hints.go,
      mutations.go, records_api.go, zones_crud.go, update_apply.go, dnssec.go,
      loader.go

    [Memory] is the state of the store: the live trees of the two views, the
    registry of zones and the TTL hints. An operation of the server also reads
    and writes files and the key table, so it maps a [system] to a [system]
    and a result. Mutations run one at a time under [mutateMu], so each is one
    state transition; readers load the live tree pointer atomically. Where the
    source publishes a tree and then lets [persistZoneFile] sign that same
    tree in place, the published tree is the signed one, also on an error
    after signing. *)
From S2P Require Import Prelude Radix NetAddr Names Owner Ttl Records Sorting Tree Dns.
From S2P Require Import Signer KeyStore Files.
Import Owner TTL Records Tree Signer KeyStore.

(** Parsing a zone file with [mdns.NewZoneParser]: the records read before an
    error, and the error. *)
Class ZoneParser := {
  parse_zone : string → string → string → list rr * option error
}.

(** The first eight bytes of a SHA-256 digest, in hexadecimal. *)
Class Digest := { sha256_8 : string → string }.

Module Store.

(** [ParseZoneView] yields these two constants, and no other view is used. *)
Inductive ZoneView := ViewPublic | ViewInternal.

#[export] Instance ZoneView_eq_dec : EqDecision ZoneView.
Proof. solve_decision. Defined.

Definition view_string (v : ZoneView) : string :=
  match v with ViewPublic => "public" | ViewInternal => "internal" end.

Definition ParseZoneView (raw : string) : res ZoneView :=
  if bool_decide (raw = "") || bool_decide (raw = "public") then Ok ViewPublic
  else if bool_decide (raw = "internal") then Ok ViewInternal
  else Err (errNew "invalid view %q: must be public or internal").

Definition ErrZoneNotFound := errNew "zone not found".
Definition ErrRecordNotFound := errNew "record not found".
Definition ErrSOANotDeletable := errNew "SOA record cannot be deleted, only modified".
Definition ErrZoneAlreadyExists := errNew "zone already exists".
Definition ErrUpdateNXRRSET := errNew "rrset does not exist".
Definition ErrUpdateYXRRSET := errNew "rrset already exists".
Definition ErrUpdateNXDOMAIN := errNew "name does not exist".
Definition ErrUpdateYXDOMAIN := errNew "name already exists".
Definition ErrUpdateNotZone := errNew "name not in zone".
Definition ErrUpdateRefused := errNew "update refused".

Record zoneRecord := ZoneRecord { z_origin : string; z_view : ZoneView; z_filePath : string }.
Record ZoneInfo := MkZoneInfo {
  zi_origin : string; zi_view : ZoneView; zi_filePath : string; zi_records : nat
}.
Record ZoneRecordEntry := MkEntry {
  en_id : string; en_name : string; en_type : string; en_ttl : string; en_value : string
}.

Record Memory (T : Type → Type) := MkMemory {
  public : T byType;
  internal : T byType;
  byKey : gmap string zoneRecord;
  origins : gset string;
  hints : gmap string string;
  dnssec_on : bool                       (* a DNSSECManager is attached *)
}.
Arguments MkMemory {T}.
Arguments public {T}.
Arguments internal {T}.
Arguments byKey {T}.
Arguments origins {T}.
Arguments hints {T}.
Arguments dnssec_on {T}.

Definition internalViewDir := "internal".

Definition zoneRegistryKey (origin : string) (view : ZoneView) : string :=
  NormalizeName origin +:+ ":" +:+ view_string view.

(** ** Zone files *)
Definition nl : string := String (ascii_of_N 10) "".
Definition zero_byte : string := String (ascii_of_N 0) "".
Definition soa_sep : string := nl +:+ tab.

Section text.
Context {DT : DnsText} {DG : Digest}.

Definition ComputeRecordID (origin : string) (r : rr) : string :=
  let origin := NormalizeName origin in
  let name := relativeOwnerName (name_of r) origin in
  let typ := type_string (type_of r) in
  sha256_8 (name +:+ zero_byte +:+ typ +:+ zero_byte +:+ rrDataValue r).

Definition ttlHintKey (origin : string) (view : ZoneView) (r : rr) : string :=
  zoneRegistryKey origin view +:+ ":" +:+ ComputeRecordID origin r.

Definition soa_text (s : soa_data) : string :=
  s_ns s +:+ " " +:+ s_mbox s +:+ " (" +:+
  soa_sep +:+ format_uint (s_serial s) +:+ " ; serial" +:+
  soa_sep +:+ format_uint (s_refresh s) +:+ " ; refresh" +:+
  soa_sep +:+ format_uint (s_retry s) +:+ " ; retry" +:+
  soa_sep +:+ format_uint (s_expire s) +:+ " ; expire" +:+
  soa_sep +:+ format_uint (s_minttl s) +:+ " ; minimum" +:+ soa_sep +:+ ")".

Definition formatZoneLine (r : rr) (origin ttlText : string) : res string :=
  let owner := relativeOwnerName (name_of r) origin in
  let rdata := rrDataValue r in
  let ttl := if bool_decide (ttlText = "") then format_uint (ttl_of r) else ttlText in
  let line typ rdata := owner +:+ " " +:+ ttl +:+ " IN " +:+ typ +:+ " " +:+ rdata in
  match dat r with
  | DRFC3597 _ =>
      if bool_decide (rdata = "") then Err (errNew "empty rdata for %s %s")
      else Ok (line ("TYPE" +:+ format_uint (type_of r)) rdata)
  | _ =>
      let typ := type_string (type_of r) in
      if bool_decide (rdata = "") then Err (errNew "empty rdata for %s %s")
      else if (type_of r =? TypeSOA)%N then
        match dat r with
        | DSOA s => Ok (line "SOA" (soa_text s))
        | _ => Err (errNew "invalid SOA record")
        end
      else match dat r with
           | DTXT txt =>
               let rdata := formatTXTRdata txt in
               if bool_decide (rdata = "") then Err (errNew "empty rdata for %s TXT")
               else Ok (line "TXT" rdata)
           | _ => Ok (line typ rdata)
           end
  end.

(** The TTL of the first SOA of the sorted records, else 300. *)
Fixpoint defaultTTLOf (rrs : list rr) : N :=
  match rrs with
  | [] => 300%N
  | r :: rest =>
      if (type_of r =? TypeSOA)%N then
        match dat r with
        | DSOA _ => if (0 <? ttl_of r)%N then ttl_of r else 300%N
        | _ => 300%N
        end
      else defaultTTLOf rest
  end.

Fixpoint zoneLines (ttlHints : gmap string string) (origin : string) (rrs : list rr) : res string :=
  match rrs with
  | [] => Ok ""
  | r :: rest =>
      let? line := formatZoneLine r origin (default "" (ttlHints !! ComputeRecordID origin r)) in
      let? rest := zoneLines ttlHints origin rest in
      Ok (line +:+ nl +:+ rest)
  end.

Definition zoneFileText (origin : string) (ttlHints : gmap string string) (rrs : list rr)
    : res string :=
  let? lines := zoneLines ttlHints origin rrs in
  Ok ("$ORIGIN " +:+ origin +:+ nl +:+ "$TTL " +:+ format_uint (defaultTTLOf rrs) +:+ nl +:+ lines).

Definition formatInitialZoneFile (today origin : string) : string :=
  let origin := NormalizeName origin in
  let apex := trim_suffix origin "." in
  let serial := today +:+ "01" in
  let pad := "                    " in
  "$ORIGIN " +:+ origin +:+ nl +:+ "$TTL 3600" +:+ nl +:+
  "@       IN  SOA     ns1." +:+ apex +:+ ". admin." +:+ apex +:+ ". (" +:+ nl +:+
  pad +:+ serial +:+ " ; serial" +:+ nl +:+
  pad +:+ "3600       ; refresh" +:+ nl +:+
  pad +:+ "600        ; retry" +:+ nl +:+
  pad +:+ "86400      ; expire" +:+ nl +:+
  pad +:+ "3600       ; minimum" +:+ nl +:+ pad +:+ ")" +:+ nl.

Definition preserveSOASerial (existing : rr) (i : RecordInput) : res RecordInput :=
  match dat existing with
  | DSOA soa =>
      match fields (trim_space (in_value i)) with
      | f0 :: f1 :: f2 :: f3 :: f4 :: f5 :: f6 :: fs =>
          Ok (with_value i (join (f0 :: f1 :: format_uint (s_serial soa) :: f3 :: f4 :: f5 :: f6 :: fs) " "))
      | _ => Err (errNew "SOA value must be ns mbox serial refresh retry expire minimum")
      end
  | _ => Err (errNew "existing record is not SOA")
  end.

Definition originFromFilename (path : string) : string :=
  let base := path_base path in
  if negb (equal_fold (path_ext base) ".zone") then ""
  else
    let name := trim_suffix base (path_ext base) in
    if bool_decide (name = "") then "" else NormalizeName name.

(** The lines of the scanner, then the error that may have ended it. *)
Fixpoint scanOrigin (lines : list string) (e : option error) : res string :=
  match lines with
  | [] => match e with Some e => Err e | None => Ok "" end
  | l :: rest =>
      let line := trim_space l in
      if bool_decide (line = "") || has_prefix line ";" then scanOrigin rest e
      else match fields line with
           | f0 :: f1 :: _ =>
               if equal_fold f0 "$ORIGIN" then Ok (NormalizeName f1) else scanOrigin rest e
           | _ => scanOrigin rest e
           end
  end.
Definition scanOriginDirective (text : string) : res string :=
  let '(lines, e) := scan_text text in scanOrigin lines e.

End text.

(** ** The system: store, files and keys *)
Section store.
Context {T : Type → Type} {W D P : Type}.
Context {RO : RadixOps T} {MR : MapRange} {SS : SortSlice} {DT : DnsText} {DG : Digest}
  {ZP : ZoneParser} {FS : FileSys W} {KD : KeyDB D} {DC : DnssecCrypto P} {KT : KeyText P}.

Record system := MkSystem { mem : Memory T; files : W; keys : D }.

Definition NewMemory : Memory T := MkMemory radix_new radix_new ∅ ∅ ∅ false.

(** A [DNSSECManager] is attached, as main does, or nil. *)
Definition SetDNSSECManager (manager : bool) (m : Memory T) : Memory T :=
  MkMemory (public m) (internal m) (byKey m) (origins m) (hints m) manager.

Definition set_mem (s : system) (m : Memory T) : system := MkSystem m (files s) (keys s).
Definition set_files (s : system) (w : W) : system := MkSystem (mem s) w (keys s).
Definition set_keys (s : system) (d : D) : system := MkSystem (mem s) (files s) d.

Definition ResetRegistry (m : Memory T) : Memory T :=
  MkMemory (public m) (internal m) ∅ ∅ (hints m) (dnssec_on m).

Definition treeForView (m : Memory T) (view : ZoneView) : T byType :=
  match view with ViewInternal => internal m | ViewPublic => public m end.

(** [SwapPublicTree], [SwapInternalTree]. *)
Definition swapTree (view : ZoneView) (tree : T byType) (m : Memory T) : Memory T :=
  match view with
  | ViewInternal => MkMemory (public m) tree (byKey m) (origins m) (hints m) (dnssec_on m)
  | ViewPublic => MkMemory tree (internal m) (byKey m) (origins m) (hints m) (dnssec_on m)
  end.

Definition Lookup (m : Memory T) (view : ZoneView) (name : string) (qtype : N) :=
  lookupInTree (treeForView m view) name qtype.

Definition ZoneRecords (m : Memory T) (origin : string) (view : ZoneView) : list rr :=
  sortedZoneRecords (treeForView m view) (NormalizeName origin).

Definition RegisterZone (origin : string) (view : ZoneView) (filePath : string) (m : Memory T)
    : Memory T :=
  let origin := NormalizeName origin in
  MkMemory (public m) (internal m)
    (<[zoneRegistryKey origin view := ZoneRecord origin view filePath]> (byKey m))
    ({[origin]} ∪ origins m) (hints m) (dnssec_on m).

Definition unregisterZone (origin : string) (view : ZoneView) (m : Memory T) : Memory T :=
  let origin := NormalizeName origin in
  let keys' := delete (zoneRegistryKey origin view) (byKey m) in
  let still := existsb (λ kr, bool_decide (z_origin kr.2 = origin)) (range keys') in
  MkMemory (public m) (internal m) keys'
    (if still then origins m else origins m ∖ {[origin]}) (hints m) (dnssec_on m).

Definition zoneRecordOf (m : Memory T) (origin : string) (view : ZoneView) : option zoneRecord :=
  byKey m !! zoneRegistryKey (NormalizeName origin) view.

Definition zoneInfoLess (a b : zoneRecord) : bool :=
  if bool_decide (z_view a = z_view b) then str_lt (z_origin a) (z_origin b)
  else str_lt (view_string (z_view a)) (view_string (z_view b)).

Definition ListZones (m : Memory T) : list ZoneInfo :=
  map (λ rec, MkZoneInfo (z_origin rec) (z_view rec) (z_filePath rec)
                (countZoneRecords (treeForView m (z_view rec)) (z_origin rec)))
      (sort_slice zoneInfoLess (map snd (range (byKey m)))).

Definition zoneExistsLocked (m : Memory T) (origin : string) (view : ZoneView) : bool :=
  match zoneRecordOf m origin view with
  | Some _ => true
  | None => zoneHasSOA (treeForView m view) origin
  end.

Definition zoneFilePath (m : Memory T) (zonesDir origin : string) (view : ZoneView) : res string :=
  let fallback :=
    let apex := trim_suffix (NormalizeName origin) "." in
    if bool_decide (apex = "") then Err (errNew "invalid zone origin %q")
    else
      let name := apex +:+ ".zone" in
      Ok (match view with
          | ViewInternal => path_join [zonesDir; internalViewDir; name]
          | ViewPublic => path_join [zonesDir; name]
          end) in
  match zoneRecordOf m origin view with
  | Some rec => if negb (bool_decide (z_filePath rec = "")) then Ok (z_filePath rec) else fallback
  | None => fallback
  end.

(** *** TTL hints *)
Definition set_hints (m : Memory T) (h : gmap string string) : Memory T :=
  MkMemory (public m) (internal m) (byKey m) (origins m) h (dnssec_on m).

Definition hintSet (origin : string) (view : ZoneView) (r : rr) (text : string) (m : Memory T)
    : Memory T :=
  if bool_decide (text = "") then m
  else set_hints m (<[ttlHintKey origin view r := text]> (hints m)).
Definition hintGet (m : Memory T) (origin : string) (view : ZoneView) (r : rr) : string :=
  default "" (hints m !! ttlHintKey origin view r).
Definition hintRemove (origin : string) (view : ZoneView) (r : rr) (m : Memory T) : Memory T :=
  set_hints m (delete (ttlHintKey origin view r) (hints m)).
Definition hintSnapshot (m : Memory T) (origin : string) (view : ZoneView) : gmap string string :=
  let pre := zoneRegistryKey origin view +:+ ":" in
  list_to_map (map (λ kv, (trim_prefix kv.1 pre, kv.2))
    (List.filter (λ kv, (slen pre <? slen kv.1)%nat && has_prefix kv.1 pre) (range (hints m)))).

Definition recordTTLText (m : Memory T) (origin : string) (view : ZoneView) (r : rr) : string :=
  let text := hintGet m origin view r in
  if negb (bool_decide (text = "")) then text else format_uint (ttl_of r).

Definition ListZoneRecordEntries (m : Memory T) (origin : string) (view : ZoneView)
    : res (list ZoneRecordEntry) :=
  let origin := NormalizeName origin in
  if negb (zoneExistsLocked m origin view) then Err ErrZoneNotFound
  else Ok (map (λ r, MkEntry (ComputeRecordID origin r) (relativeOwnerName (name_of r) origin)
                       (type_string (type_of r)) (recordTTLText m origin view r) (rrDataValue r))
               (ZoneRecords m origin view)).

(** *** Writing zone files *)
Definition replaceFile (openLabel : string) (w : W) (path content : string) : W * option error :=
  let tmp := path +:+ ".tmp" in
  match fs_mkdir_all w (path_dir path) with
  | (w, Some e) => (w, Some (errWrap "create zone directory: %w" e))
  | (w, None) =>
      match fs_open_trunc w tmp with
      | (w, Some e) => (w, Some (errWrap openLabel e))
      | (w, None) =>
          match fs_append w tmp content with
          | (w, Some e) => drop_tmp (fs_close w tmp).1 tmp "write zone temp file: %w" e
          | (w, None) =>
              match fs_close w tmp with
              | (w, Some e) => drop_tmp w tmp "close zone temp file: %w" e
              | (w, None) =>
                  match fs_rename w tmp path with
                  | (w, Some e) => drop_tmp w tmp "replace zone file: %w" e
                  | (w, None) => (w, None)
                  end
              end
          end
      end
  end.

Definition WriteZoneFile (w : W) (path origin : string) (tree : T byType)
    (ttlHints : gmap string string) : W * option error :=
  let origin := NormalizeName origin in
  match zoneFileText origin ttlHints (sortedZoneRecords tree origin) with
  | Err e => (w, Some e)
  | Ok text => replaceFile "open zone temp file: %w" w path text
  end.

(** When [os.WriteFile] fails the temporary file stays. *)
Definition writeInitialZoneFile (today : string) (w : W) (path origin : string) : W * option error :=
  let tmp := path +:+ ".tmp" in
  match fs_mkdir_all w (path_dir path) with
  | (w, Some e) => (w, Some (errWrap "create zone directory: %w" e))
  | (w, None) =>
      match os_write_file w tmp (formatInitialZoneFile today origin) with
      | (w, Some e) => (w, Some (errWrap "write zone temp file: %w" e))
      | (w, None) =>
          match fs_rename w tmp path with
          | (w, Some e) => drop_tmp w tmp "replace zone file: %w" e
          | (w, None) => (w, None)
          end
      end
  end.

(** *** Signing *)
Definition managerIsEnabled (d : D) (origin : string) (view : ZoneView) : bool :=
  match IsEnabled d origin (view_string view) with Ok b => b | Err _ => false end.

Definition ShouldSign (d : D) (origin : string) (view : ZoneView) : bool :=
  let origin := NormalizeName origin in
  managerIsEnabled d origin view && is_ok (LoadKeys (P:=P) d origin (view_string view)).

Definition SignTree (now : N) (d : D) (tree : T byType) (origin : string) (view : ZoneView)
    : res (T byType) :=
  if negb (managerIsEnabled d origin view) then Ok tree
  else
    let origin := NormalizeName origin in
    let records := collectZoneRecords tree origin in
    let? (ksk, zsk) := LoadKeys (P:=P) d origin (view_string view) in
    let? signed := SignZone now origin records (Some ksk) (Some zsk) in
    Ok (applySignedRecords tree origin signed).

Definition persistUnsignedZoneFile (zonesDir origin : string) (view : ZoneView) (tree : T byType)
    (s : system) : system * option error :=
  match zoneFilePath (mem s) zonesDir origin view with
  | Err e => (s, Some e)
  | Ok path =>
      let '(w, e) := WriteZoneFile (files s) path origin tree (hintSnapshot (mem s) origin view) in
      (set_files s w, e)
  end.

(** The tree is returned as signing has left it. *)
Definition persistZoneFile (now : N) (zonesDir origin : string) (view : ZoneView)
    (tree : T byType) (s : system) : system * T byType * option error :=
  let origin := NormalizeName origin in
  let signed :=
    if dnssec_on (mem s) && ShouldSign (keys s) origin view
    then res_wrap "dnssec sign zone: %w" (SignTree now (keys s) tree origin view)
    else Ok tree in
  match signed with
  | Err e => (s, tree, Some e)
  | Ok tree =>
      let '(s, e) := persistUnsignedZoneFile zonesDir origin view tree s in
      (s, tree, e)
  end.

(** Publishing a tree, then persisting it: the live tree is the one that was
    published, with what signing did to it. *)
Definition publishAndPersist (now : N) (zonesDir origin : string) (view : ZoneView)
    (tree : T byType) (s : system) : system * option error :=
  let s := set_mem s (swapTree view tree (mem s)) in
  let '(s, tree, e) := persistZoneFile now zonesDir origin view tree s in
  (set_mem s (swapTree view tree (mem s)),
   match e with Some e => Some (errWrap "persist zone file: %w" e) | None => None end).

(** *** Records *)
(** [insertRR] and the hint of a record that was built, which can be nil. *)
Definition insert_built (tree : T byType) (r : option rr) : T byType :=
  match r with Some r => insertRR tree r | None => tree end.
Definition hint_built (origin : string) (view : ZoneView) (r : option rr) (text : string) (m : Memory T)
    : Memory T :=
  match r with Some r => hintSet origin view r text m | None => m end.

Definition AddZoneRecord (now : N) (zonesDir origin : string) (view : ZoneView) (i : RecordInput)
    (s : system) : system * res (option rr) :=
  let origin := NormalizeName origin in
  match BuildRecord origin i with
  | Err e => (s, Err e)
  | Ok r =>
      if negb (zoneExistsLocked (mem s) origin view) then (s, Err ErrZoneNotFound)
      else
        let tree := insert_built (cloneTree (treeForView (mem s) view)) r in
        let s := set_mem s (hint_built origin view r (in_ttl_text i) (mem s)) in
        let '(s, e) := publishAndPersist now zonesDir origin view tree s in
        (s, match e with Some e => Err e | None => Ok r end)
  end.

Definition DeleteZoneRecord (now : N) (zonesDir origin : string) (view : ZoneView)
    (i : RecordInput) (s : system) : system * option error :=
  let origin := NormalizeName origin in
  match qualifyRecordName origin (in_name i) with
  | Err e => (s, Some e)
  | Ok fqdn =>
      match parseRecordType (in_type i) with
      | Err e => (s, Some e)
      | Ok qtype =>
          if (qtype =? TypeSOA)%N then (s, Some ErrSOANotDeletable)
          else
            let value := trim_space (in_value i) in
            if bool_decide (value = "") then (s, Some (errNew "record value is required"))
            else if negb (zoneExistsLocked (mem s) origin view) then (s, Some ErrZoneNotFound)
            else
              match removeMatchingRR (cloneTree (treeForView (mem s) view)) fqdn qtype value with
              | (false, _) => (s, Some ErrRecordNotFound)
              | (true, tree) => publishAndPersist now zonesDir origin view tree s
              end
      end
  end.

Definition findByID (m : Memory T) (origin : string) (view : ZoneView) (id : string) : option rr :=
  List.find (λ r, bool_decide (ComputeRecordID origin r = id))
    (collectZoneRecords (treeForView m view) origin).

Definition DeleteZoneRecordByID (now : N) (zonesDir origin : string) (view : ZoneView)
    (id : string) (s : system) : system * option error :=
  let origin := NormalizeName origin in
  let id := trim_space id in
  if bool_decide (id = "") then (s, Some (errNew "record id is required"))
  else if negb (zoneExistsLocked (mem s) origin view) then (s, Some ErrZoneNotFound)
  else
    match findByID (mem s) origin view id with
    | None => (s, Some ErrRecordNotFound)
    | Some matchRR =>
        let typ := type_string (type_of matchRR) in
        if equal_fold typ "SOA" then (s, Some ErrSOANotDeletable)
        else
          match parseRecordType typ with
          | Err e => (s, Some e)
          | Ok qtype =>
              match qualifyRecordName origin (relativeOwnerName (name_of matchRR) origin) with
              | Err e => (s, Some e)
              | Ok fqdn =>
                  match removeMatchingRR (cloneTree (treeForView (mem s) view)) fqdn qtype
                          (rrDataValue matchRR) with
                  | (false, _) => (s, Some ErrRecordNotFound)
                  | (true, tree) =>
                      let s := set_mem s (hintRemove origin view matchRR (mem s)) in
                      publishAndPersist now zonesDir origin view tree s
                  end
              end
          end
    end.

Definition UpdateZoneRecordByID (now : N) (zonesDir origin : string) (view : ZoneView)
    (id : string) (i : RecordInput) (s : system) : system * res (option rr) :=
  let origin := NormalizeName origin in
  let id := trim_space id in
  if bool_decide (id = "") then (s, Err (errNew "record id is required"))
  else if negb (zoneExistsLocked (mem s) origin view) then (s, Err ErrZoneNotFound)
  else
    match findByID (mem s) origin view id with
    | None => (s, Err ErrRecordNotFound)
    | Some existing =>
        let prepared :=
          let? i := if equal_fold (trim_space (in_type i)) "SOA"
                    then preserveSOASerial existing i else Ok i in
          let? r := BuildRecord origin i in
          let? qtype := parseRecordType (type_string (type_of existing)) in
          let? fqdn := qualifyRecordName origin (relativeOwnerName (name_of existing) origin) in
          Ok (r, qtype, fqdn) in
        match prepared with
        | Err e => (s, Err e)
        | Ok (r, qtype, fqdn) =>
            match removeMatchingRR (cloneTree (treeForView (mem s) view)) fqdn qtype
                    (rrDataValue existing) with
            | (false, _) => (s, Err ErrRecordNotFound)
            | (true, tree) =>
                let tree := insert_built tree r in
                let s := set_mem s (hint_built origin view r (in_ttl_text i)
                           (hintRemove origin view existing (mem s))) in
                let '(s, e) := publishAndPersist now zonesDir origin view tree s in
                (s, match e with Some e => Err e | None => Ok r end)
            end
        end
    end.

(** *** Dynamic updates *)
Definition applyUpdateRR (tree : T byType) (origin : string) (r : rr) : res (T byType) :=
  let name := NormalizeName (name_of r) in
  if negb (isNameInZone name origin) then Err ErrUpdateNotZone
  else if (type_of r =? TypeSOA)%N then Err ErrUpdateRefused
  else if (class_of r =? ClassINET)%N then Ok (insertRR tree r)
  else if (class_of r =? ClassNONE)%N then
    match removeMatchingRR tree name (type_of r) (rrDataValue r) with
    | (true, tree) => Ok tree
    | (false, _) => Err ErrUpdateNXRRSET
    end
  else if (class_of r =? ClassANY)%N then
    if (type_of r =? TypeANY)%N then
      match removeAllAtName tree name with
      | (true, tree) => Ok tree
      | (false, _) => Err ErrUpdateNXDOMAIN
      end
    else
      match removeRRset tree name (type_of r) with
      | (true, tree) => Ok tree
      | (false, _) => Err ErrUpdateNXRRSET
      end
  else Err (errNew "unsupported update class %d").

Fixpoint applyUpdates (tree : T byType) (origin : string) (updates : list rr) : res (T byType) :=
  match updates with
  | [] => Ok tree
  | r :: rest => let? tree := applyUpdateRR tree origin r in applyUpdates tree origin rest
  end.

Definition ApplyUpdateSection (tree : T byType) (origin : string) (updates : list rr)
    : res (T byType) :=
  applyUpdates tree (NormalizeName origin) updates.

Definition ApplyDynamicUpdate (now : N) (zonesDir origin : string) (view : ZoneView)
    (apply : T byType → res (T byType)) (s : system) : system * option error :=
  let origin := NormalizeName origin in
  if negb (zoneExistsLocked (mem s) origin view) then (s, Some ErrZoneNotFound)
  else
    match apply (cloneTree (treeForView (mem s) view)) with
    | Err e => (s, Some e)
    | Ok tree => publishAndPersist now zonesDir origin view tree s
    end.

Definition ApplyDynamicUpdateRRs (now : N) (zonesDir origin : string) (view : ZoneView)
    (updates : list rr) (s : system) : system * option error :=
  ApplyDynamicUpdate now zonesDir origin view
    (λ tree, ApplyUpdateSection tree origin updates) s.

(** *** Loading *)
Definition resolveZoneOrigin (w : W) (path : string) : res string :=
  let origin := originFromFilename path in
  if negb (bool_decide (origin = "")) then Ok origin
  else
    let? origin := res_wrap "resolve $ORIGIN: %w"
      (let? text := fs_read w path in scanOriginDirective text) in
    if bool_decide (origin = "") then
      Err (errNew "no zone origin: filename must be <apex>.zone or file must contain $ORIGIN")
    else Ok origin.

(** The records read before a parse error are in the tree already. *)
Definition loadZoneFile (w : W) (path : string) (tree : T byType) : T byType * res string :=
  match resolveZoneOrigin w path with
  | Err e => (tree, Err e)
  | Ok origin =>
      match fs_read w path with
      | Err e => (tree, Err (errWrap "open zone file: %w" e))
      | Ok text =>
          let '(rrs, err) := parse_zone text origin path in
          (foldl insertRR tree rrs,
           match err with
           | Some e => Err (errWrap "parse zone (origin %s): %w" e)
           | None => Ok origin
           end)
      end
  end.

Definition loadEntry (w : W) (dir : string) (view : ZoneView)
    (st : T byType * Memory T * nat * nat) (entry : dir_entry) : T byType * Memory T * nat * nat :=
  let '(tree, m, loaded, skipped) := st in
  if de_is_dir entry then st
  else if negb (equal_fold (path_ext (de_name entry)) ".zone") then st
  else
    let path := path_join [dir; de_name entry] in
    match loadZoneFile w path tree with
    | (tree, Err e) => (tree, m, loaded, S skipped)
    | (tree, Ok origin) => (tree, RegisterZone origin view path m, S loaded, skipped)
    end.

(** No tree when the directory cannot be read. *)
Definition buildTreeFromDir (w : W) (dir : string) (view : ZoneView) (m : Memory T)
    : option (T byType) * Memory T * nat * nat :=
  match fs_read_dir w dir with
  | Err e => (None, m, 0, 0)
  | Ok entries =>
      let '(tree, m, loaded, skipped) := foldl (loadEntry w dir view) (radix_new, m, 0, 0) entries in
      (Some tree, m, loaded, skipped)
  end.

Definition LoadZonesFromDir (dir : string) (s : system) : system :=
  let m := ResetRegistry (mem s) in
  let '(publicTree, m, _, _) := buildTreeFromDir (files s) dir ViewPublic m in
  let '(internalTree, m, _, _) :=
    buildTreeFromDir (files s) (path_join [dir; internalViewDir]) ViewInternal m in
  let m := match publicTree with Some t => swapTree ViewPublic t m | None => m end in
  set_mem s (swapTree ViewInternal (default radix_new internalTree) m).

(** *** Zones *)
Definition CreateZone (today zonesDir name : string) (view : ZoneView)
    (wide_alnum : list ascii → bool) (s : system) : system * res ZoneInfo :=
  match ValidateZoneName wide_alnum name with
  | Some e => (s, Err e)
  | None =>
      let origin := NormalizeName name in
      if zoneExistsLocked (mem s) origin view then (s, Err ErrZoneAlreadyExists)
      else
        match zoneFilePath (mem s) zonesDir origin view with
        | Err e => (s, Err e)
        | Ok path =>
            match writeInitialZoneFile today (files s) path origin with
            | (w, Some e) => (set_files s w, Err e)
            | (w, None) =>
                match loadZoneFile w path (cloneTree (treeForView (mem s) view)) with
                | (_, Err e) =>
                    (set_files s (fs_remove w path).1, Err (errWrap "load created zone: %w" e))
                | (tree, Ok _) =>
                    let m := swapTree view tree (RegisterZone origin view path (mem s)) in
                    (MkSystem m w (keys s),
                     Ok (MkZoneInfo origin view path (countZoneRecords tree origin)))
                end
            end
        end
  end.

Definition DeleteZone (zonesDir name : string) (view : ZoneView)
    (wide_alnum : list ascii → bool) (s : system) : system * option error :=
  match ValidateZoneName wide_alnum name with
  | Some e => (s, Some e)
  | None =>
      let origin := NormalizeName name in
      if negb (zoneExistsLocked (mem s) origin view) then (s, Some ErrZoneNotFound)
      else
        match zoneFilePath (mem s) zonesDir origin view with
        | Err e => (s, Some e)
        | Ok path =>
            let tree := removeZoneFromTree (cloneTree (treeForView (mem s) view)) origin in
            let m := unregisterZone origin view (swapTree view tree (mem s)) in
            let '(w, e) := fs_remove (files s) path in
            (MkSystem m w (keys s),
             match e with
             | Some e => if fs_is_not_exist e then None
                         else Some (errWrap "delete zone file: %w" e)
             | None => None
             end)
        end
  end.

(** *** Auto-DNSSEC *)
Definition EnableDNSSEC (entropy : string → string) (clock : string) (now : N)
    (zonesDir origin : string) (view : ZoneView) (s : system) : system * res Status :=
  if negb (dnssec_on (mem s)) then (s, Err (errNew "dnssec is not configured"))
  else
    let origin := NormalizeName origin in
    if negb (zoneExistsLocked (mem s) origin view) then (s, Err ErrZoneNotFound)
    else
      let records := collectZoneRecords (treeForView (mem s) view) origin in
      match EnsureKeys (P:=P) entropy clock (keys s) (NormalizeName origin) (view_string view)
              (zoneTTLFromRecords records) with
      | (d, Some e) => (set_keys s d, Err e)
      | (d, None) =>
          let s := set_keys s d in
          let tree := cloneTree (treeForView (mem s) view) in
          match persistZoneFile now zonesDir origin view tree s with
          | (s, _, Some e) => (s, Err (errWrap "persist zone file: %w" e))
          | (s, tree, None) =>
              let s := set_mem s (swapTree view tree (mem s)) in
              (s, GetStatus (P:=P) (keys s) origin (view_string view))
          end
      end.

Definition DisableDNSSEC (zonesDir origin : string) (view : ZoneView) (s : system)
    : system * res Status :=
  if negb (dnssec_on (mem s)) then (s, Err (errNew "dnssec is not configured"))
  else
    let origin := NormalizeName origin in
    if negb (zoneExistsLocked (mem s) origin view) then (s, Err ErrZoneNotFound)
    else
      match DeleteKeys (keys s) (NormalizeName origin) (view_string view) with
      | Err e => (s, Err e)
      | Ok d =>
          let s := set_keys s d in
          let tree := stripDNSSECRecords (cloneTree (treeForView (mem s) view)) origin in
          match persistUnsignedZoneFile zonesDir origin view tree s with
          | (s, Some e) => (s, Err (errWrap "persist zone file: %w" e))
          | (s, None) =>
              (set_mem s (swapTree view tree (mem s)),
               Ok (MkStatus false origin (view_string view) 0 0 0 "" ""))
          end
      end.

Definition DNSSECStatus (s : system) (origin : string) (view : ZoneView) : res Status :=
  if negb (dnssec_on (mem s)) then
    Ok (MkStatus false (NormalizeName origin) (view_string view) 0 0 0 "" "")
  else GetStatus (P:=P) (keys s) origin (view_string view).

Definition EnsureAndSignTree (entropy : string → string) (clock : string) (now : N)
    (d : D) (tree : T byType) (origin : string) (view : ZoneView) : D * res (T byType) :=
  let origin := NormalizeName origin in
  let ttl := zoneTTLFromRecords (collectZoneRecords tree origin) in
  match EnsureKeys (P:=P) entropy clock d origin (view_string view) ttl with
  | (d, Some e) => (d, Err e)
  | (d, None) => (d, SignTree now d tree origin view)
  end.

End store.

Arguments system T W D : clear implicits.
Arguments MkSystem {T W D}.
Arguments mem {T W D}.
Arguments files {T W D}.
Arguments keys {T W D}.

(** * Lemmas *)
Section lemmas.
Context {T : Type → Type} {W D P : Type}.
Context {RO : RadixOps T} {RL : RadixLaws T} {MR : MapRange} {SS : SortSlice}
  {DT : DnsText} {DG : Digest} {ZP : ZoneParser} {FS : FileSys W} {FL : FileSysLaws W}
  {KD : KeyDB D} {DC : DnssecCrypto P} {KT : KeyText P}.
Implicit Types s : system T W D.
Implicit Types m : Memory T.

Definition other_view (v : ZoneView) : ZoneView :=
  match v with ViewPublic => ViewInternal | ViewInternal => ViewPublic end.

Lemma swap_swap v t1 t2 m : swapTree v t2 (swapTree v t1 m) = swapTree v t2 m.
Proof. by destruct v. Qed.

Lemma tree_swap_same v t m : treeForView (swapTree v t m) v = t.
Proof. by destruct v. Qed.

Lemma tree_swap_other v t m :
  treeForView (swapTree v t m) (other_view v) = treeForView m (other_view v).
Proof. by destruct v. Qed.

(** What persisting does to the system: files only, and the tree of the zone
    when it is signed. *)
Definition signing (s : system T W D) (o : string) (v : ZoneView) : bool :=
  dnssec_on (mem s) && ShouldSign (P:=P) (keys s) o v.

Lemma persist_unsigned_spec dir o v t s s' e :
  persistUnsignedZoneFile dir o v t s = (s', e) → mem s' = mem s ∧ keys s' = keys s.
Proof.
  unfold persistUnsignedZoneFile. destruct (zoneFilePath _ _ _ _); [|by intros [= <- <-]].
  destruct (WriteZoneFile _ _ _ _ _). by intros [= <- <-].
Qed.

Lemma persist_spec now dir o v t s s' t' e :
  persistZoneFile (P:=P) now dir o v t s = (s', t', e) →
  mem s' = mem s ∧ keys s' = keys s ∧
  (t' = t ∨ signing s o v = true ∧ ∃ signed, t' = applySignedRecords t (NormalizeName o) signed).
Proof.
  unfold persistZoneFile, signing.
  assert (ShouldSign (P:=P) (keys s) (NormalizeName o) v = ShouldSign (P:=P) (keys s) o v) as ->.
  { unfold ShouldSign. by rewrite normalize_idemp. }
  destruct (dnssec_on (mem s) && ShouldSign (P:=P) (keys s) o v) eqn:Es.
  - destruct (SignTree (P:=P) now (keys s) t (NormalizeName o) v) as [t1|] eqn:Et; cbn [res_wrap].
    2:{ intros [= <- <- <-]. by auto. }
    destruct (persistUnsignedZoneFile _ _ _ _ _) as [s1 e1] eqn:Ep. intros [= <- <- <-].
    apply persist_unsigned_spec in Ep as [-> ->]. split_and!; [done..|].
    unfold SignTree in Et. destruct (negb _); [injection Et as <-; by left|].
    destruct (LoadKeys _ _ _) as [[ksk zsk]|]; cbn [res_bind] in Et; [|done].
    destruct (SignZone _ _ _ _ _) as [signed|]; cbn [res_bind] in Et; [|done].
    injection Et as <-. right. split; [done|]. exists signed. by rewrite normalize_idemp.
  - destruct (persistUnsignedZoneFile _ _ _ _ _) as [s1 e1] eqn:Ep. intros [= <- <- <-].
    apply persist_unsigned_spec in Ep as [-> ->]. by auto.
Qed.

Lemma publish_spec now dir o v t s s' e :
  publishAndPersist (P:=P) now dir o v t s = (s', e) →
  ∃ t', mem s' = swapTree v t' (mem s) ∧ keys s' = keys s ∧
    (t' = t ∨ signing s o v = true ∧ ∃ signed, t' = applySignedRecords t (NormalizeName o) signed).
Proof.
  unfold publishAndPersist.
  destruct (persistZoneFile _ _ _ _ _ _) as [[s1 t1] e1] eqn:Ep. intros [= <- _].
  apply persist_spec in Ep as (Hm & Hk & Ht). exists t1. cbn [mem keys set_mem] in *.
  rewrite Hm, Hk, swap_swap. split_and!; [done..|].
  unfold signing in *. cbn [mem keys] in Ht. by destruct v.
Qed.

(** ** Well-formed stores *)
Definition wf_mem (m : Memory T) : Prop := wf_tree (public m) ∧ wf_tree (internal m).

Lemma wf_treeForView m v : wf_mem m → wf_tree (treeForView m v).
Proof. intros []. by destruct v. Qed.

Lemma wf_swap m v t : wf_mem m → wf_tree t → wf_mem (swapTree v t m).
Proof. intros [] ?. by destruct v. Qed.

Lemma wf_hint_built m o v r x : wf_mem m → wf_mem (hint_built o v r x m).
Proof. intros Hm. unfold hint_built, hintSet. destruct r; [|done]. by case_bool_decide. Qed.

Lemma wf_insert_built t r : wf_tree t → wf_tree (insert_built t r).
Proof. intros Ht. destruct r; [by apply wf_insertRR|done]. Qed.

Lemma wf_publish now dir o v t s :
  wf_mem (mem s) → wf_tree t →
  wf_mem (mem (publishAndPersist (P:=P) now dir o v t s).1).
Proof.
  intros Hm Ht. destruct (publishAndPersist _ _ _ _ _ _) as [s' e] eqn:E.
  cbn [fst]. apply publish_spec in E as (t' & -> & _ & Hcase). apply wf_swap; [done|].
  destruct Hcase as [->|[_ [signed ->]]]; [done|]. by apply wf_insert_all, wf_strip_all.
Qed.

Lemma wf_removeMatching' t name q v b t' :
  wf_tree t → removeMatchingRR t name q v = (b, t') → wf_tree t'.
Proof. intros Ht E. pose proof (wf_removeMatching t name q v Ht) as Hw. by rewrite E in Hw. Qed.

Lemma wf_applyUpdateRR t o r t' : wf_tree t → applyUpdateRR t o r = Ok t' → wf_tree t'.
Proof.
  intros Ht. unfold applyUpdateRR. destruct (negb _); [done|].
  destruct (_ =? TypeSOA)%N; [done|]. destruct (_ =? ClassINET)%N.
  { intros [= <-]. by apply wf_insertRR. }
  destruct (_ =? ClassNONE)%N.
  { destruct (removeMatchingRR _ _ _ _) as [[] t1] eqn:E; [|done]. intros [= <-].
    by eapply wf_removeMatching'. }
  destruct (_ =? ClassANY)%N; [|done]. destruct (_ =? TypeANY)%N.
  - pose proof (wf_removeAll t (NormalizeName (name_of r)) Ht) as Hw.
    destruct (removeAllAtName _ _) as [[] t1]; [|done]. by intros [= <-].
  - pose proof (wf_removeRRset t (NormalizeName (name_of r)) (type_of r) Ht) as Hw.
    destruct (removeRRset _ _ _) as [[] t1]; [|done]. by intros [= <-].
Qed.

Lemma wf_applyUpdates t o rs t' : wf_tree t → applyUpdates t o rs = Ok t' → wf_tree t'.
Proof.
  revert t. induction rs as [|r rs IH]; intros t Ht; cbn [applyUpdates]; [by intros [= <-]|].
  destruct (applyUpdateRR t o r) as [t1|] eqn:E; cbn [res_bind]; [|done].
  apply IH. by eapply wf_applyUpdateRR.
Qed.

Lemma wf_loadZoneFile w path t : wf_tree t → wf_tree (loadZoneFile w path t).1.
Proof.
  intros Ht. unfold loadZoneFile. destruct (resolveZoneOrigin _ _); [|done].
  destruct (fs_read _ _); [|done]. destruct (parse_zone _ _ _) as [rrs e].
  by apply wf_insert_all.
Qed.

Lemma register_trees o v f m :
  public (RegisterZone o v f m) = public m ∧ internal (RegisterZone o v f m) = internal m.
Proof. done. Qed.

Lemma build_spec w dir v m t m' n k :
  buildTreeFromDir w dir v m = (t, m', n, k) →
  public m' = public m ∧ internal m' = internal m ∧ (∀ t', t = Some t' → wf_tree t').
Proof.
  unfold buildTreeFromDir. destruct (fs_read_dir _ _) as [entries|]; [|by intros [= <- <- _ _]].
  assert (∀ st, wf_tree st.1.1.1 →
    let st' := foldl (loadEntry w dir v) st entries in
    wf_tree st'.1.1.1 ∧ public st'.1.1.2 = public st.1.1.2 ∧ internal st'.1.1.2 = internal st.1.1.2)
    as Hfold.
  { induction entries as [|e entries IH]; intros st Hst; [done|]. cbn [foldl].
    assert (wf_tree (loadEntry w dir v st e).1.1.1 ∧
      public (loadEntry w dir v st e).1.1.2 = public st.1.1.2 ∧
      internal (loadEntry w dir v st e).1.1.2 = internal st.1.1.2) as (Hw & Hp & Hi).
    { destruct st as [[[t0 m0] n0] k0]. cbn in Hst. unfold loadEntry.
      destruct (de_is_dir e); [done|]. destruct (negb _); [done|].
      pose proof (wf_loadZoneFile w (path_join [dir; de_name e]) t0 Hst) as Hl.
      by destruct (loadZoneFile _ _ _) as [t1 [o|]]. }
    destruct (IH _ Hw) as (? & ? & ?). split_and!; [done | congruence..]. }
  specialize (Hfold (radix_new, m, 0, 0) (wf_new)). cbn zeta in Hfold.
  destruct (foldl _ _ _) as [[[t1 m1] n1] k1]. cbn in Hfold. destruct Hfold as (? & ? & ?).
  intros [= <- <- _ _]. split_and!; [done..|]. by intros t' [= <-].
Qed.

(** ** Replacing a file *)

(** The outcome of a writer: the file has the new text and there is no error,
    or it is untouched; nothing but it and its temporary file changes. *)
Lemma replaceFile_spec label w path text w' e :
  replaceFile label w path text = (w', e) → replaced w w' path text e.
Proof.
  pose proof (tmp_ne path) as Hne. unfold replaceFile, replaced.
  set (tmp := path +:+ ".tmp") in *. clearbody tmp.
  pose proof (mkdir_files w (path_dir path)) as F1.
  destruct (fs_mkdir_all w _) as [w1 [e1|]]; cbn [fst] in F1.
  { intros [= <- <-]. split; intros; by rewrite F1. }
  pose proof (open_other w1 tmp) as F2. pose proof (open_ok w1 tmp) as O2.
  destruct (fs_open_trunc w1 tmp) as [w2 [e2|]]; cbn [fst] in F2.
  { intros [= <- <-]. split; intros; by rewrite F2, F1 by congruence. }
  specialize (O2 w2 eq_refl).
  pose proof (append_other w2 tmp text) as F3. pose proof (append_ok w2 tmp text) as O3.
  destruct (fs_append w2 tmp text) as [w3 [e3|]]; cbn [fst] in F3.
  { intros [= <- <-]. split; intros;
      by rewrite remove_other, close_files, F3, F2, F1 by congruence. }
  specialize (O3 _ _ eq_refl O2). cbn in O3.
  pose proof (close_files w3 tmp) as F4.
  destruct (fs_close w3 tmp) as [w4 [e4|]]; cbn [fst] in F4.
  { intros [= <- <-]. split; intros; by rewrite remove_other, F4, F3, F2, F1 by congruence. }
  destruct (fs_rename w4 tmp path) as [w5 [e5|]] eqn:Er.
  - intros [= <- <-].
    split; intros; rewrite remove_other by congruence;
      by rewrite (rename_err _ _ _ _ _ _ Er), F4, F3, F2, F1 by congruence.
  - intros [= <- <-]. split.
    + rewrite (rename_ok _ _ _ _ _ Er) by done. rewrite decide_True by done.
      by rewrite F4, O3.
    + intros q Hq Ht. rewrite (rename_ok _ _ _ _ _ Er) by done.
      rewrite !decide_False by done. by rewrite F4, F3, F2, F1 by congruence.
Qed.

Lemma writeInitial_spec today w path o w' e :
  writeInitialZoneFile today w path o = (w', e) → replaced w w' path (formatInitialZoneFile today o) e.
Proof.
  pose proof (tmp_ne path) as Hne. unfold writeInitialZoneFile.
  pose proof (mkdir_files w (path_dir path)) as F1. destruct (fs_mkdir_all w _) as [w1 [e1|]]; cbn [fst] in F1.
  { intros [= <- <-]. split; intros; by rewrite F1. }
  pose proof (λ q, os_write_other w1 (path +:+ ".tmp") (formatInitialZoneFile today o) q) as F2.
  pose proof (os_write_file_ok w1 (path +:+ ".tmp") (formatInitialZoneFile today o)) as O2.
  destruct (os_write_file w1 _ _) as [w2 [e2|]]; cbn [fst] in F2.
  { intros [= <- <-]. split; intros; by rewrite F2, F1 by congruence. }
  apply swap_tmp_replaced; [intros q Hq; by rewrite F2, F1|by apply O2].
Qed.

End lemmas.

Section properties.
Context {T : Type → Type} {W D P : Type}.
Context {RO : RadixOps T} {RL : RadixLaws T} {MR : MapRange} {SS : SortSlice}
  {DT : DnsText} {DG : Digest} {ZP : ZoneParser} {FS : FileSys W} {FL : FileSysLaws W} {FRD : FileReads W}
  {KD : KeyDB D} {DC : DnssecCrypto P} {KT : KeyText P}.
Implicit Types s : system T W D.

(** The mutations of the store, as the API and the update handler call them. *)
Inductive mutation :=
| MAdd (now : N) (dir o : string) (v : ZoneView) (i : RecordInput)
| MDelete (now : N) (dir o : string) (v : ZoneView) (i : RecordInput)
| MDeleteID (now : N) (dir o : string) (v : ZoneView) (id : string)
| MUpdateID (now : N) (dir o : string) (v : ZoneView) (id : string) (i : RecordInput)
| MDynamic (now : N) (dir o : string) (v : ZoneView) (updates : list rr)
| MCreate (today dir name : string) (v : ZoneView) (alnum : list ascii → bool)
| MDeleteZone (dir name : string) (v : ZoneView) (alnum : list ascii → bool)
| MEnable (entropy : string → string) (clock : string) (now : N) (dir o : string) (v : ZoneView)
| MDisable (dir o : string) (v : ZoneView)
| MLoad (dir : string).

Definition run_mutation (c : mutation) (s : system T W D) : system T W D :=
  match c with
  | MAdd now dir o v i => (AddZoneRecord (P:=P) now dir o v i s).1
  | MDelete now dir o v i => (DeleteZoneRecord (P:=P) now dir o v i s).1
  | MDeleteID now dir o v id => (DeleteZoneRecordByID (P:=P) now dir o v id s).1
  | MUpdateID now dir o v id i => (UpdateZoneRecordByID (P:=P) now dir o v id i s).1
  | MDynamic now dir o v us => (ApplyDynamicUpdateRRs (P:=P) now dir o v us s).1
  | MCreate today dir name v al => (CreateZone today dir name v al s).1
  | MDeleteZone dir name v al => (DeleteZone dir name v al s).1
  | MEnable ent clock now dir o v => (EnableDNSSEC (P:=P) ent clock now dir o v s).1
  | MDisable dir o v => (DisableDNSSEC dir o v s).1
  | MLoad dir => LoadZonesFromDir dir s
  end.

(** The view a mutation is about; loading is about both. *)
Definition mutation_view (c : mutation) : option ZoneView :=
  match c with
  | MAdd _ _ _ v _ | MDelete _ _ _ v _ | MDeleteID _ _ _ v _ | MUpdateID _ _ _ v _ _
  | MDynamic _ _ _ v _ | MCreate _ _ _ v _ | MDeleteZone _ _ v _ | MEnable _ _ _ _ _ v
  | MDisable _ _ v => Some v
  | MLoad _ => None
  end.

(** Executions of the store from its empty state. *)
Definition run_mutations (cs : list mutation) (s : system T W D) : system T W D :=
  foldl (λ s c, run_mutation c s) s cs.

(** A transition that keeps the live trees well-formed and the tree of the
    other view as it is. *)
Definition kept (v : ZoneView) (s s' : system T W D) : Prop :=
  wf_mem (mem s') ∧
  treeForView (mem s') (other_view v) = treeForView (mem s) (other_view v).

Lemma kept_refl v s : wf_mem (mem s) → kept v s s.
Proof. done. Qed.

Lemma kept_mem v s s' : wf_mem (mem s) → mem s' = mem s → kept v s s'.
Proof. intros Hw E. unfold kept. by rewrite E. Qed.

Lemma kept_publish now dir o v t s s0 :
  wf_mem (mem s0) → wf_tree t →
  treeForView (mem s0) (other_view v) = treeForView (mem s) (other_view v) →
  kept v s (publishAndPersist (P:=P) now dir o v t s0).1.
Proof.
  intros H0 Ht E0. split; [by apply wf_publish|]. rewrite <-E0.
  destruct (publishAndPersist _ _ _ _ _ _) as [s1 e] eqn:E. cbn [fst].
  apply publish_spec in E as (t' & -> & _). apply tree_swap_other.
Qed.

Lemma wf_clone_view m v : wf_mem m → wf_tree (cloneTree (treeForView m v)).
Proof. intros. by apply wf_clone, wf_treeForView. Qed.

Lemma hint_built_tree o v v' r x (m : Memory T) :
  treeForView (hint_built o v r x m) v' = treeForView m v'.
Proof. unfold hint_built, hintSet. destruct r; [|done]. by case_bool_decide; destruct v'. Qed.

Lemma hint_built_meta o v r x (m : Memory T) :
  byKey (hint_built o v r x m) = byKey m ∧ origins (hint_built o v r x m) = origins m ∧
  dnssec_on (hint_built o v r x m) = dnssec_on m.
Proof. unfold hint_built, hintSet. destruct r; [|done]. by case_bool_decide. Qed.

Lemma fst_let {A B C} (x : A * B) (f : A → B → C) : (let '(a, b) := x in (a, f a b)).1 = x.1.
Proof. by destruct x. Qed.

Lemma kept_add now dir o v i s :
  wf_mem (mem s) → kept v s (AddZoneRecord (P:=P) now dir o v i s).1.
Proof.
  intros Hw. unfold AddZoneRecord. destruct (BuildRecord _ _); [|by apply kept_refl].
  destruct (negb _); [by apply kept_refl|]. rewrite fst_let. apply kept_publish; cbn.
  - by apply wf_hint_built.
  - by apply wf_insert_built, wf_clone_view.
  - apply hint_built_tree.
Qed.

Lemma kept_delete now dir o v i s :
  wf_mem (mem s) → kept v s (DeleteZoneRecord (P:=P) now dir o v i s).1.
Proof.
  intros Hw. unfold DeleteZoneRecord. repeat (case_match; try by apply kept_refl).
  apply kept_publish; [done| |done]. eapply wf_removeMatching'; [by apply wf_clone_view | done].
Qed.

Lemma kept_delete_id now dir o v id s :
  wf_mem (mem s) → kept v s (DeleteZoneRecordByID (P:=P) now dir o v id s).1.
Proof.
  intros Hw. unfold DeleteZoneRecordByID. repeat (case_match; try by apply kept_refl).
  apply kept_publish; [done| |by destruct v].
  eapply wf_removeMatching'; [by apply wf_clone_view | done].
Qed.

Lemma kept_update_id now dir o v id i s :
  wf_mem (mem s) → kept v s (UpdateZoneRecordByID (P:=P) now dir o v id i s).1.
Proof.
  intros Hw. unfold UpdateZoneRecordByID. do 2 (case_match; [by apply kept_refl|]).
  destruct (findByID _ _ _ _) as [ex|]; [|by apply kept_refl].
  match goal with |- context [match ?p with Ok _ => _ | Err _ => _ end] =>
    destruct p as [[[r q] f]|]; [|by apply kept_refl] end.
  destruct (removeMatchingRR _ _ _ _) as [[] t1] eqn:E; [|by apply kept_refl].
  rewrite fst_let. apply kept_publish; cbn.
  - by apply wf_hint_built.
  - apply wf_insert_built. eapply wf_removeMatching'; [by apply wf_clone_view | done].
  - rewrite hint_built_tree. by destruct v.
Qed.

Lemma kept_dynamic now dir o v us s :
  wf_mem (mem s) → kept v s (ApplyDynamicUpdateRRs (P:=P) now dir o v us s).1.
Proof.
  intros Hw. unfold ApplyDynamicUpdateRRs, ApplyDynamicUpdate.
  destruct (negb _); [by apply kept_refl|].
  destruct (ApplyUpdateSection _ _ _) as [t|] eqn:E; [|by apply kept_refl].
  apply kept_publish; [done| |done]. eapply wf_applyUpdates; [by apply wf_clone_view | exact E].
Qed.

Lemma kept_create today dir name v al s :
  wf_mem (mem s) → kept v s (CreateZone today dir name v al s).1.
Proof.
  intros Hw. unfold CreateZone. repeat (case_match; try by apply kept_mem).
  split; cbn.
  - apply wf_swap; [done|].
    match goal with E : loadZoneFile ?w ?p ?t = (_, _) |- _ =>
      pose proof (wf_loadZoneFile w p t (wf_clone_view _ _ Hw)) as Hl; rewrite E in Hl end.
    done.
  - by destruct v.
Qed.

Lemma kept_delete_zone dir name v al s :
  wf_mem (mem s) → kept v s (DeleteZone dir name v al s).1.
Proof.
  intros Hw. unfold DeleteZone. destruct (ValidateZoneName _ _); [by apply kept_refl|].
  destruct (negb _); [by apply kept_refl|]. destruct (zoneFilePath _ _ _ _); [|by apply kept_refl].
  destruct (fs_remove _ _) as [w e]. cbn [fst].
  split; cbn; [|by destruct v]. rewrite remove_is_strip.
  pose proof (wf_strip_all _ (NormalizeName name) (wf_clone_view _ v Hw)) as Ht.
  destruct Hw, v; split; done.
Qed.

Lemma kept_enable ent clock now dir o v s :
  wf_mem (mem s) → kept v s (EnableDNSSEC (P:=P) ent clock now dir o v s).1.
Proof.
  intros Hw. unfold EnableDNSSEC. do 2 (case_match; [by apply kept_refl|]).
  destruct (EnsureKeys _ _ _ _ _ _) as [d [e|]]; [done|]. cbn [mem set_keys].
  destruct (persistZoneFile _ _ _ _ _ _) as [[s1 t1] e1] eqn:Ep.
  apply persist_spec in Ep as (Hm & _ & Ht). cbn [mem set_keys] in Hm.
  destruct e1; cbn [fst].
  - unfold kept. by rewrite Hm.
  - unfold kept. cbn [mem set_mem]. rewrite Hm, tree_swap_other. split; [|done].
    apply wf_swap; [done|].
    destruct Ht as [->|[_ [signed ->]]]; [by apply wf_clone_view|].
    by apply wf_insert_all, wf_strip_all, wf_clone_view.
Qed.

Lemma kept_disable dir o v s : wf_mem (mem s) → kept v s (DisableDNSSEC dir o v s).1.
Proof.
  intros Hw. unfold DisableDNSSEC. do 2 (case_match; [by apply kept_refl|]).
  destruct (DeleteKeys _ _ _) as [d|]; [|by apply kept_refl].
  destruct (persistUnsignedZoneFile _ _ _ _ _) as [s1 e1] eqn:Ep.
  apply persist_unsigned_spec in Ep as [Hm _]. cbn [mem set_keys] in Hm.
  destruct e1; cbn [fst]; unfold kept; cbn [mem set_mem]; rewrite Hm; [done|].
  rewrite tree_swap_other. split; [|done]. apply wf_swap; [done|].
  by apply wf_stripDNSSEC, wf_clone_view.
Qed.

Lemma wf_load dir s : wf_mem (mem s) → wf_mem (mem (LoadZonesFromDir dir s)).
Proof.
  intros [Hp Hi]. unfold LoadZonesFromDir.
  destruct (buildTreeFromDir _ dir _ _) as [[[t1 m1] n1] k1] eqn:E1.
  destruct (buildTreeFromDir _ (path_join _) _ _) as [[[t2 m2] n2] k2] eqn:E2.
  apply build_spec in E1 as (P1 & I1 & W1), E2 as (P2 & I2 & W2). cbn [public internal] in P1, I1.
  unfold wf_mem. cbn [mem set_mem]. split.
  - destruct t1 as [t1|]; cbn; [by apply W1 | by rewrite P2, P1].
  - cbn. destruct t2 as [t2|]; cbn; [by apply W2 | apply wf_new].
Qed.

(** ** Edits of an unsigned zone *)

(** What persisting an unsigned zone leaves of the files: its file holds the
    text of the tree, or nothing but a temporary file has changed. *)
Definition persisted (dir o : string) (v : ZoneView) (m : Memory T) (t : T byType) (w w' : W)
    (e : option error) : Prop :=
  match e with
  | None => ∃ path text,
      zoneFilePath m dir o v = Ok path ∧
      zoneFileText o (hintSnapshot m o v) (sortedZoneRecords t o) = Ok text ∧
      replaced w w' path text None
  | Some _ => ∀ q, (∀ path, zoneFilePath m dir o v = Ok path → q ≠ path +:+ ".tmp") →
      fs_file w' q = fs_file w q
  end.

Lemma write_persisted dir o v m t w path w' e :
  zoneFilePath m dir (NormalizeName o) v = Ok path →
  WriteZoneFile w path (NormalizeName o) t (hintSnapshot m (NormalizeName o) v) = (w', e) →
  persisted dir (NormalizeName o) v m t w w' e.
Proof.
  unfold WriteZoneFile. rewrite normalize_idemp. intros Hp.
  destruct (zoneFileText _ _ _) as [text|e1] eqn:Et; [|by intros [= <- <-]].
  intros Hr%replaceFile_spec. destruct e as [e|]; cbn [persisted]; [|by exists path, text].
  intros q Hq. destruct Hr as [H1 H2]. destruct (decide (q = path)) as [->|Hne]; [done|].
  by apply H2, Hq.
Qed.

Lemma publish_unsigned now dir o v t s s' e :
  signing (P:=P) s o v = false →
  publishAndPersist (P:=P) now dir o v t s = (s', e) →
  mem s' = swapTree v t (mem s) ∧ keys s' = keys s ∧
  persisted dir (NormalizeName o) v (mem s) t (files s) (files s') e.
Proof.
  unfold publishAndPersist, persistZoneFile, signing. intros Hs.
  assert (ShouldSign (P:=P) (keys s) (NormalizeName o) v = ShouldSign (P:=P) (keys s) o v) as E1.
  { unfold ShouldSign. by rewrite normalize_idemp. }
  cbn [mem keys set_mem].
  assert (dnssec_on (swapTree v t (mem s)) = dnssec_on (mem s)) as -> by by destruct v.
  rewrite E1, Hs. unfold persistUnsignedZoneFile. cbn [mem files set_mem].
  assert (∀ o, zoneFilePath (swapTree v t (mem s)) dir o v = zoneFilePath (mem s) dir o v) as ->
    by by destruct v.
  assert (∀ o, hintSnapshot (swapTree v t (mem s)) o v = hintSnapshot (mem s) o v) as ->
    by by destruct v.
  destruct (zoneFilePath (mem s) dir (NormalizeName o) v) as [path|e1] eqn:Ep.
  - destruct (WriteZoneFile _ _ _ _ _) as [w1 e1] eqn:Er. intros [= <- <-].
    cbn [mem keys files set_mem set_files]. rewrite swap_swap. split_and!; [done..|].
    apply (write_persisted dir o v (mem s)) in Er; [|done]. by destruct e1.
  - intros [= <- <-]. cbn [mem keys set_mem]. rewrite swap_swap. split_and!; [done..|].
    by intros q _.
Qed.

(** ** The abstract dynamic update (RFC 2136, section 3.4.2) *)
Inductive update_ok (st : astore) (o : string) (r : rr) (st' : astore) : Prop :=
| upd_add :
    class_of r = ClassINET → (∀ n q, st' n q = a_insert st r n q) → update_ok st o r st'
| upd_delete_value x :
    class_of r = ClassNONE → x ∈ st (NormalizeName (name_of r)) (type_of r) →
    recordValuesMatch x (trim_space (rrDataValue r)) = true →
    (∀ n q, st' n q =
       a_remove_matching st (NormalizeName (name_of r)) (type_of r) (rrDataValue r) n q) →
    update_ok st o r st'
| upd_delete_set q0 :
    class_of r = ClassANY → st (NormalizeName (name_of r)) q0 ≠ [] →
    type_of r = TypeANY ∨ q0 = type_of r →
    (∀ n q, st' n q = a_remove_rrset st (name_of r) (type_of r) n q) →
    update_ok st o r st'.

(** A sequence of updates, each in the zone and none of type SOA. *)
Inductive updates_ok (o : string) : astore → list rr → astore → Prop :=
| upds_nil st st' : (∀ n q, st' n q = st n q) → updates_ok o st [] st'
| upds_cons st r st1 rs st' :
    isNameInZone (name_of r) o = true → type_of r ≠ TypeSOA →
    update_ok st o r st1 → updates_ok o st1 rs st' → updates_ok o st (r :: rs) st'.

(** Why one update is not carried out. *)
Inductive update_refused (st : astore) (o : string) (r : rr) : error → Prop :=
| ref_zone : isNameInZone (name_of r) o = false → update_refused st o r ErrUpdateNotZone
| ref_soa : isNameInZone (name_of r) o = true → type_of r = TypeSOA →
    update_refused st o r ErrUpdateRefused
| ref_value : isNameInZone (name_of r) o = true → type_of r ≠ TypeSOA → class_of r = ClassNONE →
    (∀ x, x ∈ st (NormalizeName (name_of r)) (type_of r) →
       recordValuesMatch x (trim_space (rrDataValue r)) = false) →
    update_refused st o r ErrUpdateNXRRSET
| ref_set : isNameInZone (name_of r) o = true → type_of r ≠ TypeSOA → class_of r = ClassANY →
    type_of r ≠ TypeANY → st (NormalizeName (name_of r)) (type_of r) = [] →
    update_refused st o r ErrUpdateNXRRSET
| ref_name : isNameInZone (name_of r) o = true → class_of r = ClassANY → type_of r = TypeANY →
    (∀ q, st (NormalizeName (name_of r)) q = []) →
    update_refused st o r ErrUpdateNXDOMAIN
| ref_class : isNameInZone (name_of r) o = true → type_of r ≠ TypeSOA →
    class_of r ∉ [ClassINET; ClassNONE; ClassANY] →
    update_refused st o r (errNew "unsupported update class %d").

(** A sequence stops at the first that is not. *)
Inductive updates_refused (o : string) : astore → list rr → error → Prop :=
| refs_now st r rs e : update_refused st o r e → updates_refused o st (r :: rs) e
| refs_later st r st1 rs e :
    isNameInZone (name_of r) o = true → type_of r ≠ TypeSOA → update_ok st o r st1 →
    updates_refused o st1 rs e → updates_refused o st (r :: rs) e.

Lemma remove_rrset_normal (st : astore) name q n q' :
  a_remove_rrset st (NormalizeName name) q n q' = a_remove_rrset st name q n q'.
Proof. unfold a_remove_rrset, a_filter. by rewrite normalize_idemp. Qed.

Lemma applyUpdateRR_ok t o r t' :
  wf_tree t → applyUpdateRR t o r = Ok t' →
  isNameInZone (name_of r) o = true ∧ type_of r ≠ TypeSOA ∧ update_ok (rrset t) o r (rrset t').
Proof.
  intros Ht. unfold applyUpdateRR. rewrite in_zone_normalize_l.
  destruct (isNameInZone (name_of r) o); cbn [negb]; [|done].
  destruct (type_of r =? TypeSOA)%N eqn:Es; [done|]. apply N.eqb_neq in Es.
  set (nm := NormalizeName (name_of r)).
  destruct (class_of r =? ClassINET)%N eqn:E1.
  { intros [= <-]. split_and!; [done..|]. apply N.eqb_eq in E1. apply upd_add; [done|].
    intros. apply rrset_insert. }
  destruct (class_of r =? ClassNONE)%N eqn:E2.
  { destruct (removeMatchingRR _ _ _ _) as [[] t1] eqn:E; [|done]. intros [= <-].
    split_and!; [done..|]. apply N.eqb_eq in E2.
    destruct (removeMatching_refines t nm (type_of r) (rrDataValue r)) as [H1 H2].
    rewrite E in H1, H2. cbn [fst snd] in H1, H2.
    symmetry in H2. apply existsb_exists in H2 as (x & Hx%list_elem_of_In & Hm).
    unfold nm in Hx. rewrite normalize_idemp in Hx.
    by apply (upd_delete_value _ _ _ _ x). }
  destruct (class_of r =? ClassANY)%N eqn:E3; [|done]. apply N.eqb_eq in E3.
  destruct (type_of r =? TypeANY)%N eqn:E4.
  - destruct (removeAllAtName t nm) as [[] t1] eqn:E; [|done]. intros [= <-].
    split_and!; [done..|]. apply N.eqb_eq in E4.
    assert (is_Some (contents t !! nm)) as [m Hm].
    { unfold removeAllAtName in E. unfold nm in E. rewrite normalize_idemp, contents_get in E.
      fold nm in E. by destruct (contents t !! nm); [eexists|]. }
    destruct (Ht nm m Hm) as [_ [Hne Hall]]. apply map_choose in Hne as (q0 & rrs & Hq).
    apply (upd_delete_set _ _ _ _ q0); [done| |by left|].
    + unfold rrset. fold nm. rewrite Hm. cbn. rewrite Hq. by apply (Hall q0).
    + intros n q. rewrite (rrset_removeAll _ _ _ _ n q E). rewrite E4.
      unfold a_remove_rrset, a_filter. rewrite filter_const.
      rewrite (bool_decide_true (TypeANY = TypeANY)), orb_true_r, andb_true_r by done.
      unfold nm. rewrite normalize_idemp.
      case_bool_decide; destruct (decide _); naive_solver.
  - destruct (removeRRset t nm (type_of r)) as [[] t1] eqn:E; [|done]. intros [= <-].
    split_and!; [done..|]. apply N.eqb_neq in E4.
    apply (upd_delete_set _ _ _ _ (type_of r)); [done| |by right|].
    + unfold removeRRset in E. unfold nm in E. rewrite normalize_idemp, contents_get in E.
      fold nm in E. destruct (contents t !! nm) as [m|] eqn:Hm; [|done].
      rewrite bool_decide_false in E by done.
      destruct (m !! type_of r) as [rrs|] eqn:Hq; [|done].
      unfold rrset. fold nm. rewrite Hm. cbn. rewrite Hq.
      destruct (Ht nm m Hm) as [_ [_ Hall]]. by apply (Hall (type_of r)).
    + intros n q. rewrite (rrset_removeRRset _ _ _ _ _ n q E).
      unfold a_remove_rrset, a_filter. rewrite filter_const. unfold nm. rewrite normalize_idemp.
      repeat case_bool_decide; destruct (decide _); naive_solver.
Qed.

Lemma applyUpdates_ok t o us t' :
  wf_tree t → applyUpdates t o us = Ok t' → updates_ok o (rrset t) us (rrset t').
Proof.
  revert t. induction us as [|r us IH]; intros t Ht; cbn [applyUpdates].
  { intros [= <-]. by apply upds_nil. }
  destruct (applyUpdateRR t o r) as [t1|] eqn:E; cbn [res_bind]; [|done]. intros H.
  apply applyUpdateRR_ok in E as Ho; [|done]. destruct Ho as (Hz & Hs & Hu).
  eapply upds_cons; [done..|]. apply IH; [by eapply wf_applyUpdateRR | done].
Qed.

Lemma applyUpdateRR_err t o r e : applyUpdateRR t o r = Err e → update_refused (rrset t) o r e.
Proof.
  unfold applyUpdateRR. rewrite in_zone_normalize_l.
  destruct (isNameInZone (name_of r) o) eqn:Hz; cbn [negb]; [|intros [= <-]; by apply ref_zone].
  destruct (type_of r =? TypeSOA)%N eqn:Es.
  { intros [= <-]. apply N.eqb_eq in Es. by apply ref_soa. }
  apply N.eqb_neq in Es. set (nm := NormalizeName (name_of r)).
  destruct (class_of r =? ClassINET)%N eqn:E1; [done|]. apply N.eqb_neq in E1.
  destruct (class_of r =? ClassNONE)%N eqn:E2.
  { destruct (removeMatchingRR _ _ _ _) as [[] t1] eqn:E; [done|]. intros [= <-].
    apply N.eqb_eq in E2. apply ref_value; [done..|]. intros x Hx.
    destruct (removeMatching_refines t nm (type_of r) (rrDataValue r)) as [_ H2].
    rewrite E in H2. cbn [fst] in H2. apply not_true_iff_false. intros Hm.
    symmetry in H2. apply not_true_iff_false in H2. apply H2. apply existsb_exists.
    exists x. split; [|done]. unfold nm. rewrite normalize_idemp. by apply list_elem_of_In. }
  apply N.eqb_neq in E2. destruct (class_of r =? ClassANY)%N eqn:E3.
  2:{ intros [= <-]. apply N.eqb_neq in E3. apply ref_class; [done..|].
      rewrite !elem_of_cons, elem_of_nil. naive_solver. }
  apply N.eqb_eq in E3. destruct (type_of r =? TypeANY)%N eqn:E4.
  - apply N.eqb_eq in E4. destruct (removeAllAtName t nm) as [[] t1] eqn:E; [done|]. intros [= <-].
    apply ref_name; [done..|]. intros q. unfold removeAllAtName, nm in E.
    rewrite normalize_idemp, contents_get in E. unfold rrset.
    by destruct (contents t !! NormalizeName (name_of r)).
  - apply N.eqb_neq in E4. destruct (removeRRset t nm (type_of r)) as [[] t1] eqn:E; [done|].
    intros [= <-]. apply ref_set; [done..|]. unfold removeRRset, nm in E.
    rewrite normalize_idemp, contents_get in E. unfold rrset. fold nm in E |- *.
    destruct (contents t !! nm) as [m|]; [|done]. cbn.
    rewrite bool_decide_false in E by done. by destruct (m !! type_of r).
Qed.

Lemma applyUpdates_err t o us e :
  wf_tree t → applyUpdates t o us = Err e → updates_refused o (rrset t) us e.
Proof.
  revert t. induction us as [|r us IH]; intros t Ht; cbn [applyUpdates]; [done|].
  destruct (applyUpdateRR t o r) as [t1|e1] eqn:E; cbn [res_bind]; intros H.
  - apply applyUpdateRR_ok in E as Ho; [|done]. destruct Ho as (Hz & Hs & Hu).
    eapply refs_later; [done..|]. apply IH; [by eapply wf_applyUpdateRR|done].
  - injection H as ->. by apply refs_now, applyUpdateRR_err.
Qed.

(** Updates stay inside the zone. *)
Lemma updates_frame o st us st' n q :
  updates_ok o st us st' → normal n → isNameInZone n o = false → st' n q = st n q.
Proof.
  intros H Hn Hz. induction H as [st st' E|st r st1 rs st' Hr Hs Hu _ IH]; [done|].
  rewrite IH. assert (n ≠ NormalizeName (name_of r)) as Hne.
  { intros ->. by rewrite in_zone_normalize_l, Hr in Hz. }
  destruct Hu as [_ E|x _ _ _ E|q0 _ _ _ E]; rewrite E.
  - unfold a_insert. rewrite decide_False; [done|]. naive_solver.
  - unfold a_remove_matching, a_filter. rewrite normalize_idemp.
    rewrite bool_decide_false by done. cbn [andb negb]. apply List.filter_true.
  - unfold a_remove_rrset, a_filter. rewrite bool_decide_false by done. cbn [andb negb].
    apply List.filter_true.
Qed.

(** One mutation. *)
Lemma run_mutation_kept c s : wf_mem (mem s) →
  wf_mem (mem (run_mutation c s)) ∧ ∀ v, mutation_view c = Some v → kept v s (run_mutation c s).
Proof.
  intros Hw. destruct c; cbn [run_mutation mutation_view];
    [..|by split; [apply wf_load|]];
    (match goal with |- wf_mem (mem ?s') ∧ (∀ v', Some ?v = Some v' → _) =>
       assert (kept v s s') as Hk end;
     [|split; [apply Hk | intros v' [= <-]; exact Hk]]);
    eauto using kept_add, kept_delete, kept_delete_id, kept_update_id, kept_dynamic,
      kept_create, kept_delete_zone, kept_enable, kept_disable.
Qed.

(** ** The registry of zones *)

(** Zones are registered under the key of their name and view, with their
    normal name, and the set of names is that of the registered zones. *)
Definition registry_ok (m : Memory T) : Prop :=
  (∀ k rec, byKey m !! k = Some rec →
     k = zoneRegistryKey (z_origin rec) (z_view rec) ∧ normal (z_origin rec)) ∧
  (∀ o, o ∈ origins m ↔ ∃ k rec, byKey m !! k = Some rec ∧ z_origin rec = o).

Definition meta (m : Memory T) := (byKey m, origins m, dnssec_on m).

Lemma registry_meta m m' : meta m' = meta m → registry_ok m → registry_ok m'.
Proof. unfold meta, registry_ok. by intros [= -> -> _]. Qed.

Lemma key_inj o o' v v' : zoneRegistryKey o v = zoneRegistryKey o' v' →
  NormalizeName o = NormalizeName o' ∧ v = v'.
Proof.
  intros E. assert (v = v') as <-.
  { apply (f_equal (λ z, head (reverse (bytes z)))) in E. revert E.
    unfold zoneRegistryKey. rewrite !bytes_app, !reverse_app. by destruct v, v'. }
  split; [|done]. by apply app_string_inj_r in E.
Qed.

Lemma register_ok o v f m : registry_ok m → registry_ok (RegisterZone o v f m).
Proof.
  intros [Hk Ho]. unfold registry_ok, RegisterZone. cbn [byKey origins].
  set (key := zoneRegistryKey (NormalizeName o) v). split.
  - intros k rec. destruct (decide (k = key)) as [->|Hne].
    + rewrite lookup_insert_eq. intros [= <-]. split; [done|apply normalize_idemp].
    + rewrite lookup_insert_ne by done. apply Hk.
  - intros o'. rewrite elem_of_union, elem_of_singleton, Ho. split.
    + intros [->|(k & rec & Hr & E)].
      * exists key. eexists. by rewrite lookup_insert_eq.
      * destruct (decide (k = key)) as [->|Hne]; [|exists k, rec; by rewrite lookup_insert_ne].
        exists key. eexists. rewrite lookup_insert_eq. split; [done|].
        apply Hk in Hr as [[Hkey _]%key_inj Hn]. cbn. rewrite <-E, <-Hn, <-Hkey.
        by rewrite normalize_idemp.
    + intros (k & rec & Hr & E). destruct (decide (k = key)) as [->|Hne].
      * rewrite lookup_insert_eq in Hr. injection Hr as <-. by left.
      * rewrite lookup_insert_ne in Hr by done. right. by exists k, rec.
Qed.

Lemma in_range k rec (m : gmap string zoneRecord) : (k, rec) ∈ range m ↔ m !! k = Some rec.
Proof. by rewrite range_perm, elem_of_map_to_list. Qed.

Lemma unregister_ok o v m : registry_ok m → registry_ok (unregisterZone o v m).
Proof.
  intros [Hk Ho]. unfold registry_ok, unregisterZone. cbn [byKey origins].
  set (key := zoneRegistryKey (NormalizeName o) v). set (no := NormalizeName o).
  assert (Hd : ∀ k rec, delete key (byKey m) !! k = Some rec → byKey m !! k = Some rec)
    by (intros k rec [_ ?]%lookup_delete_Some; done).
  split; [intros k rec Hr; by apply Hk, Hd|]. intros o'.
  destruct (existsb _ _) eqn:E.
  - apply existsb_exists in E as ([k0 r0] & Hin%list_elem_of_In & E0).
    apply in_range in Hin. apply bool_decide_eq_true in E0. cbn in E0.
    rewrite Ho. split; [|intros (k & rec & Hr & E); exists k, rec; split; [by apply Hd|done]].
    intros (k & rec & Hr & E). destruct (decide (k = key)) as [->|Hne].
    + exists k0, r0. split; [done|]. rewrite E0, <-E.
      apply Hk in Hr as [[Hkey _]%key_inj Hn]. unfold no. by rewrite <-Hn, <-Hkey, normalize_idemp.
    + exists k, rec. by rewrite lookup_delete_ne.
  - rewrite elem_of_difference, elem_of_singleton, Ho.
    assert (Hnone : ∀ k rec, delete key (byKey m) !! k = Some rec → z_origin rec ≠ no).
    { intros k rec Hr E0. apply not_true_iff_false in E. apply E, existsb_exists.
      exists (k, rec). split; [by apply list_elem_of_In, in_range|by apply bool_decide_eq_true]. }
    split.
    + intros [(k & rec & Hr & E0) Hne]. exists k, rec. split; [|done].
      apply lookup_delete_Some. split; [|done]. intros <-.
      apply Hk in Hr as [[Hkey _]%key_inj Hn]. apply Hne. unfold no. by rewrite <-E0, <-Hn, <-Hkey, normalize_idemp.
    + intros (k & rec & Hr & E0). split; [exists k, rec; split; [by apply Hd|done]|].
      rewrite <-E0. by eapply Hnone.
Qed.

Lemma build_registry w dir v m : registry_ok m →
  registry_ok (buildTreeFromDir w dir v m).1.1.2 ∧
  dnssec_on (buildTreeFromDir w dir v m).1.1.2 = dnssec_on m.
Proof.
  unfold buildTreeFromDir. intros Hm. destruct (fs_read_dir w dir) as [es|]; [|done].
  enough (∀ st, registry_ok st.1.1.2 → dnssec_on st.1.1.2 = dnssec_on m →
    registry_ok (foldl (loadEntry w dir v) st es).1.1.2 ∧
    dnssec_on (foldl (loadEntry w dir v) st es).1.1.2 = dnssec_on m) as H.
  { specialize (H (radix_new, m, 0, 0) Hm eq_refl). by destruct (foldl _ _ _) as [[[??]?]?]. }
  induction es as [|e es IH]; intros st Hr Hd; [done|]. cbn [foldl].
  destruct st as [[[t m0] a] b]. cbn in Hr, Hd. apply IH; unfold loadEntry; repeat case_match; cbn;
    by try apply register_ok.
Qed.

(** A mutation that is neither a creation, a deletion nor a reload leaves the
    registry as it is. *)
Lemma meta_swap v t m : meta (swapTree v t m) = meta m.
Proof. by destruct v. Qed.
Lemma meta_publish now dir o v t s : meta (mem (publishAndPersist (P:=P) now dir o v t s).1) = meta (mem s).
Proof.
  destruct (publishAndPersist _ _ _ _ _ _) as [s' e] eqn:E. cbn [fst].
  apply publish_spec in E as (t' & -> & _). apply meta_swap.
Qed.
Lemma meta_hint_built o v r x m : meta (hint_built o v r x m) = meta m.
Proof. unfold hint_built, hintSet. destruct r; [|done]. by case_bool_decide. Qed.

Definition registers (c : mutation) : bool :=
  match c with MCreate _ _ _ _ _ | MDeleteZone _ _ _ _ | MLoad _ => true | _ => false end.

Lemma meta_kept c s : registers c = false → meta (mem (run_mutation c s)) = meta (mem s).
Proof.
  destruct c; try done; intros _; cbn [run_mutation].
  - unfold AddZoneRecord. destruct (BuildRecord _ _); [|done]. destruct (negb _); [done|]. rewrite fst_let, meta_publish. apply meta_hint_built.
  - unfold DeleteZoneRecord. repeat (case_match; try done). by rewrite meta_publish.
  - unfold DeleteZoneRecordByID. repeat (case_match; try done). by rewrite meta_publish.
  - unfold UpdateZoneRecordByID. do 2 (case_match; [done|]). destruct (findByID _ _ _ _); [|done].
    match goal with |- context [match ?p with Ok _ => _ | Err _ => _ end] => destruct p as [[[r1 q] f]|]; [|done] end.
    destruct (removeMatchingRR _ _ _ _) as [[] t1]; [|done].
    rewrite fst_let, meta_publish. cbn [mem set_mem]. by rewrite meta_hint_built.
  - unfold ApplyDynamicUpdateRRs, ApplyDynamicUpdate. repeat (case_match; try done). by rewrite meta_publish.
  - unfold EnableDNSSEC. do 2 (case_match; [done|]). destruct (EnsureKeys _ _ _ _ _ _) as [d [e|]]; [done|].
    destruct (persistZoneFile _ _ _ _ _ _) as [[s1 t1] e1] eqn:Ep. apply persist_spec in Ep as (Hm & _).
    destruct e1; cbn [fst mem set_mem]; rewrite ?meta_swap; by rewrite Hm.
  - unfold DisableDNSSEC. do 2 (case_match; [done|]). destruct (DeleteKeys _ _ _); [|done].
    destruct (persistUnsignedZoneFile _ _ _ _ _) as [s1 e1] eqn:Ep. apply persist_unsigned_spec in Ep as [Hm _].
    destruct e1; cbn [fst mem set_mem]; rewrite ?meta_swap; by rewrite Hm.
Qed.

Lemma run_mutation_registry c s : registry_ok (mem s) →
  registry_ok (mem (run_mutation c s)) ∧ dnssec_on (mem (run_mutation c s)) = dnssec_on (mem s).
Proof.
  intros Hr. destruct (registers c) eqn:Ec.
  2:{ pose proof (meta_kept c s Ec) as Hm. split; [by eapply registry_meta|]. by injection Hm. }
  assert (Hswap : ∀ v t m, registry_ok m → registry_ok (swapTree v t m)).
  { intros v t m. apply registry_meta, meta_swap. }
  assert (Hds : ∀ v t (m : Memory T), dnssec_on (swapTree v t m) = dnssec_on m) by by intros [].
  destruct c; try done; cbn [run_mutation].
  - unfold CreateZone. repeat (case_match; try done). cbn [fst mem]. rewrite Hds. split; [|done].
    by apply Hswap, register_ok.
  - unfold DeleteZone. destruct (ValidateZoneName _ _); [done|]. destruct (negb _); [done|].
    destruct (zoneFilePath _ _ _ _); [|done]. destruct (fs_remove _ _). cbn. rewrite Hds. split; [|done].
    by apply unregister_ok, Hswap.
  - unfold LoadZonesFromDir.
    assert (H0 : registry_ok (ResetRegistry (mem s))).
    { split; cbn; [intros k rec; by rewrite lookup_empty|]. intros o. split; [set_solver|].
      intros (k & rec & H & _). by rewrite lookup_empty in H. }
    pose proof (build_registry (files s) dir ViewPublic _ H0) as H1.
    destruct (buildTreeFromDir _ dir _ _) as [[[t1 m1] n1] k1]. cbn [fst snd] in H1. destruct H1 as [H1 D1].
    pose proof (build_registry (files s) (path_join [dir; internalViewDir]) ViewInternal _ H1) as H2.
    destruct (buildTreeFromDir _ (path_join _) _ _) as [[[t2 m2] n2] k2]. cbn [fst snd] in H2. destruct H2 as [H2 D2].
    cbn [mem set_mem]. rewrite Hds.
    assert (Hm : registry_ok (match t1 with Some t => swapTree ViewPublic t m2 | None => m2 end) ∧
      dnssec_on (match t1 with Some t => swapTree ViewPublic t m2 | None => m2 end) = dnssec_on m2)
      by (destruct t1; [split; [by apply Hswap|done]|done]).
    destruct Hm as [Hm ->]. split; [by apply Hswap|]. by rewrite D2, D1.
Qed.

(** * Properties *)

(** C1: from the store main builds, with the manager that signs zones attached
    to it or not, after any sequence of record edits, dynamic updates, zone
    creations and deletions, signings, unsignings and reloads, both live trees
    are well-formed and the registry is consistent, whatever the files, the
    table of keys, the parser and the errors on the way; and an edit of one
    view never touches the tree of the other. *)
Theorem store_invariant (cs : list mutation) (manager : bool) (s : system T W D) :
  mem s = SetDNSSECManager manager NewMemory →
  wf_mem (mem (run_mutations cs s)) ∧ registry_ok (mem (run_mutations cs s)) ∧
  dnssec_on (mem (run_mutations cs s)) = manager ∧
  ∀ c v, mutation_view c = Some v →
    treeForView (mem (run_mutation c (run_mutations cs s))) (other_view v) =
    treeForView (mem (run_mutations cs s)) (other_view v).
Proof.
  intros H0.
  assert (wf_mem (mem (run_mutations cs s)) ∧ registry_ok (mem (run_mutations cs s)) ∧
    dnssec_on (mem (run_mutations cs s)) = manager) as (Hw & Hr & Hd).
  { assert (wf_mem (mem s) ∧ registry_ok (mem s) ∧ dnssec_on (mem s) = manager) as Hs.
    { rewrite H0. split_and!; [split; apply wf_new| |done]. split; cbn; [intros k rec; by rewrite lookup_empty|].
      intros o. split; [set_solver|]. intros (k & rec & H & _). by rewrite lookup_empty in H. }
    clear H0. unfold run_mutations. revert s Hs.
    induction cs as [|c cs IH]; intros s (Hw & Hr & Hd); [done|].
    apply IH. destruct (run_mutation_registry c s Hr) as [Hr' Hd'].
    split_and!; [by apply run_mutation_kept|done|congruence]. }
  split_and!; [done..|]. intros c v Hv. by apply (run_mutation_kept c _ Hw).
Qed.

(** C29: a zone file is replaced atomically: either the write succeeds and the
    file holds exactly the text of the zone, or it reports an error and the
    old contents are still there; no file but it and its temporary companion
    is touched. *)
Theorem write_zone_file_atomic (w : W) path origin (tree : T byType) ttlHints w' e :
  WriteZoneFile w path origin tree ttlHints = (w', e) →
  match e with
  | None => ∃ text,
      zoneFileText (NormalizeName origin) ttlHints (sortedZoneRecords tree (NormalizeName origin))
        = Ok text ∧ fs_file w' path = Some text
  | Some _ => fs_file w' path = fs_file w path
  end ∧
  (∀ q, q ≠ path → q ≠ path +:+ ".tmp" → fs_file w' q = fs_file w q).
Proof.
  unfold WriteZoneFile. destruct (zoneFileText _ _ _) as [text|e0] eqn:Et.
  - intros [H1 H2]%replaceFile_spec. split; [|done]. destruct e; [done|]. eauto.
  - by intros [= <- <-].
Qed.

(** Reading a whole file, as the parser gives its records. *)
Lemma foldl_insert_ext rs (st st' : astore) : (∀ n q, st n q = st' n q) →
  ∀ n q, foldl a_insert st rs n q = foldl a_insert st' rs n q.
Proof.
  revert st st'. induction rs as [|r rs IH]; intros st st' H; [done|]. cbn [foldl].
  apply IH. intros n q. unfold a_insert. by rewrite H.
Qed.
Lemma rrset_insert_all t rs n q : rrset (foldl insertRR t rs) n q = foldl a_insert (rrset t) rs n q.
Proof.
  revert t. induction rs as [|r rs IH]; intros t; [done|]. cbn [foldl]. rewrite IH.
  apply foldl_insert_ext. intros. apply rrset_insert.
Qed.

(** The store with a record that was built, which can be nil. *)
Definition a_insert_built (st : astore) (r : option rr) : astore :=
  match r with Some r => a_insert st r | None => st end.

(** C3: adding a record to an unsigned zone: on success the live tree of the
    view gains exactly the built record at the end of its RRset (nothing, when
    the line of the record is empty for the parser), everything else in both
    views is as before, and the file of the zone holds the text of the new zone
    and no other file but its temporary companion changes; an error leaves the
    trees either as they were or with exactly that record added (the tree is
    published before the file is written), and no file but a temporary one
    changed. *)
Theorem add_record_effect now dir o v i (s s' : system T W D) result :
  signing (P:=P) s (NormalizeName o) v = false →
  AddZoneRecord (P:=P) now dir o v i s = (s', result) →
  let live := rrset (treeForView (mem s) v) in
  let live' := rrset (treeForView (mem s') v) in
  treeForView (mem s') (other_view v) = treeForView (mem s) (other_view v) ∧
  match result with
  | Ok r =>
      BuildRecord (NormalizeName o) i = Ok r ∧ (∀ n q, live' n q = a_insert_built live r n q) ∧
      ∃ path text,
        zoneFilePath (mem s) dir (NormalizeName o) v = Ok path ∧
        zoneFileText (NormalizeName o) (hintSnapshot (mem s') (NormalizeName o) v)
          (sortedZoneRecords (treeForView (mem s') v) (NormalizeName o)) = Ok text ∧
        fs_file (files s') path = Some text ∧
        ∀ q, q ≠ path → q ≠ path +:+ ".tmp" → fs_file (files s') q = fs_file (files s) q
  | Err _ =>
      ((∀ n q, live' n q = live n q) ∨
       ∃ r, BuildRecord (NormalizeName o) i = Ok r ∧ ∀ n q, live' n q = a_insert_built live r n q) ∧
      ∀ q, (∀ path, zoneFilePath (mem s) dir (NormalizeName o) v = Ok path → q ≠ path +:+ ".tmp") →
        fs_file (files s') q = fs_file (files s) q
  end.
Proof.
  intros Hs. unfold AddZoneRecord.
  destruct (BuildRecord _ _) as [r|e0] eqn:Hb; [|intros [= <- <-]; by auto].
  destruct (negb _); [intros [= <- <-]; by auto|].
  set (s0 := set_mem s _). set (t := insert_built _ r).
  assert (∀ n q, rrset t n q = a_insert_built (rrset (treeForView (mem s) v)) r n q) as Ht.
  { intros n q. unfold t. destruct r as [r|]; cbn [insert_built a_insert_built]; [|by rewrite rrset_clone].
    rewrite rrset_insert, rrset_clone. done. }
  assert (∀ v', treeForView (mem s0) v' = treeForView (mem s) v') as Hs0.
  { intros v'. unfold s0. cbn. apply hint_built_tree. }
  assert (∀ dir o v', zoneFilePath (mem s0) dir o v' = zoneFilePath (mem s) dir o v') as Hp0.
  { intros. unfold s0, hint_built, hintSet. cbn [mem set_mem]. destruct r; [|done]. by case_bool_decide. }
  destruct (publishAndPersist _ _ _ _ _ _) as [s1 e1] eqn:Ep. intros [= <- <-].
  apply publish_unsigned in Ep as (Hm & _ & He).
  2:{ unfold signing, s0 in *. cbn [mem keys set_mem]. rewrite (proj2 (proj2 (hint_built_meta _ _ _ _ _))). done. }
  cbn zeta. rewrite Hm, tree_swap_other, tree_swap_same, Hs0. split; [done|]. rewrite normalize_idemp in He.
  destruct e1 as [e1|]; cbn [persisted] in He.
  { split; [right; eauto|]. intros q Hq. apply He. intros path. rewrite Hp0. apply Hq. }
  split_and!; [done..|].
  destruct He as (path & text & Hpath & Htext & [Hf Hother]). rewrite Hp0 in Hpath.
  exists path, text. split_and!; [done| |done|done]. by destruct v.
Qed.

(** C2: a dynamic update is a transaction on an unsigned zone. It is refused
    with the system unchanged, with the error of the first update record that
    cannot be carried out on what the ones before it left: a name outside the
    zone, a record of type SOA, the deletion of something that is not there, an
    unknown class. Or the whole sequence is applied in order to the one view:
    class IN appends the record, class NONE deletes the records with the same
    value, class ANY a whole set or, of type ANY, every set of the name; no
    name outside the zone and no other view changes, and the file of the zone
    holds the text of the new zone, or the update reports that it could not be
    written and no file but a temporary one changed. *)
Theorem dynamic_update_transaction now dir o v us (s s' : system T W D) e :
  wf_mem (mem s) → signing (P:=P) s (NormalizeName o) v = false →
  ApplyDynamicUpdateRRs (P:=P) now dir o v us s = (s', e) →
  let live := rrset (treeForView (mem s) v) in
  let live' := rrset (treeForView (mem s') v) in
  if zoneExistsLocked (mem s) (NormalizeName o) v then
    (s' = s ∧ ∃ e0, e = Some e0 ∧ updates_refused (NormalizeName o) live us e0) ∨
    (updates_ok (NormalizeName o) live us live' ∧
     treeForView (mem s') (other_view v) = treeForView (mem s) (other_view v) ∧
     (∀ n q, normal n → isNameInZone n o = false → live' n q = live n q) ∧
     meta (mem s') = meta (mem s) ∧ keys s' = keys s ∧
     persisted dir (NormalizeName o) v (mem s) (treeForView (mem s') v) (files s) (files s') e)
  else s' = s ∧ e = Some ErrZoneNotFound.
Proof.
  intros Hw Hs. unfold ApplyDynamicUpdateRRs, ApplyDynamicUpdate. cbn zeta.
  destruct (zoneExistsLocked _ _ _); cbn [negb]; [|by intros [= <- <-]].
  unfold ApplyUpdateSection.
  destruct (applyUpdates _ _ _) as [t|e0] eqn:E.
  2:{ intros [= <- <-]. left. split; [done|]. exists e0. split; [done|].
      apply applyUpdates_err in E; [|by apply wf_clone_view]. by rewrite rrset_clone in E. }
  intros Hp. right. apply publish_unsigned in Hp as (-> & Hk & Hf); [|done].
  rewrite tree_swap_other, tree_swap_same, meta_swap. rewrite normalize_idemp in Hf.
  apply applyUpdates_ok in E; [|by apply wf_clone_view]. rewrite rrset_clone in E.
  split_and!; [done..| |done|done|done]. intros n q Hn Hz. eapply updates_frame; [done..|].
  by rewrite in_zone_normalize_r.
Qed.


(** the deletion calls never remove an SOA record: whatever they answer,
    the SOA RRset of every name of an unsigned zone is what it was, for type
    names that read back as the type they name. *)
Theorem soa_not_deletable now dir o v i id (s : system T W D) :
  signing (P:=P) s (NormalizeName o) v = false →
  (∀ t q, parseRecordType (type_string t) = Ok q → q = t) →
  equal_fold (type_string TypeSOA) "SOA" = true →
  (∀ n, rrset (treeForView (mem (DeleteZoneRecord (P:=P) now dir o v i s).1) v) n TypeSOA =
        rrset (treeForView (mem s) v) n TypeSOA) ∧
  (∀ n, rrset (treeForView (mem (DeleteZoneRecordByID (P:=P) now dir o v id s).1) v) n TypeSOA =
        rrset (treeForView (mem s) v) n TypeSOA).
Proof.
  intros Hs Hlaw Hsoa.
  assert (∀ (s0 : system T W D) t fqdn q value, signing (P:=P) s0 (NormalizeName o) v = false →
    treeForView (mem s0) v = treeForView (mem s) v → q ≠ TypeSOA →
    removeMatchingRR (cloneTree (treeForView (mem s) v)) fqdn q value = (true, t) →
    ∀ n, rrset (treeForView (mem (publishAndPersist (P:=P) now dir (NormalizeName o) v t s0).1) v) n TypeSOA
      = rrset (treeForView (mem s) v) n TypeSOA) as Hpub.
  { intros s0 t fqdn q value Hs0 Ht Hq Hr n.
    destruct (publishAndPersist _ _ _ _ _ _) as [s1 e1] eqn:Ep. cbn [fst].
    apply publish_unsigned in Ep as (-> & _ & _); [|done]. rewrite tree_swap_same.
    pose proof (rrset_removeMatching _ _ _ _ _ _ n TypeSOA Hr) as [_ ->].
    rewrite decide_False by naive_solver. by rewrite rrset_clone. }
  split; intros n.
  - unfold DeleteZoneRecord. destruct (qualifyRecordName _ _); [|done].
    destruct (parseRecordType _) as [q|]; [|done]. destruct (q =? TypeSOA)%N eqn:E; [done|].
    apply N.eqb_neq in E. case_bool_decide; [done|]. destruct (negb _); [done|].
    destruct (removeMatchingRR _ _ _ _) as [[] t] eqn:Er; [|done].
    by eapply Hpub.
  - unfold DeleteZoneRecordByID. case_bool_decide; [done|]. destruct (negb _); [done|].
    destruct (findByID _ _ _ _) as [r|]; [|done].
    cbn zeta. destruct (equal_fold (type_string (type_of r)) "SOA") eqn:Ef; [done|].
    destruct (parseRecordType _) as [q|] eqn:Eq; [|done]. apply Hlaw in Eq as ->.
    destruct (qualifyRecordName _ _); [|done].
    destruct (removeMatchingRR _ _ _ _) as [[] t] eqn:Er; [|done].
    eapply Hpub; [| |  |exact Er].
    + exact Hs.
    + by destruct v.
    + intros E. rewrite E in Ef. congruence.
Qed.

(** C28: creating a zone is all or nothing for the store: an error leaves the
    trees, the registry and the keys as they were, and the file of the zone as
    it was, gone again, or (when it can be neither read back nor deleted) with
    its whole first text; no other file but a temporary one changes. On success
    the name was valid and not yet a zone of the view, the zone is registered
    at the returned path, whose file holds the first text of the zone, and the
    records the parser reads from it are added to the view and nothing is
    lost. *)
Theorem create_zone_outcome today dir name v alnum (s s' : system T W D) result :
  CreateZone today dir name v alnum s = (s', result) →
  let text := formatInitialZoneFile today (NormalizeName name) in
  let path := zoneFilePath (mem s) dir (NormalizeName name) v in
  keys s' = keys s ∧
  (∀ q, (∀ p, path = Ok p → q ≠ p ∧ q ≠ p +:+ ".tmp") → fs_file (files s') q = fs_file (files s) q) ∧
  match result with
  | Err _ =>
      mem s' = mem s ∧
      ∀ p, path = Ok p → fs_file (files s') p ∈ [fs_file (files s) p; None; Some text]
  | Ok info =>
      ValidateZoneName alnum name = None ∧
      zoneExistsLocked (mem s) (NormalizeName name) v = false ∧
      zoneRecordOf (mem s') (NormalizeName name) v =
        Some (ZoneRecord (NormalizeName name) v (zi_filePath info)) ∧
      path = Ok (zi_filePath info) ∧ fs_file (files s') (zi_filePath info) = Some text ∧
      treeForView (mem s') (other_view v) = treeForView (mem s) (other_view v) ∧
      ∃ origin rrs, resolveZoneOrigin (files s') (zi_filePath info) = Ok origin ∧
        parse_zone text origin (zi_filePath info) = (rrs, None) ∧
        ∀ n q, rrset (treeForView (mem s') v) n q = foldl a_insert (rrset (treeForView (mem s) v)) rrs n q
  end.
Proof.
  unfold CreateZone. cbn zeta. destruct (ValidateZoneName _ _) eqn:Hv; [intros [= <- <-]; split_and!; [done..|intros p _; by left]|].
  destruct (zoneExistsLocked _ _ _) eqn:Hz; [intros [= <- <-]; split_and!; [done..|intros p _; by left]|].
  destruct (zoneFilePath _ _ _ _) as [path|]; [|intros [= <- <-]; split_and!; done].
  destruct (writeInitialZoneFile _ _ _ _) as [w e] eqn:Hw. apply writeInitial_spec in Hw as [Hp Ho].
  assert (Hother : ∀ q, (∀ p, Ok path = Ok p → q ≠ p ∧ q ≠ p +:+ ".tmp") → fs_file w q = fs_file (files s) q).
  { intros q Hq. destruct (Hq path eq_refl). by apply Ho. }
  destruct e as [e|]; [intros [= <- <-]; split_and!; [done..|]; intros p [= <-]; cbn; rewrite Hp; by left|].
  unfold loadZoneFile.
  match goal with |- _ → ?G => assert (Hfail : ∀ e0 : error,
    (set_files s (fs_remove w path).1, Err (A := ZoneInfo) e0) = (s', result) → G) end.
  { intros e0 [= <- <-]. split_and!; [done| |done|].
    - intros q Hq. cbn. rewrite remove_other; [by apply Hother|]. by apply Hq.
    - intros p [= <-]. cbn. destruct (fs_remove w path) as [w' [e1|]] eqn:Er; cbn [fst].
      + rewrite (remove_err _ _ _ _ Er), Hp. by right; right; left.
      + rewrite (remove_ok _ _ _ Er). by right; left. }
  destruct (resolveZoneOrigin w path) as [origin|] eqn:Hor; [|apply Hfail].
  destruct (fs_read w path) as [text|] eqn:Hr; [|apply Hfail].
  destruct (parse_zone text origin path) as [rrs [e|]] eqn:Hpz; [apply Hfail|].
  rewrite (read_file _ _ _ Hp) in Hr. injection Hr as <-.
  intros [= <- <-]. cbn [zi_filePath mem files keys]. split_and!; [done..| |done|done| |].
  - unfold zoneRecordOf.
    assert (∀ t m, byKey (swapTree v t m) = byKey m) as -> by by destruct v.
    cbn [byKey RegisterZone]. by rewrite lookup_insert_eq, normalize_idemp.
  - by destruct v.
  - exists origin, rrs. split_and!; [done..|]. rewrite tree_swap_same.
    intros n q. by rewrite rrset_insert_all, rrset_clone.
Qed.

End properties.

(** ** Witnesses: a store over maps, with a parser that reads one SOA record *)
Definition demo_soa (origin : string) : rr :=
  RR (Hdr origin TypeSOA ClassINET 3600)
    (DSOA (SOAData "ns1.example.com." "admin.example.com." 1 3600 600 86400 3600)).

#[export] Instance demo_parser : ZoneParser | 100 :=
  {| parse_zone text origin path := ([demo_soa origin], None) |}.
#[export] Instance demo_digest : Digest | 100 := {| sha256_8 s := s |}.

Abbreviation demo_system := (system gtree ram key_table).

Definition demo_empty : demo_system := MkSystem (SetDNSSECManager true NewMemory) ∅ ∅.
Definition demo_alnum (r : list ascii) : bool := false.
Definition demo_input : RecordInput := MkRecordInput "www" "NS" 300 "" "ns2.example.com" "".

Definition demo_created : demo_system :=
  (CreateZone "20260101" "/zones" "Example.com" ViewPublic demo_alnum demo_empty).1.
Definition demo_info : res ZoneInfo :=
  (CreateZone "20260101" "/zones" "Example.com" ViewPublic demo_alnum demo_empty).2.

Lemma pair_eta {A B} (p : A * B) : p = (p.1, p.2).
Proof. by destruct p. Qed.

Lemma demo_created_wf : wf_mem (mem demo_created).
Proof.
  unfold demo_created. apply kept_create. split; apply wf_new.
Qed.

(** A run that signs: a zone is created, signed, edited and unsigned again. The
    keys are read back by a parser that knows one key. *)
Definition signer_text : DnsText :=
  {| type_string := type_string (DnsText := demo_dns_text);
     string_to_type := string_to_type (DnsText := demo_dns_text);
     rr_string := rr_string (DnsText := demo_dns_text);
     new_rr line := Ok (Some (RR (Hdr "example.com." TypeDNSKEY ClassINET 3600) (DDNSKEY (DNSKEYData 257 3 13 line))));
     is_duplicate := is_duplicate (DnsText := demo_dns_text);
     canonical_name := canonical_name (DnsText := demo_dns_text);
     fqdn := fqdn (DnsText := demo_dns_text) |}.
Definition demo_run (n : nat) : list mutation :=
  take n [MCreate "20260101" "/zones" "example.com" ViewPublic demo_alnum;
     MEnable (λ role, role) "2026-01-01T00:00:00Z" 1000 "/zones" "example.com" ViewPublic;
     MAdd 1000 "/zones" "example.com" ViewPublic demo_input;
     MDisable "/zones" "example.com" ViewPublic].
Definition demo_signed_run (n : nat) : demo_system :=
  run_mutations (P:=string) (W:=ram) (D:=key_table) (T:=gtree) (DT:=signer_text) (demo_run n) demo_empty.

Lemma store_invariant_witness :
  wf_mem (mem (demo_signed_run 3)) ∧ registry_ok (mem (demo_signed_run 3)) ∧
  rrset (public (mem (demo_signed_run 3))) "www.example.com." TypeRRSIG ≠ [] ∧
  rrset (public (mem (demo_signed_run 4))) "www.example.com." TypeRRSIG = [].
Proof.
  destruct (store_invariant (P:=string) (DT:=signer_text) (demo_run 3) true demo_empty eq_refl) as (H1 & H2 & _).
  split; [exact H1|]. split; [exact H2|]. split; by vm_compute.
Defined.

Definition demo_write : ram * option error :=
  WriteZoneFile ∅ "/zones/example.com.zone" "example.com" (public (mem demo_created)) ∅.

Lemma pair_none {A} (p : A * option error) : p.2 = None → p = (p.1, None).
Proof. destruct p. by intros [= ->]. Qed.

Lemma write_zone_file_atomic_witness :
  (∃ text,
     zoneFileText (NormalizeName "example.com") ∅
       (sortedZoneRecords (public (mem demo_created)) (NormalizeName "example.com")) = Ok text ∧
     fs_file demo_write.1 "/zones/example.com.zone" = Some text) ∧
  (∀ q, q ≠ "/zones/example.com.zone" → q ≠ "/zones/example.com.zone" +:+ ".tmp" →
     fs_file demo_write.1 q = fs_file (∅ : ram) q).
Proof.
  apply (write_zone_file_atomic (∅ : ram) "/zones/example.com.zone" "example.com"
    (public (mem demo_created)) ∅ demo_write.1 None).
  apply pair_none. by vm_compute.
Defined.

Definition demo_added : demo_system * res (option rr) :=
  AddZoneRecord (P:=string) 0 "/zones" "example.com" ViewPublic demo_input demo_created.

Lemma demo_unsigned : signing (P:=string) demo_created (NormalizeName "example.com") ViewPublic = false.
Proof. by vm_compute. Qed.

Lemma add_record_effect_witness :
  rrset (treeForView (mem demo_added.1) ViewPublic) "www.example.com." TypeNS =
    a_insert_built (rrset (treeForView (mem demo_created) ViewPublic)) (from_ok None demo_added.2)
      "www.example.com." TypeNS ∧
  ∃ text, fs_file (files demo_added.1) "/zones/example.com.zone" = Some text.
Proof.
  destruct (add_record_effect (P:=string) 0 "/zones" "example.com" ViewPublic demo_input
    demo_created demo_added.1 (Ok (from_ok None demo_added.2)) demo_unsigned)
    as (_ & _ & Hi & path & text & Hp & _ & Hf & _).
  - rewrite <-(from_ok_eq None demo_added.2) by by vm_compute. apply pair_eta.
  - split; [exact (Hi "www.example.com." TypeNS)|]. exists text.
    assert (path = "/zones/example.com.zone") as <-; [|exact Hf].
    vm_compute in Hp. by injection Hp.
Defined.

Definition demo_updates : list rr := [RR (Hdr "a.example.com." TypeA ClassINET 60) (DA (IP4b 7))].
Definition demo_updated : demo_system * option error :=
  ApplyDynamicUpdateRRs (P:=string) 0 "/zones" "example.com" ViewPublic demo_updates demo_created.

Lemma dynamic_update_transaction_witness :
  updates_ok (NormalizeName "example.com") (rrset (treeForView (mem demo_created) ViewPublic))
    demo_updates (rrset (treeForView (mem demo_updated.1) ViewPublic)) ∧
  ∃ path, zoneFilePath (mem demo_created) "/zones" (NormalizeName "example.com") ViewPublic = Ok path ∧
    is_Some (fs_file (files demo_updated.1) path).
Proof.
  assert (He : demo_updated.2 = None) by by vm_compute.
  pose proof (dynamic_update_transaction (P:=string) 0 "/zones" "example.com" ViewPublic demo_updates
    demo_created demo_updated.1 demo_updated.2 demo_created_wf demo_unsigned (pair_eta _)) as H.
  rewrite He in H. change (zoneExistsLocked _ _ _) with true in H. cbn beta iota zeta in H.
  destruct H as [(_ & e & [=] & _)|(Hu & _ & _ & _ & _ & path & text & Hp & _ & Hf & _)].
  split; [exact Hu|]. exists path. split; [exact Hp|]. by exists text.
Defined.

Definition demo_deleted : demo_system * option error :=
  DeleteZone "/zones" "example.com" ViewPublic demo_alnum demo_created.


Lemma soa_not_deletable_witness :
  rrset (treeForView (mem (DeleteZoneRecord (P:=string) 0 "/zones" "example.com" ViewPublic
    (MkRecordInput "@" "SOA" 0 "" "x" "") demo_created).1) ViewPublic) "example.com." TypeSOA =
    rrset (treeForView (mem demo_created) ViewPublic) "example.com." TypeSOA.
Proof.
  destruct (soa_not_deletable (P:=string) 0 "/zones" "example.com" ViewPublic
    (MkRecordInput "@" "SOA" 0 "" "x" "") "id" demo_created demo_unsigned demo_types_read_back
    eq_refl) as [Hs _].
  exact (Hs "example.com.").
Defined.

Lemma create_zone_outcome_witness :
  zoneExistsLocked (mem demo_created) (NormalizeName "Example.com") ViewPublic = true ∧
  fs_file (files demo_created) "/zones/example.com.zone" =
    Some (formatInitialZoneFile "20260101" (NormalizeName "Example.com")).
Proof.
  destruct (create_zone_outcome "20260101" "/zones" "Example.com" ViewPublic demo_alnum
    demo_empty demo_created (Ok (from_ok (MkZoneInfo "" ViewPublic "" 0) demo_info)))
    as (_ & _ & _ & _ & Hr & Hp & Hf & _).
  - rewrite <-(from_ok_eq (MkZoneInfo "" ViewPublic "" 0) demo_info) by by vm_compute.
    apply pair_eta.
  - split; [unfold zoneExistsLocked; by rewrite Hr|].
    assert (zi_filePath (from_ok (MkZoneInfo "" ViewPublic "" 0) demo_info) = "/zones/example.com.zone") as <-;
      [|exact Hf]. by vm_compute.
Defined.

(** ** Behaviour to know *)

(** A file with a syntax error is reported as skipped, yet the records before
    the error stay in the tree that is served. *)
Definition bad_parser : ZoneParser :=
  {| parse_zone text origin path := ([demo_soa origin], Some (errNew "dns: bad line")) |}.

Lemma malformed_file_is_served :
  let r := loadZoneFile (ZP:=bad_parser) (<["/zones/example.com.zone" := "x"]> ∅ : ram)
             "/zones/example.com.zone" (radix_new : gtree byType) in
  is_ok r.2 = false ∧
  (lookupInTree r.1 "example.com" TypeSOA).2 = LookupFound.
Proof. split; by vm_compute. Qed.

(** An update record of class ANY and type ANY at the apex deletes the SOA
    that an update of type SOA is refused to touch. *)
Lemma any_update_deletes_soa :
  let t : gtree byType := insertRR radix_new (demo_soa "example.com.") in
  let update ty := RR (Hdr "example.com." ty ClassANY 0) (DOther "") in
  applyUpdateRR t "example.com." (update TypeSOA) = Err ErrUpdateRefused ∧
  is_ok (applyUpdateRR t "example.com." (update TypeANY)) = true ∧
  zoneHasSOA (match applyUpdateRR t "example.com." (update TypeANY) with
              | Ok t' => t' | Err _ => t end) "example.com." = false.
Proof. split_and!; by vm_compute. Qed.

(** RFC 2136 ignores an added record that is already there (3.4.2.2), and the
    deletion of what is not (3.4.2.3, 3.4.2.4): here the first is stored twice
    and the second refuses the whole update. *)
Lemma update_not_idempotent :
  let t : gtree byType := insertRR radix_new (demo_soa "example.com.") in
  let a := RR (Hdr "www.example.com." TypeA ClassINET 60) (DA (IP4b 7)) in
  let twice := applyUpdates t "example.com." [a; a] in
  rrset (from_ok t twice) "www.example.com." TypeA = [a; a] ∧
  applyUpdates t "example.com." [a; RR (Hdr "www.example.com." TypeTXT ClassANY 0) (DOther "")] =
    Err ErrUpdateNXRRSET ∧
  applyUpdates t "example.com." [a; RR (Hdr "www.example.com." TypeA ClassNONE 0) (DA (IP4b 8))] =
    Err ErrUpdateNXRRSET.
Proof. split_and!; by vm_compute. Qed.

(** A record whose text starts or ends with a blank cannot be deleted by the
    identifier the API gives it: the value is trimmed before it is compared. *)
Lemma blank_txt_not_deletable :
  let r := RR (Hdr "www.example.com." TypeTXT ClassINET 60) (DTXT [" x"]) in
  let t : gtree byType := insertRR radix_new r in
  (removeMatchingRR t "www.example.com." TypeTXT (rrDataValue r)).1 = false.
Proof. by vm_compute. Qed.

(** An absolute owner outside the zone is accepted: the record is served but
    belongs to no line of the zone file. *)
Lemma foreign_owner_accepted :
  match BuildRecord "example.com." (MkRecordInput "www.other.org." "NS" 60 "" "ns.example.com" "") with
  | Ok None => False
  | Ok (Some r) => isNameInZone (name_of r) "example.com." = false
  | Err _ => False
  end.
Proof. by vm_compute. Qed.

End Store.
