(* ===== verification/Cache.v ===== *)
(** * The answer cache: internal/storage/cache.go, ecs.go

    [ResponseCache] over the third-party cache [Ristretto], whose promise is
    only that a value it returns was stored under that key: it may drop or
    evict anything. The clock is in nanoseconds and passed in. Answers are
    copied on the way in and out, so cached messages are values. *)
From S2P Require Import Prelude NetAddr Names Owner Encoding AddrText Dns.
Import Owner.

(** ** github.com/dgraph-io/ristretto *)
Class Ristretto (C V : Type) := {
  rc_new : C;
  rc_get : C → N → string → option V * C;          (* now, key *)
  rc_set : C → N → string → V → N → N → C;          (* now, key, value, cost, TTL in s *)
  rc_del : C → N → string → C
}.

(** [rc_holds c k v]: [v] is among the values the cache may answer for [k]. *)
Class RistrettoLaws (C V : Type) `{Ristretto C V} := {
  rc_holds : C → string → V → Prop;
  rc_new_holds : ∀ k v, ¬ rc_holds rc_new k v;
  rc_get_some : ∀ c now k v c', rc_get c now k = (Some v, c') → rc_holds c k v;
  rc_get_holds : ∀ c now k k' v, rc_holds (rc_get c now k).2 k' v → rc_holds c k' v;
  rc_set_holds : ∀ c now k v cost ttl k' v',
    rc_holds (rc_set c now k v cost ttl) k' v' → (k' = k ∧ v' = v) ∨ rc_holds c k' v';
  rc_del_holds : ∀ c now k k' v, rc_holds (rc_del c now k) k' v → k' ≠ k ∧ rc_holds c k' v
}.

Module Cache.

(** ** ecs.go *)
Record ECSContext := MkECS {
  Enabled : bool; Client : addr; IPv4PrefixLen : N; IPv6PrefixLen : N
}.

Fixpoint firstSubnet (os : list edns_option) : option edns_subnet :=
  match os with
  | [] => None
  | OSubnet s :: _ => Some s
  | _ :: os' => firstSubnet os'
  end.

Definition clampPrefixLen (prefixLen max : N) : N :=
  if (max <? prefixLen)%N then max else prefixLen.

(** [Prefix.Masked] clears the bits; [net.IPv4] gives the 16-byte form. *)
Definition maskedIPv4 (client : addr) (prefixLen : N) : net_ip :=
  IP16b (ip16 (p_addr (masked (prefix_from client (Z.of_N prefixLen))))).
Definition maskedIPv6 (client : addr) (prefixLen : N) : net_ip :=
  IP16b (ip16 (p_addr (masked (prefix_from client (Z.of_N prefixLen))))).

Definition BuildECSSubnet (client : addr) (ipv4PrefixLen ipv6PrefixLen : N)
    : option edns_subnet :=
  if negb (is_valid client) then None
  else
    let client := unmap client in
    if is4 client then
      let prefixLen := clampPrefixLen ipv4PrefixLen 32 in
      Some (Subnet 1 prefixLen 0 (maskedIPv4 client prefixLen))
    else if is6 client then
      let prefixLen := clampPrefixLen ipv6PrefixLen 128 in
      Some (Subnet 2 prefixLen 0 (maskedIPv6 client prefixLen))
    else None.

Definition formatECSSuffix (family : N) (address : net_ip) (prefixLen : N) : string :=
  match address with
  | IPNil => format_uint family +:+ "|/" +:+ format_uint prefixLen
  | _ =>
      if (family =? 1)%N then
        let ip4 := match net_to4 address with IPNil => address | ip => ip end in
        "1|" +:+ net_ip_string ip4 +:+ "|" +:+ format_uint prefixLen
      else "2|" +:+ net_ip_string address +:+ "|" +:+ format_uint prefixLen
  end.

(** ** cache.go: questions and TTLs *)
Definition IsNegativeResponse (resp : option msg) : bool :=
  match resp with
  | None => false
  | Some resp =>
      if (m_rcode resp =? RcodeNameError)%N then true
      else (m_rcode resp =? RcodeSuccess)%N && (length (m_answer resp) =? 0)
  end.

Definition QuestionKey (q : question) : string :=
  NormalizeName (q_name q) +:+ "|" +:+ format_uint (q_type q) +:+ "|" +:+ format_uint (q_class q).

(** The loop over [rrs[1:]]. *)
Definition minLoop (minTTL : N) (rrs : list rr) : N :=
  foldl (λ minTTL r, if (ttl_of r <? minTTL)%N then ttl_of r else minTTL) minTTL rrs.

Definition sectionMinTTL (rrs : list rr) : N :=
  match rrs with [] => 0%N | r :: rest => minLoop (ttl_of r) rest end.

Definition minResponseTTL (resp : msg) : N :=
  let minTTL := sectionMinTTL (m_answer resp) in
  let nsMin := sectionMinTTL (m_ns resp) in
  if ((0 <? nsMin) && ((minTTL =? 0) || (nsMin <? minTTL)))%N then nsMin else minTTL.

(** The first SOA of the Authority section decides. *)
Fixpoint negativeTTLLoop (rrs : list rr) : N :=
  match rrs with
  | [] => 0%N
  | r :: rest =>
      match dat r with
      | DSOA soa => if (s_minttl soa <? ttl_of r)%N then s_minttl soa else ttl_of r
      | _ => negativeTTLLoop rest
      end
  end.
Definition negativeCacheTTL (resp : msg) : N := negativeTTLLoop (m_ns resp).

(** [MsgHdr] and the three sections; neither [Compress] nor the question. *)
Definition cloneForwardResponse (resp : msg) : msg := set_question (set_compress resp false) [].

Definition adjustSection (elapsed : N) (rrs : list rr) : option (list rr) :=
  mapM (λ r, if (ttl_of r <=? elapsed)%N then None else Some (with_ttl r (ttl_of r - elapsed))) rrs.

(** [None] is the result [false]; the half-adjusted copy is dropped then. *)
Definition adjustRecordTTLs (m : msg) (elapsed : N) : option msg :=
  match adjustSection elapsed (m_answer m), adjustSection elapsed (m_ns m),
        adjustSection elapsed (m_extra m) with
  | Some answer, Some ns, Some extra => Some (set_extra (set_ns (set_answer m answer) ns) extra)
  | _, _, _ => None
  end.

Record cacheEntry := MkEntry { e_msg : msg; storedAt : N; minTTL : N }.

(** [uint32(time.Since(storedAt).Seconds())] *)
Definition elapsedSince (now stored : N) : N := u32 ((now - stored) / 1000000000).

Section cache.
Context {C : Type} {RC : Ristretto C cacheEntry} {DM : DnsMsg}.

Definition ExtractECSSubnet (req : option msg) : option edns_subnet :=
  match req with
  | None => None
  | Some req =>
      match is_edns0 req with
      | None => None
      | Some opt => firstSubnet (opt_options opt)
      end
  end.

Definition ECSCacheSuffix (req : option msg) (ecs : ECSContext) : string :=
  match ExtractECSSubnet req with
  | Some subnet => formatECSSuffix (e_family subnet) (e_address subnet) (e_netmask subnet)
  | None =>
      if negb (Enabled ecs) || negb (is_valid (Client ecs)) then ""
      else match BuildECSSubnet (Client ecs) (IPv4PrefixLen ecs) (IPv6PrefixLen ecs) with
           | None => ""
           | Some subnet => formatECSSuffix (e_family subnet) (e_address subnet) (e_netmask subnet)
           end
  end.

Definition CacheKey (q : question) (req : option msg) (ecs : ECSContext) : string :=
  let key := QuestionKey q in
  let suffix := ECSCacheSuffix req ecs in
  if negb (bool_decide (suffix = "")) then key +:+ "|ecs:" +:+ suffix else key.

(** A nil cache misses. *)
Definition Get (c : option C) (now : N) (key : string) : option msg * option C :=
  match c with
  | None => (None, None)
  | Some c =>
      let '(raw, c) := rc_get c now key in
      match raw with
      | None => (None, Some c)
      | Some entry =>
          let elapsed := elapsedSince now (storedAt entry) in
          if (minTTL entry <=? elapsed)%N then (None, Some (rc_del c now key))
          else match adjustRecordTTLs (e_msg entry) elapsed with
               | None => (None, Some (rc_del c now key))
               | Some resp => (Some resp, Some c)
               end
      end
  end.

Definition Set_ (c : option C) (now : N) (key : string) (resp : option msg) : option C :=
  match c, resp with
  | Some c, Some resp =>
      let negative := IsNegativeResponse (Some resp) in
      let ttl := if negative then negativeCacheTTL resp else minResponseTTL resp in
      if (ttl =? 0)%N then Some c
      else
        let entry := MkEntry (cloneForwardResponse resp) now ttl in
        let cost := match pack (e_msg entry) with
                    | Ok packed => N.of_nat (slen packed) | Err _ => 1%N end in
        Some (rc_set c now key entry cost ttl)
  | _, _ => c
  end.

(** *** Specification: the operations of a run, and what a hit may be *)
Inductive op := OGet (key : string) | OSet (key : string) (resp : msg).

Definition step (c : option C) (e : N * op) : option C :=
  match e.2 with
  | OGet key => (Get c e.1 key).2
  | OSet key resp => Set_ c e.1 key (Some resp)
  end.

Definition run (c : option C) (es : list (N * op)) : option C := foldl step c es.

End cache.

(** How long an entry is kept, for the lemmas. *)
Definition lifetime (resp : msg) : N :=
  if IsNegativeResponse (Some resp) then negativeCacheTTL resp else minResponseTTL resp.

(** A denial: NXDOMAIN, or success without any answer record. *)
Definition denial (resp : msg) : Prop :=
  m_rcode resp = 3%N ∨ (m_rcode resp = 0%N ∧ m_answer resp = []).

(** [e] seconds after a denial is within its SOA's TTL and MINIMUM (RFC 2308, 5),
    the SOA being the first of the Authority section. *)
Definition within_minimum (e : N) (resp : msg) : Prop :=
  ∃ before r soa after, m_ns resp = before ++ r :: after ∧
    Forall (λ x, ∀ s, dat x ≠ DSOA s) before ∧ dat r = DSOA soa ∧
    (e < ttl_of r)%N ∧ (e < s_minttl soa)%N.

(** An answer [e] seconds later: every record has lived that long. *)
Definition aged_rr (e : N) (r : rr) : rr := with_ttl r (ttl_of r - e).
Definition aged (e : N) (resp : msg) : msg :=
  set_extra (set_ns (set_answer (set_question (set_compress resp false) [])
    (aged_rr e <$> m_answer resp)) (aged_rr e <$> m_ns resp)) (aged_rr e <$> m_extra resp).
Definition records (resp : msg) : list rr := m_answer resp ++ m_ns resp ++ m_extra resp.

(** ** Specification: the subnet an answer was chosen for
    The request's own subnet option if it has one, as its OPT record says;
    else, with client subnets on, the network of the configured length the
    client's address lies in. An address is its sixteen-byte form. *)
Inductive scope :=
| Unscoped
| Unaddressed (family len : N)
| Network (ipv4 : bool) (address len : N).

Definition network_of (width len n : N) : N := n / 2 ^ (width - len) * 2 ^ (width - len).

Definition addr_wide (a : addr) : Prop :=
  match a with A4 n => (n < 2 ^ 32)%N | A6 n _ => (n < 2 ^ 128)%N | AInvalid => True end.

Section scope.
Context {DM : DnsMsg}.

Definition option_subnets (req : option msg) : list edns_subnet :=
  match req ≫= is_edns0 with
  | Some o => omap (λ x, match x with OSubnet s => Some s | _ => None end) (opt_options o)
  | None => []
  end.

Definition scope_of (req : option msg) (ecs : ECSContext) : scope :=
  match option_subnets req, Enabled ecs, unmap (Client ecs) with
  | s :: _, _, _ =>
      match e_address s with
      | IPNil => Unaddressed (e_family s) (e_netmask s)
      | ip => Network (bool_decide (e_family s = 1%N)) (as16 ip) (e_netmask s)
      end
  | [], true, A4 n =>
      let len := (IPv4PrefixLen ecs `min` 32)%N in
      Network true (65535 * 2 ^ 32 + network_of 32 len n) len
  | [], true, A6 n _ =>
      let len := (IPv6PrefixLen ecs `min` 128)%N in Network false (network_of 128 len n) len
  | _, _, _ => Unscoped
  end.

(** Addresses as wide as the wire and [netip.Addr] make them. *)
Definition wide (req : option msg) (ecs : ECSContext) : Prop :=
  Forall (λ s, net_ip_wide (e_address s)) (option_subnets req) ∧
  addr_wide (Client ecs).

End scope.

(** ** Lemmas: TTLs *)
Lemma adjustSection_spec e l l' :
  adjustSection e l = Some l' ↔ Forall (λ r, e < ttl_of r)%N l ∧ l' = aged_rr e <$> l.
Proof.
  unfold adjustSection. rewrite mapM_Some. split.
  - induction 1 as [|r r' l l' Hr _ [IH ->]]; [by repeat constructor|].
    destruct (N.leb_spec (ttl_of r) e); simplify_eq. by repeat constructor.
  - intros [HF ->]. induction HF as [|r l Hr _ IH]; [constructor|].
    rewrite fmap_cons. constructor; [|done]. by destruct (N.leb_spec (ttl_of r) e); [lia|].
Qed.

Lemma adjustRecordTTLs_spec e resp m :
  adjustRecordTTLs (cloneForwardResponse resp) e = Some m ↔
  Forall (λ r, e < ttl_of r)%N (records resp) ∧ m = aged e resp.
Proof.
  unfold adjustRecordTTLs, records, aged. cbn [m_answer m_ns m_extra cloneForwardResponse
    set_question set_compress].
  rewrite !Forall_app. split.
  - destruct (adjustSection e (m_answer resp)) as [xs|] eqn:E1; [|done].
    destruct (adjustSection e (m_ns resp)) as [ys|] eqn:E2; [|done].
    destruct (adjustSection e (m_extra resp)) as [zs|] eqn:E3; [|done].
    apply adjustSection_spec in E1 as [? ->], E2 as [? ->], E3 as [? ->].
    by intros [= <-].
  - intros ((H1 & H2 & H3) & ->).
    rewrite (proj2 (adjustSection_spec e _ _) (conj H1 eq_refl)),
      (proj2 (adjustSection_spec e _ _) (conj H2 eq_refl)),
      (proj2 (adjustSection_spec e _ _) (conj H3 eq_refl)). done.
Qed.

Lemma denial_negative resp : denial resp → IsNegativeResponse (Some resp) = true.
Proof. unfold IsNegativeResponse. by intros [-> | [-> ->]]. Qed.

Lemma negative_minimum e resp : (e < negativeCacheTTL resp)%N → within_minimum e resp.
Proof.
  unfold negativeCacheTTL, within_minimum. induction (m_ns resp) as [|r l IH]; cbn [negativeTTLLoop]; [lia|].
  destruct (dat r) as [| | | | | | | |soa| | | | | | | | | |] eqn:Er; intros He;
    try (destruct (IH He) as (b & x & s & a & -> & Hb & Hx); exists (r :: b), x, s, a;
         split; [done|]; split; [constructor; [congruence | done] | done]).
  exists [], r, soa, l. revert He. destruct (N.ltb_spec (s_minttl soa) (ttl_of r)); intros; split_and!; try done; try lia; constructor.
Qed.

Lemma minLoop_le_init l m : (minLoop m l ≤ m)%N.
Proof.
  revert m. induction l as [|x l IH]; intros m; [done|]. cbn [minLoop foldl].
  destruct (N.ltb_spec (ttl_of x) m); [|apply IH]. etrans; [apply IH | lia].
Qed.

Lemma minLoop_le m l r : r ∈ l → (minLoop m l ≤ ttl_of r)%N.
Proof.
  revert m. induction l as [|x l IH]; intros m; [by intros ?%not_elem_of_nil|].
  intros [->|Hr]%elem_of_cons; cbn [minLoop foldl]; [|by apply IH].
  destruct (N.ltb_spec (ttl_of x) m); [apply minLoop_le_init|].
  etrans; [apply minLoop_le_init | done].
Qed.

Lemma sectionMinTTL_le l r : r ∈ l → (sectionMinTTL l ≤ ttl_of r)%N.
Proof.
  destruct l as [|x l]; [by intros ?%not_elem_of_nil|].
  intros [->|Hr]%elem_of_cons; [apply minLoop_le_init | by apply minLoop_le].
Qed.

(** ** Lemmas: the run of a cache *)
Section runs.
Context {C : Type} `{RL : RistrettoLaws C cacheEntry} {DM : DnsMsg}.

(** The entry a call of [Set] at time [t] makes. *)
Definition entryOf (t : N) (resp : msg) : cacheEntry :=
  MkEntry (cloneForwardResponse resp) t (lifetime resp).

Lemma get_some (c : C) now key m c' :
  Get (Some c) now key = (Some m, c') →
  ∃ entry, rc_holds c key entry ∧ (elapsedSince now (storedAt entry) < minTTL entry)%N ∧
    adjustRecordTTLs (e_msg entry) (elapsedSince now (storedAt entry)) = Some m.
Proof.
  cbn [Get]. destruct (rc_get c now key) as [[entry|] c1] eqn:E; [|done].
  destruct (N.leb_spec (minTTL entry) (elapsedSince now (storedAt entry))); [done|].
  destruct (adjustRecordTTLs _ _) as [resp|] eqn:Ea; [|done].
  intros [= -> _]. exists entry. eauto using rc_get_some.
Qed.

Lemma get_holds (c : C) now key c' k v :
  (Get (Some c) now key).2 = Some c' → rc_holds c' k v → rc_holds c k v.
Proof.
  cbn [Get]. pose proof (rc_get_holds c now key) as Hg.
  destruct (rc_get c now key) as [[entry|] c1]; cbn [snd] in *.
  - destruct (_ <=? _)%N; [|destruct (adjustRecordTTLs _ _)]; cbn [snd]; intros [= <-] Hv;
      [apply rc_del_holds in Hv as [_ Hv]|..]; try (by apply Hg in Hv).
    apply rc_del_holds in Hv as [_ Hv]. by apply Hg in Hv.
  - intros [= <-] Hv. by apply Hg in Hv.
Qed.

Lemma set_holds (c : C) now key resp c' k v :
  Set_ (Some c) now key (Some resp) = Some c' → rc_holds c' k v →
  (k = key ∧ v = entryOf now resp ∧ lifetime resp ≠ 0%N) ∨ rc_holds c k v.
Proof.
  cbn [Set_]. fold (lifetime resp). destruct (N.eqb_spec (lifetime resp) 0).
  { intros [= <-]. by right. }
  intros [= <-] [[-> ->]|Hv]%rc_set_holds; [left | by right]. done.
Qed.

(** What a cache holds after a run was stored by the run. *)
Lemma run_holds es c k v :
  run (Some rc_new) es = Some c → rc_holds c k v →
  ∃ t resp, (t, OSet k resp) ∈ es ∧ v = entryOf t resp ∧ lifetime resp ≠ 0%N.
Proof.
  revert c. induction es as [|[t o] es IH] using rev_ind; intros c.
  { intros [= <-] []%rc_new_holds. }
  unfold run. rewrite foldl_app. cbn [foldl]. fold (run (Some rc_new) es).
  destruct (run (Some rc_new) es) as [c1|] eqn:E1; [|by destruct o].
  intros Hs Hv.
  assert (Hor : (∃ resp, o = OSet k resp ∧ v = entryOf t resp ∧ lifetime resp ≠ 0%N) ∨
    rc_holds c1 k v).
  { destruct o as [key|key resp]; cbn [step fst snd] in Hs.
    - right. eauto using get_holds.
    - destruct (set_holds _ _ _ _ _ _ _ Hs Hv) as [(-> & -> & ?)|?]; eauto. }
  destruct Hor as [(resp & -> & -> & ?)|Hc1].
  - exists t, resp. rewrite elem_of_app, list_elem_of_singleton. auto.
  - destruct (IH c1 eq_refl Hc1) as (t' & resp & Hin & ? & ?).
    exists t', resp. rewrite elem_of_app. auto.
Qed.

End runs.

(** ** Lemmas: keys *)
Lemma app_last_pivot {A} (x : A) a b a' b' :
  x ∉ b → x ∉ b' → a ++ x :: b = a' ++ x :: b' → a = a' ∧ b = b'.
Proof.
  revert a'. induction a as [|y a IH]; intros [|y' a'] Hb Hb' [=]; subst; cbn in *.
  - done.
  - destruct Hb. set_solver.
  - destruct Hb'. set_solver.
  - destruct (IH a' Hb Hb') as [-> ->]; done.
Qed.

(** Texts of numbers and addresses hold neither the "s" of "|ecs:" nor "|",
    and an address is no number. *)
Definition plain (c : ascii) : Prop := c ≠ "s"%char ∧ c ≠ "|"%char.
Definition digit (c : ascii) : Prop := is_digit c = true.

Lemma digit_plain c : digit c → plain c.
Proof. intros H. split; intros ->; by vm_compute in H. Qed.

Lemma digits_of n : Forall digit (bytes (format_uint n)).
Proof. apply format_uint_digits. Qed.

Lemma number_plain n : Forall plain (bytes (format_uint n)).
Proof. eapply Forall_impl; [apply digits_of | apply digit_plain]. Qed.

Lemma format_uint_inj n m : format_uint n = format_uint m → n = m.
Proof.
  intros H. destruct (format_uint_digits n) as [Hn _], (format_uint_digits m) as [Hm _].
  rewrite H in Hn. congruence.
Qed.

Lemma format_ipv4_plain n : Forall plain (bytes (format_ipv4 n)).
Proof.
  unfold format_ipv4. rewrite !bytes_app, !Forall_app.
  split_and!; try apply number_plain; repeat constructor; discriminate.
Qed.

Lemma hex_digit_plain n : (n < 16)%N → plain (hex_digit n).
Proof.
  intros Hn. assert (Hi : n ∈ N.of_nat <$> seq 0 16).
  { apply list_elem_of_fmap. exists (N.to_nat n). rewrite elem_of_seq. lia. }
  revert Hi. generalize n. apply Forall_forall.
  repeat constructor; by vm_compute.
Qed.

Lemma hex_go_plain fuel n acc : Forall plain acc → Forall plain (hex_go fuel n acc).
Proof.
  revert n acc. induction fuel as [|f IH]; intros n acc Ha; [done|]. cbn [hex_go].
  assert (Forall plain (hex_digit (n mod 16) :: acc)).
  { constructor; [|done]. apply hex_digit_plain, N.mod_lt. done. }
  destruct (n <? 16)%N; auto.
Qed.

Lemma join_plain sep ws : Forall plain (bytes sep) → Forall (λ w, Forall plain (bytes w)) ws →
  Forall plain (bytes (join ws sep)).
Proof.
  intros Hsep. rewrite bytes_join. induction 1 as [|w ws Hw Hws IH]; [constructor|].
  cbn [map join_with]. destruct ws as [|v ws]; cbn [map] in *; [done|].
  by rewrite !Forall_app.
Qed.

Lemma groups_plain gs : Forall (λ w, Forall plain (bytes w)) (map format_hex gs).
Proof.
  apply Forall_forall. intros w (g & -> & _)%list_elem_of_fmap.
  unfold format_hex. rewrite bytes_mk. by apply hex_go_plain.
Qed.

Lemma format_ipv6_plain n : Forall plain (bytes (format_ipv6 n)).
Proof.
  assert (Hc : Forall plain (bytes ":")) by (repeat constructor; discriminate).
  unfold format_ipv6. destruct (best_run _ _ _) as [i r].
  destruct (r =? 0); rewrite ?bytes_app, ?Forall_app;
    split_and?; try apply join_plain; auto using groups_plain.
  repeat constructor; discriminate.
Qed.

Lemma not_digits (c : ascii) l : is_digit c = false → c ∈ l → ¬ Forall digit l.
Proof. intros Hc Hl HF. rewrite Forall_forall in HF. specialize (HF c Hl). unfold digit in HF. congruence. Qed.

Lemma format_ipv4_dot n : ¬ Forall digit (bytes (format_ipv4 n)).
Proof.
  apply (not_digits "."%char); [done|]. unfold format_ipv4. rewrite !bytes_app, !elem_of_app.
  right; left. by apply list_elem_of_singleton.
Qed.

Lemma format_ipv6_not_digits n : ¬ Forall digit (bytes (format_ipv6 n)).
Proof. apply (not_digits ":"%char); [done|]. apply format_ipv6_colon. Qed.

Lemma ip_plain ip : ip ≠ IPNil → Forall plain (bytes (net_ip_string ip)).
Proof.
  destruct ip as [|n|n]; [done|intros _; apply format_ipv4_plain|intros _].
  cbn [net_ip_string]. unfold ip_string.
  destruct (to4 n); [apply format_ipv4_plain | apply format_ipv6_plain].
Qed.

Lemma ip_not_digits ip : ip ≠ IPNil → ¬ Forall digit (bytes (net_ip_string ip)).
Proof.
  destruct ip as [|n|n]; [done|intros _; apply format_ipv4_dot|intros _].
  cbn [net_ip_string]. unfold ip_string.
  destruct (to4 n); [apply format_ipv4_dot | apply format_ipv6_not_digits].
Qed.

Lemma plain_not x l : ¬ plain x → Forall plain l → x ∉ l.
Proof. intros Hx HF Hl. rewrite Forall_forall in HF. auto. Qed.

Lemma bar_not l : Forall plain l → "|"%char ∉ l.
Proof. apply plain_not. by intros []. Qed.

(** A text that ends in two numbers after bars, as a question's key does. *)
Definition keyish (l : list ascii) : Prop :=
  ∃ x t c, l = x ++ "|"%char :: t ++ "|"%char :: c ∧ Forall digit t ∧ Forall digit c.

Lemma question_keyish q : keyish (bytes (QuestionKey q)).
Proof.
  unfold QuestionKey. rewrite !bytes_app. do 3 eexists.
  split; [reflexivity|]. split; apply digits_of.
Qed.

Lemma keyish_last a b : keyish (a ++ "|"%char :: b) → "|"%char ∉ b →
  Forall digit b ∧ ∃ x t, a = x ++ "|"%char :: t ∧ Forall digit t.
Proof.
  intros (x & t & c & E & Ht & Hc) Hb.
  assert (E' : a ++ "|"%char :: b = (x ++ "|"%char :: t) ++ "|"%char :: c)
    by (rewrite E, <-app_assoc; done).
  apply app_last_pivot in E' as [-> ->]; [eauto | done |].
  apply bar_not. eapply Forall_impl; eauto using digit_plain.
Qed.

(** No key ends in a subnet suffix. *)
Lemma suffix_not_keyish pre family address n :
  ¬ keyish (pre ++ bytes (formatECSSuffix family address n)).
Proof.
  assert (Hip : ∀ k ip, ip ≠ IPNil →
    ¬ keyish (pre ++ bytes ((k +:+ "|") +:+ net_ip_string ip +:+ "|" +:+ format_uint n))).
  { intros k ip Hip Hk. rewrite !bytes_app in Hk.
    change (bytes "|") with ["|"%char] in Hk. cbn [app] in Hk. rewrite app_assoc in Hk.
    rewrite (app_assoc _ (bytes (net_ip_string ip))) in Hk.
    apply keyish_last in Hk as (_ & x & t & E & Ht); [|apply bar_not, number_plain].
    rewrite app_assoc, <-app_assoc in E. cbn [app] in E.
    apply app_last_pivot in E as [_ <-].
    - by apply ip_not_digits in Ht.
    - by apply bar_not, ip_plain.
    - apply bar_not. eapply Forall_impl; eauto using digit_plain. }
  destruct address as [|a|a]; unfold formatECSSuffix.
  - intros Hk. rewrite !bytes_app in Hk. change (bytes "|/") with ["|"%char; "/"%char] in Hk.
    cbn [app] in Hk. rewrite app_assoc in Hk.
    apply keyish_last in Hk as [Hd _].
    + by apply Forall_inv in Hd.
    + apply bar_not. constructor; [split; discriminate | apply number_plain].
  - destruct (family =? 1)%N; [by apply (Hip "1" (IP4b a)) | by apply (Hip "2" (IP4b a))].
  - destruct (family =? 1)%N; [|by apply (Hip "2" (IP16b a))].
    destruct (net_to4 (IP16b a)) as [|b|b].
    + by apply (Hip "1" (IP16b a)).
    + by apply (Hip "1" (IP4b b)).
    + by apply (Hip "1" (IP16b b)).
Qed.

Lemma suffix_no_s family address n : "s"%char ∉ bytes (formatECSSuffix family address n).
Proof.
  assert (Hs : ∀ l, Forall (λ c, c ≠ "s"%char) l → "s"%char ∉ l).
  { intros l HF Hl. rewrite Forall_forall in HF. by apply (HF _ Hl). }
  assert (Hp : ∀ l, Forall plain l → Forall (λ c, c ≠ "s"%char) l)
    by (intros l HF; eapply Forall_impl; [exact HF | by intros ? []]).
  assert (Hn : ∀ n, Forall (λ c, c ≠ "s"%char) (bytes (format_uint n)))
    by (intros; apply Hp, number_plain).
  apply Hs. destruct address as [|a|a]; unfold formatECSSuffix; [|destruct (family =? 1)%N..];
    rewrite !bytes_app, !Forall_app; split_and!; auto;
    try (repeat constructor; discriminate); apply Hp, ip_plain; try done.
  by destruct (net_to4 (IP16b a)).
Qed.

Lemma question_key_inj q q' : QuestionKey q = QuestionKey q' →
  NormalizeName (q_name q) = NormalizeName (q_name q') ∧
  q_type q = q_type q' ∧ q_class q = q_class q'.
Proof.
  unfold QuestionKey. intros H%(f_equal bytes). rewrite !bytes_app in H.
  change (bytes "|") with ["|"%char] in H. cbn [app] in H.
  rewrite !app_comm_cons, !app_assoc in H.
  pose proof (λ n, bar_not _ (number_plain n)) as Hb.
  apply app_last_pivot in H as [H Hc]; [|apply Hb..].
  apply app_last_pivot in H as [H Ht]; [|apply Hb..].
  apply bytes_inj in H, Hc, Ht. split_and!; eauto using format_uint_inj.
Qed.

(** ** Lemmas: the subnet's text *)
Definition scope_text (s : scope) : string :=
  match s with
  | Unscoped => ""
  | Unaddressed family len => format_uint family +:+ "|/" +:+ format_uint len
  | Network ipv4 address len =>
      (if ipv4 then "1|" else "2|") +:+ ip_string address +:+ "|" +:+ format_uint len
  end.
Definition scope_wide (s : scope) : Prop :=
  match s with Network _ address _ => (address < 2 ^ 128)%N | _ => True end.

Lemma ip_string_plain n : Forall plain (bytes (ip_string n)).
Proof. by apply (ip_plain (IP16b n)). Qed.

Definition scope_words (s : scope) : list (list ascii) :=
  match s with
  | Unscoped => [[]]
  | Unaddressed family len => [bytes (format_uint family); "/"%char :: bytes (format_uint len)]
  | Network ipv4 address len =>
      [[if ipv4 then "1"%char else "2"%char]; bytes (ip_string address); bytes (format_uint len)]
  end.

Lemma plain_no_bar l : Forall plain l → Forall (λ c, is_char "|" c = false) l.
Proof. intros H. eapply Forall_impl; [exact H|]. intros c [_ Hc]. by apply bool_decide_false. Qed.

Lemma scope_text_words s : split_with (is_char "|") (bytes (scope_text s)) = scope_words s.
Proof.
  rewrite <-(split_join_with "|" (scope_words s)).
  - f_equal. destruct s as [|f l|[] n l]; cbn [scope_text scope_words join_with]; by rewrite ?bytes_app.
  - by destruct s.
  - pose proof (λ n, plain_no_bar _ (number_plain n)) as Hn. pose proof (λ n, plain_no_bar _ (ip_string_plain n)) as Hi.
    destruct s as [|f l|b n l]; unfold scope_words; rewrite ?Forall_cons; split_and?; auto; by destruct b.
Qed.

Lemma words2_inj (a b a' b' : list ascii) : [a; b] = [a'; b'] → a = a' ∧ b = b'.
Proof. by intros [= -> ->]. Qed.
Lemma words3_inj (a b c a' b' c' : list ascii) : [a; b; c] = [a'; b'; c'] → a = a' ∧ b = b' ∧ c = c'.
Proof. by intros [= -> -> ->]. Qed.

Lemma scope_text_inj s s' : scope_wide s → scope_wide s' → scope_text s = scope_text s' → s = s'.
Proof.
  intros Hs Hs' E. apply (f_equal (λ t, split_with (is_char "|") (bytes t))) in E.
  rewrite !scope_text_words in E.
  pose proof format_uint_inj as Hu.
  destruct s as [|f l|b n l], s' as [|f' l'|b' n' l']; cbn [scope_words] in E;
    try (apply (f_equal length) in E; discriminate E); [done|..].
  - apply words2_inj in E as [E1%bytes_inj%Hu E2]. apply (f_equal (drop 1)) in E2.
    apply bytes_inj, Hu in E2. by subst.
  - apply words3_inj in E as (E0 & E1%bytes_inj & E2%bytes_inj%Hu).
    apply ip_string_inj in E1; [|done..]. subst. by destruct b, b'.
Qed.

Lemma mask_top_network w len n : mask_top w len n = network_of w len n.
Proof. unfold mask_top, network_of. by rewrite N.shiftl_mul_pow2, N.shiftr_div_pow2. Qed.

Lemma clamp_min a b : clampPrefixLen a b = (a `min` b)%N.
Proof. unfold clampPrefixLen. destruct (N.ltb_spec b a); lia. Qed.

Lemma network_le w len n : (network_of w len n ≤ n)%N.
Proof. unfold network_of. rewrite N.mul_comm. apply N.Div0.mul_div_le. Qed.

Lemma masked_prefix a len : is_valid a = true → (len ≤ bit_len a)%N →
  p_addr (masked (prefix_from a (Z.of_N len))) =
    match a with A4 n => A4 (network_of 32 len n) | A6 n _ => A6 (network_of 128 len n) "" | AInvalid => AInvalid end.
Proof.
  intros Hv Hl. unfold prefix_from. rewrite Hv.
  rewrite (proj2 (Z.leb_le 0 (Z.of_N len))), (proj2 (Z.leb_le (Z.of_N len) _)) by lia. cbn [andb].
  unfold masked, prefix_valid. cbn [p_bits]. rewrite (proj2 (Z.leb_le 0 (Z.of_N len))) by lia.
  destruct a as [|n|n z]; [done|..]; cbn [p_addr p_bits without_zone]; by rewrite N2Z.id, mask_top_network.
Qed.

Lemma suffix_scope_text family a len : net_ip_wide a →
  formatECSSuffix family a len =
    scope_text (match a with IPNil => Unaddressed family len
                | _ => Network (bool_decide (family = 1%N)) (as16 a) len end).
Proof.
  intros Ha. unfold formatECSSuffix.
  assert (Hd : ∀ x y : string, (if bool_decide (family = 1%N) then x else y) = if (family =? 1)%N then x else y).
  { intros x y. case_bool_decide; by destruct (N.eqb_spec family 1). }
  destruct a as [|n|n]; [done|..]; cbn [net_to4 scope_text]; rewrite Hd.
  - rewrite !net_ip_string_16 by done. by destruct (family =? 1)%N.
  - destruct (family =? 1)%N; [|done]. destruct (to4 n) as [v|] eqn:Ev; [|done].
    apply to4_inv in Ev as [-> Hv]. by rewrite net_ip_string_16.
Qed.

Lemma extract_subnet {DM : DnsMsg} req : ExtractECSSubnet req = head (option_subnets req).
Proof.
  destruct req as [req|]; [|done]. unfold ExtractECSSubnet, option_subnets. cbn.
  destruct (is_edns0 req) as [o|]; [|done]. induction (opt_options o) as [|x l IH]; [done|]. by destruct x.
Qed.

Lemma unmap_wide a : addr_wide a → addr_wide (unmap a).
Proof.
  destruct a as [|n|n z]; intros Ha; [exact Ha..|]. unfold unmap. destruct (is_4in6 n); [|exact Ha].
  apply N.mod_lt. discriminate.
Qed.

Lemma network_text (ipv4 : bool) family w len n :
  (if ipv4 then w = 32 ∧ family = 1 ∧ n < 2 ^ 32 else w = 128 ∧ family = 2 ∧ n < 2 ^ 128)%N →
  let a := ip16 (if ipv4 then A4 (network_of w len n) else A6 (network_of w len n) "") in
  formatECSSuffix family (IP16b a) len = scope_text (Network ipv4 a len).
Proof.
  intros H a. pose proof (network_le w len n) as Hl.
  rewrite suffix_scope_text; destruct ipv4; destruct H as (-> & -> & Hn); subst a; try reflexivity.
  - apply (as16_wide (IP4b _)). unfold net_ip_wide. eapply N.le_lt_trans; eauto.
  - unfold net_ip_wide, ip16. eapply N.le_lt_trans; eauto.
Qed.

Lemma suffix_scope {DM : DnsMsg} req ecs : wide req ecs → ECSCacheSuffix req ecs = scope_text (scope_of req ecs).
Proof.
  intros [Hreq Hc%unmap_wide]. unfold ECSCacheSuffix, scope_of. rewrite extract_subnet.
  destruct (option_subnets req) as [|s l]; cbn [head].
  - unfold BuildECSSubnet. destruct (Enabled ecs); [|reflexivity]. cbn [negb orb]. rewrite <-unmap_valid.
    destruct (unmap (Client ecs)) as [|n|n z] eqn:Eu; [reflexivity|..];
      cbn [is_valid negb is4 is6 addr_wide e_family e_address e_netmask] in Hc |- *;
      unfold maskedIPv4, maskedIPv6; rewrite clamp_min, masked_prefix by (cbn [bit_len]; try reflexivity; lia).
    + apply (network_text true 1 32). auto.
    + apply (network_text false 2 128). auto.
  - apply Forall_cons in Hreq as [Hs _]. rewrite suffix_scope_text by exact Hs. by destruct (e_address s).
Qed.

Lemma scope_of_wide {DM : DnsMsg} req ecs : wide req ecs → scope_wide (scope_of req ecs).
Proof.
  intros [Hreq Hc%unmap_wide]. unfold scope_of. destruct (option_subnets req) as [|s l].
  - destruct (Enabled ecs); [|exact I]. destruct (unmap (Client ecs)) as [|n|n z]; [exact I|..];
      unfold scope_wide, addr_wide in *.
    + apply (as16_wide (IP4b _)). eapply N.le_lt_trans; [apply network_le | exact Hc].
    + eapply N.le_lt_trans; [apply network_le | exact Hc].
  - apply Forall_cons in Hreq as [Hs%as16_wide _]. destruct (e_address s); [exact I|exact Hs..].
Qed.

Section suffix.
Context {DM : DnsMsg}.

Lemma suffix_cases req ecs :
  ECSCacheSuffix req ecs = "" ∨
  ∃ f a n, ECSCacheSuffix req ecs = formatECSSuffix f a n.
Proof.
  unfold ECSCacheSuffix. destruct (ExtractECSSubnet req) as [sn|]; [by right; eauto|].
  destruct (negb (Enabled ecs) || _); [by left|].
  destruct (BuildECSSubnet _ _ _) as [sn|]; [right; eauto | by left].
Qed.

Lemma cache_key_cases q req ecs :
  (ECSCacheSuffix req ecs = "" ∧ CacheKey q req ecs = QuestionKey q) ∨
  (∃ f a n, ECSCacheSuffix req ecs = formatECSSuffix f a n ∧
     CacheKey q req ecs = QuestionKey q +:+ "|ecs:" +:+ formatECSSuffix f a n).
Proof.
  unfold CacheKey. destruct (suffix_cases req ecs) as [->|(f & a & n & E)]; [by left|].
  destruct (decide (ECSCacheSuffix req ecs = "")) as [->|Hne]; [by left|].
  rewrite bool_decide_false by done. cbn [negb]. rewrite E in *. right. eauto.
Qed.

End suffix.

Lemma cache_key_inj {DM : DnsMsg} q q' req req' ecs ecs' :
  CacheKey q req ecs = CacheKey q' req' ecs' →
  NormalizeName (q_name q) = NormalizeName (q_name q') ∧
  q_type q = q_type q' ∧ q_class q = q_class q' ∧
  ECSCacheSuffix req ecs = ECSCacheSuffix req' ecs'.
Proof.
  assert (Hx : ∀ k k' f a n, QuestionKey k ≠ QuestionKey k' +:+ "|ecs:" +:+ formatECSSuffix f a n).
  { intros k k' f a n E. pose proof (question_keyish k) as Hk.
    rewrite E, !bytes_app, app_assoc in Hk. by apply suffix_not_keyish in Hk. }
  destruct (cache_key_cases q req ecs) as [[Es ->]|(f & a & n & Es & ->)],
    (cache_key_cases q' req' ecs') as [[Es' ->]|(f' & a' & n' & Es' & ->)];
    rewrite ?Es, ?Es'; intros H.
  - destruct (question_key_inj _ _ H) as (? & ? & ?). eauto.
  - by apply Hx in H.
  - symmetry in H. by apply Hx in H.
  - apply (f_equal bytes) in H. rewrite !bytes_app in H.
    change (bytes "|ecs:") with (["|"%char; "e"%char; "c"%char] ++ "s"%char :: [":"%char]) in H.
    rewrite <-!app_assoc, !(app_assoc (bytes (QuestionKey _))) in H. cbn [app] in H.
    apply app_last_pivot in H as [H Hs].
    + injection Hs as Hs. apply bytes_inj in Hs as ->.
      apply app_inv_tail in H.
      apply bytes_inj in H. destruct (question_key_inj _ _ H) as (? & ? & ?). eauto.
    + rewrite not_elem_of_cons. split; [discriminate | apply suffix_no_s].
    + rewrite not_elem_of_cons. split; [discriminate | apply suffix_no_s].
Qed.

(** * Properties *)

(** C22: whatever the third-party cache drops or evicts, an answer served from
    the cache at time [now] is one the server stored earlier under that very
    key, with each record's TTL reduced by the whole seconds since, none of
    them run out; and when it is a denial (NXDOMAIN, or success with an empty
    Answer section) those seconds are also fewer than the TTL and the MINIMUM
    of the first SOA of its Authority section, as RFC 2308 asks. A denial
    behind an alias, whose Answer section holds CNAMEs, is not counted as one
    by the code and gets only the records' own TTLs. *)
Theorem cache_hit_sound `{RL : RistrettoLaws C cacheEntry} {DM : DnsMsg}
    (es : list (N * op)) (c c' : C) now key m :
  run (Some rc_new) es = Some c →
  Get (Some c) now key = (Some m, Some c') →
  ∃ t resp e, (t, OSet key resp) ∈ es ∧ e = u32 ((now - t) / 1000000000) ∧
    Forall (λ r, e < ttl_of r)%N (records resp) ∧
    (denial resp → within_minimum e resp) ∧ m = aged e resp.
Proof.
  intros Hrun (entry & Hh & Hlt & Hadj)%get_some.
  destruct (run_holds _ _ _ _ Hrun Hh) as (t & resp & Hin & -> & _).
  cbn [storedAt minTTL e_msg entryOf] in *.
  apply adjustRecordTTLs_spec in Hadj as [HF ->]. exists t, resp, (elapsedSince now t).
  split_and!; try done. intros Hd%denial_negative. apply negative_minimum.
  unfold lifetime in Hlt. by rewrite Hd in Hlt.
Qed.

(** C35: two queries share a cache entry if and only if they ask the same
    question (name up to case, type, class) for the same client subnet: the
    subnet option of the request itself, with its address and length, or else
    the network of the configured length around the client's address, or
    none when client subnets are off. No name, however it is spelt, and no
    two subnets make one key. *)
Theorem cache_key_injective {DM : DnsMsg} q q' req req' ecs ecs' :
  wide req ecs → wide req' ecs' →
  CacheKey q req ecs = CacheKey q' req' ecs' ↔
  NormalizeName (q_name q) = NormalizeName (q_name q') ∧
  q_type q = q_type q' ∧ q_class q = q_class q' ∧
  scope_of req ecs = scope_of req' ecs'.
Proof.
  intros Hw Hw'. split.
  - intros (Hn & Ht & Hc & Hs)%cache_key_inj. rewrite !suffix_scope in Hs by done.
    split_and!; try done. apply scope_text_inj; auto using scope_of_wide.
  - intros (Hn & Ht & Hc & Hs). unfold CacheKey, QuestionKey.
    rewrite !suffix_scope by done. by rewrite Hn, Ht, Hc, Hs.
Qed.

(** An answer with a record of TTL zero in the Additional section, as the OPT
    record of any upstream answer with no extended flags has, is stored and
    never served: the next [Get] of its key misses. *)
Theorem zero_ttl_additional_never_served `{RL : RistrettoLaws C cacheEntry} {DM : DnsMsg}
    (es : list (N * op)) (c : C) now key :
  run (Some rc_new) es = Some c →
  (∀ t resp, (t, OSet key resp) ∈ es → ∃ o, o ∈ m_extra resp ∧ ttl_of o = 0%N) →
  (Get (Some c) now key).1 = None.
Proof.
  intros Hrun Hz. destruct (Get (Some c) now key) as [[m|] c'] eqn:E; [|done].
  apply get_some in E as (entry & Hh & _ & Hadj).
  destruct (run_holds _ _ _ _ Hrun Hh) as (t & resp & Hin & -> & _).
  apply adjustRecordTTLs_spec in Hadj as [HF _].
  destruct (Hz _ _ Hin) as (o & Ho & H0). unfold records in HF.
  rewrite !Forall_app, !Forall_forall in HF. destruct HF as (_ & _ & HF).
  specialize (HF _ Ho). cbn beta in HF. lia.
Qed.

(** * Witnesses *)

(** A cache that keeps everything. *)
#[export] Instance demo_ristretto : Ristretto (gmap string cacheEntry) cacheEntry | 100 := {|
  rc_new := ∅;
  rc_get c now k := (c !! k, c);
  rc_set c now k v cost ttl := <[k := v]> c;
  rc_del c now k := delete k c
|}.
#[export] Instance demo_ristretto_laws : RistrettoLaws (gmap string cacheEntry) cacheEntry | 100.
Proof.
  refine {| rc_holds c k v := c !! k = Some v |}; cbn.
  - done.
  - by intros c now k v c' [= -> ->].
  - done.
  - intros c now k v cost ttl k' v' [[<- <-]|[? ?]]%lookup_insert_Some; auto.
  - intros c now k k' v [? ?]%lookup_delete_Some. auto.
Defined.

Definition demo_answer : msg :=
  set_answer new_msg [RR (Hdr "a.example." TypeA ClassINET 300) (DA (IP4b 1))].
Definition demo_denial : msg :=
  set_ns (set_rcode new_msg 3) [RR (Hdr "example." TypeSOA ClassINET 900)
    (DSOA (SOAData "ns.example." "h.example." 1 2 3 4 60))].
Definition demo_run : list (N * op) := [(0%N, OSet "d" demo_denial); (5%N, OSet "k" demo_answer)].
Definition demo_cache : gmap string cacheEntry :=
  <["k" := entryOf 5 demo_answer]> {["d" := entryOf 0 demo_denial]}.

Lemma cache_hit_sound_witness :
  ∃ t resp e, (t, OSet "d" resp) ∈ demo_run ∧ e = u32 ((59900000000 - t) / 1000000000) ∧
    Forall (λ r, e < ttl_of r)%N (records resp) ∧
    (denial resp → within_minimum e resp) ∧ aged 59 demo_denial = aged e resp.
Proof.
  apply (cache_hit_sound demo_run demo_cache demo_cache 59900000000 "d" (aged 59 demo_denial));
    vm_compute; reflexivity.
Defined.

(** A denial behind an alias is kept as long as its records: 50 minutes past
    the MINIMUM of one minute the name is still answered with no address. *)
Definition demo_alias_denial : msg :=
  set_ns (set_answer new_msg [RR (Hdr "w.example." TypeCNAME ClassINET 3600) (DCNAME "a.example.")])
    [RR (Hdr "example." TypeSOA ClassINET 3600) (DSOA (SOAData "ns.example." "h.example." 1 2 3 4 60))].
Lemma alias_denial_outlives_minimum :
  (c ← run (Some rc_new) [(0%N, OSet "k" demo_alias_denial)]; (Get (Some c) 3060000000000 "k").1) =
    Some (aged 3060 demo_alias_denial) ∧ ¬ within_minimum 3060 demo_alias_denial.
Proof.
  split; [vm_compute; reflexivity|]. intros (b & r & soa & a & E & _ & Hd & _ & Hm).
  destruct b as [|x b]; [|by destruct b]. injection E as <- _. injection Hd as <-. by vm_compute in Hm.
Qed.

Definition demo_question (name : string) : question := Question name TypeA ClassINET.

Definition demo_client (n : N) : ECSContext := MkECS true (A4 n) 24 56.

Lemma cache_key_injective_witness :
  wide None (demo_client 3232235777) ∧ wide None (demo_client 3232235800) ∧
  wide None (demo_client 3232236033) ∧
  scope_of None (demo_client 3232235777) = Network true (65535 * 2 ^ 32 + 3232235776) 24 ∧
  CacheKey (demo_question "WWW.Example") None (demo_client 3232235777) =
    CacheKey (demo_question "www.example.") None (demo_client 3232235800) ∧
  CacheKey (demo_question "www.example.") None (demo_client 3232235777) ≠
    CacheKey (demo_question "www.example.") None (demo_client 3232236033).
Proof.
  split_and!; [by repeat constructor..|reflexivity| |].
  - apply (cache_key_injective (demo_question "WWW.Example") (demo_question "www.example.")
      None None (demo_client 3232235777) (demo_client 3232235800)); [by repeat constructor..|].
    split_and!; vm_compute; reflexivity.
  - intros E. apply (cache_key_injective (demo_question "www.example.") (demo_question "www.example.")
      None None (demo_client 3232235777) (demo_client 3232236033)) in E; [|by repeat constructor..].
    destruct E as (_ & _ & _ & E). by vm_compute in E.
Defined.

Definition demo_opt_answer : msg :=
  set_extra demo_answer [RR (Hdr "." TypeOPT 1232 0) (DOPT [])].
Definition demo_opt_run : list (N * op) := [(0%N, OSet "k" demo_opt_answer)].

Lemma zero_ttl_additional_never_served_witness :
  (Get (Some {["k" := entryOf 0 demo_opt_answer]}) 1 "k").1 = None.
Proof.
  apply (zero_ttl_additional_never_served demo_opt_run).
  - vm_compute. reflexivity.
  - intros t resp Hin. apply list_elem_of_singleton in Hin as [= -> ->].
    exists (RR (Hdr "." TypeOPT 1232 0) (DOPT [])). split; [left | reflexivity].
Defined.

End Cache.
