(* ===== verification/Access.v ===== *)
(** * Who may query: acl/rules.go, dnsproc/acl.go, network/acl.go, network/cookies.go

    The rules of the table [acl_rules] compiled to prefixes, the list of
    trusted subnets, and server cookies (RFC 7873) over HMAC-SHA256, a
    parameter. The rows [ListRules] reads come from the database and are an
    argument of [Reload]. *)
From S2P Require Import Prelude NetAddr.

(** [hmac.New(sha256.New, secret)]: the tag of a message, 32 bytes. *)
Class Hmac := {
  hmac_sha256 : string → string → string;
  hmac_size : ∀ secret m, slen (hmac_sha256 secret m) = 32
}.

(** A tag of the right size, for evaluation only. *)
#[export] Instance demo_hmac : Hmac | 100.
Proof.
  refine {| hmac_sha256 secret m :=
    mk (take 32 (bytes (secret +:+ m) ++ replicate 32 (ascii_of_N 0))) |}.
  intros. unfold slen. rewrite bytes_mk, length_take, length_app, length_replicate. lia.
Defined.

Module Access.

(** ** acl/rules.go *)
Definition ActionAllow := "allow".
Definition ActionBlock := "block".
Definition ErrInvalidSubnet := errNew "invalid subnet".
Definition ErrInvalidAction := errNew "invalid action".

Record Rule := MkRule { ID : Z; Subnet : string; Description : string; Action : string }.

Definition NormalizeAction (raw : string) : res string :=
  let action := to_lower (trim_space raw) in
  if bool_decide (action = "") then Ok ActionAllow
  else if bool_decide (action = ActionAllow) || bool_decide (action = ActionBlock) then Ok action
  else Err ErrInvalidAction.

Definition NormalizeSubnet (raw : string) : res string :=
  let raw := trim_space raw in
  if bool_decide (raw = "") then Err ErrInvalidSubnet
  else
    match parse_ip raw with
    | Some ip =>
        match to4 ip with
        | Some ip4 => Ok (format_ipv4 ip4 +:+ "/32")
        | None => Ok (ip_string ip +:+ "/128")
        end
    | None =>
        match parse_cidr raw with
        | None => Err ErrInvalidSubnet
        | Some (network, ones) =>
            match to4 network with
            | Some ip4 => Ok (format_ipv4 ip4 +:+ "/" +:+ format_uint ones)
            | None => Ok (ip_string network +:+ "/" +:+ format_uint ones)
            end
        end
    end.

(** [scanRule]: the columns of one row, the description a nullable text. *)
Definition scanRule (id : Z) (subnet : string) (description : option string) (action : string)
    : Rule :=
  MkRule id subnet (match description with Some d => trim_space d | None => "" end)
    (if bool_decide (action = "") then ActionAllow else action).

(** ** dnsproc/acl.go *)
Record aclSnapshot := Snapshot {
  enforced : bool; hasAllow : bool; allowRules : list prefix; blockRules : list prefix
}.

(** The loop of [Reload] over the rules. *)
Fixpoint reloadLoop (snap : aclSnapshot) (rules : list Rule) : res aclSnapshot :=
  match rules with
  | [] => Ok snap
  | rule :: rest =>
      match parse_prefix (Subnet rule) with
      | None => Err (errNew "parse stored subnet %q: %w")
      | Some p =>
          if bool_decide (Action rule = ActionBlock) then
            reloadLoop (Snapshot (enforced snap) (hasAllow snap) (allowRules snap)
              (blockRules snap ++ [masked p])) rest
          else
            reloadLoop (Snapshot (enforced snap) true (allowRules snap ++ [masked p])
              (blockRules snap)) rest
      end
  end.

(** The checker's state is its snapshot; [db] is nil or what [ListRules]
    returns. *)
Definition Reload (db : option (res (list Rule))) (c : option aclSnapshot)
    : option aclSnapshot * option error :=
  match db with
  | None => (Some (Snapshot false false [] []), None)
  | Some (Err e) => (c, Some (errWrap "reload query access rules: %w" e))
  | Some (Ok rules) =>
      match reloadLoop (Snapshot (0 <? length rules) false [] []) rules with
      | Ok snap => (Some snap, None)
      | Err e => (c, Some e)
      end
  end.

(** The outer option is the nil checker, the inner one the atomic value. *)
Definition Allowed (c : option (option aclSnapshot)) (a : addr) : bool :=
  match c with
  | Some (Some snap) =>
      if negb (enforced snap) then true
      else if negb (is_valid a) then false
      else
        let a := unmap a in
        if existsb (λ p, prefix_contains p a) (blockRules snap) then false
        else if hasAllow snap then existsb (λ p, prefix_contains p a) (allowRules snap)
        else true
  | _ => true
  end.

(** ** network/acl.go *)
Fixpoint parseACLParts (parts : list string) : res (list prefix) :=
  match parts with
  | [] => Ok []
  | part :: rest =>
      let part := trim_space part in
      if bool_decide (part = "") then parseACLParts rest
      else match parse_prefix part with
           | None => Err (errNew "parse trusted subnet %q: %w")
           | Some p => let? ps := parseACLParts rest in Ok (masked p :: ps)
           end
  end.

Definition ParseACL (csv : string) : res (list prefix) :=
  let csv := trim_space csv in
  if bool_decide (csv = "") then Ok [] else parseACLParts (split csv ","%char).

Definition Trusted (acl : option (list prefix)) (a : addr) : bool :=
  match acl with
  | None | Some [] => false
  | Some prefixes =>
      if negb (is_valid a) then false
      else existsb (λ p, prefix_contains p (unmap a)) prefixes
  end.

(** ** network/cookies.go *)
Section cookies.
Context {HM : Hmac}.

Definition serverCookieLen := 8.

(** The bytes of an address: four for IPv4, else sixteen (zero when it is not
    valid). *)
Fixpoint be_bytes (n : nat) (v : N) : list ascii :=
  match n with
  | O => []
  | S n' => be_bytes n' (N.shiftr v 8) ++ [ascii_of_N (v mod 256)]
  end.
Definition addr_octets (a : addr) : string :=
  if is4 a then mk (be_bytes 4 (addr_bits a)) else mk (be_bytes 16 (addr_bits a)).

(** [ServerCookie] fills an eight-byte buffer; a nil engine leaves it zero. *)
Definition ServerCookie (secret : option string) (client : addr) (clientCookie : string) : string :=
  match secret with
  | None => mk (replicate serverCookieLen (ascii_of_N 0))
  | Some secret =>
      mk (take serverCookieLen
            (bytes (hmac_sha256 secret (addr_octets client +:+ clientCookie))))
  end.

Definition Verify (secret : option string) (client : addr) (clientCookie serverCookie : string)
    : bool :=
  match secret with
  | None => false
  | Some _ =>
      if negb (slen serverCookie =? serverCookieLen) then false
      else bool_decide (serverCookie = ServerCookie secret client clientCookie)
  end.

End cookies.

(** * Lemmas *)

(** The rules of one kind, as prefixes. *)
Definition prefixes_of (block : bool) (rules : list Rule) : list prefix :=
  omap (λ r, if Bool.eqb (bool_decide (Action r = ActionBlock)) block
             then parse_prefix (Subnet r) else None) rules.

Lemma reloadLoop_ok rules : ∀ snap snap',
  reloadLoop snap rules = Ok snap' ↔
  Forall (λ r, is_Some (parse_prefix (Subnet r))) rules ∧
  snap' = Snapshot (enforced snap)
    (hasAllow snap || existsb (λ r, negb (bool_decide (Action r = ActionBlock))) rules)
    (allowRules snap ++ map masked (prefixes_of false rules))
    (blockRules snap ++ map masked (prefixes_of true rules)).
Proof.
  induction rules as [|r rules IH]; intros snap snap'; cbn [reloadLoop].
  - unfold prefixes_of. cbn. rewrite orb_false_r, !app_nil_r. destruct snap. cbn.
    split; [intros [= <-]; done | by intros [_ ->]].
  - rewrite Forall_cons. unfold prefixes_of in *. cbn [omap list_omap existsb].
    destruct (parse_prefix (Subnet r)) as [p|] eqn:Ep.
    2: { split; [done | intros [[[? ?] _] _]; done]. }
    destruct (bool_decide (Action r = ActionBlock)) eqn:Ea; rewrite IH;
      cbn [enforced hasAllow allowRules blockRules Bool.eqb negb orb map];
      rewrite <-?app_assoc, ?orb_true_r; cbn [app]; naive_solver.
Qed.

Lemma existsb_masked a ps :
  existsb (λ p, prefix_contains p a) (map masked ps) = existsb (λ p, prefix_contains p a) ps.
Proof.
  induction ps as [|p ps IH]; [done|]. cbn [map existsb]. by rewrite masked_contains, IH.
Qed.

(** An address lies in the subnet a rule is stored with. *)
Definition matches (r : Rule) (a : addr) : Prop :=
  ∃ p, parse_prefix (Subnet r) = Some p ∧ prefix_contains p (unmap a) = true.

Lemma existsb_prefixes block rules a :
  existsb (λ p, prefix_contains p (unmap a)) (prefixes_of block rules) = true ↔
  ∃ r, r ∈ rules ∧ bool_decide (Action r = ActionBlock) = block ∧ matches r a.
Proof.
  unfold prefixes_of, matches. rewrite existsb_exists. setoid_rewrite <-list_elem_of_In.
  setoid_rewrite list_elem_of_omap. split.
  - intros (p & (r & Hr & Hp) & Hc). exists r.
    destruct (Bool.eqb _ block) eqn:E; [|done]. apply Bool.eqb_prop in E. eauto.
  - intros (r & Hr & <- & p & Hp & Hc). exists p. split; [|done]. exists r.
    by rewrite Bool.eqb_reflx.
Qed.

(** * Properties *)

(** once the rules are loaded, a client may query exactly when there are
    no rules, or it has a valid address that lies in no blocked subnet and,
    if any rule allows, in an allowed one; so a block always wins and the
    order of the rows is irrelevant. A row that does not parse makes the
    reload fail and leaves the snapshot in force. *)
Theorem query_access_decided (rules : list Rule) (old : option aclSnapshot) (a : addr) :
  let is_block r := Action r = ActionBlock in
  match Reload (Some (Ok rules)) old with
  | (new, None) =>
      Forall (λ r, is_Some (parse_prefix (Subnet r))) rules ∧
      (Allowed (Some new) a = true ↔
       rules = [] ∨
       (is_valid a = true ∧ (∀ r, r ∈ rules → is_block r → ¬ matches r a) ∧
        ((∀ r, r ∈ rules → is_block r) ∨ ∃ r, r ∈ rules ∧ ¬ is_block r ∧ matches r a)))
  | (new, Some _) =>
      new = old ∧ ¬ Forall (λ r, is_Some (parse_prefix (Subnet r))) rules
  end.
Proof.
  cbn zeta. unfold Reload.
  destruct (reloadLoop _ rules) as [snap|e] eqn:E.
  - apply reloadLoop_ok in E as [HF ->]. split; [done|].
    cbn [Allowed enforced hasAllow allowRules blockRules app orb].
    destruct rules as [|r0 rules]; [split; [by left|done]|].
    set (l := r0 :: rules) in *. assert (Hl : l ≠ []) by done. clearbody l.
    replace (0 <? length l) with true by (destruct l; done). cbn [negb].
    rewrite !existsb_masked. pose proof (existsb_prefixes true l a) as Hb.
    pose proof (existsb_prefixes false l a) as Ha.
    setoid_rewrite bool_decide_eq_true in Hb. setoid_rewrite bool_decide_eq_false in Ha.
    assert (Hh : existsb (λ r, negb (bool_decide (Action r = ActionBlock))) l = false ↔
      ∀ r, r ∈ l → Action r = ActionBlock).
    { rewrite <-not_true_iff_false, existsb_exists. setoid_rewrite <-list_elem_of_In.
      setoid_rewrite negb_true_iff. setoid_rewrite bool_decide_eq_false. split.
      - intros Hn r Hr. destruct (decide (Action r = ActionBlock)); [done|]. by destruct Hn; eauto.
      - intros Hall (r & Hr & Hn). by apply Hn, Hall. }
    destruct (is_valid a); cbn [negb]; [|naive_solver].
    destruct (existsb _ (prefixes_of true l)).
    { split; [done|]. intros [?|(_ & Hn & _)]; [done|].
      destruct (proj1 Hb eq_refl) as (r & ? & ? & ?). naive_solver. }
    assert (Hnb : ∀ r, r ∈ l → Action r = ActionBlock → ¬ matches r a).
    { intros r Hr HB Hm. assert (false = true) by (apply Hb; eauto). done. }
    destruct (existsb _ l).
    + split; [intros H; right; naive_solver|].
      intros [?|(_ & _ & [Hall|Hex])]; [done| |by apply Ha].
      assert (true = false) by (by apply Hh). done.
    + split; [|done]. intros _. right. split; [done|]. split; [done|]. left. by apply Hh.
  - split; [done|]. intros HF.
    assert (Hok : ∃ s, reloadLoop (Snapshot (0 <? length rules) false [] []) rules = Ok s).
    { eexists. apply reloadLoop_ok. split; [done | reflexivity]. }
    destruct Hok as [s Hs]. congruence.
Qed.

(** a server cookie verifies for a client address and client cookie
    exactly when it is the one the server issues to that client for that
    cookie; an engine without a secret verifies nothing. *)
Theorem cookie_verify_exact {HM : Hmac} secret client cc sc :
  Verify secret client cc sc = true ↔ secret ≠ None ∧ sc = ServerCookie secret client cc.
Proof.
  destruct secret as [secret|]; [|by split; [|intros [? _]]].
  cbn [Verify]. destruct (slen sc =? serverCookieLen) eqn:El; cbn [negb].
  - rewrite bool_decide_eq_true. naive_solver.
  - split; [done|]. intros [_ ->]. exfalso. apply Nat.eqb_neq in El. apply El.
    unfold ServerCookie, slen. rewrite bytes_mk, length_take.
    change (length (bytes ?s)) with (slen s). by rewrite hmac_size.
Qed.

End Access.
