(* ===== verification/Upstream.v ===== *)
(** * Upstream servers: internal/config/upstream.go, dnsproc/rtt.go, dnsproc/forwarder.go

    Addresses of upstream servers, their smoothed round-trip times, and the
    forwarder that tries them in that order. The DNS client is the interface
    [DnsClient]; its state, with the table of round-trip times, is the network
    behind [ExchangeResolver]. The compare-and-swap loop of [updateEWMA] and
    the concurrent map make each [touch] one step. *)
From S2P Require Import Prelude Telemetry NetAddr Names Dns Sorting Cache.
Import Cache.

(** The client of the DNS package: a message to an address gives a message
    (or nil), the time it took in nanoseconds, and the new state. *)
Class DnsClient (X : Type) := {
  client_exchange : X → msg → string → res (option msg) * N * X;
  client_now : X → N
}.

(** [ExchangeResolver] of processor.go: the state [Net] of the network is threaded through. *)
Class ExchangeResolver (R Net : Type) := {
  Exchange : R → msg → addr → Net → res msg * Net;
  ECSCacheContext : R → addr → ECSContext
}.

(** What both resolvers promise the query handlers: a reply they relay is
    never a SERVFAIL. *)
Class ExchangeLaws (R Net : Type) `{ExchangeResolver R Net} : Prop := {
  exchange_no_servfail r req client n resp n' :
    Exchange r req client n = (Ok resp, n') → m_rcode resp ≠ RcodeServerFailure
}.

Module Upstream.
Export Counters.

(** ** net.SplitHostPort and net.JoinHostPort *)
Definition missingPort := "missing port in address".
Definition tooManyColons := "too many colons in address".

(** The text before the last [c] and after it. *)
Definition split_last (c : ascii) (l : list ascii) : option (list ascii * list ascii) :=
  let r := reverse l in
  let tail := take_until (is_char c) r in
  if length tail <? length r
  then Some (reverse (drop (S (length tail)) r), reverse tail) else None.

Definition mem_char (c : ascii) (l : list ascii) : bool := existsb (is_char c) l.

(** Host and port, or the reason of the error. *)
Definition SplitHostPort (hostport : string) : string * string + string :=
  let l := bytes hostport in
  match split_last ":" l with
  | None => inr missingPort
  | Some (before, port) =>
      match l with
      | "["%char :: rest =>
          let inside := take_until (is_char "]") rest in
          if length rest <=? length inside then inr "missing ']' in address"
          else
            let after := drop (S (length inside)) rest in
            match after with
            | [] => inr missingPort
            | c :: after' =>
                if is_char ":" c && bool_decide (after' = port) then
                  if mem_char "[" rest then inr "unexpected '[' in address"
                  else if mem_char "]" after then inr "unexpected ']' in address"
                  else inl (mk inside, mk port)
                else if is_char ":" c then inr tooManyColons else inr missingPort
            end
      | _ =>
          if mem_char ":" before then inr tooManyColons
          else if mem_char "[" l then inr "unexpected '[' in address"
          else if mem_char "]" l then inr "unexpected ']' in address"
          else inl (mk before, mk port)
      end
  end.

Definition JoinHostPort (host port : string) : string :=
  if mem_char ":" (bytes host) then "[" +:+ host +:+ "]:" +:+ port else host +:+ ":" +:+ port.

(** ** config/upstream.go *)
Definition defaultDNSPort := "53".

(** [strings.Trim(host, "[]")] *)
Definition trim_brackets (host : string) : string :=
  mk (trim (λ c, is_char "[" c || is_char "]" c) (bytes host)).

Definition validateUpstreamHost (host : string) : option error :=
  let host := trim_brackets host in
  if bool_decide (host = "") then Some (errNew "empty upstream host")
  else match parse_ip host with
       | Some _ => None
       | None => if contains_any host (" " +:+ String (ascii_of_N 9) "")
                 then Some (errNew "invalid upstream host %q") else None
       end.

(** An [AddrError] prints as "address ADDR: WHY". *)
Definition addrErrorText (addr why : string) : string := "address " +:+ addr +:+ ": " +:+ why.

Definition ParseUpstreamAddress (raw : string) : res string :=
  let raw := trim_space raw in
  let checked host ok := match validateUpstreamHost host with Some e => Err e | None => Ok ok end in
  if bool_decide (raw = "") then Err (errNew "empty upstream address")
  else
    match SplitHostPort raw with
    | inr why =>
        if contains (addrErrorText raw why) "missing port" then checked raw raw
        else match parse_addr raw with
             | Some a => Ok (addr_string a)
             | None => checked raw raw
             end
    | inl (host, port) =>
        if bool_decide (host = "") || bool_decide (port = "")
        then Err (errNew "invalid upstream address %q")
        else
          match atoi port with
          | Some n =>
              if ((n <? 1) || (65535 <? n))%Z then Err (errNew "invalid upstream port %q")
              else
                match validateUpstreamHost host with
                | Some e => Err e
                | None =>
                    if bool_decide (port = defaultDNSPort) then
                      match parse_addr (trim_brackets host) with
                      | Some a => Ok (addr_string a)
                      | None => Ok (trim_brackets host)
                      end
                    else Ok (JoinHostPort host port)
                end
          | None => Err (errNew "invalid upstream port %q")
          end
    end.

Definition DialUpstreamAddress (stored : string) : string :=
  let stored := trim_space stored in
  if bool_decide (stored = "") then stored
  else
    let fallback :=
      match parse_addr stored with
      | Some a => JoinHostPort (addr_string a) defaultDNSPort
      | None => JoinHostPort stored defaultDNSPort
      end in
    match SplitHostPort stored with
    | inl (host, port) =>
        if negb (bool_decide (host = "")) && negb (bool_decide (port = ""))
        then JoinHostPort host port else fallback
    | inr _ => fallback
    end.

(** The loop of [ValidatedUpstreams] and of [NormalizeUpstreams]. *)
Fixpoint parseUpstreams (addrs : list string) : res (list string) :=
  match addrs with
  | [] => Ok []
  | part :: rest =>
      let part := trim_space part in
      if bool_decide (part = "") then parseUpstreams rest
      else
        let? parsed := res_wrap "invalid upstream %q: %w" (ParseUpstreamAddress part) in
        let? out := parseUpstreams rest in
        Ok (parsed :: out)
  end.

Definition NormalizeUpstreams (addrs : list string) : res (list string) :=
  let? out := parseUpstreams addrs in
  if bool_decide (out = []) then Err (errNew "at least one upstream DNS server is required")
  else Ok out.

Definition ParseUpstreams (raw : string) : res (list string) := NormalizeUpstreams (split raw ",").

Definition DisplayUpstreams (addrs : list string) : list string :=
  map (λ raw, match ParseUpstreamAddress raw with
              | Ok parsed => parsed | Err _ => trim_space raw end) addrs.

(** ** dnsproc/rtt.go *)
Definition defaultStartingRTTMs := 500%N.
Definition rttFailurePenaltyMs := 2000%N.
Definition rttEWMAWeight := 5%N.
Definition rttEntryIdleTTL := 3600000000000%N.   (* an hour in nanoseconds *)

Record rttEntry := RttEntry { rttEWMA : N; lastSeen : N }.

(** The map of entries and the counter [tracked]. *)
Record RTTRegistry := Registry { entries : gmap addr rttEntry; tracked : Z }.

(** [host[0]] of an empty host panics, and nothing recovers: the end of the
    server, as the error [ErrPanic] of the caller that can meet one, [forward].
    The servers of the iterative resolver are written with an address each, and
    a dial address never has an empty host. *)
Definition ErrPanic := errNew "panic: index out of range".
Definition emptyHost (server : string) : bool :=
  match SplitHostPort server with inl (host, _) => bool_decide (host = "") | inr _ => false end.

(** The address of a host:port; none for an empty host. *)
Definition serverIP (server : string) : option addr :=
  match SplitHostPort server with
  | inr _ => None
  | inl (host, _) =>
      match bytes host with
      | "["%char :: rest => parse_addr (mk (take (length rest - 1) rest))
      | _ => parse_addr host
      end
  end.

(** [Duration.Milliseconds]; an elapsed time is not negative. *)
Definition durationMilliseconds (ns : N) : N := (ns / 1000000)%N.

Definition updateEWMA (old sampleMs : N) : N :=
  if (old =? 0)%N then sampleMs
  else (u64 (sampleMs + u64 ((rttEWMAWeight - 1) * old)) / rttEWMAWeight)%N.

(** A new entry is stored with the sample and then updated with it. *)
Definition touch (now : N) (a : addr) (sampleMs : N) (r : RTTRegistry) : RTTRegistry :=
  match entries r !! a with
  | Some e => Registry (<[a := RttEntry (updateEWMA (rttEWMA e) sampleMs) now]> (entries r)) (tracked r)
  | None =>
      Registry (<[a := RttEntry (updateEWMA sampleMs sampleMs) now]> (entries r)) (tracked r + 1)
  end.

Definition RecordSuccess (now : N) (a : addr) (duration : N) (r : RTTRegistry) : RTTRegistry :=
  if negb (is_valid a) then r
  else
    let ms := durationMilliseconds duration in
    touch now a (if (ms =? 0)%N then 1%N else ms) r.

Definition RecordFailure (now : N) (a : addr) (r : RTTRegistry) : RTTRegistry :=
  if negb (is_valid a) then r else touch now a rttFailurePenaltyMs r.

Definition Latency (r : RTTRegistry) (server : string) : N :=
  match serverIP server with
  | None => defaultStartingRTTMs
  | Some a =>
      match entries r !! a with
      | None => defaultStartingRTTMs
      | Some e => if (rttEWMA e =? 0)%N then defaultStartingRTTMs else rttEWMA e
      end
  end.

Definition rankLess (a b : string * N) : bool :=
  if (a.2 =? b.2)%N then str_lt a.1 b.1 else (a.2 <? b.2)%N.

(** Entries not seen for an hour are dropped; their number leaves [tracked]. *)
Definition sweep (now : N) (r : RTTRegistry) : RTTRegistry :=
  let stale e := (Z.of_N (lastSeen e) <? Z.of_N now - Z.of_N rttEntryIdleTTL)%Z in
  let kept := filter (λ kv, stale kv.2 = false) (entries r) in
  Registry kept (tracked r - Z.of_nat (size (entries r) - size kept)).

Section upstream.
Context {SS : SortSlice} {X : Type} {DM : DnsMsg} {CL : DnsClient X}.

Definition SortServers (r : RTTRegistry) (servers : list string) : list string :=
  if length servers <=? 1 then servers
  else map fst (sort_slice rankLess (map (λ s, (s, Latency r s)) servers)).

(** ** dnsproc/forwarder.go *)
Definition ErrAllUpstreamsFailed := errNew "all upstream DNS servers failed".

(** The network: the client, the round-trip times, and the counters of the
    resolvers. *)
Record network := Network { wire : X; rtt : RTTRegistry; n_stats : list counter }.

Definition n_inc (c : counter) (n : network) : network :=
  Network (wire n) (rtt n) (n_stats n ++ [c]).

Record Forwarder := MkForwarder {
  upstreams : list string;
  f_dnssecValidation : bool;
  ecsEnabled : bool; ecsIPv4PrefixLen : N; ecsIPv6PrefixLen : N
}.

Definition ECSCacheContext_f (f : Forwarder) (client : addr) : ECSContext :=
  MkECS (ecsEnabled f) client (ecsIPv4PrefixLen f) (ecsIPv6PrefixLen f).

(** The size advertised when an OPT record must be added. *)
Definition ednsSize (req : msg) : N :=
  match is_edns0 req with
  | Some opt => if (MinMsgSize <=? opt_udp_size opt)%N then opt_udp_size opt else DefaultMsgSize
  | None => DefaultMsgSize
  end.

Definition ensureEDNS (upstreamReq req : msg) : msg :=
  match is_edns0 upstreamReq with
  | Some _ => upstreamReq
  | None => set_edns0 upstreamReq (ednsSize req) false
  end.

Definition applyDNSSECDO (upstreamReq req : msg) : msg :=
  match is_edns0 upstreamReq with
  | Some opt =>
      update_edns0 (λ o, opt_set_do
        (if (opt_udp_size o <? MinMsgSize)%N then opt_set_udp_size o MinMsgSize else o)) upstreamReq
  | None => set_edns0 upstreamReq (ednsSize req) true
  end.

Definition prepareUpstreamRequest (f : Forwarder) (req : msg) (client : addr) : msg * bool :=
  match ExtractECSSubnet (Some req) with
  | Some _ => (if f_dnssecValidation f then applyDNSSECDO req req else req, true)
  | None =>
      let '(upstreamReq, ecsForwarded) :=
        if ecsEnabled f && is_valid client then
          match BuildECSSubnet client (ecsIPv4PrefixLen f) (ecsIPv6PrefixLen f) with
          | Some subnet =>
              (update_edns0 (λ o, opt_set_options (opt_options o ++ [OSubnet subnet]) o)
                 (ensureEDNS req req), true)
          | None => (req, false)
          end
        else (req, false) in
      (if f_dnssecValidation f then applyDNSSECDO upstreamReq req else upstreamReq, ecsForwarded)
  end.

(** One exchange with a server, and what it does to the round-trip times: a
    reply that is no SERVFAIL, or the error. *)
Definition tryServer (req : msg) (server : string) (n : network) : res msg * network :=
  let dialAddr := DialUpstreamAddress server in
  let '(r, elapsed, x) := client_exchange (wire n) req dialAddr in
  let now := client_now x in
  let record f := match serverIP dialAddr with Some ip => f ip (rtt n) | None => rtt n end in
  let failed e := (Err e, Network x (record (RecordFailure now)) (n_stats n)) in
  match r with
  | Err e => failed e
  | Ok None => failed (errNew "empty response from nameserver")
  | Ok (Some resp) =>
      if (m_rcode resp =? RcodeServerFailure)%N
      then failed (errNew "nameserver %s returned SERVFAIL")
      else (Ok resp, Network x (record (λ ip, RecordSuccess now ip elapsed)) (n_stats n))
  end.

(** The servers in order until one answers; the last error otherwise. *)
Fixpoint tryServers (req : msg) (servers : list string) (lastErr : option error) (n : network)
    : (msg * string + option error) * network :=
  match servers with
  | [] => (inr lastErr, n)
  | server :: rest =>
      match tryServer req server n with
      | (Ok resp, n) => (inl (resp, server), n)
      | (Err e, n) => tryServers req rest (Some e) n
      end
  end.

Definition forward (f : Forwarder) (req : msg) (client : addr) (n : network) : res msg * network :=
  match upstreams f with
  | [] => (Err ErrAllUpstreamsFailed, n)
  | servers =>
      let '(upstreamReq, ecsForwarded) := prepareUpstreamRequest f req client in
      if (1 <? length servers) && existsb emptyHost servers then (Err ErrPanic, n) else
      match tryServers upstreamReq (SortServers (rtt n) servers) None n with
      | (inl (resp, _), n) =>
          let n := n_inc ForwardedQuery n in
          (Ok resp, if ecsForwarded then n_inc ECSQueriesForwarded n else n)
      | (inr _, n) => (Err ErrAllUpstreamsFailed, n_inc UpstreamFailure n)
      end
  end.

(** [SetUpstreams]: the texts are validated before they replace the list. *)
Definition ValidatedUpstreams (addrs : list string) : res (list string) :=
  let? out := parseUpstreams addrs in
  if bool_decide (out = []) then Err (errNew "at least one upstream DNS server is required")
  else Ok out.

Definition SetUpstreams (raw : list string) (f : Forwarder) : res Forwarder :=
  let? addrs := ValidatedUpstreams raw in
  Ok (MkForwarder addrs (f_dnssecValidation f) (ecsEnabled f) (ecsIPv4PrefixLen f)
        (ecsIPv6PrefixLen f)).

(** The dial addresses of the configured servers. *)
Definition NormalizedUpstreams (addrs : list string) : res (list string) :=
  let? validated := ValidatedUpstreams addrs in
  Ok (map DialUpstreamAddress validated).

Definition NewForwarder (upstreams : list string) : Forwarder :=
  MkForwarder upstreams false false 0 0.

Definition SetDNSSECValidation (enabled : bool) (f : Forwarder) : Forwarder :=
  MkForwarder (upstreams f) enabled (ecsEnabled f) (ecsIPv4PrefixLen f) (ecsIPv6PrefixLen f).
Definition SetECS (enabled : bool) (ipv4PrefixLen ipv6PrefixLen : N) (f : Forwarder) : Forwarder :=
  MkForwarder (upstreams f) (f_dnssecValidation f) enabled ipv4PrefixLen ipv6PrefixLen.

(** The prefix lengths of the configuration are ints cut to eight bits. *)
Definition NewForwarderFromConfig (addrs : list string) (dnssecValidation ecs : bool)
    (ipv4PrefixLen ipv6PrefixLen : N) : res Forwarder :=
  let? addrs := ValidatedUpstreams addrs in
  Ok (SetECS ecs (ipv4PrefixLen mod 256)%N (ipv6PrefixLen mod 256)%N
        (SetDNSSECValidation dnssecValidation (NewForwarder addrs))).

(** A query for arpa. before the listeners start; the error, if any. *)
Definition PreWarm {DQ : DnsQuestion} (f : Forwarder) (n : network) : option error * network :=
  match upstreams f with
  | [] => (Some ErrAllUpstreamsFailed, n)
  | _ =>
      let req := set_rd (set_question_of new_msg "arpa." TypeNS) true in
      match forward f req (A6 1 "") n with
      | (Ok _, n) => (None, n)
      | (Err e, n) => (Some (errWrap "upstream pre-warm: %w" e), n)
      end
  end.

#[export] Instance forwarder_resolver : ExchangeResolver Forwarder network := {|
  Exchange := forward;
  ECSCacheContext := ECSCacheContext_f
|}.

(** The failed attempts on a list of servers, in order. *)
Inductive failing (req : msg) : list string → network → network → Prop :=
| failing_nil n : failing req [] n n
| failing_cons s l n n1 n2 e :
    tryServer req s n = (Err e, n1) → failing req l n1 n2 → failing req (s :: l) n n2.

(** ** Attempts *)

(** The first success ends the loop, after the failures before it. *)
Lemma tryServers_spec req servers lastErr n :
  match tryServers req servers lastErr n with
  | (inl (resp, s), n2) =>
      ∃ skipped rest n1, servers = skipped ++ s :: rest ∧ failing req skipped n n1 ∧
        tryServer req s n1 = (Ok resp, n2)
  | (inr e, n2) => failing req servers n n2 ∧ (e = None ↔ servers = [] ∧ lastErr = None)
  end.
Proof.
  revert lastErr n. induction servers as [|s l IH]; intros lastErr n; cbn [tryServers].
  - split; [constructor | naive_solver].
  - destruct (tryServer req s n) as [[resp|e] n1] eqn:E.
    + exists [], l, n. split_and!; [done|constructor|done].
    + specialize (IH (Some e) n1). destruct (tryServers req l (Some e) n1) as [[[resp t]|e'] n2].
      * destruct IH as (sk & rest & n3 & -> & Hf & Ht). exists (s :: sk), rest, n3.
        split_and!; [done|by econstructor|done].
      * destruct IH as [Hf He]. split; [by econstructor | naive_solver].
Qed.

Lemma tryServer_ok req s n resp n' :
  tryServer req s n = (Ok resp, n') →
  m_rcode resp ≠ RcodeServerFailure ∧
  ∃ t x, client_exchange (wire n) req (DialUpstreamAddress s) = (Ok (Some resp), t, x).
Proof.
  unfold tryServer. destruct (client_exchange _ _ _) as [[[[m|]|e] t] x] eqn:E; try done.
  destruct (N.eqb_spec (m_rcode m) RcodeServerFailure); [done|]. intros [= <- <-]. eauto.
Qed.

Lemma tryServer_answers req s n m t x :
  client_exchange (wire n) req (DialUpstreamAddress s) = (Ok (Some m), t, x) →
  m_rcode m ≠ RcodeServerFailure → ∃ n', tryServer req s n = (Ok m, n').
Proof.
  intros E Hr. unfold tryServer. rewrite E, (proj2 (N.eqb_neq _ _) Hr). by eexists.
Qed.

Lemma tryServers_ok req servers lastErr n resp s n' :
  tryServers req servers lastErr n = (inl (resp, s), n') →
  m_rcode resp ≠ RcodeServerFailure ∧
  ∃ n1 t x, client_exchange (wire n1) req (DialUpstreamAddress s) = (Ok (Some resp), t, x).
Proof.
  intros E. pose proof (tryServers_spec req servers lastErr n) as H. rewrite E in H.
  destruct H as (sk & rest & n1 & -> & _ & Ht). apply tryServer_ok in Ht as (Hr & t & x & Ht).
  eauto 10.
Qed.

(** A list with a server that always succeeds does not fail. *)
Lemma failing_no_success req l n n' s :
  failing req l n n' → s ∈ l → ¬ (∀ n, ∃ resp n', tryServer req s n = (Ok resp, n')).
Proof.
  induction 1 as [|t l n n1 n2 e Ht _ IH]; [by intros ?%not_elem_of_nil|].
  intros [->|Hs]%elem_of_cons Hok; [|by apply IH].
  destruct (Hok n) as (? & ? & ?). congruence.
Qed.

#[export] Instance forwarder_laws : ExchangeLaws Forwarder network.
Proof.
  split. intros f req client n resp n'. cbn [Exchange forwarder_resolver]. unfold forward.
  destruct (upstreams f) as [|u us]; [done|].
  destruct (prepareUpstreamRequest f req client) as [q ecs]. destruct (_ && _); [done|].
  destruct (tryServers q _ None n) as [[[m s]|e] n1] eqn:E; [|done].
  intros [= <- <-]. by apply tryServers_ok in E as [? _].
Qed.

End upstream.

(** * Lemmas *)

(** ** Round-trip times *)
Lemma updateEWMA_between lo hi old sample :
  (lo ≤ old ≤ hi → lo ≤ sample ≤ hi → 0 < lo → hi < 2 ^ 60 →
   lo ≤ updateEWMA old sample ≤ hi)%N.
Proof.
  intros Ho Hs Hlo Hhi. unfold updateEWMA, rttEWMAWeight, u64.
  rewrite (proj2 (N.eqb_neq old 0)) by lia.
  change (5 - 1)%N with 4%N. rewrite (N.mod_small (4 * old)), N.mod_small by lia.
  split; [apply N.div_le_lower_bound | apply N.Div0.div_le_upper_bound]; lia.
Qed.

Lemma rankLess_total x y : rankLess x y = false → rankLess y x = false → x = y.
Proof.
  destruct x as [s a], y as [t b]. unfold rankLess; cbn [fst snd].
  rewrite (N.eqb_sym b a). destruct (N.eqb_spec a b) as [->|Hn].
  - intros H1 H2. f_equal. by apply str_lt_total.
  - rewrite !N.ltb_ge. intros. lia.
Qed.

Lemma rankLess_spec x y :
  rankLess x y = true ↔ (x.2 < y.2)%N ∨ (x.2 = y.2 ∧ str_lt x.1 y.1 = true).
Proof.
  unfold rankLess. destruct (N.eqb_spec x.2 y.2); rewrite ?N.ltb_lt; [|naive_solver].
  split; [by right | intros [?|[_ ?]]; [lia | done]].
Qed.

Lemma rankLess_weak : strict_weak rankLess.
Proof.
  split.
  - intros x. apply not_true_iff_false. rewrite rankLess_spec, str_lt_irrefl. intros [?|[_ ?]]; [lia|done].
  - intros x y z. rewrite !rankLess_spec. intros [?|[E1 ?]] [?|[E2 ?]]; [left; lia..|right].
    split; [congruence | by eapply str_lt_trans].
  - intros x y z H1 H2 H3 H4. pose proof (rankLess_total _ _ H1 H2) as ->. done.
Qed.

Lemma SortServers_perm {SS : SortSlice} r l : SortServers r l ≡ₚ l.
Proof.
  unfold SortServers. destruct (_ <=? _); [done|].
  rewrite sort_slice_perm, map_map. by rewrite map_id.
Qed.

(** ** Subnets *)
Section subnet.
Context `{DL : DnsMsgLaws}.

Lemma extract_is m : ExtractECSSubnet (Some m) = (is_edns0 m ≫= λ o, firstSubnet (opt_options o)).
Proof. unfold ExtractECSSubnet. by destruct (is_edns0 m). Qed.

Lemma extract_do m req :
  ExtractECSSubnet (Some (applyDNSSECDO m req)) = ExtractECSSubnet (Some m).
Proof.
  rewrite !extract_is. unfold applyDNSSECDO. destruct (is_edns0 m) as [o|] eqn:E.
  - rewrite is_edns0_update, E.
    + cbn [fmap option_fmap option_map mbind option_bind]. rewrite set_do_options.
      by destruct (_ <? _)%N; rewrite ?set_udp_size_options.
    + intros x Hx. apply set_do_opt. destruct (_ <? _)%N; [by apply set_udp_size_opt | done].
  - destruct (is_edns0_set m (ednsSize req) true E) as (o & -> & Ho). cbn. by rewrite Ho.
Qed.

Lemma firstSubnet_app os s : firstSubnet os = None → firstSubnet (os ++ [OSubnet s]) = Some s.
Proof. induction os as [|[] os IH]; cbn; intros E; [done|discriminate|by apply IH..]. Qed.

Lemma extract_attach m req s : ExtractECSSubnet (Some m) = None →
  ExtractECSSubnet (Some (update_edns0
    (λ o, opt_set_options (opt_options o ++ [OSubnet s]) o) (ensureEDNS m req))) = Some s.
Proof.
  rewrite !extract_is. intros Hn. rewrite is_edns0_update by done.
  assert (Ho : ∃ o, is_edns0 (ensureEDNS m req) = Some o ∧ firstSubnet (opt_options o) = None).
  { unfold ensureEDNS. destruct (is_edns0 m) as [o|] eqn:E; [by exists o|].
    destruct (is_edns0_set m (ednsSize req) false E) as (o & -> & Ho). exists o. by rewrite Ho. }
  destruct Ho as (o & -> & Ho). cbn. by apply firstSubnet_app.
Qed.

End subnet.

(** Two addresses agree on the bits a prefix length keeps. *)
Definition same_prefix (f : Forwarder) (a b : addr) : Prop :=
  match unmap a, unmap b with
  | A4 n, A4 m =>
      top_bits_eq 32 (clampPrefixLen (ecsIPv4PrefixLen f) 32) n m = true
  | A6 n _, A6 m _ =>
      top_bits_eq 128 (clampPrefixLen (ecsIPv6PrefixLen f) 128) n m = true
  | _, _ => False
  end.

Lemma clamp_le n max : (clampPrefixLen n max ≤ max)%N.
Proof. unfold clampPrefixLen. destruct (N.ltb_spec max n); lia. Qed.

Lemma masked_from4 n len : (len ≤ 32)%N →
  p_addr (masked (prefix_from (A4 n) (Z.of_N len))) = A4 (mask_top 32 len n).
Proof.
  intros Hl. unfold prefix_from. cbn [is_valid bit_len].
  rewrite (proj2 (Z.leb_le 0 _)), (proj2 (Z.leb_le (Z.of_N len) _)) by lia.
  cbn [andb]. unfold masked, prefix_valid. cbn [p_bits without_zone p_addr].
  rewrite (proj2 (Z.leb_le 0 _)) by lia. cbn [p_addr]. by rewrite N2Z.id.
Qed.

Lemma masked_from6 n z len : (len ≤ 128)%N →
  p_addr (masked (prefix_from (A6 n z) (Z.of_N len))) = A6 (mask_top 128 len n) "".
Proof.
  intros Hl. unfold prefix_from. cbn [is_valid bit_len].
  rewrite (proj2 (Z.leb_le 0 _)), (proj2 (Z.leb_le (Z.of_N len) _)) by lia.
  cbn [andb]. unfold masked, prefix_valid. cbn [p_bits without_zone p_addr].
  rewrite (proj2 (Z.leb_le 0 _)) by lia. cbn [p_addr]. by rewrite N2Z.id.
Qed.

Lemma mask_top_eq w len n m : top_bits_eq w len n m = true → mask_top w len n = mask_top w len m.
Proof. unfold top_bits_eq, mask_top. by intros ->%N.eqb_eq. Qed.

Lemma build_same_prefix f a b : same_prefix f a b →
  BuildECSSubnet a (ecsIPv4PrefixLen f) (ecsIPv6PrefixLen f) =
  BuildECSSubnet b (ecsIPv4PrefixLen f) (ecsIPv6PrefixLen f).
Proof.
  unfold same_prefix, BuildECSSubnet, maskedIPv4, maskedIPv6.
  rewrite <-(unmap_valid a), <-(unmap_valid b).
  destruct (unmap a) as [|n|n z], (unmap b) as [|m|m z']; try done; intros E%mask_top_eq;
    cbn [is_valid negb is4 is6].
  - by rewrite !masked_from4, E by apply clamp_le.
  - by rewrite !masked_from6, E by apply clamp_le.
Qed.

Lemma same_prefix_valid f a b : same_prefix f a b → is_valid a = true ∧ is_valid b = true.
Proof.
  unfold same_prefix. rewrite <-(unmap_valid a), <-(unmap_valid b).
  by destruct (unmap a), (unmap b).
Qed.

(** * Properties *)

(** the order in which servers are tried depends only on which servers
    there are and on their measured times, not on the order they are
    configured in: it is a permutation sorted by time and then by name. *)
Theorem sort_servers_canonical {SS : SortSlice} (r : RTTRegistry) (l k : list string) :
  l ≡ₚ k →
  SortServers r l = SortServers r k ∧ SortServers r l ≡ₚ l ∧
  (∀ i j s t, i < j → SortServers r l !! i = Some s → SortServers r l !! j = Some t →
     rankLess (t, Latency r t) (s, Latency r s) = false).
Proof.
  intros Hp. set (rank := λ s, (s, Latency r s)).
  assert (Hs : ∀ l, sorted_by rankLess (sort_slice rankLess (map rank l)))
    by (intros; apply sort_slice_sorted, rankLess_weak).
  assert (Hr : ∀ l x, x ∈ sort_slice rankLess (map rank l) → x = rank x.1).
  { intros l0 x. rewrite sort_slice_perm, list_elem_of_In, in_map_iff. by intros (s & <- & _). }
  pose proof (SortServers_perm r l) as Hq. unfold SortServers in *. fold rank in Hq |- *.
  rewrite <-(Permutation_length Hp). destruct (length l <=? 1) eqn:El.
  - apply Nat.leb_le in El. destruct l as [|s [|t l]]; cbn in El; [| |lia].
    + apply Permutation_nil_l in Hp as <-. split_and!; [done..|]. by intros [].
    + apply Permutation_singleton_l in Hp as <-. split_and!; [done..|].
      intros i j u v Hij H1 H2. apply lookup_lt_Some in H2. cbn in H2. lia.
  - split_and!; [|done|].
    + f_equal. apply (sorted_by_unique rankLess); [apply rankLess_total | done..|].
      by rewrite !sort_slice_perm, Hp.
    + intros i j s t Hij Hi Hj. rewrite list_lookup_fmap in Hi, Hj.
      apply fmap_Some in Hi as (x & Hx & ->), Hj as (y & Hy & ->).
      change (rankLess (rank y.1) (rank x.1) = false).
      rewrite <-(Hr l x), <-(Hr l y) by (by eapply list_elem_of_lookup_2).
      by apply (Hs l i j).
Qed.

(** a smoothed time always lies between the smallest and the largest
    sample, and never overflows: from any samples of at most 2^60 ms, each at
    least one, as [RecordSuccess] and [RecordFailure] make them. *)
Theorem rtt_bounded (lo hi : N) (a : addr) (samples : list (N * N)) (r : RTTRegistry) :
  (0 < lo)%N → (hi < 2 ^ 60)%N →
  Forall (λ s, lo ≤ s.2 ≤ hi)%N samples →
  (∀ e, entries r !! a = Some e → lo ≤ rttEWMA e ≤ hi)%N →
  ∀ e, entries (foldl (λ r s, touch s.1 a s.2 r) r samples) !! a = Some e →
    (lo ≤ rttEWMA e ≤ hi)%N.
Proof.
  intros Hlo Hhi HF. revert r. induction HF as [|[t s] l Hs _ IH]; intros r Hr; [done|].
  cbn [foldl]. apply IH. intros e. unfold touch. cbn [fst snd] in *.
  destruct (entries r !! a) as [e0|]; cbn [entries]; rewrite lookup_insert_eq; intros [= <-];
    cbn [rttEWMA]; apply updateEWMA_between; auto.
Qed.

(** the client subnet sent upstream is the client's own if its query has
    one, else the masked prefix of its address when the forwarder is
    configured to send it, else none; so two clients of one prefix whose
    queries are alike are indistinguishable upstream, and share cache keys. *)
Theorem upstream_subnet `{DL : DnsMsgLaws} (f : Forwarder) req client client' q :
  same_prefix f client client' →
  (ExtractECSSubnet (Some (prepareUpstreamRequest f req client).1) =
     match ExtractECSSubnet (Some req) with
     | Some s => Some s
     | None => if ecsEnabled f
               then BuildECSSubnet client (ecsIPv4PrefixLen f) (ecsIPv6PrefixLen f) else None
     end) ∧
  prepareUpstreamRequest f req client = prepareUpstreamRequest f req client' ∧
  CacheKey q (Some req) (ECSCacheContext_f f client) =
    CacheKey q (Some req) (ECSCacheContext_f f client').
Proof.
  intros Hp. pose proof (build_same_prefix f client client' Hp) as Hb.
  destruct (same_prefix_valid f client client' Hp) as [Hv Hv'].
  unfold prepareUpstreamRequest, CacheKey, ECSCacheSuffix, ECSCacheContext_f.
  cbn [Enabled Client IPv4PrefixLen IPv6PrefixLen]. rewrite Hv, Hv', Hb. split_and!; [|done..].
  destruct (ExtractECSSubnet (Some req)) as [s|] eqn:E.
  - destruct (f_dnssecValidation f); cbn [fst]; [by rewrite extract_do|done].
  - rewrite andb_true_r. destruct (ecsEnabled f); cbn [fst].
    + destruct (BuildECSSubnet client' _ _) as [s|] eqn:Es; cbn [fst].
      * destruct (f_dnssecValidation f); [rewrite extract_do|]; by apply extract_attach.
      * destruct (f_dnssecValidation f); [by rewrite extract_do|done].
    + destruct (f_dnssecValidation f); [by rewrite extract_do|done].
Qed.

(** *** Specification: the time of a server and one attempt *)

(** The address a server was configured with; one on port 53 is stored without
    a port, and has none here. *)
Definition address_of (server : string) : option addr :=
  match SplitHostPort server with inl (host, _) => parse_addr host | inr _ => None end.

(** The smoothed time of the server's address in milliseconds, and 500 for one
    never measured or without an address. *)
Inductive ranks_at (r : RTTRegistry) (server : string) : N → Prop :=
| ranks_measured a e : address_of server = Some a → entries r !! a = Some e →
    rttEWMA e ≠ 0%N → ranks_at r server (rttEWMA e)
| ranks_default :
    (∀ a e, address_of server = Some a → entries r !! a = Some e → rttEWMA e = 0%N) →
    ranks_at r server 500.

(** The text before a port holds no bracket, but those of an IPv6 address. *)
Lemma mem_char_take c p l : mem_char c l = false → mem_char c (take_until p l) = false.
Proof.
  induction l as [|x l IH]; [done|]. cbn [take_until mem_char existsb]. fold (mem_char c l).
  intros [H1 H2]%orb_false_iff. destruct (p x); [done|]. cbn. rewrite H1. by apply IH.
Qed.

Lemma mem_char_sub c l k : (∀ x, x ∈ l → x ∈ k) → mem_char c k = false → mem_char c l = false.
Proof.
  unfold mem_char. intros Hs Hk. apply not_true_iff_false. intros (x & Hx & Hc)%existsb_exists.
  apply not_true_iff_false in Hk. apply Hk, existsb_exists. exists x.
  split; [by apply list_elem_of_In, Hs, list_elem_of_In | done].
Qed.

Lemma split_last_sub c l before after : split_last c l = Some (before, after) → ∀ x, x ∈ before → x ∈ l.
Proof.
  unfold split_last. destruct (_ <? _); [|done]. intros [= <- _] x.
  rewrite elem_of_reverse. intros Hx. apply elem_of_reverse. by eapply subseteq_drop.
Qed.

Lemma split_host_plain hostport host port : SplitHostPort hostport = inl (host, port) →
  mem_char "[" (bytes host) = false.
Proof.
  unfold SplitHostPort. generalize (bytes hostport). intros l.
  destruct (split_last ":" l) as [[before p]|] eqn:El; [|done].
  assert (Hplain : (if mem_char ":" before then inr tooManyColons
      else if mem_char "[" l then inr "unexpected '[' in address"
      else if mem_char "]" l then inr "unexpected ']' in address"
      else inl (mk before, mk p)) = inl (host, port) → mem_char "[" (bytes host) = false).
  { destruct (mem_char ":" before); [done|]. destruct (mem_char "[" l) eqn:Em; [done|].
    destruct (mem_char "]" _); [done|]. intros [= <- _]. rewrite bytes_mk.
    eapply mem_char_sub; [by eapply split_last_sub | done]. }
  destruct l as [|c rest]; [exact Hplain|].
  assert (Hbracket : (let inside := take_until (is_char "]") rest in
      if length rest <=? length inside then inr "missing ']' in address"
      else match drop (S (length inside)) rest with
           | [] => inr missingPort
           | c :: after' =>
               if is_char ":" c && bool_decide (after' = p) then
                 if mem_char "[" rest then inr "unexpected '[' in address"
                 else if mem_char "]" (drop (S (length inside)) rest) then inr "unexpected ']' in address"
                 else inl (mk inside, mk p)
               else if is_char ":" c then inr tooManyColons else inr missingPort
           end) = inl (host, port) → mem_char "[" (bytes host) = false).
  { cbn zeta. destruct (_ <=? _); [done|]. destruct (drop _ _) as [|c' after']; [done|].
    destruct (_ && _); [|by destruct (is_char ":" c')].
    destruct (mem_char "[" rest) eqn:Em; [done|]. destruct (mem_char "]" (c' :: after')); [done|].
    intros [= <- _]. rewrite bytes_mk. by apply mem_char_take. }
  destruct c as [[] [] [] [] [] [] [] []]; first [exact Hplain | exact Hbracket].
Qed.

Lemma serverIP_address server : serverIP server = address_of server.
Proof.
  unfold serverIP, address_of. destruct (SplitHostPort server) as [[host port]|] eqn:E; [|done].
  apply split_host_plain in E. destruct (bytes host) as [|c rest]; [done|].
  revert E. destruct c as [[] [] [] [] [] [] [] []]; try done.
Qed.

Lemma ranks_at_latency r server t : ranks_at r server t ↔ t = Latency r server.
Proof.
  unfold Latency. rewrite serverIP_address. split.
  - intros [a e Ha He Hn|Hd].
    + by rewrite Ha, He, (proj2 (N.eqb_neq _ _) Hn).
    + destruct (address_of server) as [a|]; [|done]. destruct (entries r !! a) as [e|] eqn:Ee; [|done].
      by rewrite (Hd a e eq_refl Ee).
  - intros ->. destruct (address_of server) as [a|] eqn:Ea; [|constructor; congruence].
    destruct (entries r !! a) as [e|] eqn:Ee; [|constructor; congruence].
    destruct (N.eqb_spec (rttEWMA e) 0); [|by econstructor]. constructor. intros; congruence.
Qed.

(** The order [SortServers] makes, as times that do not fall. *)
Lemma sorted_times {SS : SortSlice} r l i j s u ts tu : i < j →
  SortServers r l !! i = Some s → SortServers r l !! j = Some u →
  map (Latency r) (SortServers r l) !! i = Some ts → map (Latency r) (SortServers r l) !! j = Some tu →
  (ts < tu)%N ∨ (ts = tu ∧ str_lt u s = false).
Proof.
  intros Hij Hs Hu Ht Ht'. rewrite list_lookup_fmap, Hs in Ht. rewrite list_lookup_fmap, Hu in Ht'.
  injection Ht as <-. injection Ht' as <-.
  destruct (sort_servers_canonical r l l (reflexivity l)) as (_ & _ & H).
  specialize (H i j s u Hij Hs Hu). apply not_true_iff_false in H. rewrite rankLess_spec in H. cbn [fst snd] in H.
  destruct (N.lt_trichotomy (Latency r s) (Latency r u)) as [?|[E|?]]; [by left|right|naive_solver].
  split; [done|]. apply not_true_iff_false. naive_solver.
Qed.

Section attempts.
Context {X} {DM : DnsMsg} {CL : DnsClient X}.

(** What an attempt teaches: the time of a success, the penalty of a failure. *)
Definition learn (server : string) (f : addr → RTTRegistry → RTTRegistry) (r : RTTRegistry) : RTTRegistry :=
  match address_of (DialUpstreamAddress server) with Some a => f a r | None => r end.

(** A message that is no SERVFAIL answers; an error, no message and SERVFAIL
    (2) do not. *)
Inductive attempt (q : msg) (s : string) (n : network) : option msg → network → Prop :=
| attempt_answered resp t x :
    client_exchange (wire n) q (DialUpstreamAddress s) = (Ok (Some resp), t, x) → m_rcode resp ≠ 2%N →
    attempt q s n (Some resp)
      (Network x (learn s (λ a, RecordSuccess (client_now x) a t) (rtt n)) (n_stats n))
| attempt_failed out t x :
    client_exchange (wire n) q (DialUpstreamAddress s) = (out, t, x) →
    (∀ resp, out = Ok (Some resp) → m_rcode resp = 2%N) →
    attempt q s n None (Network x (learn s (RecordFailure (client_now x)) (rtt n)) (n_stats n)).

Inductive attempts_fail (q : msg) : list string → network → network → Prop :=
| attempts_nil n : attempts_fail q [] n n
| attempts_cons s l n n1 n2 :
    attempt q s n None n1 → attempts_fail q l n1 n2 → attempts_fail q (s :: l) n n2.

Lemma tryServer_attempt q s n :
  match tryServer q s n with
  | (Ok resp, n') => attempt q s n (Some resp) n'
  | (Err _, n') => attempt q s n None n'
  end.
Proof.
  unfold tryServer. destruct (client_exchange (wire n) q (DialUpstreamAddress s)) as [[out t] x] eqn:E.
  rewrite serverIP_address. fold (learn s (RecordFailure (client_now x)) (rtt n)).
  fold (learn s (λ ip, RecordSuccess (client_now x) ip t) (rtt n)).
  destruct out as [[resp|]|e]; [|by eapply attempt_failed..].
  destruct (N.eqb_spec (m_rcode resp) RcodeServerFailure) as [Hr|Hr].
  - eapply attempt_failed; [exact E|]. by intros ? [= <-].
  - by eapply attempt_answered.
Qed.

Lemma forward_tries {SS : SortSlice} f req client n q ecs : upstreams f ≠ [] →
  (1 < length (upstreams f) → Forall (λ s, emptyHost s = false) (upstreams f)) →
  prepareUpstreamRequest f req client = (q, ecs) →
  forward f req client n =
    match tryServers q (SortServers (rtt n) (upstreams f)) None n with
    | (inl (resp, _), n) => (Ok resp, if ecs then n_inc ECSQueriesForwarded (n_inc ForwardedQuery n)
                                      else n_inc ForwardedQuery n)
    | (inr _, n) => (Err ErrAllUpstreamsFailed, n_inc UpstreamFailure n)
    end.
Proof.
  intros Hu Hh Ep. unfold forward. rewrite Ep.
  assert (Hp : (1 <? length (upstreams f)) && existsb emptyHost (upstreams f) = false).
  { destruct (Nat.ltb_spec 1 (length (upstreams f))) as [Hl|]; [|done]. cbn [andb].
    apply not_true_iff_false. intros (s & Hs & He)%existsb_exists. apply list_elem_of_In in Hs.
    apply Hh in Hl. rewrite Forall_forall in Hl. specialize (Hl s Hs). congruence. }
  by destruct (upstreams f); [|rewrite Hp].
Qed.

Lemma failing_attempts q l n n' : failing q l n n' → attempts_fail q l n n'.
Proof.
  induction 1 as [|s l n n1 n2 e Ht _ IH]; [constructor|]. econstructor; [|exact IH].
  pose proof (tryServer_attempt q s n) as H. by rewrite Ht in H.
Qed.
End attempts.

(** C18: unless one of several upstreams has an empty host, which panics, the
    forwarder asks every configured server once, in the order of the smoothed
    times of their addresses and then of their names, until one answers with
    anything but SERVFAIL; it relays that answer and counts it, and records
    the time of the answer and a penalty for each failure before. When all
    fail it reports so and counts that. One server that always answers makes
    every exchange succeed. A server on port 53, which is stored without its
    port, counts as one that was never measured, at 500 ms. *)
Theorem forwarder_failover {SS : SortSlice} {X} {DM : DnsMsg} {CL : DnsClient X}
    (f : Forwarder) req client (n : network) :
  upstreams f ≠ [] →
  (1 < length (upstreams f) → Forall (λ s, emptyHost s = false) (upstreams f)) →
  ∃ q ecs servers times, prepareUpstreamRequest f req client = (q, ecs) ∧
  servers ≡ₚ upstreams f ∧ Forall2 (ranks_at (rtt n)) servers times ∧
  (∀ i j s u ts tu, i < j → servers !! i = Some s → servers !! j = Some u →
     times !! i = Some ts → times !! j = Some tu →
     (ts < tu)%N ∨ (ts = tu ∧ str_lt u s = false)) ∧
  ((∃ skipped s rest n1 resp n2, servers = skipped ++ s :: rest ∧ attempts_fail q skipped n n1 ∧
      attempt q s n1 (Some resp) n2 ∧
      forward f req client n = (Ok resp, Network (wire n2) (rtt n2)
        (n_stats n2 ++ ForwardedQuery :: (if ecs then [ECSQueriesForwarded] else [])))) ∨
   (∃ n2, attempts_fail q servers n n2 ∧
      (∀ s, s ∈ upstreams f → ¬ ∀ n, ∃ resp n', attempt q s n (Some resp) n') ∧
      forward f req client n = (Err ErrAllUpstreamsFailed, n_inc UpstreamFailure n2))).
Proof.
  intros Hu Hh. destruct (prepareUpstreamRequest f req client) as [q ecs] eqn:Ep.
  exists q, ecs, (SortServers (rtt n) (upstreams f)),
    (map (Latency (rtt n)) (SortServers (rtt n) (upstreams f))).
  split_and!; [done|apply SortServers_perm| |by apply sorted_times|].
  { apply Forall2_fmap_r, Forall_Forall2_diag, Forall_forall. intros s _. by apply ranks_at_latency. }
  rewrite (forward_tries f req client n q ecs Hu Hh Ep).
  pose proof (tryServers_spec q (SortServers (rtt n) (upstreams f)) None n) as H.
  destruct (tryServers q _ None n) as [[[resp s]|e] n2].
  - left. destruct H as (sk & rest & n1 & Hs & Hf & Ht). exists sk, s, rest, n1, resp, n2.
    pose proof (tryServer_attempt q s n1) as Ha. rewrite Ht in Ha.
    split_and!; [done|by apply failing_attempts|done|].
    by destruct ecs; unfold n_inc; cbn [wire rtt n_stats]; rewrite <-?(assoc_L app).
  - right. destruct H as [Hf _]. exists n2. split_and!; [by apply failing_attempts| |done].
    intros s Hs Hok. eapply failing_no_success; [exact Hf|by rewrite SortServers_perm|].
    intros n0. destruct (Hok n0) as (resp & n' & Ha). inversion Ha as [? t x E Hr|]; subst.
    destruct (tryServer_answers q s n0 resp t x E Hr) as [n'' Ht]. eauto.
Qed.

(** * Witnesses *)

(** A client whose answers are a function of the query and the address, after
    one millisecond. *)
#[export] Instance oracle_client : DnsClient (msg → string → res (option msg)) | 100 := {|
  client_exchange x req a := (x req a, 1000000%N, x);
  client_now x := 0%N
|}.

Definition demo_forwarder : Forwarder :=
  MkForwarder ["192.0.2.2:5353"; "192.0.2.1:5353"] false true 24 56.
Definition demo_oracle (req : msg) (a : string) : res (option msg) :=
  if bool_decide (a = "192.0.2.1:5353") then Ok (Some (set_rcode new_msg RcodeServerFailure))
  else Ok (Some (set_question new_msg (m_question req))).
Definition demo_query : msg := set_question new_msg [Question "www.example.com." TypeA ClassINET].
Definition demo_network : network := Network demo_oracle (Registry ∅ 0) [].

Lemma sort_servers_canonical_witness :
  SortServers (rtt demo_network) ["192.0.2.2:53"; "192.0.2.1:53"] =
    SortServers (rtt demo_network) ["192.0.2.1:53"; "192.0.2.2:53"].
Proof.
  apply (sort_servers_canonical (rtt demo_network) ["192.0.2.2:53"; "192.0.2.1:53"]
    ["192.0.2.1:53"; "192.0.2.2:53"]). apply Permutation_swap.
Defined.

Lemma rtt_bounded_witness :
  (1 ≤ rttEWMA (RttEntry 404 9) ≤ 2000)%N.
Proof.
  apply (rtt_bounded 1 2000 (A4 1) [(8, 5); (9, 2000)]%N (Registry ∅ 0)); try lia.
  - repeat constructor; done.
  - intros e. cbn [entries]. by rewrite lookup_empty.
  - by vm_compute.
Defined.

Lemma upstream_subnet_witness :
  prepareUpstreamRequest demo_forwarder demo_query (A4 3221225985) =
    prepareUpstreamRequest demo_forwarder demo_query (A4 3221225999).
Proof.
  pose proof (upstream_subnet demo_forwarder demo_query (A4 3221225985) (A4 3221225999)
    (Question "www.example.com." TypeA ClassINET)) as H.
  apply H. by vm_compute.
Defined.

(** The first server answers SERVFAIL, the second one answers. *)
Lemma forwarder_failover_witness :
  ∃ resp n', forward demo_forwarder demo_query (A4 3221225985) demo_network = (Ok resp, n') ∧
    n_stats n' = [ForwardedQuery; ECSQueriesForwarded].
Proof.
  destruct (forwarder_failover demo_forwarder demo_query (A4 3221225985) demo_network)
    as (q & ecs & servers & times & Eq & _ & _ & _ & [H|H]); [done|by repeat constructor| |].
  - destruct H as (_ & _ & _ & _ & resp & n2 & _ & _ & _ & E). rewrite E.
    exists resp. eexists. split; [reflexivity|].
    assert (E' : n_stats (forward demo_forwarder demo_query (A4 3221225985) demo_network).2 =
      [ForwardedQuery; ECSQueriesForwarded]) by by vm_compute.
    by rewrite E in E'.
  - destruct H as (n2 & _ & _ & E).
    assert (E' : is_ok (forward demo_forwarder demo_query (A4 3221225985) demo_network).1 = true)
      by by vm_compute.
    by rewrite E in E'.
Defined.

(** * Limits of the code *)

(** The stored form of an upstream on port 53 has no port, and the time
    measured for it is never found again: those servers all rank alike. *)
Lemma default_port_unranked (r : RTTRegistry) :
  ParseUpstreamAddress "192.0.2.1:53" = Ok "192.0.2.1" ∧
  serverIP (DialUpstreamAddress "192.0.2.1") = Some (A4 3221225985) ∧
  Latency r "192.0.2.1" = defaultStartingRTTMs.
Proof. by vm_compute. Qed.

(** A bracketed host that starts with a colon is accepted and stored so that
    its host is empty; beside another upstream it panics every query. *)
Lemma empty_host_upstream {SS : SortSlice} {X} {DM : DnsMsg} {CL : DnsClient X} req client (n : network (X := X)) :
  ValidatedUpstreams ["[:53]:53"; "192.0.2.1"] = Ok [":53"; "192.0.2.1"] ∧
  (forward (NewForwarder [":53"; "192.0.2.1"]) req client n).1 = Err ErrPanic.
Proof.
  split; [by vm_compute|]. unfold forward, NewForwarder. cbn [upstreams].
  by destruct (prepareUpstreamRequest _ req client).
Qed.

End Upstream.
