(* ===== verification/Validator.v ===== *)
(** * Trust anchors and the validator: dnssec/anchors.go, dnsproc/validator.go

    The anchors of the root zone, and the walk from them to the keys of a zone.
    Key tags, digests and the check of a signature belong to the DNS package:
    they are the class [DnssecVerify]. The clock is an argument, in Unix
    seconds, fixed during one validation. *)
From S2P Require Import Prelude NetAddr Dns Cache Upstream.
Import Cache Upstream.

(** A DNSKEY record is its header with its data. *)
Class DnssecVerify := {
  dnskey_tag : dnskey_data → N;                              (* DNSKEY.KeyTag *)
  (* RRSIG.Verify(key, rrset) *)
  rrsig_verify : rr_header * rrsig_data → rr_header * dnskey_data → list rr → option error;
  (* DNSKEY.ToDS; None for an unknown digest *)
  dnskey_to_ds : rr_header * dnskey_data → N → option ds_data
}.

(** [DNSSECValidator.Validate], at a time. *)
Class Validator (V Net : Type) := { Validate : V → N → msg → Net → res bool * Net }.

(** [IncDNSSECValidationPassed]. *)
Class CountsPassed (Net : Type) := { inc_passed : Net → Net }.
#[export] Instance network_counts {X} : CountsPassed (network (X := X)) :=
  {| inc_passed := n_inc DNSSECValidationPassed |}.

(** ** dnssec/anchors.go *)
Module Anchors.

Definition newline : ascii := ascii_of_N 10.

Definition embeddedRootAnchors : string := mk ([newline] ++
  bytes ". 3600 IN DNSKEY 257 3 8 AwEAAaz/tAm8yTn4Mfeh5eyI96WSVexTBAvkMgJzkKTOiW1vkIbzxeF3+/4RgWOq7HrxRixHlFlExOLAJr5emLvN7SWXgnLh4+B5xQlNVz8Og8kvArMtNROxVQuCaSnIDdD5LKyWbRd2n9WGe2R8PzgCmr3EgVLrjyBxWezF0jLHwVN8efS3rCj/EWgvIWgb9tarpVUDK/b58Da+sqqls3eNbuv7pr+eoZG+SrDK6nWeL3c6H5Apxz7LjVc1uTIdsIXxuOLYA4/ilBmSVIzuDWfdRUfhHdY6+cn8HFRm+2hM8AnXGXws9555KrUB5qihylGa8subX2Nn6UwNR1AkUTV74bU=" ++ [newline] ++
  bytes ". 3600 IN DNSKEY 257 3 8 AwEAAa96jeuknZlaeSrvyAJj6ZHv28hhOKkx3rLGXVaC6rXTsDc449/cidltpkyGwCJNnOAlFNKF2jBosZBU5eeHspaQWOmOElZsjICMQMC3aeHbGiShvZsx4wMYSjH8e7Vrhbu6irwCzVBApESjbUdpWWmEnhathWu1jo+siFUiRAAxm9qyJNg/wOZqqzL/dL/q8PkcRU5oUKEpUge71M3ej2/7CPqpdVwuMoTvoB+ZOT4YeGyxMvHmbrxlFzGOHOijtzN+u1TQNatX2XBuzZNQ1K+s2CXkPIZo7s6JgZyvaBevYtxPvYLw4z9mR7K2vaF18UYH9Z9GNUUeayffKC73PYc=" ++ [newline]).

(** The package variables. *)
Record anchors := MkAnchors {
  anchorOnce : bool; anchorErr : option error; rootKeys : list rr
}.

Section anchors.
Context {DT : DnsText} {DV : DnssecVerify}.

Definition is_ksk (k : dnskey_data) : bool := negb (N.land (KFlags k) SEP =? 0)%N.

(** One line: nothing, or a KSK. *)
Definition anchorLine (line : string) : res (option rr) :=
  let line := trim_space line in
  if bool_decide (line = "") || has_prefix line "#" then Ok None
  else
    let? r := res_wrap "parse root anchor %q: %w" (new_rr line) in
    match dat <$> r with
    | Some (DDNSKEY k) => if is_ksk k then Ok r else Err (errNew "root anchor %d is not a KSK")
    | _ => Err (errNew "root anchor is not a DNSKEY: %s")
    end.

Definition parseAnchorRecords (text : string) : res (list rr) :=
  let? out := res_map anchorLine (split text newline) in
  match omap id out with
  | [] => Err (errNew "no root trust anchors configured")
  | keys => Ok keys
  end.

Definition anchorRecordsEqual (a b : rr) : bool :=
  match dat a, dat b with
  | DDNSKEY l, DDNSKEY r =>
      (dnskey_tag l =? dnskey_tag r)%N && (KAlgorithm l =? KAlgorithm r)%N &&
      (KFlags l =? KFlags r)%N && equal_fold (PublicKey l) (PublicKey r)
  | DDS l, DDS r =>
      (DKeyTag l =? DKeyTag r)%N && (DAlgorithm l =? DAlgorithm r)%N &&
      (DDigestType l =? DDigestType r)%N && equal_fold (DDigest l) (DDigest r)
  | _, _ => false
  end.

Definition appendAnchorIfMissing (keys : list rr) (r : rr) : list rr :=
  if existsb (λ e, anchorRecordsEqual e r) keys then keys else keys ++ [r].

Definition customAnchor (line : string) : res (option rr) :=
  let line := trim_space line in
  if bool_decide (line = "") then Ok None
  else
    let? r := res_wrap "parse custom root anchor %q: %w" (new_rr line) in
    match dat <$> r with
    | Some (DDNSKEY k) =>
        if is_ksk k then Ok r else Err (errNew "custom root anchor DNSKEY is not a KSK: %s")
    | Some (DDS _) => Ok r
    | _ => Err (errNew "custom root anchor must be DNSKEY or DS: %s")
    end.

Fixpoint addCustom (keys : list rr) (customLines : list string) : res (list rr) :=
  match customLines with
  | [] => Ok keys
  | line :: rest =>
      let? r := customAnchor line in
      addCustom (match r with Some r => appendAnchorIfMissing keys r | None => keys end) rest
  end.

Definition loadAnchors (customLines : list string) : res (list rr) :=
  let? keys := parseAnchorRecords embeddedRootAnchors in
  addCustom keys customLines.

(** [sync.Once]: only the first call loads. *)
Definition InitAnchorsWithCustom (customLines : list string) (s : anchors)
    : option error * anchors :=
  let s :=
    if anchorOnce s then s
    else match loadAnchors customLines with
         | Ok keys => MkAnchors true None keys
         | Err e => MkAnchors true (Some e) []
         end in
  (anchorErr s, s).

Definition InitAnchors (s : anchors) : option error * anchors := InitAnchorsWithCustom [] s.

Definition ApplyCustomAnchors (customLines : list string) (s : anchors) : option error * anchors :=
  match loadAnchors customLines with
  | Err e => (Some e, s)
  | Ok keys => (None, MkAnchors (anchorOnce s) None keys)
  end.

Definition RootAnchors (s : anchors) : list rr := rootKeys s.

(** ** Lemmas *)

(** A key-signing key or a digest of one. *)
Definition is_anchor (r : rr) : bool :=
  match dat r with DDNSKEY k => is_ksk k | DDS _ => true | _ => false end.

Lemma anchorRecordsEqual_refl r : is_anchor r = true → anchorRecordsEqual r r = true.
Proof.
  unfold is_anchor, anchorRecordsEqual, equal_fold. destruct (dat r); try done; intros _;
    by rewrite !N.eqb_refl, bool_decide_true.
Qed.

Lemma customAnchor_ok line r : customAnchor line = Ok (Some r) → is_anchor r = true.
Proof.
  unfold customAnchor, is_anchor. destruct (bool_decide _); [done|].
  destruct (new_rr _) as [[x|]|e]; cbn [res_wrap res_bind fmap option_fmap option_map]; [|done..].
  destruct (dat x) eqn:Ex; try done.
  - destruct (is_ksk key) eqn:Ek; [|done]. intros [= <-]. by rewrite Ex.
  - intros [= <-]. by rewrite Ex.
Qed.

Lemma parseAnchorRecords_ok text keys :
  parseAnchorRecords text = Ok keys → keys ≠ [] ∧ Forall (λ r, is_anchor r = true) keys.
Proof.
  unfold parseAnchorRecords. destruct (res_map anchorLine (split text newline)) as [out|e] eqn:E;
    cbn [res_bind]; [|done].
  assert (Ha : Forall (λ r, is_anchor r = true) (omap id out)).
  { clear keys. revert out E. induction (split text newline) as [|l ls IH]; intros out; cbn [res_map].
    { intros [= <-]. constructor. }
    destruct (anchorLine l) as [r|e] eqn:El; cbn [res_bind]; [|done].
    destruct (res_map anchorLine ls) as [out'|e]; cbn [res_bind]; [|done]. intros [= <-].
    specialize (IH out' eq_refl). destruct r as [r|]; cbn; [|done]. constructor; [|done].
    revert El. unfold anchorLine, is_anchor. destruct (_ || _); [done|].
    destruct (new_rr _) as [[x|]|e]; cbn [res_wrap res_bind fmap option_fmap option_map]; [|done..].
    destruct (dat x) eqn:Ex; try done. destruct (is_ksk key) eqn:Ek; [|done].
    intros [= <-]. by rewrite Ex. }
  destruct (omap id out) as [|r rs] eqn:Eo; [done|]. intros [= <-]. done.
Qed.

Lemma appendAnchor_spec keys r : is_anchor r = true → Forall (λ r, is_anchor r = true) keys →
  keys `prefix_of` appendAnchorIfMissing keys r ∧
  Forall (λ r, is_anchor r = true) (appendAnchorIfMissing keys r) ∧
  existsb (λ e, anchorRecordsEqual e r) (appendAnchorIfMissing keys r) = true.
Proof.
  intros Hr Hk. unfold appendAnchorIfMissing. destruct (existsb _ keys) eqn:E; [done|].
  split_and!.
  - by eexists.
  - by rewrite Forall_app, Forall_singleton.
  - rewrite existsb_app. cbn [existsb]. rewrite anchorRecordsEqual_refl by done.
    by rewrite orb_true_r.
Qed.

Lemma addCustom_ok keys lines keys' :
  Forall (λ r, is_anchor r = true) keys → addCustom keys lines = Ok keys' →
  keys `prefix_of` keys' ∧ Forall (λ r, is_anchor r = true) keys' ∧
  Forall (λ line, ∃ r, customAnchor line = Ok r ∧
    ∀ a, r = Some a → existsb (λ e, anchorRecordsEqual e a) keys' = true) lines.
Proof.
  revert keys. induction lines as [|line lines IH]; intros keys Hk; cbn [addCustom].
  { by intros [= <-]. }
  destruct (customAnchor line) as [[r|]|e] eqn:E; cbn [res_bind]; [| |done].
  - destruct (appendAnchor_spec keys r) as (Hp & Ha & He); [by eapply customAnchor_ok|done|].
    intros (Hp' & Ha' & Hl)%IH; [|done]. split_and!; [by etrans|done|].
    constructor; [|done]. exists (Some r). split; [done|]. intros a [= <-].
    destruct Hp' as [more ->]. by rewrite existsb_app, He.
  - intros (Hp & Ha & Hl)%IH; [|done]. split_and!; [done..|]. constructor; [|done]. by exists None.
Qed.

(** new custom anchors either leave everything as it was, when a line is
    not an anchor, or give a set of key-signing keys and digests that starts
    with the built-in ones and has, for every line, an equal record. *)
Theorem custom_anchors_applied (lines : list string) (s : anchors) :
  match ApplyCustomAnchors lines s with
  | (Some _, s') => s' = s
  | (None, s') => ∃ builtin, parseAnchorRecords embeddedRootAnchors = Ok builtin ∧
      builtin `prefix_of` RootAnchors s' ∧ RootAnchors s' ≠ [] ∧ anchorErr s' = None ∧
      Forall (λ r, is_anchor r = true) (RootAnchors s') ∧
      Forall (λ line, ∃ r, customAnchor line = Ok r ∧ ∀ a, r = Some a →
        existsb (λ e, anchorRecordsEqual e a) (RootAnchors s') = true) lines
  end.
Proof.
  unfold ApplyCustomAnchors, loadAnchors.
  destruct (parseAnchorRecords embeddedRootAnchors) as [builtin|e] eqn:E; cbn [res_bind]; [|done].
  destruct (addCustom builtin lines) as [keys|e] eqn:Ea; [|done].
  apply parseAnchorRecords_ok in E as [Hne Hb]. apply addCustom_ok in Ea as (Hp & Ha & Hl); [|done].
  exists builtin. split_and!; try done. cbn [RootAnchors rootKeys]. intros ->.
  by apply prefix_nil_inv in Hp.
Qed.

End anchors.
End Anchors.

(** ** dnsproc/validator.go *)
Module Validator.
Import Anchors.

Definition ErrDNSSECValidationFailed := errNew "dnssec validation failed".

(** [fmt.Errorf("%w: ...", ErrDNSSECValidationFailed, ...)] *)
Definition bogus (text : string) : error := errWrap ("%w: " +:+ text) ErrDNSSECValidationFailed.

(** The resolver may be nil; [v_anchors] are the package's root anchors. *)
Record DNSSECValidator (R : Type) := MkValidator { v_resolver : option R; v_anchors : list rr }.
Arguments MkValidator {R}.
Arguments v_resolver {R}.
Arguments v_anchors {R}.

Definition sections (m : msg) : list rr := m_answer m ++ m_ns m ++ m_extra m.

Section validator.
Context {DT : DnsText} {DV : DnssecVerify} {DQ : DnsQuestion} {R Net : Type}
  {ER : ExchangeResolver R Net} {CP : CountsPassed Net}.

(** The keys are tried in order; the last error of a key with the right tag. *)
Fixpoint tryKeys (h : rr_header) (sig : rrsig_data) (rrset keys : list rr)
    (lastErr : option error) : bool * option error :=
  match keys with
  | [] => (false, lastErr)
  | k :: keys =>
      match dat k with
      | DDNSKEY key =>
          if negb (SigKeyTag sig =? dnskey_tag key)%N then tryKeys h sig rrset keys lastErr
          else match rrsig_verify (h, sig) (hdr k, key) rrset with
               | Some e => tryKeys h sig rrset keys (Some e)
               | None => (true, lastErr)
               end
      | _ => tryKeys h sig rrset keys lastErr
      end
  end.

Fixpoint checkSigs (now : N) (rrset sigs keys : list rr) : option error :=
  match sigs with
  | [] => None
  | s :: sigs =>
      match dat s with
      | DRRSIG sig =>
          if (now <? Inception sig)%N || (Expiration sig <? now)%N
          then Some (bogus "signature outside validity period for %s")
          else match tryKeys (hdr s) sig rrset keys None with
               | (true, _) => checkSigs now rrset sigs keys
               | (false, Some _) => Some (bogus "%v")
               | (false, None) => Some (bogus "no matching dnskey for key tag %d signer %s")
               end
      | _ => Some (bogus "non-rrsig in sigs slice")
      end
  end.

(** The package function [Validate]; the time is truncated to 32 bits. *)
Definition ValidateSet (now : N) (rrset sigs keys : list rr) : option error :=
  if bool_decide (rrset = []) then Some (bogus "empty rrset")
  else if bool_decide (sigs = []) then Some (bogus "no rrsig records")
  else if bool_decide (keys = []) then Some (bogus "no dnskey records")
  else checkSigs (u32 now) rrset sigs keys.

Definition isSetMember (name : string) (qtype : N) (r : rr) : bool :=
  (type_of r =? qtype)%N && bool_decide (canonical_name (name_of r) = canonical_name name).

(** A signature over the set, on a record that is not itself in the set. *)
Definition isSetSig (name : string) (qtype : N) (r : rr) : bool :=
  negb (isSetMember name qtype r) && (type_of r =? TypeRRSIG)%N &&
  match dat r with
  | DRRSIG sig => (TypeCovered sig =? qtype)%N &&
      bool_decide (canonical_name (name_of r) = canonical_name name)
  | _ => false
  end.

Definition fetchSignedRRSet (v : DNSSECValidator R) (name : string) (qtype : N) (n : Net)
    : res (list rr * list rr) * Net :=
  match v_resolver v with
  | None => (Err (errNew "resolver is not configured"), n)
  | Some r =>
      let req := set_rd (set_question_of new_msg (fqdn name) qtype) true in
      match Exchange r req AInvalid n with
      | (Err e, n) => (Err (errWrap "exchange: %w" e), n)
      | (Ok resp, n) =>
          if negb (m_rcode resp =? RcodeSuccess)%N then (Err (errNew "rcode %s"), n)
          else (Ok (List.filter (isSetMember name qtype) (sections resp),
                    List.filter (isSetSig name qtype) (sections resp)), n)
      end
  end.

(** The KSKs of a key set. *)
Definition kskOf (k : rr) : option (rr_header * dnskey_data) :=
  match dat k with
  | DDNSKEY key => if is_ksk key then Some (hdr k, key) else None
  | _ => None
  end.

Definition dsMatches (ds : ds_data) (ksk : rr_header * dnskey_data) : bool :=
  match dnskey_to_ds ksk (DDigestType ds) with
  | None => false
  | Some computed =>
      (DKeyTag computed =? DKeyTag ds)%N && (DAlgorithm computed =? DAlgorithm ds)%N &&
      (DDigestType computed =? DDigestType ds)%N && equal_fold (DDigest computed) (DDigest ds)
  end.

Definition dsMatchesKSK (dsRecords dnskeys : list rr) : bool :=
  let ksks := omap kskOf dnskeys in
  existsb (λ d, match dat d with DDS ds => existsb (dsMatches ds) ksks | _ => false end) dsRecords.

Definition isDS (r : rr) : bool := match dat r with DDS _ => true | _ => false end.

Definition sameAnchor (a k : dnskey_data) : bool :=
  (dnskey_tag a =? dnskey_tag k)%N && (KAlgorithm a =? KAlgorithm k)%N &&
  (KFlags a =? KFlags k)%N && (KProtocol a =? KProtocol k)%N &&
  equal_fold (PublicKey a) (PublicKey k).

Definition anchorsPresentInDNSKEYs (anchors dnskeys : list rr) : bool :=
  existsb (λ a, match dat a with
    | DDNSKEY anchor =>
        existsb (λ k, match dat k with DDNSKEY key => sameAnchor anchor key | _ => false end) dnskeys
    | _ => false end) anchors.

Definition anchorsMatchRootTrust (anchors dnskeys : list rr) : bool :=
  let dsRecords := List.filter isDS anchors in
  (negb (bool_decide (dsRecords = [])) && dsMatchesKSK dsRecords dnskeys) ||
  anchorsPresentInDNSKEYs anchors dnskeys.

Definition validateRootZone (v : DNSSECValidator R) (now : N) (n : Net) : res (list rr) * Net :=
  if bool_decide (v_anchors v = []) then (Err (bogus "root anchors are not initialized"), n)
  else
    let '(fetched, n) := fetchSignedRRSet v "." TypeDNSKEY n in
    (match fetched with
     | Err _ => Err (bogus "root dnskey lookup: %v")
     | Ok (dnskeys, dnskeySigs) =>
         if bool_decide (dnskeys = []) then Err (bogus "no root dnskey records")
         else match ValidateSet now dnskeys dnskeySigs dnskeys with
              | Some _ => Err (bogus "root dnskey signature: %v")
              | None =>
                  if anchorsMatchRootTrust (v_anchors v) dnskeys then Ok dnskeys
                  else Err (bogus "root dnskey set does not contain trust anchor")
              end
     end, n).

Definition validateZoneDelegation (v : DNSSECValidator R) (now : N) (zone : string)
    (parentKeys : list rr) (n : Net) : res (list rr) * Net :=
  let zone := canonical_name zone in
  let '(fetched, n) := fetchSignedRRSet v zone TypeDS n in
  match fetched with
  | Err _ => (Err (bogus "ds lookup %s: %v"), n)
  | Ok (dsRecords, dsSigs) =>
      if bool_decide (dsRecords = []) then (Err (bogus "no ds records for zone %s"), n)
      else match ValidateSet now dsRecords dsSigs parentKeys with
      | Some _ => (Err (bogus "ds signature for %s: %v"), n)
      | None =>
          let '(fetched, n) := fetchSignedRRSet v zone TypeDNSKEY n in
          (match fetched with
           | Err _ => Err (bogus "dnskey lookup %s: %v")
           | Ok (dnskeys, dnskeySigs) =>
               if bool_decide (dnskeys = []) then Err (bogus "no dnskey records for zone %s")
               else match ValidateSet now dnskeys dnskeySigs dnskeys with
                    | Some _ => Err (bogus "dnskey signature for %s: %v")
                    | None => if dsMatchesKSK dsRecords dnskeys then Ok dnskeys
                              else Err (bogus "ds digest mismatch for zone %s")
                    end
           end, n)
      end
  end.

(** From the top-level domain down, each with one more label. *)
Definition zoneCutPath (signerZone : string) : list string :=
  let signerZone := canonical_name signerZone in
  if bool_decide (signerZone = ".") then []
  else
    let parts := split (trim_suffix signerZone ".") "." in
    map (λ i, join (drop (length parts - 1 - i) parts) "." +:+ ".") (seq 0 (length parts)).

Fixpoint walkCuts (v : DNSSECValidator R) (now : N) (zones : list string) (parentKeys : list rr)
    (n : Net) : res (list rr) * Net :=
  match zones with
  | [] => (Ok parentKeys, n)
  | zone :: zones =>
      match validateZoneDelegation v now zone parentKeys n with
      | (Err e, n) => (Err e, n)
      | (Ok keys, n) => walkCuts v now zones keys n
      end
  end.

Definition establishTrust (v : DNSSECValidator R) (now : N) (signerZone : string) (n : Net)
    : res (list rr) * Net :=
  let signerZone := canonical_name signerZone in
  match validateRootZone v now n with
  | (Err e, n) => (Err e, n)
  | (Ok parentKeys, n) =>
      if bool_decide (signerZone = ".") then (Ok parentKeys, n)
      else walkCuts v now (zoneCutPath signerZone) parentKeys n
  end.

Definition sigOf (r : rr) : option (rr_header * rrsig_data) :=
  match dat r with DRRSIG sig => Some (hdr r, sig) | _ => None end.

Definition collectRRSIGs (m : msg) : list (rr_header * rrsig_data) := omap sigOf (sections m).

Definition covers (sig : rr_header * rrsig_data) (r : rr) : bool :=
  negb (type_of r =? TypeRRSIG)%N && (type_of r =? TypeCovered sig.2)%N &&
  (class_of r =? h_class sig.1)%N &&
  bool_decide (canonical_name (name_of r) = canonical_name (h_name sig.1)).

Definition collectRRSet (m : msg) (sig : rr_header * rrsig_data) : list rr :=
  List.filter (covers sig) (sections m).

Definition signer (sig : rr_header * rrsig_data) : string := canonical_name (SignerName sig.2).

(** The keys of every signer, fetched once. *)
Fixpoint trustLoop (v : DNSSECValidator R) (now : N) (rrsigs : list (rr_header * rrsig_data))
    (trusted : gmap string (list rr)) (n : Net) : res (gmap string (list rr)) * Net :=
  match rrsigs with
  | [] => (Ok trusted, n)
  | sig :: rrsigs =>
      match trusted !! signer sig with
      | Some _ => trustLoop v now rrsigs trusted n
      | None =>
          match establishTrust v now (signer sig) n with
          | (Err e, n) => (Err e, n)
          | (Ok keys, n) => trustLoop v now rrsigs (<[signer sig := keys]> trusted) n
          end
      end
  end.

Fixpoint verifyLoop (now : N) (resp : msg) (trusted : gmap string (list rr))
    (rrsigs : list (rr_header * rrsig_data)) : option error :=
  match rrsigs with
  | [] => None
  | sig :: rrsigs =>
      let rrset := collectRRSet resp sig in
      if bool_decide (rrset = []) then Some (bogus "no records for rrsig type %s owner %s")
      else match ValidateSet now rrset [RR sig.1 (DRRSIG sig.2)] (default [] (trusted !! signer sig)) with
           | Some e => Some e
           | None => verifyLoop now resp trusted rrsigs
           end
  end.

Definition validateResponse (v : DNSSECValidator R) (now : N) (resp : msg) (n : Net)
    : res bool * Net :=
  let rrsigs := collectRRSIGs resp in
  if bool_decide (rrsigs = []) then (Ok false, n)
  else
    match trustLoop v now rrsigs ∅ n with
    | (Err e, n) => (Err e, n)
    | (Ok trusted, n) =>
        match verifyLoop now resp trusted rrsigs with
        | Some e => (Err e, n)
        | None => (Ok true, inc_passed n)
        end
    end.

#[export] Instance dnssec_validator : Validator (DNSSECValidator R) Net :=
  {| Validate := validateResponse |}.

(** ** Signed sets *)
Definition verifiedBy (now : N) (rrset keys : list rr) (s : rr) : Prop :=
  ∃ sig k key, dat s = DRRSIG sig ∧ (Inception sig ≤ u32 now ≤ Expiration sig)%N ∧
    k ∈ keys ∧ dat k = DDNSKEY key ∧ SigKeyTag sig = dnskey_tag key ∧
    rrsig_verify (hdr s, sig) (hdr k, key) rrset = None.

(** A set with signatures, each of which a key verifies at the time. *)
Definition signed (now : N) (rrset sigs keys : list rr) : Prop :=
  rrset ≠ [] ∧ sigs ≠ [] ∧ Forall (verifiedBy now rrset keys) sigs.

Lemma tryKeys_spec h sig rrset keys e :
  (tryKeys h sig rrset keys e).1 = true ↔
  ∃ k key, k ∈ keys ∧ dat k = DDNSKEY key ∧ SigKeyTag sig = dnskey_tag key ∧
    rrsig_verify (h, sig) (hdr k, key) rrset = None.
Proof.
  revert e. induction keys as [|k keys IH]; intros e; cbn [tryKeys].
  { split; [done|]. by intros (? & ? & ?%not_elem_of_nil & _). }
  assert (Hskip : ∀ e, ¬ (∃ key, dat k = DDNSKEY key ∧ SigKeyTag sig = dnskey_tag key ∧
      rrsig_verify (h, sig) (hdr k, key) rrset = None) →
    (tryKeys h sig rrset keys e).1 = true ↔
    ∃ k0 key, k0 ∈ k :: keys ∧ dat k0 = DDNSKEY key ∧ SigKeyTag sig = dnskey_tag key ∧
      rrsig_verify (h, sig) (hdr k0, key) rrset = None).
  { intros e' Hn. rewrite IH. setoid_rewrite elem_of_cons. naive_solver. }
  destruct (dat k) eqn:Ek; try (apply Hskip; naive_solver).
  destruct (N.eqb_spec (SigKeyTag sig) (dnskey_tag key)); cbn [negb].
  2: apply Hskip; naive_solver.
  destruct (rrsig_verify _ _ _) eqn:Ev; [apply Hskip; naive_solver|].
  split; [|done]. intros _. exists k, key. by rewrite elem_of_cons; auto.
Qed.

Lemma checkSigs_spec now rrset sigs keys :
  checkSigs (u32 now) rrset sigs keys = None ↔ Forall (verifiedBy now rrset keys) sigs.
Proof.
  induction sigs as [|s sigs IH]; cbn [checkSigs]; [by split|].
  rewrite Forall_cons, <-IH. unfold verifiedBy.
  destruct (dat s) eqn:Es; try (split; [done|]; by intros [(? & ? & ? & ? & _) _]).
  destruct ((_ <? _)%N || _) eqn:Et.
  - split; [done|]. intros [(? & ? & ? & [= <-] & ? & _) _].
    apply orb_true_iff in Et as [?|?]; bool_hyps; lia.
  - apply orb_false_iff in Et as [H1 H2]. bool_hyps.
    pose proof (tryKeys_spec (hdr s) sig rrset keys None) as Hk.
    destruct (tryKeys _ _ _ _ _) as [[] e]; cbn [fst] in Hk.
    + split; [|by intros [_ ?]]. intros ?. split; [|done].
      destruct (proj1 Hk eq_refl) as (k & key & ? & ? & ? & ?). exists sig, k, key.
      split_and!; [done|lia..|done|done|done|done].
    + split; [by destruct e|]. intros [(? & k & key & [= <-] & _ & H') _].
      enough (false = true) by done. apply Hk. eauto.
Qed.

Lemma ValidateSet_spec now rrset sigs keys :
  ValidateSet now rrset sigs keys = None ↔ signed now rrset sigs keys.
Proof.
  unfold ValidateSet, signed. rewrite <-checkSigs_spec.
  destruct (bool_decide (rrset = [])) eqn:E1; bool_hyps; [naive_solver|].
  destruct (bool_decide (sigs = [])) eqn:E2; bool_hyps; [naive_solver|].
  destruct (bool_decide (keys = [])) eqn:E3; bool_hyps; [|naive_solver].
  split; [done|]. intros (_ & Hs & Hc%checkSigs_spec).
  destruct sigs as [|s l]; [done|]. apply Forall_cons in Hc as [(? & k & ? & _ & _ & Hk & _) _].
  by apply not_elem_of_nil in Hk.
Qed.

(** ** Chains of trust

    [F name type set sigs]: the set and its signatures may be had. *)
Section chain.
Variable F : string → N → list rr → list rr → Prop.

Definition rootTrusted (anchors : list rr) (now : N) (keys : list rr) : Prop :=
  ∃ sigs, F "." TypeDNSKEY keys sigs ∧ signed now keys sigs keys ∧
    anchorsMatchRootTrust anchors keys = true.

Definition delegated (now : N) (zone : string) (parentKeys keys : list rr) : Prop :=
  ∃ ds dsSigs sigs, F zone TypeDS ds dsSigs ∧ signed now ds dsSigs parentKeys ∧
    F zone TypeDNSKEY keys sigs ∧ signed now keys sigs keys ∧ dsMatchesKSK ds keys = true.

(** The keys of the last of a list of zones, each the parent of the next. *)
Inductive chain (anchors : list rr) (now : N) : list string → list rr → Prop :=
| chain_root keys : rootTrusted anchors now keys → chain anchors now [] keys
| chain_cut zs z parentKeys keys :
    chain anchors now zs parentKeys →
    delegated now (canonical_name z) parentKeys keys → chain anchors now (zs ++ [z]) keys.
End chain.

(** Sets some answer of the resolver holds; sets every answer holds. *)
Definition mayFetch (v : DNSSECValidator R) (name : string) (qtype : N) rrset sigs : Prop :=
  ∃ n n', fetchSignedRRSet v name qtype n = (Ok (rrset, sigs), n').
Definition mustFetch (v : DNSSECValidator R) (name : string) (qtype : N) rrset sigs : Prop :=
  ∀ n, ∃ n', fetchSignedRRSet v name qtype n = (Ok (rrset, sigs), n').

Lemma validateRootZone_ok v now n keys n' :
  validateRootZone v now n = (Ok keys, n') → rootTrusted (mayFetch v) (v_anchors v) now keys.
Proof.
  unfold validateRootZone. destruct (bool_decide _); [done|].
  destruct (fetchSignedRRSet v "." TypeDNSKEY n) as [[[ks sigs]|e] n1] eqn:E; [|done].
  destruct (bool_decide (ks = [])); [done|].
  destruct (ValidateSet now ks sigs ks) eqn:Ev; [done|]. apply ValidateSet_spec in Ev.
  destruct (anchorsMatchRootTrust _ ks) eqn:Ea; [|done]. intros [= -> ->].
  exists sigs. split; [by exists n, n'|done].
Qed.

Lemma validateZoneDelegation_ok v now zone pk n keys n' :
  validateZoneDelegation v now zone pk n = (Ok keys, n') →
  delegated (mayFetch v) now (canonical_name zone) pk keys.
Proof.
  unfold validateZoneDelegation.
  destruct (fetchSignedRRSet v (canonical_name zone) TypeDS n) as [[[ds dsSigs]|e] n1] eqn:E1; [|done].
  destruct (bool_decide (ds = [])); [done|].
  destruct (ValidateSet now ds dsSigs pk) eqn:Ev1; [done|]. apply ValidateSet_spec in Ev1.
  destruct (fetchSignedRRSet v (canonical_name zone) TypeDNSKEY n1) as [[[ks sigs]|e] n2] eqn:E2;
    [|done].
  destruct (bool_decide (ks = [])); [done|].
  destruct (ValidateSet now ks sigs ks) eqn:Ev2; [done|]. apply ValidateSet_spec in Ev2.
  destruct (dsMatchesKSK ds ks) eqn:Ed; [|done]. intros [= -> ->].
  exists ds, dsSigs, sigs. split_and!; [by exists n, n1|done|by exists n1, n'|done..].
Qed.

Lemma walkCuts_ok v now l zs pk n keys n' :
  chain (mayFetch v) (v_anchors v) now zs pk → walkCuts v now l pk n = (Ok keys, n') →
  chain (mayFetch v) (v_anchors v) now (zs ++ l) keys.
Proof.
  revert zs pk n. induction l as [|z l IH]; intros zs pk n Hc; cbn [walkCuts].
  - intros [= -> ->]. by rewrite app_nil_r.
  - destruct (validateZoneDelegation v now z pk n) as [[ks|e] n1] eqn:E; [|done].
    apply validateZoneDelegation_ok in E. intros H.
    rewrite cons_middle, app_assoc. eapply IH; [|exact H]. by eapply chain_cut.
Qed.

Lemma zoneCutPath_root zone : canonical_name zone = "." → zoneCutPath zone = [].
Proof. unfold zoneCutPath. by intros ->. Qed.

Lemma establishTrust_ok `{NL : !DnsNameLaws} v now zone n keys n' :
  establishTrust v now zone n = (Ok keys, n') →
  chain (mayFetch v) (v_anchors v) now (zoneCutPath zone) keys.
Proof.
  unfold establishTrust. destruct (validateRootZone v now n) as [[pk|e] n1] eqn:E; [|done].
  apply validateRootZone_ok in E. destruct (bool_decide _) eqn:Er; bool_hyps.
  - intros [= -> ->]. rewrite zoneCutPath_root by done. by apply chain_root.
  - intros H. replace (zoneCutPath zone) with (zoneCutPath (canonical_name zone))
      by (unfold zoneCutPath; by rewrite canonical_idemp).
    eapply (walkCuts_ok v now _ []); [by apply chain_root|exact H].
Qed.

(** ** Responses *)
Lemma trustLoop_ok v now l trusted n m n' :
  trustLoop v now l trusted n = (Ok m, n') →
  trusted ⊆ m ∧ (∀ sig, sig ∈ l → is_Some (m !! signer sig)) ∧
  (∀ z ks, m !! z = Some ks → trusted !! z = Some ks ∨
     ∃ n n', establishTrust v now z n = (Ok ks, n')).
Proof.
  revert trusted n. induction l as [|sig l IH]; intros trusted n; cbn [trustLoop].
  { intros [= -> ->]. split_and!; [done|by intros ? ?%not_elem_of_nil|auto]. }
  destruct (trusted !! signer sig) as [ks|] eqn:Et.
  - intros (Hs & Hl & Hm)%IH. split_and!; [done| |done].
    intros sig' [->|?]%elem_of_cons; [|by apply Hl]. exists ks. by eapply lookup_weaken.
  - destruct (establishTrust v now (signer sig) n) as [[ks|e] n1] eqn:E; [|done].
    intros (Hs & Hl & Hm)%IH.
    assert (Hk : m !! signer sig = Some ks) by (eapply lookup_weaken; [apply lookup_insert_eq|done]).
    split_and!.
    + etrans; [by apply insert_subseteq|done].
    + intros sig' [->|?]%elem_of_cons; [by exists ks|by apply Hl].
    + intros z ks' Hz. destruct (decide (z = signer sig)) as [->|Hne].
      * right. exists n, n1. congruence.
      * destruct (Hm z ks' Hz) as [Hz'|?]; [|by right]. left.
        by rewrite lookup_insert_ne in Hz'.
Qed.

Lemma trustLoop_total v now l trusted n :
  (∀ sig, sig ∈ l → ∀ n, ∃ ks n', establishTrust v now (signer sig) n = (Ok ks, n')) →
  ∃ m n', trustLoop v now l trusted n = (Ok m, n').
Proof.
  intros Hl. revert trusted n. induction l as [|sig l IH]; intros trusted n; cbn [trustLoop]; [eauto|].
  assert (Hl' : ∀ sig, sig ∈ l → ∀ n, ∃ ks n', establishTrust v now (signer sig) n = (Ok ks, n'))
    by (intros; apply Hl; by apply elem_of_cons; right).
  destruct (trusted !! signer sig); [by apply IH|].
  destruct (Hl sig (list_elem_of_here _ _) n) as (ks & n1 & ->). by apply IH.
Qed.

(** The signature as the slice the check takes. *)
Definition sigRR (sig : rr_header * rrsig_data) : rr := RR sig.1 (DRRSIG sig.2).

Lemma verifyLoop_spec now resp trusted l :
  verifyLoop now resp trusted l = None ↔
  Forall (λ sig, signed now (collectRRSet resp sig) [sigRR sig] (default [] (trusted !! signer sig))) l.
Proof.
  induction l as [|sig l IH]; cbn [verifyLoop]; [by split|].
  rewrite Forall_cons, <-IH, <-ValidateSet_spec. fold (sigRR sig).
  destruct (bool_decide _) eqn:E; bool_hyps.
  - split; [done|]. intros [H _]. unfold ValidateSet in H. by rewrite E in H.
  - destruct (ValidateSet _ _ _ _); [|tauto]. split; [done|by intros [? _]].
Qed.

(** ** Completeness: a chain every lookup confirms *)
Lemma fetch_none v now keys : rootTrusted (mustFetch v) (v_anchors v) now keys → v_anchors v ≠ [].
Proof. intros (sigs & _ & _ & H) E. by rewrite E in H. Qed.

Lemma validateRootZone_total v now keys n :
  rootTrusted (mustFetch v) (v_anchors v) now keys →
  ∃ n', validateRootZone v now n = (Ok keys, n').
Proof.
  intros Ht. pose proof (fetch_none v now keys Ht) as Hne.
  destruct Ht as (sigs & Hf & Hs & Ha). unfold validateRootZone.
  rewrite bool_decide_false by done. destruct (Hf n) as [n' ->].
  rewrite bool_decide_false by apply Hs. rewrite (proj2 (ValidateSet_spec _ _ _ _) Hs), Ha. eauto.
Qed.

Lemma validateZoneDelegation_total v now zone pk keys n :
  delegated (mustFetch v) now (canonical_name zone) pk keys →
  ∃ n', validateZoneDelegation v now zone pk n = (Ok keys, n').
Proof.
  intros (ds & dsSigs & sigs & Hf1 & Hs1 & Hf2 & Hs2 & Hd). unfold validateZoneDelegation.
  destruct (Hf1 n) as [n1 ->]. rewrite bool_decide_false by apply Hs1.
  rewrite (proj2 (ValidateSet_spec _ _ _ _) Hs1). destruct (Hf2 n1) as [n2 ->].
  rewrite bool_decide_false by apply Hs2. rewrite (proj2 (ValidateSet_spec _ _ _ _) Hs2), Hd. eauto.
Qed.

Lemma walkCuts_app v now l1 l2 pk n :
  walkCuts v now (l1 ++ l2) pk n =
  match walkCuts v now l1 pk n with
  | (Ok keys, n) => walkCuts v now l2 keys n
  | (Err e, n) => (Err e, n)
  end.
Proof.
  revert pk n. induction l1 as [|z l1 IH]; intros pk n; cbn [walkCuts app]; [done|].
  by destruct (validateZoneDelegation v now z pk n) as [[ks|e] n1].
Qed.

Lemma chain_walks v now l keys n : chain (mustFetch v) (v_anchors v) now l keys →
  ∃ pk n1 n2, validateRootZone v now n = (Ok pk, n1) ∧ walkCuts v now l pk n1 = (Ok keys, n2).
Proof.
  induction 1 as [keys Hr|zs z pk keys Hc (root & n1 & n2 & Hv & Hw) Hd].
  - destruct (validateRootZone_total v now keys n Hr) as [n1 E]. by exists keys, n1, n1.
  - destruct (validateZoneDelegation_total v now z pk keys n2 Hd) as [n3 E].
    exists root, n1, n3. split; [done|]. rewrite walkCuts_app, Hw. cbn [walkCuts]. by rewrite E.
Qed.

Lemma establishTrust_total `{NL : !DnsNameLaws} v now zone keys n :
  chain (mustFetch v) (v_anchors v) now (zoneCutPath zone) keys →
  ∃ n', establishTrust v now zone n = (Ok keys, n').
Proof.
  intros (pk & n1 & n2 & Hv & Hw)%(chain_walks v now _ keys n). unfold establishTrust. rewrite Hv.
  destruct (bool_decide _) eqn:Er; bool_hyps.
  - rewrite zoneCutPath_root in Hw by done. injection Hw as -> ->. eauto.
  - unfold zoneCutPath in *. rewrite canonical_idemp. eauto.
Qed.

(** ** Errors *)
Lemma bogus_is text : errors_is (bogus text) ErrDNSSECValidationFailed = true.
Proof. unfold bogus. cbn [errors_is]. by rewrite orb_true_r. Qed.

Lemma ValidateSet_bogus now rrset sigs keys e :
  ValidateSet now rrset sigs keys = Some e → ∃ text, e = bogus text.
Proof.
  unfold ValidateSet. repeat (destruct (bool_decide _); [intros [= <-]; eauto|]).
  induction sigs as [|s sigs IH]; cbn [checkSigs]; [done|].
  destruct (dat s); try (intros [= <-]; by eauto).
  destruct (_ || _); [intros [= <-]; eauto|].
  destruct (tryKeys _ _ _ _ _) as [[] [e'|]]; [done..| |]; intros [= <-]; eauto.
Qed.

Lemma establishTrust_bogus v now zone n e n' :
  establishTrust v now zone n = (Err e, n') → ∃ text, e = bogus text.
Proof.
  unfold establishTrust, validateRootZone. destruct (bool_decide _); [intros [= <- _]; eauto|].
  destruct (fetchSignedRRSet v "." TypeDNSKEY n) as [[[ks sigs]|e1] n1]; [|intros [= <- _]; eauto].
  destruct (bool_decide (ks = [])); [intros [= <- _]; eauto|].
  destruct (ValidateSet now ks sigs ks); [intros [= <- _]; eauto|].
  destruct (anchorsMatchRootTrust _ ks); [|intros [= <- _]; eauto].
  destruct (bool_decide _); [done|]. generalize (zoneCutPath (canonical_name zone)). intros l.
  revert ks n1. induction l as [|z l IH]; intros ks n1; cbn [walkCuts]; [done|].
  destruct (validateZoneDelegation v now z ks n1) as [[ks'|e2] n2] eqn:E; [apply IH|].
  intros [= <- _]. revert E. unfold validateZoneDelegation.
  destruct (fetchSignedRRSet v (canonical_name z) TypeDS n1) as [[[ds dss]|e3] n3];
    [|intros [= <- _]; eauto].
  destruct (bool_decide (ds = [])); [intros [= <- _]; eauto|].
  destruct (ValidateSet now ds dss ks); [intros [= <- _]; eauto|].
  destruct (fetchSignedRRSet v (canonical_name z) TypeDNSKEY n3) as [[[ks2 ss]|e3'] n4];
    [|intros [= <- _]; eauto].
  destruct (bool_decide (ks2 = [])); [intros [= <- _]; eauto|].
  destruct (ValidateSet now ks2 ss ks2); [intros [= <- _]; eauto|].
  destruct (dsMatchesKSK ds ks2); [done|]. intros [= <- _]; eauto.
Qed.

Lemma validateResponse_bogus v now resp n e n' :
  validateResponse v now resp n = (Err e, n') → ∃ text, e = bogus text.
Proof.
  unfold validateResponse. destruct (bool_decide _); [done|].
  assert (Ht : ∀ l trusted n e n', trustLoop v now l trusted n = (Err e, n') → ∃ text, e = bogus text).
  { induction l as [|sig l IH]; intros t n0 e0 n0'; cbn [trustLoop]; [done|].
    destruct (t !! signer sig); [apply IH|].
    destruct (establishTrust v now (signer sig) n0) as [[ks|e1] n1] eqn:E; [apply IH|].
    intros [= <- _]. by eapply establishTrust_bogus. }
  destruct (trustLoop _ _ _ _ _) as [[t|e1] n1] eqn:E; [|intros [= <- _]; by eapply Ht].
  destruct (verifyLoop now resp t (collectRRSIGs resp)) as [e1|] eqn:Ev; [|done].
  intros [= <- _]. revert Ev. clear. induction (collectRRSIGs resp) as [|sig l IH]; cbn [verifyLoop]; [done|].
  destruct (bool_decide _); [intros [= <-]; eauto|].
  destruct (ValidateSet _ _ _ _) eqn:Es; [|apply IH]. intros [= <-]. by eapply ValidateSet_bogus.
Qed.

End validator.

(** * Properties *)

(** C13: a response the validator authenticates has signatures, and for each of
    them the keys of its signer are reached from the anchors by a chain of
    delegations, zone by zone, and verify it, at the time, over the records of
    the response it covers; a response is called insecure just when it has no
    signature, without asking anyone; everything else is an error that wraps
    [ErrDNSSECValidationFailed]. *)
Theorem validate_sound `{NL : DnsNameLaws} {DV : DnssecVerify} {DQ : DnsQuestion} {R Net}
    {ER : ExchangeResolver R Net} {CP : CountsPassed Net}
    (v : DNSSECValidator R) now resp (n : Net) :
  match validateResponse v now resp n with
  | (Ok true, n') =>
      collectRRSIGs resp ≠ [] ∧ (∃ n1, n' = inc_passed n1) ∧
      ∀ sig, sig ∈ collectRRSIGs resp → ∃ keys,
        chain (mayFetch v) (v_anchors v) now (zoneCutPath (SignerName sig.2)) keys ∧
        signed now (collectRRSet resp sig) [sigRR sig] keys
  | (Ok false, n') => collectRRSIGs resp = [] ∧ n' = n
  | (Err e, _) => collectRRSIGs resp ≠ [] ∧ errors_is e ErrDNSSECValidationFailed = true
  end.
Proof.
  destruct (validateResponse v now resp n) as [[[]|e] n'] eqn:E.
  - revert E. unfold validateResponse. destruct (bool_decide _) eqn:Es; bool_hyps; [done|].
    destruct (trustLoop v now _ ∅ n) as [[m|e] n1] eqn:Et; [|done].
    destruct (verifyLoop now resp m _) eqn:Ev; [done|]. intros [= <-].
    apply verifyLoop_spec in Ev. rewrite Forall_forall in Ev.
    apply trustLoop_ok in Et as (_ & Hd & Hm). split_and!; [done|eauto|].
    intros sig Hs. destruct (Hd sig Hs) as [keys Hk]. specialize (Ev sig Hs). rewrite Hk in Ev.
    exists keys. split; [|done]. destruct (Hm _ _ Hk) as [Hk'|(n2 & n3 & Hk')];
      [by rewrite lookup_empty in Hk'|].
    apply establishTrust_ok in Hk'. unfold signer, zoneCutPath in Hk'.
    by rewrite canonical_idemp in Hk'.
  - revert E. unfold validateResponse. destruct (bool_decide _) eqn:Es; bool_hyps.
    + by intros [= <-].
    + destruct (trustLoop v now _ ∅ n) as [[m|e] n1]; [|done]. by destruct (verifyLoop _ _ _ _).
  - split.
    + revert E. unfold validateResponse. by destruct (bool_decide _) eqn:Es; bool_hyps.
    + apply validateResponse_bogus in E as [text ->]. apply bogus_is.
Qed.

(** C14: conversely, a response is authenticated when every one of its
    signatures is verified by keys whose chain of delegations every lookup
    confirms. *)
Theorem validate_complete `{NL : DnsNameLaws} {DV : DnssecVerify} {DQ : DnsQuestion} {R Net}
    {ER : ExchangeResolver R Net} {CP : CountsPassed Net}
    (v : DNSSECValidator R) now resp (n : Net) :
  collectRRSIGs resp ≠ [] →
  (∀ sig, sig ∈ collectRRSIGs resp → ∃ keys,
     chain (mustFetch v) (v_anchors v) now (zoneCutPath (SignerName sig.2)) keys ∧
     signed now (collectRRSet resp sig) [sigRR sig] keys) →
  ∃ n', validateResponse v now resp n = (Ok true, n').
Proof.
  intros Hne Hall. assert (Ht : ∀ sig, sig ∈ collectRRSIGs resp → ∃ keys,
    (∀ n, ∃ n', establishTrust v now (signer sig) n = (Ok keys, n')) ∧
    signed now (collectRRSet resp sig) [sigRR sig] keys).
  { intros sig (keys & Hc & Hs)%Hall. exists keys. split; [|done]. intros n0.
    apply establishTrust_total. unfold signer, zoneCutPath in *. by rewrite canonical_idemp. }
  unfold validateResponse. rewrite bool_decide_false by done.
  destruct (trustLoop_total v now (collectRRSIGs resp) ∅ n) as (m & n1 & E).
  { intros sig (keys & Hk & _)%Ht n0. destruct (Hk n0) as [n' ?]. eauto. }
  rewrite E. apply trustLoop_ok in E as (_ & Hd & Hm).
  rewrite (proj2 (verifyLoop_spec now resp m _)); [eauto|]. apply Forall_forall. intros sig Hs.
  destruct (Hd sig Hs) as [ks Hks], (Ht sig Hs) as (keys & Hk & Hsig). rewrite Hks. cbn [default].
  destruct (Hm _ _ Hks) as [Hks'|(n2 & n3 & Hks')]; [by rewrite lookup_empty in Hks'|].
  destruct (Hk n2) as [n4 Hk']. rewrite Hks' in Hk'. by injection Hk' as -> _.
Qed.

(** the zones whose delegation is checked run from the top-level domain to
    the signer, each one label longer than the one before. *)
Theorem zone_cut_path `{NL : DnsNameLaws} (zone : string) :
  canonical_name zone ≠ "." →
  last (zoneCutPath zone) = Some (canonical_name zone) ∧
  (∀ i parent child, zoneCutPath zone !! i = Some parent → zoneCutPath zone !! S i = Some child →
     ∃ l, child = l +:+ "." +:+ parent ∧ Forall (λ c, is_char "." c = false) (bytes l)) ∧
  (∃ l, head (zoneCutPath zone) = Some (l +:+ ".") ∧
     Forall (λ c, is_char "." c = false) (bytes l)).
Proof.
  intros Hr. unfold zoneCutPath. rewrite bool_decide_false by done.
  set (parts := split (trim_suffix (canonical_name zone) ".") ".").
  assert (Hne : parts ≠ []) by (unfold parts, split; intros E%map_eq_nil; by apply split_with_nonnil in E).
  assert (Hw : ∀ l, l ∈ parts → Forall (λ c, is_char "." c = false) (bytes l)).
  { intros l (w & <- & Hl)%list_elem_of_In%in_map_iff. rewrite bytes_mk.
    pose proof (split_with_words (is_char ".") (bytes (trim_suffix (canonical_name zone) "."))) as HF.
    rewrite Forall_forall in HF. by apply HF, list_elem_of_In. }
  assert (Hj : join parts "." +:+ "." = canonical_name zone).
  { pose proof (canonical_dot zone) as (t & Ht)%has_suffix_spec. unfold parts.
    rewrite Ht, trim_suffix_app. f_equal. apply (join_split t "."). }
  assert (Hlen : 0 < length parts) by (destruct parts; [done|cbn; lia]).
  split_and!.
  - rewrite last_lookup, length_map, length_seq, list_lookup_fmap, lookup_seq_lt by lia.
    cbn [fmap option_fmap option_map]. replace (length parts - 1 - (0 + Nat.pred (length parts)))
      with 0 by lia. by rewrite drop_0, Hj.
  - intros i parent child Hp Hc. rewrite list_lookup_fmap in Hp, Hc.
    apply fmap_Some in Hp as (j & (-> & Hi)%lookup_seq & ->), Hc as (j' & (-> & Hi')%lookup_seq & ->).
    cbn [Nat.add]. set (k := length parts - 1 - S i). replace (length parts - 1 - i) with (S k) by lia.
    destruct (lookup_lt_is_Some_2 parts k) as [l Hl]; [lia|]. rewrite (drop_S _ _ _ Hl).
    exists l. split; [|by eapply Hw, list_elem_of_lookup_2].
    destruct (drop (S k) parts) as [|w ws] eqn:Ed.
    { apply (f_equal length) in Ed. rewrite length_drop in Ed. cbn [length] in Ed. lia. }
    rewrite join_cons. apply bytes_inj. by rewrite !bytes_app, <-!app_assoc.
  - destruct (lookup_lt_is_Some_2 parts (length parts - 1)) as [l Hl]; [lia|].
    exists l. split; [|by eapply Hw, list_elem_of_lookup_2].
    destruct (length parts) as [|n] eqn:En; [lia|]. cbn [seq map head].
    replace (S n - 1 - 0) with (S n - 1) by lia. rewrite (drop_S _ _ _ Hl), drop_ge by lia. by rewrite join_single.
Qed.

(** * Witnesses

    Keys verify the signatures that hold their public key. *)
#[export] Instance demo_verify : DnssecVerify | 100 := {|
  dnskey_tag k := N.of_nat (slen (PublicKey k));
  rrsig_verify sig key rrset :=
    if bool_decide (Signature sig.2 = PublicKey key.2) then None else Some (errNew "dns: bad signature");
  dnskey_to_ds key dt :=
    Some (DSData (N.of_nat (slen (PublicKey key.2))) (KAlgorithm key.2) dt (PublicKey key.2))
|}.
#[export] Instance demo_lookup : ExchangeResolver (msg → res msg) nat | 100 := {|
  Exchange r req client n := (r req, n);
  ECSCacheContext r client := MkECS false client 24 56
|}.
#[export] Instance demo_counts : CountsPassed nat | 100 := {| inc_passed := S |}.

Definition demo_rr name type data : rr := RR (Hdr name type ClassINET 300) data.
Definition demo_key name flags key : rr :=
  demo_rr name TypeDNSKEY (DDNSKEY (DNSKEYData flags 3 13 key)).
Definition demo_rrsig name covered by_zone key : rr :=
  demo_rr name TypeRRSIG
    (DRRSIG (RRSIGData covered 13 1 300 1000 10 (N.of_nat (slen key)) by_zone key)).
Definition demo_ds name key : rr :=
  demo_rr name TypeDS (DDS (DSData (N.of_nat (slen key)) 13 2 key)).

Definition demo_signed (q : question) : list rr :=
  if bool_decide (q_name q = ".") then [demo_key "." 257 "root"; demo_rrsig "." TypeDNSKEY "." "root"]
  else if (q_type q =? TypeDS)%N then
    if bool_decide (q_name q = "b.") then []
    else [demo_ds (q_name q) "zone1"; demo_rrsig (q_name q) TypeDS "." "root"]
  else [demo_key (q_name q) 257 "zone1"; demo_rrsig (q_name q) TypeDNSKEY (q_name q) "zone1"].
Definition demo_dns (req : msg) : res msg :=
  match m_question req with
  | q :: _ => Ok (set_answer new_msg (demo_signed q))
  | [] => Err (errNew "no question")
  end.
Definition demo_validator : DNSSECValidator (msg → res msg) :=
  MkValidator (Some demo_dns) [demo_key "." 257 "root"].
Definition demo_host : rr := demo_rr "www.example." TypeA (DA (IP4b 3221225985)).
Definition demo_response : msg :=
  set_answer new_msg [demo_host; demo_rrsig "www.example." TypeA "example." "zone1"].

Lemma validate_sound_witness :
  ∃ keys, chain (mayFetch demo_validator) (v_anchors demo_validator) 100 ["example."] keys.
Proof.
  pose proof (validate_sound demo_validator 100 demo_response 0) as H.
  assert (E : validateResponse demo_validator 100 demo_response 0 = (Ok true, 1)) by by vm_compute.
  rewrite E in H. destruct H as (_ & _ & H).
  destruct (H (hdr (demo_rrsig "www.example." TypeA "example." "zone1"),
    RRSIGData TypeA 13 1 300 1000 10 5 "example." "zone1")) as (keys & Hc & _).
  - by apply list_elem_of_singleton.
  - exists keys. exact Hc.
Defined.

Lemma zone_cut_path_witness : last (zoneCutPath "A.b") = Some "a.b.".
Proof.
  assert (E : canonical_name "A.b" = "a.b.") by by vm_compute. rewrite <-E.
  apply (zone_cut_path "A.b"). by rewrite E.
Defined.

Lemma demo_fetch name qtype n :
  fetchSignedRRSet demo_validator name qtype n =
    ((fetchSignedRRSet demo_validator name qtype 0).1, n).
Proof.
  unfold fetchSignedRRSet. cbn [v_resolver demo_validator Exchange demo_lookup].
  match goal with |- context [demo_dns ?m] => destruct (demo_dns m) as [resp|e] end; [|done].
  by destruct (negb _).
Qed.

Lemma demo_signed_by rrset s k sig key :
  dat s = DRRSIG sig → dat k = DDNSKEY key → rrset ≠ [] →
  (Inception sig ≤ 100 ≤ Expiration sig)%N → SigKeyTag sig = dnskey_tag key →
  Signature sig = PublicKey key → signed 100 rrset [s] [k].
Proof.
  intros Hs Hk Hne Ht Etag Esig. split_and!; [done..|]. apply Forall_singleton.
  exists sig, k, key. split_and!; try done; [apply Ht|apply Ht|by apply list_elem_of_singleton|].
  cbn [rrsig_verify demo_verify snd]. by rewrite bool_decide_true.
Qed.

Ltac demo_signed :=
  eapply demo_signed_by; [reflexivity|reflexivity|done|vm_compute; split; discriminate|
    by vm_compute|reflexivity].

Lemma validate_complete_witness :
  ∃ n', validateResponse demo_validator 100 demo_response 0 = (Ok true, n').
Proof.
  apply (validate_complete demo_validator 100 demo_response 0); [by vm_compute|].
  intros sig Hs. apply list_elem_of_singleton in Hs as ->.
  exists [demo_key "example." 257 "zone1"]. split.
  - assert (Ez : zoneCutPath "example." = [] ++ ["example."]) by by vm_compute.
    cbn [SignerName snd]. rewrite Ez. apply chain_cut with (parentKeys := [demo_key "." 257 "root"]); [apply chain_root|].
    + exists [demo_rrsig "." TypeDNSKEY "." "root"]. split_and!; [|demo_signed|by vm_compute].
      intros n. exists n. rewrite demo_fetch. by vm_compute.
    + exists [demo_ds "example." "zone1"], [demo_rrsig "example." TypeDS "." "root"],
        [demo_rrsig "example." TypeDNSKEY "example." "zone1"].
      split_and!; [|demo_signed| |demo_signed|by vm_compute];
        intros n; exists n; rewrite demo_fetch; by vm_compute.
  - demo_signed.
Defined.

(** * Limits of the code *)

(** A key set need only contain a key the anchor or the DS record names; any of
    its own keys may sign it. The holder of no trusted key adds one to the
    root's keys and signs the set with it. *)
Lemma key_set_signed_by_any :
  let forged := [demo_key "." 257 "root"; demo_key "." 256 "intruder"] in
  let answer := set_answer new_msg (forged ++ [demo_rrsig "." TypeDNSKEY "." "intruder"]) in
  validateRootZone (MkValidator (Some (λ _ : msg, Ok answer)) [demo_key "." 257 "root"]) 100 0 =
    (Ok forged, 0).
Proof. by vm_compute. Qed.

(** A response is authenticated when all its signatures are good, also if they
    do not cover the answer. *)
Lemma unsigned_answer_authenticated :
  let resp := set_ns (set_answer new_msg [demo_host])
    [demo_rr "example." TypeNS (DNS "ns.example."); demo_rrsig "example." TypeNS "example." "zone1"] in
  validateResponse demo_validator 100 resp 0 = (Ok true, 1).
Proof. by vm_compute. Qed.

(** Every label is taken for a zone cut: a signed zone two labels below the
    root, in no zone of its own parent label, is bogus. *)
Lemma zone_without_parent_zone_bogus :
  let resp := set_answer new_msg [demo_rr "a.b." TypeA (DA (IP4b 1)); demo_rrsig "a.b." TypeA "a.b." "zone1"] in
  (validateResponse demo_validator 100 resp 0).1 = Err (bogus "no ds records for zone %s") ∧
  is_ok (validateZoneDelegation demo_validator 100 "a.b." [demo_key "." 257 "root"] 0).1 = true.
Proof. by vm_compute. Qed.

(** Public keys are compared without regard to case, base64 is not. *)
Lemma anchor_keys_fold_case :
  sameAnchor (DNSKEYData 257 3 13 "AwEAAa") (DNSKEYData 257 3 13 "awEAAA") = true.
Proof. by vm_compute. Qed.

End Validator.
