(* ===== verification/Config.v ===== *)
(** * Configuration: internal/config

    The settings, their defaults and validation, the merge of an API update,
    and loading from a file. TOML and the resolution of a TCP address are
    interfaces; random bytes are an argument. An int is a [Z]. *)
From S2P Require Import Prelude Encoding NetAddr Radix Dns Acl Rpz Owner Files Upstream Validator.

(** The TOML package: decoding over the defaults, and encoding. *)
Class Toml (C : Type) := {
  toml_unmarshal : string → C → res C;
  toml_marshal : C → res string
}.

(** [net.ResolveTCPAddr("tcp", address)]: the error. *)
Class TCPResolver := { resolve_tcp_addr : string → option error }.

Module Config.
Import Owner Upstream.

(** ** Settings *)
Record ServerConfig := MkServer { Listen : string; Port : Z; EventLoops : Z; LogLevel : string }.
Record TLSConfig := MkTLS { CertFile : string; KeyFile : string }.
Record ListenersConfig := MkListeners { DoT : string; DoH : string }.
Record APIConfig := MkAPI {
  apiListen : string; AuthToken : string; TLSCert : string; TLSKey : string
}.
Record RecursiveConfig := MkRecursive { Upstreams : list string; TrustedSubnets : list string }.
Record ResolverConfig := MkResolver {
  Mode : string; QNameMinimization : bool; RootHintsFile : string; AutoUpdateRootHints : bool
}.
Record FirewallConfig := MkFirewall { BlocklistsDirectory : string; BlockAction : string }.
Record SecurityConfig := MkSecurity {
  DNSSECValidation : bool; DNSCookiesEnabled : bool; DNSCookieSecret : string;
  SecRootAnchors : list string
}.
Record RateLimitConfig := MkRateLimit { rlEnabled : bool; RequestsPerSecond : Z; Burst : Z }.
Record ECSConfig := MkECSConfig {
  ecsOn : bool; IPv4PrefixLength : Z; IPv6PrefixLength : Z
}.
Record LoggingConfig := MkLogging {
  FilePath : string; MaxSizeMB : Z; MaxBackups : Z; MaxAgeDays : Z
}.
Record XFRConfig := MkXFR {
  xfrEnabled : bool; AllowedSubnets : list string; NotifySlaves : list string
}.
Record ZoneACLConfig := MkZoneACL {
  zAllowQuery : list string; zAllowRecursion : list string; zAllowTransfer : list string
}.
(** A map that may be nil is an option. *)
Record ACLConfig := MkACL {
  Lists : option (gmap string (list string));
  AllowQuery : list string; AllowRecursion : list string; AllowTransfer : list string;
  Zones : gmap string ZoneACLConfig
}.
Record ViewEntry := MkViewEntry {
  ve_Name : string; MatchClients : list string; UseECS : bool
}.
Record ViewsConfig := MkViews { v_Default : string; Entries : list ViewEntry }.
Record RPZPolicyConfig := MkRPZPolicy { pPattern : string; pAction : string; pTarget : string }.
Record RPZConfig := MkRPZ { rpzEnabled : bool; Policies : list RPZPolicyConfig }.

Record Config := MkConfig {
  Server : ServerConfig; TLS : TLSConfig; Listeners : ListenersConfig; API : APIConfig;
  ZonesDirectory : string; Recursive : RecursiveConfig; Resolver : ResolverConfig;
  Firewall : FirewallConfig; Security : SecurityConfig; RateLimit : RateLimitConfig;
  ECS : ECSConfig; Logging : LoggingConfig;
  UpdateKeys : option (gmap string string);
  XFR : XFRConfig; ACLs : ACLConfig; Views : ViewsConfig; RPZs : RPZConfig
}.

Definition with_recursive (r : RecursiveConfig) (c : Config) : Config :=
  MkConfig (Server c) (TLS c) (Listeners c) (API c) (ZonesDirectory c) r (Resolver c) (Firewall c)
    (Security c) (RateLimit c) (ECS c) (Logging c) (UpdateKeys c) (XFR c) (ACLs c) (Views c) (RPZs c).
Definition with_security (s : SecurityConfig) (c : Config) : Config :=
  MkConfig (Server c) (TLS c) (Listeners c) (API c) (ZonesDirectory c) (Recursive c) (Resolver c)
    (Firewall c) s (RateLimit c) (ECS c) (Logging c) (UpdateKeys c) (XFR c) (ACLs c) (Views c) (RPZs c).
Definition with_keys (k : option (gmap string string)) (c : Config) : Config :=
  MkConfig (Server c) (TLS c) (Listeners c) (API c) (ZonesDirectory c) (Recursive c) (Resolver c)
    (Firewall c) (Security c) (RateLimit c) (ECS c) (Logging c) k (XFR c) (ACLs c) (Views c) (RPZs c).

Definition DefaultRootHints : list string :=
  ["198.41.0.4"; "199.9.14.201"; "192.33.4.12"; "199.7.91.13"; "192.203.230.10"; "192.5.5.241";
   "192.32.92.29"; "216.146.53.2"; "192.36.134.14"; "192.58.128.30"; "193.0.14.129"; "199.7.83.42";
   "202.12.27.33"].

Definition noACL : ACLConfig := MkACL None [] [] [] ∅.

Definition Default : Config := {|
  Server := MkServer "0.0.0.0" 53 0 "INFO";
  TLS := MkTLS "" "";
  Listeners := MkListeners ":853" ":443";
  API := MkAPI "127.0.0.1:8080" "dev-token-change-me" "" "";
  ZonesDirectory := "./zones";
  Recursive := MkRecursive ["1.1.1.1"; "1.0.0.1"] ["127.0.0.0/8"; "10.0.0.0/8"; "192.168.0.0/16"];
  Resolver := MkResolver "forward" true "./data/named.root" true;
  Firewall := MkFirewall "./blocklists" "NXDOMAIN";
  Security := MkSecurity true true "" [];
  RateLimit := MkRateLimit true 100 200;
  ECS := MkECSConfig false 24 56;
  Logging := MkLogging "./logs/arx-dns.log" 50 3 28;
  UpdateKeys := None;
  XFR := MkXFR false [] [];
  ACLs := noACL;
  Views := MkViews "" [];
  RPZs := MkRPZ false []
|}.

Definition blank (s : string) : bool := bool_decide (trim_space s = "").
Definition or_text (s d : string) : string := if blank s then d else s.
Definition or_int (n d : Z) : Z := if (n =? 0)%Z then d else n.
Definition or_list {A} (l d : list A) : list A := match l with [] => d | _ => l end.

Definition applyDefaults (c : Config) : Config :=
  let def := Default in {|
  Server := MkServer (or_text (Listen (Server c)) (Listen (Server def)))
    (or_int (Port (Server c)) (Port (Server def))) (EventLoops (Server c))
    (or_text (LogLevel (Server c)) (LogLevel (Server def)));
  TLS := TLS c;
  Listeners := MkListeners (or_text (DoT (Listeners c)) (DoT (Listeners def)))
    (or_text (DoH (Listeners c)) (DoH (Listeners def)));
  API := MkAPI (or_text (apiListen (API c)) (apiListen (API def)))
    (or_text (AuthToken (API c)) (AuthToken (API def))) (TLSCert (API c)) (TLSKey (API c));
  ZonesDirectory := or_text (ZonesDirectory c) (ZonesDirectory def);
  Recursive := MkRecursive (or_list (Upstreams (Recursive c)) (Upstreams (Recursive def)))
    (or_list (TrustedSubnets (Recursive c)) (TrustedSubnets (Recursive def)));
  Resolver := MkResolver (or_text (Mode (Resolver c)) (Mode (Resolver def)))
    (QNameMinimization (Resolver c))
    (or_text (RootHintsFile (Resolver c)) (RootHintsFile (Resolver def)))
    (AutoUpdateRootHints (Resolver c));
  Firewall := MkFirewall
    (or_text (BlocklistsDirectory (Firewall c)) (BlocklistsDirectory (Firewall def)))
    (or_text (BlockAction (Firewall c)) (BlockAction (Firewall def)));
  Security := Security c;
  RateLimit := MkRateLimit (rlEnabled (RateLimit c))
    (or_int (RequestsPerSecond (RateLimit c)) (RequestsPerSecond (RateLimit def)))
    (or_int (Burst (RateLimit c)) (Burst (RateLimit def)));
  ECS := MkECSConfig (ecsOn (ECS c))
    (or_int (IPv4PrefixLength (ECS c)) (IPv4PrefixLength (ECS def)))
    (or_int (IPv6PrefixLength (ECS c)) (IPv6PrefixLength (ECS def)));
  Logging :=
    if blank (FilePath (Logging c)) then Logging def
    else MkLogging (FilePath (Logging c)) (or_int (MaxSizeMB (Logging c)) (MaxSizeMB (Logging def)))
           (MaxBackups (Logging c)) (MaxAgeDays (Logging c));
  UpdateKeys := UpdateKeys c; XFR := XFR c; ACLs := ACLs c; Views := Views c; RPZs := RPZs c
|}.

(** ** Small helpers of the settings *)
Definition ListenAddress (c : Config) : string :=
  JoinHostPort (Listen (Server c)) (itoa (Port (Server c))).

Definition nonblank (l : list string) : list string :=
  List.filter (λ s, negb (bool_decide (s = ""))) (map trim_space l).
Definition TrustedSubnetsCSV (c : Config) : string := join (nonblank (TrustedSubnets (Recursive c))) ",".
Definition XFRAllowedSubnetsCSV (c : Config) : string := join (nonblank (AllowedSubnets (XFR c))) ",".
Definition NormalizedRootAnchors (s : SecurityConfig) : list string := nonblank (SecRootAnchors s).

Definition ResolverMode (c : Config) : string :=
  let mode := to_lower (trim_space (Mode (Resolver c))) in
  if bool_decide (mode = "") then "forward" else mode.

Definition EncryptedDNSEnabled (c : Config) : bool :=
  negb (blank (CertFile (TLS c))) && negb (blank (KeyFile (TLS c))).
Definition APITLSEnabled (c : Config) : bool :=
  negb (blank (TLSCert (API c))) && negb (blank (TLSKey (API c))).

Definition normalizeTSIGKeyName (name : string) : string :=
  let name := to_lower (trim_space name) in
  if bool_decide (name = "") then ""
  else if negb (has_suffix name ".") then name +:+ "." else name.

Definition normalizeNotifySlave (raw : string) : res string :=
  match SplitHostPort raw with
  | inl (host, port) =>
      if bool_decide (host = "") || bool_decide (port = "") then Err (errNew "invalid address")
      else Ok (JoinHostPort host port)
  | inr _ => Ok (JoinHostPort raw "53")
  end.

Fixpoint notifySlaves (slaves : list string) : res (list string) :=
  match slaves with
  | [] => Ok []
  | raw :: rest =>
      let raw := trim_space raw in
      if bool_decide (raw = "") then notifySlaves rest
      else
        let? a := res_wrap "xfr.notify_slaves %q: %w" (normalizeNotifySlave raw) in
        let? out := notifySlaves rest in
        Ok (a :: out)
  end.
Definition NormalizedNotifySlaves (c : Config) : res (list string) := notifySlaves (NotifySlaves (XFR c)).

Definition ForAPIResponse (c : Config) : Config :=
  with_recursive (MkRecursive (DisplayUpstreams (Upstreams (Recursive c)))
    (TrustedSubnets (Recursive c))) c.

Definition decodeBase64Secret (secret : string) : res string :=
  let secret := trim_space secret in
  if bool_decide (secret = "") then Err (errNew "empty secret")
  else
    let? raw := res_wrap "invalid base64 secret: %w" (base64_decode StdEncoding secret) in
    if bool_decide (raw = "") then Err (errNew "decoded secret is empty") else Ok raw.

Definition DNSCookieSecretBytes (c : Config) : res string :=
  let secret := trim_space (DNSCookieSecret (Security c)) in
  if bool_decide (secret = "") then Err (errNew "dns_cookie_secret is empty")
  else
    let? raw := res_wrap "decode dns_cookie_secret: %w" (hex_decode secret) in
    if negb (slen raw =? 32) then Err (errNew "dns_cookie_secret must decode to 32 bytes, got %d")
    else Ok raw.

Definition RequiresRestart (current next : Config) : bool :=
  negb (bool_decide (Listen (Server current) = Listen (Server next)) &&
        (Port (Server current) =? Port (Server next))%Z &&
        (EventLoops (Server current) =? EventLoops (Server next))%Z) ||
  negb (bool_decide (DoT (Listeners current) = DoT (Listeners next)) &&
        bool_decide (DoH (Listeners current) = DoH (Listeners next))) ||
  negb (bool_decide (apiListen (API current) = apiListen (API next)) &&
        bool_decide (TLSCert (API current) = TLSCert (API next)) &&
        bool_decide (TLSKey (API current) = TLSKey (API next))) ||
  negb (bool_decide (CertFile (TLS current) = CertFile (TLS next)) &&
        bool_decide (KeyFile (TLS current) = KeyFile (TLS next))) ||
  negb (bool_decide (ResolverMode current = ResolverMode next)).

(** ** An API update over the settings in force *)
Definition is_nil {A} (l : list A) : bool := match l with [] => true | _ => false end.
Definition is_none {A} (o : option A) : bool := match o with None => true | Some _ => false end.

Definition aclOmitted (a : ACLConfig) : bool :=
  is_none (Lists a) && is_nil (AllowQuery a) && is_nil (AllowRecursion a) &&
  is_nil (AllowTransfer a) && bool_decide (Zones a = ∅).
Definition xfrOmitted (x : XFRConfig) : bool :=
  negb (xfrEnabled x) && is_nil (AllowedSubnets x) && is_nil (NotifySlaves x).
Definition viewsOmitted (v : ViewsConfig) : bool :=
  bool_decide (v_Default v = "") && is_nil (Entries v).
Definition rpzOmitted (r : RPZConfig) : bool := is_nil (Policies r) && negb (rpzEnabled r).

(** Both halves of the key pair are left out. *)
Definition tlsOmitted (t : TLSConfig) : bool := blank (CertFile t) && blank (KeyFile t).

Definition MergeWithCurrent (current incoming : Config) : Config := {|
  Server := MkServer (or_text (Listen (Server incoming)) (Listen (Server current)))
    (or_int (Port (Server incoming)) (Port (Server current)))
    (EventLoops (Server incoming)) (LogLevel (Server incoming));
  TLS := if tlsOmitted (TLS incoming) then TLS current else TLS incoming;
  Listeners := MkListeners (or_text (DoT (Listeners incoming)) (DoT (Listeners current)))
    (or_text (DoH (Listeners incoming)) (DoH (Listeners current)));
  API :=
    let omitted := blank (TLSCert (API incoming)) && blank (TLSKey (API incoming)) in
    MkAPI (or_text (apiListen (API incoming)) (apiListen (API current)))
      (or_text (AuthToken (API incoming)) (AuthToken (API current)))
      (if omitted then TLSCert (API current) else TLSCert (API incoming))
      (if omitted then TLSKey (API current) else TLSKey (API incoming));
  ZonesDirectory := or_text (ZonesDirectory incoming) (ZonesDirectory current);
  Recursive := MkRecursive (or_list (Upstreams (Recursive incoming)) (Upstreams (Recursive current)))
    (or_list (TrustedSubnets (Recursive incoming)) (TrustedSubnets (Recursive current)));
  Resolver := MkResolver (Mode (Resolver incoming)) (QNameMinimization (Resolver incoming))
    (or_text (RootHintsFile (Resolver incoming)) (RootHintsFile (Resolver current)))
    (AutoUpdateRootHints (Resolver incoming));
  Firewall := MkFirewall
    (or_text (BlocklistsDirectory (Firewall incoming)) (BlocklistsDirectory (Firewall current)))
    (or_text (BlockAction (Firewall incoming)) (BlockAction (Firewall current)));
  Security := MkSecurity (DNSSECValidation (Security incoming)) (DNSCookiesEnabled (Security incoming))
    (or_text (DNSCookieSecret (Security incoming)) (DNSCookieSecret (Security current)))
    (SecRootAnchors (Security incoming));
  RateLimit := RateLimit incoming; ECS := ECS incoming; Logging := Logging incoming;
  UpdateKeys := match UpdateKeys incoming with None => UpdateKeys current | k => k end;
  XFR := if xfrOmitted (XFR incoming) then XFR current else XFR incoming;
  ACLs := if aclOmitted (ACLs incoming) then ACLs current else ACLs incoming;
  Views := if viewsOmitted (Views incoming) then Views current else Views incoming;
  RPZs := if rpzOmitted (RPZs incoming) then RPZs current else RPZs incoming
|}.

(** ** Key names *)
Section keys.
Context {MR : MapRange}.

Fixpoint normalizeKeys (keys : list (string * string)) (out : gmap string string)
    : gmap string string :=
  match keys with
  | [] => out
  | (name, secret) :: rest =>
      let name := normalizeTSIGKeyName name in
      if bool_decide (name = "") then normalizeKeys rest out
      else normalizeKeys rest (<[name := trim_space secret]> out)
  end.

Definition NormalizedTSIGKeys (c : Config) : gmap string string :=
  normalizeKeys (range (default ∅ (UpdateKeys c))) ∅.
Definition normalizeUpdateKeys (c : Config) : Config := with_keys (Some (NormalizedTSIGKeys c)) c.
End keys.

(** ** The access engine *)
Section engine.
Context {MR : MapRange}.

(** The fuel of [BuildNamedLists] always suffices: [named_lists_total]. *)
Definition namedLists (lists : option (gmap string (list string))) : res ACL.Registry :=
  match ACL.BuildNamedLists (default ∅ lists) with
  | Some r => r
  | None => Err (errNew "acl: out of fuel")
  end.

(** Parse a list under a label; a directive that is not set is nil. *)
Definition directive (label : string) (elems : list string) : res (option ACL.MatchList) :=
  res_wrap label (ACL.ParseMatchList elems).
Definition checkRefs (label : string) (l : option ACL.MatchList) (named : ACL.Registry) : res () :=
  match ACL.ValidateNamedReferences l named with
  | Some e => Err (errWrap label e)
  | None => Ok ()
  end.

Definition buildGlobalPolicy (c : Config) (named : ACL.Registry) : res ACL.PolicySet :=
  let a := ACLs c in
  let queryElems := or_list (AllowQuery a) [ACL.KeywordAny] in
  let? query := directive "acl.allow_query: %w" queryElems in
  let? recursion := directive "acl.allow_recursion: %w" (AllowRecursion a) in
  let? transfer :=
    if negb (is_nil (AllowTransfer a)) then directive "acl.allow_transfer: %w" (AllowTransfer a)
    else if xfrEnabled (XFR c) && negb (is_nil (AllowedSubnets (XFR c)))
    then directive "xfr.allowed_subnets: %w" (AllowedSubnets (XFR c))
    else directive "acl.allow_transfer default: %w" [ACL.KeywordNone] in
  let? _ := checkRefs "acl.allow_query: %w" query named in
  let? _ := checkRefs "acl.allow_recursion: %w" recursion named in
  let? _ := checkRefs "acl.allow_transfer: %w" transfer named in
  Ok (ACL.MkPolicySet query recursion transfer).

Definition normalizeACLZoneName (name : string) : string :=
  let name := to_lower (trim_space name) in
  if bool_decide (name = "") || bool_decide (name = ".") then "."
  else if negb (has_suffix name ".") then name +:+ "." else name.

Definition zoneDirective (label : string) (elems : list string) (named : ACL.Registry)
    : res (option ACL.MatchList) :=
  let? l := directive label elems in
  let? _ := checkRefs label l named in
  Ok l.

Fixpoint buildZones (named : ACL.Registry) (zones : list (string * ZoneACLConfig))
    (out : gmap string ACL.PolicySet) : res (gmap string ACL.PolicySet) :=
  match zones with
  | [] => Ok out
  | (apex, z) :: rest =>
      let apex := normalizeACLZoneName apex in
      if bool_decide (apex = ".") then buildZones named rest out
      else
        let? query := zoneDirective "acl.zones[%q].allow_query: %w" (zAllowQuery z) named in
        let? recursion := zoneDirective "acl.zones[%q].allow_recursion: %w" (zAllowRecursion z) named in
        let? transfer := zoneDirective "acl.zones[%q].allow_transfer: %w" (zAllowTransfer z) named in
        buildZones named rest (<[apex := ACL.MkPolicySet query recursion transfer]> out)
  end.
Definition buildZonePolicies (c : Config) (named : ACL.Registry) : res (gmap string ACL.PolicySet) :=
  buildZones named (range (Zones (ACLs c))) ∅.

Definition parseACLZoneView (raw : string) : res string :=
  let v := to_lower (trim_space raw) in
  if bool_decide (v = "") || bool_decide (v = ACL.ViewPublic) then Ok ACL.ViewPublic
  else if bool_decide (v = ACL.ViewInternal) then Ok ACL.ViewInternal
  else Err (errNew "invalid view %q: must be public or internal").

Definition viewRule (named : ACL.Registry) (e : ViewEntry) : res ACL.ViewRule :=
  let name := trim_space (ve_Name e) in
  if bool_decide (name = "") then Err (errNew "views.entries[%d].name must not be empty")
  else
    let? _ := res_wrap "views.entries[%d].name: %w" (parseACLZoneView name) in
    if is_nil (MatchClients e) then Err (errNew "views.entries[%d].match_clients must not be empty")
    else
      let? match_ := zoneDirective "views.entries[%d].match_clients: %w" (MatchClients e) named in
      Ok (ACL.MkViewRule name match_ (UseECS e)).

Definition buildViewRules (c : Config) (named : ACL.Registry) : res (list ACL.ViewRule * string) :=
  let raw := trim_space (v_Default (Views c)) in
  let? defaultView :=
    if bool_decide (raw = "") then Ok ACL.ViewPublic
    else res_wrap "views.default: %w" (parseACLZoneView raw) in
  let? rules := res_map (viewRule named) (Entries (Views c)) in
  Ok (rules, defaultView).

Definition BuildPolicyEngine (c : Config) : res ACL.Engine :=
  let? named := namedLists (Lists (ACLs c)) in
  let? global := buildGlobalPolicy c named in
  let? zones := buildZonePolicies c named in
  let? (views, defaultView) := buildViewRules c named in
  let? legacy := res_wrap "recursive.trusted_subnets: %w"
                   (ACL.ParseMatchList (TrustedSubnets (Recursive c))) in
  Ok (ACL.NewEngine named global zones views defaultView legacy).
End engine.

(** ** The policy engine *)
Section rpz.
Context {MR : MapRange} {T : Type → Type} {RO : RadixOps T}.

Definition rpzPolicy (p : RPZPolicyConfig) : res RPZ.Policy :=
  let? action := res_wrap "rpz.policies[%d].action: %w" (RPZ.ParseAction (pAction p)) in
  Ok (RPZ.MkPolicy (pPattern p) action (pTarget p)).

Definition BuildRPZEngine (c : Config) : res (option (RPZ.Engine (T := T))) :=
  if negb (rpzEnabled (RPZs c)) then Ok None
  else
    let? policies := res_map rpzPolicy (Policies (RPZs c)) in
    match RPZ.ReplacePolicies (Some RPZ.New) policies with
    | (_, Some e) => Err (errWrap "rpz policies: %w" e)
    | (e, None) => Ok e
    end.

Fixpoint probePolicies (policies : list RPZPolicyConfig) : option error :=
  match policies with
  | [] => None
  | p :: rest =>
      match RPZ.ParseAction (pAction p) with
      | Err e => Some (errWrap "rpz.policies[%d].action: %w" e)
      | Ok action =>
          match RPZ.AddPolicy (T := T) (Some RPZ.New) (pPattern p) action (pTarget p) with
          | Err e => Some (errWrap "rpz.policies[%d]: %w" e)
          | Ok _ => probePolicies rest
          end
      end
  end.
Definition validateRPZ (c : Config) : option error :=
  if negb (rpzEnabled (RPZs c)) then None else probePolicies (Policies (RPZs c)).
End rpz.

(** ** Validation *)

(** The first error of a list of checks. *)
Fixpoint first_error (checks : list (option error)) : option error :=
  match checks with
  | [] => None
  | Some e :: _ => Some e
  | None :: rest => first_error rest
  end.
Definition check (ok : bool) (text : string) : option error :=
  if ok then None else Some (errNew text).
Definition error_of {A} (r : res A) : option error := match r with Ok _ => None | Err e => Some e end.

Definition validateLogLevel (raw : string) : option error :=
  check (bool_decide (to_upper (trim_space raw) ∈ ["DEBUG"; "INFO"; "WARN"; "WARNING"; "ERROR"]))
    "server.log_level must be DEBUG, INFO, WARN, or ERROR, got %q".
Definition validateBlockAction (raw : string) : option error :=
  check (bool_decide (to_upper (trim_space raw) ∈ ["NXDOMAIN"; "ZEROIP"; ""]))
    "unknown firewall block action %q (expected NXDOMAIN or ZEROIP)".

Definition validateLogging (c : Config) : option error :=
  first_error
    [check (negb (blank (FilePath (Logging c)))) "logging.file_path must not be empty";
     check (0 <? MaxSizeMB (Logging c))%Z "logging.max_size_mb must be greater than zero";
     check (0 <=? MaxBackups (Logging c))%Z "logging.max_backups must be zero or greater";
     check (0 <=? MaxAgeDays (Logging c))%Z "logging.max_age_days must be zero or greater"].

Definition validateECS (c : Config) : option error :=
  first_error
    [check ((0 <=? IPv4PrefixLength (ECS c)) && (IPv4PrefixLength (ECS c) <=? 32))%Z
       "ecs.ipv4_prefix_length must be between 0 and 32, got %d";
     check ((0 <=? IPv6PrefixLength (ECS c)) && (IPv6PrefixLength (ECS c) <=? 128))%Z
       "ecs.ipv6_prefix_length must be between 0 and 128, got %d"].

Definition validateRateLimit (c : Config) : option error :=
  if negb (rlEnabled (RateLimit c)) then None
  else first_error
    [check (1 <=? RequestsPerSecond (RateLimit c))%Z
       "rate_limit.requests_per_second must be at least 1 when rate limiting is enabled";
     check (1 <=? Burst (RateLimit c))%Z
       "rate_limit.burst must be at least 1 when rate limiting is enabled"].

Definition validateResolver (c : Config) : option error :=
  if bool_decide (ResolverMode c = "forward") then error_of (ValidatedUpstreams (Upstreams (Recursive c)))
  else check (bool_decide (ResolverMode c = "iterative"))
         "resolver.mode must be forward or iterative, got %q".

Fixpoint validateKeys (keys : list (string * string)) : option error :=
  match keys with
  | [] => None
  | (name, secret) :: rest =>
      if bool_decide (secret = "") then Some (errNew "update.keys[%q] must not be empty")
      else match decodeBase64Secret secret with
           | Err e => Some (errWrap "update.keys[%q]: %w" e)
           | Ok _ => validateKeys rest
           end
  end.

Definition validateXFR (c : Config) : option error :=
  if negb (xfrEnabled (XFR c)) then None else error_of (NormalizedNotifySlaves c).

Section validation.
Context {MR : MapRange} {T : Type → Type} {RO : RadixOps T} {DT : DnsText} {TR : TCPResolver}
  {TM : Toml Config} {W : Type} {FS : FileSys W} {ST : FileStat W}.

Definition validateUpdate (c : Config) : option error := validateKeys (range (default ∅ (UpdateKeys c))).

Fixpoint checkAnchors (anchors : list string) : option error :=
  match anchors with
  | [] => None
  | raw :: rest =>
      let raw := trim_space raw in
      if bool_decide (raw = "") then checkAnchors rest
      else match new_rr raw with
           | Err e => Some (errWrap "security.root_anchors[%d]: %w" e)
           | Ok r =>
               match dat <$> r with
               | Some (DDNSKEY _ | DDS _) => checkAnchors rest
               | _ => Some (errNew "security.root_anchors[%d]: must be a DNSKEY or DS record")
               end
           end
  end.
Definition ValidateRootAnchors (s : SecurityConfig) : option error := checkAnchors (SecRootAnchors s).

Definition validateSecurity (c : Config) : option error :=
  match ValidateRootAnchors (Security c) with
  | Some e => Some e
  | None =>
      if negb (DNSCookiesEnabled (Security c)) then None
      else
        let secret := trim_space (DNSCookieSecret (Security c)) in
        if bool_decide (secret = "")
        then Some (errNew "security.dns_cookie_secret must be set when dns_cookies_enabled is true")
        else if negb (slen secret =? 64)
        then Some (errNew "security.dns_cookie_secret must be a 64-character hex string (32 bytes)")
        else match hex_decode secret with
             | Err e => Some (errWrap "security.dns_cookie_secret: %w" e)
             | Ok _ => None
             end
  end.

(** A certificate and its key: both or neither, and both files exist. *)
Definition validatePair (w : W) (certName keyName cert key : string) : option error :=
  let cert := trim_space cert in
  let key := trim_space key in
  if bool_decide (cert = "") && bool_decide (key = "") then None
  else if bool_decide (cert = "") then Some (errNew (certName +:+ " is required when " +:+ keyName +:+ " is set"))
  else if bool_decide (key = "") then Some (errNew (keyName +:+ " is required when " +:+ certName +:+ " is set"))
  else first_error [error_of (res_wrap (certName +:+ " %q: %w") (fs_stat w cert));
                    error_of (res_wrap (keyName +:+ " %q: %w") (fs_stat w key))].
Definition validateTLS (w : W) (c : Config) : option error :=
  validatePair w "tls.cert_file" "tls.key_file" (CertFile (TLS c)) (KeyFile (TLS c)).
Definition validateAPITLS (w : W) (c : Config) : option error :=
  validatePair w "api.tls_cert" "api.tls_key" (TLSCert (API c)) (TLSKey (API c)).

Definition validateAPI (w : W) (c : Config) : option error :=
  first_error
    [check (negb (blank (apiListen (API c)))) "api.listen must not be empty";
     errWrap "api.listen %q: %w" <$> resolve_tcp_addr (apiListen (API c));
     check (negb (blank (AuthToken (API c)))) "api.auth_token must not be empty";
     validateAPITLS w c].

Definition validateACL (c : Config) : option error := error_of (BuildPolicyEngine c).

Definition Validate (w : W) (c : Config) : option error :=
  first_error
    [check (negb (blank (Listen (Server c)))) "server.listen must not be empty";
     check ((1 <=? Port (Server c)) && (Port (Server c) <=? 65535))%Z
       "server.port must be between 1 and 65535, got %d";
     validateLogLevel (LogLevel (Server c));
     check (negb (blank (RootHintsFile (Resolver c)))) "resolver.root_hints_file must not be empty";
     check (negb (blank (ZonesDirectory c))) "zones.directory must not be empty";
     check (negb (blank (BlocklistsDirectory (Firewall c))))
       "firewall.blocklists_directory must not be empty";
     validateBlockAction (BlockAction (Firewall c));
     validateResolver c;
     validateTLS w c;
     validateAPI w c;
     validateRateLimit c;
     validateSecurity c;
     validateECS c;
     validateUpdate c;
     validateXFR c;
     validateACL c;
     validateRPZ (T := T) c;
     validateLogging c].

(** ** An update from the API *)
Definition normalizeUpstreamsForStorage (c : Config) : res Config :=
  if negb (bool_decide (ResolverMode c = "forward")) then Ok c
  else
    let? normalized := ValidatedUpstreams (Upstreams (Recursive c)) in
    Ok (with_recursive (MkRecursive normalized (TrustedSubnets (Recursive c))) c).

Definition PrepareForApply (w : W) (c : Config) : res Config :=
  let c := normalizeUpdateKeys (applyDefaults c) in
  match Validate w c with
  | Some e => Err e
  | None => normalizeUpstreamsForStorage c
  end.

(** ** Files *)
Definition Write (w : W) (path : string) (c : Config) : W * option error :=
  let dir := path_dir path in
  let '(w, made) :=
    if negb (bool_decide (dir = "")) && negb (bool_decide (dir = ".")) then fs_mkdir_all w dir
    else (w, None) in
  match made with
  | Some e => (w, Some (errWrap "create config directory: %w" e))
  | None =>
      match toml_marshal c with
      | Err e => (w, Some (errWrap "encode config: %w" e))
      | Ok data =>
          let '(w, e) := os_write_file w path data in
          (w, errWrap "write config file: %w" <$> e)
      end
  end.

(** [rnd] is what [rand.Read] gives for 32 bytes. *)
Definition generateDNSCookieSecret (rnd : res string) : res string :=
  let? buf := res_wrap "generate dns cookie secret: %w" rnd in
  Ok (hex_encode buf).

Definition set_secret (secret : string) (c : Config) : Config :=
  with_security (MkSecurity (DNSSECValidation (Security c)) (DNSCookiesEnabled (Security c)) secret
    (SecRootAnchors (Security c))) c.

Definition EnsureDNSCookieSecret (w : W) (rnd : res string) (path : string) (c : Config)
    : W * Config * option error :=
  if negb (DNSCookiesEnabled (Security c)) then (w, c, None)
  else if negb (blank (DNSCookieSecret (Security c))) then (w, c, None)
  else
    match generateDNSCookieSecret rnd with
    | Err e => (w, c, Some e)
    | Ok secret =>
        let c := set_secret secret c in
        if bool_decide (path = "") then (w, c, None)
        else let '(w, e) := Write w path c in (w, c, e)
    end.

Definition templateLines : list string := [
  "# arx-dns default configuration (auto-generated on first startup)";
  "";
  "[server]";
  "listen = '0.0.0.0'";
  "port = 53";
  "event_loops = 0";
  "log_level = 'INFO'";
  "";
  "[zones]";
  "directory = './zones'";
  "";
  "[recursive]";
  "upstreams = ['1.1.1.1', '1.0.0.1']";
  "trusted_subnets = ['127.0.0.0/8', '10.0.0.0/8', '192.168.0.0/16']";
  "";
  "[resolver]";
  "mode = 'forward'";
  "qname_minimization = true";
  "root_hints_file = './data/named.root'";
  "auto_update_root_hints = true";
  "";
  "[firewall]";
  "blocklists_directory = './blocklists'";
  "block_action = 'NXDOMAIN'";
  "";
  "[rpz]";
  "enabled = false";
  "";
  "[security]";
  "dnssec_validation = true";
  "dns_cookies_enabled = true";
  "dns_cookie_secret = ''";
  "root_anchors = []";
  "";
  "[rate_limit]";
  "enabled = true";
  "requests_per_second = 100";
  "burst = 200";
  "";
  "[logging]";
  "file_path = './logs/arx-dns.log'";
  "max_size_mb = 50";
  "max_backups = 3";
  "max_age_days = 28";
  "";
  "[ecs]";
  "enabled = false";
  "ipv4_prefix_length = 24";
  "ipv6_prefix_length = 56";
  "";
  "[update]";
  "keys = {}";
  "";
  "[xfr]";
  "enabled = false";
  "allowed_subnets = []";
  "notify_slaves = []";
  "";
  "[acl]";
  "allow_query = ['any']";
  "allow_recursion = ['trusted-lan']";
  "allow_transfer = ['none']";
  "";
  "[acl.lists]";
  "trusted-lan = ['127.0.0.0/8', '10.0.0.0/8', '192.168.0.0/16']";
  "";
  "[views]";
  "default = 'public'";
  "";
  "[[views.entries]]";
  "name = 'internal'";
  "match_clients = ['trusted-lan']";
  "";
  "[[views.entries]]";
  "name = 'public'";
  "match_clients = ['any']";
  "";
  "[tls]";
  "cert_file = ''";
  "key_file = ''";
  "";
  "[listeners]";
  "dot = ':853'";
  "doh = ':443'";
  "";
  "[api]";
  "listen = '127.0.0.1:8080'";
  "auth_token = 'dev-token-change-me'";
  "tls_cert = ''";
  "tls_key = ''"].
Definition newline : ascii := ascii_of_N 10.
Definition defaultConfigTemplate : string :=
  mk (concat (map (λ l, bytes l ++ [newline]) templateLines)).

Definition writeDefaultConfig (w : W) (path : string) : W * option error :=
  let dir := path_dir path in
  let '(w, made) :=
    if negb (bool_decide (dir = "")) && negb (bool_decide (dir = ".")) then fs_mkdir_all w dir
    else (w, None) in
  match made with
  | Some e => (w, Some (errWrap "create config directory: %w" e))
  | None =>
      let '(w, e) := os_write_file w path defaultConfigTemplate in
      (w, errWrap "write default config %q: %w" <$> e)
  end.

Definition Load (w : W) (rnd : res string) (path : string) : W * res Config :=
  if bool_decide (path = "") then (w, Err (errNew "config path must not be empty"))
  else
    let '(w, created) :=
      match fs_stat w path with
      | Err e => if fs_is_not_exist e then writeDefaultConfig w path else (w, None)
      | Ok _ => (w, None)
      end in
    match created with
    | Some e => (w, Err (errWrap "create default config %q: %w" e))
    | None =>
        match fs_read w path with
        | Err e => (w, Err (errWrap "read config %q: %w" e))
        | Ok data =>
            match toml_unmarshal data Default with
            | Err e => (w, Err (errWrap "decode config %q: %w" e))
            | Ok cfg =>
                let cfg := normalizeUpdateKeys (applyDefaults cfg) in
                let '(w, cfg, e) := EnsureDNSCookieSecret w rnd path cfg in
                match e with
                | Some e => (w, Err (errWrap "ensure dns cookie secret: %w" e))
                | None =>
                    match Validate w cfg with
                    | Some e => (w, Err (errWrap "validate config %q: %w" e))
                    | None => (w, Ok cfg)
                    end
                end
            end
        end
    end.

Definition bootstrapDirectories : list string := ["./data"; "./data/certs"; "./zones"; "./blocklists"].

Fixpoint makeDirectories (w : W) (dirs : list string) : W * option error :=
  match dirs with
  | [] => (w, None)
  | d :: dirs =>
      match fs_mkdir_all w d with
      | (w, Some e) => (w, Some (errWrap "create directory %q: %w" e))
      | (w, None) => makeDirectories w dirs
      end
  end.

Definition Bootstrap (w : W) (configPath : string) : W * option error :=
  if bool_decide (configPath = "") then (w, Some (errNew "config path must not be empty"))
  else
    match makeDirectories w bootstrapDirectories with
    | (w, Some e) => (w, Some e)
    | (w, None) =>
        match fs_stat w configPath with
        | Ok _ => (w, None)
        | Err e =>
            if negb (fs_is_not_exist e) then (w, Some (errWrap "stat config %q: %w" e))
            else writeDefaultConfig w configPath
        end
    end.

End validation.

(** * Lemmas *)
Lemma first_error_none l : first_error l = None ↔ Forall (λ e, e = None) l.
Proof.
  induction l as [|[e|] l IH]; cbn [first_error]; [done| |].
  - rewrite Forall_cons. split; [done|by intros [? _]].
  - rewrite Forall_cons. tauto.
Qed.

Lemma check_none ok text : check ok text = None ↔ ok = true.
Proof. unfold check. by destruct ok. Qed.

Lemma error_of_none {A} (r : res A) : error_of r = None ↔ ∃ a, r = Ok a.
Proof. destruct r; cbn; [split; eauto|]. split; [done|by intros []]. Qed.

Lemma named_lists_total {MR : MapRange} lists :
  Some (namedLists lists) = ACL.BuildNamedLists (default ∅ lists).
Proof.
  unfold namedLists. by destruct (ACL.build_named_some (default ∅ lists)) as [r ->].
Qed.

(** ** Defaults *)
Lemma or_text_default s d : blank d = false → blank (or_text s d) = false.
Proof. unfold or_text. by destruct (blank s) eqn:E. Qed.
Lemma or_text_set s d : blank s = false → or_text s d = s.
Proof. unfold or_text. by intros ->. Qed.
Lemma or_text_idemp s d : or_text (or_text s d) d = or_text s d.
Proof. unfold or_text. destruct (blank s) eqn:E; [by destruct (blank d)|by rewrite E]. Qed.
Lemma or_text_same s : or_text s s = s.
Proof. unfold or_text. by destruct (blank s). Qed.
Lemma or_int_idemp n d : or_int (or_int n d) d = or_int n d.
Proof. unfold or_int. destruct (Z.eqb_spec n 0); [by destruct (d =? 0)%Z|]. by destruct (Z.eqb_spec n 0). Qed.
Lemma or_int_same n : or_int n n = n.
Proof. unfold or_int. by destruct (n =? 0)%Z. Qed.
Lemma or_list_idemp {A} (l d : list A) : or_list (or_list l d) d = or_list l d.
Proof. unfold or_list. destruct l; [by destruct d|done]. Qed.
Lemma or_list_same {A} (l : list A) : or_list l l = l.
Proof. by destruct l. Qed.

(** Taking a value unless it is left out. *)
Lemma unless_idemp {A} (b : A → bool) (x y : A) :
  (if b (if b x then y else x) then y else if b x then y else x) = if b x then y else x.
Proof. destruct (b x) eqn:E; [by destruct (b y)|by rewrite E]. Qed.

Lemma applyDefaults_idemp c : applyDefaults (applyDefaults c) = applyDefaults c.
Proof.
  unfold applyDefaults at 1 3.
  cbn [Server TLS Listeners API ZonesDirectory Recursive Resolver Firewall Security RateLimit ECS
    Logging UpdateKeys XFR ACLs Views RPZs applyDefaults Listen Port EventLoops LogLevel DoT DoH
    apiListen AuthToken TLSCert TLSKey Upstreams TrustedSubnets Mode QNameMinimization RootHintsFile
    AutoUpdateRootHints BlocklistsDirectory BlockAction rlEnabled RequestsPerSecond Burst ecsOn
    IPv4PrefixLength IPv6PrefixLength].
  rewrite !or_text_idemp, !or_int_idemp, !or_list_idemp. f_equal.
  destruct (blank (FilePath (Logging c))) eqn:E.
  - by vm_compute.
  - cbn [FilePath MaxSizeMB MaxBackups MaxAgeDays]. by rewrite E, or_int_idemp.
Qed.

(** ** Key names *)
Lemma tsig_key_name name :
  normalizeTSIGKeyName name =
    if bool_decide (to_lower (trim_space name) = "") then "" else NormalizeName name.
Proof. unfold normalizeTSIGKeyName, NormalizeName. by destruct (bool_decide _). Qed.

Lemma tsig_key_name_idemp name :
  normalizeTSIGKeyName (normalizeTSIGKeyName name) = normalizeTSIGKeyName name.
Proof.
  rewrite (tsig_key_name name). destruct (bool_decide _); [done|].
  rewrite tsig_key_name, normalize_idemp. destruct (bool_decide _) eqn:E; [|done]. bool_hyps.
  exfalso. pose proof (normalize_idemp name) as H. unfold NormalizeName at 1 in H.
  rewrite E in H. cbn in H. rewrite <-H in E. by vm_compute in E.
Qed.

Lemma normalizeKeys_id l out :
  Forall (λ kv, kv.1 ≠ "" ∧ normalizeTSIGKeyName kv.1 = kv.1 ∧ trim_space kv.2 = kv.2) l →
  normalizeKeys l out = foldl (λ m kv, <[kv.1 := kv.2]> m) out l.
Proof.
  intros HF. revert out. induction HF as [|[k v] l (Hk & Hn & Hv) _ IH]; intros out; [done|].
  cbn [normalizeKeys foldl fst snd] in *. by rewrite Hn, Hv, bool_decide_false, IH.
Qed.

Definition normal_keys (m : gmap string string) : Prop :=
  map_Forall (λ k v, k ≠ "" ∧ normalizeTSIGKeyName k = k ∧ trim_space v = v) m.

Lemma normalizeKeys_normal l out : normal_keys out → normal_keys (normalizeKeys l out).
Proof.
  revert out. induction l as [|[k v] l IH]; intros out Ho; cbn [normalizeKeys]; [done|].
  destruct (bool_decide _) eqn:E; bool_hyps; [by apply IH|]. apply IH.
  apply map_Forall_insert_2; [|done]. split_and!; [done|apply tsig_key_name_idemp|apply trim_space_idemp].
Qed.

Lemma normalizeUpdateKeys_idemp {MR : MapRange} c :
  normalizeUpdateKeys (normalizeUpdateKeys c) = normalizeUpdateKeys c.
Proof.
  unfold normalizeUpdateKeys at 1 3. unfold with_keys. f_equal. f_equal.
  unfold NormalizedTSIGKeys at 1. cbn [UpdateKeys normalizeUpdateKeys with_keys default].
  assert (Hn : normal_keys (NormalizedTSIGKeys c)) by (apply normalizeKeys_normal, map_Forall_empty).
  rewrite normalizeKeys_id; [apply foldl_insert_range|].
  apply Forall_forall. intros [k v]. rewrite range_perm. intros Hin%elem_of_map_to_list.
  exact (map_Forall_lookup_1 _ _ _ _ Hn Hin).
Qed.

(** ** Secrets *)
Lemma validateKeys_none l : validateKeys l = None ↔
  Forall (λ kv, ∃ raw, decodeBase64Secret kv.2 = Ok raw ∧ raw ≠ "") l.
Proof.
  assert (Hne : ∀ s raw, decodeBase64Secret s = Ok raw → raw ≠ "").
  { intros s raw. unfold decodeBase64Secret. destruct (bool_decide _); [done|].
    destruct (base64_decode _) as [r|e]; cbn [res_wrap res_bind]; [|done].
    destruct (bool_decide (r = "")) eqn:E; bool_hyps; [done|]. by intros [= <-]. }
  induction l as [|[k v] l IH]; cbn [validateKeys]; [done|]. rewrite Forall_cons, <-IH.
  destruct (bool_decide (v = "")) eqn:Ev; bool_hyps.
  - split; [done|]. intros [(raw & Hd & _) _]. by vm_compute in Hd.
  - destruct (decodeBase64Secret v) as [raw|e] eqn:Ed; cbn [snd].
    + rewrite Ed. split; [|by intros [_ ?]]. intros. split; [|done]. exists raw. split; [done|by eapply Hne].
    + rewrite Ed. split; [done|]. by intros [(? & ? & _) _].
Qed.

(** ** Upstreams *)
Lemma validated_forwarder ups addrs dnssec ecs v4 v6 :
  ValidatedUpstreams ups = Ok addrs → (v4 < 256)%N → (v6 < 256)%N →
  NewForwarderFromConfig ups dnssec ecs v4 v6 = Ok (MkForwarder addrs dnssec ecs v4 v6).
Proof.
  intros E H4 H6. unfold NewForwarderFromConfig. rewrite E. cbn [res_bind]. unfold SetECS.
  cbn. by rewrite !N.mod_small by lia.
Qed.

Lemma validated_nonempty ups addrs : ValidatedUpstreams ups = Ok addrs → addrs ≠ [].
Proof.
  unfold ValidatedUpstreams. destruct (parseUpstreams ups) as [out|e]; cbn [res_bind]; [|done].
  destruct (bool_decide _) eqn:E; bool_hyps; [done|]. by intros [= <-].
Qed.

(** ** The policy engine *)
Section rpz_lemmas.
Context {MR : MapRange} {T : Type → Type} {RO : RadixOps T}.

Lemma probe_builds policies acc :
  probePolicies (T := T) policies = None →
  ∃ ps, res_map rpzPolicy policies = Ok ps ∧ ∃ snap, RPZ.replaceLoop (T := T) acc ps = Ok snap.
Proof.
  revert acc. induction policies as [|p rest IH]; intros acc; cbn [probePolicies res_map]; [by eauto|].
  unfold rpzPolicy at 1. destruct (RPZ.ParseAction (pAction p)) as [a|e] eqn:Ea; [|done].
  cbn [res_wrap res_bind]. unfold RPZ.AddPolicy.
  destruct (RPZ.parsePattern (pPattern p) a (pTarget p)) as [[entry rev]|e] eqn:Ep;
    cbn [res_bind]; [|done]. intros Hr.
  set (acc' := if bool_decide (rev = "")
    then RPZ.Snapshot (<[RPZ.normalizeName (pPattern p) := entry]> (RPZ.exact acc)) (RPZ.wildcards acc)
    else RPZ.Snapshot (RPZ.exact acc) (radix_insert (RPZ.wildcards acc) rev entry)).
  destruct (IH acc' Hr) as (ps & -> & snap & Hs). cbn [res_bind].
  eexists. split; [reflexivity|]. exists snap. cbn [RPZ.replaceLoop RPZ.Pattern RPZ.PAction RPZ.Target].
  rewrite Ep. cbn [res_bind]. unfold acc' in Hs. by destruct (bool_decide (rev = "")).
Qed.

Lemma validateRPZ_builds c : validateRPZ (T := T) c = None →
  ∃ e, BuildRPZEngine (T := T) c = Ok e ∧ (e = None ↔ rpzEnabled (RPZs c) = false).
Proof.
  unfold validateRPZ, BuildRPZEngine. destruct (rpzEnabled (RPZs c)); cbn [negb]; [|intros _; by exists None].
  intros (ps & -> & snap & Hs)%(probe_builds _ (RPZ.Snapshot ∅ radix_new)). cbn [res_bind].
  unfold RPZ.ReplacePolicies. cbn [RPZ.New]. rewrite Hs. by eexists.
Qed.
End rpz_lemmas.

(** ** Loading twice *)
Section load.
Context {MR : MapRange} {T : Type → Type} {RO : RadixOps T} {DT : DnsText} {TR : TCPResolver}
  {TM : Toml Config} {W : Type} `{FR : FileReadLaws W}.

Definition settle (c : Config) : Config := normalizeUpdateKeys (applyDefaults c).

Lemma settle_idemp c : settle (settle c) = settle c.
Proof.
  unfold settle. change (applyDefaults (normalizeUpdateKeys (applyDefaults c)))
    with (with_keys (Some (NormalizedTSIGKeys (applyDefaults c))) (applyDefaults (applyDefaults c))).
  rewrite applyDefaults_idemp. apply (normalizeUpdateKeys_idemp (applyDefaults c)).
Qed.

Lemma settle_secret s c : settle (set_secret s c) = set_secret s (settle c).
Proof. done. Qed.

(** What [Load] does once the file has been read. *)
Definition afterRead (w : W) (rnd : res string) (path : string) (cfg : Config) : W * res Config :=
  let '(w, cfg, e) := EnsureDNSCookieSecret w rnd path (settle cfg) in
  match e with
  | Some e => (w, Err (errWrap "ensure dns cookie secret: %w" e))
  | None => match Validate (T := T) w cfg with
            | Some e => (w, Err (errWrap "validate config %q: %w" e))
            | None => (w, Ok cfg)
            end
  end.

Lemma load_read w rnd path data cfg :
  path ≠ "" → fs_read w path = Ok data → toml_unmarshal data Default = Ok cfg →
  Load (T := T) w rnd path = afterRead w rnd path cfg.
Proof.
  intros Hp Hr Hu. unfold Load. rewrite bool_decide_false by done.
  destruct (read_stat w path data Hr) as [m ->]. by rewrite Hr, Hu.
Qed.

Lemma load_inv w rnd path w' c : Load (T := T) w rnd path = (w', Ok c) →
  path ≠ "" ∧ ∃ w1 data cfg, fs_read w1 path = Ok data ∧ toml_unmarshal data Default = Ok cfg ∧
    afterRead w1 rnd path cfg = (w', Ok c).
Proof.
  unfold Load. destruct (bool_decide (path = "")) eqn:Ep; bool_hyps; [done|].
  destruct (match fs_stat w path with Ok _ => _ | Err _ => _ end) as [w1 [e|]]; [done|].
  destruct (fs_read w1 path) as [data|e] eqn:Er; [|done].
  destruct (toml_unmarshal data Default) as [cfg|e] eqn:Eu; [|done].
  intros Ha. split; [done|]. by exists w1, data, cfg.
Qed.

Lemma write_inv w path c w' : Write w path c = (w', None) →
  ∃ data, toml_marshal c = Ok data ∧ fs_read w' path = Ok data.
Proof.
  unfold Write. destruct (if _ && _ then fs_mkdir_all w (path_dir path) else (w, None)) as [w1 [e|]]; [done|].
  destruct (toml_marshal c) as [data|e]; [|done].
  destruct (os_write_file w1 path data) as [w2 [e|]] eqn:E; [done|]. intros [= <-].
  exists data. split; [done|]. apply read_file. by eapply os_write_file_ok.
Qed.

Lemma validate_secret w c : Validate (T := T) w c = None → DNSCookiesEnabled (Security c) = true →
  blank (DNSCookieSecret (Security c)) = false.
Proof.
  unfold Validate. rewrite first_error_none, !Forall_cons.
  intros (_ & _ & _ & _ & _ & _ & _ & _ & _ & _ & _ & Hsec & _) Hc.
  unfold validateSecurity in Hsec. destruct (ValidateRootAnchors _); [done|].
  rewrite Hc in Hsec. cbn [negb] in Hsec. unfold blank. by destruct (bool_decide _).
Qed.

Lemma afterRead_settled w rnd path c :
  settle c = c → Validate (T := T) w c = None → afterRead w rnd path c = (w, Ok c).
Proof.
  intros Hs Hv. unfold afterRead, EnsureDNSCookieSecret. rewrite Hs.
  destruct (DNSCookiesEnabled (Security c)) eqn:Ec; cbn [negb]; [|by rewrite Hv].
  rewrite (validate_secret w c Hv Ec). cbn [negb]. by rewrite Hv.
Qed.
End load.

(** * Properties *)

(** loading a configuration a second time gives the same settings and
    changes no file: the defaults, the normal form of the update keys and the
    generated cookie secret, which is written out, are stable; and what is
    loaded is valid. *)
Theorem load_stable {MR : MapRange} {T : Type → Type} {RO : RadixOps T} {DT : DnsText}
    {TR : TCPResolver} {TM : Toml Config} {W} `{FR : FileReadLaws W}
    (w : W) (rnd rnd' : res string) path w' c :
  Load (T := T) w rnd path = (w', Ok c) →
  (∀ data, toml_marshal c = Ok data → toml_unmarshal data Default = Ok c) →
  Validate (T := T) w' c = None ∧ Load (T := T) w' rnd' path = (w', Ok c).
Proof.
  intros (Hp & w1 & data & cfg & Hr & Hu & Ha)%load_inv Hrt.
  revert Ha. unfold afterRead at 1.
  destruct (EnsureDNSCookieSecret w1 rnd path (settle cfg)) as [[w2 c2] [e|]] eqn:Ee; [done|].
  destruct (Validate w2 c2) eqn:Hv; [done|]. intros [= -> ->]. split; [done|].
  revert Ee. unfold EnsureDNSCookieSecret.
  destruct (DNSCookiesEnabled (Security (settle cfg))) eqn:Ec; cbn [negb].
  2: { intros [= -> <-]. rewrite (load_read _ _ _ data cfg) by done.
       unfold afterRead, EnsureDNSCookieSecret. rewrite Ec. cbn [negb]. by rewrite Hv. }
  destruct (blank _) eqn:Eb; cbn [negb].
  2: { intros [= -> <-]. rewrite (load_read _ _ _ data cfg) by done.
       unfold afterRead, EnsureDNSCookieSecret. rewrite Ec, Eb. cbn [negb]. by rewrite Hv. }
  destruct (generateDNSCookieSecret rnd) as [s|e]; [|done]. rewrite bool_decide_false by done.
  destruct (Write w1 path (set_secret s (settle cfg))) as [w3 e3] eqn:Ew. intros [= -> <- ->].
  apply write_inv in Ew as (d & Hm & Hrd). rewrite (load_read _ _ _ d _ Hp Hrd (Hrt d Hm)).
  apply afterRead_settled; [|done]. by rewrite settle_secret, settle_idemp.
Qed.

(** an update that repeats the settings in force changes nothing; applying
    an update twice is applying it once; and an update never clears the token
    of the API or the cookie secret. *)
Theorem merge_with_current (current incoming : Config) :
  MergeWithCurrent current current = current ∧
  MergeWithCurrent current (MergeWithCurrent current incoming) = MergeWithCurrent current incoming ∧
  (blank (AuthToken (API current)) = false →
     blank (AuthToken (API (MergeWithCurrent current incoming))) = false) ∧
  (blank (DNSCookieSecret (Security current)) = false →
     blank (DNSCookieSecret (Security (MergeWithCurrent current incoming))) = false).
Proof.
  split_and!; [| |apply or_text_default|apply or_text_default].
  - destruct current as [[] [] [] [] ? [] [] [] [] ? ? ? keys ? ? ? ?]. unfold MergeWithCurrent.
    cbn [Server TLS Listeners API ZonesDirectory Recursive Resolver Firewall Security RateLimit ECS
      Logging UpdateKeys XFR ACLs Views RPZs Listen Port EventLoops LogLevel DoT DoH CertFile KeyFile
      apiListen AuthToken TLSCert TLSKey Upstreams TrustedSubnets Mode QNameMinimization
      RootHintsFile AutoUpdateRootHints BlocklistsDirectory BlockAction DNSSECValidation
      DNSCookiesEnabled DNSCookieSecret SecRootAnchors].
    rewrite !or_text_same, or_int_same, !or_list_same. f_equal; repeat case_match; congruence.
  - unfold MergeWithCurrent at 1 3.
    cbn [Server TLS Listeners API ZonesDirectory Recursive Resolver Firewall Security RateLimit ECS
      Logging UpdateKeys XFR ACLs Views RPZs Listen Port EventLoops LogLevel DoT DoH
      apiListen AuthToken TLSCert TLSKey Upstreams TrustedSubnets Mode QNameMinimization
      RootHintsFile AutoUpdateRootHints BlocklistsDirectory BlockAction DNSSECValidation
      DNSCookiesEnabled DNSCookieSecret SecRootAnchors MergeWithCurrent].
    rewrite !or_text_idemp, or_int_idemp, !or_list_idemp.
    rewrite (unless_idemp tlsOmitted), (unless_idemp xfrOmitted), (unless_idemp aclOmitted),
      (unless_idemp viewsOmitted), (unless_idemp rpzOmitted).
    f_equal; [|by repeat case_match].
    destruct (blank (TLSCert (API incoming)) && blank (TLSKey (API incoming))) eqn:E;
      cbn beta iota; rewrite ?E; [by destruct (blank (TLSCert (API current)) && _)|done].
Qed.

Lemma blank_false s : negb (blank s) = true → trim_space s ≠ "".
Proof. unfold blank. intros H E. by rewrite E in H. Qed.

Lemma validated_names c : validateLogLevel (LogLevel (Server c)) = None →
  validateBlockAction (BlockAction (Firewall c)) = None → validateResolver c = None →
  (ResolverMode c = "forward" ∨ ResolverMode c = "iterative") ∧
  to_upper (trim_space (LogLevel (Server c))) ∈ ["DEBUG"; "INFO"; "WARN"; "WARNING"; "ERROR"] ∧
  to_upper (trim_space (BlockAction (Firewall c))) ∈ ["NXDOMAIN"; "ZEROIP"; ""].
Proof.
  unfold validateLogLevel, validateBlockAction, validateResolver. rewrite !check_none, !bool_decide_eq_true.
  intros Hl Hb Hm. split_and!; [|done..]. case_bool_decide; [by left|right].
  by rewrite check_none, bool_decide_eq_true in Hm.
Qed.

Lemma validated_texts {TR : TCPResolver} {W} {ST : FileStat W} (w : W) c :
  negb (blank (Listen (Server c))) = true → validateAPI w c = None → validateLogging c = None →
  trim_space (Listen (Server c)) ≠ "" ∧ trim_space (AuthToken (API c)) ≠ "" ∧
  trim_space (FilePath (Logging c)) ≠ "" ∧
  (1 ≤ MaxSizeMB (Logging c))%Z ∧ (0 ≤ MaxBackups (Logging c))%Z ∧ (0 ≤ MaxAgeDays (Logging c))%Z.
Proof.
  unfold validateAPI, validateLogging. rewrite !first_error_none, !Forall_cons, !check_none, Z.ltb_lt, !Z.leb_le.
  intros H1%blank_false (_ & _ & H2%blank_false & _) (H3%blank_false & H4 & H5 & H6 & _). split_and!; (done || lia).
Qed.

(** C39: a validated configuration is well typed: the port is 1 to 65535, the
    client subnet lengths are 0 to 32 and 0 to 128, so that none is cut when
    they are narrowed to a byte, the log file is at least one megabyte with no
    negative count of backups or days, rate and burst of a limiter that is on
    are at least one; the mode, the log level and the block action are among
    their names; listen address, API token and log file are not blank; and
    every part built from it is built without an error: the access engine, the
    policy engine, the forwarder with at least one upstream, the cookie secret
    of 32 bytes, the update keys. (The trust anchors and the trusted subnets
    are built too, and may fail.) *)
Theorem validated_config_builds {MR : MapRange} {T : Type → Type} {RO : RadixOps T} {DT : DnsText}
    {TR : TCPResolver} {W} {ST : FileStat W} (w : W) (c : Config) :
  Validate (T := T) w c = None →
  (1 ≤ Port (Server c) ≤ 65535)%Z ∧
  (∃ engine, BuildPolicyEngine c = Ok engine) ∧
  (∃ engine, BuildRPZEngine (T := T) c = Ok engine ∧ (engine = None ↔ rpzEnabled (RPZs c) = false)) ∧
  (ResolverMode c = "forward" → ∃ f addrs,
     NewForwarderFromConfig (Upstreams (Recursive c)) (DNSSECValidation (Security c)) (ecsOn (ECS c))
       (Z.to_N (IPv4PrefixLength (ECS c))) (Z.to_N (IPv6PrefixLength (ECS c))) = Ok f ∧
     f = MkForwarder addrs (DNSSECValidation (Security c)) (ecsOn (ECS c))
       (Z.to_N (IPv4PrefixLength (ECS c))) (Z.to_N (IPv6PrefixLength (ECS c))) ∧ addrs ≠ []) ∧
  (DNSCookiesEnabled (Security c) = true → ∃ secret, DNSCookieSecretBytes c = Ok secret ∧
     slen secret = 32) ∧
  map_Forall (λ _ secret, ∃ raw, decodeBase64Secret secret = Ok raw ∧ raw ≠ "")
    (default ∅ (UpdateKeys c)) ∧
  (rlEnabled (RateLimit c) = true →
     (1 ≤ RequestsPerSecond (RateLimit c))%Z ∧ (1 ≤ Burst (RateLimit c))%Z) ∧
  (0 ≤ IPv4PrefixLength (ECS c) ≤ 32)%Z ∧ (0 ≤ IPv6PrefixLength (ECS c) ≤ 128)%Z ∧
  (1 ≤ MaxSizeMB (Logging c))%Z ∧ (0 ≤ MaxBackups (Logging c))%Z ∧ (0 ≤ MaxAgeDays (Logging c))%Z ∧
  (ResolverMode c = "forward" ∨ ResolverMode c = "iterative") ∧
  to_upper (trim_space (LogLevel (Server c))) ∈ ["DEBUG"; "INFO"; "WARN"; "WARNING"; "ERROR"] ∧
  to_upper (trim_space (BlockAction (Firewall c))) ∈ ["NXDOMAIN"; "ZEROIP"; ""] ∧
  trim_space (Listen (Server c)) ≠ "" ∧ trim_space (AuthToken (API c)) ≠ "" ∧
  trim_space (FilePath (Logging c)) ≠ "".
Proof.
  unfold Validate. rewrite first_error_none, !Forall_cons, !check_none.
  intros (Hlisten & Hport & Hlevel & _ & _ & _ & Hblock & Hres & _ & Hapi & Hrl & Hsec & Hecs & Hupd & _ & Hacl &
    Hrpz & Hlog & _).
  pose proof (validated_names c Hlevel Hblock Hres) as (Hmode & Hlv & Hba).
  pose proof (validated_texts w c Hlisten Hapi Hlog) as (Ht1 & Ht2 & Ht3 & Hm1 & Hm2 & Hm3).
  apply andb_true_iff in Hport as [?%Z.leb_le ?%Z.leb_le].
  unfold validateECS in Hecs. rewrite first_error_none, !Forall_cons, !check_none in Hecs.
  destruct Hecs as ([?%Z.leb_le ?%Z.leb_le]%andb_true_iff & [?%Z.leb_le ?%Z.leb_le]%andb_true_iff & _).
  split_and!; try done; [by apply error_of_none in Hacl|by apply validateRPZ_builds| | | |].
  - intros Hm. unfold validateResolver in Hres. rewrite Hm, bool_decide_true in Hres by done.
    apply error_of_none in Hres as [addrs Ha]. exists (MkForwarder addrs (DNSSECValidation (Security c))
      (ecsOn (ECS c)) (Z.to_N (IPv4PrefixLength (ECS c))) (Z.to_N (IPv6PrefixLength (ECS c)))), addrs.
    split_and!; [apply validated_forwarder; [done|lia..]|done|by eapply validated_nonempty].
  - intros Hc. unfold validateSecurity in Hsec. destruct (ValidateRootAnchors _); [done|].
    rewrite Hc in Hsec. cbn [negb] in Hsec. unfold DNSCookieSecretBytes.
    destruct (bool_decide _); [done|].
    destruct (Nat.eqb_spec (slen (trim_space (DNSCookieSecret (Security c)))) 64) as [Hl|]; [|done].
    cbn [negb] in Hsec. destruct (hex_decode _) as [raw|e] eqn:Eh; [|done]. cbn [res_wrap res_bind].
    assert (Hlen : slen raw = 32).
    { unfold hex_decode in Eh. destruct (hex_pairs _) as [l|] eqn:El; [|done]. injection Eh as <-.
      apply hex_pairs_length in El. unfold slen in *. rewrite bytes_mk. lia. }
    rewrite Hlen. by exists raw.
  - unfold validateUpdate in Hupd. apply validateKeys_none in Hupd. rewrite Forall_forall in Hupd.
    intros k v Hk. apply (Hupd (k, v)). rewrite range_perm. by apply elem_of_map_to_list.
  - intros Hr. unfold validateRateLimit in Hrl. rewrite Hr in Hrl. cbn [negb] in Hrl.
    rewrite first_error_none, !Forall_cons, !check_none, !Z.leb_le in Hrl. tauto.
Qed.

(** * Witnesses *)
#[export] Instance demo_tcp : TCPResolver | 100 := {| resolve_tcp_addr a := None |}.

Definition demo_random : string := mk (repeat "a"%char 32).
Definition demo_config : Config := set_secret (hex_encode demo_random) (settle Default).

(** An encoding of one configuration. *)
#[export] Instance demo_toml : Toml Config | 100 := {|
  toml_unmarshal d base := Ok (if bool_decide (d = "saved") then demo_config else base);
  toml_marshal c := Ok "saved"
|}.

Lemma validated_config_builds_witness :
  ∃ secret, DNSCookieSecretBytes demo_config = Ok secret ∧ slen secret = 32.
Proof.
  destruct (validated_config_builds (T := gtree) (∅ : ram) demo_config) as (_ & _ & _ & _ & H & _);
    [by vm_compute|by apply H].
Defined.

Definition demo_load : ram * res Config :=
  Load (T := gtree) ({["arx.toml" := "first"]} : ram) (Ok demo_random) "arx.toml".

Lemma load_stable_witness :
  Load (T := gtree) demo_load.1 (Err (errNew "no entropy")) "arx.toml" =
    (demo_load.1, Ok (from_ok Default demo_load.2)).
Proof.
  apply (load_stable (T := gtree) ({["arx.toml" := "first"]} : ram) (Ok demo_random)
    (Err (errNew "no entropy")) "arx.toml" demo_load.1 (from_ok Default demo_load.2)).
  - rewrite <-from_ok_eq by by vm_compute. apply surjective_pairing.
  - intros data [= <-]. by vm_compute.
Defined.

Lemma merge_with_current_witness :
  blank (AuthToken (API (MergeWithCurrent demo_config (with_keys None Default)))) = false.
Proof.
  apply (merge_with_current demo_config (with_keys None Default)). by vm_compute.
Defined.

(** * Limits of the code *)

(** A length of zero, which the validation allows, means the default. *)
Lemma zero_prefix_is_default c :
  IPv4PrefixLength (ECS c) = 0%Z → IPv4PrefixLength (ECS (applyDefaults c)) = 24%Z.
Proof. intros E. cbn. by rewrite E. Qed.

(** An update that turns zone transfers off and clears their lists is taken for
    one that says nothing about them. *)
Lemma transfers_stay_on current incoming :
  XFR incoming = MkXFR false [] [] → XFR (MergeWithCurrent current incoming) = XFR current.
Proof. intros E. cbn. by rewrite E. Qed.

(** The stored form of a validated upstream may itself be invalid, so that the
    configuration that was applied is refused when it is loaded again. *)
Definition odd_upstream : Config := with_recursive (MkRecursive ["[:53]:53"] []) demo_config.
Lemma prepared_config_not_loadable :
  is_ok (PrepareForApply (T := gtree) (∅ : ram) odd_upstream) = true ∧
  is_none (Validate (T := gtree) (∅ : ram)
    (from_ok Default (PrepareForApply (T := gtree) (∅ : ram) odd_upstream))) = false.
Proof. by vm_compute. Qed.

(** A custom trust anchor that is no key-signing key passes the validation, and
    is refused when the anchors are loaded. *)
Definition zsk_line : DnsText :=
  {| type_string := type_string (DnsText := demo_dns_text);
     string_to_type := string_to_type (DnsText := demo_dns_text);
     rr_string := rr_string (DnsText := demo_dns_text);
     new_rr line := Ok (Some (Validator.demo_key "." 256 line));
     is_duplicate := is_duplicate (DnsText := demo_dns_text);
     canonical_name := canonical_name (DnsText := demo_dns_text);
     fqdn := fqdn (DnsText := demo_dns_text) |}.
Lemma zone_key_anchor_accepted :
  ValidateRootAnchors (DT := zsk_line) (MkSecurity true true "" ["key"]) = None ∧
  is_ok (Anchors.customAnchor (DT := zsk_line) "key") = false.
Proof. by vm_compute. Qed.

End Config.
