(* ===== verification/Summary.v ===== *)
(** * The summary logged at start-up: config/startup_summary.go

    One line per section of the configuration, with its texts quoted as Go
    quotes them. The table of printable runes above U+00FF is a parameter. *)
From S2P Require Import Prelude NetAddr Encoding Utf8 Config.
Import Config.

(** [unicode.IsPrint] above Latin-1. *)
Class PrintTable := { print_table : N → bool }.

Module Summary.
Section summary.
Context {PT : PrintTable}.

(** ** [strconv.Quote] *)

(** The code point of an accepted rune. *)
Definition rune_value (r : list ascii) : N :=
  match map code r with
  | [b0] => b0
  | [b0; b1] => (b0 - 192) * 64 + (b1 - 128)
  | [b0; b1; b2] => ((b0 - 224) * 64 + (b1 - 128)) * 64 + (b2 - 128)
  | [b0; b1; b2; b3] => (((b0 - 240) * 64 + (b1 - 128)) * 64 + (b2 - 128)) * 64 + (b3 - 128)
  | _ => 0
  end%N.

Definition is_print (v : N) : bool :=
  if (v <? 256)%N
  then ((32 <=? v) && (v <? 127) || (161 <=? v) && negb (v =? 173))%N
  else print_table v.

Fixpoint hex_of (digits : nat) (v : N) : list ascii :=
  match digits with
  | 0 => []
  | S d => hex_of d (v / 16) ++ [hex_digit (v mod 16)]
  end.
Definition escape (letter : ascii) : list ascii := ["\"%char; letter].
Definition quote_char : ascii := ascii_of_N 34.

Definition appendEscapedRune (r : list ascii) : list ascii :=
  let v := rune_value r in
  if (v =? 34)%N || (v =? 92)%N then "\"%char :: r
  else if is_print v then r
  else if (v =? 7)%N then escape "a" else if (v =? 8)%N then escape "b" else if (v =? 12)%N then escape "f"
  else if (v =? 10)%N then escape "n" else if (v =? 13)%N then escape "r" else if (v =? 9)%N then escape "t"
  else if (v =? 11)%N then escape "v"
  else if ((v <? 32) || (v =? 127))%N then escape "x" ++ hex_of 2 v
  else if (v <? 65536)%N then escape "u" ++ hex_of 4 v
  else escape "U" ++ hex_of 8 v.

Definition quote_rune (r : list ascii) : list ascii :=
  if Utf8.rune_ok r then appendEscapedRune r
  else escape "x" ++ hex_of 2 (match r with c :: _ => code c | [] => 0%N end).
Definition Quote (s : string) : string :=
  mk (quote_char :: concat (map quote_rune (Utf8.runes (bytes s))) ++ [quote_char]).

(** ** The fields *)
Definition summaryStr (key value : string) : string := key +:+ "=" +:+ Quote value.
Definition summaryInt (key : string) (value : Z) : string := key +:+ "=" +:+ itoa value.
Definition summaryBool (key : string) (value : bool) : string := key +:+ "=" +:+ (if value then "true" else "false").
Definition joinSummaryFields (parts : list string) : string :=
  join (List.filter (λ p, negb (bool_decide (p = ""))) parts) " ".
Definition formatMatchListSummary (elems : list string) : string :=
  match elems with
  | [] => "default"
  | _ => match nonblank elems with [] => "default" | parts => join parts "," end
  end.
Definition len {A} (l : list A) : Z := Z.of_nat (length l).

Record summarySection := MkSection { tag : string; fields : string }.

Definition startupSummarySections (c : Config) (configPath : string) : list summarySection := [
  MkSection "[server]" (joinSummaryFields [summaryStr "config" configPath; summaryStr "listen" (ListenAddress c);
    summaryInt "event_loops" (EventLoops (Server c)); summaryStr "log_level" (LogLevel (Server c))]);
  MkSection "[tls]" (joinSummaryFields [summaryStr "cert_file" (CertFile (TLS c)); summaryStr "key_file" (KeyFile (TLS c))]);
  MkSection "[listeners]" (joinSummaryFields [summaryStr "dot" (DoT (Listeners c)); summaryStr "doh" (DoH (Listeners c));
    summaryBool "encrypted_dns" (EncryptedDNSEnabled c)]);
  MkSection "[api]" (joinSummaryFields [summaryStr "listen" (apiListen (API c));
    summaryBool "tls" (negb (blank (TLSCert (API c))) && negb (blank (TLSKey (API c))))]);
  MkSection "[zones]" (joinSummaryFields [summaryStr "directory" (ZonesDirectory c)]);
  MkSection "[recursive]" (joinSummaryFields [summaryInt "upstreams" (len (Upstreams (Recursive c)));
    summaryInt "trusted_subnets" (len (TrustedSubnets (Recursive c)))]);
  MkSection "[resolver]" (joinSummaryFields [summaryStr "mode" (ResolverMode c);
    summaryBool "qname_minimization" (QNameMinimization (Resolver c));
    summaryStr "root_hints_file" (RootHintsFile (Resolver c));
    summaryBool "auto_update_root_hints" (AutoUpdateRootHints (Resolver c))]);
  MkSection "[firewall]" (joinSummaryFields [summaryStr "blocklists" (BlocklistsDirectory (Firewall c));
    summaryStr "block_action" (BlockAction (Firewall c))]);
  MkSection "[rpz]" (joinSummaryFields [summaryBool "enabled" (rpzEnabled (RPZs c));
    summaryInt "policies" (len (Policies (RPZs c)))]);
  MkSection "[security]" (joinSummaryFields [summaryBool "dnssec_validation" (DNSSECValidation (Security c));
    summaryBool "dns_cookies_enabled" (DNSCookiesEnabled (Security c));
    summaryBool "dns_cookie_secret" (negb (blank (DNSCookieSecret (Security c))))]);
  MkSection "[rate_limit]" (joinSummaryFields [summaryBool "enabled" (rlEnabled (RateLimit c));
    summaryInt "requests_per_second" (RequestsPerSecond (RateLimit c)); summaryInt "burst" (Burst (RateLimit c))]);
  MkSection "[ecs]" (joinSummaryFields [summaryBool "enabled" (ecsOn (ECS c));
    summaryInt "ipv4_prefix_length" (IPv4PrefixLength (ECS c)); summaryInt "ipv6_prefix_length" (IPv6PrefixLength (ECS c))]);
  MkSection "[logging]" (joinSummaryFields [summaryStr "file_path" (FilePath (Logging c));
    summaryInt "max_size_mb" (MaxSizeMB (Logging c)); summaryInt "max_backups" (MaxBackups (Logging c));
    summaryInt "max_age_days" (MaxAgeDays (Logging c))]);
  MkSection "[update]" (joinSummaryFields [summaryInt "keys" (Z.of_nat (size (default ∅ (UpdateKeys c))))]);
  MkSection "[xfr]" (joinSummaryFields [summaryBool "enabled" (xfrEnabled (XFR c));
    summaryInt "allowed_subnets" (len (AllowedSubnets (XFR c))); summaryInt "notify_slaves" (len (NotifySlaves (XFR c)))]);
  MkSection "[acl]" (joinSummaryFields [summaryInt "match_lists" (Z.of_nat (size (default ∅ (Lists (ACLs c)))));
    summaryStr "queries" (formatMatchListSummary (AllowQuery (ACLs c)));
    summaryStr "recursion" (formatMatchListSummary (AllowRecursion (ACLs c)));
    summaryStr "transfer" (formatMatchListSummary (AllowTransfer (ACLs c)));
    summaryInt "zone_overrides" (Z.of_nat (size (Zones (ACLs c))))]);
  MkSection "[views]" (joinSummaryFields [summaryStr "default" (v_Default (Views c));
    summaryInt "entries" (len (Entries (Views c)))])
].

Definition spaces (n : nat) : string := mk (replicate n " "%char).
Definition max_tag (l : list summarySection) : nat := foldr (λ s m, Nat.max m (slen (tag s))) 0 l.
Definition section_line (width : nat) (s : summarySection) : string :=
  "  " +:+ tag s +:+ spaces (width - slen (tag s)) +:+ " " +:+ fields s.
Definition nl : string := mk [ascii_of_N 10].

Definition FormatStartupSummary (c : Config) (configPath : string) : string :=
  let sections := startupSummarySections c configPath in
  let text := "configuration loaded successfully:" +:+ nl +:+
    foldr (λ s t, section_line (max_tag sections) s +:+ nl +:+ t) "" sections in
  mk (rev (drop_while (is_char (ascii_of_N 10)) (rev (bytes text)))).

(** * Lemmas *)

(** Bytes that move no cursor: neither control characters nor DEL. *)
Definition clean (c : ascii) : Prop := (32 ≤ code c ∧ code c ≠ 127)%N.
#[local] Instance clean_dec c : Decision (clean c).
Proof. unfold clean. apply _. Defined.
Abbreviation cleans := (Forall clean).
Definition clean_text (s : string) : Prop := cleans (bytes s).

Lemma clean_app s t : clean_text (s +:+ t) ↔ clean_text s ∧ clean_text t.
Proof. unfold clean_text. by rewrite bytes_app, Forall_app. Qed.
Lemma clean_const s : bool_decide (cleans (bytes s)) = true → clean_text s.
Proof. apply bool_decide_eq_true. Qed.

Lemma hex_digit_clean n : (n < 16)%N → clean (hex_digit n).
Proof. intros H. unfold clean, hex_digit. destruct (N.ltb_spec n 10); rewrite code_of_N; lia. Qed.
Lemma hex_clean d v : cleans (hex_of d v).
Proof.
  revert v. induction d as [|d IH]; intros v; cbn; [constructor|]. apply Forall_app. split; [apply IH|].
  repeat constructor; apply hex_digit_clean, N.mod_lt; done.
Qed.

Ltac const_clean := apply (bool_decide_unpack _); vm_compute; exact I.
Lemma backslash_clean : clean "\".
Proof. const_clean. Qed.
Lemma letters_clean l : l ∈ ["a"; "b"; "f"; "n"; "r"; "t"; "v"; "x"; "u"; "U"]%char → clean l.
Proof. revert l. apply Forall_forall. const_clean. Qed.

Lemma escape_clean letter l : letter ∈ ["a"; "b"; "f"; "n"; "r"; "t"; "v"; "x"; "u"; "U"]%char → cleans l →
  cleans (escape letter ++ l).
Proof. intros Hc Hl. cbn. constructor; [apply backslash_clean|]. constructor; [by apply letters_clean|done]. Qed.

Lemma rune_clean r : cleans r → cleans (appendEscapedRune r).
Proof.
  intros Hr. unfold appendEscapedRune. destruct (_ || _); [constructor; [apply backslash_clean|done]|].
  destruct (is_print _); [done|].
  repeat (destruct (rune_value r =? _)%N;
    [rewrite <-(app_nil_r (escape _)); apply escape_clean; [by repeat (left || right)|constructor]|]).
  destruct (_ || _); [|destruct (rune_value r <? 65536)%N]; apply escape_clean;
    (by repeat (left || right)) || apply hex_clean.
Qed.

Lemma ascii_rune_clean c : cleans (appendEscapedRune [c]).
Proof.
  apply (bool_decide_eq_true (cleans _)). destruct c as [b0 b1 b2 b3 b4 b5 b6 b7].
  destruct b0, b1, b2, b3, b4, b5, b6, b7; vm_compute; reflexivity.
Qed.

Lemma high_clean c : Utf8.high c = true → clean c.
Proof. unfold Utf8.high, clean. intros ?%N.leb_le. lia. Qed.

Lemma quote_clean s : clean_text (Quote s).
Proof.
  unfold clean_text, Quote. rewrite bytes_mk. constructor; [const_clean|]. apply Forall_app. split; [|by repeat constructor].
  apply Forall_concat, Forall_map. eapply Forall_impl; [apply Utf8.runes_high|]. intros r Hr. unfold quote_rune.
  destruct (Utf8.rune_ok r); [|apply escape_clean; [by repeat (left || right)|apply hex_clean]].
  destruct Hr as [Hr|[c ->]]; [|apply ascii_rune_clean]. apply rune_clean. eapply Forall_impl; [exact Hr|apply high_clean].
Qed.

Lemma digits_clean n : clean_text (format_uint n).
Proof.
  destruct (format_uint_digits n) as (_ & Hd & _). eapply Forall_impl; [exact Hd|]. intros c. unfold is_digit, clean.
  intros [?%N.leb_le ?%N.leb_le]%andb_true_iff. lia.
Qed.

Lemma itoa_clean n : clean_text (itoa n).
Proof. unfold itoa. destruct (n <? 0)%Z; [apply clean_app; split; [by apply clean_const|]|]; apply digits_clean. Qed.

Lemma join_clean l sep : clean_text sep → Forall clean_text l → clean_text (join l sep).
Proof.
  intros Hs Hl. unfold clean_text. rewrite bytes_join. induction Hl as [|w [|v l] Hw Hl IH]; cbn in *; [constructor|done|].
  apply Forall_app. split; [done|]. by apply Forall_app.
Qed.

Lemma fields_clean l : Forall clean_text l → clean_text (joinSummaryFields l).
Proof. intros Hl. apply join_clean; [by apply clean_const|]. 
  induction Hl as [|p l Hp _ IH]; cbn; [constructor|]. destruct (negb _); [by constructor|done].
Qed.

Lemma str_clean k v : clean_text k → clean_text (summaryStr k v).
Proof. intros Hk. unfold summaryStr. rewrite !clean_app. split_and!; [done|by apply clean_const|apply quote_clean]. Qed.
Lemma int_clean k v : clean_text k → clean_text (summaryInt k v).
Proof. intros Hk. unfold summaryInt. rewrite !clean_app. split_and!; [done|by apply clean_const|apply itoa_clean]. Qed.
Lemma bool_clean k v : clean_text k → clean_text (summaryBool k v).
Proof. intros Hk. unfold summaryBool. rewrite !clean_app. split_and!; [done|by apply clean_const|by destruct v; apply clean_const]. Qed.

Lemma sections_clean c path : Forall (λ s, clean_text (tag s) ∧ clean_text (fields s)) (startupSummarySections c path).
Proof.
  unfold startupSummarySections.
  repeat match goal with
    | |- Forall _ (_ :: _) => apply Forall_cons_2
    | |- Forall _ [] => apply Forall_nil_2
    | |- _ ∧ clean_text _ => split; cbn [tag fields]; [by apply clean_const|apply fields_clean]
    end; (apply str_clean || apply int_clean || apply bool_clean); by apply clean_const.
Qed.

(** ** Lines *)
Definition newline : ascii := ascii_of_N 10.
Lemma clean_not_newline c : clean c → is_char newline c = false.
Proof. intros [Hc _]. apply bool_decide_eq_false. intros ->. by vm_compute in Hc. Qed.

Lemma terminated_lines ws : ws ≠ [] → concat (map (λ w, w ++ [newline]) ws) = join_with [newline] ws ++ [newline].
Proof.
  intros Hne. induction ws as [|w [|v ws] IH]; [done|cbn; by rewrite app_nil_r|].
  change (concat (map _ (w :: v :: ws))) with ((w ++ [newline]) ++ concat (map (λ w, w ++ [newline]) (v :: ws))).
  rewrite IH by done. change (join_with [newline] (w :: v :: ws)) with (w ++ [newline] ++ join_with [newline] (v :: ws)).
  by rewrite <-!app_assoc.
Qed.

(** A text of clean lines, the last of them not empty, does not end in a newline. *)
Lemma last_line_end ws w : w ≠ [] → cleans w → starts_ok (is_char newline) (rev (join_with [newline] (ws ++ [w]))).
Proof.
  intros Hne Hc. assert (∃ l, join_with [newline] (ws ++ [w]) = l ++ w) as [l ->].
  { induction ws as [|v ws [l IH]]; [by exists []|]. exists (v ++ newline :: l). rewrite <-app_assoc. cbn [app]. rewrite <-IH.
    by destruct ws. }
  rewrite rev_app_distr. destruct w as [|c w _] using rev_ind; [done|]. rewrite rev_app_distr. cbn.
  apply clean_not_newline. apply Forall_app in Hc as [_ Hc]. by apply Forall_cons in Hc as [? _].
Qed.

Lemma line_clean n s : clean_text (tag s) → clean_text (fields s) → clean_text (section_line n s).
Proof.
  intros Ht Hf. unfold section_line. rewrite !clean_app. split_and!; [by apply clean_const|done| |by apply clean_const|done].
  unfold clean_text, spaces. rewrite bytes_mk. apply Forall_replicate. const_clean.
Qed.

Definition lines_of (c : Config) (path : string) : list string :=
  "configuration loaded successfully:" :: map (section_line 12) (startupSummarySections c path).

Lemma lines_clean c path : Forall clean_text (lines_of c path).
Proof.
  constructor; [by apply clean_const|]. apply Forall_map. eapply Forall_impl; [apply sections_clean|].
  intros s [Ht Hf]. by apply line_clean.
Qed.

Lemma summary_bytes c path : bytes (FormatStartupSummary c path) = join_with [newline] (map bytes (lines_of c path)).
Proof.
  unfold FormatStartupSummary. rewrite bytes_mk. change (max_tag _) with 12.
  set (ls := map bytes (lines_of c path)). set (ss := startupSummarySections c path).
  assert (E : bytes ("configuration loaded successfully:" +:+ nl +:+
    foldr (λ s t, section_line 12 s +:+ nl +:+ t) "" ss) = concat (map (λ w, w ++ [newline]) ls)).
  { unfold ls, lines_of. fold ss. rewrite !bytes_app. cbn [map concat]. rewrite <-app_assoc. f_equal. f_equal.
    induction ss as [|s ss IH]; [done|]. cbn [foldr map concat]. rewrite !bytes_app, IH. by rewrite <-app_assoc. }
  rewrite E, terminated_lines by done. rewrite rev_app_distr. cbn [rev app].
  change (ascii_of_N 10) with newline. assert (Hn : is_char newline newline = true) by done.
  cbn [drop_while]. rewrite Hn, drop_while_id; [apply rev_involutive|].
  assert (∃ ws w, ls = ws ++ [w] ∧ w ≠ [] ∧ cleans w) as (ws & w & -> & Hne & Hw); [|by apply last_line_end].
  pose proof (lines_clean c path) as Hc. unfold ls. revert Hc. unfold lines_of. cbn [startupSummarySections map].
  intros Hc. eexists (_ :: _ :: _ :: _ :: _ :: _ :: _ :: _ :: _ :: _ :: _ :: _ :: _ :: _ :: _ :: _ :: _ :: []), _.
  split; [reflexivity|]. split; [done|]. by repeat (apply Forall_cons in Hc as [? Hc]).
Qed.

(** * Properties *)

(** no setting can forge a line of the log: whatever the texts of the
    configuration and the path, the summary is the heading and one line for each
    of the seventeen sections, with the name of the section and its fields in
    columns, and no line holds a control character. *)
Theorem summary_lines c path :
  split (FormatStartupSummary c path) newline =
    "configuration loaded successfully:" :: map (section_line 12) (startupSummarySections c path) ∧
  length (split (FormatStartupSummary c path) newline) = 18 ∧
  Forall clean_text (split (FormatStartupSummary c path) newline).
Proof.
  assert (E : split (FormatStartupSummary c path) newline = lines_of c path).
  { unfold split. rewrite summary_bytes, split_join_with; [apply map_mk_bytes|done|].
    apply Forall_map. eapply Forall_impl; [apply lines_clean|]. intros w Hw. eapply Forall_impl; [exact Hw|].
    apply clean_not_newline. }
  rewrite E. split_and!; [done|done|apply lines_clean].
Qed.

(** The configuration without its secrets: the token of the API, the secret of
    the cookies, of which only whether there is one stays, and those of the
    update keys. *)
Definition redact (c : Config) : Config :=
  let s := Security c in
  let c := with_security (MkSecurity (DNSSECValidation s) (DNSCookiesEnabled s)
    (if blank (DNSCookieSecret s) then "" else "set") (SecRootAnchors s)) c in
  let c := with_keys (fmap (M := gmap string) (λ _, "") <$> UpdateKeys c) c in
  MkConfig (Server c) (TLS c) (Listeners c) (MkAPI (apiListen (API c)) "" (TLSCert (API c)) (TLSKey (API c)))
    (ZonesDirectory c) (Recursive c) (Resolver c) (Firewall c) (Security c) (RateLimit c) (ECS c) (Logging c)
    (UpdateKeys c) (XFR c) (ACLs c) (Views c) (RPZs c).

(** the summary tells nothing of the secrets: it is the same for every
    configuration that differs in them alone. *)
Theorem summary_hides_secrets c path : FormatStartupSummary c path = FormatStartupSummary (redact c) path.
Proof.
  unfold FormatStartupSummary. enough (startupSummarySections (redact c) path = startupSummarySections c path) as -> by done.
  assert (Hk : size (default ∅ (UpdateKeys (redact c))) = size (default ∅ (UpdateKeys c)))
    by (cbn; destruct (UpdateKeys c); cbn; [apply map_size_fmap|done]).
  assert (Hb : blank (DNSCookieSecret (Security (redact c))) = blank (DNSCookieSecret (Security c)))
    by (cbn; by destruct (blank (DNSCookieSecret (Security c)))).
  unfold startupSummarySections. by rewrite Hk, Hb.
Qed.
End summary.
End Summary.
