(* ===== verification/RootHints.v ===== *)
(** * Root hints: internal/dnsproc/roothints.go

    The addresses of the root servers: the cached file, its refresh from
    InterNIC, its parsing, and the built-in list when all fails. The download
    is an interface: the lookup of InterNIC's address through an upstream and
    the HTTP request over a dialled address. Times are in seconds. *)
From S2P Require Import Prelude NetAddr Encoding Dns Cache Files Upstream Config.
Import Upstream.

(** [net.Resolver.LookupIP] at a server, and an HTTP GET of the fetch URL over
    a connection to an address: status and body, with the error that may end
    the body. *)
Class HintsNet (X : Type) := {
  lookup_internic : string → X → res (list net_ip) * X;
  http_get : string → X → res (N * (string * option error)) * X
}.

Module RootHints.

Definition rootHintsCacheMaxAge := 2592000%N.
Definition rootHintsHTTPMaxBytes := 1048576%N.
Definition internicBootstrapHost := "www.internic.net".
Definition internicStaticIPv4 := "192.0.32.9".
(** Where the URL of the hints is fetched from, in the form the HTTP client dials. *)
Definition rootHintsFetchAddress := "www.internic.net:443".

(** ** Parsing *)

Definition normalizeRootHintAddress (raw : string) : res string :=
  let raw := trim_space raw in
  if bool_decide (raw = "") then Err (errNew "empty root hint address")
  else
    let? parsed := res_wrap "invalid root hint IP %q: %w" (ParseUpstreamAddress raw) in
    if bool_decide (net_parse_ip (trim_brackets parsed) = IPNil) then
      let host := match SplitHostPort parsed with inl (host, _) => host | inr _ => parsed end in
      if bool_decide (net_parse_ip (trim_brackets host) = IPNil)
      then Err (errNew "invalid root hint IP %q") else Ok parsed
    else Ok parsed.

(** The address field of a line, where it has one to read. *)
Definition hintField (text : string) : option string :=
  let line := trim_space text in
  if bool_decide (line = "") || has_prefix line ";" then None
  else
    match fields line with
    | _ :: _ :: rrType :: a :: _ =>
        if negb (bool_decide (rrType = "A")) && negb (bool_decide (rrType = "AAAA")) then None
        else Some a
    | _ => None
    end.

Fixpoint hintLoop (lines : list string) : res (list string) :=
  match lines with
  | [] => Ok []
  | l :: lines =>
      match hintField l with
      | None => hintLoop lines
      | Some a =>
          let? addr := normalizeRootHintAddress a in
          let? out := hintLoop lines in
          Ok (addr :: out)
      end
  end.

Definition parseRootHints (data : string) : res (list string) :=
  let '(lines, scanErr) := scan_text data in
  let? out := hintLoop lines in
  match scanErr with
  | Some e => Err (errWrap "parse root hints: %w" e)
  | None => NormalizeUpstreams out
  end.

(** ** The file *)
Section hints.
Context {W : Type} {FS : FileSys W} {ST : FileStat W} {X : Type} {HN : HintsNet X}.

Definition loadRootHintsFromFile (w : W) (cachePath : string) : res (list string) :=
  let? data := res_wrap "read root hints file %q: %w" (fs_read w cachePath) in
  let? hints := parseRootHints data in
  if bool_decide (hints = [])
  then Err (errNew "no root hint addresses found in root hints file") else Ok hints.

Definition writeRootHintsCache (w : W) (cachePath body : string) : W * option error :=
  let dir := path_dir cachePath in
  let '(w, made) :=
    if negb (bool_decide (dir = "")) && negb (bool_decide (dir = ".")) then fs_mkdir_all w dir
    else (w, None) in
  match made with
  | Some e => (w, Some (errWrap "create root hints cache directory: %w" e))
  | None =>
      let tmp := cachePath +:+ ".tmp" in
      match os_write_file w tmp body with
      | (w, Some e) => (w, Some (errWrap "write root hints cache temp file: %w" e))
      | (w, None) =>
          match fs_rename w tmp cachePath with
          | (w, Some e) => drop_tmp w tmp "replace root hints cache: %w" e
          | (w, None) => (w, None)
          end
      end
  end.

(** ** The download *)
Definition resolveInternicViaUpstream (cfg : option Config.Config) (x : X) : string * X :=
  match cfg with
  | None => ("", x)
  | Some cfg =>
      match NormalizedUpstreams (Config.Upstreams (Config.Recursive cfg)) with
      | Err _ | Ok [] => ("", x)
      | Ok (first :: _) =>
          match SplitHostPort first with
          | inr _ => ("", x)
          | inl (host, port) =>
              let port := if bool_decide (port = "") then "53" else port in
              match lookup_internic (JoinHostPort host port) x with
              | (Ok (ip :: _), x) => (net_ip_string ip, x)
              | (_, x) => ("", x)
              end
          end
      end
  end.

(** [rootHintsDialContext]: the address that is dialled. *)
Definition rootHintsDial (cfg : option Config.Config) (addr : string) (x : X) : res string * X :=
  match SplitHostPort addr with
  | inr why => (Err (errNew why), x)
  | inl (host, port) =>
      let '(dialHost, x) :=
        if equal_fold host internicBootstrapHost then
          let '(ip, x) := resolveInternicViaUpstream cfg x in
          (if negb (bool_decide (ip = "")) then ip else internicStaticIPv4, x)
        else (host, x) in
      (Ok (JoinHostPort dialHost port), x)
  end.

Definition downloadRootHints (cfg : option Config.Config) (x : X) : res string * X :=
  let '(target, x) := rootHintsDial cfg rootHintsFetchAddress x in
  match target with
  | Err e => (Err (errWrap "fetch root hints from %s: %w" e), x)
  | Ok target =>
      match http_get target x with
      | (Err e, x) => (Err (errWrap "fetch root hints from %s: %w" e), x)
      | (Ok (status, body), x) =>
          (if negb (status =? 200)%N
           then Err (errNew "fetch root hints from %s: unexpected status %s")
           else
             let? body := res_wrap "read root hints response: %w"
                            (read_limited rootHintsHTTPMaxBytes body) in
             if bool_decide (body = "") then Err (errNew "root hints response body is empty")
             else Ok body, x)
      end
  end.

(** ** Loading *)

(** A download, the file it replaces, and what is read of it; without a
    download, the old file. *)
Definition refresh (cfg : option Config.Config) (cachePath : string) (w : W) (x : X)
    : res (list string) * W * X :=
  match downloadRootHints cfg x with
  | (Err e, x) =>
      (match fs_read w cachePath with
       | Ok data =>
           match parseRootHints data with
           | Ok (h :: hints) => Ok (h :: hints)
           | _ => Err e
           end
       | Err _ => Err e
       end, w, x)
  | (Ok body, x) =>
      match writeRootHintsCache w cachePath body with
      | (w, Some e) => (Err e, w, x)
      | (w, None) => (loadRootHintsFromFile w cachePath, w, x)
      end
  end.

Definition FetchOrLoadRootHints (cfg : option Config.Config) (cachePath : string) (autoUpdate : bool)
    (now : N) (w : W) (x : X) : res (list string) * W * X :=
  let cachePath := trim_space cachePath in
  if bool_decide (cachePath = "") then (Err (errNew "root hints cache path must not be empty"), w, x)
  else if negb autoUpdate then (loadRootHintsFromFile w cachePath, w, x)
  else
    match fs_stat w cachePath with
    | Ok modTime =>
        if (now <? modTime + rootHintsCacheMaxAge)%N
        then (loadRootHintsFromFile w cachePath, w, x) else refresh cfg cachePath w x
    | Err e =>
        if negb (fs_is_not_exist e) then (Err (errWrap "stat root hints cache %q: %w" e), w, x)
        else refresh cfg cachePath w x
    end.

Definition LoadRootHints (cfg : option Config.Config) (cachePath : string) (autoUpdate : bool)
    (fallback : list string) (now : N) (w : W) (x : X) : list string * W * X :=
  let '(r, w, x) := FetchOrLoadRootHints cfg cachePath autoUpdate now w x in
  match r with
  | Ok hints => (hints, w, x)
  | Err _ =>
      match NormalizeUpstreams fallback with
      | Err _ => ([], w, x)
      | Ok normalized => (normalized, w, x)
      end
  end.
End hints.

(** * Lemmas *)
Section lemmas.
Context {W : Type} {FS : FileSys W} {ST : FileStat W} {FL : FileSysLaws W} {X : Type} {HN : HintsNet X}.

(** The cache is replaced as a whole or left alone. *)
Lemma writeCache_spec w path body w' e : writeRootHintsCache w path body = (w', e) →
  replaced w w' path body e.
Proof.
  unfold writeRootHintsCache, replaced. pose proof (not_eq_sym (tmp_ne path)) as Ht.
  set (m := if negb _ && negb _ then fs_mkdir_all w (path_dir path) else (w, None)).
  assert (Hm : ∀ q, fs_file m.1 q = fs_file w q) by (intros q; subst m; destruct (_ && _); [apply mkdir_files|done]).
  destruct m as [w1 [e1|]]; cbn [fst] in Hm; [by intros [= <- <-]|].
  pose proof (os_write_other w1 (path +:+ ".tmp") body) as H2.
  destruct (os_write_file w1 (path +:+ ".tmp") body) as [w2 [e2|]] eqn:E2; cbn [fst] in H2.
  { intros [= <- <-]. split; [by rewrite H2, Hm|]. intros q ? ?. by rewrite H2, Hm. }
  apply os_write_file_ok in E2 as Hw. apply swap_tmp_replaced; [|done].
  intros q Hq. by rewrite H2, Hm.
Qed.

Lemma loaded_nonempty w path hints : loadRootHintsFromFile w path = Ok hints → hints ≠ [].
Proof.
  unfold loadRootHintsFromFile. destruct (res_wrap _ (fs_read w path)) as [data|]; [|done].
  cbn [res_bind]. destruct (parseRootHints data) as [l|]; [|done]. cbn [res_bind].
  case_bool_decide; [done|]. by intros [= <-].
Qed.

(** The files a call leaves: the cache is the old one or a whole download. *)
Definition cache_intact (cfg : option Config.Config) (path : string) (w w' : W) (x : X) : Prop :=
  (fs_file w' path = fs_file w path ∨
   ∃ body x', downloadRootHints cfg x = (Ok body, x') ∧ fs_file w' path = Some body) ∧
  ∀ q, q ≠ path → q ≠ path +:+ ".tmp" → fs_file w' q = fs_file w q.

Lemma cache_intact_refl cfg path w x : cache_intact cfg path w w x.
Proof. split; [by left|done]. Qed.

Definition fresh (w : W) (path : string) (now : N) : Prop :=
  ∃ modTime, fs_stat w path = Ok modTime ∧ (now < modTime + rootHintsCacheMaxAge)%N.

Lemma fetch_spec cfg path auto now w x r w' x' :
  FetchOrLoadRootHints cfg path auto now w x = (r, w', x') →
  cache_intact cfg (trim_space path) w w' x ∧
  (∀ hints, r = Ok hints → hints ≠ []) ∧
  (auto = false ∨ fresh w (trim_space path) now → w' = w ∧ x' = x).
Proof.
  unfold FetchOrLoadRootHints. set (p := trim_space path). pose proof (cache_intact_refl cfg p w x) as Hr.
  case_bool_decide; [intros [= <- <- <-]; by split_and!|].
  destruct auto; cbn [negb]; [|intros [= <- <- <-]; split_and!; [done|by apply loaded_nonempty|done]].
  assert (Hf : refresh cfg p w x = (r, w', x') →
    cache_intact cfg p w w' x ∧ ∀ hints, r = Ok hints → hints ≠ []).
  { unfold refresh. destruct (downloadRootHints cfg x) as [[body|e] x1] eqn:Ed.
    - destruct (writeRootHintsCache w p body) as [w1 e1] eqn:Ew. apply writeCache_spec in Ew as [H1 H2].
      destruct e1 as [e1|]; intros [= <- <- <-].
      + split; [|done]. split; [by left|done].
      + split; [|by apply loaded_nonempty]. split; [|done]. right. by exists body, x1.
    - intros [= <- <- <-]. split; [done|]. intros hints.
      destruct (fs_read w p) as [data|]; [|done].
      destruct (parseRootHints data) as [[|h hs]|]; [done| |done]. by intros [= <-]. }
  destruct (fs_stat w p) as [m|e] eqn:Es.
  - destruct (N.ltb_spec now (m + rootHintsCacheMaxAge)) as [?|Hn].
    + intros [= <- <- <-]. split_and!; [done|by apply loaded_nonempty|done].
    + intros E. apply Hf in E as [? ?]. split_and!; [done..|].
      intros [?|(m' & Em & ?)]; [done|]. rewrite Es in Em. injection Em as <-. lia.
  - destruct (negb (fs_is_not_exist e)); [intros [= <- <- <-]; by split_and!|].
    intros E. apply Hf in E as [? ?]. split_and!; [done..|].
    intros [?|(m' & Em & ?)]; [done|]. by rewrite Es in Em.
Qed.
End lemmas.

(** ** IPv4 hints *)
Lemma mem_char_none c l : Forall (λ x, is_char c x = false) l → mem_char c l = false.
Proof. unfold mem_char. induction 1 as [|x l Hx Hl IH]; cbn [existsb]; [done|]. by rewrite Hx. Qed.

Lemma split_last_none c l : Forall (λ x, is_char c x = false) l → split_last c l = None.
Proof.
  intros Hl. unfold split_last.
  assert (E : take_until (is_char c) (reverse l) = reverse l).
  { apply Forall_reverse in Hl. induction Hl as [|x k Hx Hk IH]; cbn [take_until]; [done|].
    by rewrite Hx, IH. }
  rewrite E. by rewrite Nat.ltb_irrefl.
Qed.

Lemma contains_suffix (a b s : string) : contains s b = true → contains (a +:+ s) b = true.
Proof.
  unfold contains. rewrite bytes_app. intros Hs.
  induction (bytes a) as [|x l IH]; cbn [app sub_at]; [done|]. by rewrite IH, orb_true_r.
Qed.

Lemma ipv4_hint n : (n < 2 ^ 32)%N →
  trim_space (format_ipv4 n) = format_ipv4 n ∧
  ParseUpstreamAddress (format_ipv4 n) = Ok (format_ipv4 n) ∧
  normalizeRootHintAddress (format_ipv4 n) = Ok (format_ipv4 n).
Proof.
  intros Hn. destruct (format_ipv4_chars n) as (HF & Hne & _).
  assert (Hc : ∀ p, (∀ c, ipv4_char c → p c = false) → Forall (λ c, p c = false) (bytes (format_ipv4 n)))
    by (intros p Hp; eapply Forall_impl; [exact HF|exact Hp]).
  assert (Hst : ∀ (p : ascii → bool) l, Forall (λ c, p c = false) l → starts_ok p l)
    by (by intros p [|c l] Hl; inversion Hl).
  assert (Htrim : ∀ p, (∀ c, ipv4_char c → p c = false) →
    trim p (bytes (format_ipv4 n)) = bytes (format_ipv4 n)).
  { intros p Hp. apply trim_id; apply Hst; [|apply Forall_reverse]; by apply Hc. }
  assert (Ht : trim_space (format_ipv4 n) = format_ipv4 n).
  { unfold trim_space. rewrite Htrim; [by apply mk_bytes|]. apply ipv4_char_plain. }
  assert (Hb : trim_brackets (format_ipv4 n) = format_ipv4 n).
  { unfold trim_brackets. rewrite Htrim; [by apply mk_bytes|].
    intros c Hx. by destruct (ipv4_char_plain c Hx) as (_ & _ & -> & -> & _). }
  assert (Hp : parse_ip (format_ipv4 n) = Some (ip16 (A4 n))).
  { unfold parse_ip. by rewrite ipv4_roundtrip. }
  assert (Hs : SplitHostPort (format_ipv4 n) = inr missingPort).
  { unfold SplitHostPort. rewrite split_last_none; [done|]. apply Hc. apply ipv4_char_plain. }
  assert (Hu : ParseUpstreamAddress (format_ipv4 n) = Ok (format_ipv4 n)).
  { unfold ParseUpstreamAddress. rewrite Ht, bool_decide_eq_false_2 by done. cbv zeta. rewrite Hs.
    unfold addrErrorText. rewrite contains_suffix by (rewrite contains_suffix by (by apply contains_suffix); done).
    unfold validateUpstreamHost. rewrite Hb, bool_decide_eq_false_2 by done. by rewrite Hp. }
  split_and!; [done..|]. unfold normalizeRootHintAddress.
  rewrite Ht, bool_decide_eq_false_2 by done. rewrite Hu. cbn [res_wrap res_bind].
  rewrite Hb. unfold net_parse_ip. rewrite Hp. done.
Qed.

(** ** Lines *)
Definition newline : ascii := ascii_of_N 10.
Definition line_ok (l : string) : Prop :=
  Forall (λ c, is_char newline c = false) (bytes l) ∧ (N.of_nat (slen l) < maxScanTokenSize)%N ∧
  trim_suffix l (String (ascii_of_N 13) "") = l.

Lemma scan_lines_ok ls : Forall line_ok ls →
  (scan (map bytes ls)).2 = None ∧ omap hintField (scan (map bytes ls)).1 = omap hintField ls.
Proof.
  induction 1 as [|l ls (_ & Hlen & Hcr) Hls [IH1 IH2]]; [done|]. cbn [map scan].
  destruct (scan (map bytes ls)) as [out e] eqn:E. cbn [fst snd] in *. subst e.
  assert (Hg : (if (maxScanTokenSize <=? N.of_nat (length (bytes l)))%N then ([], Some errTooLong)
     else (trim_suffix (mk (bytes l)) (String (ascii_of_N 13) "") :: out, None)) = (l :: out, None)).
  { unfold slen in Hlen. destruct (N.leb_spec maxScanTokenSize (N.of_nat (length (bytes l)))); [lia|].
    by rewrite mk_bytes, Hcr. }
  assert (Hgo : omap hintField (l :: out) = omap hintField (l :: ls)).
  { cbn [omap list_omap]. unfold omap in *. destruct (hintField l); [f_equal|]; exact IH2. }
  destruct (bytes l) as [|c b] eqn:Eb.
  - destruct ls as [|l' ls].
    + cbn [map]. cbn. apply bytes_nil in Eb as ->. done.
    + cbn [map] in *. rewrite Hg. by split.
  - rewrite Hg. by split.
Qed.

Lemma hintLoop_ipv4 lines addrs : omap hintField lines = map format_ipv4 addrs →
  Forall (λ n, n < 2 ^ 32)%N addrs → hintLoop lines = Ok (map format_ipv4 addrs).
Proof.
  revert addrs. induction lines as [|l lines IH]; intros addrs; cbn [omap list_omap hintLoop].
  - by destruct addrs.
  - destruct (hintField l) as [a|]; [|apply IH]. destruct addrs as [|n addrs]; [done|].
    cbn [map]. intros [= -> E] [Hn Ha]%Forall_cons.
    destruct (ipv4_hint n Hn) as (_ & _ & ->). cbn [res_bind]. by rewrite (IH addrs).
Qed.

Lemma parseUpstreams_ipv4 addrs : Forall (λ n, n < 2 ^ 32)%N addrs →
  parseUpstreams (map format_ipv4 addrs) = Ok (map format_ipv4 addrs).
Proof.
  induction 1 as [|n addrs Hn Ha IH]; [done|]. cbn [map parseUpstreams].
  destruct (ipv4_hint n Hn) as (-> & -> & _). destruct (format_ipv4_chars n) as (_ & Hne & _).
  rewrite bool_decide_eq_false_2 by done. cbn [res_wrap res_bind]. by rewrite IH.
Qed.

(** A record line gives its address. *)
Lemma hint_line name ttl a : word name → word ttl → word a → has_prefix name ";" = false →
  hintField (join [name; ttl; "A"; a] " ") = Some a.
Proof.
  intros Hn Ht Ha Hs. assert (HF : Forall word [name; ttl; "A"; a]).
  { repeat constructor; (done || by apply Hn || by apply Ht || by apply Ha || idtac). }
  set (line := join [name; ttl; "A"; a] " ").
  assert (Hj : line = name +:+ " " +:+ join [ttl; "A"; a] " ") by apply join_cons.
  assert (Hne : line ≠ "") by (rewrite Hj; intros E; destruct name; [by destruct Hn|done]).
  assert (Hp : has_prefix line ";" = false).
  { rewrite Hj. unfold has_prefix in *. rewrite bool_decide_eq_false in Hs. rewrite !bytes_app.
    apply bool_decide_eq_false. intros [k Hk]. apply Hs.
    destruct (bytes name) as [|c l] eqn:E; [apply bytes_nil in E as ->; by destruct Hn|].
    cbn in Hk. injection Hk as -> _. apply prefix_cons, prefix_nil. }
  unfold hintField. rewrite trimmed_trim by by apply join_words_trimmed.
  rewrite bool_decide_eq_false_2, Hp by done. cbn [orb]. subst line. by rewrite fields_join.
Qed.

(** * Properties *)

(** a hints file is read exactly: whatever comments, name server lines and
    blank lines stand between them, the IPv4 addresses its records name come
    out, each once per record and in order. *)
Theorem root_hints_roundtrip lines addrs :
  Forall line_ok lines → lines ≠ [] → omap hintField lines = map format_ipv4 addrs →
  addrs ≠ [] → Forall (λ n, n < 2 ^ 32)%N addrs →
  parseRootHints (join lines (String newline "")) = Ok (map format_ipv4 addrs).
Proof.
  intros Hl Hne Ho Hna HF. unfold parseRootHints, scan_text. rewrite bytes_join.
  change (bytes (String newline "")) with [newline]. rewrite split_join_with.
  - destruct (scan_lines_ok lines Hl) as [H1 H2].
    destruct (scan (map bytes lines)) as [out e]. cbn [fst snd] in *. subst e.
    rewrite (hintLoop_ipv4 out addrs) by congruence. cbn [res_bind].
    unfold NormalizeUpstreams. rewrite parseUpstreams_ipv4 by done. cbn [res_bind].
    by rewrite bool_decide_eq_false_2 by (by destruct addrs).
  - by destruct lines.
  - apply Forall_map. eapply Forall_impl; [exact Hl|]. by intros l [].
Qed.

(** loading the root hints always gives servers, and never damages the
    cached file: whatever the file system and the network do, the result is
    not empty when the built-in list can be used, the cache holds what it held
    or one complete download, no other file changes, and a fresh or externally
    managed file is read without touching files or network. *)
Theorem root_hints_loaded {W : Type} {FS : FileSys W} {ST : FileStat W} {FL : FileSysLaws W} {X : Type}
    {HN : HintsNet X} cfg path auto now (w : W) (x : X) hints w' x' :
  LoadRootHints cfg path auto Config.DefaultRootHints now w x = (hints, w', x') →
  hints ≠ [] ∧ cache_intact cfg (trim_space path) w w' x ∧
  (auto = false ∨ fresh w (trim_space path) now → w' = w ∧ x' = x).
Proof.
  unfold LoadRootHints.
  destruct (FetchOrLoadRootHints cfg path auto now w x) as [[r w1] x1] eqn:E.
  apply fetch_spec in E as (Hc & Hn & Hf). destruct r as [l|e].
  - intros [= <- <- <-]. split_and!; [by apply Hn|done|done].
  - assert (Ed : NormalizeUpstreams Config.DefaultRootHints = Ok Config.DefaultRootHints) by by vm_compute.
    rewrite Ed. intros [= <- <- <-]. by split_and!.
Qed.

(** ** Witnesses *)
Definition demo_hints : list string :=
  [";       last update: December 20, 2023"; ".                        3600000      NS    A.ROOT-SERVERS.NET.";
   "A.ROOT-SERVERS.NET.      3600000      A     198.41.0.4"; "";
   "B.ROOT-SERVERS.NET.      3600000      A     170.247.170.2"].

Lemma root_hints_roundtrip_witness :
  parseRootHints (join demo_hints (String newline "")) = Ok ["198.41.0.4"; "170.247.170.2"].
Proof.
  apply (root_hints_roundtrip demo_hints [3324575748; 2868357634]%N).
  - repeat (constructor; [split_and!; [by apply (bool_decide_unpack _); vm_compute|by vm_compute|done]|]).
    constructor.
  - done.
  - by vm_compute.
  - done.
  - by repeat constructor.
Defined.

(** A network that is down. *)
#[export] Instance demo_hints_net : HintsNet nat | 100 := {|
  lookup_internic server n := (Err (errNew "i/o timeout"), S n);
  http_get target n := (Err (errNew "connection refused"), S n)
|}.
Definition demo_loaded :=
  LoadRootHints None "./data/named.root" true Config.DefaultRootHints 100 (∅ : ram) 0.

Lemma root_hints_loaded_witness :
  demo_loaded.1.1 ≠ [] ∧ cache_intact None "./data/named.root" ∅ demo_loaded.1.2 0.
Proof.
  destruct (root_hints_loaded None "./data/named.root" true 100 (∅ : ram) 0
    demo_loaded.1.1 demo_loaded.1.2 demo_loaded.2) as (H1 & H2 & _).
  - unfold demo_loaded. by destruct (LoadRootHints _ _ _ _ _ _ _) as [[? ?] ?].
  - split; [exact H1|exact H2].
Defined.

End RootHints.
