(* ===== verification/Sql.v ===== *)
(** * Statements of database/sql

    What the tables of the management database have in common: a failed
    statement is told by the text of its error, a query is scanned row by row,
    and a statement without rows counts those it changed. The sources repeat
    these helpers in firewall/sources.go and acl/rules.go. *)
From S2P Require Import Prelude.

Definition errNoRows := errNew "sql: no rows in result set".

(** [err.Error()]. *)
Class ErrorText := { error_text : error → string }.

Definition isUniqueConstraintError {SE : ErrorText} (err : error) : bool :=
  let message := to_lower (error_text err) in
  contains message "unique constraint" || contains message "constraint failed".

Definition nullableDescription (description : string) : option string :=
  if bool_decide (description = "") then None else Some description.

(** [for rows.Next()], then [rows.Err()]. *)
Definition scan_rows {R A} (iterate : string) (scan : R → res A) (q : list R * option error) : res (list A) :=
  let? out := res_map scan q.1 in
  match q.2 with Some e => Err (errWrap iterate e) | None => Ok out end.

(** What follows a statement that must change a row. *)
Definition affected (label : string) (notFound : error) (r : res Z) : option error :=
  match r with
  | Err e => Some (errWrap label e)
  | Ok rows => if (rows =? 0)%Z then Some notFound else None
  end.

(** * Lemmas *)
Lemma scan_rows_ok {R A} iterate (scan : R → res A) q l :
  scan_rows iterate scan q = Ok l ↔ q.2 = None ∧ Forall2 (λ r a, scan r = Ok a) q.1 l.
Proof.
  unfold scan_rows. rewrite res_bind_ok. setoid_rewrite res_map_ok.
  destruct q as [rows [e|]]; cbn; naive_solver.
Qed.

Lemma nullable_scan t :
  match nullableDescription (trim_space t) with Some u => trim_space u | None => "" end = trim_space t.
Proof. unfold nullableDescription. case_bool_decide as E; [done|apply trim_space_idemp]. Qed.

(** ** An identifier that is not used, and a driver whose errors are texts *)
Definition next_id {A} (t : gmap Z A) : Z := (1 + map_fold (λ k _ m, Z.max k m) 0 t)%Z.

Lemma next_id_above {A} (t : gmap Z A) k a : t !! k = Some a → (k < next_id t)%Z.
Proof.
  assert (H : ∀ k a, t !! k = Some a → (k <= map_fold (λ k _ m, Z.max k m) 0 t)%Z).
  { apply (map_fold_weak_ind (λ b t, ∀ k a, t !! k = Some a → (k <= b)%Z)).
    - intros i a'. by rewrite lookup_empty.
    - intros i x m b _ IH j a'. rewrite lookup_insert_Some. intros [[<- _]|[_ Hj]]; [lia|].
      apply IH in Hj. lia. }
  intros Hk%H. unfold next_id. lia.
Qed.

Lemma next_id_pos {A} (t : gmap Z A) : (0 < next_id t)%Z.
Proof.
  assert (0 <= map_fold (λ k _ m, Z.max k m) 0 t)%Z; [|unfold next_id; lia].
  apply (map_fold_weak_ind (λ b _, 0 <= b)%Z); lia.
Qed.

#[export] Instance demo_error_text : ErrorText | 100 :=
  {| error_text e := match e with errNew t => t | errWrap t _ => t end |}.
