(* ===== verification/Logging.v ===== *)
(** * Logging: internal/logger/{ring,broadcast,stream_writer,config,logger,multi_handler}.go

    The history of log lines and its live copies, the writer that cuts the
    stream into lines, and the settings with their table. The handlers of
    log/slog and the rotating file are interfaces; the text of a record is
    not modelled. *)
From S2P Require Import Prelude Encoding Files Sql.

Module Logging.

(** ** ring.go *)
Definition defaultRingCapacity : nat := 500.

Record RingBuffer := MkRing { lines : list string; capacity : nat; head : nat; size : nat }.

Definition NewRingBuffer (capacity : Z) : RingBuffer :=
  let capacity := if (capacity <=? 0)%Z then defaultRingCapacity else Z.to_nat capacity in
  MkRing (replicate capacity "") capacity 0 0.

Definition Append (r : RingBuffer) (line : string) : RingBuffer :=
  MkRing (<[head r := line]> (lines r)) (capacity r) ((head r + 1) mod capacity r)
    (if size r <? capacity r then size r + 1 else size r).

Definition Snapshot (r : RingBuffer) : list string :=
  if size r =? 0 then []
  else
    let start := (Z.of_nat (head r) - Z.of_nat (size r))%Z in
    let start := if (start <? 0)%Z then (start + Z.of_nat (capacity r))%Z else start in
    map (λ i, nth ((Z.to_nat start + i) mod capacity r) (lines r) "") (seq 0 (size r)).

(** ** broadcast.go: buffered channels, numbered as they are made *)
Definition subscriberBuffer : nat := 64.

Record channel := MkChannel { buffer : list string; is_closed : bool }.
Record Broadcaster := MkBroadcaster { subscribers : gset N; channels : gmap N channel; next_chan : N }.

Definition NewBroadcaster : Broadcaster := MkBroadcaster ∅ ∅ 0.

Definition Subscribe (b : Broadcaster) : N * Broadcaster :=
  (next_chan b,
   MkBroadcaster ({[next_chan b]} ∪ subscribers b)
     (<[next_chan b := MkChannel [] false]> (channels b)) (next_chan b + 1)).

(** The channel is drained, then closed. *)
Definition Unsubscribe (b : Broadcaster) (ch : option N) : Broadcaster :=
  match ch with
  | None => b
  | Some ch => MkBroadcaster (subscribers b ∖ {[ch]}) (<[ch := MkChannel [] true]> (channels b)) (next_chan b)
  end.

(** [select { case ch <- line: default: }]. A send on a closed channel panics. *)
Definition offer (line : string) (c : channel) : option channel :=
  if is_closed c then None
  else if length (buffer c) <? subscriberBuffer then Some (MkChannel (buffer c ++ [line]) false)
  else Some c.

Definition Publish (b : Broadcaster) (line : string) : option Broadcaster :=
  foldr (λ ch (acc : option Broadcaster),
    match acc with
    | None => None
    | Some b =>
        match channels b !! ch with
        | None => Some b
        | Some c => match offer line c with
                    | None => None
                    | Some c => Some (MkBroadcaster (subscribers b) (<[ch := c]> (channels b)) (next_chan b))
                    end
        end
    end) (Some b) (elements (subscribers b)).

(** The consumer takes the oldest line. *)
Definition receive (b : Broadcaster) (ch : N) : option (string * Broadcaster) :=
  match channels b !! ch with
  | Some (MkChannel (line :: rest) closed) =>
      Some (line, MkBroadcaster (subscribers b) (<[ch := MkChannel rest closed]> (channels b)) (next_chan b))
  | _ => None
  end.

(** ** stream_writer.go *)
Record StreamWriter := MkStream {
  w_ring : option RingBuffer; w_broadcaster : option Broadcaster; partial : list ascii
}.
Definition newline : ascii := ascii_of_N 10.

Definition NewStreamWriter (r : option RingBuffer) (b : option Broadcaster) : StreamWriter := MkStream r b [].

Definition dispatch (s : StreamWriter) (line : string) : option StreamWriter :=
  let r := (λ r, Append r line) <$> w_ring s in
  match w_broadcaster s with
  | None => Some (MkStream r None (partial s))
  | Some b => match Publish b line with
              | None => None
              | Some b => Some (MkStream r (Some b) (partial s))
              end
  end.

(** The loop of [Write] over the data: a newline ends a line, empty lines are
    dropped, what follows the last newline is kept. *)
Fixpoint writeLoop (s : StreamWriter) (line data : list ascii) : option StreamWriter :=
  match data with
  | [] => Some (MkStream (w_ring s) (w_broadcaster s) line)
  | c :: data =>
      if is_char newline c then
        if bool_decide (line = []) then writeLoop s [] data
        else match dispatch s (mk line) with
             | None => None
             | Some s => writeLoop s [] data
             end
      else writeLoop s (line ++ [c]) data
  end.

Definition Write (s : StreamWriter) (p : string) : option StreamWriter := writeLoop s [] (partial s ++ bytes p).

(** ** multi_handler.go: the first error of a sink ends the fan-out *)
Class SlogHandler (H Rec : Type) := {
  h_enabled : H → Z → bool;
  h_handle : H → Rec → H * option error;
  rec_level : Rec → Z
}.

Section multi.
Context {H Rec : Type} {SH : SlogHandler H Rec}.

Definition Enabled (m : list H) (level : Z) : bool := existsb (λ h, h_enabled h level) m.

Fixpoint Handle (m : list H) (r : Rec) : list H * option error :=
  match m with
  | [] => ([], None)
  | h :: m =>
      if h_enabled h (rec_level r) then
        match h_handle h r with
        | (h, Some e) => (h :: m, Some e)
        | (h, None) => let '(m, e) := Handle m r in (h :: m, e)
        end
      else let '(m, e) := Handle m r in (h :: m, e)
  end.

(** [WithAttrs] and [WithGroup], over those of the sinks. *)
Definition WithEach {A} (h_with : A → H → H) (a : A) (m : list H) : list H := map (h_with a) m.
End multi.

(** ** config.go and logger.go *)
Definition configKeyLogLevel := "log_level".
Definition configKeyLogMaxSize := "log_max_size".
Definition configKeyLogMaxBackups := "log_max_backups".
Definition configKeyLogMaxAge := "log_max_age".
Definition configKeyLogFilePath := "log_file_path".

Record RotationConfig := MkRotation { FilePath : string; MaxSizeMB : Z; MaxBackups : Z; MaxAgeDays : Z }.
Record Config := MkConfig { Level : string; Rotation : RotationConfig }.

Definition DefaultConfig (level : string) : Config :=
  let level := if bool_decide (trim_space level = "") then "INFO" else level in
  MkConfig (to_upper (trim_space level)) (MkRotation "./logs/arx-dns.log" 50 3 28).

(** [slog.LevelDebug] to [slog.LevelError]. *)
Definition ParseLevel (raw : string) : res Z :=
  let l := to_upper (trim_space raw) in
  if bool_decide (l = "DEBUG") then Ok (-4)%Z
  else if bool_decide (l = "INFO") then Ok 0%Z
  else if bool_decide (l = "WARN") || bool_decide (l = "WARNING") then Ok 4%Z
  else if bool_decide (l = "ERROR") then Ok 8%Z
  else Err (errNew "invalid log level %q (expected DEBUG, INFO, WARN, or ERROR)").

Definition validateConfig (cfg : Config) : option error :=
  match ParseLevel (Level cfg) with
  | Err e => Some e
  | Ok _ =>
      if bool_decide (trim_space (FilePath (Rotation cfg)) = "") then Some (errNew "rotation file path is required")
      else if (MaxSizeMB (Rotation cfg) <=? 0)%Z then Some (errNew "rotation max_size_mb must be greater than zero")
      else if (MaxBackups (Rotation cfg) <? 0)%Z then Some (errNew "rotation max_backups must be zero or greater")
      else if (MaxAgeDays (Rotation cfg) <? 0)%Z then Some (errNew "rotation max_age_days must be zero or greater")
      else None
  end.

(** The table [configuration]: the five keys, and the upserts of a
    transaction. *)
Class ConfigDB (D : Type) := {
  tx : Type;
  sql_log_settings : D → res (list (string * string) * option error);
  tx_begin : D → res tx;
  tx_upsert : tx → string → string → tx * option error;
  tx_commit : tx → D * option error;
  tx_rollback : tx → D
}.

Class ConfigDBLaws (D : Type) `{ConfigDB D} := {
  settings : D → gmap string string;
  tx_view : tx → gmap string string;
  log_keys_law : ∀ d rows, sql_log_settings d = Ok (rows, None) →
    ∀ k v, (k, v) ∈ rows ↔ settings d !! k = Some v ∧
      k ∈ [configKeyLogLevel; configKeyLogMaxSize; configKeyLogMaxBackups; configKeyLogMaxAge; configKeyLogFilePath];
  begin_law : ∀ d t, tx_begin d = Ok t → tx_view t = settings d;
  upsert_law : ∀ t k v t', tx_upsert t k v = (t', None) → tx_view t' = <[k := v]> (tx_view t);
  commit_law : ∀ t d, tx_commit t = (d, None) → settings d = tx_view t
}.

Section settings.
Context {D : Type} {CD : ConfigDB D} {MR : MapRange}.

Definition config_entries (cfg : Config) : gmap string string :=
  {[ configKeyLogLevel := to_upper (trim_space (Level cfg));
     configKeyLogFilePath := trim_space (FilePath (Rotation cfg));
     configKeyLogMaxSize := itoa (MaxSizeMB (Rotation cfg));
     configKeyLogMaxBackups := itoa (MaxBackups (Rotation cfg));
     configKeyLogMaxAge := itoa (MaxAgeDays (Rotation cfg)) ]}.

Fixpoint upsertLoop (t : tx) (entries : list (string * string)) : D * option error + tx :=
  match entries with
  | [] => inr t
  | (key, value) :: entries =>
      match tx_upsert t key value with
      | (t, Some e) => inl (tx_rollback t, Some (errWrap "upsert configuration key %q: %w" e))
      | (t, None) => upsertLoop t entries
      end
  end.

Definition SaveConfig (db : option D) (cfg : Config) : option D * option error :=
  match db with
  | None => (db, Some (errNew "database handle is nil"))
  | Some d =>
      match validateConfig cfg with
      | Some e => (db, Some e)
      | None =>
          match tx_begin d with
          | Err e => (db, Some (errWrap "begin configuration transaction: %w" e))
          | Ok t =>
              match upsertLoop t (range (config_entries cfg)) with
              | inl (d, e) => (Some d, e)
              | inr t =>
                  match tx_commit t with
                  | (d, Some e) => (Some d, Some (errWrap "commit log configuration: %w" e))
                  | (d, None) => (Some d, None)
                  end
              end
          end
      end
  end.

(** A number of the table: kept when it reads and passes the test. *)
Definition readInt (values : gmap string string) (key : string) (ok : Z → bool) (old : Z) : Z :=
  match values !! key with
  | Some raw => match atoi (trim_space raw) with
                | Some n => if ok n then n else old
                | None => old
                end
  | None => old
  end.

Definition readText (values : gmap string string) (key : string) (f : string → string) (old : string) : string :=
  match values !! key with
  | Some raw => if bool_decide (trim_space raw = "") then old else f (trim_space raw)
  | None => old
  end.

Definition LoadConfig (db : option D) (defaultLevel : string) : option D * res Config :=
  let cfg := DefaultConfig defaultLevel in
  match db with
  | None => (db, Ok cfg)
  | Some d =>
      match sql_log_settings d with
      | Err e => (db, Err (errWrap "query log configuration: %w" e))
      | Ok (rows, Some e) => (db, Err (errWrap "iterate log configuration rows: %w" e))
      | Ok (rows, None) =>
          let values := foldl (λ (m : gmap string string) kv, <[kv.1 := kv.2]> m) ∅ rows in
          if bool_decide (values = ∅) then
            let '(db, e) := SaveConfig db cfg in
            (db, match e with Some e => Err e | None => Ok cfg end)
          else
            let r := Rotation cfg in
            let cfg := MkConfig (readText values configKeyLogLevel to_upper (Level cfg))
              (MkRotation (readText values configKeyLogFilePath id (FilePath r))
                 (readInt values configKeyLogMaxSize (λ n, 0 <? n)%Z (MaxSizeMB r))
                 (readInt values configKeyLogMaxBackups (λ n, 0 <=? n)%Z (MaxBackups r))
                 (readInt values configKeyLogMaxAge (λ n, 0 <=? n)%Z (MaxAgeDays r))) in
            (db, match validateConfig cfg with Some e => Err e | None => Ok cfg end)
      end
  end.
End settings.

(** The package's variables. *)
Record logger := MkLogger { level : Z; runtimeCfg : Config; fileLogger : option RotationConfig }.

Definition SetLevel (raw : string) (g : logger) : logger * option error :=
  match ParseLevel raw with
  | Err e => (g, Some e)
  | Ok l => (MkLogger l (MkConfig (to_upper (trim_space raw)) (Rotation (runtimeCfg g))) (fileLogger g), None)
  end.

Definition CurrentConfig (g : logger) : Config := runtimeCfg g.

Section update.
Context {D : Type} {CD : ConfigDB D} {MR : MapRange} {W : Type} {FS : FileSys W}.

Definition ensureLogDirectory (w : W) (filePath : string) : W * option error :=
  let dir := path_dir filePath in
  if bool_decide (dir = "") || bool_decide (dir = ".") then (w, None) else fs_mkdir_all w dir.

Definition UpdateConfig (db : option D) (cfg : Config) (w : W) (g : logger) : option D * W * logger * option error :=
  match validateConfig cfg with
  | Some e => (db, w, g, Some e)
  | None =>
      match SetLevel (Level cfg) g with
      | (g, Some e) => (db, w, g, Some e)
      | (g, None) =>
          let file := (λ _ : RotationConfig, MkRotation (trim_space (FilePath (Rotation cfg))) (MaxSizeMB (Rotation cfg))
                              (MaxBackups (Rotation cfg)) (MaxAgeDays (Rotation cfg))) <$> fileLogger g in
          let g := MkLogger (level g) cfg file in
          match ensureLogDirectory w (FilePath (Rotation cfg)) with
          | (w, Some e) => (db, w, g, Some (errWrap "create log directory: %w" e))
          | (w, None) =>
              match db with
              | None => (db, w, g, None)
              | Some _ => let '(db, e) := SaveConfig db cfg in (db, w, g, e)
              end
          end
      end
  end.

(** What [newWithConfig] sets. *)
Definition newWithConfig (cfg : Config) (w : W) (g : logger) : W * logger * option error :=
  match ParseLevel (Level cfg) with
  | Err e => (w, g, Some e)
  | Ok l =>
      match ensureLogDirectory w (FilePath (Rotation cfg)) with
      | (w, Some e) => (w, g, Some (errWrap "create log directory: %w" e))
      | (w, None) => (w, MkLogger l cfg (Some (Rotation cfg)), None)
      end
  end.

Definition New (logLevel : string) (db : option D) (w : W) (g : logger) : option D * W * logger * option error :=
  let '(db, r) := LoadConfig db logLevel in
  match r with
  | Err e => (db, w, g, Some e)
  | Ok cfg => let '(w, g, e) := newWithConfig cfg w g in (db, w, g, e)
  end.
End update.

(** * Lemmas *)

(** ** The ring holds the end of what was appended *)
Definition ring_rep (r : RingBuffer) (hist : list string) : Prop :=
  0 < capacity r ∧ length (lines r) = capacity r ∧ head r = length hist mod capacity r ∧
  size r = length hist `min` capacity r ∧
  ∀ k, length hist - capacity r ≤ k < length hist → lines r !! (k mod capacity r) = hist !! k.

Lemma mod_apart c k n : k < n → n - k < c → k mod c ≠ n mod c.
Proof.
  intros Hkn Hc E. pose proof (Nat.div_mod_eq k c). pose proof (Nat.div_mod_eq n c).
  assert (n - k = c * (n / c - k / c)) by nia.
  assert (k / c ≤ n / c) by (apply Nat.Div0.div_le_mono; lia).
  destruct (n / c - k / c); nia.
Qed.

Lemma new_ring_rep c : ring_rep (NewRingBuffer c) [].
Proof.
  unfold NewRingBuffer, ring_rep. cbn [capacity lines head size].
  assert (0 < if (c <=? 0)%Z then defaultRingCapacity else Z.to_nat c).
  { destruct (Z.leb_spec c 0); [unfold defaultRingCapacity|]; lia. }
  rewrite length_replicate, Nat.Div0.mod_0_l. split_and!; [done..|]. cbn. lia.
Qed.

Lemma append_rep r hist line : ring_rep r hist → ring_rep (Append r line) (hist ++ [line]).
Proof.
  intros (Hc & Hl & Hh & Hs & Hk). unfold ring_rep, Append. cbn [capacity lines head size].
  rewrite length_insert, length_app. cbn [length]. split_and!; [done|done| | |].
  - by rewrite Hh, Nat.Div0.add_mod_idemp_l.
  - destruct (Nat.ltb_spec (size r) (capacity r)); lia.
  - intros k Hb. rewrite Hh. destruct (decide (k = length hist)) as [->|Hne].
    + rewrite lookup_app_r, Nat.sub_diag by lia. apply list_lookup_insert_eq.
      rewrite Hl. apply Nat.mod_upper_bound. lia.
    + rewrite lookup_app_l by lia. rewrite list_lookup_insert_ne; [apply Hk; lia|].
      apply not_eq_sym, mod_apart; lia.
Qed.

Lemma snapshot_rep r hist : ring_rep r hist → Snapshot r = drop (length hist - capacity r) hist.
Proof.
  intros (Hc & Hl & Hh & Hs & Hk). unfold Snapshot. destruct (Nat.eqb_spec (size r) 0) as [E|E].
  { destruct hist; [done|]. cbn [length] in Hs. lia. }
  set (start := if (_ <? 0)%Z then _ else _).
  assert (Hst : ∀ i, (Z.to_nat start + i) mod capacity r = (length hist - capacity r + i) mod capacity r).
  { intros i. pose proof (Nat.mod_upper_bound (length hist) (capacity r)).
    destruct (decide (length hist < capacity r)) as [Hlt|Hge].
    - rewrite (Nat.mod_small (length hist)) in Hh by done. subst start.
      destruct (Z.ltb_spec (Z.of_nat (head r) - Z.of_nat (size r)) 0); [lia|]. f_equal. lia.
    - assert (Hz : Z.to_nat start = head r).
      { subst start. destruct (Z.ltb_spec (Z.of_nat (head r) - Z.of_nat (size r)) 0); lia. }
      rewrite Hz, Hh, Nat.Div0.add_mod_idemp_l.
      replace (length hist + i) with (length hist - capacity r + i + 1 * capacity r) by lia.
      apply Nat.Div0.mod_add. }
  apply list_eq. intros i. rewrite list_lookup_fmap, lookup_drop.
  destruct (decide (i < size r)) as [Hi|Hi].
  - rewrite lookup_seq_lt by done. cbn [fmap option_fmap option_map]. rewrite Nat.add_0_l, Hst.
    rewrite <-Hk by lia. rewrite nth_lookup.
    destruct (lines r !! _) eqn:El; [done|]. apply lookup_ge_None in El.
    pose proof (Nat.mod_upper_bound (length hist - capacity r + i) (capacity r)). lia.
  - rewrite lookup_seq_ge by lia. cbn. symmetry. apply lookup_ge_None. lia.
Qed.

(** ** The lines of a stream *)
Definition stream_lines (data : list ascii) : list string :=
  map mk (List.filter (λ l, negb (bool_decide (l = []))) (removelast (split_with (is_char newline) data))).
Definition stream_rest (data : list ascii) : list ascii := List.last (split_with (is_char newline) data) [].

Lemma stream_plain l : Forall (λ c, is_char newline c = false) l →
  stream_lines l = [] ∧ stream_rest l = l.
Proof.
  intros Hl. unfold stream_lines, stream_rest. rewrite <-(app_nil_r l), split_with_app by done.
  cbn. by rewrite !app_nil_r.
Qed.

Lemma stream_newline l data c : Forall (λ c, is_char newline c = false) l → is_char newline c = true →
  stream_lines (l ++ c :: data) = (if bool_decide (l = []) then [] else [mk l]) ++ stream_lines data ∧
  stream_rest (l ++ c :: data) = stream_rest data.
Proof.
  intros Hl Hc. unfold stream_lines, stream_rest. rewrite split_with_app by done.
  cbn [split_with]. rewrite Hc, app_nil_r. pose proof (split_with_nonnil (is_char newline) data) as Hn.
  destruct (split_with _ data) as [|w ws]; [done|]. cbn [removelast List.filter]. split; [|done].
  by case_bool_decide.
Qed.

Fixpoint dispatch_all (s : StreamWriter) (ls : list string) : option StreamWriter :=
  match ls with
  | [] => Some s
  | l :: ls => match dispatch s l with None => None | Some s => dispatch_all s ls end
  end.

Lemma dispatch_all_app s ls ls' :
  dispatch_all s (ls ++ ls') = match dispatch_all s ls with None => None | Some s => dispatch_all s ls' end.
Proof. revert s. induction ls as [|l ls IH]; intros s; cbn; [done|]. destruct (dispatch s l); [apply IH|done]. Qed.

Definition set_partial (s : StreamWriter) (l : list ascii) : StreamWriter := MkStream (w_ring s) (w_broadcaster s) l.

Lemma writeLoop_spec s line data : Forall (λ c, is_char newline c = false) line →
  writeLoop s line data =
  match dispatch_all s (stream_lines (line ++ data)) with
  | None => None
  | Some s' => Some (set_partial s' (stream_rest (line ++ data)))
  end.
Proof.
  revert s line. induction data as [|c data IH]; intros s line Hl; cbn [writeLoop].
  - rewrite app_nil_r. by destruct (stream_plain line Hl) as [-> ->].
  - destruct (is_char newline c) eqn:Hc.
    + destruct (stream_newline line data c Hl Hc) as [-> ->].
      case_bool_decide as E; cbn [app]; [by rewrite IH by constructor|]. cbn [dispatch_all].
      destruct (dispatch s (mk line)) as [s1|]; [|done]. by rewrite IH by constructor.
    + rewrite IH by (apply Forall_app; split; [done|by repeat constructor]). by rewrite <-app_assoc.
Qed.

(** Cutting the stream in two is cutting the second part after what the first
    left. *)
Lemma stream_cut a b :
  stream_lines (a ++ b) = stream_lines a ++ stream_lines (stream_rest a ++ b) ∧
  stream_rest (a ++ b) = stream_rest (stream_rest a ++ b) ∧
  Forall (λ c, is_char newline c = false) (stream_rest a).
Proof.
  assert (H : ∀ a line, Forall (λ c, is_char newline c = false) line →
    stream_lines ((line ++ a) ++ b) = stream_lines (line ++ a) ++ stream_lines (stream_rest (line ++ a) ++ b) ∧
    stream_rest ((line ++ a) ++ b) = stream_rest (stream_rest (line ++ a) ++ b) ∧
    Forall (λ c, is_char newline c = false) (stream_rest (line ++ a))); [|by apply (H a [])].
  clear a. intros a. induction a as [|c a IH]; intros line Hl.
  - rewrite app_nil_r. by destruct (stream_plain line Hl) as [-> ->].
  - destruct (is_char newline c) eqn:Hc.
    + rewrite <-app_assoc. cbn [app]. destruct (stream_newline line (a ++ b) c Hl Hc) as [-> ->].
      destruct (stream_newline line a c Hl Hc) as [-> ->].
      destruct (IH [] ltac:(constructor)) as (H1 & H2 & H3). cbn [app] in H1, H2, H3.
      by rewrite H1, H2, <-app_assoc.
    + destruct (IH (line ++ [c])) as (H1 & H2 & H3).
      { apply Forall_app; split; [done|by repeat constructor]. }
      rewrite <-!app_assoc in *. cbn [app] in *. done.
Qed.

(** ** Subscribers *)
Definition accepted (c : channel) (line : string) : channel :=
  if length (buffer c) <? subscriberBuffer then MkChannel (buffer c ++ [line]) false else c.

(** Each subscriber has an open channel; a new one gets a fresh number. *)
Definition broadcast_ok (b : Broadcaster) : Prop :=
  (∀ ch, ch ∈ subscribers b → ∃ buf, channels b !! ch = Some (MkChannel buf false)) ∧
  (∀ ch, is_Some (channels b !! ch) → (ch < next_chan b)%N).

Lemma publish_some b line : broadcast_ok b →
  ∃ b', Publish b line = Some b' ∧ subscribers b' = subscribers b ∧ next_chan b' = next_chan b ∧
  ∀ ch, channels b' !! ch = if decide (ch ∈ subscribers b) then (λ c, accepted c line) <$> channels b !! ch
                            else channels b !! ch.
Proof.
  intros [Hopen _]. unfold Publish.
  assert (H : ∀ l, NoDup l → (∀ ch, ch ∈ l → ∃ buf, channels b !! ch = Some (MkChannel buf false)) →
    ∃ b', foldr (λ ch (acc : option Broadcaster),
      match acc with
      | None => None
      | Some b =>
          match channels b !! ch with
          | None => Some b
          | Some c => match offer line c with
                      | None => None
                      | Some c => Some (MkBroadcaster (subscribers b) (<[ch := c]> (channels b)) (next_chan b))
                      end
          end
      end) (Some b) l = Some b' ∧ subscribers b' = subscribers b ∧ next_chan b' = next_chan b ∧
    ∀ ch, channels b' !! ch = if decide (ch ∈ l) then (λ c, accepted c line) <$> channels b !! ch
                              else channels b !! ch).
  { induction l as [|ch l IH]; intros Hnd Hl; cbn [foldr].
    - exists b. split_and!; [done..|]. intros ch. by rewrite decide_False by apply not_elem_of_nil.
    - apply NoDup_cons in Hnd as [Hni Hnd].
      destruct (IH Hnd) as (b1 & -> & Hs & Hn & Hc); [intros c Hc; apply Hl; by right|].
      destruct (Hl ch) as [buf Hbuf]; [by left|].
      rewrite Hc, decide_False, Hbuf by done. unfold offer. cbn [is_closed buffer].
      assert (Ha : accepted (MkChannel buf false) line =
        if length buf <? subscriberBuffer then MkChannel (buf ++ [line]) false else MkChannel buf false) by done.
      exists (MkBroadcaster (subscribers b1) (<[ch := accepted (MkChannel buf false) line]> (channels b1)) (next_chan b1)).
      split_and!; [rewrite Ha; by destruct (length buf <? subscriberBuffer)|done|done|].
      intros c. cbn [channels]. destruct (decide (c = ch)) as [->|Hne].
      + rewrite lookup_insert_eq, decide_True, Hbuf by (by left). done.
      + rewrite lookup_insert_ne, Hc by done.
        destruct (decide (c ∈ l)); [rewrite decide_True by (by right)|rewrite decide_False by (rewrite elem_of_cons; naive_solver)]; done. }
  destruct (H (elements (subscribers b))) as (b' & Hp & Hs & Hn & Hc); [apply NoDup_elements| |].
  { intros ch Hch. apply Hopen. by apply elem_of_elements. }
  exists b'. split_and!; [done..|]. intros ch. rewrite Hc.
  destruct (decide (ch ∈ elements (subscribers b))) as [Hin|Hin]; rewrite elem_of_elements in Hin;
    [by rewrite decide_True|by rewrite decide_False].
Qed.

Lemma publish_ok b line b' : broadcast_ok b → Publish b line = Some b' → broadcast_ok b'.
Proof.
  intros Hb Hp. destruct (publish_some b line Hb) as (b1 & Hp1 & Hs & Hn & Hc).
  rewrite Hp in Hp1. injection Hp1 as <-. destruct Hb as [H1 H2]. split.
  - intros ch Hch. rewrite Hs in Hch. destruct (H1 ch Hch) as [buf Hbuf].
    rewrite Hc, decide_True, Hbuf by done. cbn. unfold accepted. cbn [buffer].
    destruct (length buf <? subscriberBuffer); by eexists.
  - intros ch Hch. rewrite Hn. apply H2. rewrite Hc in Hch.
    destruct (decide (ch ∈ subscribers b)); [|done]. by destruct (channels b !! ch).
Qed.

Lemma new_ok : broadcast_ok NewBroadcaster.
Proof. split; [intros ch; set_solver|]. intros ch [c [=]]. Qed.

Lemma subscribe_ok b : broadcast_ok b → broadcast_ok (Subscribe b).2.
Proof.
  intros [H1 H2]. split; cbn.
  - intros ch Hch. destruct (decide (ch = next_chan b)) as [->|Hne].
    + exists []. by rewrite lookup_insert_eq.
    + rewrite lookup_insert_ne by done. apply H1. set_solver.
  - intros ch [c Hc]. apply lookup_insert_Some in Hc as [[<- _]|[_ Hc]]; [lia|].
    enough (ch < next_chan b)%N by lia. apply H2. by eexists.
Qed.

Lemma unsubscribe_ok b ch : broadcast_ok b → (∀ c, ch = Some c → is_Some (channels b !! c)) →
  broadcast_ok (Unsubscribe b ch).
Proof.
  intros [H1 H2] Hc. destruct ch as [ch|]; [|done]. split; cbn.
  - intros k Hk. rewrite lookup_insert_ne by set_solver. apply H1. set_solver.
  - intros k [c Hk]. apply lookup_insert_Some in Hk as [[<- _]|[_ Hk]]; apply H2; [by apply Hc|by eexists].
Qed.

(** What a stretch of lines does to the ring and the channels. *)
Definition reads (s s' : StreamWriter) (ls : list string) : Prop :=
  partial s' = partial s ∧
  (∀ r hist, w_ring s = Some r → ring_rep r hist →
     ∃ r', w_ring s' = Some r' ∧ capacity r' = capacity r ∧ ring_rep r' (hist ++ ls)) ∧
  (∀ b, w_broadcaster s = Some b → broadcast_ok b →
     ∃ b', w_broadcaster s' = Some b' ∧ broadcast_ok b' ∧ subscribers b' = subscribers b ∧
     ∀ ch, channels b' !! ch = if decide (ch ∈ subscribers b) then (λ c, foldl accepted c ls) <$> channels b !! ch
                               else channels b !! ch).

Lemma dispatch_reads s line b : w_broadcaster s = Some b → broadcast_ok b →
  ∃ s', dispatch s line = Some s' ∧ reads s s' [line].
Proof.
  intros Hb Hok. unfold dispatch. rewrite Hb.
  destruct (publish_some b line Hok) as (b' & Hp & Hs & _ & Hc). rewrite Hp.
  eexists. split; [done|]. split_and!; [done| |].
  - intros r hist Hr Hrep. cbn [w_ring]. rewrite Hr. eexists. split_and!; [done|done|]. by apply append_rep.
  - cbn [w_broadcaster]. rewrite Hb. intros b0 [= <-] _. exists b'.
    split_and!; [done|by eapply publish_ok|done|exact Hc].
Qed.

Lemma dispatch_all_reads ls s b : w_broadcaster s = Some b → broadcast_ok b →
  ∃ s', dispatch_all s ls = Some s' ∧ reads s s' ls.
Proof.
  revert s b. induction ls as [|l ls IH]; intros s b Hb Hok; cbn [dispatch_all].
  - exists s. split; [done|]. split_and!; [done| |].
    + intros r hist Hr Hrep. exists r. by rewrite app_nil_r.
    + intros b0 Hb0 Hok0. exists b0. split_and!; [done..|]. intros ch. cbn [foldl].
      destruct (decide _); [|done]. by destruct (channels b0 !! ch).
  - destruct (dispatch_reads s l b Hb Hok) as (s1 & -> & Hp1 & Hr1 & Hb1).
    destruct (Hb1 b Hb Hok) as (b1 & Hsb1 & Hok1 & Hsub1 & Hc1).
    destruct (IH s1 b1 Hsb1 Hok1) as (s2 & -> & Hp2 & Hr2 & Hb2). exists s2. split; [done|].
    split_and!; [congruence| |].
    + intros r hist Hr Hrep. destruct (Hr1 r hist Hr Hrep) as (r1 & E1 & C1 & R1).
      destruct (Hr2 r1 _ E1 R1) as (r2 & E2 & C2 & R2). exists r2. rewrite <-app_assoc in R2. split_and!; [done|congruence|done].
    + intros b0 Hb0 _. rewrite Hb in Hb0. injection Hb0 as <-.
      destruct (Hb2 b1 Hsb1 Hok1) as (b2 & E2 & Hok2 & Hsub2 & Hc2). exists b2.
      split_and!; [done|done|congruence|]. intros ch. rewrite Hc2, Hc1, Hsub1.
      destruct (decide (ch ∈ subscribers b)); [|done]. by destruct (channels b !! ch).
Qed.

(** A consumer that takes nothing holds the first lines, as many as fit. *)
Lemma accepted_all buf ls : length buf ≤ subscriberBuffer →
  foldl accepted (MkChannel buf false) ls = MkChannel (take subscriberBuffer (buf ++ ls)) false.
Proof.
  revert buf. induction ls as [|l ls IH]; intros buf Hb; cbn [foldl].
  - by rewrite app_nil_r, take_ge.
  - unfold accepted at 2. cbn [buffer]. destruct (Nat.ltb_spec (length buf) subscriberBuffer) as [Hlt|Hge].
    + rewrite IH by (rewrite length_app; cbn [length]; lia). by rewrite <-app_assoc.
    + rewrite IH by done. f_equal. rewrite !take_app_le by lia. done.
Qed.

(** Writing the chunks of a stream one after the other. *)
Fixpoint write_all (s : StreamWriter) (chunks : list string) : option StreamWriter :=
  match chunks with
  | [] => Some s
  | p :: chunks => match Write s p with None => None | Some s => write_all s chunks end
  end.

Definition stream (chunks : list string) : list ascii := concat (map bytes chunks).

Lemma write_all_reads chunks s b : w_broadcaster s = Some b → broadcast_ok b →
  Forall (λ c, is_char newline c = false) (partial s) →
  ∃ s' s1, write_all s chunks = Some s' ∧ s' = set_partial s1 (stream_rest (partial s ++ stream chunks)) ∧
  reads s s1 (stream_lines (partial s ++ stream chunks)).
Proof.
  revert s b. induction chunks as [|p chunks IH]; intros s b Hb Hok Hp; cbn [write_all].
  - unfold stream. cbn [map concat]. rewrite app_nil_r. destruct (stream_plain _ Hp) as [-> ->].
    exists s, s. split_and!; [done|by destruct s|].
    destruct (dispatch_all_reads [] s b Hb Hok) as (s0 & [= <-] & Hr). exact Hr.
  - unfold Write. rewrite writeLoop_spec by constructor. cbn [app].
    destruct (dispatch_all_reads (stream_lines (partial s ++ bytes p)) s b Hb Hok) as (s1 & -> & Hr1).
    destruct Hr1 as (Hp1 & Hr1 & Hb1). destruct (Hb1 b Hb Hok) as (b1 & Hsb1 & Hok1 & Hsub1 & Hc1).
    unfold stream. cbn [map concat]. fold (stream chunks). rewrite app_assoc.
    destruct (stream_cut (partial s ++ bytes p) (stream chunks)) as (-> & -> & Hrest).
    destruct (IH (set_partial s1 (stream_rest (partial s ++ bytes p))) b1 Hsb1 Hok1 Hrest)
      as (s' & s2 & -> & -> & Hp2 & Hr2 & Hb2).
    cbn [partial set_partial] in *.
    exists (set_partial s2 (stream_rest (stream_rest (partial s ++ bytes p) ++ stream chunks))),
      (set_partial s2 (partial s)).
    split_and!; [done|done|]. split_and!; [done| |].
    + intros r hist Hr Hrep. destruct (Hr1 r hist Hr Hrep) as (r1 & E1 & C1 & R1).
      destruct (Hr2 r1 _ E1 R1) as (r2 & E2 & C2 & R2). exists r2. rewrite <-app_assoc in R2.
      split_and!; [done|congruence|done].
    + intros b0 Hb0 _. rewrite Hb in Hb0. injection Hb0 as <-.
      destruct (Hb2 b1 Hsb1 Hok1) as (b2 & E2 & Hok2 & Hsub2 & Hc2). exists b2.
      split_and!; [done|done|congruence|]. intros ch. rewrite Hc2, Hc1, Hsub1.
      destruct (decide (ch ∈ subscribers b)); [|done].
      destruct (channels b !! ch); [|done]. cbn. by rewrite foldl_app.
Qed.

(** ** The table of settings *)
Section roundtrip.
Context {D : Type} {CD : ConfigDB D} {CL : ConfigDBLaws D} {MR : MapRange}.

Lemma upsertLoop_view entries t t' : upsertLoop t entries = inr t' →
  tx_view t' = foldl (λ (m : gmap string string) kv, <[kv.1 := kv.2]> m) (tx_view t) entries.
Proof.
  revert t. induction entries as [|[k v] entries IH]; intros t; cbn [upsertLoop foldl]; [by intros [= <-]|].
  destruct (tx_upsert t k v) as [t1 [e|]] eqn:E; [done|]. intros H%IH. rewrite H.
  by rewrite (upsert_law _ _ _ _ E).
Qed.

Lemma insert_all_lookup (entries : list (string * string)) (m : gmap string string) k :
  NoDup entries.*1 →
  foldl (λ (m : gmap string string) kv, <[kv.1 := kv.2]> m) m entries !! k =
  match list_to_map (M := gmap string string) entries !! k with Some v => Some v | None => m !! k end.
Proof.
  revert m. induction entries as [|[k' v] entries IH]; intros m Hnd; cbn [foldl list_to_map foldr]; [by rewrite lookup_empty|].
  apply NoDup_cons in Hnd as [Hni Hnd]. rewrite IH by done.
  change (list_to_map ((k', v) :: entries)) with (<[k' := v]> (list_to_map entries) : gmap string string).
  destruct (decide (k = k')) as [->|Hne].
  - rewrite (not_elem_of_list_to_map_1 entries k') by done. cbn [fst snd]. by rewrite !lookup_insert_eq.
  - by rewrite !lookup_insert_ne.
Qed.

Lemma SaveConfig_settings d cfg db' : SaveConfig (Some d) cfg = (db', None) →
  validateConfig cfg = None ∧ ∃ d', db' = Some d' ∧
  ∀ k, settings d' !! k = match config_entries cfg !! k with Some v => Some v | None => settings d !! k end.
Proof.
  cbn [SaveConfig]. destruct (validateConfig cfg); [done|]. destruct (tx_begin d) as [t|] eqn:Eb; [|done].
  destruct (upsertLoop t (range (config_entries cfg))) as [[d1 e]|t1] eqn:El.
  { intros [= <- ->]. exfalso. revert El. generalize (range (config_entries cfg)) as es. clear.
    intros es. revert t. induction es as [|[k v] es IH]; intros t; cbn [upsertLoop]; [done|].
    destruct (tx_upsert t k v) as [t1 [e|]]; [done|apply IH]. }
  destruct (tx_commit t1) as [d1 [e|]] eqn:Ec; [done|]. intros [= <-]. split; [done|]. exists d1. split; [done|].
  intros k. rewrite (commit_law _ _ Ec), (upsertLoop_view _ _ _ El), (begin_law _ _ Eb).
  pose proof (range_perm (config_entries cfg)) as Hp.
  assert (Hnd : NoDup (range (config_entries cfg)).*1).
  { rewrite Hp. apply NoDup_fst_map_to_list. }
  rewrite insert_all_lookup by done.
  assert (E : list_to_map (range (config_entries cfg)) = config_entries cfg).
  { rewrite (list_to_map_proper _ _ Hnd Hp). apply list_to_map_to_list. }
  by rewrite E.
Qed.

Lemma itoa_atoi n : (0 <= n < 2 ^ 63)%Z → atoi (trim_space (itoa n)) = Some n.
Proof.
  intros Hn. unfold itoa. rewrite (proj2 (Z.ltb_ge n 0)) by lia.
  rewrite trimmed_trim by auto with arx. rewrite atoi_format_uint by lia. by rewrite Z2N.id by lia.
Qed.

Lemma foldl_insert_some (rows : list (string * string)) (m : gmap string string) k v :
  foldl (λ (m : gmap string string) kv, <[kv.1 := kv.2]> m) m rows !! k = Some v →
  (k, v) ∈ rows ∨ m !! k = Some v.
Proof.
  revert m. induction rows as [|[k' v'] rows IH]; intros m; cbn [foldl]; [by right|].
  intros [H|H]%IH; [left; by right|]. cbn in H. apply lookup_insert_Some in H as [[<- <-]|[_ H]]; [left; by left|by right].
Qed.

Lemma foldl_insert_is_some (rows : list (string * string)) (m : gmap string string) k v :
  (k, v) ∈ rows ∨ is_Some (m !! k) →
  is_Some (foldl (λ (m : gmap string string) kv, <[kv.1 := kv.2]> m) m rows !! k).
Proof.
  revert m. induction rows as [|[k' v'] rows IH]; intros m; cbn [foldl].
  - intros [H|H]; [by apply elem_of_nil in H|done].
  - intros [[[= <- <-]|H]%elem_of_cons|H]; apply IH; [right|by left|right]; cbn.
    + rewrite lookup_insert_eq. by eexists.
    + destruct (decide (k = k')) as [->|]; [rewrite lookup_insert_eq; by eexists|by rewrite lookup_insert_ne].
Qed.

(** The rows read are the settings. *)
Lemma rows_values d rows : sql_log_settings d = Ok (rows, None) →
  ∀ k, k ∈ [configKeyLogLevel; configKeyLogMaxSize; configKeyLogMaxBackups; configKeyLogMaxAge; configKeyLogFilePath] →
  foldl (λ (m : gmap string string) kv, <[kv.1 := kv.2]> m) ∅ rows !! k = settings d !! k.
Proof.
  intros Hr k Hk. pose proof (log_keys_law _ _ Hr) as Hl.
  destruct (settings d !! k) as [v|] eqn:E.
  - destruct (foldl_insert_is_some rows ∅ k v) as [v' Hv]; [left; by apply Hl|]. rewrite Hv.
    apply foldl_insert_some in Hv as [Hv|[=]]. apply Hl in Hv as [Hv _]. congruence.
  - destruct (foldl _ ∅ rows !! k) as [v|] eqn:Ev; [|done].
    apply foldl_insert_some in Ev as [Hv|[=]]. apply Hl in Hv as [Hv _]. congruence.
Qed.

Definition canonical (cfg : Config) : Config :=
  MkConfig (to_upper (trim_space (Level cfg)))
    (MkRotation (trim_space (FilePath (Rotation cfg))) (MaxSizeMB (Rotation cfg))
       (MaxBackups (Rotation cfg)) (MaxAgeDays (Rotation cfg))).

Lemma canonical_valid cfg : validateConfig cfg = None → validateConfig (canonical cfg) = None.
Proof.
  unfold validateConfig, canonical, ParseLevel. cbn [Level Rotation FilePath MaxSizeMB MaxBackups MaxAgeDays].
  by rewrite trim_space_idemp, (trimmed_trim (to_upper (trim_space (Level cfg)))), to_upper_idemp
    by auto with arx.
Qed.

(** * Properties *)

(** settings that were saved are the settings loaded at the next start,
    in canonical form (level in capitals, texts without blanks around them),
    whatever default level is asked for; so is what a reload of them loads. *)
Theorem log_config_roundtrip d cfg db' rows d' defaultLevel :
  SaveConfig (Some d) cfg = (db', None) → db' = Some d' → sql_log_settings d' = Ok (rows, None) →
  (MaxSizeMB (Rotation cfg) < 2 ^ 63)%Z → (MaxBackups (Rotation cfg) < 2 ^ 63)%Z →
  (MaxAgeDays (Rotation cfg) < 2 ^ 63)%Z →
  LoadConfig db' defaultLevel = (db', Ok (canonical cfg)).
Proof.
  intros Hs -> Hrows H1 H2 H3. apply SaveConfig_settings in Hs as (Hv & d0 & [= <-] & Hset).
  unfold LoadConfig. rewrite Hrows. pose proof (rows_values _ _ Hrows) as Hval.
  set (values := foldl _ _ _) in *.
  assert (Hk : ∀ k v, config_entries cfg !! k = Some v →
    k ∈ [configKeyLogLevel; configKeyLogMaxSize; configKeyLogMaxBackups; configKeyLogMaxAge; configKeyLogFilePath] →
    values !! k = Some v).
  { intros k v Hkv Hin. by rewrite Hval, Hset, Hkv. }
  unfold config_entries in Hk.
  assert (V1 := Hk configKeyLogLevel _ eq_refl ltac:(set_solver)).
  assert (V2 := Hk configKeyLogFilePath _ eq_refl ltac:(set_solver)).
  assert (V3 := Hk configKeyLogMaxSize _ eq_refl ltac:(set_solver)).
  assert (V4 := Hk configKeyLogMaxBackups _ eq_refl ltac:(set_solver)).
  assert (V5 := Hk configKeyLogMaxAge _ eq_refl ltac:(set_solver)).
  rewrite bool_decide_eq_false_2 by (intros E; by rewrite E, lookup_empty in V1).
  pose proof Hv as Hv0. unfold validateConfig in Hv.
  destruct (ParseLevel (Level cfg)) as [l|] eqn:El; [|done].
  case_bool_decide as Hfile; [done|].
  destruct (Z.leb_spec (MaxSizeMB (Rotation cfg)) 0); [done|].
  destruct (Z.ltb_spec (MaxBackups (Rotation cfg)) 0); [done|].
  destruct (Z.ltb_spec (MaxAgeDays (Rotation cfg)) 0); [done|].
  assert (Hlev : trim_space (to_upper (trim_space (Level cfg))) = to_upper (trim_space (Level cfg))).
  { apply trimmed_trim. auto with arx. }
  assert (Hne : to_upper (trim_space (Level cfg)) ≠ "") by (intros E; unfold ParseLevel in El; by rewrite E in El).
  unfold readText, readInt. rewrite V1, V2, V3, V4, V5. rewrite Hlev, trim_space_idemp, !itoa_atoi by lia.
  rewrite !bool_decide_eq_false_2 by done. rewrite to_upper_idemp.
  rewrite (proj2 (Z.ltb_lt 0 _)), !(proj2 (Z.leb_le 0 _)) by lia.
  pose proof (canonical_valid cfg Hv0) as Hc. unfold canonical in *. unfold id. by rewrite Hc.
Qed.

End roundtrip.

(** The sinks after one that fails get nothing of the record. *)
Lemma failed_sink_hides {H Rec} {SH : SlogHandler H Rec} (h : H) (m : list H) (r : Rec) h' e :
  h_enabled h (rec_level r) = true → h_handle h r = (h', Some e) → Handle (h :: m) r = (h' :: m, Some e).
Proof. intros He Hh. cbn [Handle]. by rewrite He, Hh. Qed.

(** Settings that could not be saved are in force all the same. *)
Lemma unsaved_settings_apply {D} {CD : ConfigDB D} {MR : MapRange} {W} {FS : FileSys W}
    (d : D) cfg w g e :
  validateConfig cfg = None → tx_begin d = Err e →
  match UpdateConfig (Some d) cfg w g with
  | (_, _, g', err) => err ≠ None ∧ runtimeCfg g' = cfg
  end.
Proof.
  intros Hv Hb. unfold UpdateConfig. rewrite Hv. unfold SetLevel. unfold validateConfig in Hv.
  destruct (ParseLevel (Level cfg)) as [l|] eqn:El; [|done].
  destruct (ensureLogDirectory w (FilePath (Rotation cfg))) as [w1 [e1|]]; [done|].
  cbn [SaveConfig]. assert (Hv' : validateConfig cfg = None) by (unfold validateConfig; by rewrite El).
  by rewrite Hv', Hb.
Qed.

End Logging.

(** * Witnesses *)
Import Logging.


Definition log_keys : list string :=
  [configKeyLogLevel; configKeyLogMaxSize; configKeyLogMaxBackups; configKeyLogMaxAge; configKeyLogFilePath].

#[export] Instance demo_config_db : ConfigDB (gmap string string) | 100 := {|
  tx := gmap string string;
  sql_log_settings d := Ok (List.filter (λ kv, bool_decide (kv.1 ∈ log_keys)) (map_to_list d), None);
  tx_begin d := Ok d;
  tx_upsert t k v := (<[k := v]> t, None);
  tx_commit t := (t, None);
  tx_rollback t := t
|}.

#[export] Program Instance demo_config_laws : ConfigDBLaws (gmap string string) | 100 :=
  {| settings d := d; tx_view t := t |}.
Next Obligation.
  intros d rows [= <-] k v. rewrite list_elem_of_In, filter_In, <-list_elem_of_In, elem_of_map_to_list, bool_decide_eq_true.
  done.
Qed.
Next Obligation. by intros d t [= ->]. Qed.
Next Obligation. by intros t k v t' [= <-]. Qed.
Next Obligation. by intros t d [= <-]. Qed.

Definition demo_log_config : Config := MkConfig " warn" (MkRotation "/var/log/dns.log " 10 0 7).

Lemma log_config_roundtrip_witness :
  let db := (SaveConfig (Some (∅ : gmap string string)) demo_log_config).1 in
  LoadConfig db "DEBUG" = (db, Ok (MkConfig "WARN" (MkRotation "/var/log/dns.log" 10 0 7))).
Proof.
  cbn zeta. destruct (SaveConfig (Some (∅ : gmap string string)) demo_log_config) as [db e] eqn:E. cbn [fst].
  assert (Hp : (SaveConfig (Some (∅ : gmap string string)) demo_log_config).2 = None) by by vm_compute.
  assert (Hd : is_Some (SaveConfig (Some (∅ : gmap string string)) demo_log_config).1) by (vm_compute; by eexists).
  rewrite E in Hp, Hd. cbn [fst snd] in Hp, Hd. subst e. destruct Hd as [d' ->].
  exact (log_config_roundtrip ∅ demo_log_config (Some d') _ d' "DEBUG" E eq_refl eq_refl
    eq_refl eq_refl eq_refl).
Defined.
