(* ===== verification/Console.v ===== *)
(** * Log lines for people: internal/logger/{console_handler,timestamp}.go

    The handler that writes a record as one text, with the attributes and the
    group it was derived with, and the timestamps of all sinks. A time is its
    civil fields with the offset of its zone in seconds. *)
From S2P Require Import Prelude NetAddr Encoding Logging.

(** [time.Time.String], and the destination of the lines. *)
Class TimeString (T : Type) := { time_string : T → string }.
Class Writer (O : Type) := { w_write : O → string → O * option error }.

Module Console.

(** ** timestamp.go *)
Record civil := MkCivil {
  year : N; month : N; day : N; hour : N; minute : N; second : N; nanosecond : N; offset : Z
}.

(** Decimal digits, padded with zeros to a width. *)
Definition pad (width : nat) (n : N) : string :=
  let t := format_uint n in mk (replicate (width - slen t) "0"%char) +:+ t.
(** [Z07:00]. *)
Definition zone_text (off : Z) : string :=
  if (off =? 0)%Z then "Z"
  else
    let z := Z.quot off 60 in
    let n := Z.to_N (Z.abs z) in
    (if (z <? 0)%Z then "-" else "+") +:+ pad 2 (n / 60) +:+ ":" +:+ pad 2 (n mod 60).
Definition FormatTimestamp (t : civil) : string :=
  pad 4 (year t) +:+ "-" +:+ pad 2 (month t) +:+ "-" +:+ pad 2 (day t) +:+ "T" +:+ pad 2 (hour t) +:+ ":" +:+
  pad 2 (minute t) +:+ ":" +:+ pad 2 (second t) +:+ "." +:+ pad 3 (nanosecond t / 1000000) +:+ zone_text (offset t).

(** ** Records *)
Inductive value := VNil | VTime (t : civil) | VText (s : string).
Record attr := MkAttr { a_key : string; a_value : value }.
Record record := MkRecord { r_time : civil; r_level : Z; r_message : string; r_attrs : list attr }.

Definition replaceTimestampAttr (a : attr) : attr :=
  if bool_decide (a_key a = "time") then
    match a_value a with VTime t => MkAttr "time" (VText (FormatTimestamp t)) | _ => a end
  else a.

Section console.
Context {TS : TimeString civil} {O : Type} {WR : Writer O}.

(** [Value.String]. *)
Definition value_text (v : value) : string :=
  match v with VNil => "<nil>" | VTime t => time_string t | VText s => s end.

(** [slog.Level.String]. *)
Definition plus_d (n : Z) : string := if (0 <=? n)%Z then "+" +:+ itoa n else itoa n.
Definition level_base (l : Z) : string * Z :=
  if (l <? 0)%Z then ("DEBUG", (-4)%Z) else if (l <? 4)%Z then ("INFO", 0%Z)
  else if (l <? 8)%Z then ("WARN", 4%Z) else ("ERROR", 8%Z).
Definition level_string (l : Z) : string :=
  let '(base, at_) := level_base l in
  if (l - at_ =? 0)%Z then base else base +:+ plus_d (l - at_).

(** ** console_handler.go *)
Definition esc (s : string) : string := String (ascii_of_N 27) s.
Definition ansiReset := esc "[0m".
Definition ansiRed := esc "[31m".
Definition ansiYellow := esc "[33m".
Definition ansiCyan := esc "[36m".
Definition ansiGray := esc "[90m".

Record ConsoleHandler := MkConsole { min_level : option Z; out : O; attrs : list attr; group : string }.
Definition NewConsoleHandler (w : O) (level : option Z) : ConsoleHandler := MkConsole level w [] "".

Definition Enabled (h : ConsoleHandler) (level : Z) : bool := (default 0 (min_level h) <=? level)%Z.

Definition levelColor (level : Z) : string :=
  if (8 <=? level)%Z then ansiRed else if (4 <=? level)%Z then ansiYellow
  else if (0 <=? level)%Z then ansiCyan else ansiGray.

Definition joinGroup (prefix name : string) : string :=
  if bool_decide (prefix = "") then name else prefix +:+ "." +:+ name.
Definition in_group (g : string) (a : attr) : attr := MkAttr (joinGroup g (a_key a)) (a_value a).

Definition appendAttrs (existing : list attr) (g : string) (l : list attr) : list attr :=
  match l with [] => existing | _ => existing ++ map (in_group g) l end.
Definition WithAttrs (l : list attr) (h : ConsoleHandler) : ConsoleHandler :=
  MkConsole (min_level h) (out h) (appendAttrs (attrs h) (group h) l) (group h).
Definition WithGroup (name : string) (h : ConsoleHandler) : ConsoleHandler :=
  if bool_decide (name = "") then h else MkConsole (min_level h) (out h) (attrs h) (joinGroup (group h) name).

Definition formatAttr (a : attr) : string :=
  match a_key a, a_value a with
  | "", VNil => ""
  | k, v => let text := value_text v in if bool_decide (text = "") then "" else k +:+ "=" +:+ text
  end.
Definition formatAttrs (pre : list attr) (g : string) (r : record) : string :=
  join (List.filter (λ p, negb (bool_decide (p = ""))) (map formatAttr (pre ++ map (in_group g) (r_attrs r)))) " ".

Definition body (h : ConsoleHandler) (r : record) : string :=
  let text := formatAttrs (attrs h) (group h) r in
  "[" +:+ FormatTimestamp (r_time r) +:+ "] [" +:+ levelColor (r_level r) +:+ level_string (r_level r) +:+ ansiReset +:+
  "] " +:+ r_message r +:+ (if bool_decide (text = "") then "" else " (" +:+ text +:+ ")").
Definition line (h : ConsoleHandler) (r : record) : string := body h r +:+ mk [Logging.newline].
Definition Handle (h : ConsoleHandler) (r : record) : ConsoleHandler * option error :=
  let '(w, e) := w_write (out h) (line h r) in (MkConsole (min_level h) w (attrs h) (group h), e).

#[export] Instance console_slog : Logging.SlogHandler ConsoleHandler record := {|
  Logging.h_enabled := Enabled; Logging.h_handle := Handle; Logging.rec_level := r_level
|}.

(** * Lemmas *)
Definition with_attrs (l : list attr) (r : record) : record := MkRecord (r_time r) (r_level r) (r_message r) l.

(** How a handler was derived, and the record that says the same. *)
Inductive derivation := DAttrs (l : list attr) | DGroup (name : string).
Definition derive (d : derivation) (h : ConsoleHandler) : ConsoleHandler :=
  match d with DAttrs l => WithAttrs l h | DGroup name => WithGroup name h end.
Definition flatten (d : derivation) (r : record) : record :=
  match d with
  | DAttrs l => with_attrs (l ++ r_attrs r) r
  | DGroup name => if bool_decide (name = "") then r else with_attrs (map (in_group name) (r_attrs r)) r
  end.

Lemma group_assoc g n k : n ≠ "" → joinGroup (joinGroup g n) k = joinGroup g (joinGroup n k).
Proof.
  intros Hn. assert (Hne : joinGroup g n ≠ "").
  { unfold joinGroup. case_bool_decide as Hg; [done|]. intros E. apply (f_equal bytes) in E. rewrite !bytes_app in E.
    destruct (bytes g) eqn:Eg; [by apply bytes_nil in Eg|done]. }
  unfold joinGroup at 1. rewrite (bool_decide_false _ Hne). unfold joinGroup. rewrite (bool_decide_false _ Hn).
  case_bool_decide; [done|]. apply bytes_inj. by rewrite !bytes_app, <-!app_assoc.
Qed.

Lemma derive_line d h r : line (derive d h) r = line h (flatten d r).
Proof.
  destruct d as [l|name]; cbn [derive flatten].
  - unfold line, body. cbn. enough (formatAttrs (appendAttrs (attrs h) (group h) l) (group h) r =
      formatAttrs (attrs h) (group h) (with_attrs (l ++ r_attrs r) r)) as -> by done.
    unfold formatAttrs. cbn. enough (appendAttrs (attrs h) (group h) l ++ map (in_group (group h)) (r_attrs r) =
      attrs h ++ map (in_group (group h)) (l ++ r_attrs r)) as -> by done.
    rewrite map_app. unfold appendAttrs. destruct l; [done|]. by rewrite <-app_assoc.
  - unfold WithGroup. case_bool_decide as Hn; [done|]. unfold line, body. cbn.
    enough (formatAttrs (attrs h) (joinGroup (group h) name) r =
      formatAttrs (attrs h) (group h) (with_attrs (map (in_group name) (r_attrs r)) r)) as -> by done.
    unfold formatAttrs. cbn. rewrite map_map. enough (map (in_group (joinGroup (group h) name)) (r_attrs r) =
      map (λ x, in_group (group h) (in_group name x)) (r_attrs r)) as -> by done.
    apply map_ext. intros a. unfold in_group. cbn. by rewrite group_assoc.
Qed.

(** a handler derived with attributes and groups, in any order, writes of a
    record what the first handler writes of the record with the attributes in
    place and their keys in the groups. *)
Theorem derived_handlers ds h r : line (foldl (λ h d, derive d h) h ds) r = line h (foldr flatten r ds).
Proof.
  revert h. induction ds as [|d ds IH]; intros h; cbn; [done|]. by rewrite IH, derive_line.
Qed.

(** ** Timestamps *)
Lemma pretty_width w n s : (n < 10 ^ N.of_nat w)%N → slen (pretty_N_go n s) ≤ w + slen s.
Proof.
  revert n s. induction w as [|w IH]; intros n s Hn.
  - assert (n = 0)%N as -> by lia. by rewrite pretty_N_go_0.
  - destruct (decide (n = 0)%N) as [->|Hz]; [rewrite pretty_N_go_0; lia|]. rewrite pretty_N_go_step by lia.
    rewrite Nat2N.inj_succ, N.pow_succ_r' in Hn.
    specialize (IH (n `div` 10)%N (String (pretty_N_char (n `mod` 10)) s)). unfold slen in *. cbn [bytes length] in *.
    assert (n `div` 10 < 10 ^ N.of_nat w)%N by (apply N.Div0.div_lt_upper_bound; lia). specialize (IH H).
    unfold bytes in *. cbn in *. lia.
Qed.

Lemma slen_pad w n : w ≠ 0 → (n < 10 ^ N.of_nat w)%N → slen (pad w n) = w.
Proof.
  intros Hw Hn. unfold pad. rewrite slen_app. unfold slen at 1. rewrite bytes_mk, length_replicate.
  enough (slen (format_uint n) ≤ w) by lia. unfold format_uint, pretty, pretty_N. case_decide; [change (slen _) with 1; lia|].
  pose proof (pretty_width w n "" Hn) as H1. change (slen "") with 0 in H1. lia.
Qed.

(** A time with its fields in their ranges. *)
Definition civil_ok (t : civil) : Prop :=
  (year t ≤ 9999 ∧ month t ≤ 12 ∧ day t ≤ 31 ∧ hour t ≤ 23 ∧ minute t ≤ 59 ∧ second t ≤ 60 ∧ nanosecond t < 1000000000)%N ∧
  (Z.abs (offset t) < 86400)%Z.

Lemma slen_zone off : (Z.abs off < 86400)%Z → slen (zone_text off) = if (off =? 0)%Z then 1 else 6.
Proof.
  intros Ho. unfold zone_text. destruct (off =? 0)%Z; [done|]. set (z := Z.quot off 60).
  assert (Hz : (Z.abs z < 1440)%Z) by (unfold z; Z.to_euclidean_division_equations; lia).
  assert (H1 : (Z.to_N (Z.abs z) / 60 < 100)%N) by (apply N.Div0.div_lt_upper_bound; lia).
  assert (H2 : (Z.to_N (Z.abs z) mod 60 < 100)%N) by (pose proof (N.mod_lt (Z.to_N (Z.abs z)) 60); lia).
  rewrite !slen_app, !slen_pad by done. by destruct (z <? 0)%Z.
Qed.

(** timestamps have a fixed width, whatever the time: 24 bytes in UTC and 29
    elsewhere, so that the levels line up as long as the zone is one of the two. *)
Theorem timestamp_width t : civil_ok t → slen (FormatTimestamp t) = if (offset t =? 0)%Z then 24 else 29.
Proof.
  intros ((Hy & Hm & Hd & Hh & Hmi & Hs & Hn) & Ho). unfold FormatTimestamp.
  assert (nanosecond t / 1000000 < 1000)%N by (apply N.Div0.div_lt_upper_bound; lia).
  rewrite !slen_app, !slen_pad, slen_zone by (done || cbn; lia). by destruct (offset t =? 0)%Z.
Qed.

(** ** One line a record *)
Definition plain (s : string) : Prop := Forall (λ c, is_char Logging.newline c = false) (bytes s).
#[local] Instance plain_dec s : Decision (plain s).
Proof. unfold plain. apply _. Defined.

Lemma plain_app s t : plain (s +:+ t) ↔ plain s ∧ plain t.
Proof. unfold plain. by rewrite bytes_app, Forall_app. Qed.
Lemma plain_const s : bool_decide (plain s) = true → plain s.
Proof. apply bool_decide_eq_true. Qed.
Lemma plain_digits n : plain (format_uint n).
Proof.
  destruct (format_uint_digits n) as (_ & Hd & _). eapply Forall_impl; [exact Hd|]. intros c Hc.
  apply bool_decide_eq_false. by intros ->.
Qed.
Lemma plain_pad w n : plain (pad w n).
Proof.
  unfold pad. apply plain_app. split; [|apply plain_digits]. unfold plain. rewrite bytes_mk. by apply Forall_replicate.
Qed.
Lemma plain_itoa n : plain (itoa n).
Proof. unfold itoa. destruct (n <? 0)%Z; [apply plain_app; split; [by apply plain_const|]|]; apply plain_digits. Qed.
#[local] Hint Resolve plain_digits plain_pad plain_itoa : plain.
Ltac plains := rewrite ?plain_app; split_and?; auto with plain; try by apply plain_const.

Lemma plain_time t : plain (FormatTimestamp t).
Proof. unfold FormatTimestamp, zone_text. destruct (offset t =? 0)%Z; [|destruct (_ <? 0)%Z]; plains. Qed.

Lemma plain_level l : plain (levelColor l +:+ level_string l).
Proof.
  apply plain_app. split; [unfold levelColor; repeat case_match; by apply plain_const|].
  assert (plain (level_base l).1) by (unfold level_base; repeat case_match; by apply plain_const).
  unfold level_string, plus_d. destruct (level_base l) as [b z]. cbn in *. repeat case_match; plains.
Qed.

Lemma plain_join l : Forall plain l → plain (join l " ").
Proof.
  intros Hl. unfold plain. rewrite bytes_join. induction Hl as [|w [|v l] Hw Hl IH]; cbn in *; [constructor|done|].
  apply Forall_app. split; [done|]. by constructor.
Qed.

Definition plain_attr (a : attr) : Prop := plain (a_key a) ∧ plain (value_text (a_value a)).
Lemma plain_format a : plain_attr a → plain (formatAttr a).
Proof.
  intros [Hk Hv]. unfold formatAttr. destruct (a_key a) as [|c k]; destruct (a_value a);
    try (by apply plain_const); case_bool_decide; try (by apply plain_const); plains.
Qed.

Lemma plain_in_group g a : plain g → plain_attr a → plain_attr (in_group g a).
Proof. intros Hg [Hk Hv]. split; [|done]. cbn. unfold joinGroup. case_bool_decide; plains. Qed.

Lemma plain_attrs pre g r : Forall plain_attr pre → plain g → Forall plain_attr (r_attrs r) → plain (formatAttrs pre g r).
Proof.
  intros Hp Hg Hr. apply plain_join.
  assert (Hall : Forall plain (map formatAttr (pre ++ map (in_group g) (r_attrs r)))).
  { apply Forall_map, Forall_app. split; [by eapply Forall_impl; [exact Hp|apply plain_format]|].
    apply Forall_map. eapply Forall_impl; [exact Hr|]. intros a Ha. by apply plain_format, plain_in_group. }
  induction Hall as [|p l Hpl _ IH]; cbn; [constructor|]. destruct (negb _); [by constructor|done].
Qed.

(** a record whose message, keys and values hold no newline is one line. *)
Theorem record_is_line h r : plain (r_message r) → plain (group h) → Forall plain_attr (attrs h) →
  Forall plain_attr (r_attrs r) → ∃ text, plain text ∧ line h r = text +:+ mk [Logging.newline].
Proof.
  intros Hm Hg Ha Hr. pose proof (plain_attrs _ _ _ Ha Hg Hr) as Ht. pose proof (plain_time (r_time r)) as Htime.
  pose proof (plain_level (r_level r)) as [Hc Hl]%plain_app. exists (body h r). split; [|done]. unfold body.
  set (text := formatAttrs _ _ _) in *. clearbody text. case_bool_decide; plains.
Qed.

(** A message that holds a newline writes the lines of two records. *)
Lemma message_forges_line h r a r2 : attrs h = [] →
  line h (MkRecord (r_time r) (r_level r) (a +:+ mk [Logging.newline] +:+ body h r2) []) =
  line h (MkRecord (r_time r) (r_level r) a []) +:+ line h r2.
Proof.
  intros Hh. unfold line. set (b2 := body h r2). clearbody b2. unfold body. rewrite Hh. cbn [r_attrs r_time r_level r_message].
  change (formatAttrs [] (group h) _) with "". apply bytes_inj. rewrite !bytes_app. by rewrite <-?app_assoc.
Qed.

End console.

End Console.
