(* ===== verification/Feeds.v ===== *)
(** * Blocklist feeds: internal/firewall/{sources,custom,sync}.go

    The two tables of the management database that the firewall reads, the
    download of the enabled feeds into files, and the reload that follows. The
    SQL statements, the HTTP client and the texts of times are interfaces; the
    files are those of [FileSys]. Times are seconds since 1970, in UTC. *)
From S2P Require Import Prelude Radix Files Encoding Sql Firewall.

(** ** The tables, as database/sql scans them *)
Record source_row := MkSourceRow {
  sr_id : Z; sr_url : string; sr_description : option string; sr_enabled : Z;
  sr_last_count : Z; sr_last_sync : option string
}.
Record custom_row := MkCustomRow { cr_id : Z; cr_domain : string; cr_created_at : string }.

(** The statements: a query gives the rows it delivers, then an error or the
    end; a [RETURNING] statement its row, the others the number of rows they
    changed. *)
Class FeedsDB (D : Type) := {
  sql_sources : D → res (list source_row * option error);
  sql_enabled_sources : D → res (list source_row * option error);
  sql_insert_source : D → string → option string → D * res source_row;
  sql_update_source : D → Z → option Z → option (option string) → D * res source_row;
  sql_delete_source : D → Z → D * res Z;
  sql_source_stats : D → Z → Z → string → D * res Z;
  sql_customs : D → res (list custom_row * option error);
  sql_insert_custom : D → string → string → D * res custom_row;
  sql_delete_custom : D → Z → D * res Z
}.

(** What the statements do to the two tables, which are keyed by [id]; the
    columns [url] and [domain] are unique. *)
Class FeedsDBLaws (D : Type) `{FeedsDB D} {SE : ErrorText} := {
  src_table : D → gmap Z source_row;
  cust_table : D → gmap Z custom_row;
  src_key : ∀ d i r, src_table d !! i = Some r → sr_id r = i ∧ (0 < i < 2 ^ 63)%Z;
  sources_law : ∀ d rows, sql_sources d = Ok (rows, None) →
    NoDup (map sr_id rows) ∧ ∀ r, r ∈ rows ↔ src_table d !! sr_id r = Some r;
  enabled_law : ∀ d rows, sql_enabled_sources d = Ok (rows, None) →
    NoDup (map sr_id rows) ∧ ∀ r, r ∈ rows ↔ src_table d !! sr_id r = Some r ∧ sr_enabled r = 1%Z;
  insert_source_law : ∀ d url desc d' r, sql_insert_source d url desc = (d', r) →
    cust_table d' = cust_table d ∧
    match r with
    | Ok row => row = MkSourceRow (sr_id row) url desc 1 0 None ∧ src_table d !! sr_id row = None ∧
        src_table d' = <[sr_id row := row]> (src_table d) ∧
        ¬ (∃ i row', src_table d !! i = Some row' ∧ sr_url row' = url)
    | Err e => src_table d' = src_table d ∧
        (isUniqueConstraintError e = true ↔
         ∃ i row', src_table d !! i = Some row' ∧ sr_url row' = url)
    end;
  update_source_law : ∀ d id enabled desc d' r, sql_update_source d id enabled desc = (d', r) →
    cust_table d' = cust_table d ∧
    match r with
    | Ok row => ∃ row0, src_table d !! id = Some row0 ∧
        row = MkSourceRow (sr_id row0) (sr_url row0) (default (sr_description row0) desc)
                (default (sr_enabled row0) enabled) (sr_last_count row0) (sr_last_sync row0) ∧
        src_table d' = <[id := row]> (src_table d)
    | Err e => src_table d' = src_table d ∧ (errors_is e errNoRows = true ↔ src_table d !! id = None)
    end;
  delete_source_law : ∀ d id d' r, sql_delete_source d id = (d', r) →
    cust_table d' = cust_table d ∧
    match r with
    | Ok n => src_table d' = delete id (src_table d) ∧
        n = if src_table d !! id then 1%Z else 0%Z
    | Err _ => src_table d' = src_table d
    end;
  stats_law : ∀ d id count t d' r, sql_source_stats d id count t = (d', r) →
    cust_table d' = cust_table d ∧
    match r with
    | Ok n => src_table d' = alter (λ row, MkSourceRow (sr_id row) (sr_url row) (sr_description row)
                                       (sr_enabled row) count (Some t)) id (src_table d) ∧
        n = if src_table d !! id then 1%Z else 0%Z
    | Err _ => src_table d' = src_table d
    end;
  customs_law : ∀ d rows, sql_customs d = Ok (rows, None) →
    NoDup (map cr_id rows) ∧ ∀ r, r ∈ rows ↔ cust_table d !! cr_id r = Some r;
  insert_custom_law : ∀ d domain t d' r, sql_insert_custom d domain t = (d', r) →
    src_table d' = src_table d ∧
    match r with
    | Ok row => row = MkCustomRow (cr_id row) domain t ∧ cust_table d !! cr_id row = None ∧
        (0 < cr_id row)%Z ∧ cust_table d' = <[cr_id row := row]> (cust_table d)
    | Err e => cust_table d' = cust_table d
    end;
  delete_custom_law : ∀ d id d' r, sql_delete_custom d id = (d', r) →
    src_table d' = src_table d ∧
    match r with
    | Ok n => cust_table d' = delete id (cust_table d) ∧
        n = if cust_table d !! id then 1%Z else 0%Z
    | Err _ => cust_table d' = cust_table d
    end
}.

(** [time.Parse] and [Format] for the two layouts of the tables. *)
Class TimeText := {
  format_rfc3339 : Z → string;
  parse_rfc3339 : string → option Z;
  parse_date_time : string → option Z
}.

(** The times of the years 1970 to 9999 survive. *)
Class TimeTextLaws `{TimeText} : Prop := {
  rfc3339_roundtrip t : (0 <= t < 253402300800)%Z →
    parse_rfc3339 (format_rfc3339 t) = Some t ∧ trim_space (format_rfc3339 t) = format_rfc3339 t ∧
    format_rfc3339 t ≠ ""
}.

(** [url.Parse], an HTTP GET (status and body, with the error that may end the
    body), the error of the context and the time. *)
Class FeedNet (X : Type) := {
  url_parse : string → option (string * string);    (* scheme, host *)
  feed_get : string → X → res (N * (string * option error)) * X;
  ctx_err : X → option error;
  net_now : X → Z
}.

Module Feeds.
Import Firewall.

Record BlocklistSource := MkSource {
  ID : Z; URL : string; Description : string; Enabled : bool; LastCount : Z; LastSync : option Z
}.
Record CustomBlocklistEntry := MkCustom { ce_ID : Z; ce_Domain : string; ce_CreatedAt : Z }.
Record UpdateBlocklistSourceInput := MkInput {
  in_Enabled : option bool; in_Description : option string
}.

Definition ErrSourceNotFound := errNew "blocklist source not found".
Definition ErrSourceAlreadyExists := errNew "blocklist source already exists".
Definition ErrInvalidSourceURL := errNew "invalid blocklist source URL".
Definition ErrCustomDomainNotFound := errNew "custom blocklist domain not found".
Definition ErrCustomDomainAlreadyExists := errNew "custom blocklist domain already exists".
Definition errNilDB := errNew "database handle is nil".

Section tables.
Context {D : Type} {FD : FeedsDB D} {SE : ErrorText} {TT : TimeText} {X : Type} {FN : FeedNet X}.

Definition ValidateSourceURL (raw : string) : res string :=
  let raw := trim_space raw in
  if bool_decide (raw = "") then Err ErrInvalidSourceURL
  else
    match url_parse raw with
    | None => Err ErrInvalidSourceURL
    | Some (scheme, host) =>
        if negb (bool_decide (scheme = "http")) && negb (bool_decide (scheme = "https"))
        then Err ErrInvalidSourceURL
        else if bool_decide (trim_space host = "") then Err ErrInvalidSourceURL
        else Ok raw
    end.

Definition parseSQLiteDateTime (raw : string) : res Z :=
  let raw := trim_space raw in
  if bool_decide (raw = "") then Err (errNew "empty datetime")
  else
    match parse_rfc3339 raw with
    | Some ts => Ok ts
    | None => match parse_date_time raw with
              | Some ts => Ok ts
              | None => Err (errNew "unsupported datetime format %q")
              end
    end.

(** The columns of a row turned into a source. *)
Definition scanBlocklistSource (r : source_row) : res BlocklistSource :=
  let description := match sr_description r with Some d => trim_space d | None => "" end in
  let source t := MkSource (sr_id r) (sr_url r) description (negb (sr_enabled r =? 0)%Z)
                    (sr_last_count r) t in
  match sr_last_sync r with
  | Some text =>
      if bool_decide (trim_space text = "") then Ok (source None)
      else let? ts := parseSQLiteDateTime text in Ok (source (Some ts))
  | None => Ok (source None)
  end.

Definition InsertBlocklistSource (db : option D) (sourceURL description : string)
    : option D * res BlocklistSource :=
  match db with
  | None => (db, Err errNilDB)
  | Some d =>
      match ValidateSourceURL sourceURL with
      | Err e => (db, Err e)
      | Ok normalized =>
          let description := trim_space description in
          let '(d, r) := sql_insert_source d normalized (nullableDescription description) in
          (Some d, match r with
                   | Err e => if isUniqueConstraintError e then Err ErrSourceAlreadyExists
                              else Err (errWrap "insert blocklist source: %w" e)
                   | Ok row => scanBlocklistSource row
                   end)
      end
  end.

Definition ListBlocklistSources (db : option D) : res (list BlocklistSource) :=
  match db with
  | None => Err errNilDB
  | Some d =>
      let? q := res_wrap "list blocklist sources: %w" (sql_sources d) in
      scan_rows "iterate blocklist sources: %w" scanBlocklistSource q
  end.

Definition ListEnabledBlocklistSources (db : option D) : res (list BlocklistSource) :=
  match db with
  | None => Err errNilDB
  | Some d =>
      let? q := res_wrap "list enabled blocklist sources: %w" (sql_enabled_sources d) in
      scan_rows "iterate enabled blocklist sources: %w" scanBlocklistSource q
  end.

Definition UpdateBlocklistSource (db : option D) (id : Z) (inp : UpdateBlocklistSourceInput)
    : option D * res BlocklistSource :=
  match db with
  | None => (db, Err errNilDB)
  | Some d =>
      if (id <=? 0)%Z then (db, Err ErrSourceNotFound)
      else
        match in_Enabled inp, in_Description inp with
        | None, None => (db, Err (errNew "no fields to update"))
        | enabled, description =>
            let '(d, r) := sql_update_source d id
              ((λ b : bool, if b then 1%Z else 0%Z) <$> enabled)
              ((λ t, nullableDescription (trim_space t)) <$> description) in
            (Some d, match r with
                     | Err e => if errors_is e errNoRows then Err ErrSourceNotFound
                                else Err (errWrap "update blocklist source: %w" e)
                     | Ok row => scanBlocklistSource row
                     end)
        end
  end.

Definition DeleteBlocklistSource (db : option D) (id : Z) : option D * option error :=
  match db with
  | None => (db, Some errNilDB)
  | Some d =>
      if (id <=? 0)%Z then (db, Some ErrSourceNotFound)
      else
        let '(d, r) := sql_delete_source d id in
        (Some d, affected "delete blocklist source: %w" ErrSourceNotFound r)
  end.

Definition UpdateBlocklistSourceStats (db : option D) (id domainCount now : Z)
    : option D * option error :=
  match db with
  | None => (db, Some errNilDB)
  | Some d =>
      if (id <=? 0)%Z then (db, Some ErrSourceNotFound)
      else
        let '(d, r) := sql_source_stats d id domainCount (format_rfc3339 now) in
        (Some d, affected "update blocklist source stats: %w" ErrSourceNotFound r)
  end.

(** *** Custom domains *)
Definition scanCustom (r : custom_row) : res CustomBlocklistEntry :=
  match parse_rfc3339 (cr_created_at r) with
  | Some ts => Ok (MkCustom (cr_id r) (cr_domain r) ts)
  | None =>
      match parse_date_time (cr_created_at r) with
      | Some ts => Ok (MkCustom (cr_id r) (cr_domain r) ts)
      | None => Err (errNew "parse custom blocklist created_at %q: %w")
      end
  end.

Definition ListCustomBlocklistDomains (db : option D) : res (list CustomBlocklistEntry) :=
  match db with
  | None => Err errNilDB
  | Some d =>
      let? q := res_wrap "list custom blocklist domains: %w" (sql_customs d) in
      scan_rows "iterate custom blocklist domains: %w" scanCustom q
  end.

Definition InsertCustomBlocklistDomain (db : option D) (rawDomain : string) (now : Z)
    : option D * res CustomBlocklistEntry :=
  match db with
  | None => (db, Err errNilDB)
  | Some d =>
      match ValidateCustomDomain rawDomain with
      | Err e => (db, Err e)
      | Ok domain =>
          let '(d, r) := sql_insert_custom d domain (format_rfc3339 now) in
          (Some d, match r with
                   | Err e => if isUniqueConstraintError e then Err ErrCustomDomainAlreadyExists
                              else Err (errWrap "insert custom blocklist domain: %w" e)
                   | Ok row => scanCustom row
                   end)
      end
  end.

Definition DeleteCustomBlocklistDomain (db : option D) (id : Z) : option D * option error :=
  match db with
  | None => (db, Some errNilDB)
  | Some d =>
      if (id <=? 0)%Z then (db, Some ErrCustomDomainNotFound)
      else
        let '(d, r) := sql_delete_custom d id in
        (Some d, affected "delete custom blocklist domain: %w" ErrCustomDomainNotFound r)
  end.

(** What the loader asks the database for. *)
Definition loader_db (db : option D) : option DB :=
  match db with
  | None => None
  | Some d => Some (MkDB
      (let? es := ListCustomBlocklistDomains (Some d) in Ok (map ce_Domain es))
      (let? ss := ListEnabledBlocklistSources (Some d) in Ok (map ID ss)))
  end.

End tables.

(** ** Sync *)
Section sync.
Context {D : Type} {FD : FeedsDB D} {SE : ErrorText} {TT : TimeText} {X : Type} {FN : FeedNet X}.
Context {W : Type} {FS : FileSys W} {T : Type → Type} {RO : RadixOps T}.

Definition feedFilePath (dir : string) (id : Z) : string :=
  path_join [dir; feedFilePrefix +:+ itoa id +:+ feedFileSuffix].

(** [os.Open] and the line scanner over the file. *)
Definition open_list (w : W) (path : string) : res Reader :=
  let? text := fs_read w path in
  let '(lines, e) := scan_text text in
  Ok (MkReader lines e).

(** [os.ReadDir], each entry with what opening it gives. *)
Definition read_list_dir (w : W) (dir : string) : ReadDirResult :=
  match fs_read_dir w dir with
  | Ok es => DirEntries (map (λ e, MkDirEntry (de_name e) (de_is_dir e)
                                     (open_list w (path_join [dir; de_name e]))) es)
  | Err e => if fs_is_not_exist e then DirNotExist else DirError
  end.

Fixpoint removeLoop (dir : string) (entries : list dir_entry) (w : W) : W * option error :=
  match entries with
  | [] => (w, None)
  | entry :: entries =>
      if de_is_dir entry || negb (isManagedFeedFile (de_name entry)) then removeLoop dir entries w
      else
        let path := path_join [dir; de_name entry] in
        match fs_remove w path with
        | (w, Some e) => (w, Some (errWrap "remove managed feed file %q: %w" e))
        | (w, None) => removeLoop dir entries w
        end
  end.

Definition removeManagedFeedFiles (dir : string) (w : W) : W * option error :=
  match fs_read_dir w dir with
  | Err e => if fs_is_not_exist e then (w, None)
             else (w, Some (errWrap "read blocklists directory %q: %w" e))
  | Ok entries => removeLoop dir entries w
  end.

(** The status check, then [io.Copy] into the temporary file and the rename. *)
Definition saveFeed (path : string) (resp : N * (string * option error)) (w : W) : W * option error :=
  let '(status, (body, bodyErr)) := resp in
  if (status <? 200)%N || (300 <=? status)%N then (w, Some (errNew "unexpected status %s"))
  else
    let tmpPath := path +:+ ".tmp" in
    match fs_open_trunc w tmpPath with
    | (w, Some e) => (w, Some (errWrap "open temp file: %w" e))
    | (w, None) =>
        let '(w, writeErr) := fs_append w tmpPath body in
        let copyErr := match writeErr with Some e => Some e | None => bodyErr end in
        let '(w, closeErr) := fs_close w tmpPath in
        match copyErr, closeErr with
        | Some e, _ => drop_tmp w tmpPath "write feed file: %w" e
        | None, Some e => drop_tmp w tmpPath "close temp file: %w" e
        | None, None =>
            match fs_rename w tmpPath path with
            | (w, Some e) => drop_tmp w tmpPath "rename feed file: %w" e
            | (w, None) => (w, None)
            end
        end
    end.

Definition downloadFeed (sourceURL path : string) (w : W) (x : X) : option error * W * X :=
  match feed_get sourceURL x with
  | (Err e, x) => (Some (errWrap "fetch feed: %w" e), w, x)
  | (Ok resp, x) => let '(w, e) := saveFeed path resp w in (e, w, x)
  end.

Definition countDomainsInFile (w : W) (path : string) : res Z :=
  match LoadBlocklistFile (open_list w path) (radix_new : T unit) with
  | (_, _, Some e) => Err e
  | (_, count, None) => Ok (Z.of_nat count)
  end.

(** The body of the loop once the feed is on disk: errors are only logged. *)
Definition recordCount (source : BlocklistSource) (path : string) (now : Z) (w : W) (db : option D)
    : option D :=
  match countDomainsInFile w path with
  | Err _ => db
  | Ok domainCount => (UpdateBlocklistSourceStats db (ID source) domainCount now).1
  end.

Fixpoint syncLoop (dir : string) (sources : list BlocklistSource) (db : option D) (w : W) (x : X)
    : option error * option D * W * X :=
  match sources with
  | [] => (None, db, w, x)
  | source :: sources =>
      match ctx_err x with
      | Some e => (Some e, db, w, x)
      | None =>
          let path := feedFilePath dir (ID source) in
          match downloadFeed (URL source) path w x with
          | (Some _, w, x) => syncLoop dir sources db w x
          | (None, w, x) => syncLoop dir sources (recordCount source path (net_now x) w db) w x
          end
      end
  end.

Definition SyncBlocklistSources (db : option D) (dir : string) (engine : option (Engine T)) (w : W) (x : X)
    : option error * option (Engine T) * option D * W * X :=
  if bool_decide (db = None) then (Some errNilDB, engine, db, w, x)
  else if bool_decide (trim_space dir = "")
  then (Some (errNew "blocklists directory must not be empty"), engine, db, w, x)
  else
    match ListEnabledBlocklistSources db with
    | Err e => (Some e, engine, db, w, x)
    | Ok sources =>
        match fs_mkdir_all w dir with
        | (w, Some e) => (Some (errWrap "create blocklists directory %q: %w" e), engine, db, w, x)
        | (w, None) =>
            match removeManagedFeedFiles dir w with
            | (w, Some e) => (Some e, engine, db, w, x)
            | (w, None) =>
                match syncLoop dir sources db w x with
                | (Some e, db, w, x) => (Some e, engine, db, w, x)
                | (None, db, w, x) =>
                    (None, LoadFromDirWithDB (read_list_dir w dir) (loader_db db) <$> engine, db, w, x)
                end
            end
        end
    end.

End sync.
(** * Lemmas *)

(** ** Names of feed files *)
Definition feed_name (id : Z) : string := feedFilePrefix +:+ itoa id +:+ feedFileSuffix.

Lemma itoa_nonneg id : (0 <= id)%Z → itoa id = format_uint (Z.to_N id).
Proof. intros. unfold itoa. by rewrite (proj2 (Z.ltb_ge _ _)) by lia. Qed.

Lemma digit_not_slash c : is_digit c = true → is_char "/" c = false.
Proof. intros Hd. apply not_true_iff_false. intros E%bool_decide_eq_true. subst c. by vm_compute in Hd. Qed.

Lemma itoa_no_slash id : existsb (is_char "/") (bytes (itoa id)) = false.
Proof.
  assert (Hd : ∀ n, existsb (is_char "/") (bytes (format_uint n)) = false).
  { intros n. destruct (format_uint_digits n) as (_ & Hd & _).
    induction Hd as [|c l Hc _ IH]; [done|]. cbn. by rewrite digit_not_slash. }
  unfold itoa. case_match; [|apply Hd]. rewrite bytes_app. cbn. by rewrite Hd.
Qed.

Lemma feed_entry id s : existsb (is_char "/") (bytes s) = false → entry_name (feed_name id +:+ s) = true.
Proof.
  intros Hs. unfold entry_name, feed_name. rewrite !bool_decide_eq_false_2 by done. cbn [negb andb].
  rewrite !bytes_app, !existsb_app, itoa_no_slash, Hs. done.
Qed.

Lemma feed_managed id : isManagedFeedFile (feed_name id) = true.
Proof.
  unfold isManagedFeedFile. apply andb_true_iff. split.
  - apply has_prefix_spec. by eexists.
  - apply has_suffix_spec. exists (feedFilePrefix +:+ itoa id). unfold feed_name.
    apply bytes_inj. by rewrite !bytes_app, <-!app_assoc.
Qed.

Lemma tmp_not_managed n : isManagedFeedFile (n +:+ ".tmp") = false.
Proof.
  unfold isManagedFeedFile. apply andb_false_iff. right. apply not_true_iff_false.
  intros [t E%(f_equal (λ s, head (reverse (bytes s))))]%has_suffix_spec.
  rewrite !bytes_app, !reverse_app in E. by vm_compute in E.
Qed.

Lemma feed_source_id id : (0 < id < 2 ^ 63)%Z → sourceIDFromFeedFile (feed_name id) = Some id.
Proof.
  intros Hid. unfold sourceIDFromFeedFile. rewrite feed_managed. cbn [negb].
  unfold feed_name. rewrite trim_prefix_app, trim_suffix_app, itoa_nonneg, atoi_format_uint by lia.
  rewrite Z2N.id by lia. by rewrite (proj2 (Z.leb_gt _ _)) by lia.
Qed.

Lemma feed_name_inj i j : (0 < i < 2 ^ 63)%Z → (0 < j < 2 ^ 63)%Z → feed_name i = feed_name j → i = j.
Proof. intros Hi Hj E. apply (f_equal sourceIDFromFeedFile) in E. rewrite !feed_source_id in E by done. congruence. Qed.

Lemma feed_path_tmp dir id : feedFilePath dir id +:+ ".tmp" = path_join [dir; feed_name id +:+ ".tmp"].
Proof.
  unfold feedFilePath. fold (feed_name id). pose proof (feed_entry id "" eq_refl) as H0.
  assert (feed_name id +:+ "" = feed_name id) as E by (apply bytes_inj; rewrite bytes_app; apply app_nil_r).
  rewrite E in H0. rewrite !path_join_entry by (done || by apply feed_entry).
  apply bytes_inj. by rewrite !bytes_app, <-app_assoc.
Qed.

Lemma feed_entry_name id : entry_name (feed_name id) = true.
Proof.
  pose proof (feed_entry id "" eq_refl) as H0.
  assert (feed_name id +:+ "" = feed_name id) as E by (apply bytes_inj; rewrite bytes_app; apply app_nil_r).
  by rewrite E in H0.
Qed.

(** ** One sync *)
Section sync_lemmas.
Context {D : Type} {FD : FeedsDB D} {SE : ErrorText} {DL : FeedsDBLaws D} {TT : TimeText}.
Context {X : Type} {FN : FeedNet X}.
Context {W : Type} {FS : FileSys W} {FL : FileSysLaws W} {DI : DirLaws W}.
Context {T : Type → Type} {RO : RadixOps T} {RL : RadixLaws T}.

(** A complete body the server of the URL gave with a status of success. *)
Definition served (url text : string) : Prop :=
  ∃ x x' status, feed_get url x = (Ok (status, (text, None)), x') ∧ (200 <= status < 300)%N.

Definition source_failed (dir : string) (s : BlocklistSource) : Prop :=
  ∃ (w : W) (x : X), (downloadFeed (URL s) (feedFilePath dir (ID s)) w x).1.1 ≠ None.

Lemma saveFeed_spec path status body bodyErr w w' e :
  saveFeed path (status, (body, bodyErr)) w = (w', e) →
  replaced w w' path body e ∧ (e = None → bodyErr = None ∧ (200 <= status < 300)%N).
Proof.
  unfold saveFeed. destruct (_ || _) eqn:Hs.
  { intros [= <- <-]. split; [|done]. by split. }
  bool_hyps. pose proof (open_other w (path +:+ ".tmp")) as H1.
  destruct (fs_open_trunc w (path +:+ ".tmp")) as [w1 [e1|]] eqn:E1; cbn [fst] in H1.
  { intros [= <- <-]. split; [|done]. split; [|intros; by apply H1].
    apply H1. apply not_eq_sym, tmp_ne. }
  apply open_ok in E1.
  pose proof (append_other w1 (path +:+ ".tmp") body) as H2.
  destruct (fs_append w1 (path +:+ ".tmp") body) as [w2 we] eqn:E2; cbn [fst] in H2.
  pose proof (close_files w2 (path +:+ ".tmp")) as H3.
  destruct (fs_close w2 (path +:+ ".tmp")) as [w3 ce] eqn:E3; cbn [fst] in H3.
  assert (Hq : ∀ q, q ≠ path +:+ ".tmp" → fs_file w3 q = fs_file w q).
  { intros q Hq. by rewrite H3, H2, H1. }
  assert (Hd : ∀ label e0, drop_tmp w3 (path +:+ ".tmp") label e0 = (w', e) →
    replaced w w' path body e ∧ (e = None → bodyErr = None ∧ (200 <= status < 300)%N)).
  { intros label e0 Hd. split; [by eapply drop_tmp_replaced|]. injection Hd as _ <-. done. }
  destruct we as [we|]; [apply Hd|]. destruct bodyErr as [be|]; [apply Hd|].
  destruct ce as [ce|]; [apply Hd|]. intros Hr. split; [|intros; split; [done|lia]].
  eapply swap_tmp_replaced; [exact Hq| |exact Hr].
  rewrite H3. by apply (append_ok _ _ _ _ "") in E2.
Qed.

Lemma downloadFeed_spec url path w x e w' x' :
  downloadFeed url path w x = (e, w', x') →
  (∀ q, q ≠ path → q ≠ path +:+ ".tmp" → fs_file w' q = fs_file w q) ∧
  match e with
  | Some _ => fs_file w' path = fs_file w path
  | None => ∃ text, served url text ∧ fs_file w' path = Some text
  end.
Proof.
  unfold downloadFeed. destruct (feed_get url x) as [[[status [body berr]]|e0] x1] eqn:Eg.
  - destruct (saveFeed path _ w) as [w1 e1] eqn:Es. intros [= <- <- <-].
    apply saveFeed_spec in Es as [[H1 H2] H3]. split; [done|].
    destruct e1; [done|]. destruct (H3 eq_refl) as [-> Hst]. exists body.
    split; [|done]. by exists x, x1, status.
  - intros [= <- <- <-]. by split.
Qed.

Lemma removeLoop_spec dir es w w' :
  removeLoop dir es w = (w', None) →
  (∀ q, fs_file w' q = fs_file w q ∨ fs_file w' q = None) ∧
  (∀ q, (∀ e, e ∈ es → isManagedFeedFile (de_name e) = true → q ≠ path_join [dir; de_name e]) →
     fs_file w' q = fs_file w q) ∧
  (∀ e, e ∈ es → de_is_dir e = false → isManagedFeedFile (de_name e) = true →
     fs_file w' (path_join [dir; de_name e]) = None).
Proof.
  revert w. induction es as [|e es IH]; intros w; cbn [removeLoop].
  { intros [= <-]. split_and!; [by left|done|]. by intros e ?%elem_of_nil. }
  destruct (de_is_dir e || negb (isManagedFeedFile (de_name e))) eqn:Hm.
  - intros (H1 & H2 & H3)%IH. split_and!; [done| |].
    + intros q Hq. apply H2. intros e' He'. apply Hq. by right.
    + intros e' [->|He']%elem_of_cons Hd Hn; [|by apply H3]. by rewrite Hd, Hn in Hm.
  - pose proof (remove_other w (path_join [dir; de_name e])) as Hr.
    destruct (fs_remove w (path_join [dir; de_name e])) as [w1 [er|]] eqn:E1; [done|].
    cbn [fst] in Hr. apply remove_ok in E1. intros (H1 & H2 & H3)%IH.
    apply orb_false_iff in Hm as [_ Hm%negb_false_iff]. split_and!.
    + intros q. destruct (decide (q = path_join [dir; de_name e])) as [->|Hq].
      * right. destruct (H1 (path_join [dir; de_name e])) as [->|]; done.
      * rewrite <-(Hr q Hq). apply H1.
    + intros q Hq. rewrite H2; [apply Hr; apply Hq; [by left|done]|].
      intros e' He'. apply Hq. by right.
    + intros e' [->|He']%elem_of_cons Hd Hn; [|by apply H3].
      by destruct (H1 (path_join [dir; de_name e])) as [->|].
Qed.

Lemma removeManaged_spec dir w w' :
  removeManagedFeedFiles dir w = (w', None) →
  (∀ n, entry_name n = true → isManagedFeedFile n = true → fs_file w' (path_join [dir; n]) = None) ∧
  (∀ q, (∀ n, entry_name n = true → isManagedFeedFile n = true → q ≠ path_join [dir; n]) →
     fs_file w' q = fs_file w q).
Proof.
  unfold removeManagedFeedFiles. destruct (fs_read_dir w dir) as [es|e] eqn:Er.
  - intros (H1 & H2 & H3)%removeLoop_spec. split.
    + intros n Hn Hm. destruct (fs_file w (path_join [dir; n])) as [t|] eqn:Ef.
      * apply (read_dir_files _ _ _ n) in Er as [Hx _]; [|done].
        destruct Hx as (e & He & <- & Hd); [by eexists|]. by apply H3.
      * destruct (H1 (path_join [dir; n])) as [->|]; done.
    + apply read_dir_names in Er as [_ Hn]. intros q Hq. apply H2. intros e He Hm.
      apply Hq; [|done]. by eapply Forall_forall in Hn.
  - destruct (fs_is_not_exist e) eqn:Ee; [|done]. intros [= <-]. split; [|done].
    intros n Hn _. by eapply read_dir_none.
Qed.

(** What a sync leaves of the tables: all but the counts and their times. *)
Definition row_kept (r : source_row) : Z * string * option string * Z :=
  (sr_id r, sr_url r, sr_description r, sr_enabled r).
Definition tables_kept (db db' : option D) : Prop :=
  match db, db' with
  | Some d, Some d' => cust_table d' = cust_table d ∧
      ∀ i, row_kept <$> src_table d' !! i = row_kept <$> src_table d !! i
  | None, None => True
  | _, _ => False
  end.

#[local] Instance tables_kept_pre : PreOrder tables_kept.
Proof.
  split.
  - by intros [d|].
  - intros [a|] [b|] [c|]; cbn; try done. intros [H1 H2] [H3 H4].
    split; [congruence|]. intros i. by rewrite H4, H2.
Qed.

Lemma stats_kept db id n now : tables_kept db (UpdateBlocklistSourceStats db id n now).1.
Proof.
  unfold UpdateBlocklistSourceStats. destruct db as [d|]; [|done].
  case_match; [reflexivity|]. destruct (sql_source_stats d id n _) as [d' r] eqn:E.
  apply stats_law in E as [Hc Hr]. cbn. split; [done|]. intros i.
  destruct r as [m|e]; [|by rewrite Hr]. destruct Hr as [-> _].
  destruct (decide (i = id)) as [->|]; [|by rewrite lookup_alter_ne].
  rewrite lookup_alter_eq. by destruct (src_table d !! id).
Qed.

Lemma recordCount_kept s path now w db :
  tables_kept db (recordCount (T := T) s path now w db).
Proof. unfold recordCount. case_match; [apply stats_kept|reflexivity]. Qed.

(** What one source of the sync leaves in its file. *)
Definition feed_outcome (dir : string) (s : BlocklistSource) (before after : option string) : Prop :=
  (∃ t, served (URL s) t ∧ after = Some t) ∨ (source_failed dir s ∧ after = before).

Definition feed_paths (dir : string) (ss : list BlocklistSource) (q : string) : Prop :=
  ∃ s, s ∈ ss ∧ (q = feedFilePath dir (ID s) ∨ q = feedFilePath dir (ID s) +:+ ".tmp").

Definition ids_ok (ss : list BlocklistSource) : Prop :=
  NoDup (map ID ss) ∧ Forall (λ s, 0 < ID s < 2 ^ 63)%Z ss.

Lemma feed_path_inj dir i j : (0 < i < 2 ^ 63)%Z → (0 < j < 2 ^ 63)%Z →
  feedFilePath dir i = feedFilePath dir j → i = j.
Proof.
  intros Hi Hj E. apply feed_name_inj; [done..|].
  eapply path_join_inj; [apply feed_entry_name..|exact E].
Qed.

Lemma feed_path_not_tmp dir i j : feedFilePath dir i ≠ feedFilePath dir j +:+ ".tmp".
Proof.
  rewrite feed_path_tmp. intros E. apply path_join_inj in E;
    [|apply feed_entry_name|by apply feed_entry].
  pose proof (feed_managed i) as Hm. unfold feed_name in Hm at 1. rewrite E in Hm.
  by rewrite tmp_not_managed in Hm.
Qed.

Lemma syncLoop_spec dir ss db w x db' w' x' :
  ids_ok ss → syncLoop (T := T) dir ss db w x = (None, db', w', x') →
  tables_kept db db' ∧ (∀ q, ¬ feed_paths dir ss q → fs_file w' q = fs_file w q) ∧
  ∀ s, s ∈ ss → feed_outcome dir s (fs_file w (feedFilePath dir (ID s))) (fs_file w' (feedFilePath dir (ID s))).
Proof.
  intros [Hnd Hpos]. revert db w x. induction ss as [|s ss IH]; intros db w x; cbn [syncLoop].
  { intros [= <- <- _]. split_and!; [reflexivity|done|]. by intros s ?%elem_of_nil. }
  apply NoDup_cons in Hnd as [Hni Hnd]. apply Forall_cons in Hpos as [Hp Hpos].
  specialize (IH Hnd Hpos). destruct (ctx_err x); [done|].
  destruct (downloadFeed (URL s) (feedFilePath dir (ID s)) w x) as [[e w1] x1] eqn:Ed.
  apply downloadFeed_spec in Ed as Hs. destruct Hs as [Hother Hself].
  intros Hrest. set (db1 := match e with Some _ => db | None => recordCount (T := T) s (feedFilePath dir (ID s)) (net_now x1) w1 db end).
  assert (Hk : tables_kept db db1) by (subst db1; destruct e; [reflexivity|apply recordCount_kept]).
  assert (Hl : syncLoop (T := T) dir ss db1 w1 x1 = (None, db', w', x')) by (subst db1; by destruct e).
  apply IH in Hl as (H1 & H2 & H3). clear Hrest.
  assert (Hself' : fs_file w' (feedFilePath dir (ID s)) = fs_file w1 (feedFilePath dir (ID s))).
  { apply H2. intros (s' & Hin & [E|E]); [|by apply feed_path_not_tmp in E].
    apply feed_path_inj in E; [|done|by eapply Forall_forall in Hpos].
    apply Hni. rewrite E. by apply list_elem_of_fmap_2. }
  split_and!.
  - by transitivity db1.
  - intros q Hq. rewrite H2, Hother; [done|..].
    + intros ->. apply Hq. exists s. split; [by left|by left].
    + intros ->. apply Hq. exists s. split; [by left|by right].
    + intros (s' & Hin & He). apply Hq. exists s'. split; [by right|done].
  - intros s' [->|Hin]%elem_of_cons.
    + rewrite Hself'. destruct e as [e|].
      * right. split; [|done]. exists w, x. by rewrite Ed.
      * left. destruct Hself as (t & Ht & ->). by exists t.
    + assert (E : fs_file w1 (feedFilePath dir (ID s')) = fs_file w (feedFilePath dir (ID s'))).
      { apply Hother; [|apply feed_path_not_tmp]. intros E.
        apply feed_path_inj in E; [|by eapply Forall_forall in Hpos|done].
        apply Hni. rewrite <-E. by apply list_elem_of_fmap_2. }
      rewrite <-E. by apply H3.
Qed.

(** The domains a list file holds. *)
Definition list_domains (text : string) : list string :=
  concat (map ParseBlocklistLine (scan_text text).1).

Lemma scan_ID r s : scanBlocklistSource r = Ok s → ID s = sr_id r ∧ URL s = sr_url r.
Proof.
  unfold scanBlocklistSource. destruct (sr_last_sync r) as [text|]; [|by intros [= <-]].
  case_bool_decide; [by intros [= <-]|]. destruct (parseSQLiteDateTime text); [|done].
  by intros [= <-].
Qed.

Lemma scanned_ids rows ss : Forall2 (λ r s, scanBlocklistSource r = Ok s) rows ss → map ID ss = map sr_id rows.
Proof. induction 1 as [|r s rs ss [E _]%scan_ID _ IH]; cbn; congruence. Qed.

(** The enabled feeds are the rows with the flag set. *)
Lemma enabled_spec db ss : ListEnabledBlocklistSources db = Ok ss →
  ∃ d, db = Some d ∧ ids_ok ss ∧
  ∀ i, i ∈ map ID ss ↔ ∃ r, src_table d !! i = Some r ∧ sr_enabled r = 1%Z.
Proof.
  destruct db as [d|]; [|done]. cbn [ListEnabledBlocklistSources].
  rewrite res_bind_ok. setoid_rewrite res_wrap_ok. setoid_rewrite scan_rows_ok.
  intros ([rows e] & Hq & He & HF). cbn [snd fst] in *. subst e. apply enabled_law in Hq as [Hnd Hin].
  apply scanned_ids in HF. exists d. split; [done|]. unfold ids_ok. rewrite HF.
  assert (Hi : ∀ i, i ∈ map sr_id rows ↔ ∃ r, src_table d !! i = Some r ∧ sr_enabled r = 1%Z).
  { intros i. rewrite list_elem_of_fmap. split.
    - intros (r & -> & Hr%Hin). by exists r.
    - intros (r & Hr & He). destruct (src_key _ _ _ Hr) as [<- _]. exists r.
      split; [done|]. by apply Hin. }
  split_and!; [done| |done]. apply Forall_forall. intros s Hs.
  assert (ID s ∈ map sr_id rows) as (r & Hr & _)%Hi.
  { rewrite <-HF. by apply list_elem_of_fmap_2. }
  by apply src_key in Hr as [_ ?].
Qed.

Lemma enabled_kept db db' ss ss' : tables_kept db db' →
  ListEnabledBlocklistSources db = Ok ss → ListEnabledBlocklistSources db' = Ok ss' →
  ∀ i, i ∈ map ID ss ↔ i ∈ map ID ss'.
Proof.
  intros Hk (d & -> & _ & H1)%enabled_spec (d' & -> & _ & H2)%enabled_spec i.
  rewrite H1, H2. destruct Hk as [_ Hk]. specialize (Hk i).
  destruct (src_table d !! i) as [r|], (src_table d' !! i) as [r'|]; cbn in Hk; try done.
  injection Hk as _ _ _ E. split; intros (q & [= <-] & Hq); eexists; (split; [done|congruence]).
Qed.

(** What loading the directory puts in the tree, when each feed file in it
    belongs to an enabled feed. *)
Lemma read_list_dir_keys {FR : FileReads W} (w : W) dir es db ids e k :
  fs_read_dir w dir = Ok es →
  enabledBlocklistSourceIDs db = ids →
  (∀ n t i, entry_name n = true → fs_file w (path_join [dir; n]) = Some t →
     sourceIDFromFeedFile n = Some i → i ∈ ids) →
  k ∈ keys (tree (LoadFromDirWithDB (read_list_dir w dir) db e : Engine T)) ↔
  (∃ n t, entry_name n = true ∧ fs_file w (path_join [dir; n]) = Some t ∧ k ∈ keys_of (list_domains t)) ∨
  k ∈ keys_of (custom_domains db).
Proof.
  intros Hes Hids Hall. unfold read_list_dir. rewrite Hes.
  destruct (load_dir_exact (map (λ e0, MkDirEntry (de_name e0) (de_is_dir e0)
    (open_list w (path_join [dir; de_name e0]))) es) db e) as [-> _].
  rewrite elem_of_union, Hids. apply or_iff_compat_r. rewrite elem_of_keys_of.
  pose proof (read_dir_names _ _ _ Hes) as [_ Hnames]. split.
  - intros (Hk & dm & Hdm & ->). apply list_elem_of_In, in_concat in Hdm as (ds & Hds & Hin).
    rewrite map_map in Hds. apply in_map_iff in Hds as (en & <- & Hen%list_elem_of_In).
    unfold entry_domains in Hin. cbn [d_isDir d_open] in Hin.
    destruct (de_is_dir en) eqn:Hd; [done|]. case_match; [done|].
    eapply Forall_forall in Hnames as Hn; [|exact Hen].
    destruct (proj2 (read_dir_files _ _ _ _ Hes Hn)) as [t Ht]; [by exists en|].
    exists (de_name en), t. split_and!; [done..|]. apply elem_of_keys_of. split; [done|].
    exists dm. split; [|done]. apply list_elem_of_In. revert Hin. unfold open_list, list_domains.
    rewrite (read_file _ _ _ Ht). cbn [res_bind]. by destruct (scan_text t).
  - intros (n & t & Hn & Ht & (Hk & dm & Hdm & ->)%elem_of_keys_of).
    split; [done|]. exists dm. split; [|done].
    destruct (proj1 (read_dir_files _ _ _ _ Hes Hn)) as (en & Hen & <- & Hd); [by eexists|].
    apply list_elem_of_In, in_concat. exists (list_domains t). split; [|by apply list_elem_of_In].
    rewrite map_map. apply in_map_iff. exists en. split; [|by apply list_elem_of_In].
    unfold entry_domains. cbn [d_isDir d_open]. rewrite Hd.
    assert (feedDisabled db ids (MkDirEntry (de_name en) false (open_list w (path_join [dir; de_name en]))) = false) as ->.
    { unfold feedDisabled. cbn [d_name]. destruct (sourceIDFromFeedFile _) as [i|] eqn:Ei; [|done].
      destruct db; [|done]. rewrite bool_decide_eq_true_2; [done|]. by eapply Hall. }
    unfold open_list, list_domains. rewrite (read_file _ _ _ Ht). cbn [res_bind].
    by destruct (scan_text t).
Qed.

(** * Properties *)


End sync_lemmas.

(** ** The table of sources as a map

    The operations refine a map from identifiers to sources. *)
Inductive feed_op :=
| OInsert (url description : string)
| OUpdate (id : Z) (inp : UpdateBlocklistSourceInput)
| ODelete (id : Z)
| OStats (id count now : Z).

Definition updated (s : BlocklistSource) (inp : UpdateBlocklistSourceInput) : BlocklistSource :=
  MkSource (ID s) (URL s) (default (Description s) (trim_space <$> in_Description inp))
    (default (Enabled s) (in_Enabled inp)) (LastCount s) (LastSync s).

Definition op_id (op : feed_op) : option Z :=
  match op with OInsert _ _ => None | OUpdate id _ | ODelete id | OStats id _ _ => Some id end.

Section refine.
Context {D : Type} {FD : FeedsDB D} {SE : ErrorText} {DL : FeedsDBLaws D} {TT : TimeText} {TL : TimeTextLaws}.
Context {X : Type} {FN : FeedNet X}.

Definition feed_run (op : feed_op) (db : option D) : option D * res (option BlocklistSource) :=
  let done (r : option D * option error) := (r.1, match r.2 with Some e => Err e | None => Ok None end) in
  let some (r : option D * res BlocklistSource) := (r.1, match r.2 with Err e => Err e | Ok s => Ok (Some s) end) in
  match op with
  | OInsert url description => some (InsertBlocklistSource db url description)
  | OUpdate id inp => some (UpdateBlocklistSource db id inp)
  | ODelete id => done (DeleteBlocklistSource db id)
  | OStats id count now => done (UpdateBlocklistSourceStats db id count now)
  end.

Inductive feed_spec (a : gmap Z BlocklistSource)
    : feed_op → res (option BlocklistSource) → gmap Z BlocklistSource → Prop :=
| spec_invalid url description e :
    ValidateSourceURL url = Err e → feed_spec a (OInsert url description) (Err e) a
| spec_insert url description u id s :
    ValidateSourceURL url = Ok u → (∀ i s', a !! i = Some s' → URL s' ≠ u) → a !! id = None →
    s = MkSource id u (trim_space description) true 0 None →
    feed_spec a (OInsert url description) (Ok (Some s)) (<[id := s]> a)
| spec_duplicate url description u i s :
    ValidateSourceURL url = Ok u → a !! i = Some s → URL s = u →
    feed_spec a (OInsert url description) (Err ErrSourceAlreadyExists) a
| spec_update id inp s :
    a !! id = Some s → (in_Enabled inp ≠ None ∨ in_Description inp ≠ None) →
    feed_spec a (OUpdate id inp) (Ok (Some (updated s inp))) (<[id := updated s inp]> a)
| spec_no_fields id inp e :
    in_Enabled inp = None → in_Description inp = None → feed_spec a (OUpdate id inp) (Err e) a
| spec_delete id s :
    a !! id = Some s → feed_spec a (ODelete id) (Ok None) (delete id a)
| spec_stats id count now s :
    a !! id = Some s → feed_spec a (OStats id count now) (Ok None)
      (<[id := MkSource (ID s) (URL s) (Description s) (Enabled s) count (Some now)]> a)
| spec_missing op id :
    op_id op = Some id → a !! id = None → feed_spec a op (Err ErrSourceNotFound) a
| spec_fault op label e :                       (* the database failed *)
    feed_spec a op (Err (errWrap label e)) a.

Definition sources_of (d : D) : gmap Z BlocklistSource :=
  omap (λ r, match scanBlocklistSource r with Ok s => Some s | Err _ => None end) (src_table d).

(** Every row can be scanned. *)
Definition rows_ok (d : D) : Prop :=
  ∀ i r, src_table d !! i = Some r → ∃ s, scanBlocklistSource r = Ok s.

Lemma sources_of_lookup d i s :
  sources_of d !! i = Some s ↔ ∃ r, src_table d !! i = Some r ∧ scanBlocklistSource r = Ok s.
Proof.
  unfold sources_of. rewrite lookup_omap. destruct (src_table d !! i) as [r|]; cbn; [|naive_solver].
  destruct (scanBlocklistSource r) eqn:E; naive_solver congruence.
Qed.

Lemma sources_of_none d i : rows_ok d → sources_of d !! i = None ↔ src_table d !! i = None.
Proof.
  intros Hd. unfold sources_of. rewrite lookup_omap.
  destruct (src_table d !! i) as [r|] eqn:E; [|done]. destruct (Hd _ _ E) as [s Hs]. cbn. by rewrite Hs.
Qed.

Lemma sources_of_eq d d' : src_table d' = src_table d → sources_of d' = sources_of d.
Proof. unfold sources_of. by intros ->. Qed.

Lemma sources_of_insert d d' i r s : src_table d' = <[i := r]> (src_table d) →
  scanBlocklistSource r = Ok s → rows_ok d → sources_of d' = <[i := s]> (sources_of d) ∧ rows_ok d'.
Proof.
  intros E Hs Hd. unfold sources_of, rows_ok. rewrite E. split.
  - apply omap_insert_Some. by rewrite Hs.
  - intros j r'. rewrite lookup_insert_Some. intros [[<- <-]|[_ Hj]]; [by eexists|by eapply Hd].
Qed.

Lemma sources_of_delete d d' i : src_table d' = delete i (src_table d) →
  rows_ok d → sources_of d' = delete i (sources_of d) ∧ rows_ok d'.
Proof.
  intros E Hd. unfold sources_of, rows_ok. rewrite E. split; [apply omap_delete|].
  intros j r' [_ Hj]%lookup_delete_Some. by eapply Hd.
Qed.

Lemma sources_of_pos d i s : sources_of d !! i = Some s → (0 < i)%Z.
Proof. intros (r & [_ ?]%src_key & _)%sources_of_lookup. lia. Qed.

Lemma sources_of_nonpos d i : (i <=? 0)%Z = true → sources_of d !! i = None.
Proof.
  intros Hi%Z.leb_le. destruct (sources_of d !! i) eqn:E; [|done].
  apply sources_of_pos in E. lia.
Qed.

Lemma scan_updated row enabled desc s :
  scanBlocklistSource row = Ok s →
  scanBlocklistSource (MkSourceRow (sr_id row) (sr_url row)
    (default (sr_description row) ((λ t, nullableDescription (trim_space t)) <$> desc))
    (default (sr_enabled row) ((λ b : bool, if b then 1%Z else 0%Z) <$> enabled))
    (sr_last_count row) (sr_last_sync row)) = Ok (updated s (MkInput enabled desc)).
Proof.
  unfold scanBlocklistSource. cbn [sr_description sr_enabled sr_last_sync sr_id sr_url sr_last_count].
  assert (Hd : match default (sr_description row) ((λ t, nullableDescription (trim_space t)) <$> desc)
               with Some d => trim_space d | None => "" end =
    default (match sr_description row with Some d => trim_space d | None => "" end) (trim_space <$> desc)).
  { destruct desc as [t|]; cbn; [apply nullable_scan|done]. }
  rewrite Hd. assert (He : negb (default (sr_enabled row) ((λ b : bool, if b then 1%Z else 0%Z) <$> enabled) =? 0)%Z
    = default (negb (sr_enabled row =? 0)%Z) enabled) by by destruct enabled as [[]|].
  rewrite He. destruct (sr_last_sync row) as [text|]; [|by intros [= <-]].
  case_bool_decide; [by intros [= <-]|].
  destruct (parseSQLiteDateTime text); [|done]. by intros [= <-].
Qed.

Lemma insert_refines d url description d' r :
  rows_ok d → InsertBlocklistSource (Some d) url description = (Some d', r) →
  feed_spec (sources_of d) (OInsert url description) (match r with Ok s => Ok (Some s) | Err e => Err e end)
    (sources_of d') ∧ rows_ok d'.
Proof.
  intros Hd. unfold InsertBlocklistSource. destruct (ValidateSourceURL url) as [u|e] eqn:Hu.
  2:{ intros [= <- <-]. split; [by apply spec_invalid|done]. }
  destruct (sql_insert_source d u _) as [d1 q] eqn:Eq. apply insert_source_law in Eq as [_ Hq].
  intros [= <- <-]. destruct q as [row|e].
  - destruct Hq as (Hrow & Hfree & Htab & Huniq).
    assert (Hs : scanBlocklistSource row = Ok (MkSource (sr_id row) u (trim_space description) true 0 None)).
    { rewrite Hrow. unfold scanBlocklistSource. cbn [sr_description sr_last_sync sr_id sr_url sr_enabled sr_last_count].
      by rewrite nullable_scan. }
    rewrite Hs. destruct (sources_of_insert _ _ _ _ _ Htab Hs Hd) as [-> Hd'].
    split; [|done]. eapply spec_insert; [done| |by apply sources_of_none|done].
    intros i s' (r' & Hr' & [_ E]%scan_ID)%sources_of_lookup Hs'. apply Huniq. exists i, r'.
    split; [done|congruence].
  - destruct Hq as [Htab Hiff]. rewrite (sources_of_eq _ _ Htab). 
    split; [|unfold rows_ok; by rewrite Htab].
    destruct (isUniqueConstraintError e) eqn:Ec; [|apply spec_fault].
    destruct (proj1 Hiff eq_refl) as (i & r' & Hr' & E). destruct (Hd _ _ Hr') as [s Hs].
    eapply spec_duplicate; [done| |].
    + apply sources_of_lookup. by exists r'.
    + apply scan_ID in Hs as [_ ->]. done.
Qed.

Lemma update_refines d id inp d' r :
  rows_ok d → UpdateBlocklistSource (Some d) id inp = (Some d', r) →
  feed_spec (sources_of d) (OUpdate id inp) (match r with Ok s => Ok (Some s) | Err e => Err e end)
    (sources_of d') ∧ rows_ok d'.
Proof.
  intros Hd. unfold UpdateBlocklistSource. destruct (id <=? 0)%Z eqn:Hid.
  { intros [= <- <-]. split; [|done]. eapply spec_missing; [done|by apply sources_of_nonpos]. }
  assert (Hrun : (in_Enabled inp ≠ None ∨ in_Description inp ≠ None) →
    (let '(d1, q) := sql_update_source d id ((λ b : bool, if b then 1%Z else 0%Z) <$> in_Enabled inp)
       ((λ t, nullableDescription (trim_space t)) <$> in_Description inp) in
     (Some d1, match q with
               | Err e => if errors_is e errNoRows then Err ErrSourceNotFound
                          else Err (errWrap "update blocklist source: %w" e)
               | Ok row => scanBlocklistSource row
               end)) = (Some d', r) →
    feed_spec (sources_of d) (OUpdate id inp) (match r with Ok s => Ok (Some s) | Err e => Err e end)
      (sources_of d') ∧ rows_ok d').
  { intros Hf. destruct (sql_update_source d id _ _) as [d1 q] eqn:Eq.
    apply update_source_law in Eq as [_ Hq]. intros [= <- <-]. destruct q as [row|e].
    - destruct Hq as (row0 & H0 & Hrow & Htab). destruct (Hd _ _ H0) as [s Hs].
      assert (Hs' : scanBlocklistSource row = Ok (updated s inp)).
      { rewrite Hrow. destruct inp as [en de]. by apply scan_updated. }
      rewrite Hs'. destruct (sources_of_insert _ _ _ _ _ Htab Hs' Hd) as [-> ?].
      split; [|done]. apply spec_update; [|done]. apply sources_of_lookup. by exists row0.
    - destruct Hq as [Htab Hiff]. rewrite (sources_of_eq _ _ Htab).
      split; [|unfold rows_ok; by rewrite Htab]. destruct (errors_is e errNoRows); [|apply spec_fault].
      eapply spec_missing; [done|]. apply sources_of_none; [done|by apply Hiff]. }
  destruct (in_Enabled inp) eqn:E1, (in_Description inp) eqn:E2; try (apply Hrun; naive_solver).
  intros [= <- <-]. split; [by apply spec_no_fields|done].
Qed.

(** What [affected] answers for a statement on one row. *)
Lemma affected_spec d id q label :
  rows_ok d → match q with Ok n => n = if src_table d !! id then 1%Z else 0%Z | Err _ => True end →
  (affected label ErrSourceNotFound q = None ∧ is_ok q = true ∧ ∃ s, sources_of d !! id = Some s) ∨
  (affected label ErrSourceNotFound q = Some ErrSourceNotFound ∧ is_ok q = true ∧ sources_of d !! id = None) ∨
  (∃ e, q = Err e ∧ affected label ErrSourceNotFound q = Some (errWrap label e)).
Proof.
  intros Hd. unfold affected. destruct q as [n|e]; [intros ->|naive_solver].
  destruct (src_table d !! id) as [row|] eqn:E.
  - left. split_and!; [done..|]. destruct (Hd _ _ E) as [s Hs]. exists s. apply sources_of_lookup. by exists row.
  - right; left. split_and!; [done..|]. by apply sources_of_none.
Qed.

Lemma delete_refines d id d' e :
  rows_ok d → DeleteBlocklistSource (Some d) id = (Some d', e) →
  feed_spec (sources_of d) (ODelete id) (match e with Some e => Err e | None => Ok None end)
    (sources_of d') ∧ rows_ok d'.
Proof.
  intros Hd. unfold DeleteBlocklistSource. destruct (id <=? 0)%Z eqn:Hid.
  { intros [= <- <-]. split; [|done]. eapply spec_missing; [done|by apply sources_of_nonpos]. }
  destruct (sql_delete_source d id) as [d1 q] eqn:Eq. apply delete_source_law in Eq as [_ Hq].
  intros [= <- <-].
  destruct (affected_spec d id q "delete blocklist source: %w" Hd) as [(-> & Hok & s & Hs)|[(-> & Hok & Hn)|(e & -> & ->)]].
  { destruct q; [by apply Hq|done]. }
  - destruct q as [n|]; [|done]. destruct Hq as [Htab _].
    destruct (sources_of_delete _ _ _ Htab Hd) as [-> ?]. split; [|done]. by eapply spec_delete.
  - destruct q as [n|]; [|done]. destruct Hq as [Htab _].
    destruct (sources_of_delete _ _ _ Htab Hd) as [-> ?]. split; [|done].
    rewrite delete_id by done. by eapply spec_missing.
  - rewrite (sources_of_eq _ _ Hq). split; [apply spec_fault|unfold rows_ok; by rewrite Hq].
Qed.

Lemma scan_stats row s count now : (0 <= now < 253402300800)%Z → scanBlocklistSource row = Ok s →
  scanBlocklistSource (MkSourceRow (sr_id row) (sr_url row) (sr_description row) (sr_enabled row) count
    (Some (format_rfc3339 now))) = Ok (MkSource (ID s) (URL s) (Description s) (Enabled s) count (Some now)).
Proof.
  intros Hnow Hs. destruct (rfc3339_roundtrip now Hnow) as (Hp & Ht & Hne).
  assert (Hc : ∃ t, s = MkSource (sr_id row) (sr_url row)
    (match sr_description row with Some d => trim_space d | None => "" end)
    (negb (sr_enabled row =? 0)%Z) (sr_last_count row) t).
  { unfold scanBlocklistSource in Hs. destruct (sr_last_sync row) as [text|]; [|injection Hs as <-; by eexists].
    case_bool_decide; [injection Hs as <-; by eexists|].
    destruct (parseSQLiteDateTime text); [|done]. injection Hs as <-. by eexists. }
  destruct Hc as [t ->]. unfold scanBlocklistSource, parseSQLiteDateTime.
  cbn [sr_description sr_last_sync sr_id sr_url sr_enabled sr_last_count ID URL Description Enabled].
  by rewrite !Ht, !bool_decide_eq_false_2, Hp by done.
Qed.

Lemma stats_refines d id count now d' e :
  (0 <= now < 253402300800)%Z →
  rows_ok d → UpdateBlocklistSourceStats (Some d) id count now = (Some d', e) →
  feed_spec (sources_of d) (OStats id count now) (match e with Some e => Err e | None => Ok None end)
    (sources_of d') ∧ rows_ok d'.
Proof.
  intros Hnow Hd. unfold UpdateBlocklistSourceStats. destruct (id <=? 0)%Z eqn:Hid.
  { intros [= <- <-]. split; [|done]. eapply spec_missing; [done|by apply sources_of_nonpos]. }
  destruct (sql_source_stats d id count _) as [d1 q] eqn:Eq. apply stats_law in Eq as [_ Hq].
  intros [= <- <-].
  destruct (affected_spec d id q "update blocklist source stats: %w" Hd) as [(-> & Hok & s & Hs)|[(-> & Hok & Hn)|(e & -> & ->)]].
  { destruct q; [by apply Hq|done]. }
  - destruct q as [n|]; [|done]. destruct Hq as [Htab _].
    pose proof Hs as (row & Hrow & Hscan)%sources_of_lookup.
    rewrite (alter_alt_Some _ _ _ _ Hrow) in Htab.
    destruct (sources_of_insert _ _ _ _ _ Htab (scan_stats _ _ count _ Hnow Hscan) Hd) as [-> ?].
    split; [|done]. by eapply spec_stats.
  - destruct q as [n|]; [|done]. destruct Hq as [Htab _].
    apply sources_of_none in Hn as Hn'; [|done]. rewrite alter_id in Htab by naive_solver.
    rewrite (sources_of_eq _ _ Htab). split; [by eapply spec_missing|unfold rows_ok; by rewrite Htab].
  - rewrite (sources_of_eq _ _ Hq). split; [apply spec_fault|unfold rows_ok; by rewrite Hq].
Qed.


End refine.

(** ** One worker at a time *)
Record sync_state := MkSync { syncRunning : bool; workers : nat }.

(** [CompareAndSwap(false, true)], then the goroutine. *)
Definition StartBlocklistSync (s : sync_state) : bool * sync_state :=
  if syncRunning s then (false, s) else (true, MkSync true (S (workers s))).
Definition SyncInProgress (s : sync_state) : bool := syncRunning s.
(** The deferred [Store(false)] of a worker that ends. *)
Definition syncDone (s : sync_state) : sync_state := MkSync false (pred (workers s)).

Inductive sync_step : sync_state → sync_state → Prop :=
| step_start s : sync_step s (StartBlocklistSync s).2
| step_done s : workers s ≠ 0 → sync_step s (syncDone s).

Lemma single_sync s : rtc sync_step (MkSync false 0) s → workers s = if SyncInProgress s then 1 else 0.
Proof.
  intros Hr. remember (MkSync false 0) as s0 eqn:E0.
  assert (H0 : workers s0 = if SyncInProgress s0 then 1 else 0) by by subst. clear E0.
  induction Hr as [|a b c Hs _ IH]; [done|]. apply IH. rename H0 into Ha. destruct Hs as [a|a Hw]; unfold StartBlocklistSync, SyncInProgress in *;
    destruct (syncRunning a) eqn:E; cbn in *; rewrite ?E; lia.
Qed.

End Feeds.

(** * An instance and witnesses *)
Record demo_feeds := MkDemo { df_src : gmap Z source_row; df_cust : gmap Z custom_row }.

Definition good_key (p : Z * source_row) : Prop := sr_id p.2 = p.1 ∧ (0 < p.1)%Z ∧ (p.1 < 2 ^ 63)%Z.
#[local] Instance good_key_dec p : Decision (good_key p).
Proof. unfold good_key. apply _. Defined.
#[local] Instance good_cust_dec (p : Z * custom_row) : Decision (cr_id p.2 = p.1).
Proof. apply _. Defined.
Definition demo_src (d : demo_feeds) : gmap Z source_row := filter good_key (df_src d).
Definition demo_cust (d : demo_feeds) : gmap Z custom_row := filter (λ p, cr_id p.2 = p.1) (df_cust d).

Definition has_url (t : gmap Z source_row) (url : string) : bool :=
  existsb (λ r, bool_decide (sr_url r = url)) (map_to_list t).*2.

#[export] Instance demo_feeds_db : FeedsDB demo_feeds | 100 := {|
  sql_sources d := Ok ((map_to_list (demo_src d)).*2, None);
  sql_enabled_sources d := Ok (List.filter (λ r, (sr_enabled r =? 1)%Z) (map_to_list (demo_src d)).*2, None);
  sql_insert_source d url desc :=
    let t := demo_src d in
    if has_url t url then (d, Err (errNew "UNIQUE constraint failed: blocklist_sources.url"))
    else if (next_id t <? 2 ^ 63)%Z then
      let r := MkSourceRow (next_id t) url desc 1 0 None in
      (MkDemo (<[next_id t := r]> t) (df_cust d), Ok r)
    else (d, Err (errNew "database or disk is full"));
  sql_update_source d id enabled desc :=
    match demo_src d !! id with
    | None => (d, Err errNoRows)
    | Some r =>
        let r := MkSourceRow (sr_id r) (sr_url r) (default (sr_description r) desc)
                   (default (sr_enabled r) enabled) (sr_last_count r) (sr_last_sync r) in
        (MkDemo (<[id := r]> (demo_src d)) (df_cust d), Ok r)
    end;
  sql_delete_source d id :=
    (MkDemo (delete id (demo_src d)) (df_cust d), Ok (if demo_src d !! id then 1%Z else 0%Z));
  sql_source_stats d id count t :=
    (MkDemo (alter (λ r, MkSourceRow (sr_id r) (sr_url r) (sr_description r) (sr_enabled r) count (Some t)) id
               (demo_src d)) (df_cust d),
     Ok (if demo_src d !! id then 1%Z else 0%Z));
  sql_customs d := Ok ((map_to_list (demo_cust d)).*2, None);
  sql_insert_custom d domain t :=
    let r := MkCustomRow (next_id (demo_cust d)) domain t in
    (MkDemo (df_src d) (<[next_id (demo_cust d) := r]> (demo_cust d)), Ok r);
  sql_delete_custom d id :=
    (MkDemo (df_src d) (delete id (demo_cust d)), Ok (if demo_cust d !! id then 1%Z else 0%Z))
|}.

Lemma demo_src_insert t c i r : sr_id r = i → (0 < i < 2 ^ 63)%Z → filter good_key t = t →
  demo_src (MkDemo (<[i := r]> t) c) = <[i := r]> t.
Proof.
  intros Hi Hb Ht. unfold demo_src. cbn [df_src]. rewrite map_filter_insert_True by (unfold good_key; cbn [fst snd]; split_and!; [done|lia|lia]).
  by rewrite Ht.
Qed.

Lemma demo_src_idem d : filter good_key (demo_src d) = demo_src d.
Proof. unfold demo_src. apply map_filter_id. by intros i r [_ ?]%map_lookup_filter_Some. Qed.

Lemma demo_src_key d i r : demo_src d !! i = Some r → good_key (i, r).
Proof. by intros [_ ?]%map_lookup_filter_Some. Qed.

Lemma demo_rows d : NoDup (map sr_id (map_to_list (demo_src d)).*2) ∧
  ∀ r, r ∈ (map_to_list (demo_src d)).*2 ↔ demo_src d !! sr_id r = Some r.
Proof.
  assert (E : map sr_id (map_to_list (demo_src d)).*2 = (map_to_list (demo_src d)).*1).
  { unfold fmap. rewrite map_map. apply list_fmap_ext. intros j [i r] Hj.
    apply list_elem_of_lookup_2, elem_of_map_to_list, demo_src_key in Hj as [Hk _]. exact Hk. }
  rewrite E. split; [apply NoDup_fst_map_to_list|]. intros r. rewrite list_elem_of_fmap. split.
  - intros ([i r'] & -> & H%elem_of_map_to_list). pose proof (demo_src_key _ _ _ H) as [Hk _].
    cbn in *. by rewrite Hk.
  - intros H. exists (sr_id r, r). split; [done|]. by apply elem_of_map_to_list.
Qed.

#[export] Program Instance demo_feeds_laws : FeedsDBLaws demo_feeds | 100 := {|
  src_table := demo_src; cust_table := demo_cust
|}.
Next Obligation. intros d i r (Hk & ? & ?)%demo_src_key. cbn in *. done. Qed.
Next Obligation. intros d rows [= <-]. apply demo_rows. Qed.
Next Obligation.
  intros d rows [= <-]. destruct (demo_rows d) as [Hnd Hin]. split.
  - set (l := (map_to_list (demo_src d)).*2) in *. clearbody l. clear Hin.
    induction l as [|r l IH]; [done|]. cbn [List.filter map] in *. apply NoDup_cons in Hnd as [Hni Hnd].
    destruct (sr_enabled r =? 1)%Z; [|by apply IH]. cbn [map]. apply NoDup_cons. split; [|by apply IH].
    intros (r' & E & Hr')%list_elem_of_fmap. apply Hni. rewrite E. apply list_elem_of_fmap_2.
    apply list_elem_of_In, filter_In in Hr' as [? _]. by apply list_elem_of_In.
  - intros r. rewrite list_elem_of_In, filter_In, <-list_elem_of_In, Hin. by rewrite Z.eqb_eq.
Qed.
Next Obligation.
  intros d url desc d' r. cbn [sql_insert_source demo_feeds_db].
  assert (Hu : has_url (demo_src d) url = true ↔ ∃ i row', demo_src d !! i = Some row' ∧ sr_url row' = url).
  { unfold has_url. rewrite existsb_exists. split.
    - intros (r0 & Hr0 & E%bool_decide_eq_true). apply list_elem_of_In, demo_rows in Hr0. by eexists _, _.
    - intros (i & r0 & Hr0 & E). exists r0. rewrite bool_decide_eq_true. split; [|done].
      apply list_elem_of_In, demo_rows. apply demo_src_key in Hr0 as Hk. destruct Hk as [Hk _]. cbn in Hk. by rewrite Hk. }
  destruct (has_url (demo_src d) url) eqn:E.
  - intros [= <- <-]. split; [done|]. split; [done|]. rewrite <-Hu. by split.
  - destruct (Z.ltb_spec (next_id (demo_src d)) (2 ^ 63)) as [Hlt|Hlt].
    + pose proof (next_id_pos (demo_src d)). intros [= <- <-]. split; [done|]. cbn [sr_id]. split_and!.
      * done.
      * destruct (demo_src d !! next_id (demo_src d)) eqn:En; [|done]. apply next_id_above in En. lia.
      * apply demo_src_insert; [done|lia|apply demo_src_idem].
      * rewrite <-Hu. done.
    + intros [= <- <-]. split; [done|]. split; [done|]. rewrite <-Hu. by split.
Qed.
Next Obligation.
  intros d id enabled desc d' r. cbn [sql_update_source demo_feeds_db].
  destruct (demo_src d !! id) as [row|] eqn:E.
  - apply demo_src_key in E as Hk. destruct Hk as (Hk & ? & ?). cbn [fst snd] in *.
    intros [= <- <-]. split; [done|]. exists row. split_and!; [done..|].
    apply demo_src_insert; [done|lia|apply demo_src_idem].
  - intros [= <- <-]. done.
Qed.
Next Obligation.
  intros d id d' r [= <- <-]. split; [done|]. split; [|done].
  unfold demo_src at 1. cbn [df_src]. rewrite map_filter_delete. by rewrite demo_src_idem.
Qed.
Next Obligation.
  intros d id count t d' r [= <- <-]. split; [done|]. split; [|done].
  destruct (demo_src d !! id) as [row|] eqn:E.
  - rewrite (alter_alt_Some _ _ _ _ E). apply demo_src_key in E as (Hk & ? & ?). cbn [fst snd] in *.
    apply demo_src_insert; [done|lia|apply demo_src_idem].
  - rewrite alter_id by naive_solver. unfold demo_src at 1. cbn [df_src]. apply demo_src_idem.
Qed.
Next Obligation.
  intros d rows [= <-]. assert (Hk : ∀ i r, demo_cust d !! i = Some r → cr_id r = i).
  { by intros i r [_ ?]%map_lookup_filter_Some. }
  assert (E : map cr_id (map_to_list (demo_cust d)).*2 = (map_to_list (demo_cust d)).*1).
  { unfold fmap. rewrite map_map. apply list_fmap_ext. intros j [i r] Hj.
    apply list_elem_of_lookup_2, elem_of_map_to_list, Hk in Hj. exact Hj. }
  rewrite E. split; [apply NoDup_fst_map_to_list|]. intros r. rewrite list_elem_of_fmap. split.
  - intros ([i r'] & -> & H%elem_of_map_to_list). cbn in *. by rewrite (Hk _ _ H).
  - intros H. exists (cr_id r, r). split; [done|]. by apply elem_of_map_to_list.
Qed.
Next Obligation.
  intros d domain t d' r [= <- <-]. cbn [cr_id]. split; [done|]. pose proof (next_id_pos (demo_cust d)).
  assert (Hid : filter (λ p : Z * custom_row, cr_id p.2 = p.1) (demo_cust d) = demo_cust d).
  { unfold demo_cust. apply map_filter_id. by intros i r [_ ?]%map_lookup_filter_Some. }
  split_and!; [done| |done|].
  - destruct (demo_cust d !! next_id (demo_cust d)) eqn:En; [|done]. apply next_id_above in En. lia.
  - unfold demo_cust at 1. cbn [df_cust]. rewrite map_filter_insert_True by done. by rewrite Hid.
Qed.
Next Obligation.
  intros d id d' r [= <- <-]. split; [done|]. split; [|done].
  unfold demo_cust at 1. cbn [df_cust]. rewrite map_filter_delete. f_equal.
  unfold demo_cust. apply map_filter_id. by intros i r [_ ?]%map_lookup_filter_Some.
Qed.

#[export] Instance demo_times : TimeText | 100 := {|
  format_rfc3339 t := itoa t; parse_rfc3339 := atoi; parse_date_time t := None
|}.
#[export] Instance demo_times_laws : TimeTextLaws.
Proof.
  split. intros t Ht. cbn. rewrite Feeds.itoa_nonneg by lia. rewrite atoi_format_uint by lia. rewrite Z2N.id by lia.
  pose proof (format_uint_word (Z.to_N t)) as Hw. split_and!; [done|apply trimmed_trim; by auto with arx|by destruct Hw].
Qed.

#[export] Instance demo_feed_net : FeedNet nat | 100 := {|
  url_parse u := if has_prefix u "http://" then Some ("http", trim_prefix u "http://") else None;
  feed_get u x :=
    if bool_decide (u = "http://one.example/") then (Ok (200%N, ("bad.example" +:+ String (ascii_of_N 10) "", None)), S x)
    else (Ok (503%N, ("", None)), S x);
  ctx_err _ := None;
  net_now x := Z.of_nat x
|}.

Definition demo_feeds_before : demo_feeds := MkDemo
  {[ 1%Z := MkSourceRow 1 "http://one.example/" None 1 0 None;
     2%Z := MkSourceRow 2 "http://two.example/" (Some "down") 1 0 None ]}
  {[ 1%Z := MkCustomRow 1 "custom.example" "100" ]}.

Definition demo_list_files : ram :=
  {[ "/lists/feed-1.list" := "old.example"; "/lists/feed-2.list" := "two.example";
     "/lists/mine.list" := "mine.example" ]}.

Definition demo_blocker : Firewall.Engine gtree :=
  Firewall.LoadFromDirWithDB (Feeds.read_list_dir demo_list_files "/lists")
    (Feeds.loader_db (Some demo_feeds_before)) (Firewall.New "NXDOMAIN").

Definition demo_sync :=
  Feeds.SyncBlocklistSources (Some demo_feeds_before) "/lists" (Some demo_blocker) demo_list_files 7.

Definition demo_blocked (names : list string) (e : option (Firewall.Engine gtree)) : list bool :=
  map (λ n, match e with Some e => Firewall.Blocked e n | None => false end) names.

(** A feed that cannot be downloaded is unblocked: its old file is removed
    before the download is tried. *)
Lemma failed_download_unblocks :
  demo_blocked ["two.example"; "bad.example"; "mine.example"; "custom.example"] (Some demo_blocker) = [true; false; true; true] ∧
  demo_blocked ["two.example"; "bad.example"; "mine.example"; "custom.example"] (demo_sync.1.1.1.2) = [false; true; true; true].
Proof. by vm_compute. Qed.


