(* ===== verification/Reports.v ===== *)
(** * Reports of the management database: telemetry/audit.go and db.go

    The audit log, written by the middleware of the API and listed newest
    first, and the history of the rollups that Telemetry writes. The
    statements are interfaces; the layouts of the times are those of Feeds,
    with the day layout of the history. *)
From S2P Require Import Prelude Telemetry Sql Feeds.

Record audit_row := MkAuditRow {
  ar_id : Z; ar_timestamp : string; ar_client_ip : string; ar_action : string;
  ar_target : option string; ar_details : option string
}.

(** The columns of [INSERT INTO audit_logs]. *)
Record audit_event := MkEvent {
  ev_timestamp : string; ev_client_ip : string; ev_action : string; ev_target : string;
  ev_details : string; ev_method : string; ev_path : string; ev_status : N; ev_success : Z
}.

Class AuditDB (D : Type) := {
  sql_insert_audit : D → audit_event → D * option error;
  sql_audit_logs : D → Z → res (list audit_row * option error)
}.

(** The events in the order of their identifiers. *)
Class AuditDBLaws (D : Type) `{AuditDB D} := {
  audit_table : D → list (Z * audit_event);
  insert_audit_law : ∀ d e d' err, sql_insert_audit d e = (d', err) →
    match err with
    | None => ∃ id, audit_table d' = audit_table d ++ [(id, e)]
    | Some _ => audit_table d' = audit_table d
    end;
  audit_logs_law : ∀ d limit rows, sql_audit_logs d limit = Ok (rows, None) → (0 <= limit)%Z →
    rows = map (λ p, MkAuditRow p.1 (ev_timestamp p.2) (ev_client_ip p.2) (ev_action p.2)
                       (Some (ev_target p.2)) (Some (ev_details p.2)))
             (take (Z.to_nat limit) (reverse (audit_table d)))
}.

(** A row of the history: the bucket and the sums of the columns. *)
Class HistoryDB (D : Type) := {
  sql_history : D → string → string → res (list (string * Telemetry.counterState) * option error)
}.

(** [time.Parse("2006-01-02", _)]. *)
Class DayText := { parse_day : string → option Z }.

Module Reports.
Import Telemetry.

Definition defaultAuditLimit : Z := 500.

Record AuditLog := MkAuditLog {
  ID : Z; Timestamp : Z; ClientIP : string; Action : string; Target : string; Details : string
}.

Record HistoryPoint := MkPoint { p_Timestamp : Z; p_counts : counterState }.
Record HistoryResponse := MkHistory { Window : string; Granularity : string; Points : list HistoryPoint }.

Definition errUnavailable := errNew "database unavailable".

Section reports.
Context {D : Type} {AD : AuditDB D} {HD : HistoryDB D} {TT : TimeText} {DY : DayText}.

Definition InsertAuditLog (db : option D) (now : Z) (clientIP action target details method path : string)
    (status : N) (success : bool) : option D * option error :=
  match db with
  | None => (db, Some errUnavailable)
  | Some d =>
      let '(d, e) := sql_insert_audit d (MkEvent (format_rfc3339 now) clientIP action target details
                       method path status (if success then 1 else 0)) in
      (Some d, errWrap "insert audit log: %w" <$> e)
  end.

Definition scanAudit (r : audit_row) : res AuditLog :=
  let entry ts := MkAuditLog (ar_id r) ts (ar_client_ip r) (ar_action r)
                    (default "" (ar_target r)) (default "" (ar_details r)) in
  match parse_rfc3339 (ar_timestamp r) with
  | Some ts => Ok (entry ts)
  | None =>
      match parse_date_time (ar_timestamp r) with
      | Some ts => Ok (entry ts)
      | None => Err (errNew "parse audit timestamp %q: %w")
      end
  end.

Definition ListAuditLogs (db : option D) (limit : Z) : res (list AuditLog) :=
  match db with
  | None => Err errUnavailable
  | Some d =>
      let limit := if (limit <=? 0)%Z then defaultAuditLimit else limit in
      let limit := if (defaultAuditLimit <? limit)%Z then defaultAuditLimit else limit in
      let? q := res_wrap "query audit logs: %w" (sql_audit_logs d limit) in
      scan_rows "iterate audit log rows: %w" scanAudit q
  end.

(** ** The history of the rollups *)
Definition parseHistoryBucket (bucket granularity : string) : res Z :=
  if bool_decide (granularity = "minute") then
    match parse_date_time bucket with
    | Some ts => Ok ts
    | None => Err (errNew "parse minute bucket %q: %w")
    end
  else if bool_decide (granularity = "day") then
    match parse_day bucket with
    | Some ts => Ok ts
    | None => Err (errNew "parse day bucket %q: %w")
    end
  else Err (errNew "unsupported granularity %q").

(** [since] and [layout] stand for the SQL expressions that [QueryHistory]
    chose. *)
Definition queryHistory (d : D) (window granularity since layout : string) : res HistoryResponse :=
  let? q := res_wrap "query history: %w" (sql_history d layout since) in
  let? points := scan_rows "iterate history rows: %w"
    (λ r, let? ts := parseHistoryBucket r.1 granularity in Ok (MkPoint ts r.2)) q in
  Ok (MkHistory window granularity points).

Definition History (d : D) (window : string) : res HistoryResponse :=
  let? p := QueryHistory window in
  let '(granularity, since, layout) := p in
  queryHistory d window granularity since layout.

(** * Lemmas *)
Context {AL : AuditDBLaws D} {TL : TimeTextLaws}.

(** The list of an event. *)
Definition event_log (now : Z) (p : Z * audit_event) : AuditLog :=
  MkAuditLog p.1 now (ev_client_ip p.2) (ev_action p.2) (ev_target p.2) (ev_details p.2).

(** What was just written comes first, and no list is longer than 500. *)
Lemma audit_newest d now ip action target details method path status success db' limit logs :
  (0 <= now < 253402300800)%Z →
  InsertAuditLog (Some d) now ip action target details method path status success = (db', None) →
  ListAuditLogs db' limit = Ok logs →
  length logs ≤ 500 ∧
  ∃ id rest, logs = MkAuditLog id now ip action target details :: rest.
Proof.
  intros Hnow. cbn [InsertAuditLog]. destruct (sql_insert_audit d _) as [d' e] eqn:Ei.
  destruct e as [e|]; [done|]. intros [= <-]. apply insert_audit_law in Ei as [id Et]. cbn [ListAuditLogs].
  set (l := if (defaultAuditLimit <? _)%Z then _ else _).
  assert (Hl : (0 < l <= 500)%Z). { subst l. unfold defaultAuditLimit. repeat case_match; lia. } clearbody l.
  rewrite res_bind_ok. setoid_rewrite res_wrap_ok. setoid_rewrite scan_rows_ok.
  intros ([rows qe] & Hq & He & HF). cbn [fst snd] in *. subst qe. apply audit_logs_law in Hq; [|lia].
  rewrite Et, reverse_app in Hq. cbn in Hq.
  split.
  - apply Forall2_length in HF. rewrite <-HF, Hq, length_map, length_take. lia.
  - destruct (Z.to_nat l) as [|n] eqn:En; [lia|]. cbn in Hq. subst rows.
    inversion HF as [|? log ? rest Hlog Hrest]; subst. exists id, rest. f_equal. revert Hlog. unfold scanAudit.
    cbn [ar_timestamp]. destruct (rfc3339_roundtrip now Hnow) as [-> _]. by intros [= <-].
Qed.

End reports.
End Reports.
