(* ===== verification/Retention.v ===== *)
(** * The workers of the telemetry: telemetry/flusher.go and db.go

    The two goroutines that [StartWorkers] launches, the flusher of Telemetry
    and the retention of its rows, among the counters they persist and the
    [main] that closes the databases. The statement of the purge is an
    interface; times are seconds since 1970, in UTC. *)
From stdpp Require Import relations.
From S2P Require Import Prelude Telemetry Feeds.
Import Counters Telemetry.

(** [Exec] of the purge at a time, with the modifier bound to its parameter: the
    number of rows, which may not be known; and the rows with their times. *)
Class RetentionDB (D : Type) := {
  sql_purge : Z → string → D → res (res Z) * D;
  stamped : D → list (string * counterState)
}.

(** The parts of the texts of a time: its day, counted from 1970, and its second
    of the day. *)
Class DateText := { date_text : Z → string; clock_text : Z → string }.

Module Retention.

Definition daySeconds : Z := 86400.
(** The end of the year 9999. *)
Definition endOfDays : Z := 2932897.
Definition endOfTime : Z := (endOfDays * daySeconds)%Z.
Definition day (t : Z) : Z := (t / daySeconds)%Z.

(** [datetime] of SQLite. *)
Definition sqlite_datetime `{DateText} (t : Z) : string :=
  date_text (day t) +:+ " " +:+ clock_text (t mod daySeconds)%Z.

(** The table with its times: an insert writes the time as RFC 3339, a purge
    takes the rows whose text is not above the one of the cutoff. *)
Class Laws (D : Type) `{MetricsDB D} `{RetentionDB D} `{TimeText} `{DateText} : Prop := {
  stamped_rows : ∀ d, rows_of d = map snd (stamped d);
  stamped_insert : ∀ t row d,
    (insert_row t row d).1 = None ∧ stamped (insert_row t row d).2 = stamped d ++ [(format_rfc3339 (Z.of_N t), row)] ∨
    (insert_row t row d).1 ≠ None ∧ stamped (insert_row t row d).2 = stamped d;
  purge_law : ∀ now (days : N) d,
    let cutoff := sqlite_datetime (now - Z.of_N days * daySeconds)%Z in
    let '(r, d') := sql_purge now ("-" +:+ format_uint days +:+ " days") d in
    match r with
    | Err _ => stamped d' = stamped d
    | Ok n => stamped d' = List.filter (λ p, str_lt cutoff p.1) (stamped d) ∧
        ∀ z, n = Ok z → Z.of_nat (length (stamped d)) = (z + Z.of_nat (length (stamped d')))%Z
    end;
  rfc3339_text : ∀ t, (0 <= t < endOfTime)%Z →
    format_rfc3339 t = date_text (day t) +:+ "T" +:+ clock_text (t mod daySeconds)%Z +:+ "Z";
  date_length : ∀ a b, (0 <= a < endOfDays)%Z → (0 <= b < endOfDays)%Z → slen (date_text a) = slen (date_text b);
  date_order : ∀ a b, (0 <= a < endOfDays)%Z → (0 <= b < endOfDays)%Z →
    (str_lt (date_text a) (date_text b) = true ↔ (a < b)%Z)
}.

Definition retentionDays : N := 30.

Section retention.
Context {D : Type} {MD : MetricsDB D} {RD : RetentionDB D}.

Definition PurgeOldMetrics (now : Z) (d : D) : res Z * D :=
  let '(r, d) := sql_purge now ("-" +:+ format_uint retentionDays +:+ " days") d in
  let r := let? n := res_wrap "purge old metrics: %w" r in res_wrap "purge rows affected: %w" n in
  (r, d).

(** The pool of connections: once it is closed, every statement fails. *)
Record pool := MkPool { is_open : bool; db : D }.
Definition errClosed := errNew "sql: database is closed".
#[export] Instance pool_metrics : MetricsDB pool := {|
  insert_row t row p :=
    if is_open p then let '(e, d) := insert_row t row (db p) in (e, MkPool true d) else (Some errClosed, p);
  rows_of p := rows_of (db p)
|}.
Definition purge (now : Z) (p : pool) : pool :=
  if is_open p then MkPool true (PurgeOldMetrics now (db p)).2 else p.

Context {TT : TimeText} {DT : DateText}.

(** The rows a purge takes. *)
Definition taken (now : Z) (p : pool) : list (string * counterState) :=
  if is_open p then
    match (sql_purge now ("-" +:+ format_uint retentionDays +:+ " days") (db p)).1 with
    | Ok _ => List.filter (λ r, negb (str_lt (sqlite_datetime (now - 30 * daySeconds)) r.1)) (stamped (db p))
    | Err _ => []
    end
  else [].

(** The flusher before it has sampled the counters, while it runs with its last
    sample, and after its last flush, which succeeded or not. *)
Inductive phase := Starting | Flushing (f : Flusher) | Flushed (ok : bool) (f : Flusher).

(** The last field only records the rows that the purges took. *)
Record workers := MkWorkers {
  clock : Z; stats : Stats; flusher : phase; retaining : bool; cancelled : bool; metrics : pool;
  purged : list (string * counterState)
}.
Definition StartWorkers (t : Z) (s : Stats) (d : D) : workers := MkWorkers t s Starting true false (MkPool true d) [].

Definition flush_at (w : workers) (f : Flusher) : Flusher * pool :=
  flush (Z.to_N (clock w)) (stats w) f (metrics w).
Definition flush_ok (w : workers) (f : Flusher) : bool :=
  match (InsertRollup (Z.to_N (clock w)) (deltaState (sample (snapshot (stats w))) (prev f)) (metrics w)).1 with
  | None => true | Some _ => false
  end.

(** [run], [runRetention], the counters and [main]. *)
Inductive work : workers → workers → Prop :=
| w_wait w t : (clock w <= t)%Z →
    work w (MkWorkers t (stats w) (flusher w) (retaining w) (cancelled w) (metrics w) (purged w))
| w_count w c : (∀ x, stats w x + hits c x < 2 ^ 64)%N →
    work w (MkWorkers (clock w) (Inc c (stats w)) (flusher w) (retaining w) (cancelled w) (metrics w) (purged w))
| w_seed w : flusher w = Starting →
    work w (MkWorkers (clock w) (stats w) (Flushing (seedPrevious (stats w))) (retaining w) (cancelled w) (metrics w) (purged w))
| w_tick w f : flusher w = Flushing f →
    work w (MkWorkers (clock w) (stats w) (Flushing (flush_at w f).1) (retaining w) (cancelled w) (flush_at w f).2 (purged w))
| w_last w f : flusher w = Flushing f → cancelled w = true →
    work w (MkWorkers (clock w) (stats w) (Flushed (flush_ok w f) (flush_at w f).1) (retaining w) true (flush_at w f).2 (purged w))
| w_purge w : retaining w = true →
    work w (MkWorkers (clock w) (stats w) (flusher w) true (cancelled w) (purge (clock w) (metrics w)) (purged w ++ taken (clock w) (metrics w)))
| w_retired w : cancelled w = true →
    work w (MkWorkers (clock w) (stats w) (flusher w) false true (metrics w) (purged w))
| w_cancel w : work w (MkWorkers (clock w) (stats w) (flusher w) (retaining w) true (metrics w) (purged w))
| w_close w : cancelled w = true →
    work w (MkWorkers (clock w) (stats w) (flusher w) (retaining w) true (MkPool false (db (metrics w))) (purged w)).

(** * Lemmas *)
Context {L : Laws D}.

#[local] Instance metrics_laws : MetricsLaws D.
Proof.
  split. intros t row d. rewrite !stamped_rows.
  destruct (stamped_insert t row d) as [[-> ->]|[? ->]]; [left|by right]. by rewrite map_app.
Qed.
#[export] Instance pool_laws : MetricsLaws pool.
Proof.
  split. intros t row [[] d]; cbn; [|by right]. pose proof (insert_law t row d) as H.
  destruct (insert_row t row d). exact H.
Qed.

Lemma bytes_lt_app a b l k : length a = length b →
  bytes_lt (a ++ l) (b ++ k) = if bool_decide (a = b) then bytes_lt l k else bytes_lt a b.
Proof.
  revert b. induction a as [|x a IH]; intros [|y b] Hn; try done. cbn [app bytes_lt].
  rewrite IH by (cbn in Hn; lia). destruct (N.ltb_spec (code x) (code y)) as [Hlt|Hge]; cbn [orb].
  - rewrite bool_decide_false; [done|]. intros [= -> _]. lia.
  - destruct (N.eqb_spec (code x) (code y)) as [E|E]; cbn [andb].
    + apply code_inj in E as ->. repeat case_bool_decide; congruence.
    + rewrite bool_decide_false; [done|]. by intros [= -> _].
Qed.

(** A row survives a purge exactly when it is of the day of the cutoff or later. *)
Lemma kept_by_day now t : (0 <= t < endOfTime)%Z → (30 * daySeconds <= now < endOfTime)%Z →
  str_lt (sqlite_datetime (now - 30 * daySeconds)) (format_rfc3339 t) = true ↔
  (day (now - 30 * daySeconds) <= day t)%Z.
Proof.
  intros Ht Hn. rewrite rfc3339_text by done. unfold sqlite_datetime, str_lt. rewrite !bytes_app.
  unfold day, endOfTime, endOfDays, daySeconds in *.
  assert (Ha : (0 <= (now - 30 * 86400) / 86400 < 2932897)%Z) by (split; [apply Z.div_pos|apply Z.div_lt_upper_bound]; lia).
  assert (Hb : (0 <= t / 86400 < 2932897)%Z) by (split; [apply Z.div_pos|apply Z.div_lt_upper_bound]; lia).
  pose proof (date_length _ _ Ha Hb) as Hl. pose proof (date_order _ _ Ha Hb) as Ho. pose proof (date_order _ _ Hb Ha) as Ho'.
  rewrite bytes_lt_app by exact Hl. case_bool_decide as E.
  - split; [|done]. intros _. apply bytes_inj in E. rewrite E, str_lt_irrefl in Ho.
    rewrite E, str_lt_irrefl in Ho'.
    destruct (Z.lt_trichotomy ((now - 30 * 86400) / 86400) (t / 86400)) as [H|[H|H]]; [by apply Ho in H|lia|by apply Ho' in H].
  - unfold str_lt in Ho. rewrite Ho. split; [lia|]. intros H.
    destruct (decide ((now - 30 * 86400) / 86400 = t / 86400)%Z) as [Eq|]; [|lia]. by rewrite Eq in E.
Qed.

Lemma purge_kept now p row : row ∈ stamped (db p) → str_lt (sqlite_datetime (now - 30 * daySeconds)) row.1 = true →
  row ∈ stamped (db (purge now p)).
Proof.
  intros Hr Hk. unfold purge. destruct (is_open p); [|done]. cbn. unfold PurgeOldMetrics.
  pose proof (purge_law now retentionDays (db p)) as Hl. cbv zeta in Hl. destruct (sql_purge _ _ _) as [[n|e] d'].
  - cbn. destruct Hl as [-> _]. apply list_elem_of_In, List.filter_In. split; [by apply list_elem_of_In|exact Hk].
  - cbn. by rewrite Hl.
Qed.

Lemma flush_keeps now s f (p : pool) row : row ∈ stamped (db p) → row ∈ stamped (db (flush now s f p).2).
Proof.
  intros Hr. unfold flush, InsertRollup. cbn. destruct (is_open p); [|done].
  pose proof (stamped_insert now (deltaState (sample (snapshot s)) (prev f)) (db p)) as H.
  destruct (insert_row _ _ _) as [[e|] d']; cbn in *.
  - by destruct H as [[? _]|[_ ->]].
  - destruct H as [[_ ->]|[? _]]; [|done]. set_solver.
Qed.

Lemma work_clock w w' : work w w' → (clock w <= clock w')%Z.
Proof. destruct 1; cbn; lia. Qed.

Lemma work_keeps t row w w' : work w w' → (0 <= t < endOfTime)%Z → (30 * daySeconds <= clock w)%Z →
  (clock w' < endOfTime)%Z → (day (clock w' - 30 * daySeconds) <= day t)%Z →
  (format_rfc3339 t, row) ∈ stamped (db (metrics w)) → (format_rfc3339 t, row) ∈ stamped (db (metrics w')).
Proof.
  intros Hs Ht Hc Hc' Hd Hr. destruct Hs; cbn in *; try done; [by apply flush_keeps..|].
  apply purge_kept; [done|]. cbn. apply kept_by_day; [done|lia|done].
Qed.

Lemma total_app k l l' : total k (l ++ l') = (total k l + total k l')%N.
Proof. unfold total. by rewrite map_app, sumN_app. Qed.

Lemma total_split k f (l : list (string * counterState)) :
  total k (map snd l) = (total k (map snd (List.filter f l)) + total k (map snd (List.filter (λ r, negb (f r)) l)))%N.
Proof.
  induction l as [|x l IH]; [done|]. unfold total in *. cbn [List.filter map sumN].
  destruct (f x); cbn [negb map sumN]; lia.
Qed.

Lemma purge_total k now p :
  total k (rows_of p) = (total k (rows_of (purge now p)) + total k (map snd (taken now p)))%N.
Proof.
  unfold purge, taken. destruct (is_open p); [|by rewrite N.add_0_r]. cbn. unfold PurgeOldMetrics. rewrite !stamped_rows.
  pose proof (purge_law now retentionDays (db p)) as Hl. cbv zeta in Hl. destruct (sql_purge _ _ _) as [[n|e] d']; cbn.
  - destruct Hl as [-> _]. apply total_split.
  - rewrite Hl. cbn. lia.
Qed.

(** What a column's rows, the rows taken and the increments not yet written add
    up to, since the flusher sampled the counters. *)
Definition counted (k : column) (s0 : Stats) (d0 : D) (w : workers) (f : Flusher) : Prop :=
  (total k (rows_of (metrics w)) + total k (map snd (purged w)) + s0 (col_cell k) =
   total k (rows_of d0) + col k (prev f))%N ∧
  (s0 (col_cell k) ≤ col k (prev f) ≤ stats w (col_cell k))%N.

Definition inv (k : column) (w0 w : workers) : Prop :=
  match flusher w with
  | Starting => (total k (rows_of (metrics w)) + total k (map snd (purged w)) = total k (rows_of (metrics w0)))%N
  | Flushing f | Flushed _ f => ∃ w1, rtc work w0 w1 ∧ flusher w1 = Starting ∧ rtc work w1 w ∧
      counted k (stats w1) (db (metrics w0)) w f
  end.

Lemma count_mono w c x : (∀ x, stats w x + hits c x < 2 ^ 64)%N → (stats w x ≤ Inc c (stats w) x)%N.
Proof.
  intros Hb. specialize (Hb x). rewrite inc_cell by lia. unfold u64. rewrite N.mod_small by lia. lia.
Qed.

Lemma flush_counted k s0 d0 w f : counted k s0 d0 w f →
  let w' := MkWorkers (clock w) (stats w) (flusher w) (retaining w) (cancelled w) (flush_at w f).2 (purged w) in
  counted k s0 d0 w' (flush_at w f).1 ∧
  (flush_ok w f = true → col k (prev (flush_at w f).1) = stats w (col_cell k)).
Proof.
  intros [H1 H2]. unfold flush_at, flush_ok. destruct (flush _ (stats w) f (metrics w)) as [f' p'] eqn:Ef.
  pose proof (flush_spec (D := pool) _ _ _ _ _ _ k Ef (proj2 H2)) as (E1 & E2 & E3 & E4). cbn [fst snd]. split.
  - unfold counted. cbn [metrics purged stats]. lia.
  - case_match; [done|]. intros _. by apply E4.
Qed.

(** A step that changes the counts as the second premise says carries the
    invariant over. *)
Lemma inv_carried k w0 w w' : rtc work w0 w → work w w' → flusher w' = flusher w →
  (total k (rows_of (metrics w')) + total k (map snd (purged w')) =
   total k (rows_of (metrics w)) + total k (map snd (purged w)))%N →
  (stats w (col_cell k) ≤ stats w' (col_cell k))%N → inv k w0 w → inv k w0 w'.
Proof.
  intros Hr Hs Hf Ht Hc Hi. unfold inv in *. rewrite Hf.
  destruct (flusher w) as [|f|ok f]; [lia|destruct Hi as (w1 & H1 & H2 & H3 & H4 & H5); exists w1;
    split_and!; [done|done|by eapply rtc_r|]; unfold counted; lia..].
Qed.

Lemma inv_flushed k w0 w w' f : rtc work w0 w → work w w' → flusher w = Flushing f →
  flusher w' = Flushing (flush_at w f).1 ∨ flusher w' = Flushed (flush_ok w f) (flush_at w f).1 →
  metrics w' = (flush_at w f).2 → purged w' = purged w → stats w' = stats w → inv k w0 w → inv k w0 w'.
Proof.
  intros Hr Hs Hf Hf' Hm Hp Hst Hi. unfold inv in *. rewrite Hf in Hi. destruct Hi as (w1 & H1 & H2 & H3 & H4).
  assert (Hg : ∃ w1, rtc work w0 w1 ∧ flusher w1 = Starting ∧ rtc work w1 w' ∧
    counted k (stats w1) (db (metrics w0)) w' (flush_at w f).1).
  { exists w1. split_and!; [done|done|by eapply rtc_r|]. destruct (flush_counted _ _ _ _ _ H4) as [[Hc1 Hc2] _].
    unfold counted. cbn [metrics purged stats] in *. by rewrite Hm, Hp, Hst. }
  by destruct Hf' as [-> | ->].
Qed.

Lemma inv_work k w0 w w' : rtc work w0 w → work w w' → inv k w0 w → inv k w0 w'.
Proof.
  intros Hr Hs Hi. pose proof Hs as Hs'.
  destruct Hs as [w t Ht|w c Hb|w E|w f E|w f E Ec|w E|w E|w|w E];
    try (eapply inv_carried; [exact Hr|exact Hs'|done|done|done|exact Hi]).
  - eapply inv_carried; [exact Hr|exact Hs'|done|done|by apply count_mono|exact Hi].
  - unfold inv in *. rewrite E in Hi. cbn [flusher]. exists w. split_and!; [done|done|by apply rtc_once|].
    unfold counted. cbn [metrics purged stats seedPrevious prev]. rewrite col_sample.
    change (rows_of (metrics w0)) with (rows_of (db (metrics w0))) in Hi. lia.
  - eapply inv_flushed; [exact Hr|exact Hs'|exact E|by left|done|done|done|exact Hi].
  - eapply inv_flushed; [exact Hr|exact Hs'|exact E|by right|done|done|done|exact Hi].
  - eapply inv_carried; [exact Hr|exact Hs'|done| |done|exact Hi]. cbn [metrics purged].
    rewrite map_app, total_app, (purge_total k (clock w) (metrics w)). lia.
Qed.

Lemma inv_works k w0 w : flusher w0 = Starting → purged w0 = [] → rtc work w0 w → inv k w0 w.
Proof.
  intros Hf Hp Hr. revert w Hr. apply rtc_ind_r.
  - unfold inv. rewrite Hf, Hp. unfold total at 2. cbn. lia.
  - intros w w' Hr Hs Hi. by eapply inv_work.
Qed.

(** * Properties *)

(** nothing counted is lost before its time: however counters, flushes, purges,
    the shutdown and failures of the database interleave, the rows of the table
    and those the purges took add up, column by column, to the counters'
    increase between the moment the flusher first looked and its last
    successful flush; and right after a successful flush that is all of it. *)
Theorem retention_conserves t s d w f k : rtc work (StartWorkers t s d) w →
  flusher w = Flushing f ∨ (∃ ok, flusher w = Flushed ok f) →
  ∃ w1, rtc work (StartWorkers t s d) w1 ∧ flusher w1 = Starting ∧ rtc work w1 w ∧
    (total k (rows_of (metrics w)) + total k (map snd (purged w)) =
     total k (rows_of d) + (col k (prev f) - stats w1 (col_cell k)))%N ∧
    (stats w1 (col_cell k) ≤ col k (prev f) ≤ stats w (col_cell k))%N ∧
    (flush_ok w f = true →
      total k (rows_of (flush_at w f).2) + total k (map snd (purged w)) =
      total k (rows_of d) + (stats w (col_cell k) - stats w1 (col_cell k)))%N.
Proof.
  intros Hr Hf. pose proof (inv_works k (StartWorkers t s d) w eq_refl eq_refl Hr) as Hi. unfold inv in Hi.
  assert (Hg : ∃ w1, rtc work (StartWorkers t s d) w1 ∧ flusher w1 = Starting ∧ rtc work w1 w ∧ counted k (stats w1) d w f)
    by by destruct Hf as [Hf|[ok Hf]]; rewrite Hf in Hi.
  destruct Hg as (w1 & H1 & H2 & H3 & Hc). exists w1. destruct (flush_counted _ _ _ _ _ Hc) as [[Hc1 Hc2] Hok].
  cbn [metrics purged stats] in *. destruct Hc as [Hc3 Hc4]. split_and!; try done; [lia..|].
  intros Hk. specialize (Hok Hk). lia.
Qed.

(** a row is kept for thirty days, whatever happens, and a purge that succeeds
    takes it exactly when its day lies before that of the cutoff. *)
Theorem kept_thirty_days w w' t row : rtc work w w' → (0 <= t < endOfTime)%Z →
  (30 * daySeconds <= clock w)%Z → (clock w' < endOfTime)%Z →
  (format_rfc3339 t, row) ∈ stamped (db (metrics w)) →
  ((clock w' <= t + 30 * daySeconds)%Z → (format_rfc3339 t, row) ∈ stamped (db (metrics w'))) ∧
  (∀ n d', PurgeOldMetrics (clock w') (db (metrics w')) = (Ok n, d') →
     (format_rfc3339 t, row) ∈ stamped (db (metrics w')) →
     ((format_rfc3339 t, row) ∈ stamped d' ↔ (day (clock w' - 30 * daySeconds) <= day t)%Z)).
Proof.
  intros Hr Ht Hc Hc' Hrow. assert (Hm : (clock w <= clock w')%Z) by (clear -Hr; induction Hr; [lia|pose proof (work_clock _ _ ltac:(eassumption)); lia]).
  split.
  - intros Hle. assert (Hd : (day (clock w' - 30 * daySeconds) <= day t)%Z).
    { unfold day, daySeconds in *. apply Z.div_le_mono; lia. }
    clear Hle. induction Hr as [|w w1 w2 Hs Hr IH]; [done|]. pose proof (work_clock _ _ Hs) as Hk.
    assert (Hm1 : (clock w1 <= clock w2)%Z) by (clear -Hr; induction Hr; [lia|pose proof (work_clock _ _ ltac:(eassumption)); lia]).
    apply IH; [lia|done| |lia|done]. eapply work_keeps; [exact Hs|done|done|lia| |done].
    etrans; [|exact Hd]. unfold day, daySeconds in *. apply Z.div_le_mono; lia.
  - intros n d' Hp Hin. unfold PurgeOldMetrics in Hp. pose proof (purge_law (clock w') retentionDays (db (metrics w'))) as Hl.
    cbv zeta in Hl. destruct (sql_purge _ _ _) as [r d1]. injection Hp as Hn ->.
    destruct r as [m|e]; [|done]. destruct Hl as [-> _]. rewrite list_elem_of_In, List.filter_In. cbn [fst].
    rewrite kept_by_day by (unfold daySeconds in *; lia). rewrite <-list_elem_of_In. tauto.
Qed.

End retention.

(** ** An instance: days and seconds as ten decimal digits *)
Fixpoint digits (w : nat) (n : N) : list ascii :=
  match w with O => [] | S w => digits w (n / 10) ++ [ascii_of_N (48 + n mod 10)] end%N.

Lemma digits_length w n : length (digits w n) = w.
Proof. revert n. induction w as [|w IH]; intros n; cbn; [done|]. rewrite length_app, IH. cbn. lia. Qed.

Lemma digit_code n : code (ascii_of_N (48 + n mod 10)) = (48 + n mod 10)%N.
Proof. unfold code. apply N_ascii_embedding. pose proof (N.mod_lt n 10 ltac:(lia)). lia. Qed.

Lemma digit_carry q q' r r' : (q ≤ q' → q' ≠ q → r < 10 → 10 * q + r ≤ 10 * q' + r')%N.
Proof. lia. Qed.

Lemma digits_order w a b : (a < 10 ^ N.of_nat w)%N → (b < 10 ^ N.of_nat w)%N →
  bytes_lt (digits w a) (digits w b) = true ↔ (a < b)%N.
Proof.
  revert a b. induction w as [|w IH]; intros a b Ha Hb.
  - cbn in *. split; [done|lia].
  - rewrite Nat2N.inj_succ, N.pow_succ_r' in Ha, Hb. cbn [digits].
    rewrite bytes_lt_app by by rewrite !digits_length.
    pose proof (IH (a / 10)%N (b / 10)%N ltac:(apply N.Div0.div_lt_upper_bound; lia) ltac:(apply N.Div0.div_lt_upper_bound; lia)) as Hd.
    pose proof (IH (b / 10)%N (a / 10)%N ltac:(apply N.Div0.div_lt_upper_bound; lia) ltac:(apply N.Div0.div_lt_upper_bound; lia)) as Hd'.
    pose proof (N.div_mod a 10 ltac:(lia)). pose proof (N.div_mod b 10 ltac:(lia)).
    pose proof (N.mod_lt a 10 ltac:(lia)). pose proof (N.mod_lt b 10 ltac:(lia)).
    case_bool_decide as E.
    + rewrite E, bytes_lt_irrefl in Hd, Hd'. rewrite bytes_lt_cons, !digit_code.
      assert ((a / 10)%N = (b / 10)%N) as Eq by (destruct (N.lt_trichotomy (a / 10) (b / 10)) as [?|[?|?]]; naive_solver).
      split; [intros [?|[_ ?]]; [lia|done]|left; lia].
    + rewrite Hd, !N.lt_nge. split; intros Hn Hc; apply Hn; [by apply N.Div0.div_le_mono|].
      destruct (decide ((a / 10)%N = (b / 10)%N)) as [Eq|Hne]; [by rewrite Eq in E|].
      rewrite H, H0. by apply digit_carry.
Qed.

#[export] Instance demo_dates : DateText | 100 := {|
  date_text d := mk (digits 10 (Z.to_N d)); clock_text c := mk (digits 5 (Z.to_N c))
|}.
#[export] Instance demo_stamps : TimeText | 200 := {|
  format_rfc3339 t := date_text (day t) +:+ "T" +:+ clock_text (t mod daySeconds)%Z +:+ "Z";
  parse_rfc3339 _ := None; parse_date_time _ := None
|}.

(** The rows, and for every statement to come whether it fails. *)
Definition stamped_table : Type := list (string * counterState) * list bool.
#[export] Instance stamped_metrics : MetricsDB stamped_table := {|
  insert_row t row d :=
    match d.2 with
    | true :: fails => (Some (errNew "database is locked"), (d.1, fails))
    | _ => (None, (d.1 ++ [(format_rfc3339 (TimeText := demo_stamps) (Z.of_N t), row)], tail d.2))
    end;
  rows_of d := map snd d.1
|}.
#[export] Instance stamped_retention : RetentionDB stamped_table := {|
  sql_purge now modifier d :=
    match d.2 with
    | true :: fails => (Err (errNew "database is locked"), (d.1, fails))
    | _ =>
        let days := default 0%N (digits_val 0 (bytes (trim_suffix (trim_prefix modifier "-") " days"))) in
        let kept := List.filter (λ p, str_lt (sqlite_datetime (now - Z.of_N days * daySeconds)) p.1) d.1 in
        (Ok (Ok (Z.of_nat (length d.1) - Z.of_nat (length kept))%Z), (kept, tail d.2))
    end;
  stamped := fst
|}.

Lemma demo_days days : digits_val 0 (bytes (trim_suffix (trim_prefix ("-" +:+ format_uint days +:+ " days") "-") " days")) = Some days.
Proof.
  change ("-" +:+ format_uint days +:+ " days") with ("-" +:+ (format_uint days +:+ " days")).
  rewrite trim_prefix_app, trim_suffix_app. destruct (format_uint_digits days) as (Hv & _). exact Hv.
Qed.

#[export] Instance stamped_laws : Laws stamped_table (H1 := demo_stamps).
Proof.
  split.
  - done.
  - intros t row [rows [|[] fails]]; cbn; auto.
  - intros now days [rows fails]. cbn [sql_purge stamped_retention]. rewrite demo_days. cbn [default].
    destruct fails as [|[] fails]; cbn [fst snd]; [|done|]; (split; [done|]); intros z [= <-]; symmetry; apply Z.sub_add.
  - done.
  - intros a b _ _. cbn [date_text demo_dates]. unfold slen. by rewrite !bytes_mk, !digits_length.
  - intros a b Ha Hb. cbn [date_text demo_dates]. unfold str_lt, endOfDays in *.
    rewrite !bytes_mk, digits_order by (change (10 ^ N.of_nat 10)%N with 10000000000%N; lia). lia.
Qed.

(** ** Consequences *)

Definition demo_start (t : Z) (rows : list (string * counterState)) : workers (D := stamped_table) :=
  StartWorkers t New (rows, []).

(** Nobody waits for the last flush: when [main] closes the databases first, the
    queries since the flush before are lost. *)
Lemma final_flush_lost : ∃ w f, rtc work (demo_start 0 []) w ∧
  flusher w = Flushed false f ∧ rows_of (metrics w) = [] ∧ stats w totalQueries = 1%N.
Proof.
  eexists _, _. split; [|split_and!].
  - eapply rtc_l; [by apply w_seed|]. eapply rtc_l; [apply (w_count _ UDPQuery); intros []; by vm_compute|].
    eapply rtc_l; [apply w_cancel|]. eapply rtc_l; [by apply w_close|].
    eapply rtc_l; [by eapply w_last|]. apply rtc_refl.
  - reflexivity.
  - reflexivity.
  - by vm_compute.
Qed.

(** The sum over table and purged rows on a run with a purge: the row of 1970 is
    taken on the fortieth day, the query of that day stays. *)
Definition demo_old : string * counterState := (format_rfc3339 (TimeText := demo_stamps) 0, MkState 5 0 0 0 0 0).
Lemma retention_demo : ∃ w, rtc work (demo_start (40 * daySeconds) [demo_old]) w ∧
  rows_of (metrics w) = [MkState 1 0 0 0 0 0] ∧ purged w = [demo_old].
Proof.
  eexists. split_and!.
  - eapply rtc_l; [by apply w_seed|]. eapply rtc_l; [apply (w_count _ UDPQuery); intros []; by vm_compute|].
    eapply rtc_l; [by apply w_purge|]. eapply rtc_l; [by eapply w_tick|]. apply rtc_refl.
  - by vm_compute.
  - by vm_compute.
Qed.

End Retention.
