(* ===== verification/Schema.v ===== *)
(** * The databases and their migrations: telemetry/db.go

    [OpenDB] opens data/state.db and data/main.db, creates the tables a fresh
    installation needs and adds the columns an older one lacks. SQLite is an
    interface over the file system [W]: the statements of the source are data,
    the laws say what they do to the tables of a file. *)
From S2P Require Import Prelude Files.

(** A column as a [CREATE TABLE] or [ADD COLUMN] declares it. *)
Record column := MkColumn {
  c_name : string; c_type : string; c_notnull : bool; c_default : option string; c_constraint : string
}.

#[export] Instance column_eq_dec : EqDecision column.
Proof. solve_decision. Defined.

(** A row gives each column a value, [None] for NULL. *)
Record table := MkTable { t_columns : list column; t_rows : list (gmap string (option string)) }.

Definition column_names (t : table) : list string := map c_name (t_columns t).
Definition add_column (c : column) (t : table) : table :=
  MkTable (t_columns t ++ [c]) (map (λ r, <[c_name c := c_default c]> r) (t_rows t)).

(** [CREATE TABLE IF NOT EXISTS], [CREATE INDEX IF NOT EXISTS], [ALTER TABLE ADD COLUMN]. *)
Inductive ddl :=
| CreateTable (name : string) (columns : list column) (constraints : list string)
| CreateIndex (name on : string) (by_column : string)
| AddColumn (name : string) (c : column).

#[export] Instance ddl_eq_dec : EqDecision ddl.
Proof. solve_decision. Defined.

Abbreviation tables := (gmap string table).

(** What SQLite asks of a statement, and what it then does. *)
Definition legal (s : ddl) (m : tables) : Prop :=
  match s with
  | CreateTable _ _ _ => True
  | CreateIndex _ t c => ∃ tb, m !! t = Some tb ∧ c ∈ column_names tb
  | AddColumn t c =>
      (∃ tb, m !! t = Some tb ∧ c_name c ∉ column_names tb) ∧ (c_notnull c = true → c_default c ≠ None)
  end.

Definition create (t : string) (cols : list column) (m : tables) : tables :=
  <[t := default (MkTable cols []) (m !! t)]> m.

Definition ddl_effect (s : ddl) (m m' : tables) : Prop :=
  match s with
  | CreateTable t cols _ => m' = create t cols m
  | CreateIndex _ _ _ => m' = m
  | AddColumn t c => ∃ tb, m !! t = Some tb ∧ c_name c ∉ column_names tb ∧ m' = <[t := add_column c tb]> m
  end.

(** [sql.Open] and the methods of [sql.DB] on the connection [C]. *)
Class Sqlite (W C : Type) := {
  sql_open : W → string → W * res C;
  sql_exec : W → C → ddl → W * option error;
  sql_pragma : W → C → string → W * option error;
  sql_table_info : W → C → string → res (list (res string) * option error);
  sql_close : W → C → W * option error
}.

Definition sqlite_dsn (path : string) : string := "file:" +:+ path +:+ "?_pragma=busy_timeout(5000)".

(** The tables of the database in a file. *)
Class SqliteLaws (W C : Type) `{Sqlite W C} `{FileSys W} := {
  db_tables : W → string → tables;
  conn_path : C → string;
  mkdir_tables w d p : db_tables (fs_mkdir_all w d).1 p = db_tables w p;
  open_tables w dsn p : db_tables (sql_open w dsn).1 p = db_tables w p;
  open_path w p w' c : sql_open w (sqlite_dsn p) = (w', Ok c) → conn_path c = p;
  pragma_tables w c s p : db_tables (sql_pragma w c s).1 p = db_tables w p;
  close_tables w c p : db_tables (sql_close w c).1 p = db_tables w p;
  info_names w c t rows : sql_table_info w c t = Ok (rows, None) →
    rows = map Ok (default [] (column_names <$> db_tables w (conn_path c) !! t));
  exec_err w c s w' e p : sql_exec w c s = (w', Some e) → db_tables w' p = db_tables w p;
  exec_ok w c s w' : sql_exec w c s = (w', None) →
    ddl_effect s (db_tables w (conn_path c)) (db_tables w' (conn_path c)) ∧
    ∀ p, p ≠ conn_path c → db_tables w' p = db_tables w p
}.

(** A medium on which legal statements succeed. *)
Class SqliteLive (W C : Type) `{SqliteLaws W C} := {
  healthy : W → Prop;
  mkdir_healthy w d : healthy w → ∃ w', fs_mkdir_all w d = (w', None) ∧ healthy w';
  open_healthy w dsn : healthy w → ∃ w' c, sql_open w dsn = (w', Ok c) ∧ healthy w';
  pragma_healthy w c s : healthy w → ∃ w', sql_pragma w c s = (w', None) ∧ healthy w';
  info_healthy w c t : healthy w → ∃ rows, sql_table_info w c t = Ok (rows, None);
  exec_healthy w c s : healthy w → legal s (db_tables w (conn_path c)) →
    ∃ w', sql_exec w c s = (w', None) ∧ healthy w'
}.

Module Schema.

Definition defaultDataDir : string := "./data".
Definition stateDBFilename : string := "state.db".
Definition mainDBFilename : string := "main.db".

(** ** The statements *)
Definition int_nn n := MkColumn n "INTEGER" true None "".
Definition int_zero n := MkColumn n "INTEGER" true (Some "0") "".
Definition text_nn n := MkColumn n "TEXT" true None "".
Definition text_null n := MkColumn n "TEXT" false None "".
Definition date_nn n := MkColumn n "DATETIME" true None "".
Definition date_null n := MkColumn n "DATETIME" false None "".
Definition id_column := MkColumn "id" "INTEGER" false None "PRIMARY KEY AUTOINCREMENT".
Definition unique_text n := MkColumn n "TEXT" true None "UNIQUE".
Definition action_column := MkColumn "action" "TEXT" true (Some "allow") "".

Definition create_metrics_rollup : ddl :=
  CreateTable "metrics_rollup"
    [date_nn "timestamp"; int_nn "queries"; int_nn "cache_hits"; int_nn "dropped"; int_nn "dnssec_fails"] [].
Definition stateSchema : list ddl :=
  [create_metrics_rollup; CreateIndex "idx_metrics_rollup_timestamp" "metrics_rollup" "timestamp"].

Definition create_blocklist_sources : ddl :=
  CreateTable "blocklist_sources"
    [id_column; unique_text "url"; text_null "description"; MkColumn "enabled" "INTEGER" true (Some "1") "";
     int_zero "last_count"; date_null "last_sync"] [].
Definition create_blocklist_custom : ddl :=
  CreateTable "blocklist_custom" [id_column; unique_text "domain"; date_nn "created_at"] [].
Definition create_acl_rules : ddl :=
  CreateTable "acl_rules" [id_column; unique_text "subnet"; text_null "description"; action_column] [].
Definition mainSchema : list ddl := [create_blocklist_sources; create_blocklist_custom; create_acl_rules].

Definition create_configuration : ddl :=
  CreateTable "configuration" [MkColumn "key" "TEXT" true None "PRIMARY KEY"; text_nn "value"] [].
Definition create_dnssec_keys : ddl :=
  CreateTable "dnssec_keys"
    [id_column; text_nn "zone"; MkColumn "view" "TEXT" true (Some "public") "";
     MkColumn "key_type" "TEXT" true None "CHECK(key_type IN ('KSK', 'ZSK'))"; int_nn "algorithm";
     text_nn "private_key_pem"; text_nn "public_key_pem"; date_nn "created_at"]
    ["UNIQUE(zone, view, key_type)"].
Definition create_audit_logs : ddl :=
  CreateTable "audit_logs"
    [id_column; date_nn "timestamp"; text_nn "client_ip"; text_nn "action"; text_null "target";
     text_null "details"; text_nn "method"; text_nn "path"; int_nn "status"; int_nn "success"] [].
Definition auditSchema : list ddl :=
  [create_audit_logs; CreateIndex "idx_audit_logs_timestamp" "audit_logs" "timestamp"].

(** The alterations of a table: a column and the statement that adds it. *)
Definition alteration (t : string) (c : column) : string * ddl := (c_name c, AddColumn t c).
Definition blocklistAlterations : list (string * ddl) :=
  map (alteration "blocklist_sources") [int_zero "last_count"; date_null "last_sync"; text_null "description"].
Definition rollupAlterations : list (string * ddl) :=
  map (alteration "metrics_rollup") [int_zero "local_queries"; int_zero "upstream_queries"].

Section schema.
Context {W C : Type} {FS : FileSys W} {SQ : Sqlite W C}.

Record DB := MkDB { state : C; main : C }.

(** [Exec] of several statements stops at the first that fails. *)
Fixpoint exec (c : C) (l : list ddl) (w : W) : W * option error :=
  match l with
  | [] => (w, None)
  | s :: l =>
      match sql_exec w c s with
      | (w, Some e) => (w, Some e)
      | (w, None) => exec c l w
      end
  end.

Definition execute (label : string) (c : C) (l : list ddl) (w : W) : W * option error :=
  let '(w, e) := exec c l w in (w, errWrap label <$> e).

Definition initStateSchema (db : DB) (w : W) : W * option error :=
  execute "initialize state schema: %w" (state db) stateSchema w.
Definition initMainSchema (db : DB) (w : W) : W * option error :=
  execute "initialize main schema: %w" (main db) mainSchema w.

(** The loop over the rows of [PRAGMA table_info]. *)
Fixpoint scanColumns (rows : list (res string)) (columns : gset string) : res (gset string) :=
  match rows with
  | [] => Ok columns
  | Err e :: _ => Err (errWrap "scan table_info row: %w" e)
  | Ok name :: rows => scanColumns rows ({[name]} ∪ columns)
  end.
Definition columnsOf (c : C) (t : string) (w : W) : res (gset string) :=
  match sql_table_info w c t with
  | Err e => Err (errWrap "pragma table_info %s: %w" e)
  | Ok (rows, rowsErr) =>
      match scanColumns rows ∅, rowsErr with
      | Err e, _ => Err e
      | Ok _, Some e => Err (errWrap "iterate table_info rows: %w" e)
      | Ok columns, None => Ok columns
      end
  end.
Definition mainTableColumns (db : DB) (t : string) (w : W) : res (gset string) := columnsOf (main db) t w.
Definition tableColumns (db : DB) (t : string) (w : W) : res (gset string) := columnsOf (state db) t w.

Fixpoint alter (label : string) (c : C) (columns : gset string) (l : list (string * ddl)) (w : W)
    : W * option error :=
  match l with
  | [] => (w, None)
  | (name, s) :: l =>
      if decide (name ∈ columns) then alter label c columns l w
      else
        match sql_exec w c s with
        | (w, Some e) => (w, Some (errWrap label e))
        | (w, None) => alter label c columns l w
        end
  end.

Definition migrateBlocklistSchema (db : DB) (w : W) : W * option error :=
  match mainTableColumns db "blocklist_sources" w with
  | Err e => (w, Some e)
  | Ok columns =>
      match alter "migrate blocklist_sources column %s: %w" (main db) columns blocklistAlterations w with
      | (w, Some e) => (w, Some e)
      | (w, None) => execute "migrate blocklist_custom table: %w" (main db) [create_blocklist_custom] w
      end
  end.

Definition migrateACLSchema (db : DB) (w : W) : W * option error :=
  match execute "migrate acl_rules table: %w" (main db) [create_acl_rules] w with
  | (w, Some e) => (w, Some e)
  | (w, None) =>
      match mainTableColumns db "acl_rules" w with
      | Err e => (w, Some e)
      | Ok columns =>
          if decide ("action" ∈ columns) then (w, None)
          else execute "migrate acl_rules column action: %w" (main db) [AddColumn "acl_rules" action_column] w
      end
  end.

Definition migrateConfigurationSchema (db : DB) (w : W) : W * option error :=
  execute "migrate configuration table: %w" (main db) [create_configuration] w.
Definition migrateDNSSECSchema (db : DB) (w : W) : W * option error :=
  execute "migrate dnssec_keys table: %w" (main db) [create_dnssec_keys] w.
Definition migrateAuditSchema (db : DB) (w : W) : W * option error :=
  execute "migrate audit_logs table: %w" (main db) auditSchema w.

Definition migrateMetricsRollup (db : DB) (w : W) : W * option error :=
  match tableColumns db "metrics_rollup" w with
  | Err e => (w, Some e)
  | Ok columns => alter "migrate metrics_rollup column %s: %w" (state db) columns rollupAlterations w
  end.

(** ** Opening and closing *)
Fixpoint pragmas (c : C) (l : list string) (w : W) : W * option error :=
  match l with
  | [] => (w, None)
  | p :: l =>
      match sql_pragma w c p with
      | (w, Some e) => (w, Some (errWrap "exec %s: %w" e))
      | (w, None) => pragmas c l w
      end
  end.
Definition applyPragmas (c : C) (w : W) : W * option error :=
  pragmas c ["PRAGMA journal_mode=WAL;"; "PRAGMA synchronous=NORMAL;"] w.

Definition openSQLite (path : string) (w : W) : W * res C :=
  match sql_open w (sqlite_dsn path) with
  | (w, Err e) => (w, Err e)
  | (w, Ok c) =>
      match applyPragmas c w with
      | (w, Some e) => ((sql_close w c).1, Err e)
      | (w, None) => (w, Ok c)
      end
  end.

(** The handles of an opened [DB] are never nil. *)
Definition Close (db : DB) (w : W) : W * option error :=
  let '(w, e1) := sql_close w (state db) in
  let '(w, e2) := sql_close w (main db) in
  (w, match errWrap "close state database: %w" <$> e1, errWrap "close main database: %w" <$> e2 with
      | None, e | e, None => e
      | Some _, Some _ => Some (errNew "close databases: %v")
      end).

(** The steps of [OpenDB] in their order; the first error closes both. *)
Definition migrations : list (DB → W → W * option error) :=
  [initStateSchema; initMainSchema; migrateBlocklistSchema; migrateACLSchema; migrateMetricsRollup;
   migrateConfigurationSchema; migrateAuditSchema; migrateDNSSECSchema].

Fixpoint migrate (db : DB) (l : list (DB → W → W * option error)) (w : W) : W * res DB :=
  match l with
  | [] => (w, Ok db)
  | f :: l =>
      match f db w with
      | (w, Some e) => ((Close db w).1, Err e)
      | (w, None) => migrate db l w
      end
  end.

Definition state_path (dataDir : string) : string := path_join [dataDir; stateDBFilename].
Definition main_path (dataDir : string) : string := path_join [dataDir; mainDBFilename].
Definition data_dir (dataDir : string) : string := if bool_decide (dataDir = "") then defaultDataDir else dataDir.

Definition OpenDB (dataDir : string) (w : W) : W * res DB :=
  let dataDir := data_dir dataDir in
  match fs_mkdir_all w dataDir with
  | (w, Some e) => (w, Err (errWrap "create data directory %q: %w" e))
  | (w, None) =>
      match openSQLite (state_path dataDir) w with
      | (w, Err e) => (w, Err (errWrap "open state database: %w" e))
      | (w, Ok stateDB) =>
          match openSQLite (main_path dataDir) w with
          | (w, Err e) => ((sql_close w stateDB).1, Err (errWrap "open main database: %w" e))
          | (w, Ok mainDB) => migrate (MkDB stateDB mainDB) migrations w
          end
      end
  end.
End schema.
Arguments DB : clear implicits.

(** ** What opening makes of the tables

    The tables of each file with the columns that are added to older ones. *)
Definition stateTables : list (ddl * list column) :=
  [(create_metrics_rollup, [int_zero "local_queries"; int_zero "upstream_queries"])].
Definition mainTables : list (ddl * list column) :=
  [(create_blocklist_sources, [int_zero "last_count"; date_null "last_sync"; text_null "description"]);
   (create_blocklist_custom, []); (create_acl_rules, [action_column]); (create_configuration, []);
   (create_audit_logs, []); (create_dnssec_keys, [])].

Fixpoint ensure (cs : list column) (tb : table) : table :=
  match cs with
  | [] => tb
  | c :: cs => ensure cs (if decide (c_name c ∈ column_names tb) then tb else add_column c tb)
  end.

Definition upgrade_table (m : tables) (p : ddl * list column) : tables :=
  match p with
  | (CreateTable t cols _, cs) => <[t := ensure cs (default (MkTable cols []) (m !! t))]> m
  | _ => m
  end.
Definition upgrade (l : list (ddl * list column)) (m : tables) : tables := foldl upgrade_table m l.

(** A single statement of a migration. *)
Inductive mstep (l : list (ddl * list column)) (m : tables) : tables → Prop :=
| ms_same : mstep l m m
| ms_create t cols k cs : (CreateTable t cols k, cs) ∈ l → mstep l m (create t cols m)
| ms_add t cols k cs c tb : (CreateTable t cols k, cs) ∈ l → c ∈ cs → m !! t = Some tb →
    c_name c ∉ column_names tb → mstep l m (<[t := add_column c tb]> m).

(** No table, no row and no value is lost. *)
Definition agree (names : list string) (r r' : gmap string (option string)) : Prop :=
  ∀ n, n ∈ names → r' !! n = r !! n.
Definition kept (old new : table) : Prop :=
  column_names old `prefix_of` column_names new ∧ Forall2 (agree (column_names old)) (t_rows old) (t_rows new).
Definition grows (m m' : tables) : Prop := ∀ t old, m !! t = Some old → ∃ new, m' !! t = Some new ∧ kept old new.

(** Nothing is left to do. *)
Definition settled (l : list (ddl * list column)) (m : tables) : Prop :=
  ∀ t cols k cs, (CreateTable t cols k, cs) ∈ l →
  ∃ tb, m !! t = Some tb ∧ ∀ c, c ∈ cs → c_name c ∈ column_names tb.

(** Tables of earlier versions have the columns that are never added. *)
Definition earlier (l : list (ddl * list column)) (m : tables) : Prop :=
  ∀ t cols k cs tb c, (CreateTable t cols k, cs) ∈ l → m !! t = Some tb → c ∈ cols →
  c_name c ∈ column_names tb ∨ c_name c ∈ map c_name cs.

Definition complete (l : list (ddl * list column)) (m : tables) : Prop :=
  ∀ t cols k cs, (CreateTable t cols k, cs) ∈ l →
  ∃ tb, m !! t = Some tb ∧ ∀ c, c ∈ cols ++ cs → c_name c ∈ column_names tb.

Lemma column_names_add c tb : column_names (add_column c tb) = column_names tb ++ [c_name c].
Proof. unfold column_names, add_column. cbn. by rewrite map_app. Qed.

#[local] Instance agree_preorder names : PreOrder (agree names).
Proof. split; [done|]. intros r1 r2 r3 H1 H2 n Hn. by rewrite (H2 n Hn), (H1 n Hn). Qed.

Lemma row_kept_refl tb : kept tb tb.
Proof. by split. Qed.
Lemma kept_trans a b c : kept a b → kept b c → kept a c.
Proof.
  intros [P1 F1] [P2 F2]. split; [by etrans|]. etrans; [done|]. eapply Forall2_impl; [done|].
  intros r r' H n Hn. apply H. destruct P1 as [k ->]. apply elem_of_app. by left.
Qed.
Lemma row_kept_add c tb : c_name c ∉ column_names tb → kept tb (add_column c tb).
Proof.
  intros Hc. split; [rewrite column_names_add; by apply prefix_app_r|]. cbn.
  induction (t_rows tb) as [|r rs IH]; constructor; [|done].
  intros n Hn. apply lookup_insert_ne. by intros <-.
Qed.

Lemma grows_refl m : grows m m.
Proof. intros t old H. exists old. split; [done|apply row_kept_refl]. Qed.
Lemma grows_trans a b c : grows a b → grows b c → grows a c.
Proof.
  intros H1 H2 t old (n1 & Hn1 & K1)%H1. apply H2 in Hn1 as (n2 & Hn2 & K2). exists n2. split; [done|]. by eapply kept_trans.
Qed.
#[local] Instance grows_preorder : PreOrder grows.
Proof. split; [exact grows_refl|exact grows_trans]. Qed.

Lemma grows_insert t tb tb' m : (∀ old, m !! t = Some old → kept old tb') → tb' = tb → grows m (<[t := tb]> m).
Proof.
  intros H -> u old Hu. destruct (decide (u = t)) as [->|Hne].
  - exists tb. rewrite lookup_insert_eq. split; [done|by apply H].
  - exists old. rewrite lookup_insert_ne by done. split; [done|apply row_kept_refl].
Qed.

Lemma mstep_grows l m m' : mstep l m m' → grows m m'.
Proof.
  intros [|t cols k cs _|t cols k cs c tb _ _ Ht Hc]; [done|..].
  - eapply grows_insert; [|done]. intros old ->. apply row_kept_refl.
  - eapply grows_insert; [|done]. rewrite Ht. intros ? [= <-]. by apply row_kept_add.
Qed.
Lemma msteps_grow l m m' : rtc (mstep l) m m' → grows m m'.
Proof. induction 1 as [|???? _ IH]; [done|]. etrans; [by eapply mstep_grows|done]. Qed.

(** Once settled, no statement changes a table. *)
Lemma mstep_settled l m m' : settled l m → mstep l m m' → m' = m.
Proof.
  intros Hs [|t cols k cs Hin|t cols k cs c tb Hin Hc Ht Hn]; [done|..]; destruct (Hs _ _ _ _ Hin) as (tb' & Ht' & Hcs).
  - unfold create. rewrite Ht'. by apply insert_id.
  - rewrite Ht in Ht'. injection Ht' as <-. by apply Hcs in Hc.
Qed.
Lemma msteps_settled l m m' : settled l m → rtc (mstep l) m m' → m' = m.
Proof. intros Hs. induction 1 as [|? ? ? H _ IH]; [done|]. apply mstep_settled in H as ->; [|done]. by apply IH. Qed.

Section laws.
Context {W C : Type} {FS : FileSys W} {SQ : Sqlite W C} {SL : SqliteLaws W C}.

(** ** Whatever the outcome, a run is made of statements of the migrations *)
Section moves.
Variables sp mp : string.

Definition moves (w w' : W) : Prop :=
  rtc (mstep stateTables) (db_tables w sp) (db_tables w' sp) ∧
  rtc (mstep mainTables) (db_tables w mp) (db_tables w' mp) ∧
  ∀ p, p ≠ sp → p ≠ mp → db_tables w' p = db_tables w p.

#[export] Instance moves_preorder : PreOrder moves.
Proof.
  split; [by intros w; split_and!|]. intros a b c (S1 & M1 & O1) (S2 & M2 & O2).
  split_and!; [by etrans..|]. intros p H1 H2. by rewrite O2, O1.
Qed.

Lemma moves_same w w' : (∀ p, db_tables w' p = db_tables w p) → moves w w'.
Proof. intros H. split_and!; [by rewrite H..|by intros]. Qed.

(** The statements that belong to the tables of a file. *)
Definition listed (l : list (ddl * list column)) (s : ddl) : bool :=
  match s with
  | CreateTable _ _ _ => existsb (λ p, bool_decide (p.1 = s)) l
  | CreateIndex _ _ _ => true
  | AddColumn t c =>
      existsb (λ p, match p.1 with CreateTable u _ _ => bool_decide (u = t) && bool_decide (c ∈ p.2) | _ => false end) l
  end.
Definition serves (c : C) (l : list (ddl * list column)) : Prop :=
  (conn_path c = sp ∧ l = stateTables) ∨ (conn_path c = mp ∧ l = mainTables).

Lemma listed_mstep l s m m' : listed l s = true → ddl_effect s m m' → mstep l m m'.
Proof.
  destruct s; cbn [listed ddl_effect].
  - intros ([s cs] & H & E)%existsb_exists ->. apply bool_decide_eq_true in E. cbn in E. subst s.
    by eapply ms_create, list_elem_of_In.
  - intros _ ->. constructor.
  - intros ([s cs] & H & E)%existsb_exists (tb & Ht & Hn & ->). destruct s; cbn in E; try done.
    rewrite andb_true_iff, !bool_decide_eq_true in E. destruct E as [-> Hc].
    eapply ms_add; [by apply list_elem_of_In|done..].
Qed.

Hypothesis Hne : sp ≠ mp.

Lemma exec1_moves c l s w : serves c l → listed l s = true → moves w (sql_exec w c s).1.
Proof.
  intros Hc Hl. destruct (sql_exec w c s) as [w' [e|]] eqn:E; cbn [fst].
  - apply moves_same. intros p. by eapply exec_err.
  - apply exec_ok in E as [He Ho]. apply (listed_mstep _ _ _ _ Hl) in He.
    unfold moves. destruct Hc as [[<- ->]|[<- ->]]; split_and!.
    + by apply rtc_once, He.
    + by rewrite Ho.
    + intros p Hp _. by apply Ho.
    + by rewrite Ho.
    + by apply rtc_once, He.
    + intros p _ Hp. by apply Ho.
Qed.

Lemma exec_moves c l ss w : serves c l → forallb (listed l) ss = true → moves w (exec c ss w).1.
Proof.
  revert w. induction ss as [|s ss IH]; intros w Hc; cbn; [done|]. intros [Hs Hl]%andb_true_iff.
  pose proof (exec1_moves c l s w Hc Hs) as H1. destruct (sql_exec w c s) as [w1 [e|]]; [done|]. etrans; [done|by apply IH].
Qed.

Lemma execute_moves label c l ss w : serves c l → forallb (listed l) ss = true → moves w (execute label c ss w).1.
Proof. intros Hc Hl. pose proof (exec_moves c l ss w Hc Hl). unfold execute. by destruct (exec c ss w). Qed.

Lemma alter_moves label c l columns alts w : serves c l → forallb (λ a, listed l a.2) alts = true →
  moves w (alter label c columns alts w).1.
Proof.
  revert w. induction alts as [|[n s] alts IH]; intros w Hc; cbn; [done|]. intros [Hs Hl]%andb_true_iff.
  destruct (decide (n ∈ columns)); [by apply IH|]. pose proof (exec1_moves c l s w Hc Hs) as H1.
  destruct (sql_exec w c s) as [w1 [e|]]; [done|]. etrans; [done|by apply IH].
Qed.

Definition on_paths (db : DB C) : Prop := conn_path (state db) = sp ∧ conn_path (main db) = mp.
Definition moving (f : DB C → W → W * option error) : Prop := ∀ db w, on_paths db → moves w (f db w).1.

Ltac listed := by vm_compute.

Lemma state_serves db : on_paths db → serves (state db) stateTables.
Proof. intros [? _]. by left. Qed.
Lemma main_serves db : on_paths db → serves (main db) mainTables.
Proof. intros [_ ?]. by right. Qed.
#[local] Hint Resolve state_serves main_serves : core.

Lemma blocklist_moving : moving migrateBlocklistSchema.
Proof.
  intros db w Hdb. unfold migrateBlocklistSchema. destruct (mainTableColumns _ _ _) as [columns|]; [|done].
  pose proof (alter_moves "migrate blocklist_sources column %s: %w" (main db) mainTables columns
    blocklistAlterations w ltac:(auto) ltac:(listed)) as H1.
  destruct (alter _ _ _ _ _) as [w1 [e|]]; [done|]. etrans; [done|]. apply (execute_moves _ _ mainTables); [auto|listed].
Qed.

Lemma acl_moving : moving migrateACLSchema.
Proof.
  intros db w Hdb. unfold migrateACLSchema.
  pose proof (execute_moves "migrate acl_rules table: %w" (main db) mainTables [create_acl_rules] w
    ltac:(auto) ltac:(listed)) as H1.
  destruct (execute _ _ _ _) as [w1 [e|]]; [done|]. destruct (mainTableColumns _ _ _) as [columns|]; [|done].
  destruct (decide _); [done|]. etrans; [done|]. apply (execute_moves _ _ mainTables); [auto|listed].
Qed.

Lemma rollup_moving : moving migrateMetricsRollup.
Proof.
  intros db w Hdb. unfold migrateMetricsRollup. destruct (tableColumns _ _ _) as [columns|]; [|done].
  apply (alter_moves _ _ stateTables); [auto|listed].
Qed.

Lemma migrations_moving : Forall moving migrations.
Proof.
  pose proof blocklist_moving. pose proof acl_moving. pose proof rollup_moving.
  unfold migrations. repeat (apply Forall_cons_2 || apply Forall_nil_2); try done; intros db w Hdb.
  1: apply (execute_moves _ _ stateTables); [auto|listed].
  all: apply (execute_moves _ _ mainTables); [auto|listed].
Qed.

Lemma close_moves db w : moves w (Close db w).1.
Proof.
  apply moves_same. intros p. unfold Close.
  pose proof (close_tables w (state db) p) as H1. destruct (sql_close w (state db)) as [w1 e1].
  pose proof (close_tables w1 (main db) p) as H2. destruct (sql_close w1 (main db)) as [w2 e2]. cbn in *. congruence.
Qed.

Lemma migrate_moves db l w : on_paths db → Forall moving l → moves w (migrate db l w).1.
Proof.
  intros Hdb Hl. revert w. induction Hl as [|f l Hf _ IH]; intros w; cbn; [done|].
  pose proof (Hf db w Hdb) as H1. destruct (f db w) as [w1 [e|]]; cbn [fst] in *; etrans; [done| |done|done].
  apply close_moves.
Qed.
End moves.

(** ** Opening *)
Lemma pragmas_tables c l w p : db_tables (pragmas c l w).1 p = db_tables w p.
Proof.
  revert w. induction l as [|x l IH]; intros w; cbn; [done|]. pose proof (pragma_tables w c x p) as H.
  destruct (sql_pragma w c x) as [w1 [e|]]; [done|]. by rewrite IH.
Qed.

Lemma open_sqlite_spec path w w' r : openSQLite path w = (w', r) →
  (∀ p, db_tables w' p = db_tables w p) ∧ ∀ c, r = Ok c → conn_path c = path.
Proof.
  unfold openSQLite. pose proof (open_tables w (sqlite_dsn path)) as Ho.
  destruct (sql_open w (sqlite_dsn path)) as [w1 [c|e]] eqn:Eo; cbn [fst] in Ho; [|by intros [= <- <-]].
  pose proof (pragmas_tables c ["PRAGMA journal_mode=WAL;"; "PRAGMA synchronous=NORMAL;"] w1) as Hp.
  unfold applyPragmas. destruct (pragmas c _ w1) as [w2 [e|]]; cbn [fst] in Hp.
  - intros [= <- <-]. split; [|done]. intros p. by rewrite close_tables, Hp.
  - intros [= <- <-]. split; [intros p; by rewrite Hp|]. intros c' [= <-]. by eapply open_path.
Qed.

Lemma paths_differ dir : state_path dir ≠ main_path dir.
Proof. by intros ?%path_join_inj. Qed.

(** Both connections are open and nothing is changed yet. *)
Lemma open_both dataDir w w' r : OpenDB dataDir w = (w', r) →
  (∀ p, db_tables w' p = db_tables w p) ∧ (∃ e, r = Err e) ∨
  ∃ db w0, on_paths (state_path (data_dir dataDir)) (main_path (data_dir dataDir)) db ∧
    (∀ p, db_tables w0 p = db_tables w p) ∧ migrate db migrations w0 = (w', r).
Proof.
  unfold OpenDB. pose proof (mkdir_tables w (data_dir dataDir)) as H1.
  destruct (fs_mkdir_all w (data_dir dataDir)) as [w1 [e|]]; cbn [fst] in H1; [intros [= <- <-]; by eauto|].
  destruct (openSQLite _ w1) as [w2 [c2|e]] eqn:E2; apply open_sqlite_spec in E2 as [H2 P2].
  2: { intros [= <- <-]. left. split; [|by eexists]. intros p. by rewrite H2. }
  destruct (openSQLite _ w2) as [w3 [c3|e]] eqn:E3; apply open_sqlite_spec in E3 as [H3 P3].
  2: { intros [= <- <-]. left. split; [|by eexists]. intros p. by rewrite close_tables, H3, H2. }
  intros H. right. exists (MkDB c2 c3), w3. split_and!; [split; [by apply P2|by apply P3]| |done].
  intros p. by rewrite H3, H2.
Qed.

Lemma open_moves dataDir w w' r : OpenDB dataDir w = (w', r) →
  moves (state_path (data_dir dataDir)) (main_path (data_dir dataDir)) w w'.
Proof.
  intros [[H _]|(db & w0 & Hdb & H0 & H)]%open_both; [by apply moves_same|].
  etrans; [by apply moves_same|]. pose proof (migrate_moves _ _ db migrations w0 Hdb
    (migrations_moving _ _ (paths_differ _))) as Hm. by rewrite H in Hm.
Qed.

(** ** A successful run is the upgrade *)
Definition alter_pure (t : string) (cs : list column) (m : tables) : tables :=
  match m !! t with Some tb => <[t := ensure cs tb]> m | None => m end.

(** The effect of a step that succeeds on the tables of its file. *)
Definition yields (c : C) (F : tables → tables) (w w' : W) : Prop :=
  db_tables w' (conn_path c) = F (db_tables w (conn_path c)) ∧
  ∀ p, p ≠ conn_path c → db_tables w' p = db_tables w p.

Definition ddl_pure (s : ddl) (m : tables) : tables :=
  match s with CreateTable t cols _ => create t cols m | _ => m end.

Lemma yields_trans c F G w1 w2 w3 : yields c F w1 w2 → yields c G w2 w3 → yields c (G ∘ F) w1 w3.
Proof. intros [E1 O1] [E2 O2]. split; [cbn; congruence|]. intros p Hp. by rewrite O2, O1. Qed.

Lemma exec_yields c ss w w' : forallb (λ s, match s with AddColumn _ _ => false | _ => true end) ss = true →
  exec c ss w = (w', None) → yields c (λ m, foldl (λ m s, ddl_pure s m) m ss) w w'.
Proof.
  revert w. induction ss as [|s ss IH]; intros w; cbn; [by intros _ [= ->]|]. intros [Hs Hss]%andb_true_iff.
  destruct (sql_exec w c s) as [w1 [e|]] eqn:E; [done|]. intros H. apply (IH _ Hss) in H.
  apply exec_ok in E as [E O]. refine (yields_trans c (ddl_pure s) _ _ _ _ _ H). split; [|done].
  by destruct s.
Qed.

Lemma execute_yields label c ss w w' :
  forallb (λ s, match s with AddColumn _ _ => false | _ => true end) ss = true →
  execute label c ss w = (w', None) → yields c (λ m, foldl (λ m s, ddl_pure s m) m ss) w w'.
Proof.
  intros Hs. unfold execute. destruct (exec c ss w) as [w1 [e|]] eqn:E; [done|]. intros [= <-]. by apply exec_yields.
Qed.

Lemma scan_names names acc : scanColumns (map Ok names) acc = Ok (list_to_set names ∪ acc).
Proof.
  revert acc. induction names as [|n names IH]; intros acc; cbn; [f_equal; set_solver|]. rewrite IH. f_equal. set_solver.
Qed.

Lemma columns_spec c t w columns : columnsOf c t w = Ok columns →
  columns = list_to_set (default [] (column_names <$> db_tables w (conn_path c) !! t)).
Proof.
  unfold columnsOf. destruct (sql_table_info w c t) as [[rows [e|]]|e] eqn:E; [|apply info_names in E as ->|done].
  - by destruct (scanColumns rows ∅).
  - rewrite scan_names. intros [= <-]. set_solver.
Qed.

Lemma alter_yields label c t cs columns tb w w' : db_tables w (conn_path c) !! t = Some tb →
  NoDup (map c_name cs) → (∀ x, x ∈ cs → c_name x ∈ columns ↔ c_name x ∈ column_names tb) →
  alter label c columns (map (alteration t) cs) w = (w', None) → yields c (alter_pure t cs) w w'.
Proof.
  revert w tb. induction cs as [|x cs IH]; intros w tb Ht; cbn [map alter alteration].
  - intros _ _ [= <-]. split; [|done]. unfold alter_pure. rewrite Ht. cbn. by rewrite insert_id.
  - intros [Hx Hnd]%NoDup_cons Hcols. pose proof (Hcols x (list_elem_of_here _ _)) as Hin. destruct (decide (c_name x ∈ columns)) as [Hc|Hc].
    + intros H. apply (IH _ tb Ht Hnd) in H as [E O]; [|by intros y Hy; apply Hcols; right].
      split; [|done]. rewrite E. unfold alter_pure. rewrite Ht. cbn [ensure]. rewrite decide_True by tauto. done.
    + destruct (sql_exec w c (AddColumn t x)) as [w1 [e|]] eqn:E; [done|]. intros H.
      apply exec_ok in E as [(tb' & Ht' & Hn & E) O]. rewrite Ht in Ht'. injection Ht' as <-.
      apply (IH _ (add_column x tb)) in H as [E2 O2]; [|by rewrite E, lookup_insert_eq|done|].
      * split; [|intros p Hp; by rewrite O2, O]. rewrite E2, E. unfold alter_pure.
        rewrite lookup_insert_eq, Ht. cbn [ensure]. rewrite decide_False by done. apply insert_insert_eq.
      * intros y Hy. rewrite column_names_add, elem_of_app, list_elem_of_singleton, Hcols by by right.
        split; [by left|]. intros [|Hyx]; [done|]. destruct Hx. rewrite <-Hyx. by apply list_elem_of_fmap_2.
Qed.

Lemma lookup_create t cols m u :
  create t cols m !! u = if decide (u = t) then Some (default (MkTable cols []) (m !! t)) else m !! u.
Proof. unfold create. case_decide as E; [subst; apply lookup_insert_eq|by apply lookup_insert_ne]. Qed.

Lemma lookup_alter t cs m u :
  alter_pure t cs m !! u = if decide (u = t) then ensure cs <$> m !! t else m !! u.
Proof.
  unfold alter_pure. case_decide as E; [subst u|]; (destruct (m !! t) as [tb|] eqn:Et; [|done]).
  - apply lookup_insert_eq.
  - by apply lookup_insert_ne.
Qed.

Lemma lookup_upgrade_table m t cols k cs u :
  upgrade_table m (CreateTable t cols k, cs) !! u =
    if decide (u = t) then Some (ensure cs (default (MkTable cols []) (m !! t))) else m !! u.
Proof. cbn. case_decide as E; [subst; apply lookup_insert_eq|by apply lookup_insert_ne]. Qed.

(** One file of the two. *)
Lemma blocklist_yields db w w' : is_Some (db_tables w (conn_path (main db)) !! "blocklist_sources") →
  migrateBlocklistSchema db w = (w', None) →
  yields (main db) (λ m, ddl_pure create_blocklist_custom
    (alter_pure "blocklist_sources" [int_zero "last_count"; date_null "last_sync"; text_null "description"] m)) w w'.
Proof.
  intros [tb Ht]. unfold migrateBlocklistSchema, mainTableColumns.
  destruct (columnsOf _ _ _) as [columns|e] eqn:Ec; [|done]. apply columns_spec in Ec. rewrite Ht in Ec. cbn in Ec.
  destruct (alter _ _ _ _ _) as [w1 [e|]] eqn:Ea; [done|]. intros He.
  eapply alter_yields in Ea; [|exact Ht|by apply (bool_decide_unpack _); vm_compute|
    by intros x _; subst columns; apply elem_of_list_to_set].
  apply execute_yields in He; [|done]. exact (yields_trans _ _ _ _ _ _ Ea He).
Qed.

Lemma acl_yields db w w' : migrateACLSchema db w = (w', None) →
  yields (main db) (λ m, alter_pure "acl_rules" [action_column] (ddl_pure create_acl_rules m)) w w'.
Proof.
  unfold migrateACLSchema, mainTableColumns. destruct (execute _ _ _ _) as [w1 [e|]] eqn:E1; [done|].
  apply execute_yields in E1; [|done]. destruct (columnsOf _ _ _) as [columns|e] eqn:Ec; [|done].
  apply columns_spec in Ec. intros H. refine (yields_trans _ _ (alter_pure "acl_rules" [action_column]) _ _ _ E1 _).
  assert (∃ tb, db_tables w1 (conn_path (main db)) !! "acl_rules" = Some tb) as [tb Ht].
  { destruct E1 as [-> _]. cbn [foldl ddl_pure create_acl_rules]. rewrite lookup_create, decide_True by done. by eexists. }
  rewrite Ht in Ec. cbn in Ec. revert H. destruct (decide ("action" ∈ columns)) as [Hc|Hc]; subst columns; rewrite elem_of_list_to_set in Hc.
  - intros [= <-]. split; [|done]. unfold alter_pure. rewrite Ht. cbn [ensure]. rewrite decide_True by done. by rewrite insert_id.
  - unfold execute. cbn [exec]. destruct (sql_exec _ _ _) as [w2 [e|]] eqn:E2; [done|]. intros [= <-].
    apply exec_ok in E2 as [(tb' & Ht' & _ & E) O]. rewrite Ht in Ht'. injection Ht' as <-. split; [|done].
    rewrite E. unfold alter_pure. rewrite Ht. cbn [ensure]. by rewrite decide_False.
Qed.

Lemma rollup_yields db w w' : is_Some (db_tables w (conn_path (state db)) !! "metrics_rollup") →
  migrateMetricsRollup db w = (w', None) →
  yields (state db) (alter_pure "metrics_rollup" [int_zero "local_queries"; int_zero "upstream_queries"]) w w'.
Proof.
  intros [tb Ht]. unfold migrateMetricsRollup, tableColumns.
  destruct (columnsOf _ _ _) as [columns|e] eqn:Ec; [|done]. apply columns_spec in Ec. rewrite Ht in Ec. cbn in Ec.
  eapply alter_yields; [exact Ht|by apply (bool_decide_unpack _); vm_compute|].
  intros x _. subst columns. apply elem_of_list_to_set.
Qed.

Lemma migrate_ok (db : DB C) f l w w' db' : migrate db (f :: l) w = (w', Ok db') →
  ∃ w1, f db w = (w1, None) ∧ migrate db l w1 = (w', Ok db').
Proof. cbn. destruct (f db w) as [w1 [e|]]; [done|]. by exists w1. Qed.

Lemma upgrade_state m : alter_pure "metrics_rollup" [int_zero "local_queries"; int_zero "upstream_queries"]
  (ddl_pure create_metrics_rollup m) = upgrade stateTables m.
Proof.
  apply map_eq. intros u. unfold create_metrics_rollup.
  cbn [upgrade stateTables foldl ddl_pure]. unfold create_metrics_rollup.
  rewrite lookup_alter, lookup_upgrade_table, !lookup_create. by repeat (case_decide; simplify_eq).
Qed.

(** The lookup of a name in a chain of these. *)
Ltac table_lookup :=
  repeat (rewrite lookup_alter || rewrite lookup_create || rewrite lookup_upgrade_table;
          first [rewrite decide_True by done | rewrite decide_False by done]).

Lemma upgrade_main m :
  ddl_pure create_dnssec_keys (ddl_pure create_audit_logs (ddl_pure create_configuration
    (alter_pure "acl_rules" [action_column] (ddl_pure create_acl_rules
      (ddl_pure create_blocklist_custom
        (alter_pure "blocklist_sources" [int_zero "last_count"; date_null "last_sync"; text_null "description"]
          (foldl (λ m s, ddl_pure s m) m mainSchema))))))) = upgrade mainTables m.
Proof.
  apply map_eq. intros u.
  cbn [upgrade mainTables mainSchema foldl].
  unfold create_dnssec_keys, create_audit_logs, create_configuration, create_acl_rules, create_blocklist_custom,
    create_blocklist_sources. cbn [ddl_pure].
  destruct (decide (u ∈ ["blocklist_sources"; "blocklist_custom"; "acl_rules"; "configuration"; "audit_logs";
    "dnssec_keys"])) as [Hu|Hu].
  - repeat (apply elem_of_cons in Hu as [->|Hu]; [by table_lookup|]). by apply elem_of_nil in Hu.
  - rewrite !not_elem_of_cons in Hu. destruct Hu as (?&?&?&?&?&?&_). by table_lookup.
Qed.

Lemma open_refines dataDir w w' db : OpenDB dataDir w = (w', Ok db) →
  let sp := state_path (data_dir dataDir) in let mp := main_path (data_dir dataDir) in
  on_paths sp mp db ∧ db_tables w' sp = upgrade stateTables (db_tables w sp) ∧
  db_tables w' mp = upgrade mainTables (db_tables w mp).
Proof.
  intros [(_ & e & [=])|(db' & w0 & [Hs Hm] & H0 & H)]%open_both sp mp. fold sp in Hs. fold mp in Hm.
  assert (Hd : sp ≠ mp) by apply paths_differ.
  apply migrate_ok in H as (w1 & [E1 O1]%execute_yields & H); [|done].
  apply migrate_ok in H as (w2 & [E2 O2]%execute_yields & H); [|done].
  apply migrate_ok in H as (w3 & H3 & H).
  apply blocklist_yields in H3 as [E3 O3].
  2: { rewrite E2. cbn [mainSchema foldl ddl_pure create_blocklist_sources create_blocklist_custom create_acl_rules].
       rewrite !lookup_create. by eexists. }
  apply migrate_ok in H as (w4 & [E4 O4]%acl_yields & H).
  apply migrate_ok in H as (w5 & H5 & H).
  apply rollup_yields in H5 as [E5 O5].
  2: { rewrite Hs, O4, O3, O2, <-Hs, E1 by congruence. cbn [stateSchema foldl ddl_pure create_metrics_rollup].
       rewrite !lookup_create. by eexists. }
  apply migrate_ok in H as (w6 & [E6 O6]%execute_yields & H); [|done].
  apply migrate_ok in H as (w7 & [E7 O7]%execute_yields & H); [|done].
  apply migrate_ok in H as (w8 & [E8 O8]%execute_yields & H); [|done].
  injection H as <- <-. rewrite Hs in *. rewrite Hm in *. split_and!; [done..| |].
  - rewrite O8, O7, O6, E5, O4, O3, O2, E1, H0 by congruence. exact (upgrade_state _).
  - rewrite E8, E7, E6, O5, E4, E3, E2, O1, H0 by congruence. exact (upgrade_main _).
Qed.

(** ** The upgrade *)
Lemma ensure_kept cs tb : kept tb (ensure cs tb).
Proof.
  revert tb. induction cs as [|c cs IH]; intros tb; cbn; [apply row_kept_refl|]. case_decide; [apply IH|].
  eapply kept_trans; [by apply row_kept_add|apply IH].
Qed.

Lemma kept_column tb tb' n : kept tb tb' → n ∈ column_names tb → n ∈ column_names tb'.
Proof. intros [[k ->] _] H. apply elem_of_app. by left. Qed.

Lemma ensure_has cs tb c : c ∈ cs → c_name c ∈ column_names (ensure cs tb).
Proof.
  revert tb. induction cs as [|x cs IH]; intros tb; [by intros ?%elem_of_nil|].
  intros [->|Hc]%elem_of_cons; [|by apply IH]. cbn. eapply kept_column; [apply ensure_kept|].
  case_decide; [done|]. rewrite column_names_add, elem_of_app. right. by apply list_elem_of_singleton.
Qed.

(** A list of distinct tables. *)
Definition table_name (p : ddl * list column) : option string :=
  match p.1 with CreateTable t _ _ => Some t | _ => None end.

Lemma upgrade_other l m t : Some t ∉ map table_name l → upgrade l m !! t = m !! t.
Proof.
  unfold upgrade. revert m. induction l as [|[s cs] l IH]; intros m; cbn; [done|].
  intros [Hs Hl]%not_elem_of_cons. rewrite IH by done. destruct s as [u cols k| |]; try done. cbn in Hs.
  apply lookup_insert_ne. congruence.
Qed.

Lemma upgrade_lookup l m t cols k cs : NoDup (map table_name l) → (CreateTable t cols k, cs) ∈ l →
  upgrade l m !! t = Some (ensure cs (default (MkTable cols []) (m !! t))).
Proof.
  revert m. induction l as [|p l IH]; intros m; [by intros _ ?%elem_of_nil|].
  cbn [map]. intros [Hp Hl]%NoDup_cons [<-|Hin]%elem_of_cons; cbn [upgrade foldl].
  - etrans; [by apply (upgrade_other l)|]. cbn. apply lookup_insert_eq.
  - etrans; [by apply (IH (upgrade_table m p))|]. destruct p as [[u cols' k'| |] cs']; try done. cbn.
    rewrite lookup_insert_ne; [done|]. intros ->. apply Hp. by apply list_elem_of_fmap_2 with (f := table_name) in Hin.
Qed.

Lemma upgrade_settled l m : NoDup (map table_name l) → settled l (upgrade l m).
Proof.
  intros Hl t cols k cs Hin. eexists. split; [by eapply upgrade_lookup|]. intros c. apply ensure_has.
Qed.

Lemma upgrade_complete l m : NoDup (map table_name l) → earlier l m → complete l (upgrade l m).
Proof.
  intros Hl He t cols k cs Hin. eexists. split; [by eapply upgrade_lookup|].
  intros c [Hc|Hc]%elem_of_app; [|by apply ensure_has]. destruct (m !! t) as [tb|] eqn:Et; cbn [default].
  - destruct (He _ _ _ _ _ _ Hin Et Hc) as [Hn|(x & Hx & Hin')%list_elem_of_fmap].
    + eapply kept_column; [apply ensure_kept|done].
    + rewrite Hx. by apply ensure_has.
  - eapply kept_column; [apply ensure_kept|]. by apply list_elem_of_fmap_2.
Qed.

Definition tables_of_program : list (list (ddl * list column)) := [stateTables; mainTables].
Lemma distinct_tables l : l ∈ tables_of_program → NoDup (map table_name l).
Proof.
  intros Hl. apply (bool_decide_unpack _). repeat (apply elem_of_cons in Hl as [->|Hl]; [by vm_compute|]).
  by apply elem_of_nil in Hl.
Qed.
Lemma state_in : stateTables ∈ tables_of_program.
Proof. by left. Qed.
Lemma main_in : mainTables ∈ tables_of_program.
Proof. by right; left. Qed.

(** C21: opening the databases loses nothing and brings them up to date: whatever
    the outcome, every table of every file keeps its rows and their values, and
    files other than state.db and main.db are untouched; when it succeeds, the
    two hold exactly the upgrade of what they held, and databases of an earlier
    version, or none, then have every table and column the program uses. *)
Theorem open_db_upgrades dataDir w w' (r : res (DB C)) : OpenDB dataDir w = (w', r) →
  let sp := state_path (data_dir dataDir) in let mp := main_path (data_dir dataDir) in
  (∀ p, grows (db_tables w p) (db_tables w' p)) ∧
  (∀ p, p ≠ sp → p ≠ mp → db_tables w' p = db_tables w p) ∧
  ∀ db, r = Ok db →
    db_tables w' sp = upgrade stateTables (db_tables w sp) ∧ db_tables w' mp = upgrade mainTables (db_tables w mp) ∧
    (earlier stateTables (db_tables w sp) → complete stateTables (db_tables w' sp)) ∧
    (earlier mainTables (db_tables w mp) → complete mainTables (db_tables w' mp)).
Proof.
  intros H sp mp. pose proof (open_moves _ _ _ _ H) as (Ms & Mm & Mo). fold sp mp in Ms, Mm, Mo. split_and!.
  - intros p. destruct (decide (p = sp)) as [->|Hs]; [by eapply msteps_grow|].
    destruct (decide (p = mp)) as [->|Hm]; [by eapply msteps_grow|]. by rewrite Mo.
  - exact Mo.
  - intros db ->. apply open_refines in H as (_ & Es & Em). fold sp in Es. fold mp in Em. split_and!; [done..| |].
    + intros He. rewrite Es. by apply upgrade_complete; [apply distinct_tables, state_in|].
    + intros He. rewrite Em. by apply upgrade_complete; [apply distinct_tables, main_in|].
Qed.

(** migrations are done once: after databases have been opened, opening the
    same tables again, even when it fails half-way, changes none of them. *)
Theorem open_db_settles dataDir w w' (db : DB C) w1 w2 (r : res (DB C)) : OpenDB dataDir w = (w', Ok db) →
  (∀ p, db_tables w1 p = db_tables w' p) → OpenDB dataDir w1 = (w2, r) → ∀ p, db_tables w2 p = db_tables w' p.
Proof.
  intros (_ & Es & Em)%open_refines H1 (Ms & Mm & Mo)%open_moves p. rewrite H1, Es in Ms. rewrite H1, Em in Mm.
  apply msteps_settled in Ms; [|apply upgrade_settled, distinct_tables, state_in].
  apply msteps_settled in Mm; [|apply upgrade_settled, distinct_tables, main_in].
  destruct (decide (p = state_path (data_dir dataDir))) as [->|Hs]; [by rewrite Ms, Es|].
  destruct (decide (p = main_path (data_dir dataDir))) as [->|Hm]; [by rewrite Mm, Em|]. by rewrite Mo.
Qed.

(** ** Opening succeeds *)
Context {SV : SqliteLive W C}.

Definition succeeds (f : W → W * option error) (w : W) : Prop := ∃ w', f w = (w', None) ∧ healthy w'.

Lemma exec_live c ss w : forallb (λ s, match s with CreateTable _ _ _ => true | _ => false end) ss = true →
  healthy w → succeeds (exec c ss) w.
Proof.
  revert w. induction ss as [|s ss IH]; intros w; cbn; [by exists w|]. intros [Hs Hss]%andb_true_iff Hw.
  destruct (exec_healthy w c s Hw) as (w1 & E & Hw1); [by destruct s|]. destruct (IH w1 Hss Hw1) as (w2 & E2 & Hw2).
  exists w2. cbn. by rewrite E, E2.
Qed.

Lemma execute_live label c ss w : succeeds (exec c ss) w → succeeds (execute label c ss) w.
Proof. intros (w' & E & H). exists w'. unfold execute. by rewrite E. Qed.

Lemma columns_live c t w : healthy w → ∃ columns, columnsOf c t w = Ok columns.
Proof.
  intros Hw. destruct (info_healthy w c t Hw) as [rows E]. unfold columnsOf. pose proof E as ->%info_names.
  rewrite E, scan_names. by eexists.
Qed.

Lemma alter_live label c t cs columns tb w : db_tables w (conn_path c) !! t = Some tb → healthy w →
  NoDup (map c_name cs) → Forall (λ x, c_notnull x = true → c_default x ≠ None) cs →
  (∀ x, x ∈ cs → c_name x ∈ columns ↔ c_name x ∈ column_names tb) →
  succeeds (alter label c columns (map (alteration t) cs)) w.
Proof.
  revert w tb. induction cs as [|x cs IH]; intros w tb Ht Hw; [by exists w|].
  intros [Hx Hnd]%NoDup_cons [Hd Hds]%Forall_cons Hcols. unfold succeeds. cbn [map alter alteration].
  pose proof (Hcols x (list_elem_of_here _ _)) as Hin.
  destruct (decide (c_name x ∈ columns)) as [Hc|Hc].
  - apply (IH _ tb); try done. intros y Hy. apply Hcols. by right.
  - destruct (exec_healthy w c (AddColumn t x) Hw) as (w1 & E & Hw1).
    { split; [|done]. exists tb. split; [done|]. tauto. }
    rewrite E. apply exec_ok in E as [(tb' & Ht' & Hn & E) _]. rewrite Ht in Ht'. injection Ht' as <-.
    apply (IH _ (add_column x tb)); try done; [by rewrite E, lookup_insert_eq|].
    intros y Hy. rewrite column_names_add, elem_of_app, list_elem_of_singleton, Hcols by by right.
    split; [by left|]. intros [|Hyx]; [done|]. destruct Hx. rewrite <-Hyx. by apply list_elem_of_fmap_2.
Qed.

Lemma index_live c t cols k i n w : healthy w → n ∈ map c_name cols →
  (∀ tb, db_tables w (conn_path c) !! t = Some tb → n ∈ column_names tb) →
  succeeds (exec c [CreateTable t cols k; CreateIndex i t n]) w.
Proof.
  intros Hw Hn Ht. destruct (exec_healthy w c (CreateTable t cols k) Hw I) as (w1 & E1 & Hw1).
  destruct (exec_healthy w1 c (CreateIndex i t n) Hw1) as (w2 & E2 & Hw2).
  - apply exec_ok in E1 as [E1 _]. cbn in E1. rewrite E1. eexists. rewrite lookup_create, decide_True by done.
    split; [done|]. destruct (_ !! t) as [tb|]; [by apply Ht|done].
  - exists w2. cbn. by rewrite E1, E2.
Qed.

Lemma open_sqlite_live path w : healthy w → ∃ w' c, openSQLite path w = (w', Ok c) ∧ healthy w'.
Proof.
  intros Hw. destruct (open_healthy w (sqlite_dsn path) Hw) as (w1 & c & E1 & H1).
  destruct (pragma_healthy w1 c "PRAGMA journal_mode=WAL;" H1) as (w2 & E2 & H2).
  destruct (pragma_healthy w2 c "PRAGMA synchronous=NORMAL;" H2) as (w3 & E3 & H3).
  exists w3, c. unfold openSQLite, applyPragmas. cbn. by rewrite E1, E2, E3.
Qed.

Lemma migrate_live (db : DB C) f l w : succeeds (f db) w →
  (∀ w1, f db w = (w1, None) → healthy w1 → ∃ w', migrate db l w1 = (w', Ok db) ∧ healthy w') →
  ∃ w', migrate db (f :: l) w = (w', Ok db) ∧ healthy w'.
Proof. intros (w1 & E & H) Hl. cbn. rewrite E. by apply Hl. Qed.

Lemma blocklist_live db w : is_Some (db_tables w (conn_path (main db)) !! "blocklist_sources") → healthy w →
  succeeds (migrateBlocklistSchema db) w.
Proof.
  intros [tb Ht] Hw. unfold succeeds, migrateBlocklistSchema, mainTableColumns.
  destruct (columns_live (main db) "blocklist_sources" w Hw) as [columns Ec]. rewrite Ec.
  apply columns_spec in Ec. rewrite Ht in Ec. cbn in Ec.
  destruct (alter_live "migrate blocklist_sources column %s: %w" (main db) "blocklist_sources"
    [int_zero "last_count"; date_null "last_sync"; text_null "description"] columns tb w Ht Hw) as (w1 & E1 & H1).
  - by apply (bool_decide_unpack _); vm_compute.
  - by repeat constructor.
  - intros x _. subst columns. apply elem_of_list_to_set.
  - unfold blocklistAlterations. rewrite E1. by apply execute_live, exec_live.
Qed.

Lemma acl_live db w : healthy w → succeeds (migrateACLSchema db) w.
Proof.
  intros Hw. unfold succeeds, migrateACLSchema, mainTableColumns.
  destruct (execute_live "migrate acl_rules table: %w" (main db) [create_acl_rules] w) as (w1 & E1 & H1);
    [by apply exec_live|]. rewrite E1. apply execute_yields in E1 as [E1 _]; [|done].
  destruct (columns_live (main db) "acl_rules" w1 H1) as [columns Ec]. rewrite Ec. apply columns_spec in Ec.
  destruct (decide ("action" ∈ columns)) as [Hc|Hc]; [by exists w1|]. apply execute_live.
  destruct (exec_healthy w1 (main db) (AddColumn "acl_rules" action_column) H1) as (w2 & E2 & H2).
  - split; [|done]. cbn [foldl ddl_pure create_acl_rules] in E1.
    eexists. rewrite E1, lookup_create, decide_True by done. split; [done|].
    rewrite E1, lookup_create, decide_True in Ec by done. cbn in Ec. subst columns. by rewrite elem_of_list_to_set in Hc.
  - exists w2. cbn. by rewrite E2.
Qed.

Lemma rollup_live db w : is_Some (db_tables w (conn_path (state db)) !! "metrics_rollup") → healthy w →
  succeeds (migrateMetricsRollup db) w.
Proof.
  intros [tb Ht] Hw. unfold succeeds, migrateMetricsRollup, tableColumns.
  destruct (columns_live (state db) "metrics_rollup" w Hw) as [columns Ec]. rewrite Ec.
  apply columns_spec in Ec. rewrite Ht in Ec. cbn in Ec. eapply alter_live; [exact Ht|done| | |].
  - by apply (bool_decide_unpack _); vm_compute.
  - by repeat constructor.
  - intros x _. subst columns. apply elem_of_list_to_set.
Qed.

(** What the indexes are on. *)
Lemma earlier_timestamp l m t cols k : earlier l m → (CreateTable t cols k, []) ∈ l ∨
    (∃ cs, (CreateTable t cols k, cs) ∈ l ∧ "timestamp" ∉ map c_name cs) →
  date_nn "timestamp" ∈ cols → ∀ tb, m !! t = Some tb → "timestamp" ∈ column_names tb.
Proof.
  intros He [H|(cs & H & Hn)] Hc tb Ht; destruct (He _ _ _ _ _ _ H Ht Hc); [done|by apply elem_of_nil in H0|done|done].
Qed.

(** on a medium where legal statements succeed, opening succeeds from
    nothing and from databases of any earlier version. *)
Theorem open_db_succeeds dataDir w :
  healthy w → earlier stateTables (db_tables w (state_path (data_dir dataDir))) →
  earlier mainTables (db_tables w (main_path (data_dir dataDir))) →
  ∃ w' (db : DB C), OpenDB dataDir w = (w', Ok db) ∧ healthy w'.
Proof.
  intros Hw Hes Hem. unfold OpenDB. set (sp := state_path _) in *. set (mp := main_path _) in *.
  assert (Hd : sp ≠ mp) by apply paths_differ.
  destruct (mkdir_healthy w (data_dir dataDir) Hw) as (w1 & E1 & H1). rewrite E1.
  destruct (open_sqlite_live sp w1 H1) as (w2 & c1 & E2 & H2). rewrite E2.
  destruct (open_sqlite_live mp w2 H2) as (w3 & c2 & E3 & H3). rewrite E3.
  pose proof (mkdir_tables w (data_dir dataDir)) as T1. rewrite E1 in T1. cbn in T1.
  apply open_sqlite_spec in E2 as [T2 P1], E3 as [T3 P2]. specialize (P1 _ eq_refl). specialize (P2 _ eq_refl).
  assert (T : ∀ p, db_tables w3 p = db_tables w p) by (intros p; by rewrite T3, T2, T1). clear T1 T2 T3.
  set (db := MkDB c1 c2). enough (∃ w', migrate db migrations w3 = (w', Ok db) ∧ healthy w') as (w' & ? & ?) by by exists w', db.
  change c1 with (state db) in P1. change c2 with (main db) in P2. clearbody db. unfold migrations.
  apply migrate_live.
  { apply execute_live, index_live; [done|by left|]. rewrite P1, T. eapply earlier_timestamp; [done| |by left].
    right. eexists. split; [by left|by apply (bool_decide_unpack _); vm_compute]. }
  intros w4 [E4 O4]%execute_yields H4; [|done]. apply migrate_live; [by apply execute_live, exec_live|].
  intros w5 [E5 O5]%execute_yields H5; [|done].
  assert (B5 : is_Some (db_tables w5 (conn_path (main db)) !! "blocklist_sources")).
  { rewrite E5. cbn [mainSchema foldl ddl_pure create_blocklist_sources create_blocklist_custom create_acl_rules].
    rewrite !lookup_create. by eexists. }
  apply migrate_live; [by apply blocklist_live|]. intros w6 [E6 O6]%blocklist_yields H6; [|done].
  apply migrate_live; [by apply acl_live|]. intros w7 [E7 O7]%acl_yields H7.
  assert (B7 : is_Some (db_tables w7 (conn_path (state db)) !! "metrics_rollup")).
  { rewrite P1, O7, O6, O5, <-P1, E4 by congruence. cbn [stateSchema foldl ddl_pure create_metrics_rollup].
    rewrite !lookup_create. by eexists. }
  apply migrate_live; [by apply rollup_live|]. intros w8 [E8 O8]%rollup_yields H8; [|done].
  apply migrate_live; [by apply execute_live, exec_live|]. intros w9 [E9 O9]%execute_yields H9; [|done].
  apply migrate_live.
  { apply execute_live, index_live; [done|by right; left|].
    assert (L : db_tables w9 (conn_path (main db)) !! "audit_logs" = db_tables w mp !! "audit_logs").
    { rewrite E9, P2, O8, <-P2, E7, E6, E5, P2, O4, T by congruence.
      unfold create_configuration, create_acl_rules, create_blocklist_custom, mainSchema, create_blocklist_sources,
        create_acl_rules, create_blocklist_custom. cbn [foldl ddl_pure]. by table_lookup. }
    intros tb Htb. rewrite L in Htb. eapply (earlier_timestamp mainTables); [exact Hem| | |exact Htb]; [left|].
    - by do 4 right; left.
    - by right; left. }
  intros w10 _ H10. apply migrate_live; [by apply execute_live, exec_live|]. intros w11 _ H11. by exists w11.
Qed.

End laws.

(** A test for [earlier]. *)
Definition earlierb (l : list (ddl * list column)) (m : tables) : bool :=
  forallb (λ p, match p.1 with
    | CreateTable t cols _ =>
        match m !! t with
        | Some tb => forallb (λ c, bool_decide (c_name c ∈ column_names tb ++ map c_name p.2)) cols
        | None => true
        end
    | _ => true
    end) l.

Lemma earlier_check l m : earlierb l m = true → earlier l m.
Proof.
  intros H t cols k cs tb c Hin Ht Hc. unfold earlierb in H. rewrite forallb_forall in H.
  specialize (H _ (proj1 (list_elem_of_In _ _) Hin)). cbn in H. rewrite Ht, forallb_forall in H.
  specialize (H _ (proj1 (list_elem_of_In _ _) Hc)). by apply bool_decide_eq_true, elem_of_app in H.
Qed.

End Schema.

(** * Witnesses *)

(** Files with the databases they hold; every legal statement succeeds. *)
Record disk := MkDisk { d_files : ram; d_dbs : gmap string tables }.
Definition on_files {A} (d : disk) (r : ram * A) : disk * A := (MkDisk r.1 (d_dbs d), r.2).

#[export] Instance disk_fs : FileSys disk | 100 := {|
  fs_mkdir_all d p := on_files d (fs_mkdir_all (d_files d) p);
  fs_open_trunc d p := on_files d (fs_open_trunc (d_files d) p);
  fs_append d p s := on_files d (fs_append (d_files d) p s);
  fs_close d p := on_files d (fs_close (d_files d) p);
  fs_rename d p q := on_files d (fs_rename (d_files d) p q);
  fs_remove d p := on_files d (fs_remove (d_files d) p);
  fs_is_not_exist := fs_is_not_exist (W := ram);
  fs_read d p := fs_read (d_files d) p;
  fs_read_dir d p := fs_read_dir (d_files d) p
|}.

Definition disk_tables (d : disk) (p : string) : tables := default ∅ (d_dbs d !! p).
Definition set_tables (d : disk) (p : string) (m : tables) : disk := MkDisk (d_files d) (<[p := m]> (d_dbs d)).
Definition legalb (s : ddl) (m : tables) : bool :=
  match s with
  | CreateTable _ _ _ => true
  | CreateIndex _ t c => match m !! t with Some tb => bool_decide (c ∈ column_names tb) | None => false end
  | AddColumn t c =>
      match m !! t with Some tb => bool_decide (c_name c ∉ column_names tb) | None => false end &&
      (negb (c_notnull c) || bool_decide (c_default c ≠ None))
  end.
Definition effect (s : ddl) (m : tables) : tables :=
  match s with
  | CreateTable t cols _ => create t cols m
  | CreateIndex _ _ _ => m
  | AddColumn t c => match m !! t with Some tb => <[t := add_column c tb]> m | None => m end
  end.

#[export] Instance disk_sqlite : Sqlite disk string | 100 := {|
  sql_open d dsn := (d, Ok (trim_suffix (trim_prefix dsn "file:") "?_pragma=busy_timeout(5000)"));
  sql_exec d p s :=
    if legalb s (disk_tables d p) then (set_tables d p (effect s (disk_tables d p)), None)
    else (d, Some (errNew "SQL logic error"));
  sql_pragma d _ _ := (d, None);
  sql_table_info d p t := Ok (map Ok (default [] (column_names <$> disk_tables d p !! t)), None);
  sql_close d _ := (d, None)
|}.

Lemma set_tables_same d p m : disk_tables (set_tables d p m) p = m.
Proof. unfold disk_tables, set_tables. cbn. by rewrite lookup_insert_eq. Qed.
Lemma set_tables_other d p q m : q ≠ p → disk_tables (set_tables d p m) q = disk_tables d q.
Proof. intros H. unfold disk_tables, set_tables. cbn. by rewrite lookup_insert_ne. Qed.

#[export] Program Instance disk_laws : SqliteLaws disk string | 100 := {| db_tables := disk_tables; conn_path p := p |}.
Next Obligation. done. Qed.
Next Obligation. done. Qed.
Next Obligation. intros d p d' c [= _ <-]. unfold sqlite_dsn. by rewrite trim_prefix_app, trim_suffix_app. Qed.
Next Obligation. done. Qed.
Next Obligation. done. Qed.
Next Obligation. by intros d p t rows [= <-]. Qed.
Next Obligation. intros d p s d' e q. cbn. by destruct (legalb _ _); intros [= <- _]. Qed.
Next Obligation.
  intros d p s d'. cbn. destruct (legalb s (disk_tables d p)) eqn:El; [|done]. intros [= <-].
  split; [|intros q Hq; by apply set_tables_other]. rewrite set_tables_same.
  destruct s; cbn [ddl_effect effect legalb] in *; [done..|].
  destruct (disk_tables d p !! name) as [tb|]; [|done]. apply andb_true_iff in El as [Hn _].
  apply bool_decide_eq_true in Hn. by exists tb.
Qed.

#[export] Program Instance disk_live : SqliteLive disk string | 100 := {| healthy _ := True |}.
Next Obligation. intros d p _. by eexists. Qed.
Next Obligation. intros d p _. by eexists _, _. Qed.
Next Obligation. intros d p s _. by eexists. Qed.
Next Obligation. intros d p t _. by eexists. Qed.
Next Obligation.
  intros d p s _ Hl. cbn in *. enough (legalb s (disk_tables d p) = true) as -> by by eexists.
  destruct s; cbn [legal legalb] in *; [done|..].
  - destruct Hl as (tb & -> & Hc). by apply bool_decide_eq_true.
  - destruct Hl as [(tb & -> & Hc) Hd]. apply andb_true_iff. split; [by apply bool_decide_eq_true|].
    destruct (c_notnull c); [|done]. apply bool_decide_eq_true. by apply Hd.
Qed.

(** A main.db of before the counts and the descriptions, with one source. *)
Definition old_source : gmap string (option string) :=
  <["id" := Some "1"]> (<["url" := Some "https://lists.example/a"]> {["enabled" := Some "1"]}).
Definition old_disk : disk :=
  MkDisk ∅ {["data/main.db" := {["blocklist_sources" :=
    MkTable [Schema.id_column; Schema.unique_text "url"; Schema.int_nn "enabled"] [old_source]]}]}.
Definition old_opened : disk * res (Schema.DB string) := Schema.OpenDB "" old_disk.

Lemma old_is_earlier :
  Schema.earlier Schema.stateTables (db_tables old_disk (Schema.state_path (Schema.data_dir ""))) ∧
  Schema.earlier Schema.mainTables (db_tables old_disk (Schema.main_path (Schema.data_dir ""))).
Proof. split; apply Schema.earlier_check; by vm_compute. Qed.

Lemma open_db_upgrades_witness :
  Schema.complete Schema.mainTables (disk_tables old_opened.1 (Schema.main_path "./data")) ∧
  ∃ tb, disk_tables old_opened.1 "data/main.db" !! "blocklist_sources" = Some tb ∧ length (t_rows tb) = 1.
Proof.
  split; [|by eexists; split; vm_compute].
  destruct old_opened as [w' r] eqn:E. assert (∃ db, r = Ok db) as [db ->].
  { destruct r as [db|e]; [by exists db|]. exfalso. assert (H : is_ok old_opened.2 = true) by by vm_compute.
    by rewrite E in H. }
  destruct (Schema.open_db_upgrades "" old_disk w' _ E) as (_ & _ & H).
  destruct (H db eq_refl) as (_ & _ & _ & Hm). apply Hm, old_is_earlier.
Defined.

Lemma open_db_settles_witness :
  ∀ p, disk_tables (Schema.OpenDB (C := string) "" old_opened.1).1 p = disk_tables old_opened.1 p.
Proof.
  destruct old_opened as [w' r] eqn:E. assert (∃ db, r = Ok db) as [db ->].
  { destruct r as [db|e]; [by exists db|]. exfalso. assert (H : is_ok old_opened.2 = true) by by vm_compute.
    by rewrite E in H. }
  cbn [fst]. destruct (Schema.OpenDB "" w') as [w2 r2] eqn:E2.
  exact (Schema.open_db_settles "" old_disk w' db w' w2 r2 E (λ _, eq_refl) E2).
Defined.

Lemma open_db_succeeds_witness : ∃ w' (db : Schema.DB string), old_opened = (w', Ok db) ∧ healthy (C := string) w'.
Proof. apply (Schema.open_db_succeeds (C := string) "" old_disk); [exact I|apply old_is_earlier..]. Defined.
