(* ===== verification/Tester.v ===== *)
(** * The compliance tester: cmd/arx-tester

    A list of domains is fetched and cleaned; for each kind of query a number
    of concurrent workers take domains from a shared pool and ask the server,
    until twenty answers have been collected. The workers are a step relation:
    a step is one access to the shared state, in any interleaving. The DNS
    client, the tables of names of the DNS package, HTTP and JSON are
    parameters; the messages on standard error are left out. *)
From S2P Require Import Prelude NetAddr Encoding Dns Files Sql Upstream.
From Stdlib Require Import Lia.

(** Texts of the DNS package: the maps of names, [Msg.String], and the target
    of a record whose type is [*dns.HTTPS]. *)
Class TesterText := {
  TypeToString : N → option string;
  RcodeToString : N → option string;
  msg_string : msg → string;
  https_target : rr → option string
}.

Record trancoListMeta := MkMeta { ListID : string; Available : bool; Failed : bool; Download : string }.

(** [client.Do] of a GET (status and body, with the error that may end it) and
    [json.Unmarshal]. *)
Class TesterNet (X : Type) := {
  tester_get : string → X → res (N * (string * option error)) * X;
  decode_meta : string → res trancoListMeta
}.

Module Tester.

Definition targetSuccesses : nat := 20.
Definition ednsUDPSize : N := 1232.
Definition domainListLimit : nat := 1000.
#[global] Arguments domainListLimit : simpl never.
Definition TypeHTTPS : N := 65.

(** ** The pool of domains *)
Record DomainPool := MkPool { domains : list string; index : nat }.
Definition NewDomainPool (l : list string) : DomainPool := MkPool l 0.
Definition Pop (p : DomainPool) : option string * DomainPool :=
  match domains p !! index p with
  | None => (None, p)
  | Some d => (Some d, MkPool (domains p) (S (index p)))
  end.
Definition Remaining (p : DomainPool) : nat := length (domains p) - index p.
Definition Consumed (p : DomainPool) : nat := index p.
Definition Total (p : DomainPool) : nat := length (domains p).

(** ** The matrix of queries *)
Record TestPermutation := MkPerm { RecordType : N; Transport : string; wantDNSSEC : bool; wantEDNS : bool }.

Definition buildPermutations : list TestPermutation := [
  MkPerm TypeA "udp" false false; MkPerm TypeA "udp" false true; MkPerm TypeA "udp" true true;
  MkPerm TypeA "tcp" false false; MkPerm TypeA "tcp" false true; MkPerm TypeA "tcp" true true;
  MkPerm TypeA "tls" false true; MkPerm TypeA "tls" true true;
  MkPerm TypeAAAA "udp" false false; MkPerm TypeAAAA "udp" false true; MkPerm TypeAAAA "udp" true true;
  MkPerm TypeAAAA "tcp" false true; MkPerm TypeAAAA "tcp" true true;
  MkPerm TypeAAAA "tls" false true; MkPerm TypeAAAA "tls" true true;
  MkPerm TypeMX "udp" false false; MkPerm TypeMX "udp" false true; MkPerm TypeMX "udp" true true;
  MkPerm TypeMX "tcp" false true; MkPerm TypeMX "tcp" true true; MkPerm TypeMX "tls" false true;
  MkPerm TypeSRV "udp" false true; MkPerm TypeSRV "udp" true true;
  MkPerm TypeSRV "tcp" false true; MkPerm TypeSRV "tcp" true true; MkPerm TypeSRV "tls" true true;
  MkPerm TypeHTTPS "udp" false true; MkPerm TypeHTTPS "udp" true true;
  MkPerm TypeHTTPS "tcp" false true; MkPerm TypeHTTPS "tcp" true true;
  MkPerm TypeHTTPS "tls" false true; MkPerm TypeHTTPS "tls" true true;
  MkPerm TypeA "udp" true false; MkPerm TypeAAAA "tls" true true; MkPerm TypeMX "udp" true false].

(** ** Domains *)
Definition normalizeDomain (domain : string) : string :=
  let domain := trim_suffix (trim_space (to_lower domain)) "." in
  if bool_decide (domain = "") || negb (contains domain ".") then ""
  else if 253 <? slen domain then ""
  else match parse_ip domain with
       | Some _ => ""
       | None =>
           if existsb (λ label, bool_decide (label = "") || (63 <? slen label)) (split domain ".") then ""
           else domain
       end.

Definition extractDomain (line : string) : string :=
  let line := trim_space line in
  if bool_decide (line = "") || has_prefix line "#" then ""
  else
    let line :=
      if contains line "," then
        match split line "," with
        | _ :: f1 :: _ => trim_space f1
        | _ => line
        end
      else line in
    normalizeDomain line.

(** The loop over the lines: what is collected. *)
Fixpoint collectDomains (lines : list string) (seen : gset string) (out : list string) : list string :=
  match lines with
  | [] => out
  | line :: lines =>
      let domain := extractDomain line in
      if bool_decide (domain = "") then collectDomains lines seen out
      else if decide (domain ∈ seen) then collectDomains lines seen out
      else
        let out := out ++ [domain] in
        if domainListLimit <=? length out then out else collectDomains lines ({[domain]} ∪ seen) out
  end.
Definition parseDomainLines (body : string) : list string := collectDomains (scan_text body).1 ∅ [].

(** Whether the limit ended the loop, and the domains. *)
Fixpoint majesticLoop (lines : list string) (out : list string) : bool * list string :=
  match lines with
  | [] => (false, out)
  | line :: lines =>
      match split line "," with
      | _ :: _ :: f2 :: _ =>
          let domain := normalizeDomain f2 in
          if bool_decide (domain = "") then majesticLoop lines out
          else
            let out := out ++ [domain] in
            if domainListLimit <=? length out then (true, out) else majesticLoop lines out
      | _ => majesticLoop lines out
      end
  end.
(** The first line is the header. *)
Definition parseMajestic (body : string) : res (list string) :=
  let '(lines, scanErr) := scan_text body in
  let '(full, out) := majesticLoop (drop 1 lines) [] in
  match (if full then None else scanErr) with
  | Some e => Err (errWrap "scan majestic list: %w" e)
  | None => if bool_decide (out = []) then Err (errNew "majestic list contained no valid domains") else Ok out
  end.

Section fetch.
Context {X : Type} {TN : TesterNet X}.

Definition httpMaxBytes : N := 8388608.
Definition httpGetBody (url : string) (x : X) : res string * X :=
  let '(r, x) := tester_get url x in
  (match r with
   | Err e => Err e
   | Ok (status, body) =>
       if negb (status =? 200)%N then Err (errNew "HTTP %s returned status %d") else read_limited httpMaxBytes body
   end, x).

Definition fetchTrancoListMeta (x : X) : res trancoListMeta * X :=
  let '(r, x) := httpGetBody "https://tranco-list.eu/api/lists/date/latest" x in
  (let? body := res_wrap "query tranco metadata: %w" r in res_wrap "decode tranco metadata: %w" (decode_meta body), x).

Definition fetchTrancoDomains (x : X) : res (list string) * X :=
  match fetchTrancoListMeta x with
  | (Err e, x) => (Err e, x)
  | (Ok meta, x) =>
      if negb (Available meta) || Failed meta || bool_decide (ListID meta = "")
      then (Err (errNew "tranco latest list is not available"), x)
      else
        let url := "https://tranco-list.eu/download/" +:+ ListID meta +:+ "/" +:+
                   format_uint (N.of_nat domainListLimit) in
        let '(r, x) := httpGetBody url x in
        (let? body := res_wrap "download tranco list: %w" r in Ok (parseDomainLines body), x)
  end.

Definition fetchMajesticDomains (x : X) : res (list string) * X :=
  let '(r, x) := httpGetBody "https://downloads.majestic.com/majestic_million.csv" x in
  (let? body := res_wrap "download majestic list: %w" r in parseMajestic body, x).

Definition fetchDomains (x : X) : res (list string) * X :=
  match fetchTrancoDomains x with
  | (Ok (d :: ds), x) => (Ok (d :: ds), x)
  | (_, x) => fetchMajesticDomains x
  end.
End fetch.

(** ** Outcomes of a query *)

(** The message (or nil), the time in nanoseconds, the error. *)
Definition outcome : Type := option msg * N * option error.

Definition isQueryFailure (resp : option msg) (err : option error) : bool :=
  match err, resp with
  | Some _, _ | None, None => true
  | None, Some m => (m_rcode m =? RcodeServerFailure)%N || (m_rcode m =? RcodeRefused)%N
  end.
Definition isQuerySuccess (resp : option msg) : bool :=
  match resp with
  | None => false
  | Some m => (m_rcode m =? RcodeSuccess)%N || (m_rcode m =? RcodeNameError)%N
  end.

Section text.
Context {DT : DnsText} {TX : TesterText} {SE : ErrorText}.

Definition Label (p : TestPermutation) : string :=
  let typeName := match TypeToString (RecordType p) with
                  | None | Some "" => "TYPE" +:+ format_uint (RecordType p)
                  | Some t => t
                  end in
  let flags := (if wantDNSSEC p then ["DNSSEC"] else []) ++ (if wantEDNS p then ["EDNS"] else []) in
  if bool_decide (flags = []) then typeName +:+ "/" +:+ Transport p
  else typeName +:+ "/" +:+ Transport p +:+ "/" +:+ join flags "+".

Definition failureReason (resp : option msg) (err : option error) : string :=
  match err, resp with
  | Some e, _ => error_text e
  | None, None => "nil response"
  | None, Some m =>
      match RcodeToString (m_rcode m) with
      | Some name => name
      | None => "RCODE" +:+ format_uint (m_rcode m)
      end
  end.

Definition rcodeName (m : msg) : string := default "" (RcodeToString (m_rcode m)).

Definition formatOKLine (domain : string) (p : TestPermutation) (m : msg) : string :=
  if (m_rcode m =? RcodeSuccess)%N
  then "[OK] " +:+ domain +:+ " (" +:+ Label p +:+ ") - NOERROR (" +:+
       format_uint (N.of_nat (length (m_answer m))) +:+ " answers)"
  else "[OK] " +:+ domain +:+ " (" +:+ Label p +:+ ") - " +:+ rcodeName m.

Definition answerText (r : rr) : string :=
  match https_target r with
  | Some t => t
  | None =>
      match dat r with
      | DA ip | DAAAA ip => net_ip_string ip
      | DMX _ mx => mx
      | DSRV _ _ _ target => target
      | _ => rr_string r
      end
  end.
Definition summarizeAnswers (m : msg) : string :=
  if bool_decide (m_answer m = []) then "[]"
  else
    let parts := map answerText (take 5 (m_answer m)) in
    let parts := if 5 <=? length parts then parts ++ ["..."] else parts in
    "[" +:+ join parts ", " +:+ "]".

(** [Round] to milliseconds, halves up, for a duration that is not negative. *)
Definition formatRTT (rtt : N) : string :=
  let r := (rtt mod 1000000)%N in
  let rounded := (if r + r <? 1000000 then rtt - r else rtt + (1000000 - r))%N in
  format_uint (rounded / 1000000) +:+ "ms".

Definition formatSuccessLog (domain : string) (p : TestPermutation) (m : msg) (rtt : N) : string :=
  if (m_rcode m =? RcodeNameError)%N
  then "[OK] " +:+ domain +:+ " (" +:+ Label p +:+ ") - " +:+ rcodeName m +:+ " RTT: " +:+ formatRTT rtt
  else "[OK] " +:+ domain +:+ " (" +:+ Label p +:+ ") - " +:+ rcodeName m +:+ " - Answers: " +:+
       summarizeAnswers m +:+ " RTT: " +:+ formatRTT rtt.

Definition formatFailureLog (domain : string) (p : TestPermutation) (resp : option msg) (err : option error) : string :=
  join (("[FAIL] " +:+ domain +:+ " (" +:+ Label p +:+ ") - Reason: " +:+ failureReason resp err) ::
        match resp with Some m => [msg_string m] | None => [] end) (String (ascii_of_N 10) "").

Definition queryLog (domain : string) (p : TestPermutation) (r : outcome) : string :=
  let '(resp, rtt, err) := r in
  match resp with
  | Some m => if isQuerySuccess resp then formatSuccessLog domain p m rtt else formatFailureLog domain p resp err
  | None => formatFailureLog domain p resp err
  end.
End text.

(** The message asked, whose identifier is not modelled. *)
Definition buildQuery {DT : DnsText} {DM : DnsMsg} {DQ : DnsQuestion} (p : TestPermutation) (domain : string) : msg :=
  let m := set_rd (set_question_of new_msg (fqdn domain) (RecordType p)) true in
  if wantEDNS p || wantDNSSEC p then
    let opt := opt_set_udp_size (RR (Hdr "." TypeOPT 0 0) (DOPT [])) ednsUDPSize in
    set_extra m [if wantDNSSEC p then opt_set_do opt else opt]
  else m.
Definition netTransport (p : TestPermutation) : string :=
  if bool_decide (Transport p = "tls") then "tcp-tls" else Transport p.

(** ** The workers *)

(** What the workers of a permutation share: the pool, the counters of the
    program, the two lines of output, and the two variables of the call. *)
Record shared := MkShared {
  pool : DomainPool; attempted : nat; failovers : nat; withData : nat; empty : nat;
  buffer : list string; stdout : list string; successCount : nat; exhausted : bool
}.

(** Where a worker is, before its next access. *)
Inductive pc :=
| Looping                                     (* the condition of the outer loop *)
| Checking                                    (* exhausted.Load *)
| Popping                                     (* pool.Pop *)
| Trying (domain : string)                    (* the condition of the inner loop *)
| Asking (domain : string)                    (* exchangeQuery *)
| Asked (domain : string) (r : outcome)       (* appendQueryLog *)
| Logged (domain : string) (r : outcome)      (* totalQueriesAttempted.Add *)
| Counted (domain : string) (r : outcome)     (* the counter of the outcome *)
| Replacing (domain : string) (r : outcome)   (* pool.Pop for a replacement *)
| Replaced (domain : string) (r : outcome) (replacement : string)  (* printStdout *)
| Recording (domain : string) (m : msg)       (* LoadInt32 of tryRecordSuccess *)
| Swapping (domain : string) (m : msg) (current : nat)  (* CompareAndSwapInt32 *)
| Printing (domain : string) (m : msg)        (* printStdout *)
| Exhausting                                  (* exhausted.Store *)
| Exited.

Definition set_pool p s := MkShared p (attempted s) (failovers s) (withData s) (empty s) (buffer s) (stdout s)
  (successCount s) (exhausted s).
Definition set_counts a f d e s := MkShared (pool s) a f d e (buffer s) (stdout s) (successCount s) (exhausted s).
Definition set_buffer b s := MkShared (pool s) (attempted s) (failovers s) (withData s) (empty s) b (stdout s)
  (successCount s) (exhausted s).
Definition print line s := MkShared (pool s) (attempted s) (failovers s) (withData s) (empty s) (buffer s)
  (stdout s ++ [line]) (successCount s) (exhausted s).
Definition set_success n s := MkShared (pool s) (attempted s) (failovers s) (withData s) (empty s) (buffer s)
  (stdout s) n (exhausted s).
Definition set_exhausted b s := MkShared (pool s) (attempted s) (failovers s) (withData s) (empty s) (buffer s)
  (stdout s) (successCount s) b.

Section workers.
Context {DT : DnsText} {DM : DnsMsg} {DQ : DnsQuestion} {TX : TesterText} {SE : ErrorText}.
Variable perm : TestPermutation.

(** The second half of [recordQueryOutcome], and what [runPermutation] does next. *)
Definition recordQueryOutcome (domain : string) (r : outcome) (s : shared) : shared * pc :=
  let '(resp, _, err) := r in
  if isQueryFailure resp err
  then (set_counts (attempted s) (S (failovers s)) (withData s) (empty s) s, Replacing domain r)
  else
    match resp with
    | Some m =>
        if isQuerySuccess resp then
          (if (m_rcode m =? RcodeSuccess)%N && negb (bool_decide (m_answer m = []))
           then set_counts (attempted s) (failovers s) (S (withData s)) (empty s) s
           else set_counts (attempted s) (failovers s) (withData s) (S (empty s)) s, Recording domain m)
        else (s, Looping)
    | None => (s, Looping)
    end.

(** A step of a worker; [r] is what the client gives it. *)
Definition advance (r : outcome) (s : shared) (p : pc) : shared * pc :=
  match p with
  | Looping => (s, if successCount s <? targetSuccesses then Checking else Exited)
  | Checking => (s, if exhausted s then Exited else Popping)
  | Popping =>
      match Pop (pool s) with
      | (None, q) => (set_pool q s, Exhausting)
      | (Some d, q) => (set_pool q s, Trying d)
      end
  | Trying d => (s, if successCount s <? targetSuccesses then Asking d else Looping)
  | Asking d => (s, Asked d r)
  | Asked d r => (set_buffer (buffer s ++ [queryLog d perm r]) s, Logged d r)
  | Logged d r => (set_counts (S (attempted s)) (failovers s) (withData s) (empty s) s, Counted d r)
  | Counted d r => recordQueryOutcome d r s
  | Replacing d r =>
      match Pop (pool s) with
      | (None, q) => (set_pool q s, Exhausting)
      | (Some d', q) => (set_pool q s, Replaced d r d')
      end
  | Replaced d (resp, rtt, err) d' =>
      (print ("[FAILOVER] " +:+ d +:+ " (" +:+ Label perm +:+ ") -> Reason: " +:+ failureReason resp err) s, Trying d')
  | Recording d m =>
      (s, if targetSuccesses <=? successCount s then Exited else Swapping d m (successCount s))
  | Swapping d m current =>
      if successCount s =? current then (set_success (S current) s, Printing d m) else (s, Recording d m)
  | Printing d m => (print (formatOKLine d perm m) s, Exited)
  | Exhausting => (set_exhausted true s, Exited)
  | Exited => (s, Exited)
  end.

(** What the client may answer to a message, over a transport. *)
Variable answers : string → msg → outcome → Prop.

Definition config : Type := shared * list pc.

Inductive step : config → config → Prop :=
| step_worker i p r s ws :
    ws !! i = Some p → p ≠ Exited →
    (∀ d, p = Asking d → answers (netTransport perm) (buildQuery perm d) r) →
    step (s, ws) ((advance r s p).1, <[i := (advance r s p).2]> ws).

Definition workerCount (numCPU : nat) : nat := Nat.min targetSuccesses (Nat.max 4 (numCPU * 2)).

Definition start (numCPU : nat) (s : shared) : config :=
  (set_success 0 (set_exhausted false s), replicate (workerCount numCPU) Looping).

(** [wg.Wait()]. *)
Definition finished (c : config) : Prop := Forall (λ p, p = Exited) c.2.

Definition verdict (s : shared) : option error :=
  if successCount s <? targetSuccesses
  then Some (errNew "permutation %s collected %d/%d successes (pool remaining: %d)") else None.

Definition runPermutation (numCPU : nat) (s s' : shared) (e : option error) : Prop :=
  ∃ ws, rtc step (start numCPU s) (s', ws) ∧ finished (s', ws) ∧ e = verdict s'.
End workers.

(** ** The program *)
Section program.
Context {DT : DnsText} {DM : DnsMsg} {DQ : DnsQuestion} {TX : TesterText} {SE : ErrorText}.
Context {X W : Type} {TN : TesterNet X} {FS : FileSys W}.

Definition nat_text (n : nat) : string := format_uint (N.of_nat n).

Definition buildExecutionSummaryLines (permutationsRun : nat) (s : shared) : list string := [
  "========================================="; "ARX-TESTER: EXECUTION SUMMARY";
  "=========================================";
  "Total Permutations:      " +:+ nat_text permutationsRun;
  "Total Domains Consumed:  " +:+ nat_text (Consumed (pool s)) +:+ " (out of " +:+ nat_text (Total (pool s)) +:+ ")";
  "Total Queries Fired:     " +:+ nat_text (attempted s);
  "-----------------------------------------";
  "[+] Success (With Data): " +:+ nat_text (withData s);
  "[+] Success (Empty/NX):  " +:+ nat_text (empty s);
  "[X] Failovers Triggered: " +:+ nat_text (failovers s);
  "========================================="].

Definition printExecutionSummary (permutationsRun : nat) (s : shared) : shared :=
  foldl (λ s l, print l s) s (buildExecutionSummaryLines permutationsRun s).

(** [WriteString] of each line. *)
Fixpoint writeLines (label : string) (path : string) (l : list string) (w : W) : W * option error :=
  match l with
  | [] => (w, None)
  | line :: l =>
      match fs_append w path (line +:+ String (ascii_of_N 10) "") with
      | (w, Some e) => (w, Some (errWrap label e))
      | (w, None) => writeLines label path l w
      end
  end.

Definition writeLogBody (path : string) (permutationsRun : nat) (s : shared) (w : W) : W * option error :=
  match writeLines "write summary to trace log: %w" path (buildExecutionSummaryLines permutationsRun s) w with
  | (w, Some e) => (w, Some e)
  | (w, None) =>
      match writeLines "write trace log separator: %w" path [""] w with
      | (w, Some e) => (w, Some e)
      | (w, None) => writeLines "write trace log entry: %w" path (buffer s) w
      end
  end.

Definition writeLogFile (path : string) (permutationsRun : nat) (s : shared) (w : W) : W * option error :=
  match fs_open_trunc w path with
  | (w, Some e) => (w, Some (errWrap "create trace log %q: %w" e))
  | (w, None) => let '(w, e) := writeLogBody path permutationsRun s w in ((fs_close w path).1, e)
  end.

Variable answers : string → msg → outcome → Prop.
Variables (numCPU : nat) (skipTLS : bool).

(** The loop over the permutations: how many were run, and whether all succeeded. *)
Inductive runAll : list TestPermutation → nat → shared → nat → shared → bool → Prop :=
| run_none n s : runAll [] n s n s true
| run_skip p ps n s n' s' ok :
    skipTLS = true → Transport p = "tls" →
    runAll ps n (print ("[SKIP] Permutation " +:+ Label p +:+ " ignored via -skip-tls flag") s) n' s' ok →
    runAll (p :: ps) n s n' s' ok
| run_next p ps n s s1 n' s' ok :
    ¬ (skipTLS = true ∧ Transport p = "tls") → runPermutation p answers numCPU s s1 None →
    runAll ps (S n) s1 n' s' ok → runAll (p :: ps) n s n' s' ok
| run_failed p ps n s s1 e :
    ¬ (skipTLS = true ∧ Transport p = "tls") → runPermutation p answers numCPU s s1 (Some e) →
    runAll (p :: ps) n s (S n) s1 false.

Definition fresh_shared (l : list string) : shared := MkShared (NewDomainPool l) 0 0 0 0 [] [] 0 false.

(** [main]: the exit status, what was printed, and the files. *)
Inductive main (logPath : string) (x : X) (w : W) : N → list string → W → Prop :=
| main_no_domains e : (fetchDomains x).1 = Err e → main logPath x w 1 [] w
| main_failed l n s : (fetchDomains x).1 = Ok l → runAll buildPermutations 0 (fresh_shared l) n s false →
    let s' := printExecutionSummary n s in
    main logPath x w 1 (stdout s') (writeLogFile logPath n s' w).1
| main_done l n s : (fetchDomains x).1 = Ok l → runAll buildPermutations 0 (fresh_shared l) n s true →
    let s' := printExecutionSummary n (print ("[DONE] completed " +:+ nat_text n +:+ " permutations with " +:+
      nat_text targetSuccesses +:+ " successes each; trace log: " +:+ logPath) s) in
    ∀ w' e, writeLogFile logPath n s' w = (w', e) →
    main logPath x w (match e with Some _ => 1%N | None => 0%N end) (stdout s') w'.
End program.

#[global] Arguments targetSuccesses : simpl never.
#[global] Arguments workerCount : simpl never.

(** * Lemmas *)

(** ** Sums over the workers *)
Lemma sum_exited (f : pc → nat) ws : Forall (λ p, p = Exited) ws → sum_list_with f ws = length ws * f Exited.
Proof. induction 1 as [|p ws -> _ IH]; cbn; [done|]. rewrite IH. lia. Qed.

(** A worker that has a domain it has not counted a query for; an answer whose
    outcome is not counted; a success that is not recorded; a worker that can
    still record one; one that has left. *)
Definition holding (p : pc) : nat :=
  match p with Trying _ | Asking _ | Asked _ _ | Logged _ _ | Replaced _ _ _ => 1 | _ => 0 end.
Definition pending (p : pc) : nat := match p with Counted _ _ => 1 | _ => 0 end.
Definition recording (p : pc) : nat := match p with Recording _ _ | Swapping _ _ _ => 1 | _ => 0 end.
Definition active (p : pc) : nat := match p with Printing _ _ | Exited => 0 | _ => 1 end.
Definition gone (p : pc) : nat := match p with Printing _ _ | Exited => 1 | _ => 0 end.

Record inv (s0 : shared) (n : nat) (c : config) : Prop := MkInv {
  inv_length : length c.2 = n;
  inv_pool : domains (pool c.1) = domains (pool s0);
  inv_index : index (pool s0) ≤ index (pool c.1);
  inv_bound : index (pool s0) ≤ Total (pool s0) → index (pool c.1) ≤ Total (pool s0);
  inv_queries : attempted c.1 + sum_list_with holding c.2 + index (pool s0) ≤ attempted s0 + index (pool c.1);
  inv_outcomes : failovers c.1 + withData c.1 + empty c.1 + sum_list_with pending c.2 + attempted s0 ≤
    attempted c.1 + failovers s0 + withData s0 + empty s0;
  inv_success : successCount c.1 + sum_list_with recording c.2 + withData s0 + empty s0 ≤ withData c.1 + empty c.1;
  inv_active : successCount c.1 + sum_list_with active c.2 ≤ n;
  inv_target : successCount c.1 ≤ targetSuccesses;
  inv_swapping d m k : Swapping d m k ∈ c.2 → k < targetSuccesses ∧ k ≤ successCount c.1;
  inv_exhausted : exhausted c.1 = true ∨ Exhausting ∈ c.2 → Total (pool s0) ≤ index (pool c.1);
  inv_gone : successCount c.1 < targetSuccesses → exhausted c.1 = false → sum_list_with gone c.2 ≤ successCount c.1
}.

Lemma pop_some p d q : Pop p = (Some d, q) →
  domains p !! index p = Some d ∧ q = MkPool (domains p) (S (index p)) ∧ index p < Total p.
Proof.
  unfold Pop. destruct (domains p !! index p) as [d'|] eqn:E; [|done]. intros [= <- <-].
  split_and!; [done..|]. by apply lookup_lt_Some in E.
Qed.
Lemma pop_none p q : Pop p = (None, q) → q = p ∧ Total p ≤ index p.
Proof.
  unfold Pop. destruct (domains p !! index p) as [d'|] eqn:E; [done|]. intros [= <-]. split; [done|]. by apply lookup_ge_None in E.
Qed.

Lemma elem_insert (ws : list pc) i p q : q ∈ <[i := p]> ws → q = p ∨ q ∈ ws.
Proof.
  intros (j & H)%list_elem_of_lookup. destruct (decide (i = j)) as [->|Hne].
  - left. assert (j < length ws) by (apply lookup_lt_Some in H; by rewrite length_insert in H).
    rewrite list_lookup_insert_eq in H by done. congruence.
  - right. rewrite list_lookup_insert_ne in H by done. by eapply list_elem_of_lookup_2.
Qed.

Section lemmas.
Context {DT : DnsText} {DM : DnsMsg} {DQ : DnsQuestion} {TX : TesterText} {SE : ErrorText}.
Variables (perm : TestPermutation) (answers : string → msg → outcome → Prop).

Abbreviation step := (step perm answers).

(** The parts of the invariant that no sum tells. *)
Lemma swapping_kept (ws : list pc) i p' n n' : n ≤ n' →
  (∀ d m k, Swapping d m k ∈ ws → k < targetSuccesses ∧ k ≤ n) →
  (∀ d m k, p' = Swapping d m k → k < targetSuccesses ∧ k ≤ n') →
  ∀ d m k, Swapping d m k ∈ <[i := p']> ws → k < targetSuccesses ∧ k ≤ n'.
Proof. intros Hn H1 H2 d m k [E|Hin]%elem_insert; [by eapply H2|]. apply H1 in Hin. lia. Qed.

Lemma exhausting_kept (ws : list pc) i p' (b b' : bool) (P P' : Prop) :
  (b = true ∨ Exhausting ∈ ws → P) → (P → P') → (b' = true → P' ∨ b = true) → (p' = Exhausting → P') →
  b' = true ∨ Exhausting ∈ <[i := p']> ws → P'.
Proof. intros H1 H2 H3 H4 [Hb|[E|Hin]%elem_insert]; [apply H3 in Hb as [?|?]; auto|by apply H4|auto]. Qed.

(** A step of one worker keeps the invariant when the changes it makes balance. *)
Lemma inv_update s0 n s ws i p s' p' : inv s0 n (s, ws) → ws !! i = Some p →
  domains (pool s') = domains (pool s) → index (pool s) ≤ index (pool s') →
  (index (pool s') ≤ index (pool s) ∨ index (pool s') ≤ Total (pool s)) →
  attempted s' + holding p' + index (pool s) ≤ attempted s + index (pool s') + holding p →
  failovers s' + withData s' + empty s' + pending p' + attempted s ≤
    attempted s' + failovers s + withData s + empty s + pending p →
  successCount s' + recording p' + withData s + empty s ≤
    withData s' + empty s' + successCount s + recording p →
  successCount s' + active p' ≤ successCount s + active p →
  successCount s ≤ successCount s' → successCount s' ≤ targetSuccesses →
  (∀ d m k, p' = Swapping d m k → k < targetSuccesses ∧ k ≤ successCount s') →
  (p' = Exhausting → Total (pool s) ≤ index (pool s)) →
  (exhausted s' = exhausted s ∨ p = Exhausting ∧ exhausted s' = true) →
  (successCount s' < targetSuccesses → exhausted s' = false → gone p' + successCount s ≤ gone p + successCount s') →
  inv s0 n (s', <[i := p']> ws).
Proof.
  intros [] H Hd Hi Hb Hq Ho Hs Ha Hc Ht Hsw Hex Hx Hg. cbn [fst snd] in *.
  pose proof (sum_insert holding ws i p p' H). pose proof (sum_insert pending ws i p p' H).
  pose proof (sum_insert recording ws i p p' H). pose proof (sum_insert active ws i p p' H).
  pose proof (sum_insert gone ws i p p' H).
  assert (Htot : Total (pool s) = Total (pool s0)) by (unfold Total; by rewrite inv_pool0).
  constructor; cbn [fst snd]; try lia.
  - by rewrite length_insert.
  - congruence.
  - eapply swapping_kept; [exact Hc|done|done].
  - assert (Hold : exhausted s = true ∨ Exhausting ∈ ws → Total (pool s0) ≤ index (pool s'))
      by (intros Hold; apply inv_exhausted0 in Hold; lia).
    intros [Hb'|[E|Hin]%elem_insert]; [|by specialize (Hex (eq_sym E)); lia|by apply Hold; right].
    apply Hold. destruct Hx as [E|[-> _]]; [left; congruence|right]. by eapply list_elem_of_lookup_2.
  - intros Hlt Hfalse. assert (exhausted s = false) by (destruct Hx as [<-|[_ E]]; [done|congruence]).
    specialize (Hg Hlt Hfalse). opose proof (inv_gone0 _ _); [lia|done|lia].
Qed.

Ltac advance_cases :=
  cbn [advance fst snd] in *;
  repeat first
    [ match goal with
      | |- context [Pop ?q] => let E := fresh "E" in destruct (Pop q) as [[?|] ?] eqn:E;
          [apply pop_some in E as (? & -> & ?)|apply pop_none in E as [-> ?]]
      | |- context [if ?b then _ else _] => let E := fresh "E" in destruct b eqn:E
      end ];
  cbn [fst snd] in *;
  repeat match goal with
    | H : (_ <? _) = true |- _ => apply Nat.ltb_lt in H
    | H : (_ <? _) = false |- _ => apply Nat.ltb_ge in H
    | H : (_ <=? _) = true |- _ => apply Nat.leb_le in H
    | H : (_ <=? _) = false |- _ => apply Nat.leb_gt in H
    | H : (_ =? _) = true |- _ => apply Nat.eqb_eq in H
    | H : (_ =? _) = false |- _ => apply Nat.eqb_neq in H
    end.

Lemma inv_step s0 n c c' : inv s0 n c → step c c' → inv s0 n c'.
Proof.
  intros Hinv Hstep. destruct Hstep as [i p r s ws Hp Hne _].
  pose proof Hinv as [_ _ _ _ _ _ _ _ Htarget Hswap Hexh _]. cbn [fst snd] in *.
  pose proof (list_elem_of_lookup_2 _ _ _ Hp) as Hin.
  destruct p as [| | |d|d|d [[resp rtt] err]|d r'|d [[resp rtt] err]|d r'|d [[resp rtt] err] d'|d m|d m k|d m| |];
    try (destruct resp as [m|]); try (pose proof (Hswap _ _ _ Hin) as [??]); cbn [advance]; unfold recordQueryOutcome; advance_cases;
    (eapply inv_update; [exact Hinv|exact Hp|..]; cbn; try done; try lia; try tauto; try congruence;
       try (intros ? ? ? [= <- <- <-]; lia)).
Qed.

Lemma inv_start s numCPU : inv s (workerCount numCPU) (start numCPU s).
Proof.
  unfold start. generalize (workerCount numCPU). intros n. constructor; cbn [fst snd]; rewrite ?sum_replicate; cbn; try lia.
  - apply length_replicate.
  - done.
  - intros d m k [? _]%elem_of_replicate. done.
  - intros [?|[? _]%elem_of_replicate]; done.
Qed.

Lemma inv_steps s0 n c c' : rtc step c c' → inv s0 n c → inv s0 n c'.
Proof. induction 1 as [|c c1 c2 H _ IH]; [done|]. intros Hi. eapply IH, inv_step; done. Qed.

Lemma inv_run s numCPU c : rtc step (start numCPU s) c → inv s (workerCount numCPU) c.
Proof. intros H. eapply inv_steps; [exact H|apply inv_start]. Qed.

(** ** Each step brings the end nearer *)
Definition rank (count : nat) (p : pc) : nat :=
  match p with
  | Exited => 0 | Printing _ _ | Exhausting => 1 | Popping => 2 | Checking => 3 | Looping => 4
  | Swapping _ _ k => if k =? count then 5 else 7
  | Recording _ _ => 6 | Replacing _ _ => 5 | Counted _ _ => 8 | Logged _ _ => 9 | Asked _ _ => 10
  | Asking _ => 11 | Trying _ => 12 | Replaced _ _ _ => 13
  end.

Definition measure (n : nat) (c : config) : nat :=
  11 * Remaining (pool c.1) + sum_list_with (rank (successCount c.1)) c.2 + 2 * n * (targetSuccesses - successCount c.1).

(** Recording a success makes the observations of the others stale. *)
Lemma rank_stale ws count : sum_list_with (rank (S count)) ws ≤ sum_list_with (rank count) ws + 2 * length ws.
Proof.
  induction ws as [|p ws IH]; cbn; [done|]. enough (rank (S count) p ≤ rank count p + 2) by lia.
  destruct p; cbn; try lia. destruct (_ =? S count), (_ =? count); lia.
Qed.

Lemma step_measure s0 n c c' : inv s0 n c → step c c' → measure n c' < measure n c.
Proof.
  intros Hinv Hstep. destruct Hstep as [i p r s ws Hp Hne _].
  pose proof Hinv as [Hlen _ _ _ _ _ _ _ Htarget Hswap _ _]. cbn [fst snd] in *.
  pose proof (list_elem_of_lookup_2 _ _ _ Hp) as Hin. unfold measure, Remaining. cbn [fst snd].
  pose proof (λ count p', sum_insert (rank count) ws i p p' Hp) as Hsum.
  pose proof (λ count, sum_lookup (rank count) ws i p Hp) as Hle.
  destruct p as [| | |d|d|d [[resp rtt] err]|d r'|d [[resp rtt] err]|d r'|d [[resp rtt] err] d'|d m|d m k|d m| |];
    try done; try (destruct resp as [m|]); try (pose proof (Hswap _ _ _ Hin) as [??]);
    cbn [advance]; unfold recordQueryOutcome; advance_cases; cbn;
    try match goal with |- context [sum_list_with (rank ?count) (<[i := ?p']> ws)] =>
      specialize (Hsum count p'); specialize (Hle (successCount s)); cbn in Hsum, Hle;
      try (rewrite Nat.eqb_refl in Hsum);
      try (rewrite (proj2 (Nat.eqb_neq _ _) (not_eq_sym E)) in Hsum) end;
    unfold Total in *; try lia.
  subst k. pose proof (sum_insert (rank (successCount s)) ws i _ (Printing d m) Hp) as Hk. cbn in Hk. rewrite Nat.eqb_refl in Hk.
  pose proof (rank_stale (<[i := Printing d m]> ws) (successCount s)) as Hst. rewrite length_insert, Hlen in Hst.
  replace (targetSuccesses - successCount s) with (S (targetSuccesses - S (successCount s))) by lia. lia.
Qed.

(** ** No domain is given to two workers *)
Definition held (p : pc) : list string :=
  match p with Trying d | Asking d | Asked d _ | Logged d _ | Replaced _ _ d => [d] | _ => [] end.

Record exclusive (c : config) : Prop := MkExclusive {
  ex_taken p d : p ∈ c.2 → d ∈ held p → d ∈ take (index (pool c.1)) (domains (pool c.1));
  ex_distinct i j p q d : c.2 !! i = Some p → c.2 !! j = Some q → d ∈ held p → d ∈ held q → i = j
}.

(** A step takes at most one domain, which no worker had. *)
Lemma advance_held r s p : p ≠ Exited →
  domains (pool (advance perm r s p).1) = domains (pool s) ∧
  ((held (advance perm r s p).2 ⊆ held p ∧ index (pool (advance perm r s p).1) = index (pool s)) ∨
   ∃ d, held (advance perm r s p).2 = [d] ∧ domains (pool s) !! index (pool s) = Some d ∧
     index (pool (advance perm r s p).1) = S (index (pool s))).
Proof.
  intros Hne.
  destruct p as [| | |d|d|d [[resp rtt] err]|d r'|d [[resp rtt] err]|d r'|d [[resp rtt] err] d'|d m|d m k|d m| |];
    try done; try (destruct resp as [m|]); cbn [advance]; unfold recordQueryOutcome; advance_cases; cbn;
    (split; [done|]); first [left; split; [set_solver|done]|right; by eexists].
Qed.

Lemma exclusive_step c c' : NoDup (domains (pool c.1)) → exclusive c → step c c' → exclusive c'.
Proof.
  intros Hnd [Ht Hd] Hstep. destruct Hstep as [i p r s ws Hp Hne _]. cbn [fst snd] in *.
  destruct (advance_held r s p Hne) as [Hdom Hheld]. set (s' := (advance perm r s p).1) in *.
  set (p' := (advance perm r s p).2) in *. pose proof (list_elem_of_lookup_2 _ _ _ Hp) as Hin.
  assert (Hnew : ∀ d, d ∈ held p' → d ∈ held p ∨ domains (pool s) !! index (pool s) = Some d).
  { intros d Hdp. destruct Hheld as [[Hs _]|(d' & E & Hl & _)]; [left; by apply Hs|].
    rewrite E in Hdp. apply list_elem_of_singleton in Hdp as ->. by right. }
  assert (Hfresh : ∀ d q, q ∈ ws → d ∈ held q → domains (pool s) !! index (pool s) ≠ Some d).
  { intros d q Hq Hdq Hl. apply (Ht _ _ Hq) in Hdq. apply list_elem_of_lookup in Hdq as (j & Hj).
    apply lookup_take_Some in Hj as [Hj Hlt]. eapply NoDup_lookup in Hj; [|done|exact Hl]. lia. }
  assert (Hmore : ∀ d, d ∈ take (index (pool s)) (domains (pool s)) →
    d ∈ take (index (pool s')) (domains (pool s))).
  { intros d (j & Hj)%list_elem_of_lookup. apply lookup_take_Some in Hj as [Hj Hlt].
    apply list_elem_of_lookup. exists j. apply lookup_take_Some. split; [done|].
    destruct Hheld as [[_ ->]|(_ & _ & _ & ->)]; lia. }
  constructor; cbn [fst snd]; rewrite ?Hdom.
  - intros q d [->|Hq]%elem_insert Hdq; [|by eapply Hmore, Ht].
    destruct (Hnew d Hdq) as [Hold|Hl]; [by eapply Hmore, Ht|]. destruct Hheld as [[Hs _]|(_ & _ & _ & E)].
    + exfalso. by eapply (Hfresh d p); [|apply Hs|].
    + apply list_elem_of_lookup. exists (index (pool s)). apply lookup_take_Some. split; [done|lia].
  - assert (Hone : ∀ j q d, ws !! j = Some q → d ∈ held p' → d ∈ held q → i = j).
    { intros j q d Hj Hdp Hdq. destruct (Hnew d Hdp) as [Hold|Hl]; [by eapply Hd|].
      exfalso. eapply Hfresh; [by eapply list_elem_of_lookup_2|exact Hdq|done]. }
    intros j k q q' d Hj Hk Hdq Hdq'. destruct (decide (i = j)) as [<-|Hij], (decide (i = k)) as [<-|Hik]; [done|..].
    + rewrite list_lookup_insert_eq in Hj by (by eapply lookup_lt_Some). injection Hj as <-.
      rewrite list_lookup_insert_ne in Hk by done. by eapply Hone.
    + rewrite list_lookup_insert_eq in Hk by (by eapply lookup_lt_Some). injection Hk as <-.
      rewrite list_lookup_insert_ne in Hj by done. symmetry. by eapply Hone.
    + rewrite list_lookup_insert_ne in Hj, Hk by done. by eapply Hd.
Qed.


Lemma exclusive_start s numCPU : exclusive (start numCPU s).
Proof.
  unfold start. constructor; cbn [fst snd].
  - intros p d [-> _]%elem_of_replicate Hd. by apply elem_of_nil in Hd.
  - intros i j p q d [-> _]%lookup_replicate _ Hd. by apply elem_of_nil in Hd.
Qed.

Lemma exclusive_steps s0 n c c' : NoDup (domains (pool s0)) → rtc step c c' → inv s0 n c → exclusive c → exclusive c'.
Proof.
  intros Hnd. induction 1 as [|c c1 c2 H _ IH]; [done|]. intros Hi He. apply IH; [by eapply inv_step|].
  eapply exclusive_step; [|done|done]. by rewrite (inv_pool _ _ _ Hi).
Qed.

(** no two workers ever work on the same domain, in any interleaving, when
    the list holds none twice; every query has used up a domain of its own, so
    there are at most as many queries as domains taken from the pool, whose end
    is never passed; failovers and answers are counted at most once each. *)
Theorem workers_exclusive numCPU s c :
  NoDup (domains (pool s)) → index (pool s) ≤ Total (pool s) → rtc step (start numCPU s) c →
  (∀ i j p q d, c.2 !! i = Some p → c.2 !! j = Some q → d ∈ held p → d ∈ held q → i = j) ∧
  domains (pool c.1) = domains (pool s) ∧ index (pool c.1) ≤ Total (pool s) ∧
  attempted c.1 + index (pool s) ≤ attempted s + index (pool c.1) ∧
  failovers c.1 + withData c.1 + empty c.1 + attempted s ≤ attempted c.1 + failovers s + withData s + empty s.
Proof.
  intros Hnd Hix Hrun. pose proof (inv_run _ _ _ Hrun) as Hi.
  pose proof (exclusive_steps _ _ _ _ Hnd Hrun (inv_start _ _) (exclusive_start _ _)) as He.
  destruct Hi as []. split_and!; [apply He|done|auto|lia|lia].
Qed.

Lemma worker_count_target numCPU : targetSuccesses ≤ workerCount numCPU ↔ 10 ≤ numCPU.
Proof. unfold workerCount, targetSuccesses. lia. Qed.

Lemma verdict_none s : verdict s = None ↔ targetSuccesses ≤ successCount s.
Proof. unfold verdict. destruct (Nat.ltb_spec (successCount s) targetSuccesses); split; (done || lia). Qed.

Lemma success_counts numCPU s s' : runPermutation perm answers numCPU s s' None →
  10 ≤ numCPU ∧ 20 + withData s + empty s ≤ withData s' + empty s'.
Proof.
  intros (ws & Hrun & Hfin & Hv). unfold finished in Hfin. cbn [snd] in Hfin.
  pose proof (inv_run _ _ _ Hrun) as []. cbn [fst snd] in *. symmetry in Hv. apply verdict_none in Hv.
  rewrite <-worker_count_target. pose proof (sum_exited recording ws Hfin) as Hr. cbn [recording] in Hr.
  pose proof (sum_exited active ws Hfin) as Ha. cbn [active] in Ha.
  pose proof (sum_exited gone ws Hfin) as Hg. cbn [gone] in Hg. unfold targetSuccesses in *. lia.
Qed.

(** what a permutation ends with: it never succeeds on fewer than ten
    processors, since a worker leaves with its first success; on ten or more it
    succeeds unless the pool runs out of domains; a success stands for twenty
    answers that were counted as such. *)
Theorem permutation_verdict numCPU s s' e : runPermutation perm answers numCPU s s' e →
  (e = None → 10 ≤ numCPU ∧ 20 + withData s + empty s ≤ withData s' + empty s') ∧
  (exhausted s' = false → (e = None ↔ 10 ≤ numCPU)) ∧
  (exhausted s' = true → Total (pool s) ≤ index (pool s')).
Proof.
  intros H. split; [intros ->; by apply success_counts|].
  destruct H as (ws & Hrun & Hfin & ->). unfold finished in Hfin. cbn [snd] in Hfin.
  pose proof (inv_run _ _ _ Hrun) as []. cbn [fst snd] in *. rewrite verdict_none, <-worker_count_target.
  pose proof (sum_exited active ws Hfin) as Ha. pose proof (sum_exited gone ws Hfin) as Hg.
  cbn [active gone] in Ha, Hg. split.
  - intros Hx. split; [lia|]. intros Hn. destruct (Nat.le_gt_cases targetSuccesses (successCount s')) as [|Hlt]; [done|].
    specialize (inv_gone0 Hlt Hx). lia.
  - intros Hx. apply inv_exhausted0. by left.
Qed.

(** ** Termination *)
Lemma steps_bounded s0 n k c c' : inv s0 n c → nsteps step k c c' → k + measure n c' ≤ measure n c.
Proof.
  intros Hi H. revert Hi. induction H as [|k c c1 c2 H _ IH]; [done|]. intros Hi.
  specialize (IH (inv_step _ _ _ _ Hi H)). pose proof (step_measure _ _ _ _ Hi H). lia.
Qed.

Lemma worker_moves s ws i p : (∀ t q, ∃ r, answers t q r) → ws !! i = Some p → p ≠ Exited → ∃ c, step (s, ws) c.
Proof.
  intros Ha Hp Hne. destruct (Ha (netTransport perm) (buildQuery perm (match p with Asking d => d | _ => "" end))) as [r Hr].
  eexists. apply (step_worker _ _ i p r); [done|done|]. by intros d ->.
Qed.

Lemma all_exited (ws : list pc) : Forall (λ p, p = Exited) ws ∨ ∃ i p, ws !! i = Some p ∧ p ≠ Exited.
Proof.
  induction ws as [|p ws [IH|(i & q & Hi & Hq)]]; [by left| |right; by exists (S i), q].
  assert (p = Exited ∨ p ≠ Exited) as [->|Hp] by (destruct p; auto); [left; by constructor|right; by exists 0, p].
Qed.

Lemma finishes s0 n c : (∀ t q, ∃ r, answers t q r) → inv s0 n c → ∃ c', rtc step c c' ∧ finished c'.
Proof.
  intros Ha. remember (measure n c) as k eqn:Ek. revert c Ek. induction (lt_wf k) as [k _ IH]. intros c -> Hi.
  destruct (all_exited c.2) as [Hf|(i & p & Hp & Hne)]; [by exists c|]. destruct c as [s ws].
  destruct (worker_moves s ws i p Ha Hp Hne) as [c1 H1].
  destruct (IH (measure n c1)) with c1 as (c' & Hr & Hf'); [by eapply step_measure|done|by eapply inv_step|].
  exists c'. split; [by econstructor|done].
Qed.

(** the workers of a permutation come to an end: the number of steps of any
    interleaving is bounded by the domains left and the number of workers, and
    when the client answers every query, by a message or an error, a run ends
    with a verdict. *)
Theorem permutation_terminates numCPU s :
  (∀ k c, nsteps step k (start numCPU s) c → k ≤ 11 * Remaining (pool s) + 44 * workerCount numCPU) ∧
  ((∀ t q, ∃ r, answers t q r) → ∃ s' e, runPermutation perm answers numCPU s s' e).
Proof.
  split.
  - intros k c H. apply (steps_bounded _ _ _ _ _ (inv_start _ _)) in H.
    assert (Hk : k ≤ measure (workerCount numCPU) (start numCPU s)) by lia. revert Hk. unfold measure, start. cbn [fst snd].
    rewrite sum_replicate. cbn [rank set_success set_exhausted successCount pool]. unfold targetSuccesses. lia.
  - intros Ha. destruct (finishes _ _ _ Ha (inv_start s numCPU)) as ([s' ws] & Hr & Hf).
    exists s', (verdict s'), ws. done.
Qed.
End lemmas.

(** ** The program on few processors *)
Section few.
Context {DT : DnsText} {DM : DnsMsg} {DQ : DnsQuestion} {TX : TesterText} {SE : ErrorText}.
Context {X W : Type} {TN : TesterNet X} {FS : FileSys W}.
Variable answers : string → msg → outcome → Prop.

Lemma run_all_processors numCPU skip ps n s n' s' ok : runAll answers numCPU skip ps n s n' s' ok → ok = true →
  Exists (λ p, ¬ (skip = true ∧ Transport p = "tls")) ps → 10 ≤ numCPU.
Proof.
  induction 1 as [|p ps n s n' s' ok Hs Ht _ IH|p ps n s s1 n' s' ok Hn Hr _ IH|]; intros Hok Hex; [by inversion Hex| |
    |done].
  - apply Exists_cons in Hex as [Hp|Hex]; [by destruct Hp|by apply IH].
  - by destruct (success_counts _ _ _ _ _ Hr).
Qed.

(** on fewer than ten processors the tester reports failure whatever the
    server answers: its exit status is 1 in every run. *)
Theorem few_processors_fail numCPU skip logPath x (w : W) code out (w' : W) : numCPU < 10 →
  main (X := X) answers numCPU skip logPath x w code out w' → code = 1%N.
Proof.
  intros Hn. destruct 1 as [e He|l n s Hl Hr|l n s Hl Hr s' w' e Hw]; [done|done|].
  apply run_all_processors in Hr; [lia|done|]. apply Exists_cons_hd. by intros [_ ?].
Qed.
End few.

(** ** Domains *)
Definition plausible (d : string) : Prop :=
  d ≠ "" ∧ slen d ≤ 253 ∧ contains d "." = true ∧ parse_ip d = None ∧
  Forall (λ l, l ≠ "" ∧ slen l ≤ 63) (split d ".").

Lemma normalize_plausible s : normalizeDomain s ≠ "" → plausible (normalizeDomain s).
Proof.
  unfold normalizeDomain. set (d := trim_suffix _ _). clearbody d. case_bool_decide as Hd; [done|]. cbn [orb].
  destruct (contains d ".") eqn:Ec; [|done]. cbn [negb]. destruct (Nat.ltb_spec 253 (slen d)); [done|].
  destruct (parse_ip d) eqn:Ep; [done|]. destruct (existsb _ _) eqn:Ee; [done|]. intros _.
  split; [done|]. split; [lia|]. split; [done|]. split; [done|].
  apply Forall_forall. intros l Hl. rewrite <-not_true_iff_false, existsb_exists in Ee.
  destruct (bool_decide (l = "") || (63 <? slen l)) eqn:E.
  - destruct Ee. exists l. split; [by apply list_elem_of_In|done].
  - apply orb_false_iff in E as [E1 E2]. apply bool_decide_eq_false in E1. apply Nat.ltb_ge in E2. done.
Qed.

Lemma extract_plausible line : extractDomain line ≠ "" → plausible (extractDomain line).
Proof. unfold extractDomain. destruct (_ || _); [done|]. apply normalize_plausible. Qed.

Lemma collect_spec lines seen out : NoDup out → Forall plausible out → length out < domainListLimit →
  (∀ d, d ∈ out ↔ d ∈ seen) →
  let l := collectDomains lines seen out in NoDup l ∧ Forall plausible l ∧ length l ≤ domainListLimit.
Proof.
  revert seen out. induction lines as [|line lines IH]; intros seen out Hn Hp Hl Hs; cbn; [split_and!; [done..|lia]|].
  case_bool_decide as Hd; [by apply IH|]. destruct (decide _) as [Hin|Hin]; [by apply IH|].
  assert (Hn' : NoDup (out ++ [extractDomain line])).
  { apply NoDup_app. split_and!; [done| |apply NoDup_singleton].
    intros x Hx ->%list_elem_of_singleton. by apply Hin, Hs. }
  assert (Hp' : Forall plausible (out ++ [extractDomain line])).
  { apply Forall_app. split; [done|]. constructor; [by apply extract_plausible|constructor]. }
  destruct (Nat.leb_spec domainListLimit (length (out ++ [extractDomain line]))) as [Hm|Hm].
  - rewrite length_app in Hm |- *. cbn [length] in *. split; [done|split; [done|lia]].
  - apply IH; [done..|]. intros d. rewrite elem_of_app, list_elem_of_singleton, elem_of_union, elem_of_singleton, Hs. tauto.
Qed.

(** the Tranco list gives at most a thousand domains, none of them twice,
    each a name of at least two labels of 1 to 63 bytes, of at most 253 bytes,
    and no address: so the workers have a domain each. *)
Theorem fetched_domains body :
  NoDup (parseDomainLines body) ∧ Forall plausible (parseDomainLines body) ∧
  length (parseDomainLines body) ≤ domainListLimit.
Proof.
  apply collect_spec; [constructor|constructor|unfold domainListLimit; cbn [length]; lia|].
  intros d. by rewrite elem_of_nil, elem_of_empty.
Qed.

End Tester.

(** * Witnesses *)
#[export] Instance demo_tester_text : TesterText | 100 := {|
  TypeToString t := match List.find (λ p, (p.1 =? t)%N) demo_type_table with Some p => Some p.2 | None => None end;
  RcodeToString r := if (r =? 0)%N then Some "NOERROR" else if (r =? 3)%N then Some "NXDOMAIN" else None;
  msg_string m := ""; https_target r := None
|}.
#[export] Instance demo_tester_net : TesterNet nat | 100 := {|
  tester_get url n :=
    (if contains url "download" then Ok (200%N, ("1,example.com", None)) else Ok (200%N, ("{}", None)), S n);
  decode_meta s := Ok (MkMeta "X" true false "")
|}.

Module Demo.
Import Tester.

(** One answer for every query, and the workers in a given order. *)
Definition reply : outcome := (Some (set_answer new_msg [RR (Hdr "a.example." TypeA 1 60) (DA (IP4b 1))]), 2500000%N, None).
Definition always (t : string) (q : msg) (r : outcome) : Prop := r = reply.
Definition perm : TestPermutation := MkPerm TypeA "udp" false false.

Fixpoint schedule (l : list nat) (c : config) : option config :=
  match l with
  | [] => Some c
  | i :: l =>
      match c.2 !! i with
      | Some Exited | None => None
      | Some p => schedule l ((advance perm reply c.1 p).1, <[i := (advance perm reply c.1 p).2]> c.2)
      end
  end.

Lemma schedule_runs l c c' : schedule l c = Some c' → rtc (step perm always) c c'.
Proof.
  revert c. induction l as [|i l IH]; intros [s ws]; cbn; [by intros [= ->]|].
  destruct (ws !! i) as [p|] eqn:E; [|done]. intros H. econstructor; [apply (step_worker perm always i p reply); [done| |done]|].
  - by intros ->.
  - apply IH. by destruct p.
Qed.

(** Twenty workers, one after the other, each with a domain of its own. *)
Definition twenty : list string := map (λ n, "d" +:+ nat_text n +:+ ".example") (seq 0 20).
Abbreviation full_run := (
  schedule (concat (map (replicate 11) (seq 0 20))) (start 10 (fresh_shared twenty))).

Lemma full_finished : ∃ s ws, full_run = Some (s, ws) ∧ finished (s, ws) ∧ verdict s = None.
Proof.
  assert (H : match full_run with
    | Some c => forallb (λ p, match p with Exited => true | _ => false end) c.2 && bool_decide (verdict c.1 = None)
    | None => false end = true) by by vm_compute.
  revert H. generalize full_run. intros [[s ws]|] H; [|done]. exists s, ws. split; [done|]. cbn [fst snd] in H.
  apply andb_true_iff in H as [Hf Hv]. apply bool_decide_eq_true in Hv. split; [|done].
  unfold finished. cbn [snd]. rewrite forallb_forall in Hf. apply Forall_forall. intros p Hp%list_elem_of_In%Hf. by destruct p.
Qed.

Lemma full_reached : ∃ s ws, rtc (step perm always) (start 10 (fresh_shared twenty)) (s, ws) ∧ finished (s, ws) ∧ verdict s = None.
Proof. destruct full_finished as (s & ws & H & Hf & Hv). apply schedule_runs in H. exists s, ws. split; [exact H|]. split; [exact Hf|exact Hv]. Qed.

Lemma twenty_distinct : NoDup (domains (pool (fresh_shared twenty))).
Proof. apply (bool_decide_unpack _). by vm_compute. Qed.
End Demo.

Lemma permutation_verdict_witness : ∃ s, Tester.verdict s = None ∧ 20 ≤ Tester.withData s + Tester.empty s.
Proof.
  destruct Demo.full_reached as (s & ws & Hr & Hf & Hv). exists s. split; [exact Hv|].
  destruct (Tester.permutation_verdict Demo.perm Demo.always 10 (Tester.fresh_shared Demo.twenty) s None) as [H _].
  - exists ws. split; [exact Hr|]. split; [exact Hf|]. by rewrite Hv.
  - destruct (H eq_refl) as [_ H']. cbn [Tester.fresh_shared Tester.withData Tester.empty] in H'. lia.
Defined.

Lemma permutation_terminates_witness : ∃ s' e,
  Tester.runPermutation Demo.perm Demo.always 3 (Tester.fresh_shared Demo.twenty) s' e.
Proof.
  apply (Tester.permutation_terminates Demo.perm Demo.always 3 (Tester.fresh_shared Demo.twenty)).
  intros t q. exists Demo.reply. reflexivity.
Defined.

Lemma workers_exclusive_witness : ∃ s, Tester.verdict s = None ∧ Tester.attempted s ≤ Tester.index (Tester.pool s).
Proof.
  destruct Demo.full_reached as (s & ws & Hr & Hf & Hv). exists s. split; [exact Hv|].
  destruct (Tester.workers_exclusive Demo.perm Demo.always 10 (Tester.fresh_shared Demo.twenty) (s, ws))
    as (_ & _ & _ & Hq & _).
  - exact Demo.twenty_distinct.
  - apply Nat.le_0_l.
  - exact Hr.
  - cbn [Tester.fresh_shared Tester.pool Tester.NewDomainPool Tester.index Tester.attempted fst] in Hq. lia.
Defined.

(** Two processors, a single domain: the first worker has it, the others find
    the pool empty. *)
Lemma few_processors_fail_witness : ∃ code out w',
  Tester.main (X := nat) (W := ram) Demo.always 2 false "trace.log" 0 ∅ code out w' ∧ code = 1%N.
Proof.
  set (s0 := Tester.fresh_shared ["example.com"]).
  set (run := Demo.schedule (replicate 11 0 ++ [1; 1; 1; 1; 2; 2; 3; 3]) (Tester.start 2 s0)).
  assert (H : ∃ s ws, run = Some (s, ws) ∧ Forall (λ p, p = Tester.Exited) ws ∧
    Tester.verdict s = Some (errNew "permutation %s collected %d/%d successes (pool remaining: %d)")).
  { eexists _, _. split; [by vm_compute|]. by repeat constructor. }
  destruct H as (s & ws & Hr & Hf & Hv).
  assert (Hm : Tester.main (X := nat) (W := ram) Demo.always 2 false "trace.log" 0 ∅ 1
    (Tester.stdout (Tester.printExecutionSummary 1 s)) (Tester.writeLogFile "trace.log" 1 s ∅).1).
  { apply (Tester.main_failed _ _ _ _ _ _ ["example.com"] 1 s); [by vm_compute|].
    eapply (Tester.run_failed _ _ _ Demo.perm); [by intros [? _]|]. exists ws. split; [by apply (Demo.schedule_runs _ _ _ Hr)|].
    split; [exact Hf|]. by rewrite Hv. }
  eexists _, _, _. split; [exact Hm|].
  exact (Tester.few_processors_fail Demo.always 2 false "trace.log" 0 ∅ _ _ _ ltac:(lia) Hm).
Defined.
