(* ===== verification/Rules.v ===== *)
(** * The table of query rules: acl/rules.go

    The statements on [acl_rules] as an interface, the four operations on it,
    and what they leave for the checker of Access to load. *)
From S2P Require Import Prelude NetAddr Sql Access.

Record rule_row := MkRuleRow {
  rr_id : Z; rr_subnet : string; rr_description : option string; rr_action : string
}.

Class RulesDB (D : Type) := {
  sql_rules : D → res (list rule_row * option error);
  sql_insert_rule : D → string → option string → string → D * res rule_row;
  sql_update_rule : D → Z → string → option string → string → D * res rule_row;
  sql_delete_rule : D → Z → D * res Z
}.

(** Keyed by [id]; the column [subnet] is unique. *)
Class RulesDBLaws (D : Type) `{RulesDB D} {SE : ErrorText} := {
  rule_table : D → gmap Z rule_row;
  rule_key : ∀ d i r, rule_table d !! i = Some r → rr_id r = i ∧ (0 < i)%Z;
  rules_law : ∀ d rows, sql_rules d = Ok (rows, None) →
    NoDup (map rr_id rows) ∧ ∀ r, r ∈ rows ↔ rule_table d !! rr_id r = Some r;
  insert_rule_law : ∀ d subnet desc action d' q, sql_insert_rule d subnet desc action = (d', q) →
    match q with
    | Ok row => row = MkRuleRow (rr_id row) subnet desc action ∧ rule_table d !! rr_id row = None ∧
        rule_table d' = <[rr_id row := row]> (rule_table d) ∧
        ¬ (∃ i r, rule_table d !! i = Some r ∧ rr_subnet r = subnet)
    | Err e => rule_table d' = rule_table d ∧
        (isUniqueConstraintError e = true ↔ ∃ i r, rule_table d !! i = Some r ∧ rr_subnet r = subnet)
    end;
  update_rule_law : ∀ d id subnet desc action d' q, sql_update_rule d id subnet desc action = (d', q) →
    match q with
    | Ok row => row = MkRuleRow id subnet desc action ∧ is_Some (rule_table d !! id) ∧
        rule_table d' = <[id := row]> (rule_table d) ∧
        ¬ (∃ i r, rule_table d !! i = Some r ∧ i ≠ id ∧ rr_subnet r = subnet)
    | Err e => rule_table d' = rule_table d ∧ (errors_is e errNoRows = true ↔ rule_table d !! id = None) ∧
        (isUniqueConstraintError e = true ↔
         is_Some (rule_table d !! id) ∧ ∃ i r, rule_table d !! i = Some r ∧ i ≠ id ∧ rr_subnet r = subnet)
    end;
  delete_rule_law : ∀ d id d' q, sql_delete_rule d id = (d', q) →
    match q with
    | Ok n => rule_table d' = delete id (rule_table d) ∧ n = if rule_table d !! id then 1%Z else 0%Z
    | Err _ => rule_table d' = rule_table d
    end
}.

Module Rules.
Import Access.

Definition ErrRuleNotFound := errNew "acl rule not found".
Definition ErrRuleAlreadyExists := errNew "acl rule already exists".
Definition errNilDB := errNew "database handle is nil".

Section ops.
Context {D : Type} {RD : RulesDB D} {SE : ErrorText}.

Definition scanRow (r : rule_row) : Rule := scanRule (rr_id r) (rr_subnet r) (rr_description r) (rr_action r).

(** The row a [RETURNING] statement gives, scanned without [scanRule]'s default. *)
Definition returned (r : rule_row) : Rule :=
  MkRule (rr_id r) (rr_subnet r) (match rr_description r with Some d => trim_space d | None => "" end) (rr_action r).

Definition InsertRule (db : option D) (subnet description action : string) : option D * res Rule :=
  match db with
  | None => (db, Err errNilDB)
  | Some d =>
      match NormalizeSubnet subnet with
      | Err e => (db, Err e)
      | Ok normalized =>
          match NormalizeAction action with
          | Err e => (db, Err e)
          | Ok normalizedAction =>
              let description := trim_space description in
              let '(d, q) := sql_insert_rule d normalized (nullableDescription description) normalizedAction in
              (Some d, match q with
                       | Err e => if isUniqueConstraintError e then Err ErrRuleAlreadyExists
                                  else Err (errWrap "insert acl rule: %w" e)
                       | Ok row => Ok (returned row)
                       end)
          end
      end
  end.

Definition UpdateRule (db : option D) (id : Z) (subnet description action : string) : option D * res Rule :=
  match db with
  | None => (db, Err errNilDB)
  | Some d =>
      if (id <=? 0)%Z then (db, Err ErrRuleNotFound)
      else
        match NormalizeSubnet subnet with
        | Err e => (db, Err e)
        | Ok normalized =>
            match NormalizeAction action with
            | Err e => (db, Err e)
            | Ok normalizedAction =>
                let description := trim_space description in
                let '(d, q) := sql_update_rule d id normalized (nullableDescription description) normalizedAction in
                (Some d, match q with
                         | Err e => if errors_is e errNoRows then Err ErrRuleNotFound
                                    else if isUniqueConstraintError e then Err ErrRuleAlreadyExists
                                    else Err (errWrap "update acl rule: %w" e)
                         | Ok row => Ok (returned row)
                         end)
            end
        end
  end.

Definition ListRules (db : option D) : res (list Rule) :=
  match db with
  | None => Err errNilDB
  | Some d =>
      let? q := res_wrap "list acl rules: %w" (sql_rules d) in
      scan_rows "iterate acl rules: %w" (λ r, Ok (scanRow r)) q
  end.

Definition DeleteRule (db : option D) (id : Z) : option D * option error :=
  match db with
  | None => (db, Some errNilDB)
  | Some d =>
      if (id <=? 0)%Z then (db, Some ErrRuleNotFound)
      else
        let '(d, q) := sql_delete_rule d id in
        (Some d, affected "delete acl rule: %w" ErrRuleNotFound q)
  end.
End ops.

(** * Lemmas *)
Section rules.
Context {D : Type} {RD : RulesDB D} {SE : ErrorText} {RL : RulesDBLaws D}.

(** The rules the table stands for. *)
Definition rules_of (d : D) : gmap Z Rule := scanRow <$> rule_table d.

(** Rows as the operations write them, and readable by the checker. *)
Definition rows_good (d : D) : Prop :=
  ∀ i r, rule_table d !! i = Some r →
    (rr_action r = ActionAllow ∨ rr_action r = ActionBlock) ∧ is_Some (parse_prefix (rr_subnet r)).

Definition stored (id : Z) (subnet description action : string) : Rule :=
  MkRule id subnet (trim_space description) action.

Lemma normalized_action action a : NormalizeAction action = Ok a → a = ActionAllow ∨ a = ActionBlock.
Proof.
  unfold NormalizeAction. case_bool_decide; [intros [= <-]; by left|].
  destruct (_ || _) eqn:E; [|done]. intros [= <-].
  apply orb_true_iff in E as [E|E]; apply bool_decide_eq_true in E; rewrite E; [by left|by right].
Qed.

Lemma scan_stored id subnet desc a : a = ActionAllow ∨ a = ActionBlock →
  scanRow (MkRuleRow id subnet (nullableDescription (trim_space desc)) a) = stored id subnet desc a ∧
  returned (MkRuleRow id subnet (nullableDescription (trim_space desc)) a) = stored id subnet desc a.
Proof.
  intros Ha. unfold scanRow, scanRule, returned, stored. cbn [rr_id rr_subnet rr_description rr_action].
  rewrite nullable_scan. split; [|done]. by destruct Ha as [-> | ->].
Qed.

Lemma rules_of_none d i : rules_of d !! i = None ↔ rule_table d !! i = None.
Proof. unfold rules_of. rewrite lookup_fmap. by destruct (rule_table d !! i). Qed.

Lemma rules_of_nonpos d i : (i <=? 0)%Z = true → rules_of d !! i = None.
Proof.
  intros Hi%Z.leb_le. apply rules_of_none. destruct (rule_table d !! i) eqn:E; [|done].
  apply rule_key in E as [_ ?]. lia.
Qed.

Lemma rules_same d d' : rule_table d' = rule_table d → rules_of d' = rules_of d.
Proof. unfold rules_of. by intros ->. Qed.

(** The operations against the map of rules; the subnet is unique in it. *)
Definition holds_subnet (m : gmap Z Rule) (except : option Z) (subnet : string) : Prop :=
  ∃ i r, m !! i = Some r ∧ Some i ≠ except ∧ Subnet r = subnet.

Lemma holds_subnet_table d except subnet :
  holds_subnet (rules_of d) except subnet ↔
  ∃ i r, rule_table d !! i = Some r ∧ Some i ≠ except ∧ rr_subnet r = subnet.
Proof.
  unfold holds_subnet, rules_of. setoid_rewrite lookup_fmap_Some. split.
  - intros (i & r & (row & <- & Hrow) & He & Hs). by exists i, row.
  - intros (i & row & Hrow & He & Hs). by exists i, (scanRow row); split; [exists row|].
Qed.

Lemma insert_rule_spec d subnet desc action db' q :
  InsertRule (Some d) subnet desc action = (db', q) →
  ∃ d', db' = Some d' ∧
  match q with
  | Ok r => ∃ s a, NormalizeSubnet subnet = Ok s ∧ NormalizeAction action = Ok a ∧
      r = stored (ID r) s desc a ∧ ¬ holds_subnet (rules_of d) None s ∧
      rules_of d !! ID r = None ∧ rules_of d' = <[ID r := r]> (rules_of d)
  | Err e => rules_of d' = rules_of d ∧
      (∀ s a, NormalizeSubnet subnet = Ok s → NormalizeAction action = Ok a →
         e = ErrRuleAlreadyExists ↔ holds_subnet (rules_of d) None s)
  end.
Proof.
  unfold InsertRule. destruct (NormalizeSubnet subnet) as [s|e]; [|intros [= <- <-]; by exists d].
  destruct (NormalizeAction action) as [a|e] eqn:Ha; [|intros [= <- <-]; by exists d].
  destruct (sql_insert_rule d s _ a) as [d' row] eqn:E. apply insert_rule_law in E.
  intros [= <- <-]. exists d'. split; [done|]. apply normalized_action in Ha. destruct row as [row|e].
  - destruct E as (Hrow & Hnone & Htab & Huniq).
    destruct (scan_stored (rr_id row) s desc a Ha) as [Hscan Hret].
    exists s, a. rewrite Hrow, Hret. split_and!; [done|done|done| |by apply rules_of_none|].
    + rewrite holds_subnet_table. intros (i & r & Hr & _ & Hs). apply Huniq. by exists i, r.
    + unfold rules_of. rewrite Htab, fmap_insert. cbn [ID stored]. f_equal. rewrite Hrow. exact Hscan.
  - destruct E as [Htab Hiff].
    destruct (isUniqueConstraintError e); (split; [by apply rules_same|]; intros s' a' [= <-] _; rewrite holds_subnet_table).
    + split; [|done]. intros _. destruct (proj1 Hiff eq_refl) as (i & r & ? & ?). by exists i, r.
    + split; [done|]. intros (i & r & Hr & _ & Hs). enough (false = true) by done. apply Hiff. by exists i, r.
Qed.

Lemma update_rule_spec d id subnet desc action db' q :
  UpdateRule (Some d) id subnet desc action = (db', q) →
  ∃ d', db' = Some d' ∧
  match q with
  | Ok r => ∃ s a, NormalizeSubnet subnet = Ok s ∧ NormalizeAction action = Ok a ∧
      r = stored id s desc a ∧ ¬ holds_subnet (rules_of d) (Some id) s ∧
      is_Some (rules_of d !! id) ∧ rules_of d' = <[id := r]> (rules_of d)
  | Err e => rules_of d' = rules_of d ∧
      (∀ s a, NormalizeSubnet subnet = Ok s → NormalizeAction action = Ok a →
         e = ErrRuleNotFound ↔ rules_of d !! id = None)
  end.
Proof.
  unfold UpdateRule. destruct (id <=? 0)%Z eqn:Hid.
  { intros [= <- <-]. exists d. split; [done|]. split; [done|]. intros s a _ _. split; [|done]. intros _. by apply rules_of_nonpos. }
  destruct (NormalizeSubnet subnet) as [s|e]; [|intros [= <- <-]; by exists d].
  destruct (NormalizeAction action) as [a|e] eqn:Ha; [|intros [= <- <-]; by exists d].
  destruct (sql_update_rule d id s _ a) as [d' row] eqn:E. apply update_rule_law in E.
  intros [= <- <-]. exists d'. split; [done|]. apply normalized_action in Ha. destruct row as [row|e].
  - destruct E as (-> & Hsome & Htab & Huniq).
    destruct (scan_stored id s desc a Ha) as [Hscan Hret].
    exists s, a. rewrite Hret. split_and!; [done|done|done| | |].
    + rewrite holds_subnet_table. intros (i & r & Hr & Hi & Hs). apply Huniq. exists i, r. naive_solver.
    + destruct Hsome as [r Hr]. exists (scanRow r). unfold rules_of. by rewrite lookup_fmap, Hr.
    + unfold rules_of. rewrite Htab, fmap_insert. by rewrite Hscan.
  - destruct E as (Htab & Hiff & _).
    destruct (errors_is e errNoRows); [|destruct (isUniqueConstraintError e)];
      (split; [by apply rules_same|]; intros s' a' _ _; by rewrite rules_of_none, <-Hiff).
Qed.

Lemma delete_rule_spec d id db' e :
  DeleteRule (Some d) id = (db', e) →
  ∃ d', db' = Some d' ∧
  match e with
  | None => is_Some (rules_of d !! id) ∧ rules_of d' = delete id (rules_of d)
  | Some e => rules_of d' = rules_of d ∧ (e = ErrRuleNotFound → rules_of d !! id = None)
  end.
Proof.
  unfold DeleteRule. destruct (id <=? 0)%Z eqn:Hid.
  { intros [= <- <-]. exists d. split_and!; [done..|]. intros _. by apply rules_of_nonpos. }
  destruct (sql_delete_rule d id) as [d' q] eqn:E. apply delete_rule_law in E.
  intros [= <- <-]. exists d'. split; [done|]. destruct q as [n|e]; cbn [affected].
  - destruct E as [Htab ->]. assert (Hd : rules_of d' = delete id (rules_of d)).
    { unfold rules_of. by rewrite Htab, fmap_delete. }
    destruct (rule_table d !! id) as [row|] eqn:Er; cbn.
    + split; [|done]. unfold rules_of. rewrite lookup_fmap, Er. by eexists.
    + apply rules_of_none in Er. split; [|done]. by rewrite Hd, delete_id.
  - split; [by apply rules_same|done].
Qed.

Lemma list_rules_spec d rules : ListRules (Some d) = Ok rules →
  ∀ r, r ∈ rules ↔ rules_of d !! ID r = Some r.
Proof.
  cbn [ListRules]. rewrite res_bind_ok. setoid_rewrite res_wrap_ok. setoid_rewrite scan_rows_ok.
  intros ([rows e] & Hq & He & HF). cbn [fst snd] in *. subst e. apply rules_law in Hq as [_ Hin].
  assert (rules = map scanRow rows) as ->.
  { clear Hin. induction HF as [|row r rows rules [= <-] _ IH]; [done|]. cbn. by rewrite IH. }
  intros r. rewrite list_elem_of_fmap. unfold rules_of. rewrite lookup_fmap, fmap_Some. split.
  - intros (row & -> & Hrow%Hin). by exists row.
  - intros (row & Hrow & ->). exists row. split; [done|]. by apply Hin.
Qed.

(** Who may query, by the table: no rule, or a valid address that no blocked
    subnet holds and, if some rule allows, an allowed one does. *)
Definition decided (m : gmap Z Rule) (a : addr) : Prop :=
  m = ∅ ∨
  (is_valid a = true ∧ (∀ i r, m !! i = Some r → Action r = ActionBlock → ¬ matches r a) ∧
   ((∀ i r, m !! i = Some r → Action r = ActionBlock) ∨
    ∃ i r, m !! i = Some r ∧ Action r ≠ ActionBlock ∧ matches r a)).

Lemma rules_of_key d i r : rules_of d !! i = Some r → ID r = i.
Proof.
  unfold rules_of. rewrite lookup_fmap_Some. intros (row & <- & Hrow). by apply rule_key in Hrow as [? _].
Qed.

(** What the checker decides once it has loaded the table. *)
Lemma reload_decides d c new :
  Reload (Some (ListRules (Some d))) c = (new, None) →
  ∀ a, Allowed (Some new) a = true ↔ decided (rules_of d) a.
Proof.
  intros HR a. destruct (ListRules (Some d)) as [rules|e] eqn:El; [|done].
  pose proof (list_rules_spec d rules El) as Hin. pose proof (query_access_decided rules c a) as Hq.
  cbn zeta in Hq. rewrite HR in Hq. destruct Hq as [_ ->].
  assert (Hm : ∀ i r, rules_of d !! i = Some r → r ∈ rules).
  { intros i r Hr. apply Hin. by rewrite (rules_of_key _ _ _ Hr). }
  unfold decided. assert (He : rules = [] ↔ rules_of d = ∅).
  { split.
    - intros ->. apply map_eq. intros i. rewrite lookup_empty. destruct (rules_of d !! i) eqn:E; [|done].
      apply Hm in E. by apply elem_of_nil in E.
    - intros E. destruct rules as [|r rules]; [done|]. assert (r ∈ r :: rules) as Hr%Hin by by left.
      by rewrite E, lookup_empty in Hr. }
  rewrite He. apply or_iff_compat_l, and_iff_compat_l. split.
  - intros [Hb Ha]. split; [naive_solver|]. destruct Ha as [Ha|(r & Hr & Hn)]; [left; naive_solver|].
    right. exists (ID r), r. split; [by apply Hin|done].
  - intros [Hb Ha]. split; [intros r Hr; apply Hin in Hr; naive_solver|].
    destruct Ha as [Ha|(i & r & Hr & Hn)]; [left; intros r Hr; apply Hin in Hr; naive_solver|].
    right. exists r. split; [naive_solver|done].
Qed.

(** A reload that fails keeps the snapshot, and fails for a reason. *)
Definition checked (d : D) (c c' : option aclSnapshot) : Prop :=
  (∀ a, Allowed (Some c') a = true ↔ decided (rules_of d) a) ∨
  (c' = c ∧ ((∃ e, ListRules (Some d) = Err e) ∨
             ∃ i r, rules_of d !! i = Some r ∧ parse_prefix (Subnet r) = None)).

Lemma reload_checked d c : checked d c (Reload (Some (ListRules (Some d))) c).1.
Proof.
  destruct (Reload (Some (ListRules (Some d))) c) as [c' [e|]] eqn:E.
  - right. revert E. destruct (ListRules (Some d)) as [rules|e'] eqn:El.
    + intros E. pose proof (query_access_decided rules c (AInvalid)) as Hq. cbn zeta in Hq. rewrite E in Hq.
      destruct Hq as [-> Hn]. split; [done|right].
      apply not_Forall_Exists, Exists_exists in Hn as (r & Hr & Hp); [|intros x; apply _].
      exists (ID r), r. split; [by apply (proj1 (list_rules_spec d rules El r))|]. destruct (parse_prefix (Subnet r)) eqn:Ep; [|done]. exfalso. apply Hp. by rewrite Ep.
    + intros [= <- <-]. split; [done|left]. by eexists.
  - left. by eapply reload_decides.
Qed.

End rules.
End Rules.

(** * A table in memory, for witnesses *)
Definition good_rule (p : Z * rule_row) : Prop := rr_id p.2 = p.1 ∧ (0 < p.1)%Z.
#[local] Instance good_rule_dec p : Decision (good_rule p).
Proof. unfold good_rule. apply _. Defined.
Definition demo_rules (t : gmap Z rule_row) : gmap Z rule_row := filter good_rule t.

Definition has_subnet (t : gmap Z rule_row) (except : Z) (subnet : string) : bool :=
  existsb (λ p, bool_decide (p.1 ≠ except) && bool_decide (rr_subnet p.2 = subnet)) (map_to_list t).

Lemma has_subnet_spec t except subnet : has_subnet t except subnet = true ↔
  ∃ i r, t !! i = Some r ∧ i ≠ except ∧ rr_subnet r = subnet.
Proof.
  unfold has_subnet. rewrite existsb_exists. setoid_rewrite andb_true_iff. setoid_rewrite bool_decide_eq_true. split.
  - intros ([i r] & Hin & Hi & Hs). exists i, r. split; [|done]. by apply elem_of_map_to_list, list_elem_of_In.
  - intros (i & r & Hr & Hi & Hs). exists (i, r). split; [|done]. by apply list_elem_of_In, elem_of_map_to_list.
Qed.

Lemma demo_rules_key t i r : demo_rules t !! i = Some r → good_rule (i, r).
Proof. by intros [_ ?]%map_lookup_filter_Some. Qed.

Lemma demo_rules_insert t i r : good_rule (i, r) → demo_rules (<[i := r]> (demo_rules t)) = <[i := r]> (demo_rules t).
Proof.
  intros Hr. unfold demo_rules at 1. rewrite map_filter_insert_True by done. f_equal. apply map_filter_id.
  intros j x. apply demo_rules_key.
Qed.

#[export] Instance demo_rules_db : RulesDB (gmap Z rule_row) | 100 := {|
  sql_rules t := Ok ((map_to_list (demo_rules t)).*2, None);
  sql_insert_rule t subnet desc action :=
    let t := demo_rules t in
    if has_subnet t 0 subnet then (t, Err (errNew "UNIQUE constraint failed: acl_rules.subnet"))
    else let r := MkRuleRow (next_id t) subnet desc action in (<[next_id t := r]> t, Ok r);
  sql_update_rule t id subnet desc action :=
    let t := demo_rules t in
    match t !! id with
    | None => (t, Err errNoRows)
    | Some _ =>
        if has_subnet t id subnet then (t, Err (errNew "UNIQUE constraint failed: acl_rules.subnet"))
        else let r := MkRuleRow id subnet desc action in (<[id := r]> t, Ok r)
    end;
  sql_delete_rule t id :=
    (delete id (demo_rules t), Ok (if demo_rules t !! id then 1%Z else 0%Z))
|}.

Lemma demo_rules_idem t : demo_rules (demo_rules t) = demo_rules t.
Proof. apply map_filter_id. intros i r. apply demo_rules_key. Qed.

#[export] Program Instance demo_rules_laws : RulesDBLaws (gmap Z rule_row) | 100 := {| rule_table := demo_rules |}.
Next Obligation. intros d i r H. by apply demo_rules_key in H. Qed.
Next Obligation.
  intros d rows [= <-].
  assert (E : map rr_id (map_to_list (demo_rules d)).*2 = (map_to_list (demo_rules d)).*1).
  { unfold fmap. rewrite map_map. apply list_fmap_ext. intros j [i r] Hj.
    by apply list_elem_of_lookup_2, elem_of_map_to_list, demo_rules_key in Hj as [Hk _]. }
  rewrite E. split; [apply NoDup_fst_map_to_list|]. intros r. rewrite list_elem_of_fmap. split.
  - intros ([i r'] & -> & H%elem_of_map_to_list). pose proof (demo_rules_key _ _ _ H) as [Hk _]. cbn in *. by rewrite Hk.
  - intros Hr. exists (rr_id r, r). split; [done|]. by apply elem_of_map_to_list.
Qed.
Next Obligation.
  intros d subnet desc action d' q H. cbn in H. pose proof (has_subnet_spec (demo_rules d) 0 subnet) as Hs.
  assert (Hpos : ∀ i r, demo_rules d !! i = Some r → i ≠ 0%Z) by (intros i r [_ ?]%demo_rules_key; cbn in *; lia).
  destruct (has_subnet _ _ _); injection H as <- <-.
  - rewrite demo_rules_idem. split; [done|]. change (isUniqueConstraintError _) with true. split; [|done].
    intros _. destruct (proj1 Hs eq_refl) as (i & r & ? & _ & ?). by exists i, r.
  - cbn [rr_id]. split_and!; [done| |apply demo_rules_insert; split; [done|apply next_id_pos]|].
    + apply eq_None_not_Some. intros [r Hr]. by apply next_id_above in Hr; lia.
    + intros (i & r & Hr & Hsub). assert (false = true); [|done]. apply Hs. exists i, r. eauto.
Qed.
Next Obligation.
  intros d id subnet desc action d' q H. cbn in H. pose proof (has_subnet_spec (demo_rules d) id subnet) as Hs.
  destruct (demo_rules d !! id) as [old|] eqn:Eo; [destruct (has_subnet _ _ _)|]; injection H as <- <-.
  - rewrite demo_rules_idem. split; [done|]. change (isUniqueConstraintError _) with true.
    change (errors_is _ errNoRows) with false. split; [done|]. split; [|done]. intros _. split; [by eexists|].
    destruct (proj1 Hs eq_refl) as (i & r & ? & ? & ?). by exists i, r.
  - split_and!; [done|by eexists|apply demo_rules_insert; split; [done|]|].
    + by apply demo_rules_key in Eo as [_ ?].
    + intros H. assert (false = true); [|done]. by apply Hs.
  - rewrite demo_rules_idem. split; [done|]. change (isUniqueConstraintError _) with false. split; [done|].
    split; [done|]. by intros [[? ?] _].
Qed.
Next Obligation.
  intros d id d' q H. cbn in H. injection H as <- <-. split; [|done]. apply map_filter_id.
  intros i r [_ Hr]%lookup_delete_Some. by apply demo_rules_key in Hr.
Qed.
