(* ===== verification/Refresh.v ===== *)
(** * Reloads side by side: api/settings.go and dnsproc/acl.go

    A change of the query rules is answered after a reload of the checker: the
    table is changed, then read, then what was read is published in one store.
    Nothing keeps two requests from mixing these steps. The machine is shared:
    the table, its changes and what is read from it are parameters. *)
From stdpp Require Import relations.
From S2P Require Import Prelude NetAddr Sql Access Rules.

Module Refresh.

Section refresh.
Context {S A : Type}.
(** What a reload publishes; nothing when it fails. *)
Variable load : S → option A.

(** A request: before its change, before it reads the table, with what it read,
    and answered. *)
Inductive task := Change (op : S → S * bool) | Load | Publish (read : option A) | Done (ok : bool).
Record world := MkWorld { tasks : list task; table : S; in_force : A }.

Definition advance (t : task) (s : S) (a : A) : task * S * A :=
  match t with
  | Change op => let '(s, ok) := op s in (if ok : bool then Load else Done false, s, a)
  | Load => (Publish (load s), s, a)
  | Publish read => (Done true, s, default a read)
  | Done ok => (Done ok, s, a)
  end.

(** One request takes its next step. *)
Inductive step : world → world → Prop :=
| step_turn ts s a i t : ts !! i = Some t →
    step (MkWorld ts s a) (let '(t, s, a) := advance t s a in MkWorld (<[i := t]> ts) s a).

Fixpoint schedule (turns : list nat) (w : world) : world :=
  match turns with
  | [] => w
  | i :: turns =>
      match tasks w !! i with
      | Some t => let '(t, s, a) := advance t (table w) (in_force w) in schedule turns (MkWorld (<[i := t]> (tasks w)) s a)
      | None => w
      end
  end.

Lemma turns_step turns w : rtc step w (schedule turns w).
Proof.
  revert w. induction turns as [|i turns IH]; intros [ts s a]; cbn [schedule tasks table in_force]; [done|].
  destruct (ts !! i) as [t|] eqn:Et; [|done]. pose proof (step_turn ts s a i t Et) as Hs.
  destruct (advance t s a) as [[t' s'] a']. by eapply rtc_l.
Qed.

(** * Lemmas *)
Definition was_read (w0 w : world) (a : A) : Prop := ∃ w1, rtc step w0 w1 ∧ rtc step w1 w ∧ load (table w1) = Some a.

Lemma was_read_later w0 w w' a : step w w' → was_read w0 w a → was_read w0 w' a.
Proof. intros Hs (w1 & H1 & H2 & H3). exists w1. split_and!; [done|by eapply rtc_r|done]. Qed.

Definition read_ok (w0 w : world) (t : task) : Prop := match t with Publish (Some a) => was_read w0 w a | _ => True end.
Definition reads_ok (w0 w : world) : Prop :=
  (in_force w = in_force w0 ∨ was_read w0 w (in_force w)) ∧ Forall (read_ok w0 w) (tasks w).

Lemma step_reads w0 w w' : rtc step w0 w → step w w' → reads_ok w0 w → reads_ok w0 w'.
Proof.
  intros Hr Hs [Ha Ht].
  assert (Ha' : in_force w = in_force w0 ∨ was_read w0 w' (in_force w)) by (destruct Ha; [by left|right; by eapply was_read_later]).
  assert (Ht' : Forall (read_ok w0 w') (tasks w))
    by (eapply Forall_impl; [exact Ht|]; intros [| |[a|]|]; cbn; try done; by apply was_read_later).
  assert (Hl : ∀ a, load (table w) = Some a → was_read w0 w' a)
    by (intros a E; exists w; split_and!; [done|by apply rtc_once|done]).
  clear Ha Ht. destruct Hs as [ts s a i t Et]. destruct t as [op| |read|ok]; cbn [advance tasks table in_force] in *.
  - destruct (op s) as [s' ok]. split; [done|]. apply Forall_insert; [done|by destruct ok].
  - split; [done|]. apply Forall_insert; [done|]. cbn. destruct (load s) as [r|] eqn:El; [by apply Hl|done].
  - split; [|by apply Forall_insert]. destruct read as [r|]; cbn; [right|done].
    by apply (Forall_lookup_1 _ _ _ _ Ht' Et).
  - split; [done|]. by apply Forall_insert.
Qed.

Definition fresh (t : task) : Prop := match t with Publish _ => False | _ => True end.

(** nothing is invented: however requests mix, what is in force is what was at
    first, or what some moment's table says. *)
Theorem in_force_was_read w0 w : Forall fresh (tasks w0) → rtc step w0 w →
  in_force w = in_force w0 ∨ was_read w0 w (in_force w).
Proof.
  intros Hf Hr. assert (H0 : reads_ok w0 w0) by (split; [by left|]; eapply Forall_impl; [exact Hf|]; by intros []).
  enough (reads_ok w0 w) as [? _] by done. clear Hf. revert w Hr. apply rtc_ind_r; [done|].
  intros w w' Hr Hs Hi. by eapply step_reads.
Qed.

(** ** Settling *)
Definition quiet (t : task) : bool := match t with Load | Done _ => true | _ => false end.
Definition reloading (t : task) : bool := match t with Load | Publish _ => true | _ => false end.
Definition is_done (t : task) : bool := match t with Done _ => true | _ => false end.

Definition settling (s0 : S) (a0 : A) (w : world) : Prop :=
  table w = s0 ∧
  Forall (λ t, match t with Change _ => False | Publish read => read = load s0 | _ => True end) (tasks w) ∧
  (in_force w = default a0 (load s0) ∨ in_force w = a0 ∧ ∃ i t, tasks w !! i = Some t ∧ reloading t = true).

Lemma step_settling s0 a0 w w' : step w w' → settling s0 a0 w → settling s0 a0 w'.
Proof.
  intros Hs (H1 & H2 & H3). destruct Hs as [ts s a i t Et]. cbn [tasks table in_force] in *. subst s.
  pose proof (Forall_lookup_1 _ _ _ _ H2 Et) as Hti. destruct t as [op| |read|ok]; cbn [advance] in *; [done|..].
  - split; [done|]. split; [by apply Forall_insert|]. destruct H3 as [?|[Ha _]]; [by left|right].
    split; [done|]. exists i, (Publish (load s0)). split; [|done]. apply list_lookup_insert_eq. by eapply lookup_lt_Some.
  - subst read. split; [done|]. split; [by apply Forall_insert|]. left. cbn [in_force].
    destruct H3 as [->|[-> _]]; [by destruct (load s0)|done].
  - split; [done|]. split; [by apply Forall_insert|]. cbn [in_force tasks].
    rewrite list_insert_id by done. exact H3.
Qed.

Lemma settling_run s0 a0 w w' : rtc step w w' → settling s0 a0 w → settling s0 a0 w'.
Proof. induction 1 as [|w w1 w2 Hs _ IH]; [done|]. intros Hi. by eapply IH, step_settling. Qed.

(** when no change and no stale read is left, the table is in force once every
    reload has ended: the one reload of a single request suffices. *)
Theorem reload_settles w w' : Forall (λ t, quiet t = true) (tasks w) → Exists (λ t, reloading t = true) (tasks w) →
  rtc step w w' → Forall (λ t, is_done t = true) (tasks w') →
  table w' = table w ∧ in_force w' = default (in_force w) (load (table w)).
Proof.
  intros Hq He Hr Hd. assert (H0 : settling (table w) (in_force w) w).
  { split; [done|]. split; [eapply Forall_impl; [exact Hq|]; by intros []|]. right. split; [done|].
    apply Exists_exists in He as (t & [i Hi]%list_elem_of_lookup_1 & Ht). by exists i, t. }
  assert (H1 : settling (table w) (in_force w) w').
  { by eapply settling_run. }
  destruct H1 as (Ht & _ & [Ha|[_ (i & t & Hi & Hre)]]); [done|].
  apply (Forall_lookup_1 _ _ _ _ Hd) in Hi. by destruct t.
Qed.
End refresh.
(** ** The checker of the query rules *)
Section checker.
Context {D : Type} {RD : RulesDB D} {SE : ErrorText}.

(** [Reload] publishes a snapshot, or fails before. *)
Definition checker_load (d : D) : option (option Access.aclSnapshot) :=
  match Access.Reload (Some (Rules.ListRules (Some d))) None with
  | (snap, None) => Some snap
  | (_, Some _) => None
  end.

Lemma load_is_reload d c : default c (checker_load d) = (Access.Reload (Some (Rules.ListRules (Some d))) c).1.
Proof.
  unfold checker_load, Access.Reload. destruct (Rules.ListRules (Some d)) as [rules|e]; [|done].
  by destruct (Access.reloadLoop _ rules).
Qed.

Definition insert_rule (subnet description action : string) (d : D) : D * bool :=
  match Rules.InsertRule (Some d) subnet description action with
  | (Some d, r) => (d, is_ok r)
  | (None, r) => (d, is_ok r)
  end.

(** One request at a time: the table it leaves is the one in force. *)
Lemma alone_in_force op d c d' : op d = (d', true) →
  schedule checker_load [0; 0; 0] (MkWorld [Change op] d c) =
  MkWorld [Done true] d' (Access.Reload (Some (Rules.ListRules (Some d'))) c).1.
Proof. intros E. cbn. rewrite E. cbn. by rewrite load_is_reload. Qed.
End checker.

(** Two subnets are blocked, both requests are answered, and clients of one of them
    are served until the next change: the first read the table before the second
    changed it, and published after. *)
Definition demo_block (subnet : string) : task (S := gmap Z rule_row) (A := option Access.aclSnapshot) :=
  Change (insert_rule subnet "" "block").
Lemma answered_rule_not_in_force :
  let w := schedule checker_load [0; 0; 1; 1; 1; 0] (MkWorld [demo_block "10.0.0.0/8"; demo_block "192.168.0.0/16"] ∅ None) in
  tasks w = [Done true; Done true] ∧ size (table w) = 2 ∧
  Access.Allowed (Some (in_force w)) (A4 (192 * 2 ^ 24 + 168 * 2 ^ 16 + 1)) = true ∧
  Access.Allowed (Some (default None (checker_load (table w)))) (A4 (192 * 2 ^ 24 + 168 * 2 ^ 16 + 1)) = false.
Proof. cbn zeta. split_and!; by vm_compute. Qed.

End Refresh.
