(* ===== verification/Http.v ===== *)
(** * Requests to the management API: api/server.go, logs.go and audit.go

    What the handlers see of a request, the routes of the multiplexer, the two
    gates that ask for the token, and the parts of the audit record. The body
    comes with the error that may end it; decoding JSON is an interface, as
    are the values of the query string and the headers, which net/http has
    parsed. Requests have a clean path without escaped slashes (the
    multiplexer redirects the others). *)
From S2P Require Import Prelude Encoding Files Upstream.

Record request := MkRequest {
  rq_method : string; rq_path : string;
  rq_query : list (string * string); rq_headers : list (string * string);
  rq_remote : string; rq_body : option (string * option error)
}.

(** [json.Unmarshal] of a text, and [json.NewDecoder(r).Decode], which reads one
    value or finds the end of the body. *)
Inductive decoded (A : Type) := Decoded (a : A) | DecodeEOF | DecodeErr.
Arguments Decoded {A} _.
Arguments DecodeEOF {A}.
Arguments DecodeErr {A}.
Class Json (A : Type) := {
  json_unmarshal : string → option A;
  json_decode : string * option error → decoded A
}.

Module Http.

Definition StatusOK : N := 200.
Definition StatusCreated : N := 201.
Definition StatusAccepted : N := 202.
Definition StatusBadRequest : N := 400.
Definition StatusUnauthorized : N := 401.
Definition StatusNotFound : N := 404.
Definition StatusMethodNotAllowed : N := 405.
Definition StatusConflict : N := 409.
Definition StatusInternalServerError : N := 500.
Definition StatusServiceUnavailable : N := 503.

(** [Header.Get] and [Query().Get]: the first value, or none. *)
Fixpoint header_get (k : string) (hs : list (string * string)) : string :=
  match hs with
  | [] => ""
  | (k', v) :: hs => if equal_fold k k' then v else header_get k hs
  end.
Fixpoint query_get (k : string) (q : list (string * string)) : string :=
  match q with
  | [] => ""
  | (k', v) :: q => if bool_decide (k = k') then v else query_get k q
  end.

(** [Header.Set]. *)
Definition header_set (k v : string) (rq : request) : request :=
  MkRequest (rq_method rq) (rq_path rq) (rq_query rq)
    ((k, v) :: List.filter (λ kv, negb (equal_fold k kv.1)) (rq_headers rq)) (rq_remote rq) (rq_body rq).

(** ** Routes *)
Inductive seg := Lit (s : string) | Var (x : string) | Rest.

#[export] Instance seg_eq_dec : EqDecision seg.
Proof. solve_decision. Defined.

Definition path_segs (path : string) : list string := split (trim_prefix path "/") "/".

(** The wildcards with their values, where the path matches. *)
Fixpoint match_segs (pat : list seg) (path : list string) : option (list (string * string)) :=
  match pat, path with
  | [], [] => Some []
  | [Rest], _ => Some []
  | Lit s :: pat, p :: path => if bool_decide (s = p) then match_segs pat path else None
  | Var x :: pat, p :: path =>
      if bool_decide (p = "") then None else cons (x, p) <$> match_segs pat path
  | _, _ => None
  end.

(** A pattern for GET also takes HEAD. *)
Definition method_matches (pattern method : string) : bool :=
  bool_decide (pattern = method) || (bool_decide (pattern = "GET") && bool_decide (method = "HEAD")).

Section mux.
Context {H : Type}.

Record route := MkRoute { rt_method : string; rt_path : list seg; rt_handler : H }.

(** The routes are in an order in which the more specific come first. *)
Fixpoint find_route (routes : list route) (method : string) (path : list string)
    : option (H * list (string * string)) :=
  match routes with
  | [] => None
  | r :: routes =>
      if method_matches (rt_method r) method then
        match match_segs (rt_path r) path with
        | Some vs => Some (rt_handler r, vs)
        | None => find_route routes method path
        end
      else find_route routes method path
  end.

Definition path_known (routes : list route) (path : list string) : bool :=
  existsb (λ r, match match_segs (rt_path r) path with Some _ => true | None => false end) routes.
End mux.
Arguments route : clear implicits.

(** ** The token *)
Definition unauthorizedHeader := "missing or invalid authorization header".
Definition unauthorizedToken := "invalid bearer token".

(** [bearerAuth]: the message of a refusal. *)
Definition bearerAuth (token : string) (rq : request) : option string :=
  let raw := trim_space (header_get "Authorization" (rq_headers rq)) in
  if negb (has_prefix raw "Bearer ") then Some unauthorizedHeader
  else
    let provided := trim_space (trim_prefix raw "Bearer ") in
    if negb (bool_decide (provided = token)) then Some unauthorizedToken else None.

(** [bearerAuthOrQueryToken]: the request its handler sees, or a refusal. *)
Definition bearerAuthOrQueryToken (token : string) (rq : request) : string + request :=
  let gate rq := match bearerAuth token rq with Some e => inl e | None => inr rq end in
  if negb (bool_decide (trim_space (header_get "Authorization" (rq_headers rq)) = "")) then gate rq
  else
    let queryToken := trim_space (query_get "token" (rq_query rq)) in
    if bool_decide (queryToken = "") then inl unauthorizedHeader
    else gate (header_set "Authorization" ("Bearer " +:+ queryToken) rq).

(** ** audit.go *)
Definition writes (method : string) : bool :=
  bool_decide (method ∈ ["POST"; "PUT"; "PATCH"; "DELETE"]).

Definition shouldAuditRequest (rq : request) : bool :=
  writes (rq_method rq) && has_prefix (rq_path rq) "/api/v1/".

Definition auditAction (rq : request) : string :=
  let m x := bool_decide (rq_method rq = x) in
  let p := rq_path rq in
  if m "POST" && has_suffix p "/firewall/sync" then "sync_blocklists"
  else if m "POST" && has_suffix p "/firewall/sources" then "create_blocklist_source"
  else if m "DELETE" && has_prefix p "/api/v1/firewall/sources/" then "delete_blocklist_source"
  else if m "PATCH" && has_prefix p "/api/v1/firewall/sources/" then "update_blocklist_source"
  else if m "POST" && has_suffix p "/records" then "create_record"
  else if m "PUT" && contains p "/records" then "update_record"
  else if m "DELETE" && contains p "/records" then "delete_record"
  else if m "POST" && has_suffix p "/reload" then "reload_zones"
  else if m "POST" && has_suffix p "/zones" then "create_zone"
  else if m "DELETE" && has_prefix p "/api/v1/zones/" && negb (contains p "/records") then "delete_zone"
  else if m "POST" && has_suffix p "/settings/acl" then "create_acl_rule"
  else if m "PUT" && has_prefix p "/api/v1/settings/acl/" then "update_acl_rule"
  else if m "DELETE" && has_prefix p "/api/v1/settings/acl/" then "delete_acl_rule"
  else if m "PUT" && bool_decide (p = "/api/v1/config") then "update_config"
  else if m "PUT" && bool_decide (p = "/api/v1/logs/config") then "update_log_config"
  else if m "POST" && has_suffix p "/dnssec/enable" then "enable_dnssec"
  else if m "POST" && has_suffix p "/dnssec/disable" then "disable_dnssec"
  else to_lower (rq_method rq) +:+ " " +:+ p.

(** [r.PathValue], of the wildcards of the route the request took. *)
Definition PathValue (x : string) (vars : list (string * string)) : string := query_get x vars.

Definition auditTarget (vars : list (string * string)) : string :=
  let zone := trim_space (PathValue "zone" vars) in
  if negb (bool_decide (zone = "")) then zone
  else
    let id := trim_space (PathValue "id" vars) in
    if negb (bool_decide (id = "")) then id else "".

Definition auditDetails (rq : request) (status : N) (success : bool) (recordType : string) : string :=
  let details := "method=" +:+ rq_method rq +:+ " path=" +:+ rq_path rq +:+ " status=" +:+ format_uint status
    +:+ " success=" +:+ (if success then "true" else "false") in
  let recordType := to_upper (trim_space recordType) in
  if negb (bool_decide (recordType = "")) then details +:+ " type=" +:+ recordType else details.

Definition shouldInspectBody (rq : request) : bool :=
  match rq_body rq with
  | None => false
  | Some _ => bool_decide (rq_method rq ∈ ["POST"; "PUT"]) && contains (rq_path rq) "/records"
  end.

(** The body in full and the request with it back; on an error what was read
    is lost. *)
Definition readAndRestoreBody (rq : request) : string * request :=
  let set b := MkRequest (rq_method rq) (rq_path rq) (rq_query rq) (rq_headers rq) (rq_remote rq) b in
  match rq_body rq with
  | None => ("", rq)
  | Some (body, None) => (body, set (Some (body, None)))
  | Some (body, Some e) => ("", set (Some ("", Some e)))
  end.

Definition extractRecordType {J : Json string} (body : string) : string :=
  if bool_decide (body = "") then ""
  else match json_unmarshal body with Some t => to_upper (trim_space t) | None => "" end.

Definition clientIP (rq : request) : string :=
  let forwarded := trim_space (header_get "X-Forwarded-For" (rq_headers rq)) in
  let first := trim_space (hd "" (split forwarded ",")) in
  if negb (bool_decide (forwarded = "")) && negb (bool_decide (first = "")) then first
  else
    match Upstream.SplitHostPort (trim_space (rq_remote rq)) with
    | inl (host, _) => if negb (bool_decide (host = "")) then host else trim_space (rq_remote rq)
    | inr _ => trim_space (rq_remote rq)
    end.

(** * Lemmas *)
Lemma bearer_some token rq : bearerAuth token rq = None →
  ∃ t, trim_space (header_get "Authorization" (rq_headers rq)) = "Bearer " +:+ t ∧ trim_space t = token.
Proof.
  unfold bearerAuth. destruct (has_prefix _ "Bearer ") eqn:Hp; [|done]. cbn [negb].
  apply has_prefix_spec in Hp as [t Ht]. rewrite Ht, trim_prefix_app.
  case_bool_decide as E; [|done]. intros _. by exists t.
Qed.

Lemma drop_while_nil {A} (p : A → bool) l : drop_while p l = [] → Forall (λ x, p x = true) l.
Proof.
  induction l as [|x l IH]; cbn [drop_while]; [constructor|]. destruct (p x) eqn:E; [|done].
  intros H. constructor; [done|by apply IH].
Qed.

Lemma trim_nil t : trim_space t = "" → Forall (λ c, is_space c = true) (bytes t).
Proof.
  intros H%(f_equal bytes). unfold trim_space in H. rewrite bytes_mk in H. unfold trim, drop_while_end in H.
  apply (f_equal reverse) in H. rewrite reverse_involutive in H. apply drop_while_nil in H. rewrite Forall_reverse in H.
  pose proof (drop_while_starts is_space (bytes t)) as Hs.
  destruct (drop_while is_space (bytes t)) as [|c l] eqn:E; [by apply drop_while_nil|].
  apply Forall_cons in H as [Hc _]. unfold starts_ok in Hs. congruence.
Qed.

(** What stands after a blank in a trimmed text is not blank. *)
Lemma trim_nonempty p t : trimmed (p +:+ t) → (∃ q, p = q +:+ " ") → trim_space t ≠ "".
Proof.
  intros [_ Hl] [q ->] Ht. apply trim_nil in Ht. rewrite !bytes_app in Hl.
  assert (Hsp : Forall (λ c, is_space c = true) (bytes " " ++ bytes t)) by (constructor; done).
  rewrite <-app_assoc, reverse_app in Hl. apply Forall_reverse in Hsp.
  destruct (reverse (bytes " " ++ bytes t)) as [|c l] eqn:E.
  - apply (f_equal reverse) in E. by rewrite reverse_involutive in E.
  - apply Forall_cons in Hsp as [Hc _]. cbn in Hl. congruence.
Qed.

(** The gates: nobody passes with an empty token, and a refusal is all a
    request without the token gets. *)
Lemma bearer_token token rq : bearerAuth token rq = None →
  token ≠ "" ∧ ∃ t, trim_space (header_get "Authorization" (rq_headers rq)) = "Bearer " +:+ t ∧ trim_space t = token.
Proof.
  intros H. destruct (bearer_some _ _ H) as (t & Ht & <-). split; [|by exists t].
  apply (trim_nonempty "Bearer "); [|by exists "Bearer"]. rewrite <-Ht. auto with arx.
Qed.

Lemma query_token token rq rq' : bearerAuthOrQueryToken token rq = inr rq' →
  token ≠ "" ∧ (bearerAuth token rq = None ∨ trim_space (query_get "token" (rq_query rq)) = token).
Proof.
  unfold bearerAuthOrQueryToken. case_bool_decide as Ha; cbn [negb].
  - case_bool_decide as Hq; [done|]. set (rq1 := header_set _ _ rq).
    destruct (bearerAuth token rq1) eqn:E; [done|]. intros [= <-].
    apply bearer_token in E as [Hne (t & Ht & <-)]. split; [done|]. right.
    subst rq1. cbn [header_set rq_headers header_get] in Ht.
    change (equal_fold "Authorization" "Authorization") with true in Ht. cbn beta iota in Ht. set (q := trim_space (query_get "token" (rq_query rq))) in *.
    assert (Hq' : trimmed ("Bearer " +:+ q)).
    { assert (Htq : trimmed q) by (subst q; auto with arx). destruct Htq as [_ H2]. unfold trimmed. rewrite !bytes_app.
      split; [done|]. rewrite reverse_app. destruct (reverse (bytes q)) as [|c l] eqn:Er; [|done].
      apply (f_equal reverse) in Er. rewrite reverse_involutive in Er. cbn in Er. by apply bytes_nil in Er. }
    rewrite trimmed_trim in Ht by exact Hq'. apply (f_equal (λ s, trim_prefix s "Bearer ")) in Ht.
    rewrite !trim_prefix_app in Ht. rewrite <-Ht. symmetry. apply trimmed_trim. subst q. auto with arx.
  - destruct (bearerAuth token rq) eqn:E; [done|]. intros [= <-].
    split; [by apply bearer_token in E as [? _]|by left].
Qed.

End Http.
