(* ===== verification/WebUI.v ===== *)
(** * The user interface in the binary: api/webui_common.go, webui_disabled.go
      and webui_enabled.go

    Two builds: without the tag webui every page is missing, with it the files
    of the directory dist are served without a token. What a build embeds is a
    parameter. *)
From S2P Require Import Prelude Files Http.
Import Http.

(** The embedded files, with [fs.ErrNotExist] told apart, and [mime.TypeByExtension]. *)
Record embedded := MkEmbedded {
  dist : option (string → string + bool);
  mime_type : string → string
}.
(** The build: with the files, or none. *)
Class WebBuild := { web_ui : option embedded }.

Module WebUI.

(** ** webui_common.go *)
Definition isReservedWebPath (path : string) : bool :=
  bool_decide (path = "health") || bool_decide (path = "metrics") || has_prefix path "api/".

(** Status, Content-Type, Content-Length and body. *)
Record reply := MkReply { status : N; content_type : string; content_length : option nat; content : string }.
(** [http.Error] and [http.NotFound]. *)
Definition httpError (text : string) (code : N) : reply :=
  MkReply code "text/plain; charset=utf-8" None (text +:+ mk [ascii_of_N 10]).
Definition notFound : reply := httpError "404 page not found" StatusNotFound.

(** ** webui_disabled.go *)
Definition webuiUnavailable := "WebUI is not available in this build (rebuild with -tags webui)".
Definition handleWebUIDisabled (method path : string) : reply :=
  if negb (bool_decide (method = "GET")) && negb (bool_decide (method = "HEAD"))
  then httpError "method not allowed" StatusMethodNotAllowed
  else if isReservedWebPath (trim_prefix path "/") then notFound
  else httpError webuiUnavailable StatusNotFound.

(** ** webui_enabled.go *)
Section enabled.
Variable ui : embedded.

Definition contentType (name : string) : string :=
  if has_suffix name ".html" then "text/html; charset=utf-8"
  else let t := mime_type ui (path_ext name) in if bool_decide (t = "") then "application/octet-stream" else t.

Definition file (method name data : string) : reply :=
  if bool_decide (method = "HEAD") then MkReply StatusOK (contentType name) (Some (slen data)) ""
  else MkReply StatusOK (contentType name) None data.

(** The call for the index page, which does not call again. *)
Definition serveIndex (read : string → string + bool) (method : string) : reply :=
  match read "index.html" with inl data => file method "index.html" data | inr _ => notFound end.
Definition serveWebUIFile (read : string → string + bool) (method name : string) : reply :=
  let name := if bool_decide (name = "") || bool_decide (name = ".") || bool_decide (name = "/") then "index.html" else name in
  match read name with
  | inl data => file method name data
  | inr missing => if missing && negb (bool_decide (name = "index.html")) then serveIndex read method else notFound
  end.

Definition requested (path : string) : string := trim_prefix (path_clean path) "/".
Definition newWebUIHandler (method path : string) : reply :=
  match dist ui with None => notFound | Some read => serveWebUIFile read method (requested path) end.

Definition handleWebUI (method path : string) : reply :=
  if negb (bool_decide (method = "GET")) && negb (bool_decide (method = "HEAD"))
  then httpError "method not allowed" StatusMethodNotAllowed
  else if isReservedWebPath (trim_prefix path "/") then notFound
  else newWebUIHandler method path.

(** * Lemmas *)
Definition segment_ok (s : string) : Prop := s ≠ "" ∧ s ≠ "." ∧ s ≠ "..".

Lemma clean_segments segs out : Forall segment_ok out → Forall segment_ok (foldl (clean_step true) out segs).
Proof.
  revert out. induction segs as [|s segs IH]; intros out Ho; cbn; [done|]. apply IH. unfold clean_step.
  destruct (decide (s = "")) as [->|H1]; [done|]. destruct (decide (s = ".")) as [->|H2]; [done|].
  rewrite !bool_decide_false by done. cbn [orb]. case_bool_decide as H3; [|apply Forall_app; by repeat constructor].
  destruct (last out) as [l|] eqn:El; [|constructor].
  apply last_Some in El as [l' ->]. apply Forall_app in Ho as [Ho Hl]. apply Forall_cons in Hl as [(_ & _ & Hl) _].
  rewrite bool_decide_false by done. by rewrite removelast_last.
Qed.

Lemma requested_inside path : has_prefix path "/" = true →
  ∃ segs, requested path = join segs "/" ∧ Forall segment_ok segs.
Proof.
  intros Hp. unfold requested, path_clean. rewrite Hp. eexists. split; [apply trim_prefix_app|]. by apply clean_segments.
Qed.

Lemma served_file read method name : let r := serveWebUIFile read method name in status r = StatusOK →
  ∃ name' data, (name' = name ∨ name' = "index.html") ∧ read name' = inl data ∧ r = file method name' data.
Proof.
  unfold serveWebUIFile, serveIndex. set (n := if _ || _ || _ then _ else name).
  assert (Hn : n = name ∨ n = "index.html") by (unfold n; case_match; auto). clearbody n.
  destruct (read n) as [data|missing] eqn:Er; [intros _; by exists n, data|].
  destruct (_ && _); [|done]. destruct (read "index.html") as [data|?] eqn:Ei; [intros _|done].
  exists "index.html", data. auto.
Qed.

(** no request reads outside the embedded directory: what is served with status
    200 is, unaltered, either the index page or the file whose name is the
    cleaned path, a sequence of proper segments whatever dots the path holds; a
    HEAD request gets its length and no body; and the names of the API, of the
    metrics and of the health check are never looked up. *)
Theorem webui_stays_inside method path : has_prefix path "/" = true → status (handleWebUI method path) = StatusOK →
  ∃ read segs name data, dist ui = Some read ∧ Forall segment_ok segs ∧
    (name = join segs "/" ∨ name = "index.html") ∧ read name = inl data ∧
    isReservedWebPath (trim_prefix path "/") = false ∧
    handleWebUI method path = MkReply StatusOK (contentType name)
      (if bool_decide (method = "HEAD") then Some (slen data) else None) (if bool_decide (method = "HEAD") then "" else data).
Proof.
  intros Hp. unfold handleWebUI, newWebUIHandler. destruct (_ && _); [done|].
  destruct (isReservedWebPath _); [done|]. destruct (dist ui) as [read|]; [|done].
  intros (name & data & Hn & Hr & Hf)%served_file. destruct (requested_inside path Hp) as (segs & Hs & Hok).
  exists read, segs, name, data. rewrite Hs in Hn. split_and!; try done. rewrite Hf. unfold file. by case_bool_decide.
Qed.
End enabled.

(** The handler of the build. *)
Definition handle {WB : WebBuild} (method path : string) : reply :=
  match web_ui with Some ui => handleWebUI ui method path | None => handleWebUIDisabled method path end.

(** A page that is there: a file of the build, the one the cleaned path names
    or the index page. *)
Definition serves_file {WB : WebBuild} (method path : string) (r : reply) : Prop :=
  ∃ ui read name data, web_ui = Some ui ∧ dist ui = Some read ∧
    (name = requested path ∨ name = "index.html") ∧ read name = inl data ∧
    (method = "GET" ∨ method = "HEAD") ∧ isReservedWebPath (trim_prefix path "/") = false ∧
    r = MkReply StatusOK (contentType ui name)
      (if bool_decide (method = "HEAD") then Some (slen data) else None)
      (if bool_decide (method = "HEAD") then "" else data).

Lemma handle_success {WB : WebBuild} method path :
  (StatusOK <=? status (handle method path))%N && (status (handle method path) <? StatusBadRequest)%N = true →
  serves_file method path (handle method path).
Proof.
  unfold handle, serves_file. destruct web_ui as [ui|].
  2:{ unfold handleWebUIDisabled. destruct (negb _ && negb _); [done|]. by destruct (isReservedWebPath _). }
  unfold handleWebUI. destruct (negb _ && negb _) eqn:Em; [done|].
  assert (Hm : method = "GET" ∨ method = "HEAD") by (destruct (decide (method = "GET")); [by left|]; destruct (decide (method = "HEAD")); [by right|];
        by rewrite !bool_decide_false in Em).
  destruct (isReservedWebPath _) eqn:Er; [done|]. unfold newWebUIHandler.
  destruct (dist ui) as [read|] eqn:Ed; [|done]. intros Hs.
  assert (Hs' : status (serveWebUIFile ui read method (requested path)) = StatusOK).
  { revert Hs. unfold serveWebUIFile, serveIndex, file. set (n := if _ || _ || _ then _ else requested path).
    destruct (read n) as [d|missing]; [by destruct (bool_decide (method = "HEAD"))|].
    destruct (missing && _); [|by intros [=]]. destruct (read "index.html"); [by destruct (bool_decide (method = "HEAD"))|by intros [=]]. }
  apply served_file in Hs' as (name & data & Hn & Hr & ->). exists ui, read, name, data.
  split_and!; try done. unfold file. by destruct (bool_decide (method = "HEAD")) eqn:E.
Qed.
End WebUI.
