(* ===== verification/Watcher.v ===== *)
(** * File watchers: storage/watcher.go and firewall/watcher.go

    Both watchers wait for notifications of a directory, restart a timer on
    each relevant one, and reload when the timer fires. The machine is shared:
    what is loaded, and what a notification does, are its parameters. The
    library fsnotify is the queue of events; times are milliseconds. *)
From S2P Require Import Prelude Radix Names Dns Files Tree Signer KeyStore Store Firewall Feeds.

(** [fsnotify.Event]: a path and the operations that changed it. *)
Record event := MkEvent {
  ev_name : string; op_create : bool; op_write : bool; op_remove : bool; op_rename : bool; op_chmod : bool
}.

(** [fsnotify.NewWatcher], [Watcher.Add] and, for the watch that is added
    later, [os.Stat]. *)
Class FsNotify (W : Type) := {
  new_watcher : option error;
  watch_add : W → string → option error;
  watch_stat : W → string → bool
}.

Module Watcher.

Definition defaultReloadDebounce : N := 500.

Definition has_change (e : event) : bool := op_create e || op_write e || op_remove e.

Definition isBlocklistFileEvent (e : event) : bool :=
  if equal_fold (path_ext (ev_name e)) ".zone" then false else has_change e.

Definition isZoneFileEvent (e : event) : bool :=
  if equal_fold (path_ext (ev_name e)) ".zone" then has_change e else false.

Definition isInternalDirCreate (e : event) (root : string) : bool :=
  bool_decide (ev_name e = path_join [root; Store.internalViewDir]) && op_create e.

(** ** The machine *)
Section machine.
(** Files, what is loaded from them, and what the watcher watches. *)
Context {F L A : Type}.
Variable load : F → L → L.
(** A notification: whether it schedules a reload, and the watches after it. *)
Variable on_event : event → F → A → bool * A.
Variable debounce : N.

Record watcher := MkWatcher {
  now : N; contents : F; loaded : L; watches : A;
  queue : list event; timer : option N; running : bool
}.

(** [scheduleReload]: the old timer is stopped, a new one is set. *)
Definition scheduleReload (s : watcher) : watcher :=
  MkWatcher (now s) (contents s) (loaded s) (watches s) (queue s) (Some (now s + debounce)%N) (running s).

Definition reload (s : watcher) : watcher :=
  MkWatcher (now s) (contents s) (load (contents s) (loaded s)) (watches s) (queue s) None (running s).

Definition handleEvent (e : event) (rest : list event) (s : watcher) : watcher :=
  let '(relevant, a) := on_event e (contents s) (watches s) in
  let s := MkWatcher (now s) (contents s) (loaded s) a rest (timer s) (running s) in
  if relevant then scheduleReload s else s.

(** [ctx.Done()]. *)
Definition cancel (s : watcher) : watcher :=
  MkWatcher (now s) (contents s) (loaded s) (watches s) (queue s) None false.

(** A closed channel ends the loop; a timer that is set still fires. *)
Definition closed (s : watcher) : watcher :=
  MkWatcher (now s) (contents s) (loaded s) (watches s) (queue s) (timer s) false.

(** The notifications that the watches in force give for a change. *)
Variable notified : A → F → F → list event → Prop.

(** [runWatcher] among the changes of its environment. *)
Inductive watch_step : watcher → watcher → Prop :=
| ws_tick s t :
    watch_step s (MkWatcher (now s + t) (contents s) (loaded s) (watches s) (queue s) (timer s) (running s))
| ws_change s f es :
    notified (watches s) (contents s) f es →
    watch_step s (MkWatcher (now s) f (loaded s) (watches s) (queue s ++ es) (timer s) (running s))
| ws_event s e rest :
    running s = true → queue s = e :: rest → watch_step s (handleEvent e rest s)
| ws_error s : running s = true → watch_step s s
| ws_fire s d : timer s = Some d → (d <= now s)%N → watch_step s (reload s)
| ws_cancel s : running s = true → watch_step s (cancel s)
| ws_closed s : running s = true → watch_step s (closed s).

Definition started (t : N) (f : F) (l : L) (a : A) : watcher := MkWatcher t f l a [] None true.

(** What is loaded is what the files hold. *)
Definition in_sync (s : watcher) : Prop := load (contents s) (loaded s) = loaded s.
End machine.
Arguments watcher : clear implicits.
Arguments MkWatcher {F L A}.

(** ** Starting *)
Section start.
Context {W : Type} {FN : FsNotify W}.

(** [firewall.StartWatcher]: nothing to do without an engine. *)
Definition startFirewallWatcher {L} (dir : string) (engine : option L) (t : N) (f : W)
    : option error * option (watcher W L ()) :=
  match engine with
  | None => (None, None)
  | Some e =>
      match new_watcher with
      | Some err => (Some err, None)
      | None =>
          match watch_add f dir with
          | Some err => (Some err, None)
          | None => (None, Some (started t f e ()))
          end
      end
  end.

(** The internal directory is watched when it exists and can be. *)
Definition watchInternalDir (root : string) (f : W) (watched : bool) : bool :=
  let internalDir := path_join [root; Store.internalViewDir] in
  if negb (watch_stat f internalDir) then watched
  else match watch_add f internalDir with Some _ => watched | None => true end.

(** [storage.StartWatcher]. *)
Definition startZoneWatcher {L} (dir : string) (store : L) (t : N) (f : W)
    : option error * option (watcher W L bool) :=
  match new_watcher with
  | Some err => (Some err, None)
  | None =>
      match watch_add f dir with
      | Some err => (Some err, None)
      | None => (None, Some (started t f store (watchInternalDir dir f false)))
      end
  end.

Definition blocklistEvent (e : event) (f : W) (a : ()) : bool * () := (isBlocklistFileEvent e, a).

Definition zoneEvent (dir : string) (e : event) (f : W) (watched : bool) : bool * bool :=
  let watched := if op_create e && isInternalDirCreate e dir then watchInternalDir dir f watched else watched in
  (isZoneFileEvent e, watched).

End start.

(** * Lemmas *)
Section settle.
Context {F L A : Type} (load : F → L → L) (on_event : event → F → A → bool * A) (debounce : N).
Context (notified : A → F → F → list event → Prop).

Definition relevant (e : event) : Prop := ∀ f a, (on_event e f a).1 = true.

(** A change either leaves what would be loaded, or is notified. *)
Definition tells : Prop := ∀ a f f' es, notified a f f' es →
  (∀ l, load f' l = load f l) ∨ ∃ e, e ∈ es ∧ relevant e.

Notation step := (watch_step load on_event debounce notified).

(** A change that is not loaded yet has a notification or a timer waiting, and
    a timer is due within the delay. *)
Definition pending_ok (s : watcher F L A) : Prop :=
  (running s = true → in_sync load s ∨ is_Some (timer s) ∨ ∃ e, e ∈ queue s ∧ relevant e) ∧
  ∀ d, timer s = Some d → (d <= now s + debounce)%N.

Hypothesis load_idem : ∀ f l, load f (load f l) = load f l.
Hypothesis Htells : tells.

Lemma step_pending s s' : step s s' → pending_ok s → pending_ok s'.
Proof.
  intros Hs [H1 H2]. destruct Hs as [s t|s f es Hn|s e rest Hr Hq|s Hr|s d Hd Hle|s Hr|s Hr].
  - split; [exact H1|]. cbn. intros d Hd. specialize (H2 d Hd). lia.
  - split; [|exact H2]. cbn. intros Hr. unfold in_sync in *. cbn.
    destruct (Htells _ _ _ _ Hn) as [Hl|(e & He & Hrel)].
    + rewrite Hl. destruct (H1 Hr) as [?|[?|(e & He & ?)]]; [by left|by right; left|].
      right; right. exists e. split; [|done]. apply elem_of_app. by left.
    + right; right. exists e. split; [|done]. apply elem_of_app. by right.
  - unfold handleEvent. destruct (on_event e (contents s) (watches s)) as [b a] eqn:Eo. destruct b.
    + split; cbn; [by right; left; eexists|]. intros d [= <-]. lia.
    + split; [|exact H2]. cbn. intros _. destruct (H1 Hr) as [?|[?|(e' & He & Hrel)]]; [by left|by right; left|].
      rewrite Hq in He. apply elem_of_cons in He as [->|He]; [|by right; right; exists e'].
      specialize (Hrel (contents s) (watches s)). by rewrite Eo in Hrel.
  - by split.
  - split; [|done]. intros _. left. unfold in_sync, reload. cbn. apply load_idem.
  - split; [done|]. done.
  - split; [done|]. exact H2.
Qed.

Lemma reachable_pending t f l a s :
  load f l = l → rtc step (started t f l a) s → pending_ok s.
Proof.
  intros Hl Hr. assert (H0 : pending_ok (started t f l a)) by (split; [by left|done]).
  remember (started t f l a) as s0 eqn:E. clear E.
  induction Hr as [|s1 s2 s3 Hs _ IH]; [done|]. apply IH. by eapply step_pending.
Qed.

(** The loop empties the queue without time passing. *)
Lemma drain s : running s = true →
  ∃ s', rtc step s s' ∧ contents s' = contents s ∧ now s' = now s ∧ queue s' = [] ∧ running s' = true.
Proof.
  remember (queue s) as q eqn:Eq. revert s Eq. induction q as [|e q IH]; intros s Eq Hr.
  - exists s. by split_and!.
  - assert (Hh : contents (handleEvent on_event debounce e q s) = contents s ∧
      now (handleEvent on_event debounce e q s) = now s ∧ queue (handleEvent on_event debounce e q s) = q ∧
      running (handleEvent on_event debounce e q s) = true).
    { unfold handleEvent. destruct (on_event e _ _) as [[] a]; by split_and!. }
    destruct Hh as (Hc & Hn & Hq & Hr').
    destruct (IH (handleEvent on_event debounce e q s)) as (s' & Hs' & ? & ? & ? & ?); [done|done|].
    exists s'. split_and!; [|congruence..]. eapply rtc_l; [|exact Hs']. by apply ws_event.
Qed.

(** Nothing is lost: a quiet watcher is in sync, and a running one is in sync
    one delay after the last change. *)
Lemma settles t f l a s :
  load f l = l → rtc step (started t f l a) s → running s = true →
  (queue s = [] → timer s = None → in_sync load s) ∧
  ∃ s', rtc step s s' ∧ contents s' = contents s ∧ (now s' <= now s + debounce)%N ∧
    queue s' = [] ∧ running s' = true ∧ in_sync load s'.
Proof.
  intros Hl Hreach Hr. split.
  - intros Hq Ht. destruct (reachable_pending _ _ _ _ _ Hl Hreach) as [H1 _].
    destruct (H1 Hr) as [?|[[d Hd]|(e & He & _)]]; [done|congruence|]. rewrite Hq in He. by apply elem_of_nil in He.
  - destruct (drain s Hr) as (s1 & H1 & Hc & Hn & Hq & Hr1).
    assert (Hp : pending_ok s1) by (eapply reachable_pending; [exact Hl|by etransitivity]).
    destruct Hp as [P1 P2]. destruct (timer s1) as [d|] eqn:Et.
    + specialize (P2 d eq_refl).
      set (s2 := MkWatcher (now s1 + (d - now s1)) (contents s1) (loaded s1) (watches s1) (queue s1) (timer s1) (running s1)).
      exists (reload load s2). split_and!; [|done|cbn; lia|done|done|by apply load_idem].
      transitivity s1; [done|]. eapply rtc_l; [apply ws_tick|]. apply rtc_once. eapply ws_fire; [exact Et|cbn; lia].
    + exists s1. split_and!; [done|done|lia|done|done|].
      destruct (P1 Hr1) as [?|[[d [=]]|(e & He & _)]]; [done|]. rewrite Hq in He. by apply elem_of_nil in He.
Qed.
End settle.

(** ** The two watchers *)
Section instances.
Context {T : Type → Type} {RO : RadixOps T}.

(** [LoadFromDirWithDB] of the firewall, over the files. *)
Definition loadLists {W} {FS : FileSys W} (dir : string) (db : option Firewall.DB) (w : W)
    (e : Firewall.Engine T) : Firewall.Engine T :=
  Firewall.LoadFromDirWithDB (Feeds.read_list_dir w dir) db e.

Lemma loadLists_idem {W} {FS : FileSys W} dir db (w : W) e :
  loadLists dir db w (loadLists dir db w e) = loadLists dir db w e.
Proof.
  unfold loadLists, Firewall.LoadFromDirWithDB.
  by destruct (Firewall.buildTreeFromDir (T := T) (Feeds.read_list_dir w dir) db) as [[[t n] k] c].
Qed.

Context {W D : Type} {FS : FileSys W} {ZP : ZoneParser}.

(** [LoadZonesFromDir] on the store, over the files. *)
Definition loadZones (dir : string) (d : D) (w : W) (m : Store.Memory T) : Store.Memory T :=
  Store.mem (Store.LoadZonesFromDir dir (Store.MkSystem m w d)).

(** Building a tree looks at nothing of the store but the registry, and
    changes nothing else. *)
Definition same_registry (m m' : Store.Memory T) : Prop :=
  Store.byKey m = Store.byKey m' ∧ Store.origins m = Store.origins m'.
Definition same_rest (m m' : Store.Memory T) : Prop :=
  Store.hints m = Store.hints m' ∧ Store.dnssec_on m = Store.dnssec_on m' ∧
  Store.public m = Store.public m' ∧ Store.internal m = Store.internal m'.

Lemma entry_registry w dir v e t m n k m' n' k' :
  same_registry m m' →
  let r := Store.loadEntry w dir v (t, m, n, k) e in let r' := Store.loadEntry w dir v (t, m', n', k') e in
  r.1.1.1 = r'.1.1.1 ∧ same_registry r.1.1.2 r'.1.1.2 ∧ same_rest m r.1.1.2.
Proof.
  intros Hm. cbn zeta. unfold Store.loadEntry.
  destruct (de_is_dir e); [done|]. destruct (negb _); [done|].
  destruct (Store.loadZoneFile w _ t) as [t1 [o|]]; [|done]. cbn [fst snd].
  destruct Hm as [Hk Ho]. split_and!; [done| |done]. unfold Store.RegisterZone, same_registry.
  cbn [Store.byKey Store.origins]. by rewrite Hk, Ho.
Qed.

Lemma fold_registry w dir v es t m n k m' n' k' :
  same_registry m m' →
  let r := foldl (Store.loadEntry w dir v) (t, m, n, k) es in
  let r' := foldl (Store.loadEntry w dir v) (t, m', n', k') es in
  r.1.1.1 = r'.1.1.1 ∧ same_registry r.1.1.2 r'.1.1.2 ∧ same_rest m r.1.1.2.
Proof.
  cbn zeta. revert t m n k m' n' k'. induction es as [|e es IH]; intros t m n k m' n' k' Hm; [done|].
  cbn [foldl]. pose proof (entry_registry w dir v e t m n k m' n' k' Hm) as H. cbn zeta in H.
  destruct (Store.loadEntry w dir v (t, m, n, k) e) as [[[t1 m1] n1] k1],
    (Store.loadEntry w dir v (t, m', n', k') e) as [[[t2 m2] n2] k2].
  cbn [fst snd] in H. destruct H as (<- & Hr & H1 & H2 & H3 & H4).
  destruct (IH t1 m1 n1 k1 m2 n2 k2 Hr) as (? & ? & E1 & E2 & E3 & E4).
  split_and!; [done|done|]. unfold same_rest. by rewrite <-E1, <-E2, <-E3, <-E4.
Qed.

Lemma build_same_registry w dir v (m m' : Store.Memory T) :
  same_registry m m' →
  let r := Store.buildTreeFromDir w dir v m in let r' := Store.buildTreeFromDir w dir v m' in
  r.1.1.1 = r'.1.1.1 ∧ same_registry r.1.1.2 r'.1.1.2 ∧ same_rest m r.1.1.2.
Proof.
  intros Hm. cbn zeta. unfold Store.buildTreeFromDir. destruct (fs_read_dir w dir) as [es|]; [|done].
  pose proof (fold_registry w dir v es radix_new m 0 0 m' 0 0 Hm) as H. cbn zeta in H.
  destruct (foldl _ _ _) as [[[t1 m1] n1] k1], (foldl _ _ _) as [[[t2 m2] n2] k2]. cbn [fst snd] in H |- *.
  destruct H as (-> & ?). done.
Qed.

Lemma loadZones_idem dir d w (m : Store.Memory T) :
  loadZones dir d w (loadZones dir d w m) = loadZones dir d w m.
Proof.
  set (m1 := loadZones dir d w m). unfold loadZones, Store.LoadZonesFromDir. cbn [Store.mem Store.files].
  assert (E1 : m1 = loadZones dir d w m) by done. clearbody m1.
  unfold loadZones, Store.LoadZonesFromDir in E1. cbn [Store.mem Store.files] in E1.
  pose proof (build_same_registry w dir Store.ViewPublic (Store.ResetRegistry m1) (Store.ResetRegistry m)) as H1.
  cbn zeta in H1. specialize (H1 (conj eq_refl eq_refl)).
  pose proof (build_same_registry w dir Store.ViewPublic (Store.ResetRegistry m) (Store.ResetRegistry m)) as H2.
  cbn zeta in H2. specialize (H2 (conj eq_refl eq_refl)).
  destruct (Store.buildTreeFromDir w dir Store.ViewPublic (Store.ResetRegistry m1)) as [[[t1 a1] n1] k1].
  destruct (Store.buildTreeFromDir w dir Store.ViewPublic (Store.ResetRegistry m)) as [[[t a] n] k].
  cbn [fst snd] in H1, H2. destruct H1 as (-> & Hr & F1). destruct H2 as (_ & _ & F).
  pose proof (build_same_registry w (path_join [dir; Store.internalViewDir]) Store.ViewInternal a1 a Hr) as H3.
  cbn zeta in H3.
  pose proof (build_same_registry w (path_join [dir; Store.internalViewDir]) Store.ViewInternal a a (conj eq_refl eq_refl)) as H4.
  cbn zeta in H4.
  destruct (Store.buildTreeFromDir w (path_join [dir; Store.internalViewDir]) Store.ViewInternal a1) as [[[u1 b1] i1] j1].
  destruct (Store.buildTreeFromDir w (path_join [dir; Store.internalViewDir]) Store.ViewInternal a) as [[[u b] i] j].
  cbn [fst snd] in H3, H4. destruct H3 as (-> & [Hk Ho] & G1). destruct H4 as (_ & _ & G).
  cbn [Store.set_mem Store.mem] in E1 |- *. unfold same_rest in *. cbn [Store.ResetRegistry Store.hints Store.dnssec_on Store.public Store.internal] in *.
  destruct F1 as (F1 & F2 & F3 & F4), F as (K1 & K2 & K3 & K4), G1 as (G1 & G2 & G3 & G4), G as (L1 & L2 & L3 & L4).
  destruct t; subst m1; unfold Store.swapTree in *; cbn [Store.hints Store.dnssec_on Store.public Store.internal Store.byKey Store.origins] in *;
    f_equal; congruence.
Qed.

(** * Properties *)


(** The same for the lists of the firewall. *)
Theorem list_reload_settles {FN : FsNotify W} (notified : () → W → W → list event → Prop)
    dir db (e : Firewall.Engine T) t w0 w s :
  (∀ a f f' es, notified a f f' es →
     (∀ e, loadLists dir db f' e = loadLists dir db f e) ∨ Exists (λ e, isBlocklistFileEvent e = true) es) →
  startFirewallWatcher dir (Some (loadLists dir db w0 e)) t w0 = (None, Some w) →
  rtc (watch_step (loadLists dir db) blocklistEvent defaultReloadDebounce notified) w s →
  running s = true →
  (queue s = [] → timer s = None → loaded s = loadLists dir db (contents s) (loaded s)) ∧
  ∃ s', rtc (watch_step (loadLists dir db) blocklistEvent defaultReloadDebounce notified) s s' ∧
    contents s' = contents s ∧ (now s' <= now s + defaultReloadDebounce)%N ∧
    loaded s' = loadLists dir db (contents s) (loaded s').
Proof.
  intros Hn. unfold startFirewallWatcher. destruct new_watcher; [done|]. destruct (watch_add w0 dir); [done|].
  intros [= <-] Hreach Hr.
  assert (Ht : tells (loadLists dir db) blocklistEvent notified).
  { intros a f f' es [Hl|(e1 & He & Hz)%Exists_exists]%Hn; [by left|]. right. exists e1. split; [done|]. intros f0 a0. exact Hz. }
  destruct (settles (loadLists dir db) blocklistEvent defaultReloadDebounce notified
    (loadLists_idem dir db) Ht _ _ _ _ _ (loadLists_idem dir db w0 e) Hreach Hr)
    as [H1 (s' & H2 & H3 & H4 & _ & _ & H7)].
  unfold in_sync in *. split; [intros Hq Htm; by rewrite H1|].
  exists s'. split_and!; [done..|]. by rewrite <-H3, H7.
Qed.

(** A file that is moved out of the directory gives a rename, which neither
    watcher acts on: its zone, or its domains, stay. *)
Lemma moved_file_stays {FN : FsNotify W} dir (w : W) a :
  let e name := MkEvent name false false false true false in
  (zoneEvent dir (e "zones/example.zone") w a).1 = false ∧ (blocklistEvent (e "lists/ads.list") w ()).1 = false.
Proof. done. Qed.

(** The internal directory is watched when it appears, but its zones are not
    loaded. *)
Lemma internal_dir_not_loaded {FN : FsNotify W} (w : W) a :
  (zoneEvent "zones" (MkEvent "zones/internal" true false false false false) w a).1 = false.
Proof. done. Qed.


End instances.
End Watcher.

(** * Witnesses *)
#[local] Existing Instance Store.demo_parser.
#[export] Instance demo_fsnotify : FsNotify ram | 100 := {|
  new_watcher := None; watch_add _ _ := None; watch_stat _ _ := false
|}.

Definition demo_event : event := MkEvent "zones/example.com.zone" true false false false false.
Definition demo_notified (a : bool) (f f' : ram) (es : list event) : Prop := es = [demo_event].

Definition demo_zone_load := Watcher.loadZones (T := gtree) (W := ram) "zones" (∅ : key_table).
Definition demo_zone_files : ram := {[ "zones/example.com.zone" := "example.com. 60 IN A 192.0.2.1" ]}.
Definition demo_started : Watcher.watcher ram (Store.Memory gtree) bool :=
  Watcher.started 0 ∅ (demo_zone_load ∅ Store.NewMemory) false.
Definition demo_changed : Watcher.watcher ram (Store.Memory gtree) bool :=
  Watcher.MkWatcher 0 demo_zone_files (demo_zone_load ∅ Store.NewMemory) false [demo_event] None true.

