(* ===== verification/Query.v ===== *)
(** * Authoritative resolution: internal/dnsproc/processor.go, ad_traffic.go, xfr.go

    How a question is answered from the zone store: view selection at the
    lookup, CNAME chains, ANY queries, and the zone a name belongs to. Every
    function reads one store value; Concurrent has the same lookups when trees
    are swapped between them. *)
From S2P Require Import Prelude Radix NetAddr Names Owner Dns Sorting Tree Store.
Import Owner Tree Store.

Module Query.

Definition maxCNAMEChainDepth := 8.

(** ** ad_traffic.go *)
Definition activeDirectoryMarkers := ["_msdcs"; "_ldap"; "_sites"].

Definition isActiveDirectoryQuery (name : string) : bool :=
  let normalized := to_lower (NormalizeName name) in
  existsb (contains normalized) activeDirectoryMarkers.

(** ** processor.go *)
Definition splitDNSLabels (fqdn : string) : list string :=
  let fqdn := trim_suffix fqdn "." in
  if bool_decide (fqdn = "") then [] else split fqdn ".".

(** The candidates [strings.Join(labels[i:], ".") + "."] in the order of the
    loops, [i] from [len(labels)-1] down to 0. *)
Fixpoint apexCandidates (labels : list string) : list string :=
  match labels with
  | [] => []
  | _ :: rest => apexCandidates rest ++ [join labels "." +:+ "."]
  end.

Section query.
Context {T : Type → Type} {RO : RadixOps T} {MR : MapRange}.
Implicit Types m : Memory T.

Definition findAuthoritativeZone m (qname : string) : option string :=
  List.find (λ apex, zoneExistsLocked m apex ViewPublic || zoneExistsLocked m apex ViewInternal)
    (apexCandidates (splitDNSLabels (NormalizeName qname))).

Definition authoritativeLookup m (name : string) (qtype : N) (view : ZoneView)
    : list rr * LookupStatus :=
  match view with
  | ViewInternal =>
      let '(records, status) := Lookup m ViewInternal name qtype in
      if negb (bool_decide (status = LookupNotFound)) then (records, status)
      else Lookup m ViewPublic name qtype
  | ViewPublic => Lookup m ViewPublic name qtype
  end.

Definition nameExistsInZone m (name : string) (view : ZoneView) : bool :=
  if bool_decide (view = ViewInternal) && nameExistsInTree (treeForView m ViewInternal) name
  then true
  else nameExistsInTree (treeForView m ViewPublic) name.

Fixpoint soaLoop m (view : ZoneView) (apexes : list string) : option rr :=
  match apexes with
  | [] => None
  | apex :: rest =>
      match authoritativeLookup m apex TypeSOA view with
      | (r :: _, LookupFound) => Some r
      | _ => soaLoop m view rest
      end
  end.
Definition lookupZoneSOA m (name : string) (view : ZoneView) : option rr :=
  soaLoop m view (apexCandidates (splitDNSLabels (NormalizeName name))).

(** The loop of [followCNAMEChain]: [n] iterations are left. *)
Fixpoint chainLoop (n : nat) m (qtype : N) (view : ZoneView) (visited : gset string)
    (current : string) (answer : list rr) : list rr * N :=
  match n with
  | O => (answer, RcodeServerFailure)
  | S n' =>
      if bool_decide (current ∈ visited) then (answer, RcodeServerFailure)
      else
        let visited := {[current]} ∪ visited in
        match authoritativeLookup m current qtype view with
        | (records, LookupFound) => (answer ++ records, RcodeSuccess)
        | (_, LookupNotFound) =>
            if 0 <? length answer then (answer, RcodeSuccess) else ([], RcodeNameError)
        | (_, LookupNodata) =>
            match authoritativeLookup m current TypeCNAME view with
            | (cname :: _, LookupFound) =>
                match dat cname with
                | DCNAME target =>
                    chainLoop n' m qtype view visited (NormalizeName target) (answer ++ [cname])
                | _ => (answer, RcodeServerFailure)
                end
            | _ => (answer, RcodeSuccess)
            end
        end
  end.

Definition followCNAMEChain m (startName : string) (qtype : N) (view : ZoneView) : list rr * N :=
  chainLoop maxCNAMEChainDepth m qtype view ∅ (NormalizeName startName) [].

Definition resolveAddress m (name : string) (qtype : N) (view : ZoneView) : list rr * N :=
  match authoritativeLookup m name qtype view with
  | (records, LookupFound) => (records, RcodeSuccess)
  | (_, LookupNotFound) => ([], RcodeNameError)
  | (_, LookupNodata) => followCNAMEChain m name qtype view
  end.

Definition resolveANY m (name : string) (view : ZoneView) : list rr * N * bool :=
  if negb (nameExistsInZone m name view) then
    ([], RcodeNameError, negb (isActiveDirectoryQuery name))
  else
    match lookupZoneSOA m name view with
    | Some soa => ([soa], RcodeSuccess, false)
    | None =>
        ([RR (Hdr (NormalizeName name) TypeHINFO ClassINET 300)
             (DHINFO "RFC8482" "https://datatracker.ietf.org/doc/html/rfc8482")],
         RcodeSuccess, false)
    end.

(** Records, response code, and whether a resolver may be asked. *)
Definition resolveQuestion m (q : question) (view : ZoneView) : list rr * N * bool :=
  if ((q_type q =? TypeA) || (q_type q =? TypeAAAA))%N then
    let '(records, rcode) := resolveAddress m (q_name q) (q_type q) view in
    (records, rcode, (rcode =? RcodeNameError)%N && negb (isActiveDirectoryQuery (q_name q)))
  else if (q_type q =? TypeANY)%N then resolveANY m (q_name q) view
  else
    match authoritativeLookup m (q_name q) (q_type q) view with
    | (records, LookupFound) => (records, RcodeSuccess, false)
    | (records, LookupNodata) => (records, RcodeSuccess, false)
    | (records, LookupNotFound) =>
        (records, RcodeNameError, negb (isActiveDirectoryQuery (q_name q)))
    end.

(** ** xfr.go *)
Fixpoint xferLoop m (view : ZoneView) (apexes : list string) : option (string * ZoneView) :=
  match apexes with
  | [] => None
  | apex :: rest =>
      if bool_decide (view = ViewInternal) && zoneExistsLocked m apex ViewInternal
      then Some (apex, ViewInternal)
      else if zoneExistsLocked m apex ViewPublic then Some (apex, ViewPublic)
      else xferLoop m view rest
  end.
Definition resolveXferZone m (qname : string) (view : ZoneView) : option (string * ZoneView) :=
  xferLoop m view (apexCandidates (splitDNSLabels (NormalizeName qname))).

Definition findSOARecord (records : list rr) (origin : string) : option rr :=
  let origin := NormalizeName origin in
  let soas := List.filter (λ r, type_of r =? TypeSOA)%N records in
  match List.find (λ r, bool_decide (NormalizeName (name_of r) = origin)) soas with
  | Some r => Some r
  | None => head soas
  end.

End query.

(** * Specification of CNAME chains *)
Section spec.
Context {T : Type → Type} {RO : RadixOps T} {MR : MapRange}.
Variables (m : Memory T) (qtype : N) (view : ZoneView).

(** The alias at a name that has no records of the type asked for. *)
Definition aliasAt (n : string) : option (rr * string) :=
  match (authoritativeLookup m n qtype view).2, authoritativeLookup m n TypeCNAME view with
  | LookupNodata, (c :: _, LookupFound) =>
      match dat c with DCNAME target => Some (c, NormalizeName target) | _ => None end
  | _, _ => None
  end.

(** [alias n cs vs e]: following the CNAME records [cs] from [n], through the
    names [vs], leads to [e]. *)
Inductive alias : string → list rr → list string → string → Prop :=
| alias_here n : alias n [] [] n
| alias_next n c n' cs vs e :
    aliasAt n = Some (c, n') → alias n' cs vs e → alias n (c :: cs) (n :: vs) e.

(** The answer of a chain [cs] that ends at [e], where there is no alias. *)
Definition chainEnd (e : string) (cs : list rr) : list rr * N :=
  match authoritativeLookup m e qtype view with
  | (records, LookupFound) => (cs ++ records, RcodeSuccess)
  | (_, LookupNotFound) => if decide (cs = []) then ([], RcodeNameError) else (cs, RcodeSuccess)
  | (_, LookupNodata) =>
      match authoritativeLookup m e TypeCNAME view with
      | (_ :: _, LookupFound) => (cs, RcodeServerFailure)   (* a CNAME of another form *)
      | _ => (cs, RcodeSuccess)
      end
  end.

(** *** Lemmas *)
Lemma chainLoop_step k visited cur ans : cur ∉ visited →
  chainLoop (S k) m qtype view visited cur ans =
  match aliasAt cur with
  | Some (c, n') => chainLoop k m qtype view ({[cur]} ∪ visited) n' (ans ++ [c])
  | None => chainEnd cur ans
  end.
Proof.
  intros Hn. cbn [chainLoop]. rewrite bool_decide_false by done. unfold aliasAt, chainEnd.
  destruct (authoritativeLookup m cur qtype view) as [recs []]; cbn [snd].
  - by destruct ans.
  - destruct (authoritativeLookup m cur TypeCNAME view) as [[|c l] []]; try done.
    by destruct (dat c).
  - done.
Qed.

Lemma chainLoop_spec k : ∀ visited cur ans r,
  chainLoop k m qtype view visited cur ans = r ↔
  ∃ cs vs e, alias cur cs vs e ∧ NoDup vs ∧ (∀ v, v ∈ vs → v ∉ visited) ∧
    ((length cs < k ∧ e ∉ vs ∧ e ∉ visited ∧ aliasAt e = None ∧ r = chainEnd e (ans ++ cs)) ∨
     (r = (ans ++ cs, RcodeServerFailure) ∧
      (length cs = k ∨ (length cs < k ∧ (e ∈ vs ∨ e ∈ visited))))).
Proof.
  induction k as [|k IH]; intros visited cur ans r.
  { cbn [chainLoop]. split.
    - intros <-. exists [], [], cur. rewrite app_nil_r. split_and!; try by constructor.
      { set_solver. } right. auto.
    - intros (cs & vs & e & Ha & _ & _ & [(Hl & _)|[-> [Hl|[Hl _]]]]); try lia.
      destruct Ha; [by rewrite app_nil_r | done]. }
  destruct (decide (cur ∈ visited)) as [Hv|Hv].
  { cbn [chainLoop]. rewrite bool_decide_true by done. split.
    - intros <-. exists [], [], cur. rewrite app_nil_r. split_and!; try by constructor.
      { set_solver. } right. split; [done|]. right. split; [cbn; lia | by right].
    - intros (cs & vs & e & Ha & _ & Hvs & Hr). destruct Ha as [n|n c n' cs vs e].
      + rewrite app_nil_r in Hr. destruct Hr as [(_ & _ & ? & _)|[-> _]]; done.
      + exfalso. apply (Hvs n); [left | done]. }
  rewrite chainLoop_step by done. destruct (aliasAt cur) as [[c n']|] eqn:Ec.
  - rewrite IH. split.
    + intros (cs & vs & e & Ha & Hnd & Hvs & Hr). exists (c :: cs), (cur :: vs), e.
      assert (Hc : cur ∉ vs) by (intros Hin; apply (Hvs _ Hin); set_solver).
      rewrite <-!app_assoc in Hr. cbn [app] in Hr. cbn [length]. split_and!.
      * by econstructor.
      * by constructor.
      * intros v [->|Hin]%elem_of_cons; [done|]. specialize (Hvs _ Hin). set_solver.
      * destruct Hr as [(? & ? & ? & ? & ->)|[-> Hr]]; [left | right].
        -- rewrite not_elem_of_cons. split_and!; [lia | set_solver | done | set_solver | done | done].
        -- split; [done|]. destruct Hr as [->|[? [?|?]]]; [left; lia|right..]; (split; [lia|]);
             [left; by right | rewrite elem_of_cons; set_solver].
    + intros (cs & vs & e & Ha & Hnd & Hvs & Hr). destruct Ha as [n|n c0 n0 cs vs e Ec0 Ha].
      { destruct Hr as [(_ & _ & _ & ? & _)|[_ [?|[_ [Hin|?]]]]]; try done.
        - congruence.
        - by apply elem_of_nil in Hin. }
      rewrite Ec in Ec0. simplify_eq. apply NoDup_cons in Hnd as [Hn Hnd].
      exists cs, vs, e. rewrite <-!app_assoc. cbn [app length] in *. split_and!; [done..| |].
      * intros v Hin. assert (v ∉ visited) by (apply Hvs; by right). set_solver.
      * rewrite not_elem_of_cons, elem_of_cons in Hr.
        destruct Hr as [(? & [? ?] & ? & ? & ->)|[-> Hr]]; [left | right].
        -- split_and!; [lia | done | set_solver | done | done].
        -- split; [done|]. destruct Hr as [?|[? Hr]]; [left; lia | right].
           split; [lia|]. destruct Hr as [[->|?]|?]; [right; set_solver | by left | right; set_solver].
  - split.
    + intros <-. exists [], [], cur. rewrite app_nil_r. split_and!; try by constructor.
      { set_solver. } left. split_and!; [cbn; lia | set_solver | done | done | done].
    + intros (cs & vs & e & Ha & _ & _ & Hr). destruct Ha as [n|n c0 n0 cs vs e Ec0 Ha];
        [|congruence]. rewrite app_nil_r in Hr.
      destruct Hr as [(_ & _ & _ & _ & ->)|[_ [?|[_ [Hin|?]]]]]; try done.
      by apply elem_of_nil in Hin.
Qed.

End spec.

(** * Lemmas: lookups *)
Section lemmas.
Context {T : Type → Type} {RO : RadixOps T} {MR : MapRange}.
Implicit Types m : Memory T.

Lemma lookup_not_found (t : T byType) name q :
  (lookupInTree t name q).2 = LookupNotFound ↔ nameExistsInTree t name = false.
Proof.
  unfold lookupInTree, nameExistsInTree. rewrite bool_decide_eq_false.
  destruct (radix_get t _) as [bt|]; cbn; [|split; [by intros _ [] | done]].
  destruct (bt !! q) as [[|]|]; split; try done; intros []; eauto.
Qed.

Lemma lookup_not_found_nil (t : T byType) name q :
  (lookupInTree t name q).2 = LookupNotFound → (lookupInTree t name q).1 = [].
Proof.
  unfold lookupInTree. destruct (radix_get t _) as [bt|]; [|done].
  by destruct (bt !! q) as [[|]|].
Qed.

Lemma authoritative_not_found m name q view :
  (authoritativeLookup m name q view).2 = LookupNotFound ↔
  nameExistsInZone m name view = false.
Proof.
  unfold authoritativeLookup, nameExistsInZone, Lookup.
  destruct view.
  { rewrite (bool_decide_false (ViewPublic = ViewInternal)) by done. apply lookup_not_found. }
  pose proof (lookup_not_found (treeForView m ViewInternal) name q) as Hi.
  destruct (lookupInTree (treeForView m ViewInternal) name q) as [recs st]; cbn [snd] in Hi.
  rewrite (bool_decide_true (ViewInternal = ViewInternal)) by done. cbn [andb].
  destruct (decide (st = LookupNotFound)) as [->|Hst].
  - rewrite (bool_decide_true (LookupNotFound = LookupNotFound)) by done.
    rewrite (proj1 Hi eq_refl). cbn [negb]. apply lookup_not_found.
  - rewrite (bool_decide_false (st = LookupNotFound)) by done. cbn [negb snd].
    destruct (nameExistsInTree (treeForView m ViewInternal) name); naive_solver.
Qed.

Lemma nameExists_normalize m name view :
  nameExistsInZone m (NormalizeName name) view = nameExistsInZone m name view.
Proof.
  unfold nameExistsInZone, nameExistsInTree. by rewrite (normalize_normal name).
Qed.

Lemma chainEnd_exists m qtype view e cs :
  nameExistsInZone m e view = true ∨ cs ≠ [] →
  (chainEnd m qtype view e cs).2 ≠ RcodeNameError.
Proof.
  intros He. unfold chainEnd. pose proof (authoritative_not_found m e qtype view) as Hn.
  destruct (authoritativeLookup m e qtype view) as [recs []]; cbn [snd] in Hn |- *; [|repeat case_match; done|done].
  rewrite (proj1 Hn eq_refl) in He. destruct He as [?|He]; [done|]. by rewrite decide_False.
Qed.

(** A chain from a name that exists never ends in NXDOMAIN. *)
Lemma chain_not_nxdomain m name qtype view :
  nameExistsInZone m name view = true →
  (followCNAMEChain m name qtype view).2 ≠ RcodeNameError.
Proof.
  intros He. unfold followCNAMEChain.
  set (r := chainLoop _ _ _ _ _ _ _). pose proof (eq_refl r) as Hr. unfold r at 1 in Hr.
  apply chainLoop_spec in Hr as (cs & vs & e & Ha & _ & _ & [(_ & _ & _ & _ & ->)|[-> _]]);
    [|done].
  rewrite app_nil_l. apply chainEnd_exists. rewrite <-nameExists_normalize in He.
  destruct Ha; [by left | by right].
Qed.

Lemma authoritative_public m m' name q : public m = public m' →
  authoritativeLookup m name q ViewPublic = authoritativeLookup m' name q ViewPublic.
Proof. intros E. unfold authoritativeLookup, Lookup. cbn [treeForView]. by rewrite E. Qed.

Lemma chainLoop_public m m' k qtype visited cur ans : public m = public m' →
  chainLoop k m qtype ViewPublic visited cur ans = chainLoop k m' qtype ViewPublic visited cur ans.
Proof.
  intros E. revert visited cur ans. induction k as [|k IH]; intros; [done|]. cbn [chainLoop].
  rewrite !(authoritative_public m m') by done. by repeat (case_match; try done).
Qed.

Lemma lookupZoneSOA_public m m' name : public m = public m' →
  lookupZoneSOA m name ViewPublic = lookupZoneSOA m' name ViewPublic.
Proof.
  intros E. unfold lookupZoneSOA. induction (apexCandidates _) as [|a l IH]; [done|].
  cbn [soaLoop]. by rewrite (authoritative_public m m'), IH by done.
Qed.

(** The outcome of a question, in terms of the names of the view. *)
Lemma resolve_outcome m q view :
  let '(records, rcode, needsForward) := resolveQuestion m q view in
  (rcode = RcodeNameError ↔ nameExistsInZone m (q_name q) view = false) ∧
  (rcode = RcodeNameError → records = []) ∧
  (needsForward = true ↔ rcode = RcodeNameError ∧ isActiveDirectoryQuery (q_name q) = false).
Proof.
  unfold resolveQuestion.
  pose proof (authoritative_not_found m (q_name q) (q_type q) view) as Hn.
  destruct ((q_type q =? TypeA) || (q_type q =? TypeAAAA))%N.
  - assert (Hr : (resolveAddress m (q_name q) (q_type q) view).2 = RcodeNameError ↔
        nameExistsInZone m (q_name q) view = false).
    { unfold resolveAddress.
      destruct (authoritativeLookup m (q_name q) (q_type q) view) as [recs []]; cbn [snd] in *;
        rewrite <-Hn; [done| |done].
      split; [|done]. intros E. exfalso. revert E. apply chain_not_nxdomain.
      apply not_false_iff_true. by rewrite <-Hn. }
    assert (Hl : (resolveAddress m (q_name q) (q_type q) view).2 = RcodeNameError →
        (resolveAddress m (q_name q) (q_type q) view).1 = []).
    { rewrite Hr, <-Hn. unfold resolveAddress.
      by destruct (authoritativeLookup m (q_name q) (q_type q) view) as [recs []]. }
    destruct (resolveAddress m (q_name q) (q_type q) view) as [recs rc]; cbn [fst snd] in *.
    split_and!; [done..|]. rewrite andb_true_iff, N.eqb_eq, negb_true_iff. done.
  - destruct (q_type q =? TypeANY)%N.
    + unfold resolveANY. destruct (nameExistsInZone m (q_name q) view); cbn [negb].
      * destruct (lookupZoneSOA _ _ _); split_and!; try done; split; try done; by intros [].
      * split_and!; try done. rewrite negb_true_iff. naive_solver.
    + pose proof lookup_not_found_nil as Hz.
      destruct (authoritativeLookup m (q_name q) (q_type q) view) as [recs []] eqn:E;
        cbn [snd] in Hn; rewrite <-Hn; split_and!; try done; try (split; try done; by intros []).
      * intros _. revert E. unfold authoritativeLookup, Lookup. destruct view.
        -- intros E. specialize (Hz (treeForView m ViewPublic) (q_name q) (q_type q)).
           rewrite E in Hz. by apply Hz.
        -- destruct (lookupInTree (treeForView m ViewInternal) _ _) as [r0 st0].
           case_bool_decide as Hst; cbn [negb]; [|by intros [= -> ->]]. intros E.
           specialize (Hz (treeForView m ViewPublic) (q_name q) (q_type q)).
           rewrite E in Hz. by apply Hz.
      * rewrite negb_true_iff. naive_solver.
Qed.

End lemmas.

(** * Properties *)
Section properties.
Context {T : Type → Type} {RO : RadixOps T} {MR : MapRange}.
Implicit Types m : Memory T.

(** C23: following CNAME records gives exactly this: the aliases [cs] from the
    name asked for, none of whose names repeats, and then the records at the
    end of the chain (or its NODATA or NXDOMAIN), when fewer than eight
    aliases lead to a name that has no further alias; SERVFAIL with the
    aliases so far when a name comes back or the eighth alias is reached. So
    the walk always ends, loops are detected, and no answer is longer than
    eight aliases and one RRset. *)
Theorem cname_chain_exact m start qtype view r :
  followCNAMEChain m start qtype view = r ↔
  ∃ cs vs e, alias m qtype view (NormalizeName start) cs vs e ∧ NoDup vs ∧
    ((length cs < maxCNAMEChainDepth ∧ e ∉ vs ∧ aliasAt m qtype view e = None ∧
      r = chainEnd m qtype view e cs) ∨
     (r = (cs, RcodeServerFailure) ∧
      (length cs = maxCNAMEChainDepth ∨ (length cs < maxCNAMEChainDepth ∧ e ∈ vs)))).
Proof.
  unfold followCNAMEChain. rewrite chainLoop_spec. split.
  - intros (cs & vs & e & ? & ? & _ & Hr). exists cs, vs, e. split_and!; [done..|].
    set_solver.
  - intros (cs & vs & e & ? & ? & Hr). exists cs, vs, e. split_and!; [done..|set_solver|].
    set_solver.
Qed.

(** a question is answered NXDOMAIN exactly when the name is in no tree
    the view may see (NODATA and CNAMEs included: a name that exists never
    gets NXDOMAIN), then without records, and only then may a resolver be
    asked, unless the name is an Active Directory one. *)
Theorem local_outcome m q view :
  let '(records, rcode, needsForward) := resolveQuestion m q view in
  (rcode = RcodeNameError ↔ nameExistsInZone m (q_name q) view = false) ∧
  (rcode = RcodeNameError → records = []) ∧
  (needsForward = true ↔ rcode = RcodeNameError ∧ isActiveDirectoryQuery (q_name q) = false).
Proof. apply resolve_outcome. Qed.

(** nothing of the internal view reaches a client of the public view: on
    two stores with the same public tree, whatever their internal trees,
    registries and hints, every question has the same records, the same
    response code and the same decision to ask a resolver. *)
Theorem public_view_isolated m m' q :
  public m = public m' →
  resolveQuestion m q ViewPublic = resolveQuestion m' q ViewPublic.
Proof.
  intros E. unfold resolveQuestion, resolveAddress, resolveANY, followCNAMEChain.
  rewrite !(authoritative_public m m'), !(chainLoop_public m m'), (lookupZoneSOA_public m m')
    by done.
  unfold nameExistsInZone. cbn [treeForView]. by rewrite E.
Qed.

(** The internal view: names of the internal tree hide the public ones
    whole, name by name, and all other names are those of the public view. *)
Theorem internal_view_overrides m name qtype :
  authoritativeLookup m name qtype ViewInternal =
  Lookup m (if nameExistsInTree (internal m) name then ViewInternal else ViewPublic) name qtype.
Proof.
  unfold authoritativeLookup, Lookup. cbn [treeForView].
  pose proof (lookup_not_found (internal m) name qtype) as Hi.
  destruct (lookupInTree (internal m) name qtype) as [recs st] eqn:E; cbn [snd] in Hi.
  destruct (nameExistsInTree (internal m) name).
  - rewrite bool_decide_false by naive_solver. cbn [negb treeForView]. done.
  - rewrite bool_decide_true by naive_solver. done.
Qed.

End properties.

(** * Witnesses *)
Definition demo_public : gtree byType :=
  radix_insert_all radix_new
    [("www.example.", {[TypeA := [RR (Hdr "www.example." TypeA ClassINET 60) (DA (IP4b 7))]]})].
Definition demo_memory : Memory gtree := MkMemory demo_public radix_new ∅ ∅ ∅ false.
Definition demo_split : Memory gtree := MkMemory demo_public demo_public ∅ {["lan."]} ∅ true.

Lemma public_view_isolated_witness :
  resolveQuestion demo_memory (Question "www.example" TypeA ClassINET) ViewPublic =
  resolveQuestion demo_split (Question "www.example" TypeA ClassINET) ViewPublic.
Proof.
  apply (public_view_isolated demo_memory demo_split (Question "www.example" TypeA ClassINET)).
  reflexivity.
Defined.

End Query.
