(* ===== verification/Concurrent.v ===== *)
(** * Queries among changes: internal/dnsproc/processor.go over internal/storage/memory.go

    A query reads the zone store once per lookup: each loads the current tree of
    a view, or the registry, anew, and edits, updates and reloads may publish
    others in between. Here the lookups of Query are run against the versions of
    the store, the i-th load seeing the i-th version, whatever they are. *)
From S2P Require Import Prelude Radix NetAddr Names Owner Dns Sorting Tree Signer KeyStore Files Store Query.
Import Owner Tree Signer KeyStore Store.

Module Concurrent.

(** ** Reading the versions of a store *)
Section reads.
Context {T : Type → Type} {RO : RadixOps T} {MR : MapRange}.

Definition versions : Type := nat → Memory T.
Definition Read (A : Type) : Type := versions → nat → A * nat.
#[export] Instance read_ret : MRet Read := λ A a ms i, (a, i).
#[export] Instance read_bind : MBind Read := λ A B f m ms i, let '(a, i) := m ms i in f a ms i.

(** One atomic load, of a tree or under the lock of the registry. *)
Definition load {A} (f : Memory T → A) : Read A := λ ms i, (f (ms i), S i).

Definition Lookup (view : ZoneView) (name : string) (qtype : N) : Read (list rr * LookupStatus) :=
  load (λ m, Store.Lookup m view name qtype).
Definition NameExists (view : ZoneView) (name : string) : Read bool :=
  load (λ m, nameExistsInTree (treeForView m view) name).
(** Registry and tree are two loads. *)
Definition ZoneExists (origin : string) (view : ZoneView) : Read bool :=
  r ← load (λ m, zoneRecordOf m origin view);
  match r with Some _ => mret true | None => load (λ m, zoneHasSOA (treeForView m view) origin) end.

(** ** The lookups of the processor *)
Fixpoint zoneLoop (apexes : list string) : Read (option string) :=
  match apexes with
  | [] => mret None
  | apex :: rest =>
      b ← ZoneExists apex ViewPublic;
      b ← (if b : bool then mret true else ZoneExists apex ViewInternal);
      if b : bool then mret (Some apex) else zoneLoop rest
  end.
Definition findAuthoritativeZone (qname : string) : Read (option string) :=
  zoneLoop (Query.apexCandidates (Query.splitDNSLabels (NormalizeName qname))).

Definition authoritativeLookup (name : string) (qtype : N) (view : ZoneView) : Read (list rr * LookupStatus) :=
  match view with
  | ViewInternal =>
      r ← Lookup ViewInternal name qtype;
      if negb (bool_decide (r.2 = LookupNotFound)) then mret r else Lookup ViewPublic name qtype
  | ViewPublic => Lookup ViewPublic name qtype
  end.

Definition nameExistsInZone (name : string) (view : ZoneView) : Read bool :=
  b ← (if bool_decide (view = ViewInternal) then NameExists ViewInternal name else mret false);
  if b : bool then mret true else NameExists ViewPublic name.

Fixpoint soaLoop (view : ZoneView) (apexes : list string) : Read (option rr) :=
  match apexes with
  | [] => mret None
  | apex :: rest =>
      r ← authoritativeLookup apex TypeSOA view;
      match r with (r :: _, LookupFound) => mret (Some r) | _ => soaLoop view rest end
  end.
Definition lookupZoneSOA (name : string) (view : ZoneView) : Read (option rr) :=
  soaLoop view (Query.apexCandidates (Query.splitDNSLabels (NormalizeName name))).

Fixpoint chainLoop (n : nat) (qtype : N) (view : ZoneView) (visited : gset string) (current : string)
    (answer : list rr) : Read (list rr * N) :=
  match n with
  | O => mret (answer, RcodeServerFailure)
  | S n =>
      if bool_decide (current ∈ visited) then mret (answer, RcodeServerFailure)
      else
        r ← authoritativeLookup current qtype view;
        match r with
        | (records, LookupFound) => mret (answer ++ records, RcodeSuccess)
        | (_, LookupNotFound) =>
            mret (if 0 <? length answer then (answer, RcodeSuccess) else ([], RcodeNameError))
        | (_, LookupNodata) =>
            c ← authoritativeLookup current TypeCNAME view;
            match c with
            | (cname :: _, LookupFound) =>
                match dat cname with
                | DCNAME target =>
                    chainLoop n qtype view ({[current]} ∪ visited) (NormalizeName target) (answer ++ [cname])
                | _ => mret (answer, RcodeServerFailure)
                end
            | _ => mret (answer, RcodeSuccess)
            end
        end
  end.
Definition followCNAMEChain (startName : string) (qtype : N) (view : ZoneView) : Read (list rr * N) :=
  chainLoop Query.maxCNAMEChainDepth qtype view ∅ (NormalizeName startName) [].

Definition resolveAddress (name : string) (qtype : N) (view : ZoneView) : Read (list rr * N) :=
  r ← authoritativeLookup name qtype view;
  match r with
  | (records, LookupFound) => mret (records, RcodeSuccess)
  | (_, LookupNotFound) => mret ([], RcodeNameError)
  | (_, LookupNodata) => followCNAMEChain name qtype view
  end.

Definition hinfo (name : string) : rr :=
  RR (Hdr (NormalizeName name) TypeHINFO ClassINET 300)
    (DHINFO "RFC8482" "https://datatracker.ietf.org/doc/html/rfc8482").

Definition resolveANY (name : string) (view : ZoneView) : Read (list rr * N * bool) :=
  b ← nameExistsInZone name view;
  if negb b then mret ([], RcodeNameError, negb (Query.isActiveDirectoryQuery name))
  else
    soa ← lookupZoneSOA name view;
    mret (match soa with Some soa => ([soa], RcodeSuccess, false) | None => ([hinfo name], RcodeSuccess, false) end).

Definition resolveQuestion (q : question) (view : ZoneView) : Read (list rr * N * bool) :=
  if ((q_type q =? TypeA) || (q_type q =? TypeAAAA))%N then
    r ← resolveAddress (q_name q) (q_type q) view;
    mret (r, (r.2 =? RcodeNameError)%N && negb (Query.isActiveDirectoryQuery (q_name q)))
  else if (q_type q =? TypeANY)%N then resolveANY (q_name q) view
  else
    r ← authoritativeLookup (q_name q) (q_type q) view;
    mret (match r.2 with
          | LookupNotFound => (r.1, RcodeNameError, negb (Query.isActiveDirectoryQuery (q_name q)))
          | _ => (r.1, RcodeSuccess, false)
          end).

(** * Lemmas *)

(** Two queries that never load the internal tree cannot tell versions apart that
    differ there alone. *)
Definition same_public (ms ms' : versions) : Prop := ∀ i, public (ms i) = public (ms' i).
Definition public_only {A} (f : Read A) : Prop := ∀ ms ms' i, same_public ms ms' → f ms i = f ms' i.

Lemma public_ret {A} (a : A) : public_only (mret a).
Proof. done. Qed.
Lemma public_bind {A B} (f : Read A) (g : A → Read B) :
  public_only f → (∀ x, public_only (g x)) → public_only (f ≫= g).
Proof.
  intros Hf Hg ms ms' i Hs. unfold mbind, read_bind. rewrite (Hf ms ms' i Hs). destruct (f ms' i). by apply Hg.
Qed.
Lemma public_lookup name qtype : public_only (Lookup ViewPublic name qtype).
Proof. intros ms ms' i Hs. unfold Lookup, load, Store.Lookup. cbn [treeForView]. by rewrite Hs. Qed.
Lemma public_exists name : public_only (NameExists ViewPublic name).
Proof. intros ms ms' i Hs. unfold NameExists, load. cbn [treeForView]. by rewrite Hs. Qed.

Hint Resolve public_ret public_bind public_lookup public_exists : public.

Lemma public_soa apexes : public_only (soaLoop ViewPublic apexes).
Proof.
  induction apexes as [|apex rest IH]; cbn; [apply public_ret|]. apply public_bind; [apply public_lookup|].
  intros [[|r l] []]; auto with public.
Qed.

Lemma public_chain n qtype visited current answer : public_only (chainLoop n qtype ViewPublic visited current answer).
Proof.
  revert visited current answer. induction n as [|n IH]; intros visited current answer; cbn [chainLoop]; [apply public_ret|].
  case_bool_decide; [apply public_ret|]. apply public_bind; [apply public_lookup|].
  intros [records []]; try apply public_ret. apply public_bind; [apply public_lookup|].
  intros [[|c l] []]; try apply public_ret. destruct (dat c); auto with public.
Qed.

(** ** What a query saw *)

(** The views a client of a view is shown. *)
Definition shown (view v : ZoneView) : Prop := v = view ∨ v = ViewPublic.

(** A run of loads: it only goes forward, and takes at most so many. *)
Definition loads {A} (n : nat) (f : Read A) : Prop := ∀ ms i, i ≤ (f ms i).2 ≤ i + n.

Lemma loads_ret {A} (a : A) : loads 0 (mret a).
Proof. intros ms i. cbn. lia. Qed.
Lemma loads_load {A} (f : Memory T → A) : loads 1 (load f).
Proof. intros ms i. cbn. lia. Qed.
Lemma loads_bind {A B} n k (f : Read A) (g : A → Read B) : loads n f → (∀ x, loads k (g x)) → loads (n + k) (f ≫= g).
Proof.
  intros Hf Hg ms i. unfold mbind, read_bind. specialize (Hf ms i). destruct (f ms i) as [x j]. cbn in Hf.
  specialize (Hg x ms j). lia.
Qed.
Lemma loads_more {A} n k (f : Read A) : n ≤ k → loads n f → loads k f.
Proof. intros Hn Hf ms i. specialize (Hf ms i). lia. Qed.

Lemma loads_lookup name qtype view : loads 2 (authoritativeLookup name qtype view).
Proof.
  destruct view; cbn [authoritativeLookup]; [apply (loads_more 1); [lia|apply loads_load]|].
  apply (loads_bind 1 1); [apply loads_load|]. intros r. case_match; [apply (loads_more 0); [lia|apply loads_ret]|apply loads_load].
Qed.

Lemma loads_chain n qtype view visited current answer : loads (4 * n) (chainLoop n qtype view visited current answer).
Proof.
  revert visited current answer. induction n as [|n IH]; intros visited current answer; cbn [chainLoop]; [apply loads_ret|].
  assert (Hr : ∀ k (r : list rr * N), loads k (mret r)) by (intros; apply (loads_more 0); [lia|apply loads_ret]).
  case_bool_decide; [apply Hr|]. apply (loads_more (2 + (2 + 4 * n))); [lia|].
  apply loads_bind; [apply loads_lookup|]. intros [records []]; try apply Hr.
  apply loads_bind; [apply loads_lookup|]. intros [[|c l] []]; try apply Hr. destruct (dat c); try apply Hr. apply IH.
Qed.

(** What a lookup found was in a view that is shown, at one of its loads. *)
Lemma lookup_saw name qtype view ms i recs st j : authoritativeLookup name qtype view ms i = ((recs, st), j) →
  st ≠ LookupNotFound → ∃ k v, i ≤ k < j ∧ shown view v ∧ Store.Lookup (ms k) v name qtype = (recs, st).
Proof.
  destruct view; cbn [authoritativeLookup].
  - intros [= E <-] _. exists i, ViewPublic. split_and!; [lia|lia|by right|by rewrite E].
  - unfold mbind, read_bind, Lookup, load. destruct (Store.Lookup (ms i) ViewInternal name qtype) as [recs' st'] eqn:El. cbn [snd].
    case_bool_decide; cbn [negb].
    + intros [= E <-] _. exists (S i), ViewPublic. split_and!; [lia|lia|by right|by rewrite E].
    + intros [= -> -> <-] _. exists i, ViewInternal. split_and!; [lia|lia|by left|done].
Qed.

(** [walked ms view i n cs j e]: the records [cs] lead from [n] to [e], each of
    them the alias of the name reached so far in a view that is shown, at a load
    between [i] and [j] that is later than those before. *)
Inductive walked (ms : versions) (view : ZoneView) : nat → string → list rr → nat → string → Prop :=
| walked_here i n : walked ms view i n [] i n
| walked_on i n c target k v cs j e : i ≤ k → shown view v →
    head (Store.Lookup (ms k) v n TypeCNAME).1 = Some c → dat c = DCNAME target →
    walked ms view (S k) (NormalizeName target) cs j e → walked ms view i n (c :: cs) j e.

Lemma walked_earlier ms view i i' n cs j e : i' ≤ i → walked ms view i n cs j e → ∃ j', j' ≤ j ∧ walked ms view i' n cs j' e.
Proof.
  intros Hi Hw. destruct Hw as [i n|i n c t k v cs j e Hk Hv Hc Hd Hw]; [exists i'; split; [done|constructor]|].
  exists j. split; [done|]. eapply walked_on; [|done..]. lia.
Qed.

(** The records at the end of the walk, or none. *)
Definition ended (ms : versions) (view : ZoneView) (qtype : N) (k j : nat) (e : string) (recs : list rr) (rcode : N) : Prop :=
  recs = [] ∨ rcode = RcodeSuccess ∧ ∃ k' v, k ≤ k' < j ∧ shown view v ∧ Store.Lookup (ms k') v e qtype = (recs, LookupFound).

Definition saw (ms : versions) (view : ZoneView) (qtype : N) (n i : nat) (current : string) (answer r : list rr) (rcode : N) (j : nat) : Prop :=
  (r = [] ∧ rcode = RcodeNameError) ∨
  ∃ cs recs k e, r = answer ++ cs ++ recs ∧ length cs ≤ n ∧ k ≤ j ∧ walked ms view i current cs k e ∧
    ended ms view qtype k j e recs rcode.

Lemma saw_nothing ms view qtype n i current answer rcode j : i ≤ j → saw ms view qtype n i current answer answer rcode j.
Proof.
  intros Hj. right. exists [], [], i, current. rewrite app_nil_r.
  split_and!; [done|cbn; lia|done|constructor|by left].
Qed.

Lemma saw_alias ms view qtype n i current answer r rcode j k v c target j1 : i ≤ k < j1 → shown view v →
  head (Store.Lookup (ms k) v current TypeCNAME).1 = Some c → dat c = DCNAME target →
  saw ms view qtype n j1 (NormalizeName target) (answer ++ [c]) r rcode j → saw ms view qtype (S n) i current answer r rcode j.
Proof.
  intros Hk Hv Hc Hd [Hn|(cs & recs & k' & e & -> & Hl & Hj & Hw & He)]; [by left|right].
  apply (walked_earlier _ _ _ (S k)) in Hw as (j' & Hj' & Hw); [|lia].
  exists (c :: cs), recs, j', e. rewrite <-app_assoc. split_and!; [done|cbn; lia|lia| |].
  - eapply walked_on; [|exact Hv|exact Hc|exact Hd|exact Hw]. lia.
  - destruct He as [?|(? & k1 & v1 & Hk1 & He)]; [by left|right]. split; [done|]. exists k1, v1. split; [lia|exact He].
Qed.

Lemma saw_earlier ms view qtype n i i' current answer r rcode j : i' ≤ i →
  saw ms view qtype n i current answer r rcode j → saw ms view qtype n i' current answer r rcode j.
Proof.
  intros Hi [?|(cs & recs & k & e & -> & Hl & Hj & Hw & He)]; [by left|right].
  apply (walked_earlier _ _ _ i') in Hw as (k' & Hk & Hw); [|done].
  exists cs, recs, k', e. split_and!; [done|done|lia|done|].
  destruct He as [?|(? & k1 & v1 & Hk1 & He)]; [by left|right]. split; [done|]. exists k1, v1. split; [lia|exact He].
Qed.

Lemma lookup_normal m view name qtype : Store.Lookup m view (NormalizeName name) qtype = Store.Lookup m view name qtype.
Proof. unfold Store.Lookup, lookupInTree. by rewrite normalize_idemp. Qed.

Lemma saw_found ms view qtype n i name answer records j :
  authoritativeLookup name qtype view ms i = ((records, LookupFound), j) →
  saw ms view qtype n i (NormalizeName name) answer (answer ++ records) RcodeSuccess j.
Proof.
  intros E. destruct (lookup_saw _ _ _ _ _ _ _ _ E ltac:(done)) as (k & v & Hk & Hv & El). right.
  exists [], records, i, (NormalizeName name). split_and!; [done|cbn; lia|lia|constructor|]. right. split; [done|].
  exists k, v. by rewrite lookup_normal.
Qed.

Lemma chain_saw n qtype view ms : ∀ visited current answer i r rcode j,
  chainLoop n qtype view visited current answer ms i = ((r, rcode), j) → saw ms view qtype n i current answer r rcode j.
Proof.
  induction n as [|n IH]; intros visited current answer i r rcode j; cbn [chainLoop].
  { intros [= <- <- <-]. by apply saw_nothing. }
  case_bool_decide; [intros [= <- <- <-]; by apply saw_nothing|].
  unfold mbind at 1, read_bind at 1. pose proof (loads_lookup current qtype view ms i) as Hj0.
  destruct (authoritativeLookup current qtype view ms i) as [[records st] j0] eqn:E0. cbn [snd] in Hj0. destruct st.
  - intros Hr. destruct (0 <? length answer); injection Hr as <- <- <-; [apply saw_nothing; lia|by left].
  - unfold mbind, read_bind. pose proof (loads_lookup current TypeCNAME view ms j0) as Hj1.
    destruct (authoritativeLookup current TypeCNAME view ms j0) as [[cnames st] j1] eqn:E1. cbn [snd] in Hj1.
    assert (Hret : ∀ rc, (answer, rc, j1) = (r, rcode, j) → saw ms view qtype (S n) i current answer r rcode j)
      by (intros rc [= <- <- <-]; apply saw_nothing; lia).
    destruct cnames as [|c l]; [intros Hr; by eapply Hret; destruct st|].
    destruct st; [intros Hr; by eapply Hret..|]. destruct (dat c) as [] eqn:Ed; try (intros Hr; by eapply Hret).
    intros Hr. destruct (lookup_saw _ _ _ _ _ _ _ _ E1 ltac:(done)) as (k1 & v & Hk1 & Hv & El).
    eapply (saw_alias _ _ _ _ _ _ _ _ _ _ k1 v); [|exact Hv| |exact Ed|by eapply IH]; [lia|by rewrite El].
  - intros Hr. injection Hr as <- <- <-. right.
    destruct (lookup_saw _ _ _ _ _ _ _ _ E0 ltac:(done)) as (k1 & v & Hk1 & Hv & El).
    exists [], records, i, current. split_and!; [done|cbn; lia|lia|constructor|]. right. split; [done|].
    exists k1, v. split_and!; [lia|lia|done|done].
Qed.

(** ** Against one version, a program computes what it does on that store *)
Definition agrees {A} (f : Read A) (m : Memory T) (a : A) : Prop := ∀ i, (f (λ _, m) i).1 = a.

Lemma agrees_load {A} (f : Memory T → A) m : agrees (load f) m (f m).
Proof. done. Qed.
Lemma agrees_bind {A B} (f : Read A) (g : A → Read B) m a b : agrees f m a → agrees (g a) m b → agrees (f ≫= g) m b.
Proof. intros Hf Hg i. unfold mbind, read_bind. specialize (Hf i). destruct (f _ i) as [x k]. cbn in Hf. subst. apply Hg. Qed.

Lemma lookup_agrees name qtype view m : agrees (authoritativeLookup name qtype view) m (Query.authoritativeLookup m name qtype view).
Proof.
  destruct view; cbn [authoritativeLookup]; [done|]. eapply agrees_bind; [apply agrees_load|].
  unfold Query.authoritativeLookup. destruct (Store.Lookup m ViewInternal name qtype) as [recs st]. cbn [snd].
  by case_bool_decide.
Qed.

Lemma soa_agrees view apexes m : agrees (soaLoop view apexes) m (Query.soaLoop m view apexes).
Proof.
  induction apexes as [|apex rest IH]; cbn [soaLoop Query.soaLoop]; [done|].
  eapply agrees_bind; [apply lookup_agrees|].
  destruct (Query.authoritativeLookup m apex TypeSOA view) as [[|r l] []]; exact IH || done.
Qed.

Lemma chain_agrees n qtype view visited current answer m :
  agrees (chainLoop n qtype view visited current answer) m (Query.chainLoop n m qtype view visited current answer).
Proof.
  revert visited current answer. induction n as [|n IH]; intros visited current answer; cbn [chainLoop Query.chainLoop]; [done|].
  case_bool_decide; [done|]. eapply agrees_bind; [apply lookup_agrees|].
  destruct (Query.authoritativeLookup m current qtype view) as [records []]; [by destruct (0 <? _)| |done].
  eapply agrees_bind; [apply lookup_agrees|].
  destruct (Query.authoritativeLookup m current TypeCNAME view) as [[|c l] []]; try done. destruct (dat c); apply IH || done.
Qed.

Lemma exists_agrees origin view m : agrees (ZoneExists origin view) m (zoneExistsLocked m origin view).
Proof. eapply agrees_bind; [apply agrees_load|]. unfold zoneExistsLocked. by destruct (zoneRecordOf m origin view). Qed.

Lemma name_agrees name view m : agrees (nameExistsInZone name view) m (Query.nameExistsInZone m name view).
Proof.
  unfold nameExistsInZone, Query.nameExistsInZone. destruct view; [done|]. rewrite !bool_decide_true by done.
  eapply agrees_bind; [apply agrees_load|]. cbn [andb treeForView]. by destruct (nameExistsInTree (internal m) name).
Qed.

Lemma zone_agrees apexes m : agrees (zoneLoop apexes) m
  (List.find (λ apex, zoneExistsLocked m apex ViewPublic || zoneExistsLocked m apex ViewInternal) apexes).
Proof.
  induction apexes as [|apex rest IH]; cbn [zoneLoop List.find]; [done|].
  eapply agrees_bind; [apply exists_agrees|].
  destruct (zoneExistsLocked m apex ViewPublic); cbn [orb]; [done|].
  eapply agrees_bind; [apply exists_agrees|]. destruct (zoneExistsLocked m apex ViewInternal); exact IH || done.
Qed.

Lemma address_agrees name qtype view m : agrees (resolveAddress name qtype view) m (Query.resolveAddress m name qtype view).
Proof.
  eapply agrees_bind; [apply lookup_agrees|]. unfold Query.resolveAddress.
  destruct (Query.authoritativeLookup m name qtype view) as [records []]; [done|apply chain_agrees|done].
Qed.

Lemma any_agrees name view m : agrees (resolveANY name view) m (Query.resolveANY m name view).
Proof.
  eapply agrees_bind; [apply name_agrees|]. unfold Query.resolveANY.
  destruct (Query.nameExistsInZone m name view); cbn [negb]; [|done].
  eapply agrees_bind; [apply soa_agrees|]. unfold Query.lookupZoneSOA. by destruct (Query.soaLoop m view _).
Qed.

Lemma chain_empty n qtype view ms : ∀ visited current answer i r j,
  chainLoop n qtype view visited current answer ms i = ((r, RcodeNameError), j) → r = [].
Proof.
  induction n as [|n IH]; intros visited current answer i r j; cbn [chainLoop]; [done|].
  case_bool_decide; [done|]. unfold mbind at 1, read_bind at 1.
  destruct (authoritativeLookup current qtype view ms i) as [[records []] j0]; [by destruct (0 <? _); intros [= <- _]| |done].
  unfold mbind, read_bind. destruct (authoritativeLookup current TypeCNAME view ms j0) as [[[|c l] st] j1]; [by destruct st|].
  destruct st; [done..|]. destruct (dat c); try done. apply IH.
Qed.

Lemma address_empty name qtype view ms i r j : resolveAddress name qtype view ms i = ((r, RcodeNameError), j) → r = [].
Proof.
  unfold resolveAddress, mbind, read_bind.
  destruct (authoritativeLookup name qtype view ms i) as [[records []] j0]; [by intros [= <- _]|apply chain_empty|done].
Qed.

Lemma found_or_empty name qtype view ms i recs st j : authoritativeLookup name qtype view ms i = ((recs, st), j) →
  st = LookupFound ∨ recs = [].
Proof.
  assert (Hl : ∀ m v rs st, Store.Lookup m v name qtype = (rs, st) → st = LookupFound ∨ rs = [])
    by (intros m v rs st'; unfold Store.Lookup, lookupInTree; repeat case_match; intros [= <- <-]; auto).
  destruct view; cbn [authoritativeLookup].
  - intros [= E _]. by eapply Hl.
  - unfold mbind, read_bind, Lookup, load. destruct (Store.Lookup (ms i) ViewInternal name qtype) as [rs st'] eqn:E. cbn [snd].
    case_bool_decide; cbn [negb]; [intros [= E' _]|intros [= <- <- _]]; by eapply Hl.
Qed.

Lemma address_saw name qtype view ms i r rcode j : resolveAddress name qtype view ms i = ((r, rcode), j) →
  saw ms view qtype Query.maxCNAMEChainDepth i (NormalizeName name) [] r rcode j ∧ i ≤ j ≤ i + 34.
Proof.
  unfold resolveAddress, mbind, read_bind. pose proof (loads_lookup name qtype view ms i) as Hj0.
  destruct (authoritativeLookup name qtype view ms i) as [[records st] j0] eqn:E0. cbn [snd] in Hj0. destruct st.
  - intros [= <- <- <-]. split; [by left|lia].
  - intros Hr. pose proof (loads_chain Query.maxCNAMEChainDepth qtype view ∅ (NormalizeName name) [] ms j0) as Hj.
    unfold followCNAMEChain in Hr. pose proof (chain_saw _ _ _ _ _ _ _ _ _ _ _ Hr) as Hs. rewrite Hr in Hj. cbn [snd] in Hj.
    unfold Query.maxCNAMEChainDepth in Hj. split; [|lia]. eapply saw_earlier; [|exact Hs]. lia.
  - intros [= <- <- <-]. split; [|lia]. by apply (saw_found _ _ _ _ _ _ []).
Qed.

(** * Properties *)

(** when nothing changes during a query, the loads see one store and the query is
    answered as Query says. *)
Theorem quiet_is_sequential q view m : agrees (resolveQuestion q view) m (Query.resolveQuestion m q view) ∧
  agrees (findAuthoritativeZone (q_name q)) m (Query.findAuthoritativeZone m (q_name q)).
Proof.
  split; [|apply zone_agrees]. unfold resolveQuestion, Query.resolveQuestion.
  destruct ((_ =? _) || (_ =? _))%N; [|destruct (_ =? _)%N].
  - eapply agrees_bind; [apply address_agrees|]. by destruct (Query.resolveAddress m (q_name q) (q_type q) view).
  - apply any_agrees.
  - eapply agrees_bind; [apply lookup_agrees|]. by destruct (Query.authoritativeLookup m (q_name q) (q_type q) view) as [records []].
Qed.


End reads.

(** ** Signing a published tree

    [persistZoneFile] signs the tree that an edit has already published: the names
    of the zone are deleted from the live tree and inserted again, signed, and
    readers see every stage. *)
Fixpoint stages {A B} (f : A → B → A) (a : A) (l : list B) : list A :=
  a :: match l with [] => [] | b :: l => stages f (f a b) l end.

Section signing.
Context {T : Type → Type} {RO : RadixOps T} {MR : MapRange}.

Definition signing_stages (tree : T byType) (origin : string) (signed : list rr) : list (T byType) :=
  stages radix_delete tree (zoneNames tree origin) ++ stages insertRR (stripAllZoneRecords tree origin) signed.

Lemma last_stages {A B} (f : A → B → A) a l : last (stages f a l) = Some (foldl f a l).
Proof. revert a. induction l as [|b l IH]; intros a; [done|]. cbn [stages foldl]. rewrite <-IH. by destruct l. Qed.

(** The stages start at the published tree and end at the one Store says. *)
Lemma signing_ends tree origin signed : head (signing_stages tree origin signed) = Some tree ∧
  last (signing_stages tree origin signed) = Some (applySignedRecords tree origin signed).
Proof.
  unfold signing_stages. split; [by destruct (zoneNames tree origin)|].
  rewrite last_app, last_stages. done.
Qed.

Context {RL : RadixLaws T}.

Lemma stripped_missing tree origin name : isNameInZone name origin = true →
  radix_get (stripAllZoneRecords tree origin) (NormalizeName name) = None.
Proof.
  intros Hz. rewrite contents_get. unfold stripAllZoneRecords. rewrite contents_delete_all.
  destruct (decide (NormalizeName name ∈ zoneNames tree origin)) as [|Hn]; [done|].
  destruct (contents tree !! NormalizeName name) eqn:E; [|done]. exfalso. apply Hn, elem_zoneNames.
  by rewrite in_zone_normalize_l.
Qed.

(** an edit of a zone that Auto-DNSSEC signs hides the zone for a moment: at one
    of the stages of the signing every question about a name of the zone is
    answered NXDOMAIN, or even passed on to a resolver, whatever was in the zone
    before the edit and is in it after. *)
Theorem signing_hides_zone m tree origin signed : ∃ t, t ∈ signing_stages tree origin signed ∧
  ∀ q, isNameInZone (q_name q) origin = true →
    Query.resolveQuestion (swapTree ViewPublic t m) q ViewPublic =
    ([], RcodeNameError, negb (Query.isActiveDirectoryQuery (q_name q))).
Proof.
  exists (stripAllZoneRecords tree origin). split.
  { unfold signing_stages. apply elem_of_app. right. destruct signed; left. }
  intros q Hz. pose proof (stripped_missing tree origin _ Hz) as Hm.
  unfold Query.resolveQuestion, Query.resolveAddress, Query.resolveANY, Query.nameExistsInZone, Query.authoritativeLookup,
    Store.Lookup, lookupInTree, nameExistsInTree. cbn [treeForView swapTree public andb]. rewrite Hm.
  rewrite (bool_decide_false (ViewPublic = ViewInternal)) by done. rewrite (bool_decide_false (is_Some None)) by by intros [].
  destruct ((_ =? _) || (_ =? _))%N; [done|]. by destruct (_ =? _)%N.
Qed.
End signing.

(** These are the stages of an edit: what it leaves is the last of them. *)
Section edit.
Context {T : Type → Type} {W D P : Type}.
Context {RO : RadixOps T} {MR : MapRange} {SS : SortSlice} {DT : DnsText} {DG : Digest}
  {ZP : ZoneParser} {FS : FileSys W} {KD : KeyDB D} {DC : DnssecCrypto P} {KT : KeyText P}.

Lemma edit_signs now zonesDir origin view tree (s s' : system T W D) :
  dnssec_on (mem s) && ShouldSign (P := P) (keys s) (NormalizeName origin) view = true →
  publishAndPersist (P := P) now zonesDir origin view tree s = (s', None) →
  ∃ signed, last (signing_stages tree (NormalizeName origin) signed) = Some (treeForView (mem s') view).
Proof.
  intros Hs. unfold publishAndPersist, persistZoneFile. cbn [mem set_mem keys].
  replace (dnssec_on (swapTree view tree (mem s))) with (dnssec_on (mem s)) by by destruct view.
  rewrite Hs. apply andb_true_iff in Hs as [_ Hs]. unfold ShouldSign in Hs. rewrite normalize_idemp in Hs.
  apply andb_true_iff in Hs as [He _]. unfold SignTree. rewrite He. cbn [negb]. rewrite normalize_idemp.
  destruct (LoadKeys _ _ _) as [[ksk zsk]|e]; cbn [res_bind res_wrap]; [|done].
  destruct (SignZone _ _ _ _ _) as [signed|e]; cbn [res_bind res_wrap]; [|done].
  destruct (persistUnsignedZoneFile _ _ _ _ _) as [s1 [e|]]; [done|]. intros [= <-].
  exists signed. rewrite (proj2 (signing_ends _ _ _)). by destruct view.
Qed.
End edit.

(** ** Consequences and witnesses *)

(** [demo_memory] with the trees exchanged: the zone has moved to the internal
    view. *)
Definition demo_moved : Memory gtree := MkMemory radix_new Query.demo_public ∅ ∅ ∅ false.
Definition demo_versions : versions (T := gtree) := λ i, if i =? 0 then Query.demo_memory else demo_moved.
Definition demo_question : question := Question "www.example" TypeA ClassINET.

(** A name that every version of the store has can still be denied: the internal
    tree is read before the zone moves there, the public one after. A reload that
    moves a zone swaps the two trees one after the other, so even versions the
    reload was never meant to pass through can be seen. *)
Lemma moved_name_missed :
  (∀ i, (Query.resolveQuestion (demo_versions i) demo_question ViewInternal).1.2 = RcodeSuccess) ∧
  (resolveQuestion demo_question ViewInternal demo_versions 0).1.1.2 = RcodeNameError.
Proof. split; [intros [|i]; by vm_compute|by vm_compute]. Qed.



End Concurrent.
