(* ===== verification/Iterative.v ===== *)
(** * The iterative resolver: dnsproc/iterative.go

    Queries walk the delegations from the root servers. [resolve] calls itself
    with a greater depth, for the next zone and for the addresses of name
    servers: the depth left is its fuel, so the limit of the code is the
    recursion of the model. A call follows CNAMEs in a loop of at most
    [maxCNAMEChainDepth] steps. *)
From S2P Require Import Prelude NetAddr Dns Sorting Cache Upstream Validator Query.
Import Cache Upstream Query Validator.

Module Iterative.

Definition maxIterativeDepth := 15.
Definition ErrIterativeDepthExceeded := errNew "iterative resolution depth exceeded".

Record IterativeResolver := MkIterative {
  rootHints : list string;
  i_dnssecValidation : bool;
  qnameMinimization : bool;
  maxDepth : nat
}.

Definition NewIterativeResolver (hints : list string) (dnssec minimization : bool)
    : IterativeResolver := MkIterative hints dnssec minimization maxIterativeDepth.

Definition NewIterativeFromConfig (hints : list string) (dnssec minimization : bool)
    : res IterativeResolver :=
  let? hints := res_wrap "root hints: %w" (NormalizeUpstreams hints) in
  Ok (NewIterativeResolver hints dnssec minimization).

(** The texts of a list whose keys are not yet [seen], each once. *)
Fixpoint distinct (key : string → string) (l : list string) (seen : gset string) : list string :=
  match l with
  | [] => []
  | a :: l =>
      if decide (key a ∈ seen) then distinct key l seen
      else a :: distinct key l ({[key a]} ∪ seen)
  end.

Section iterative.
Context {DT : DnsText} {DM : DnsMsg} {DQ : DnsQuestion} {SS : SortSlice}
  {X : Type} {CL : DnsClient X}.
Implicit Types (r : IterativeResolver) (n : network (X := X)).

(** ** Names of the queries *)
Definition qnameLabelCount (name : string) : nat := length (split_domain_name (fqdn name)).

Definition minimizedQName (name : string) (labelCount : nat) : string :=
  let labels := split_domain_name (fqdn name) in
  if (labelCount =? 0) || (length labels <=? labelCount) then fqdn name
  else fqdn (join (drop (length labels - labelCount) labels) ".").

Definition delegationQueryParams r (target : string) (qtype : N) (minLabels : nat)
    : string * N * bool :=
  let target := fqdn target in
  if negb (qnameMinimization r) || (minLabels =? 0) then (target, qtype, false)
  else if qnameLabelCount target <=? minLabels then (target, qtype, false)
  else (minimizedQName target minLabels, TypeNS, true).

Definition buildQuery r (name : string) (qtype qclass : N) : msg :=
  let m := set_question_of new_msg (fqdn name) qtype in
  let m := set_question m
    match m_question m with q :: qs => Question (q_name q) (q_type q) qclass :: qs | [] => [] end in
  set_edns0 (set_rd m false) DefaultMsgSize (i_dnssecValidation r).

Definition startLabels r : nat := if qnameMinimization r then 1 else 0.

(** ** Asking servers *)
Definition sortServers (servers : list string) n : list string := SortServers (rtt n) servers.
Definition pickRoot r n : list string := sortServers (rootHints r) n.

Definition queryServers (req : msg) (servers : list string) n : res msg * network (X := X) :=
  match tryServers req (sortServers servers n) None n with
  | (inl (resp, _), n) => (Ok resp, n)
  | (inr (Some e), n) => (Err e, n)
  | (inr None, n) => (Err (errNew "all nameserver queries failed"), n)
  end.

Definition needsQNameMinFallback (resp : msg) : bool :=
  (m_rcode resp =? RcodeServerFailure)%N || (m_rcode resp =? RcodeRefused)%N.

Definition queryDelegation r (req : msg) (fullName : string) (qtype qclass : N)
    (servers : list string) (minimized : bool) n : res msg * network (X := X) :=
  let '(resp, n) := queryServers req servers n in
  if negb minimized then (resp, n)
  else
    let fallback :=
      queryServers (buildQuery r (fqdn fullName) qtype qclass) servers (n_inc QNameMinFallback n) in
    match resp with
    | Err _ => fallback
    | Ok m => if needsQNameMinFallback m then fallback else (Ok m, n)
    end.

(** ** Reading a response *)
Definition matchesQuery (qname : string) (qtype : N) (r : rr) : bool :=
  bool_decide (canonical_name (name_of r) = canonical_name qname) && (type_of r =? qtype)%N.

Definition responseMatchesQuery (resp : msg) (qname : string) (qtype : N) : option msg :=
  if negb (m_rcode resp =? RcodeSuccess)%N then None
  else
    match List.filter (matchesQuery qname qtype) (m_answer resp) with
    | [] => None
    | matched =>
        Some (set_rcode (set_answer (set_question (set_compress resp false) []) matched)
                RcodeSuccess)
    end.

Definition isSOA (r : rr) : bool := match dat r with DSOA _ => true | _ => false end.

Definition isNegative (resp : msg) : bool :=
  (m_rcode resp =? RcodeNameError)%N ||
  ((m_rcode resp =? RcodeSuccess)%N && bool_decide (m_answer resp = []) && existsb isSOA (m_ns resp)).

Fixpoint cnameIn (qname : string) (rs : list rr) : option string :=
  match rs with
  | [] => None
  | r :: rs =>
      match dat r with
      | DCNAME target =>
          if bool_decide (canonical_name (name_of r) = canonical_name qname)
          then Some target else cnameIn qname rs
      | _ => cnameIn qname rs
      end
  end.
Definition cnameTarget (resp : msg) (qname : string) : option string :=
  cnameIn qname (m_answer resp).

Definition nsHostOf (r : rr) : option string := match dat r with DNS ns => Some ns | _ => None end.
Definition referralNS (resp : msg) : list string :=
  distinct canonical_name (omap nsHostOf (m_ns resp ++ m_answer resp)) ∅.

(** The address of an A or AAAA record, to be asked on port 53. *)
Definition addressTarget (r : rr) : option string :=
  match dat r with
  | DA ip | DAAAA ip =>
      if bool_decide (ip = IPNil) then None else Some (JoinHostPort (net_ip_string ip) "53")
  | _ => None
  end.

Definition glueAddrs (resp : msg) (nsHosts : list string) : list string :=
  let want := map canonical_name nsHosts in
  distinct id (omap addressTarget
    (List.filter (λ x : rr, bool_decide (canonical_name (name_of x) ∈ want)) (m_extra resp))) ∅.

Definition extractAddressTargets (resp : msg) : list string :=
  distinct id (omap addressTarget (m_answer resp)) ∅.

(** ** Resolution *)

(** [self] is [resolve] one level deeper. *)
Section step.
Variable r : IterativeResolver.
Variable self : string → N → N → list string → nat → network (X := X) → res msg * network (X := X).

Definition resolveNameserverHost (host : string) n : res (list string) * network (X := X) :=
  let lookup qtype n := self host qtype ClassINET (pickRoot r n) (startLabels r) n in
  let ok (resp : res msg) : list string :=
    match resp with
    | Ok m => if (m_rcode m =? RcodeSuccess)%N then extractAddressTargets m else []
    | Err _ => []
    end in
  let '(resp, n) := lookup TypeA n in
  match ok resp with
  | [] =>
      let '(resp, n) := lookup TypeAAAA n in
      (match resp with
       | Err e => Err e
       | Ok m =>
           if negb (m_rcode m =? RcodeSuccess)%N
           then Err (errNew "nameserver %s address lookup failed")
           else match extractAddressTargets m with
                | [] => Err (errNew "nameserver %s has no address records")
                | addrs => Ok addrs
                end
       end, n)
  | addrs => (Ok addrs, n)
  end.

(** The addresses of all hosts, in order; hosts that do not resolve are skipped. *)
Fixpoint glueLoop (nsHosts : list string) n : list string * network (X := X) :=
  match nsHosts with
  | [] => ([], n)
  | host :: rest =>
      let '(addrs, n) := resolveNameserverHost host n in
      let '(out, n) := glueLoop rest n in
      (from_ok [] addrs ++ out, n)
  end.

Definition resolveGlue (nsHosts : list string) n : res (list string) * network (X := X) :=
  let '(all, n) := glueLoop nsHosts n in
  match distinct id all ∅ with
  | [] => (Err (errNew "failed to resolve glue for nameservers %v"), n)
  | out => (Ok out, n)
  end.

Definition followReferral (resp : msg) (current : string) (qtype qclass : N) (minLabels : nat)
    (minimized : bool) n : res msg * network (X := X) :=
  match referralNS resp with
  | [] => (Err (errNew "no answer or referral from nameservers %v"), n)
  | nsHosts =>
      let '(next, n) :=
        match glueAddrs resp nsHosts with
        | [] => resolveGlue nsHosts n
        | next => (Ok next, n)
        end in
      match next with
      | Err e => (Err e, n)
      | Ok next =>
          self current qtype qclass (sortServers next n)
            (if minimized then S minLabels else minLabels) n
      end
  end.

Fixpoint cnameLoop (steps : nat) (current : string) (qtype qclass : N) (servers : list string)
    (minLabels : nat) n : res msg * network (X := X) :=
  match steps with
  | 0 => (Err ErrIterativeDepthExceeded, n)
  | S steps =>
      let '(queryName, queryType, minimized) := delegationQueryParams r current qtype minLabels in
      let '(resp, n) :=
        queryDelegation r (buildQuery r queryName queryType qclass) current qtype qclass servers
          minimized n in
      match resp with
      | Err e => (Err e, n)
      | Ok resp =>
          match responseMatchesQuery resp current qtype with
          | Some final => (Ok final, n)
          | None =>
              if isNegative resp then (Ok resp, n)
              else
                match cnameTarget resp current with
                | Some target =>
                    cnameLoop steps (fqdn target) qtype qclass (pickRoot r n) (startLabels r) n
                | None => followReferral resp current qtype qclass minLabels minimized n
                end
          end
      end
  end.
End step.

(** [depth] is [maxDepth] less the first argument. *)
Fixpoint resolve r (remaining : nat) (name : string) (qtype qclass : N) (servers : list string)
    (minLabels : nat) n : res msg * network (X := X) :=
  match remaining with
  | 0 => (Err ErrIterativeDepthExceeded, n)
  | S remaining =>
      if bool_decide (servers = []) then
        (Err (errNew "no nameservers available for iterative query"), n)
      else
        cnameLoop r (resolve r remaining) maxCNAMEChainDepth (fqdn name) qtype qclass servers minLabels n
  end.

Definition iterate r (req : msg) (client : addr) n : res msg * network (X := X) :=
  if bool_decide (rootHints r = []) then (Err (errNew "iterative resolver is not configured"), n)
  else
    match m_question req with
    | [] => (Err (errNew "query has no question section"), n)
    | q :: _ =>
        let n := n_inc ForwardedQuery n in
        match resolve r (maxDepth r) (q_name q) (q_type q) (q_class q) (pickRoot r n)
                (startLabels r) n with
        | (Err e, n) => (Err e, n_inc UpstreamFailure n)
        | (Ok resp, n) => (Ok resp, n)
        end
    end.

Definition ECSCacheContext_i r (client : addr) : ECSContext := MkECS false AInvalid 0 0.

#[export] Instance iterative_resolver : ExchangeResolver IterativeResolver (network (X := X)) := {|
  Exchange := iterate;
  ECSCacheContext := ECSCacheContext_i
|}.

(** ** What the resolver may answer *)

(** The queries sent on behalf of a name: the whole question, or one for the
    name servers of an ancestor. *)
Definition asks r (qtype qclass : N) (name : string) (req : msg) : Prop :=
  req = buildQuery r (fqdn name) qtype qclass ∨
  (qnameMinimization r = true ∧ ∃ k, 0 < k < qnameLabelCount name ∧
     req = buildQuery r (minimizedQName name k) TypeNS qclass).

(** A message some server sent back to such a query. *)
Definition heard r (qtype qclass : N) (name : string) (m : msg) : Prop :=
  ∃ req x a t x', asks r qtype qclass name req ∧ m_rcode m ≠ RcodeServerFailure ∧
    client_exchange x req a = (Ok (Some m), t, x').

(** One CNAME a server gave for the name asked. *)
Definition alias r (qtype qclass : N) (name target : string) : Prop :=
  ∃ m t, heard r qtype qclass name m ∧ cnameTarget m name = Some t ∧ target = fqdn t.

Definition answered r (qtype qclass : N) (name : string) (resp : msg) : Prop :=
  ∃ name' m, rtc (alias r qtype qclass) name name' ∧ heard r qtype qclass name' m ∧
    (responseMatchesQuery m name' qtype = Some resp ∨ (isNegative m = true ∧ resp = m)).

(** ** Lemmas *)
Lemma queryServers_ok req servers n m n' :
  queryServers req servers n = (Ok m, n') →
  m_rcode m ≠ RcodeServerFailure ∧
  ∃ x a t x', client_exchange x req a = (Ok (Some m), t, x').
Proof.
  unfold queryServers. destruct (tryServers _ _ _ _) as [[[resp s]|[e|]] n1] eqn:E; try done.
  intros [= <- <-]. apply tryServers_ok in E as (? & n2 & t & x & E). eauto 10.
Qed.

Lemma queryServers_heard r qtype qclass name req servers n m n' :
  asks r qtype qclass name req → queryServers req servers n = (Ok m, n') →
  heard r qtype qclass name m.
Proof.
  intros Ha (Hr & x & a & t & x' & E)%queryServers_ok. by exists req, x, a, t, x'.
Qed.

Section laws.
Context {QL : DnsQuestionLaws}.

Lemma params_asks r qtype qclass name k qn qt b :
  fqdn name = name → delegationQueryParams r name qtype k = (qn, qt, b) →
  asks r qtype qclass name (buildQuery r qn qt qclass) ∧
  (b = false → qn = fqdn name ∧ qt = qtype).
Proof.
  unfold delegationQueryParams. intros Hn. rewrite Hn.
  destruct (qnameMinimization r) eqn:Em; cbn [negb orb].
  - destruct (Nat.eqb_spec k 0) as [->|Hk]; [intros [= <- <- <-]; split; [left; by rewrite Hn|done]|].
    destruct (Nat.leb_spec (qnameLabelCount name) k).
    + intros [= <- <- <-]. split; [left; by rewrite Hn|done].
    + intros [= <- <- <-]. split; [|done]. right. split; [done|]. exists k. split; [lia|done].
  - intros [= <- <- <-]. split; [left; by rewrite Hn|done].
Qed.

Lemma queryDelegation_heard r qtype qclass name req servers b n m n' :
  asks r qtype qclass name req →
  queryDelegation r req name qtype qclass servers b n = (Ok m, n') →
  heard r qtype qclass name m.
Proof.
  intros Ha. unfold queryDelegation. destruct (queryServers req servers n) as [resp n1] eqn:E.
  destruct b; cbn [negb].
  - assert (Hf : ∀ n, queryServers (buildQuery r (fqdn name) qtype qclass) servers n = (Ok m, n') →
      heard r qtype qclass name m) by (intros; eapply queryServers_heard; [by left|done]).
    destruct resp as [m1|e]; [|apply Hf]. destruct (needsQNameMinFallback m1); [apply Hf|].
    intros [= <- <-]. by eapply queryServers_heard.
  - intros [= -> ->]. by eapply queryServers_heard.
Qed.

Lemma answered_step r qtype qclass name target resp :
  alias r qtype qclass name target → answered r qtype qclass target resp →
  answered r qtype qclass name resp.
Proof. intros Ha (x & m & Hx & H). exists x, m. split; [by eapply rtc_l|done]. Qed.

Lemma cnameLoop_sound r self qclass :
  (∀ name qtype servers k n resp n', self name qtype qclass servers k n = (Ok resp, n') →
     answered r qtype qclass (fqdn name) resp) →
  ∀ steps current qtype servers k n resp n',
    fqdn current = current →
    cnameLoop r self steps current qtype qclass servers k n = (Ok resp, n') →
    answered r qtype qclass current resp.
Proof.
  intros Hself steps. induction steps as [|steps IH]; intros cur qtype servers k n resp n' Hc; [done|].
  cbn [cnameLoop]. destruct (delegationQueryParams r cur qtype k) as [[qn qt] b] eqn:Ep.
  destruct (params_asks r qtype qclass cur k qn qt b Hc Ep) as [Ha _].
  destruct (queryDelegation _ _ _ _ _ _ _ _) as [[m|e] n1] eqn:Eq; [|done].
  apply queryDelegation_heard in Eq; [|done].
  destruct (responseMatchesQuery m cur qtype) as [final|] eqn:Em.
  { intros [= <- <-]. exists cur, m. split_and!; [done..|by left]. }
  destruct (isNegative m) eqn:En.
  { intros [= <- <-]. exists cur, m. split_and!; [done..|by right]. }
  destruct (cnameTarget m cur) as [t|] eqn:Et.
  - intros H. eapply answered_step; [by exists m, t|].
    apply IH in H; [done|]. apply fqdn_idemp.
  - unfold followReferral. destruct (referralNS m) as [|h hs]; [done|].
    destruct (match glueAddrs m (h :: hs) with [] => _ | _ => _ end) as [[next|e] n2]; [|done].
    intros H. rewrite <-Hc. by eapply Hself.
Qed.

Lemma resolve_sound r remaining name qtype qclass servers k n resp n' :
  resolve r remaining name qtype qclass servers k n = (Ok resp, n') →
  answered r qtype qclass (fqdn name) resp.
Proof.
  revert name qtype servers k n resp n'.
  induction remaining as [|d IH]; intros name qtype servers k n resp n'; cbn [resolve]; [done|].
  destruct (bool_decide _); [done|]. apply cnameLoop_sound; [exact IH|apply fqdn_idemp].
Qed.

Lemma iterate_ok r req client n resp n' :
  iterate r req client n = (Ok resp, n') →
  ∃ q qs, m_question req = q :: qs ∧
    resolve r (maxDepth r) (q_name q) (q_type q) (q_class q)
      (pickRoot r (n_inc ForwardedQuery n)) (startLabels r) (n_inc ForwardedQuery n) = (Ok resp, n').
Proof.
  unfold iterate. destruct (bool_decide _); [done|]. destruct (m_question req) as [|q qs]; [done|].
  destruct (resolve _ _ _ _ _ _ _ _) as [[m|e] n1] eqn:E; [|done]. intros [= -> ->]. eauto.
Qed.

Lemma responseMatches_spec m name qtype resp :
  responseMatchesQuery m name qtype = Some resp →
  m_rcode m = RcodeSuccess ∧ m_rcode resp = RcodeSuccess ∧
  m_answer resp = List.filter (matchesQuery name qtype) (m_answer m) ∧ m_answer resp ≠ [] ∧
  m_ns resp = m_ns m ∧ m_extra resp = m_extra m.
Proof.
  unfold responseMatchesQuery. destruct (N.eqb_spec (m_rcode m) RcodeSuccess) as [E|]; [|done].
  cbn [negb]. destruct (List.filter _ _) eqn:Ef; [done|]. intros [= <-]. done.
Qed.

Lemma isNegative_rcode m : isNegative m = true → m_rcode m ≠ RcodeServerFailure.
Proof.
  unfold isNegative. intros [H|H]%orb_true_iff; bool_hyps; [by rewrite H|by rewrite H].
Qed.

#[export] Instance iterative_laws : ExchangeLaws IterativeResolver (network (X := X)).
Proof.
  split. intros r req client n resp n' (q & qs & _ & H%resolve_sound)%iterate_ok.
  destruct H as (name & m & _ & _ & [(_ & -> & _)%responseMatches_spec | [H ->]]); [done|].
  by apply isNegative_rcode.
Qed.

(** ** Queries

    A property of the client's state that no plain query breaks survives a
    whole resolution. *)
Definition plain (req : msg) : Prop :=
  (∃ name qtype qclass, m_question req = [Question (fqdn name) qtype qclass]) ∧
  m_rd req = false ∧ ExtractECSSubnet (Some req) = None.

Section queries.
Context {DL : DnsMsgLaws}.
Variable r : IterativeResolver.
Variable P : X → Prop.
Hypothesis HP : ∀ x req a, P x → plain req → P (client_exchange x req a).2.

Lemma buildQuery_plain name qtype qclass : plain (buildQuery r name qtype qclass).
Proof.
  unfold plain, buildQuery. rewrite set_question_question. cbn [q_name q_type].
  match goal with |- context [set_edns0 ?m ?size ?d] =>
    pose proof (set_edns0_appends m size d) as (o & E & Ho & Hos);
    assert (Hn : is_edns0 m = None) end.
  { unfold is_edns0. rewrite (proj2 (edns_index_none _)); [done|].
    cbn [m_extra set_rd set_question]. by rewrite set_question_extra. }
  pose proof (is_edns0_set _ DefaultMsgSize (i_dnssecValidation r) Hn) as (o' & Eo & Hs).
  split_and!.
  - rewrite E. cbn. by eexists _, _, _.
  - by rewrite E.
  - unfold ExtractECSSubnet. rewrite Eo. by rewrite Hs.
Qed.

Lemma tryServer_keeps req s n : plain req → P (wire n) → P (wire (tryServer req s n).2).
Proof.
  intros Hq Hn. unfold tryServer.
  pose proof (HP (wire n) req (DialUpstreamAddress s) Hn Hq) as H.
  destruct (client_exchange _ _ _) as [[[[m|]|e] t] x]; cbn in *; [|done..].
  by destruct (_ =? _)%N.
Qed.

Lemma tryServers_keeps req l e n : plain req → P (wire n) → P (wire (tryServers req l e n).2).
Proof.
  intros Hq. revert e n. induction l as [|s l IH]; intros e n Hn; cbn [tryServers]; [done|].
  pose proof (tryServer_keeps req s n Hq Hn) as H.
  destruct (tryServer req s n) as [[m|e'] n1]; [done|]. by apply IH.
Qed.

Lemma queryServers_keeps req l n : plain req → P (wire n) → P (wire (queryServers req l n).2).
Proof.
  intros Hq Hn. unfold queryServers. pose proof (tryServers_keeps req (sortServers l n) None n Hq Hn).
  by destruct (tryServers _ _ _ _) as [[[m s]|[e|]] n1].
Qed.

Lemma queryDelegation_keeps req name qtype qclass l b n :
  plain req → P (wire n) → P (wire (queryDelegation r req name qtype qclass l b n).2).
Proof.
  intros Hq Hn. unfold queryDelegation. pose proof (queryServers_keeps req l n Hq Hn) as H.
  destruct (queryServers req l n) as [resp n1]. destruct b; cbn [negb]; [|done].
  assert (Hf : P (wire (queryServers (buildQuery r (fqdn name) qtype qclass) l
    (n_inc QNameMinFallback n1)).2)) by (apply queryServers_keeps; [apply buildQuery_plain|done]).
  destruct resp as [m|e]; [|done]. by destruct (needsQNameMinFallback m).
Qed.

Section deeper.
Variable self : string → N → N → list string → nat → network (X := X) → res msg * network (X := X).
Hypothesis Hself : ∀ name qtype qclass l k n, P (wire n) →
  P (wire (self name qtype qclass l k n).2).

Lemma resolveNameserverHost_keeps host n :
  P (wire n) → P (wire (resolveNameserverHost r self host n).2).
Proof.
  intros Hn. unfold resolveNameserverHost.
  pose proof (Hself host TypeA ClassINET (pickRoot r n) (startLabels r) n Hn) as H1.
  destruct (self _ TypeA _ _ _ _) as [resp n1].
  pose proof (Hself host TypeAAAA ClassINET (pickRoot r n1) (startLabels r) n1 H1) as H2.
  destruct (self _ TypeAAAA _ _ _ n1) as [resp2 n2].
  by destruct (match resp with Ok _ => _ | _ => _ end).
Qed.

Lemma glueLoop_keeps hosts n : P (wire n) → P (wire (glueLoop r self hosts n).2).
Proof.
  revert n. induction hosts as [|h hs IH]; intros n Hn; cbn [glueLoop]; [done|].
  pose proof (resolveNameserverHost_keeps h n Hn) as H1.
  destruct (resolveNameserverHost r self h n) as [addrs n1].
  specialize (IH n1 H1). by destruct (glueLoop r self hs n1).
Qed.

Lemma followReferral_keeps m cur qtype qclass k b n :
  P (wire n) → P (wire (followReferral r self m cur qtype qclass k b n).2).
Proof.
  intros Hn. unfold followReferral. destruct (referralNS m) as [|h hs]; [done|].
  destruct (glueAddrs m (h :: hs)) as [|a l]; [|by apply Hself].
  unfold resolveGlue. pose proof (glueLoop_keeps (h :: hs) n Hn) as H.
  destruct (glueLoop r self (h :: hs) n) as [all n1].
  destruct (distinct id all ∅); [done|]. by apply Hself.
Qed.

Lemma cnameLoop_keeps steps cur qtype qclass l k n :
  P (wire n) → P (wire (cnameLoop r self steps cur qtype qclass l k n).2).
Proof.
  revert cur l k n. induction steps as [|steps IH]; intros cur l k n Hn; cbn [cnameLoop]; [done|].
  destruct (delegationQueryParams r cur qtype k) as [[qn qt] b].
  pose proof (queryDelegation_keeps _ cur qtype qclass l b n (buildQuery_plain qn qt qclass) Hn) as H.
  destruct (queryDelegation _ _ _ _ _ _ _ _) as [[m|e] n1]; [|done].
  destruct (responseMatchesQuery m cur qtype); [done|].
  destruct (isNegative m); [done|].
  destruct (cnameTarget m cur); [by apply IH | by apply followReferral_keeps].
Qed.
End deeper.

Lemma resolve_keeps d name qtype qclass l k n :
  P (wire n) → P (wire (resolve r d name qtype qclass l k n).2).
Proof.
  revert name qtype qclass l k n. induction d as [|d IH]; intros name qtype qclass l k n Hn;
    cbn [resolve]; [done|].
  destruct (bool_decide _); [done|]. by apply cnameLoop_keeps.
Qed.

Lemma iterate_keeps req client n : P (wire n) → P (wire (iterate r req client n).2).
Proof.
  intros Hn. unfold iterate. destruct (bool_decide _); [done|].
  destruct (m_question req) as [|q qs]; [done|].
  pose proof (resolve_keeps (maxDepth r) (q_name q) (q_type q) (q_class q)
    (pickRoot r (n_inc ForwardedQuery n)) (startLabels r) (n_inc ForwardedQuery n) Hn) as H.
  by destruct (resolve _ _ _ _ _ _ _ _) as [[m|e] n1].
Qed.
End queries.

(** ** Delegations

    All servers of a list give the same answer, whatever happened before. *)
Definition serves (l : list string) (req m : msg) : Prop :=
  l ≠ [] ∧ ∀ s, s ∈ l → ∀ n, ∃ n', tryServer req s n = (Ok m, n').

(** What is asked at a zone when [j] labels may be shown (RFC 9156): with
    minimisation on, the name servers of the last [j] labels as long as more
    are hidden; the question itself otherwise. *)
Definition hides r (name : string) (j : nat) : bool :=
  qnameMinimization r && (0 <? j) && (j <? length (split_domain_name name)).
Definition question_at r (name : string) (qtype : N) (j : nat) : string * N :=
  let labels := split_domain_name name in
  if hides r name j then (fqdn (join (drop (length labels - j) labels) "."), TypeNS) else (name, qtype).

(** What the servers of a zone say: the answer to that question, or to the full
    one when they refuse (5) the minimised one. *)
Definition told r name qtype qclass (j : nat) (l : list string) (m : msg) : Prop :=
  ∃ m0, serves l (buildQuery r (question_at r name qtype j).1 (question_at r name qtype j).2 qclass) m0 ∧
    if hides r name j && (m_rcode m0 =? 5)%N then serves l (buildQuery r name qtype qclass) m else m = m0.

(** A path of [k] zones down to the answer: each zone but the last refers to
    servers whose addresses come with the referral. *)
Inductive walk r (name : string) (qtype qclass : N) : nat → list string → nat → msg → Prop :=
| walk_end j l m resp :
    told r name qtype qclass j l m →
    responseMatchesQuery m name qtype = Some resp ∨
      (responseMatchesQuery m name qtype = None ∧ isNegative m = true ∧ resp = m) →
    walk r name qtype qclass j l 1 resp
| walk_refer j l m k resp :
    told r name qtype qclass j l m →
    responseMatchesQuery m name qtype = None → isNegative m = false → cnameTarget m name = None →
    glueAddrs m (referralNS m) ≠ [] →
    walk r name qtype qclass (if hides r name j then S j else j) (glueAddrs m (referralNS m)) k resp →
    walk r name qtype qclass j l (S k) resp.

Lemma serves_perm l l' req m : l ≡ₚ l' → serves l req m → serves l' req m.
Proof.
  intros Hp [Hne Hs]. split.
  - intros ->. by apply Permutation_nil_r in Hp.
  - intros s. rewrite <-Hp. apply Hs.
Qed.

Lemma told_perm r name qtype qclass j l l' m :
  l ≡ₚ l' → told r name qtype qclass j l m → told r name qtype qclass j l' m.
Proof.
  intros Hp (m0 & Hs & Hm). exists m0. split; [by eapply serves_perm|].
  destruct (_ && _); [by eapply serves_perm | done].
Qed.

Lemma walk_perm r name qtype qclass j l l' k resp :
  l ≡ₚ l' → walk r name qtype qclass j l k resp → walk r name qtype qclass j l' k resp.
Proof.
  intros Hp. inversion 1; subst.
  - eapply walk_end; [by eapply told_perm|done].
  - eapply walk_refer; [by eapply told_perm|done..].
Qed.

Lemma walk_servers r name qtype qclass j l k resp : walk r name qtype qclass j l k resp → l ≠ [].
Proof.
  inversion 1 as [? ? ? ? (? & [? ?] & _)|? ? ? ? ? (? & [? ?] & _)]; done.
Qed.

Lemma queryServers_serves l req m n : serves l req m → ∃ n', queryServers req l n = (Ok m, n').
Proof.
  intros Hs. apply (serves_perm _ (sortServers l n)) in Hs as [Hne Hs].
  - unfold queryServers. destruct (sortServers l n) as [|s l']; [done|]. cbn [tryServers].
    destruct (Hs s (list_elem_of_here _ _) n) as [n' ->]. eauto.
  - symmetry. apply SortServers_perm.
Qed.

Lemma glueAddrs_nil m : glueAddrs m [] = [].
Proof.
  unfold glueAddrs. cbn [map]. by induction (m_extra m).
Qed.

Lemma delegation_params r name qtype j : fqdn name = name →
  delegationQueryParams r name qtype j =
    (question_at r name qtype j, hides r name j).
Proof.
  intros Hf. unfold delegationQueryParams, question_at, hides, qnameLabelCount, minimizedQName. rewrite !Hf.
  destruct (qnameMinimization r); [|done]. cbn [negb orb andb].
  destruct (Nat.eqb_spec j 0) as [->|Hj]; [done|]. rewrite (proj2 (Nat.ltb_lt 0 j)) by lia. cbn [orb andb].
  destruct (Nat.leb_spec (length (split_domain_name name)) j) as [Hl|Hl].
  - by rewrite (proj2 (Nat.ltb_ge _ _)) by lia.
  - by rewrite (proj2 (Nat.ltb_lt _ _)) by lia.
Qed.

Lemma queryDelegation_told r name qtype qclass j l m n : fqdn name = name →
  told r name qtype qclass j l m →
  ∃ n', queryDelegation r (buildQuery r (question_at r name qtype j).1 (question_at r name qtype j).2 qclass)
    name qtype qclass l (hides r name j) n = (Ok m, n').
Proof.
  intros Hf (m0 & Hs & Hm). unfold queryDelegation.
  destruct (queryServers_serves l _ m0 n Hs) as [n1 ->]. rewrite Hf.
  destruct (hides r name j); cbn [negb andb] in *; [|subst; eauto].
  assert (Hsf : (m_rcode m0 =? RcodeServerFailure)%N = false).
  { destruct Hs as [Hne Hs]. destruct l as [|s l]; [done|].
    destruct (Hs s (list_elem_of_here _ _) n) as [n2 Ht]. apply tryServer_ok in Ht as [Hr _].
    by apply N.eqb_neq. }
  unfold needsQNameMinFallback. rewrite Hsf. cbn [orb]. change RcodeRefused with 5%N.
  destruct (m_rcode m0 =? 5)%N; [|subst; eauto]. by apply queryServers_serves.
Qed.

Lemma resolve_walk r name qtype qclass d j l k resp n :
  fqdn name = name → walk r name qtype qclass j l k resp →
  ∃ n', resolve r d name qtype qclass l j n =
    (if k <=? d then Ok resp else Err ErrIterativeDepthExceeded, n').
Proof.
  intros Hf. revert j l k n. induction d as [|d IH]; intros j l k n Hw.
  { destruct k; [by inversion Hw|]. by eexists. }
  cbn [resolve]. rewrite bool_decide_false by (by eapply walk_servers).
  unfold maxCNAMEChainDepth. cbn [cnameLoop]. rewrite Hf, delegation_params by done.
  destruct (question_at r name qtype j) as [qn qt] eqn:Eq.
  inversion Hw as [j0 l0 m resp0 Ht Hr|j0 l0 m k0 resp0 Ht Hr Hneg Hc Hg Hw']; subst;
    destruct (queryDelegation_told r name qtype qclass j l m n Hf Ht) as [n1 En];
    rewrite Eq in En; cbn [fst snd] in En; rewrite En.
  - destruct Hr as [->|(-> & -> & ->)]; eauto.
  - rewrite Hr, Hneg, Hc. unfold followReferral.
    destruct (referralNS m) as [|h hs] eqn:Eh; [by rewrite glueAddrs_nil in Hg|].
    destruct (glueAddrs m (h :: hs)) as [|a next] eqn:Eg; [done|].
    change (S k0 <=? S d) with (k0 <=? d). apply IH.
    eapply walk_perm; [symmetry; apply SortServers_perm|done].
Qed.

End laws.

End iterative.

(** * Properties *)

(** C16: what the iterative resolver answers was said by a server that was asked
    for it: either the records of the type asked owned by a name that a chain
    of CNAMEs, each from such a server, leads to, and nothing else in the
    answer section, or a negative response; never a SERVFAIL. *)
Theorem iterative_sound `{QL : DnsQuestionLaws} {DM : DnsMsg} {SS : SortSlice} {X}
    {CL : DnsClient X} (r : IterativeResolver) req client (n n' : network) resp :
  iterate r req client n = (Ok resp, n') →
  ∃ q qs name m, m_question req = q :: qs ∧
    rtc (alias r (q_type q) (q_class q)) (fqdn (q_name q)) name ∧
    heard r (q_type q) (q_class q) name m ∧ m_rcode resp ≠ RcodeServerFailure ∧
    ((resp = m ∧ isNegative m = true) ∨
     (m_rcode m = RcodeSuccess ∧ m_rcode resp = RcodeSuccess ∧ m_answer resp ≠ [] ∧
      (∀ x, x ∈ m_answer resp ↔ x ∈ m_answer m ∧ type_of x = q_type q ∧
         canonical_name (name_of x) = canonical_name name) ∧
      m_ns resp = m_ns m ∧ m_extra resp = m_extra m)).
Proof.
  intros Hi. assert (Hs : m_rcode resp ≠ RcodeServerFailure).
  { exact (exchange_no_servfail (ExchangeLaws := iterative_laws) r req client n resp n' Hi). }
  apply iterate_ok in Hi as (q & qs & Eq & (name & m & Hc & Hh & Hr)%resolve_sound).
  exists q, qs, name, m. split_and!; [done..|]. destruct Hr as [Hr|[Hn ->]]; [right|by left].
  apply responseMatches_spec in Hr as (H1 & H2 & Ha & Hne & Hns & Hx).
  split_and!; [done..| |done|done]. intros x. rewrite Ha, !list_elem_of_In, filter_In.
  unfold matchesQuery. rewrite andb_true_iff, bool_decide_eq_true, N.eqb_eq. tauto.
Qed.

(** every query an iterative resolution sends, at any depth, asks one
    question, without recursion and without a client subnet, and the
    resolution depends on nothing but the first question of the request. *)
Theorem iterative_queries `{QL : DnsQuestionLaws} `{DL : DnsMsgLaws} {SS : SortSlice} {X}
    {CL : DnsClient X} (r : IterativeResolver) (P : X → Prop) req client (n : network) :
  (∀ x q a, P x → plain q → P (client_exchange x q a).2) →
  P (wire n) →
  P (wire (iterate r req client n).2) ∧
  ∀ req' client', head (m_question req') = head (m_question req) →
    iterate r req' client' n = iterate r req client n.
Proof.
  intros HP Hn. split; [by apply iterate_keeps|]. intros req' client'. unfold iterate.
  by destruct (m_question req'), (m_question req); intros [=]; subst.
Qed.

(** a minimised query reveals exactly the last labels of the name, asks for
    name servers, and is used just as long as labels remain hidden; every
    other query is the question itself. *)
Theorem minimization_reveals `{QL : DnsQuestionLaws} (r : IterativeResolver)
    (target : string) (qtype : N) (k : nat) :
  let labels := split_domain_name (fqdn target) in
  let '(name, type, minimized) := delegationQueryParams r target qtype k in
  (minimized = true ↔ qnameMinimization r = true ∧ 0 < k < length labels) ∧
  (minimized = true → type = TypeNS ∧
     ∃ hidden, labels = hidden ++ split_domain_name name ∧
       length (split_domain_name name) = k) ∧
  (minimized = false → name = fqdn target ∧ type = qtype).
Proof.
  cbn zeta. unfold delegationQueryParams, qnameLabelCount. rewrite !fqdn_idemp.
  destruct (qnameMinimization r); cbn [negb orb]; [|split_and!; naive_solver].
  destruct (Nat.eqb_spec k 0) as [->|Hk]; [split_and!; naive_solver lia|].
  destruct (Nat.leb_spec (length (split_domain_name (fqdn target))) k) as [Hl|Hl];
    [split_and!; naive_solver lia|].
  split_and!; [split; [intros _; split; [done|lia]|done]| |done]. intros _. split; [done|].
  unfold minimizedQName. rewrite fqdn_idemp.
  rewrite (proj2 (Nat.eqb_neq k 0)), (proj2 (Nat.leb_gt _ _)) by lia. cbn [orb].
  rewrite split_suffix by lia.
  exists (take (length (split_domain_name (fqdn target)) - k) (split_domain_name (fqdn target))).
  by rewrite take_drop, length_drop by lia; split; [|lia].
Qed.


(** * Witnesses

    A root server that refers everything to 192.0.2.1, which serves example.:
    an alias w.example. and signed addresses of a.b.example. *)
Definition demo_root := "198.41.0.4:53".
Definition demo_rr name type data : rr := RR (Hdr name type ClassINET 300) data.
Definition demo_a : rr := demo_rr "a.b.example." TypeA (DA (IP4b 3221225993)).
Definition demo_sig : rr :=
  demo_rr "a.b.example." TypeRRSIG (DRRSIG (RRSIGData TypeA 13 3 300 2 1 7 "example." "sig")).
Definition demo_referral : msg :=
  set_extra (set_ns new_msg [demo_rr "example." TypeNS (DNS "ns.example.")])
    [demo_rr "ns.example." TypeA (DA (IP4b 3221225985))].
Definition demo_soa : rr :=
  demo_rr "example." TypeSOA (DSOA (SOAData "ns.example." "h.example." 1 2 3 4 5)).
Definition demo_zone (q : question) : msg :=
  if bool_decide (q_name q = "a.b.example.") then set_answer new_msg [demo_a; demo_sig]
  else if bool_decide (q_name q = "w.example.")
       then set_answer new_msg [demo_rr "w.example." TypeCNAME (DCNAME "a.b.example.")]
  else set_ns new_msg [demo_soa].
Definition demo_internet (req : msg) (a : string) : res (option msg) :=
  match m_question req with
  | q :: _ => Ok (Some (if bool_decide (a = demo_root) then demo_referral else demo_zone q))
  | [] => Err (errNew "no question")
  end.
Definition demo_net : network := Network demo_internet (Registry ∅ 0) [].
Definition demo_ask (name : string) : msg :=
  set_question new_msg [Question name TypeA ClassINET].
Definition demo_resolved (minimization : bool) (name : string) : res msg * network :=
  iterate (NewIterativeResolver [demo_root] true minimization) (demo_ask name) AInvalid demo_net.

Lemma iterative_sound_witness :
  ∃ name m, rtc (alias (NewIterativeResolver [demo_root] true false) TypeA ClassINET)
      "w.example." name ∧
    heard (NewIterativeResolver [demo_root] true false) TypeA ClassINET name m.
Proof.
  destruct (iterative_sound (NewIterativeResolver [demo_root] true false)
    (demo_ask "w.example.") AInvalid demo_net (demo_resolved false "w.example.").2
    (from_ok new_msg (demo_resolved false "w.example.").1)) as (q & qs & name & m & Eq & Hc & Hh & _).
  - unfold demo_resolved. rewrite <-from_ok_eq by by vm_compute. apply surjective_pairing.
  - injection Eq as <- _. by exists name, m.
Defined.

Lemma iterative_queries_witness :
  wire (demo_resolved true "a.b.example.").2 = demo_internet.
Proof.
  apply (iterative_queries (NewIterativeResolver [demo_root] true true)
    (λ x, x = demo_internet) (demo_ask "a.b.example.") AInvalid demo_net); [|done].
  by intros x q a -> _.
Defined.

Lemma minimization_reveals_witness :
  ∃ hidden, ["a"; "b"; "example"] =
    hidden ++ split_domain_name (minimizedQName "a.b.example." 2).
Proof.
  destruct (minimization_reveals (NewIterativeResolver [demo_root] true true) "a.b.example."
    TypeA 2) as (_ & H & _). destruct H as (_ & hidden & E & _); [done|]. by exists hidden.
Defined.

(** The same servers, for whatever client state, with minimisation: the root is
    asked for the servers of example., and these for b.example.'s, whose answer
    is empty; and without it, down to the address. *)
Definition demo_wired : DnsClient unit :=
  {| client_exchange x req a := (demo_internet req a, 1000000%N, x); client_now x := 0%N |}.
Definition demo_walker (minimization : bool) : IterativeResolver :=
  NewIterativeResolver [demo_root] true minimization.

Lemma demo_told minimization j s m t : let q := question_at (demo_walker minimization) "a.b.example." TypeA j in
  client_exchange (DnsClient := demo_wired) () (buildQuery (demo_walker minimization) q.1 q.2 ClassINET)
    (DialUpstreamAddress s) = (Ok (Some m), t, ()) → m_rcode m = 0%N →
  told (CL := demo_wired) (demo_walker minimization) "a.b.example." TypeA ClassINET j [s] m.
Proof.
  intros q E Hr. exists m. rewrite Hr, andb_false_r. split; [|done]. split; [done|].
  intros s' ->%list_elem_of_singleton n. eapply (tryServer_answers (CL := demo_wired)); [|by rewrite Hr].
  by destruct (wire n).
Qed.


(** * Limits of the code *)

(** A name inside a zone that is neither delegated nor owns records has no name
    servers, and the empty answer to the minimised query is returned as the
    answer to the question: with minimisation an existing address is denied. *)
Lemma minimization_denies_existing :
  m_answer (from_ok new_msg (demo_resolved false "a.b.example.").1) = [demo_a] ∧
  (demo_resolved true "a.b.example.").1 = Ok (set_ns new_msg [demo_soa]).
Proof. by vm_compute. Qed.

(** The signature that came with the address is dropped, and so is the alias:
    the answer's owner is not the name asked. *)
Lemma answers_lose_signatures :
  m_answer (demo_zone (Question "a.b.example." TypeA ClassINET)) = [demo_a; demo_sig] ∧
  m_answer (from_ok new_msg (demo_resolved false "a.b.example.").1) = [demo_a] ∧
  m_answer (from_ok new_msg (demo_resolved false "w.example.").1) = [demo_a] ∧
  name_of demo_a ≠ "w.example.".
Proof. by vm_compute. Qed.

(** Without signatures over the root's keys the validator has no chain of
    trust; and where servers send those only with the keys, in the answer
    section, the iterative resolver drops them. Then no signed response is ever
    authenticated, and each one is bogus. *)
Section composition.
Context `{QL : DnsQuestionLaws} {DM : DnsMsg} {SS : SortSlice} {X} {CL : DnsClient X}
  {DV : DnssecVerify} {NL : DnsNameLaws}.
Hypothesis keys_in_answer : ∀ x req a m t x', client_exchange x req a = (Ok (Some m), t, x') →
  List.filter (isSetSig "." TypeDNSKEY) (m_ns m ++ m_extra m) = [].

Lemma root_keys_unsigned (v : DNSSECValidator IterativeResolver) keys sigs :
  mayFetch (Net := network (X := X)) v "." TypeDNSKEY keys sigs → sigs = [].
Proof.
  intros (n & n' & E). revert E. unfold fetchSignedRRSet. destruct (v_resolver v) as [r|]; [|done].
  cbn [Exchange iterative_resolver].
  destruct (iterate r _ AInvalid n) as [[resp|e] n1] eqn:Ei; [|done].
  destruct (N.eqb_spec (m_rcode resp) RcodeSuccess) as [Er|]; cbn [negb]; [|done].
  intros [= _ <- _]. apply iterate_ok in Ei as (q & qs & Eq & (name & m & _ & Hh & Hr)%resolve_sound).
  cbn [m_question set_rd] in Eq. rewrite set_question_question in Eq. injection Eq as <- _.
  destruct Hh as (req & x & a & t & x' & _ & _ & Hc%keys_in_answer).
  unfold sections. rewrite List.filter_app. destruct Hr as [Hr|[Hn ->]].
  - apply responseMatches_spec in Hr as (_ & _ & -> & _ & -> & ->). rewrite Hc, app_nil_r.
    clear. induction (m_answer m) as [|y l IH]; [done|]. cbn [List.filter].
    destruct (matchesQuery name _ y) eqn:Ey; [|done]. cbn [List.filter].
    unfold matchesQuery in Ey. apply andb_true_iff in Ey as [_ Et%N.eqb_eq].
    unfold isSetSig at 1. cbn [q_type] in Et. rewrite Et, andb_false_r. done.
  - unfold isNegative in Hn. rewrite Er in Hn. cbn in Hn. apply andb_true_iff in Hn as [Ha _].
    bool_hyps. by rewrite Ha, Hc.
Qed.

Lemma iterative_never_authenticates (v : DNSSECValidator IterativeResolver) now resp n :
  collectRRSIGs resp ≠ [] →
  is_ok (validateResponse (Net := network (X := X)) v now resp n).1 = false.
Proof.
  intros Hne. unfold validateResponse. rewrite bool_decide_false by done.
  destruct (collectRRSIGs resp) as [|sig l] eqn:Es; [done|]. cbn [trustLoop]. rewrite lookup_empty.
  destruct (establishTrust v now (signer sig) n) as [[keys|e] n1] eqn:E; [|done]. exfalso.
  apply establishTrust_ok in E. clear - E keys_in_answer QL.
  induction E as [keys (sigs & Hf & (_ & Hs & _) & _)|]; [|done].
  by apply Hs, (root_keys_unsigned v keys).
Qed.
End composition.

End Iterative.
