(* ===== verification/Reply.v ===== *)
(** * The processor's state and its replies: internal/dnsproc/processor.go, resolver.go, trusted.go

    [Processor] is the configuration of the query processor, [world] what a
    query reads and changes: the zone store, the answer cache, the network
    (the state of the resolver and validator), the counters and the NOTIFY
    messages sent. Handlers are written in a small state monad. Here are the
    replies: cookies, EDNS0, truncation and packing. The Go interfaces
    [ExchangeResolver], [CookieHandler] and [TrustedChecker] are a class, a
    record and a function. *)
From S2P Require Import Prelude Telemetry Radix NetAddr Encoding Names Owner Dns Rpz Firewall Acl Sorting Tree.
From S2P Require Import Signer KeyStore Files Store Cache Access Upstream Validator.
Import Owner Tree Store Cache.

(** ** Interfaces *)

(** Transaction signatures of the DNS package: [Msg.IsTsig], [Msg.SetTsig],
    [TsigVerify] of a payload at a time, [TsigGenerate]. *)
Class Tsig := {
  is_tsig : msg → option rr;
  set_tsig : msg → string → string → N → N → msg;
  tsig_verify : N → string → string → option error;
  tsig_generate : msg → string → string → res string
}.

#[export] Instance demo_tsig : Tsig | 100 := {|
  is_tsig m := match last (m_extra m) with
               | Some r => match dat r with DTSIG _ _ => Some r | _ => None end
               | None => None end;
  set_tsig m name alg fudge now :=
    set_extra m (m_extra m ++ [RR (Hdr name 250 ClassANY 0) (DTSIG alg "")]);
  tsig_verify now payload secret := None;
  tsig_generate m secret mac := Ok "signed"
|}.

Module Reply.
Export Counters.

Definition maxMessageSize := 65535%N.
Definition dnsHeaderSize := 12%N.
Definition clientCookieLen := 8.
Definition errBuf := errNew "dns: buffer size too small".   (* mdns.ErrBuf *)
Definition ErrPolicyDrop := errNew "policy drop".

Record CookieHandler := MkCookieHandler {
  ServerCookie : addr → string → string;
  Verify : addr → string → string → bool
}.

Definition cookieEngine `{Hmac} (secret : string) : CookieHandler :=
  MkCookieHandler (Access.ServerCookie (Some secret)) (Access.Verify (Some secret)).

Record Notifier := MkNotifier { n_enabled : bool; n_slaves : list string }.

Record cookieContext := CookieCtx {
  hasClientCookie : bool; hasServerCookie : bool;
  clientCookie : string; serverCookie : string; rejectBadCookie : bool
}.
Definition noCookie : cookieContext :=
  CookieCtx false false (mk (replicate clientCookieLen (ascii_of_N 0))) "" false.

(** The loop over the options: the first cookie option decides. *)
Fixpoint findCookie (os : list edns_option) : cookieContext :=
  match os with
  | [] => noCookie
  | OCookie hex :: _ =>
      match hex_decode hex with
      | Err _ => noCookie
      | Ok raw =>
          if slen raw <? clientCookieLen then noCookie
          else CookieCtx true (clientCookieLen <? slen raw) (mk (take clientCookieLen (bytes raw)))
                 (mk (drop clientCookieLen (bytes raw))) false
      end
  | _ :: os' => findCookie os'
  end.

Definition is_cookie (o : edns_option) : bool := match o with OCookie _ => true | _ => false end.

Definition stripExtraOPT (m : msg) : msg :=
  set_extra m (List.filter (λ r, negb (is_opt r)) (m_extra m)).

(** Go's [limitUDP] arithmetic: [int(opt.UDPSize())], or [MinMsgSize]. *)
Definition maxReplySize `{DnsMsg} (req : msg) : N :=
  match is_edns0 req with Some opt => opt_udp_size opt | None => MinMsgSize end.

Section reply.
Context {T : Type → Type} {W D C Net R V : Type}.

Record Processor := MkProcessor {
  p_forwarder : option R;
  p_iterative : option R;
  p_resolverMode : string;
  p_acl : option (addr → bool);
  p_queryACL : option (option Access.aclSnapshot);
  p_firewall : option (Firewall.Engine T);
  p_rpz : option (RPZ.Engine (T := T));
  p_dnssecValidation : bool;
  p_validator : option V;
  p_cookies : option CookieHandler;
  p_tsigSecrets : gmap string string;
  p_zonesDir : string;
  p_xfrEnabled : bool;
  p_xfrACL : option (addr → bool);
  p_notifier : option Notifier;
  p_policyEngine : option ACL.Engine
}.

Record world := World {
  sys : system T W D;
  cache : option C;                 (* nil when caching is off *)
  mono : N;    (* nanoseconds *)
  unix : N;    (* seconds *)
  stats : option (list counter);    (* nil, or the increments so far *)
  net : Net;
  sent : list (string * string)     (* NOTIFY: zone, slave *)
}.

Definition set_sys (w : world) s := World s (cache w) (mono w) (unix w) (stats w) (net w) (sent w).
Definition set_cache (w : world) c := World (sys w) c (mono w) (unix w) (stats w) (net w) (sent w).
Definition set_stats (w : world) s := World (sys w) (cache w) (mono w) (unix w) s (net w) (sent w).
Definition set_net (w : world) n := World (sys w) (cache w) (mono w) (unix w) (stats w) n (sent w).
Definition set_sent (w : world) s := World (sys w) (cache w) (mono w) (unix w) (stats w) (net w) s.

(** ** The state monad of the handlers *)
Definition M (A : Type) : Type := world → A * world.
Definition ret {A} (a : A) : M A := λ w, (a, w).
Definition bind {A B} (m : M A) (f : A → M B) : M B := λ w, let '(a, w) := m w in f a w.
Definition gets {A} (f : world → A) : M A := λ w, (f w, w).

End reply.
Arguments Processor : clear implicits.
Arguments world : clear implicits.
Arguments M : clear implicits.

Notation "'let!' x ':=' m 'in' k" := (bind m (λ x, k))
  (at level 10, x pattern, m at level 100, k at level 200,
   format "'[v' 'let!'  x  ':='  m  'in' '/' k ']'").

Section handlers.
Context {T : Type → Type} {W D C Net R V : Type} {DM : DnsMsg}.
Abbreviation M := (M T W D C Net).
Implicit Types p : Processor T R V.

Definition inc (c : counter) : M () :=
  λ w, ((), set_stats w ((λ l, l ++ [c]) <$> stats w)).

Definition parseRequestCookie p (req : msg) (client : addr) : M cookieContext :=
  match p_cookies p, is_edns0 req with
  | Some h, Some opt =>
      let ctx := findCookie (opt_options opt) in
      if hasClientCookie ctx && hasServerCookie ctx then
        if Verify h client (clientCookie ctx) (serverCookie ctx) then
          let! _ := inc CookiesVerified in ret ctx
        else
          let! _ := inc CookiesRejected in
          ret (CookieCtx true true (clientCookie ctx) (serverCookie ctx) true)
      else ret ctx
  | _, _ => ret noCookie
  end.

Definition attachResponseCookie p (resp : msg) (client : addr) (ctx : cookieContext) : msg :=
  match p_cookies p with
  | Some h =>
      if hasClientCookie ctx then
        update_edns0 (λ o,
          opt_set_options
            (List.filter (λ x, negb (is_cookie x)) (opt_options o) ++
             [OCookie (hex_encode (clientCookie ctx +:+ ServerCookie h client (clientCookie ctx)))])
            o) resp
      else resp
  | None => resp
  end.

(** The EDNS0 part of a reply. *)
Definition ednsReply p (resp req : msg) (client : addr) (ctx : cookieContext) : msg :=
  match is_edns0 req with
  | Some opt =>
      attachResponseCookie p
        (set_edns0 (stripExtraOPT resp) (opt_udp_size opt) (opt_do opt)) client ctx
  | None => resp
  end.

(** The message [packResponse] serializes. *)
Definition finalReply p (resp req : msg) (limitUDP : bool) (client : addr) (ctx : cookieContext)
    : msg :=
  let resp := ednsReply p resp req client ctx in
  let resp := if limitUDP then truncate resp (maxReplySize req) else resp in
  set_compress resp true.

Definition packResponse p (resp req : msg) (limitUDP : bool) (client : addr)
    (ctx : cookieContext) : M (res string) :=
  let out := finalReply p resp req limitUDP client ctx in
  let! _ := if limitUDP && m_tc out then inc TruncatedResponse else ret () in
  ret (pack out).

(** ** Replies without an answer *)
Definition replyTo (req : msg) (aa ra : bool) (rcode : N) : msg :=
  set_rcode (set_ra (set_aa (set_reply new_msg req) aa) ra) rcode.

Definition queryACLRefusedResponse p (req : msg) (limitUDP : bool) (client : addr)
    (ctx : cookieContext) : M (res string) :=
  let! _ := inc RefusedQueries in
  packResponse p (replyTo req false true RcodeRefused) req limitUDP client ctx.

Definition refusedResponse p (req : msg) (limitUDP : bool) (client : addr)
    (ctx : cookieContext) : M (res string) :=
  let! _ := inc ACLRejected in
  packResponse p (replyTo req false true RcodeRefused) req limitUDP client ctx.

Definition xfrRefusedResponse p (req : msg) (client : addr) (ctx : cookieContext)
    (limitUDP : bool) : M (res string) :=
  let! _ := inc ACLRejected in
  let! _ := inc XFRRefused in
  refusedResponse p req limitUDP client ctx.

(** [SetRcode] is [SetReply] and the response code. *)
Definition badCookieResponse p (req : msg) (client : addr) (ctx : cookieContext)
    (limitUDP : bool) : M (res string) :=
  let resp := set_ra (set_aa (set_reply new_msg req) false) true in
  let resp := set_rcode (set_reply resp req) RcodeBadCookie in
  packResponse p (set_extra (set_ns (set_answer resp []) []) []) req limitUDP client ctx.

(** ** Client classes *)
Definition clientTrusted p (client : addr) : bool :=
  match p_policyEngine p with
  | Some e => ACL.AllowRecursion (Some e) client
  | None => match p_acl p with None => true | Some trusted => trusted client end
  end.

Definition allowRecursion p (client : addr) : bool := clientTrusted p client.

(** The view names of the policy engine are those of the store. *)
Definition zoneViewOf (s : string) : ZoneView :=
  if bool_decide (s = "internal") then ViewInternal else ViewPublic.

Definition selectView p (client : addr) (req : msg) : ZoneView :=
  match p_policyEngine p with
  | Some e => zoneViewOf (ACL.SelectView (Some e) client (Some req))
  | None => if clientTrusted p client then ViewInternal else ViewPublic
  end.

(** [ResolverMode] compares as [strings.EqualFold] does. *)
Definition activeResolver p : option R :=
  match p_iterative p with
  | Some r => if equal_fold (trim_space (p_resolverMode p)) "iterative" then Some r
              else p_forwarder p
  | None => p_forwarder p
  end.

End handlers.

(** * Lemmas *)

(** ** What a handler leaves alone *)
Section frame.
Context {T : Type → Type} {W D C Net R V : Type} {DM : DnsMsg}.
Implicit Types (w : world T W D C Net) (p : Processor T R V).

(** Everything but the counters. *)
Definition same_world w w' : Prop :=
  sys w' = sys w ∧ cache w' = cache w ∧ net w' = net w ∧ sent w' = sent w ∧
  mono w' = mono w ∧ unix w' = unix w.

#[global] Instance same_world_preorder : PreOrder same_world.
Proof.
  split; [by repeat split|].
  intros w1 w2 w3 (?&?&?&?&?&?) (?&?&?&?&?&?). repeat split; congruence.
Qed.

(** A handler that changes counters only. *)
Definition quiet {A} (m : M T W D C Net A) : Prop := ∀ w, same_world w (m w).2.

Lemma quiet_ret {A} (a : A) : quiet (ret a).
Proof. intros w. apply same_world_preorder. Qed.
Lemma quiet_gets {A} (f : world T W D C Net → A) : quiet (gets f).
Proof. intros w. apply same_world_preorder. Qed.
Lemma quiet_inc c : quiet (inc c).
Proof. by intros w. Qed.
Lemma quiet_bind {A B} (m : M T W D C Net A) (f : A → M T W D C Net B) :
  quiet m → (∀ a, quiet (f a)) → quiet (bind m f).
Proof.
  intros Hm Hf w. unfold bind. specialize (Hm w). destruct (m w) as [a w1].
  cbn [snd] in Hm. etrans; [exact Hm | apply Hf].
Qed.
Lemma quiet_if {A} (b : bool) (m n : M T W D C Net A) :
  quiet m → quiet n → quiet (if b then m else n).
Proof. by destruct b. Qed.

(** A handler that neither asks the network nor touches the cache. *)
Definition offline {A} (m : M T W D C Net A) : Prop := ∀ w,
  cache (m w).2 = cache w ∧ net (m w).2 = net w.

Lemma quiet_offline {A} (m : M T W D C Net A) : quiet m → offline m.
Proof. intros Hm w. by destruct (Hm w) as (?&?&?&_). Qed.
Lemma offline_bind {A B} (m : M T W D C Net A) (f : A → M T W D C Net B) :
  offline m → (∀ a, offline (f a)) → offline (bind m f).
Proof.
  intros Hm Hf w. unfold bind. specialize (Hm w). destruct (m w) as [a w1].
  cbn [snd] in Hm. destruct Hm as [<- <-]. apply Hf.
Qed.

(** A handler that changes neither zones, files and keys nor sends NOTIFY. *)
Definition readonly {A} (m : M T W D C Net A) : Prop := ∀ w,
  sys (m w).2 = sys w ∧ sent (m w).2 = sent w.

Lemma quiet_readonly {A} (m : M T W D C Net A) : quiet m → readonly m.
Proof. intros Hm w. by destruct (Hm w) as (?&?&?&?&_). Qed.
Lemma readonly_bind {A B} (m : M T W D C Net A) (f : A → M T W D C Net B) :
  readonly m → (∀ a, readonly (f a)) → readonly (bind m f).
Proof.
  intros Hm Hf w. unfold bind. specialize (Hm w). destruct (m w) as [a w1].
  cbn [snd] in Hm. destruct Hm as [<- <-]. apply Hf.
Qed.

(** A handler that does not look at the cache or the network: what it returns
    and does is the same whatever they hold, and it leaves them alone. *)
Definition set_upstream w (c : option C) (n : Net) : world T W D C Net := set_net (set_cache w c) n.
Definition heedless {A} (m : M T W D C Net A) : Prop := ∀ w c n,
  m (set_upstream w c n) = ((m w).1, set_upstream (m w).2 c n).

Lemma heedless_ret {A} (a : A) : heedless (ret a).
Proof. by intros w c n. Qed.
Lemma heedless_inc c : heedless (inc c).
Proof. by intros w c' n. Qed.
Lemma heedless_gets {A} (f : world T W D C Net → A) :
  (∀ w c n, f (set_upstream w c n) = f w) → heedless (gets f).
Proof. intros Hf w c n. unfold gets. by rewrite Hf. Qed.
Lemma heedless_bind {A B} (m : M T W D C Net A) (f : A → M T W D C Net B) :
  heedless m → (∀ a, heedless (f a)) → heedless (bind m f).
Proof.
  intros Hm Hf w c n. unfold bind. rewrite Hm. destruct (m w) as [a w1]. cbn [fst snd]. apply Hf.
Qed.
Lemma heedless_if {A} (b : bool) (m n : M T W D C Net A) :
  heedless m → heedless n → heedless (if b then m else n).
Proof. by destruct b. Qed.

End frame.

Create HintDb frame.
#[export] Hint Resolve heedless_ret heedless_inc heedless_gets heedless_bind heedless_if : frame.
#[export] Hint Resolve quiet_ret quiet_gets quiet_inc quiet_bind quiet_if : frame.
#[export] Hint Resolve quiet_offline offline_bind quiet_readonly readonly_bind : frame.

Section replies.
Context {T : Type → Type} {W D C Net R V : Type} {DM : DnsMsg}.
Implicit Types (w : world T W D C Net) (p : Processor T R V).

Lemma quiet_pack p resp req lim client ctx :
  quiet (W := W) (D := D) (C := C) (Net := Net) (packResponse p resp req lim client ctx).
Proof. unfold packResponse. auto with frame. Qed.

Lemma quiet_parse p req client :
  quiet (W := W) (D := D) (C := C) (Net := Net) (parseRequestCookie p req client).
Proof. unfold parseRequestCookie. repeat (case_match; auto with frame). Qed.

Lemma heedless_pack p resp req lim client ctx :
  heedless (W := W) (D := D) (C := C) (Net := Net) (packResponse p resp req lim client ctx).
Proof. unfold packResponse. auto with frame. Qed.

Lemma heedless_parse p req client :
  heedless (W := W) (D := D) (C := C) (Net := Net) (parseRequestCookie p req client).
Proof. unfold parseRequestCookie. repeat (case_match; auto with frame). Qed.

(** The bytes [packResponse] returns. *)
Lemma pack_result p resp req lim client ctx w :
  (packResponse p resp req lim client ctx w).1 =
  pack (finalReply p resp req lim client ctx).
Proof.
  unfold packResponse, bind. by destruct (_ && _).
Qed.

(** Packing as one step. *)
Lemma pack_run p resp req lim client ctx w : ∃ w',
  packResponse p resp req lim client ctx w =
    (pack (finalReply p resp req lim client ctx), w') ∧ same_world w w'.
Proof.
  pose proof (pack_result p resp req lim client ctx w) as Hr.
  pose proof (quiet_pack p resp req lim client ctx w) as Hq.
  destruct (packResponse _ _ _ _ _ _ _) as [out w']. cbn [fst snd] in *. subst out. eauto.
Qed.

Lemma acl_refused_result p req lim client ctx w :
  (queryACLRefusedResponse p req lim client ctx w).1 =
  pack (finalReply p (replyTo req false true RcodeRefused) req lim client ctx).
Proof. unfold queryACLRefusedResponse, bind, inc. apply pack_result. Qed.

Lemma refused_result p req lim client ctx w :
  (refusedResponse p req lim client ctx w).1 =
  pack (finalReply p (replyTo req false true RcodeRefused) req lim client ctx).
Proof. unfold refusedResponse, bind, inc. apply pack_result. Qed.

Lemma xfr_refused_result p req client ctx lim w :
  (xfrRefusedResponse p req client ctx lim w).1 =
  pack (finalReply p (replyTo req false true RcodeRefused) req lim client ctx).
Proof. unfold xfrRefusedResponse, bind, inc. apply refused_result. Qed.

End replies.
#[export] Hint Resolve quiet_pack quiet_parse heedless_pack heedless_parse : frame.

Section refusals.
Context {T : Type → Type} {W D C Net R V : Type} {DM : DnsMsg}.
Implicit Types (p : Processor T R V).
Abbreviation quiet := (quiet (W := W) (D := D) (C := C) (Net := Net)).

Lemma quiet_acl_refused p req lim client ctx :
  quiet (queryACLRefusedResponse p req lim client ctx).
Proof. unfold queryACLRefusedResponse. auto with frame. Qed.
Lemma quiet_refused p req lim client ctx : quiet (refusedResponse p req lim client ctx).
Proof. unfold refusedResponse. auto with frame. Qed.
Lemma quiet_bad_cookie p req client ctx lim : quiet (badCookieResponse p req client ctx lim).
Proof. unfold badCookieResponse. auto with frame. Qed.

Abbreviation heedless := (heedless (W := W) (D := D) (C := C) (Net := Net)).

Lemma heedless_acl_refused p req lim client ctx :
  heedless (queryACLRefusedResponse p req lim client ctx).
Proof. unfold queryACLRefusedResponse. auto with frame. Qed.
Lemma heedless_refused p req lim client ctx : heedless (refusedResponse p req lim client ctx).
Proof. unfold refusedResponse. auto with frame. Qed.
Lemma heedless_bad_cookie p req client ctx lim : heedless (badCookieResponse p req client ctx lim).
Proof. unfold badCookieResponse. auto with frame. Qed.
Lemma heedless_xfr_refused p req client ctx lim : heedless (xfrRefusedResponse p req client ctx lim).
Proof. unfold xfrRefusedResponse. auto using heedless_refused with frame. Qed.

End refusals.
#[export] Hint Resolve quiet_acl_refused quiet_refused quiet_bad_cookie : frame.
#[export] Hint Resolve heedless_acl_refused heedless_refused heedless_bad_cookie heedless_xfr_refused : frame.

Lemma quiet_xfr_refused {T W D C Net R V} {DM : DnsMsg} (p : Processor T R V) req client ctx lim :
  quiet (W := W) (D := D) (C := C) (Net := Net) (xfrRefusedResponse p req client ctx lim).
Proof. unfold xfrRefusedResponse. auto with frame. Qed.
#[export] Hint Resolve quiet_xfr_refused : frame.

(** ** Cookies *)
Lemma find_cookie_len os :
  hasClientCookie (findCookie os) = true → slen (clientCookie (findCookie os)) = clientCookieLen.
Proof.
  induction os as [|[] os IH]; cbn [findCookie]; [done|by apply IH| |by apply IH].
  destruct (hex_decode hex) as [raw|]; [|done].
  destruct (Nat.ltb_spec (slen raw) clientCookieLen) as [|Hle]; [done|].
  cbn [clientCookie]. unfold slen in *. rewrite bytes_mk, length_take. lia.
Qed.

Lemma find_cookie_made cc sc :
  slen cc = clientCookieLen → slen sc = Access.serverCookieLen →
  findCookie [OCookie (hex_encode (cc +:+ sc))] = CookieCtx true true cc sc false.
Proof.
  intros Hc Hs. cbn [findCookie]. rewrite hex_roundtrip.
  assert (Hl : slen (cc +:+ sc) = 16) by (rewrite slen_app, Hc, Hs; done).
  rewrite Hl. change (16 <? clientCookieLen) with false. change (clientCookieLen <? 16) with true.
  cbv iota. rewrite bytes_app. unfold slen in Hc. rewrite <-Hc.
  by rewrite take_app_length, drop_app_length, !mk_bytes.
Qed.

(** ** EDNS0 *)
Section edns.
Context {T : Type → Type} {R V : Type} `{DL : DnsMsgLaws}.
Implicit Types p : Processor T R V.

Lemma stripped l : Forall (λ r, is_opt r = false) (List.filter (λ r, negb (is_opt r)) l).
Proof.
  rewrite Forall_forall. intros r Hr. apply list_elem_of_In, filter_In in Hr as [_ Hr].
  by apply negb_true_iff.
Qed.

Lemma filter_opt_none l : Forall (λ r, is_opt r = false) l → List.filter is_opt l = [].
Proof. induction 1 as [|r l Hr _ IH]; [done|]. cbn. by rewrite Hr. Qed.

(** The cookie a reply carries. *)
Definition replyCookie p (client : addr) (ctx : cookieContext) : list edns_option :=
  match p_cookies p with
  | Some h => if hasClientCookie ctx then
                [OCookie (hex_encode (clientCookie ctx +:+ ServerCookie h client (clientCookie ctx)))]
              else []
  | None => []
  end.

Lemma ednsReply_opts p resp req client ctx opt :
  is_edns0 req = Some opt →
  ∃ o, List.filter is_opt (m_extra (ednsReply p resp req client ctx)) = [o] ∧
    opt_options o = replyCookie p client ctx.
Proof.
  intros Hopt. unfold ednsReply. rewrite Hopt.
  destruct (set_edns0_appends (stripExtraOPT resp) (opt_udp_size opt) (opt_do opt))
    as (o & -> & Ho & Hos).
  cbn [m_extra stripExtraOPT set_extra]. set (l := List.filter _ (m_extra resp)).
  pose proof (stripped (m_extra resp)) as HF. fold l in HF.
  set (m := set_extra _ (l ++ [o])). assert (E : m_extra m = l ++ [o]) by done. clearbody m l.
  assert (Hbase : ∀ x, is_opt x = true → List.filter is_opt (l ++ [x]) = [x]).
  { intros x Hx. rewrite List.filter_app, filter_opt_none by done. cbn. by rewrite Hx. }
  unfold attachResponseCookie, replyCookie. destruct (p_cookies p) as [h|];
    [destruct (hasClientCookie ctx)|]; [|exists o; rewrite E; auto..].
  unfold update_edns0. rewrite (edns_index_last m l o) by done.
  cbn [m_extra set_extra]. rewrite E, alter_app_r_alt, Nat.sub_diag by done.
  cbn [alter list_alter]. rewrite Hbase by done. eexists. split; [reflexivity|].
  cbn [opt_options opt_set_options dat]. by rewrite Hos.
Qed.

Lemma finalReply_opts p resp req lim client ctx opt :
  is_edns0 req = Some opt →
  ∃ o, List.filter is_opt (m_extra (finalReply p resp req lim client ctx)) = [o] ∧
    opt_options o = replyCookie p client ctx.
Proof.
  intros Hopt. destruct (ednsReply_opts p resp req client ctx opt Hopt) as (o & Ho & Hc).
  exists o. split; [|done]. unfold finalReply. cbn [m_extra set_compress].
  destruct lim; [by apply truncate_opt | done].
Qed.

Lemma attach_rcode p resp client ctx :
  m_rcode (attachResponseCookie p resp client ctx) = m_rcode resp.
Proof.
  unfold attachResponseCookie, update_edns0. by repeat case_match.
Qed.

Lemma finalReply_rcode p resp req lim client ctx :
  m_rcode (finalReply p resp req lim client ctx) = m_rcode resp.
Proof.
  unfold finalReply. cbn [m_rcode set_compress].
  assert (E : m_rcode (ednsReply p resp req client ctx) = m_rcode resp).
  { unfold ednsReply. destruct (is_edns0 req) as [opt|]; [|done]. rewrite attach_rcode.
    destruct (set_edns0_appends (stripExtraOPT resp) (opt_udp_size opt) (opt_do opt))
      as (o & -> & _). done. }
  destruct lim; [by rewrite truncate_rcode | done].
Qed.

End edns.

(** * Properties *)

(** to a request that carries an OPT record, every reply (whatever
    message it is made from, an upstream answer with its own OPT included)
    has exactly one OPT record, truncated or not; its options are the server
    cookie, when cookies are on and the request had a client cookie, and
    nothing else. *)
Theorem reply_has_one_opt {T R V} `{DL : DnsMsgLaws} (p : Processor T R V) resp req lim client ctx opt :
  is_edns0 req = Some opt →
  ∃ o, List.filter is_opt (m_extra (finalReply p resp req lim client ctx)) = [o] ∧
    opt_options o = replyCookie p client ctx.
Proof. apply finalReply_opts. Qed.

(** C36: the cookie of a reply works: a client whose request had a client
    cookie, and that repeats the options of the reply's OPT record in its
    next request, passes the cookie check, which is counted as verified; it
    is not refused, whatever the secret and the address. *)
Theorem cookie_roundtrip {T W D C Net R V} `{DL : DnsMsgLaws} {HM : Hmac} (p : Processor T R V)
    (secret : string) resp req lim client ctx opt req' opt' o (w : world T W D C Net) :
  p_cookies p = Some (cookieEngine secret) →
  is_edns0 req = Some opt →
  ctx = findCookie (opt_options opt) → hasClientCookie ctx = true →
  List.filter is_opt (m_extra (finalReply p resp req lim client ctx)) = [o] →
  is_edns0 req' = Some opt' → opt_options opt' = opt_options o →
  let '(ctx', w') := parseRequestCookie p req' client w in
  rejectBadCookie ctx' = false ∧ hasServerCookie ctx' = true ∧
  clientCookie ctx' = clientCookie ctx ∧
  stats w' = (λ l, l ++ [CookiesVerified]) <$> stats w.
Proof.
  intros Hp Hopt Hctx Hhas Ho Hopt' Hos.
  destruct (finalReply_opts p resp req lim client ctx opt Hopt) as (o1 & Ho1 & Hc).
  assert (o1 = o) as -> by congruence.
  assert (Hlen : slen (clientCookie ctx) = clientCookieLen)
    by (rewrite Hctx in *; by apply find_cookie_len).
  unfold replyCookie in Hc. rewrite Hp, Hhas in Hc.
  set (sc := ServerCookie _ _ _) in Hc.
  assert (Hsc : slen sc = Access.serverCookieLen).
  { unfold sc. cbn [ServerCookie cookieEngine]. unfold Access.ServerCookie, slen.
    rewrite bytes_mk, length_take. change (length (bytes ?s)) with (slen s). by rewrite hmac_size. }
  unfold parseRequestCookie. rewrite Hp, Hopt', Hos, Hc, find_cookie_made by done.
  cbn [hasClientCookie hasServerCookie andb clientCookie serverCookie].
  assert (Hv : Verify (cookieEngine secret) client (clientCookie ctx) sc = true).
  { cbn [Verify cookieEngine Access.Verify]. rewrite Hsc, Nat.eqb_refl. cbn [negb].
    by apply bool_decide_eq_true. }
  rewrite Hv. unfold bind, inc, ret. cbn. done.
Qed.

(** * Witnesses *)
Definition demo_processor : Processor gtree unit unit :=
  MkProcessor None None "" None None None None false None (Some (cookieEngine "secret")) ∅ ""
    false None None None.
Definition demo_opt : rr :=
  RR (Hdr "." TypeOPT 1232 0) (DOPT [OOther 3 ""; OCookie "6162636465666768"]).
Definition demo_request : msg :=
  set_extra (set_question new_msg [Question "a.example." TypeA ClassINET]) [demo_opt].
Definition demo_ctx : cookieContext := findCookie (opt_options demo_opt).
Definition demo_reply : msg :=
  finalReply demo_processor (set_extra new_msg [demo_opt]) demo_request true (A4 1) demo_ctx.

Lemma reply_has_one_opt_witness :
  ∃ o, List.filter is_opt (m_extra demo_reply) = [o] ∧
    opt_options o = replyCookie demo_processor (A4 1) demo_ctx.
Proof.
  apply (reply_has_one_opt demo_processor (set_extra new_msg [demo_opt]) demo_request true (A4 1)
    demo_ctx demo_opt). vm_compute. reflexivity.
Defined.

Definition demo_next_opt : rr := default demo_opt (head (List.filter is_opt (m_extra demo_reply))).
Definition demo_next : msg := set_extra demo_request [demo_next_opt].
Definition demo_world : world gtree unit unit unit unit :=
  World (MkSystem (MkMemory radix_new radix_new ∅ ∅ ∅ false) () ()) None 0 0 (Some []) () [].

Lemma cookie_roundtrip_witness :
  let '(ctx', w') := parseRequestCookie demo_processor demo_next (A4 1) demo_world in
  rejectBadCookie ctx' = false ∧ hasServerCookie ctx' = true ∧
  clientCookie ctx' = clientCookie demo_ctx ∧
  stats w' = (λ l, l ++ [CookiesVerified]) <$> stats demo_world.
Proof.
  apply (cookie_roundtrip demo_processor "secret" (set_extra new_msg [demo_opt]) demo_request true
    (A4 1) demo_ctx demo_opt demo_next demo_next_opt demo_next_opt demo_world);
    vm_compute; reflexivity.
Defined.

End Reply.
