(* ===== verification/Update.v ===== *)
(** * Dynamic updates: internal/dnsproc/update.go, notify.go

    RFC 2136 requests: the TSIG gate, the zone section, prerequisites, the
    update proper ([ApplyDynamicUpdateRRs] of the store), NOTIFY and the signed
    reply. *)
From S2P Require Import Prelude Radix NetAddr Names Owner Dns Rpz Firewall Acl Sorting Tree.
From S2P Require Import Signer KeyStore Files Store Cache Access Query Reply.
Import Owner Tree Signer KeyStore Store Cache Query Reply.

Module Update.

Record tsigContext := TsigCtx { keyName : string; algorithm : string; requestMAC : string }.
Definition noTsig : tsigContext := TsigCtx "" "" "".

Definition ErrSecret := errNew "dns: no secrets defined".   (* mdns.ErrSecret *)

Definition isNameInUpdateZone (name origin : string) : bool :=
  let name := NormalizeName name in
  let origin := NormalizeName origin in
  if bool_decide (name = origin) then true
  else has_suffix name ("." +:+ trim_suffix origin "." +:+ ".").

Definition updateErrorToRcode (e : error) : N :=
  if errors_is e ErrUpdateNXRRSET then RcodeNXRrset
  else if errors_is e ErrUpdateYXRRSET then RcodeYXRrset
  else if errors_is e ErrUpdateNXDOMAIN then RcodeNameError
  else if errors_is e ErrUpdateYXDOMAIN then RcodeYXDomain
  else if errors_is e ErrUpdateNotZone then RcodeNotZone
  else if errors_is e ErrUpdateRefused then RcodeRefused
  else if errors_is e ErrZoneNotFound then RcodeNotAuth
  else RcodeServerFailure.

(** ** notify.go: which slaves are told about which zones *)
Definition NotifyZone (n : option Notifier) (origin : string) : list (string * string) :=
  match n with
  | None => []
  | Some n =>
      if negb (n_enabled n) then []
      else
        let origin := NormalizeName origin in
        if bool_decide (origin = ".") then [] else map (pair origin) (n_slaves n)
  end.

Definition NewNotifier (enabled : bool) (slaves : list string) : Notifier :=
  MkNotifier (enabled && (0 <? length slaves)) slaves.

Fixpoint notifyLoop (n : Notifier) (seen : gset string) (origins : list string)
    : list (string * string) :=
  match origins with
  | [] => []
  | origin :: rest =>
      let origin := NormalizeName origin in
      if bool_decide (origin = ".") || bool_decide (origin ∈ seen) then notifyLoop n seen rest
      else map (pair origin) (n_slaves n) ++ notifyLoop n ({[origin]} ∪ seen) rest
  end.

Definition NotifyZones (n : option Notifier) (origins : list string) : list (string * string) :=
  match n with
  | None => []
  | Some n => if negb (n_enabled n) then [] else notifyLoop n ∅ origins
  end.

Section update.
Context {T : Type → Type} {W D P C Net R V : Type}.
Context {RO : RadixOps T} {MR : MapRange} {SS : SortSlice} {DT : DnsText} {DG : Digest}
  {ZP : ZoneParser} {FS : FileSys W} {KD : KeyDB D} {DC : DnssecCrypto P} {KT : KeyText P}
  {DM : DnsMsg} {TS : Tsig}.
Implicit Types (p : Processor T R V) (m : Memory T).
Abbreviation M := (Reply.M T W D C Net).

(** ** Prerequisites (RFC 2136, section 3.2) *)
Definition nameExistsInView m (name : string) (view : ZoneView) : bool :=
  nameExistsInTree (treeForView m view) name.

Definition rrsetExistsInView m (name : string) (qtype : N) (view : ZoneView) : bool :=
  bool_decide ((Lookup m view name qtype).2 = LookupFound).

Definition rrExistsInView m (r : rr) (view : ZoneView) : bool :=
  match Lookup m view (name_of r) (type_of r) with
  | (records, LookupFound) => existsb (λ candidate, is_duplicate candidate r) records
  | _ => false
  end.

Definition checkPrerequisite m (r : rr) (origin : string) (view : ZoneView) : option error :=
  let name := NormalizeName (name_of r) in
  if negb (isNameInUpdateZone name origin) then Some ErrUpdateNotZone
  else if ((type_of r =? TypeANY) && (class_of r =? ClassANY))%N then
    if negb (nameExistsInView m name view) then Some ErrUpdateNXDOMAIN else None
  else if ((type_of r =? TypeANY) && (class_of r =? ClassNONE))%N then
    if nameExistsInView m name view then Some ErrUpdateYXDOMAIN else None
  else if (class_of r =? ClassANY)%N then
    if negb (rrsetExistsInView m name (type_of r) view) then Some ErrUpdateNXRRSET else None
  else if (class_of r =? ClassNONE)%N then
    if rrsetExistsInView m name (type_of r) view then Some ErrUpdateYXRRSET else None
  else if negb (rrExistsInView m r view) then Some ErrUpdateNXRRSET else None.

Fixpoint checkPrerequisites m (prereqs : list rr) (origin : string) (view : ZoneView)
    : option error :=
  match prereqs with
  | [] => None
  | r :: rest =>
      match checkPrerequisite m r origin view with
      | Some e => Some e
      | None => checkPrerequisites m rest origin view
      end
  end.

Definition resolveUpdateView m (origin : string) : res ZoneView :=
  let origin := NormalizeName origin in
  if zoneExistsLocked m origin ViewPublic then Ok ViewPublic
  else if zoneExistsLocked m origin ViewInternal then Ok ViewInternal
  else Err ErrZoneNotFound.

(** ** TSIG *)
Definition verifyUpdateTSIG p (now : N) (payload : string) (req : msg) : res tsigContext :=
  if bool_decide (p_tsigSecrets p = ∅) then Err (errNew "no TSIG keys configured")
  else
    match is_tsig req with
    | None => Err (errNew "missing TSIG record")
    | Some tsig =>
        let keyName := canonical_name (name_of tsig) in
        match p_tsigSecrets p !! keyName with
        | None => Err ErrSecret
        | Some secret =>
            match tsig_verify now payload secret with
            | Some e => Err e
            | None =>
                Ok (match dat tsig with
                    | DTSIG alg mac => TsigCtx keyName alg mac
                    | _ => TsigCtx keyName "" ""
                    end)
            end
        end
    end.

(** ** Replies *)
(** [TsigGenerate] panics when the last record is not the TSIG stub; nothing in
    the server recovers, so this is its end. *)
Definition ErrPanic := errNew "panic: dns: TSIG not last RR in additional".

Definition updateResponse p (req : msg) (rcode : N) (limitUDP : bool) (client : addr)
    (ctx : cookieContext) (tsig : tsigContext) : M (res string) :=
  let resp := set_ns (set_answer (set_rcode (set_aa (set_reply new_msg req) true) rcode) []) [] in
  if negb (bool_decide (keyName tsig = "")) && negb (rcode =? RcodeFormatError)%N then
    let! now := gets unix in
    let resp := set_tsig resp (keyName tsig) (algorithm tsig) 300 now in
    let secret := default "" (p_tsigSecrets p !! keyName tsig) in
    if negb (bool_decide (secret = "")) then
      let resp := set_compress (ednsReply p resp req client ctx) true in
      match is_tsig resp with
      | None => ret (Err ErrPanic)
      | Some _ =>
          match tsig_generate resp secret (requestMAC tsig) with
          | Ok signed => ret (Ok signed)
          | Err _ => packResponse p resp req limitUDP client ctx
          end
      end
    else packResponse p resp req limitUDP client ctx
  else packResponse p resp req limitUDP client ctx.

Definition updateRefusedResponse p (req : msg) (limitUDP : bool) (client : addr)
    (ctx : cookieContext) : M (res string) :=
  let! _ := inc RefusedAnswer in
  updateResponse p req RcodeRefused limitUDP client ctx noTsig.

Definition updateFormatErrorResponse p (req : msg) (limitUDP : bool) (client : addr)
    (ctx : cookieContext) (tsig : tsigContext) : M (res string) :=
  updateResponse p req RcodeFormatError limitUDP client ctx tsig.

(** ** The handler *)

(** [ApplyDynamicUpdateRRs] on the world's store. *)
Definition applyUpdate p (origin : string) (view : ZoneView) (updates : list rr)
    : M (option error) := λ w,
  let '(s, e) := ApplyDynamicUpdateRRs (unix w) (p_zonesDir p) origin view updates (sys w) in
  (e, set_sys w s).

Definition notify p (origin : string) : M () := λ w,
  ((), set_sent w (sent w ++ NotifyZone (p_notifier p) origin)).

Definition handleDynamicUpdate p (client : addr) (req : msg) (payload : string)
    (limitUDP : bool) (ctx : cookieContext) : M (res string) :=
  let! now := gets unix in
  match verifyUpdateTSIG p now payload req with
  | Err _ => updateRefusedResponse p req limitUDP client ctx
  | Ok tsig =>
      match m_question req with
      | [q] =>
          let origin := NormalizeName (q_name q) in
          if negb (q_type q =? TypeSOA)%N then
            updateFormatErrorResponse p req limitUDP client ctx tsig
          else if (negb (q_class q =? ClassINET) && negb (q_class q =? ClassANY))%N then
            updateFormatErrorResponse p req limitUDP client ctx tsig
          else
            let! m := gets (λ w, mem (sys w)) in
            match resolveUpdateView m origin with
            | Err e =>
                let rcode := if errors_is e ErrZoneNotFound then RcodeNotZone else RcodeNotAuth in
                updateResponse p req rcode limitUDP client ctx tsig
            | Ok view =>
                match checkPrerequisites m (m_answer req) origin view with
                | Some e => updateResponse p req (updateErrorToRcode e) limitUDP client ctx tsig
                | None =>
                    match m_ns req with
                    | [] => updateResponse p req RcodeSuccess limitUDP client ctx tsig
                    | updates =>
                        let! e := applyUpdate p origin view updates in
                        match e with
                        | Some e =>
                            updateResponse p req (updateErrorToRcode e) limitUDP client ctx tsig
                        | None =>
                            let! _ := notify p origin in
                            updateResponse p req RcodeSuccess limitUDP client ctx tsig
                        end
                    end
                end
            end
      | _ => updateFormatErrorResponse p req limitUDP client ctx tsig
      end
  end.

End update.

(** * Lemmas *)
Section lemmas.
Context {T : Type → Type} {W D P C Net R V : Type}.
Context {RO : RadixOps T} {RL : RadixLaws T} {MR : MapRange} {SS : SortSlice} {DT : DnsText}
  {DG : Digest} {ZP : ZoneParser} {FS : FileSys W} {KD : KeyDB D} {DC : DnssecCrypto P}
  {KT : KeyText P} {DM : DnsMsg} {TS : Tsig}.
Implicit Types (p : Processor T R V) (m : Memory T).
Abbreviation quiet := (quiet (W := W) (D := D) (C := C) (Net := Net)).

Lemma quiet_update_response p req rcode lim client ctx tsig :
  quiet (updateResponse p req rcode lim client ctx tsig).
Proof.
  unfold updateResponse. apply quiet_if; [|auto with frame].
  apply quiet_bind; [auto with frame|]. intros now. apply quiet_if; [|auto with frame].
  destruct (is_tsig _); [|auto with frame]. destruct (tsig_generate _ _ _); auto with frame.
Qed.
Lemma quiet_update_refused p req lim client ctx :
  quiet (updateRefusedResponse p req lim client ctx).
Proof. unfold updateRefusedResponse. auto using quiet_update_response with frame. Qed.

(** What each kind of prerequisite asks of the zone (RFC 2136, 2.4). *)
Definition prereq_holds m (origin : string) (view : ZoneView) (r : rr) : Prop :=
  let n := NormalizeName (name_of r) in
  let data := rrset (treeForView m view) n in
  isNameInUpdateZone n origin = true ∧
  if decide (type_of r = TypeANY ∧ class_of r = ClassANY) then ∃ q, data q ≠ []
  else if decide (type_of r = TypeANY ∧ class_of r = ClassNONE) then ∀ q, data q = []
  else if decide (class_of r = ClassANY) then data (type_of r) ≠ []
  else if decide (class_of r = ClassNONE) then data (type_of r) = []
  else ∃ c, c ∈ data (type_of r) ∧ is_duplicate c r = true.

Lemma name_exists_rrset m view n : wf_mem m →
  nameExistsInView m n view = true ↔ ∃ q, rrset (treeForView m view) (NormalizeName n) q ≠ [].
Proof.
  intros Hw. unfold nameExistsInView.
  pose proof (lookup_cases (treeForView m view) n 0%N (wf_treeForView m view Hw)) as Hl.
  cbn zeta in Hl. pose proof (lookup_not_found (treeForView m view) n 0%N) as Hn.
  destruct (lookupInTree _ n 0%N) as [rrs []]; cbn [snd] in Hn.
  - rewrite (proj1 Hn eq_refl). naive_solver.
  - destruct (nameExistsInTree _ n); naive_solver.
  - destruct (nameExistsInTree _ n); naive_solver.
Qed.

Lemma rrset_exists m view n q : wf_mem m →
  rrsetExistsInView m n q view = true ↔ rrset (treeForView m view) (NormalizeName n) q ≠ [].
Proof.
  intros Hw. unfold rrsetExistsInView, Lookup. rewrite bool_decide_eq_true.
  pose proof (lookup_cases (treeForView m view) n q (wf_treeForView m view Hw)) as Hl.
  cbn zeta in Hl. destruct (lookupInTree _ n q) as [rrs []]; naive_solver.
Qed.

Lemma rr_exists m view r : wf_mem m →
  rrExistsInView m r view = true ↔
  ∃ c, c ∈ rrset (treeForView m view) (NormalizeName (name_of r)) (type_of r) ∧
    is_duplicate c r = true.
Proof.
  intros Hw. unfold rrExistsInView, Lookup.
  pose proof (lookup_cases (treeForView m view) (name_of r) (type_of r)
    (wf_treeForView m view Hw)) as Hl. cbn zeta in Hl.
  destruct (lookupInTree _ _ _) as [rrs []].
  - destruct Hl as [_ ->]. split; [done|]. intros (c & Hc & _). by apply elem_of_nil in Hc.
  - destruct Hl as (_ & -> & _). split; [done|]. intros (c & Hc & _). by apply elem_of_nil in Hc.
  - destruct Hl as [-> _]. rewrite existsb_exists. by setoid_rewrite list_elem_of_In.
Qed.

Lemma not_true_neg (b : bool) (A : Prop) : (b = true ↔ A) → (negb b = true ↔ ¬ A).
Proof. destruct b; naive_solver. Qed.

Lemma checkPrerequisite_spec m r origin view : wf_mem m →
  checkPrerequisite m r origin view = None ↔ prereq_holds m origin view r.
Proof.
  intros Hw. unfold checkPrerequisite, prereq_holds.
  set (n := NormalizeName (name_of r)).
  pose proof (name_exists_rrset m view n Hw) as He.
  pose proof (rrset_exists m view n (type_of r) Hw) as Hs.
  pose proof (rr_exists m view r Hw) as Hr. fold n in Hr.
  assert (Hn : NormalizeName n = n) by apply normalize_normal. rewrite Hn in He, Hs.
  destruct (isNameInUpdateZone n origin); cbn [negb]; [|naive_solver].
  assert (Hb : ∀ a b : N, ((type_of r =? a) && (class_of r =? b))%N = true ↔
    type_of r = a ∧ class_of r = b).
  { intros. by rewrite andb_true_iff, !N.eqb_eq. }
  destruct (decide (type_of r = TypeANY ∧ class_of r = ClassANY)) as [H1|H1].
  { rewrite (proj2 (Hb _ _) H1). destruct (nameExistsInView m n view); naive_solver. }
  rewrite (not_true_is_false _ (λ E, H1 (proj1 (Hb _ _) E))).
  destruct (decide (type_of r = TypeANY ∧ class_of r = ClassNONE)) as [H2|H2].
  { rewrite (proj2 (Hb _ _) H2). destruct (nameExistsInView m n view); [naive_solver|].
    split; [|done]. intros _. split; [done|]. intros q.
    destruct (decide (rrset (treeForView m view) n q = [])); [done|].
    assert (false = true) by (apply He; eauto). done. }
  rewrite (not_true_is_false _ (λ E, H2 (proj1 (Hb _ _) E))).
  destruct (decide (class_of r = ClassANY)) as [H3|H3].
  { rewrite (proj2 (N.eqb_eq _ _) H3). destruct (rrsetExistsInView m n _ view); naive_solver. }
  rewrite (proj2 (N.eqb_neq _ _) H3).
  destruct (decide (class_of r = ClassNONE)) as [H4|H4].
  { rewrite (proj2 (N.eqb_eq _ _) H4). destruct (rrsetExistsInView m n _ view); [naive_solver|].
    split; [|done]. intros _. split; [done|].
    destruct (decide (rrset (treeForView m view) n (type_of r) = [])); naive_solver. }
  rewrite (proj2 (N.eqb_neq _ _) H4). destruct (rrExistsInView m r view); naive_solver.
Qed.

Lemma offline_update p client req payload lim ctx :
  offline (W := W) (D := D) (C := C) (Net := Net)
    (handleDynamicUpdate (P := P) p client req payload lim ctx).
Proof.
  pose proof (λ rcode tsig, quiet_update_response p req rcode lim client ctx tsig) as Hq.
  pose proof (quiet_update_refused p req lim client ctx) as Hf.
  assert (Ha : ∀ o v us, offline (C := C) (Net := Net) (applyUpdate (P := P) p o v us)).
  { intros o v us w. unfold applyUpdate. by destruct (ApplyDynamicUpdateRRs _ _ _ _ _ _). }
  assert (Hn : ∀ o, offline (W := W) (D := D) (C := C) (Net := Net) (notify p o)) by by split.
  unfold handleDynamicUpdate, updateFormatErrorResponse.
  repeat first [solve [auto with frame] | apply offline_bind; [auto with frame|]; intros ? | case_match].
Qed.

Lemma heedless_update_response p req rcode lim client ctx tsig :
  heedless (W := W) (D := D) (C := C) (Net := Net) (updateResponse p req rcode lim client ctx tsig).
Proof.
  unfold updateResponse. apply heedless_if; [|auto with frame].
  apply heedless_bind; [auto with frame|]. intros now. apply heedless_if; [|auto with frame].
  destruct (is_tsig _); [|auto with frame]. destruct (tsig_generate _ _ _); auto with frame.
Qed.

Lemma heedless_update p client req payload lim ctx :
  heedless (W := W) (D := D) (C := C) (Net := Net)
    (handleDynamicUpdate (P := P) p client req payload lim ctx).
Proof.
  pose proof (λ rcode tsig, heedless_update_response p req rcode lim client ctx tsig) as Hq.
  assert (Ha : ∀ o v us, heedless (C := C) (Net := Net) (applyUpdate (P := P) p o v us)).
  { intros o v us w c n. unfold applyUpdate, set_upstream. cbn [unix sys set_net set_cache].
    by destruct (ApplyDynamicUpdateRRs _ _ _ _ _ _). }
  assert (Hn : ∀ o, heedless (W := W) (D := D) (C := C) (Net := Net) (notify p o)) by by intros o w c n.
  unfold handleDynamicUpdate, updateFormatErrorResponse, updateRefusedResponse.
  repeat first [solve [auto with frame] | apply heedless_bind; [solve [auto with frame]|]; intros ? | case_match].
Qed.

End lemmas.
#[export] Hint Resolve quiet_update_response quiet_update_refused offline_update heedless_update : frame.

(** * Properties *)
Section properties.
Context {T : Type → Type} {W D P C Net R V : Type}.
Context {RO : RadixOps T} {RL : RadixLaws T} {MR : MapRange} {SS : SortSlice} {DT : DnsText}
  {DG : Digest} {ZP : ZoneParser} {FS : FileSys W} {KD : KeyDB D} {DC : DnssecCrypto P}
  {KT : KeyText P} {DM : DnsMsg} {TS : Tsig}.
Implicit Types (p : Processor T R V) (m : Memory T) (w : world T W D C Net).

(** the prerequisites of an update pass exactly when each of them holds
    of the zone's data in the view, as RFC 2136 defines its five kinds (name
    in use, name not in use, RRset exists, RRset does not exist, record
    exists), and lies in the zone; otherwise the first that fails decides the
    error. *)
Theorem prerequisites_decided m origin view prereqs :
  wf_mem m →
  match checkPrerequisites m prereqs origin view with
  | None => Forall (prereq_holds m origin view) prereqs
  | Some e => ∃ before r after, prereqs = before ++ r :: after ∧
      Forall (prereq_holds m origin view) before ∧ ¬ prereq_holds m origin view r ∧
      checkPrerequisite m r origin view = Some e
  end.
Proof.
  intros Hw. induction prereqs as [|r l IH]; cbn [checkPrerequisites]; [done|].
  pose proof (checkPrerequisite_spec m r origin view Hw) as Hr.
  destruct (checkPrerequisite m r origin view) as [e|] eqn:E.
  - exists [], r, l. split_and!; naive_solver.
  - destruct (checkPrerequisites m l origin view) as [e|].
    + destruct IH as (b & x & a & -> & Hb & Hx & He). exists (r :: b), x, a.
      split_and!; [done| |done|done]. constructor; naive_solver.
    + constructor; naive_solver.
Qed.

(** A branch of the handler that only replies. *)
Local Ltac reject :=
  let Hh := fresh in intros Hh;
  match goal with
  | Hd : ∀ X : Prop, _, Hq : ∀ m : M _ _ _ _ _ _, _ |- _ =>
      eapply Hd, Hq, Hh; auto with frame
  end.

(** C8: an UPDATE message changes nothing but counters, unless it is signed
    with a configured TSIG key whose signature verifies, its zone section
    names one zone of the server, all prerequisites hold and there are
    updates; then the store does exactly [ApplyDynamicUpdateRRs], and slaves
    are notified only if that succeeds. Neither the cache nor the network is
    touched. *)
Theorem dynamic_update_gate p client req payload lim ctx w w' r :
  wf_mem (mem (sys w)) →
  handleDynamicUpdate (P := P) p client req payload lim ctx w = (r, w') →
  cache w' = cache w ∧ net w' = net w ∧
  ((sys w' = sys w ∧ sent w' = sent w) ∨
   ∃ tsig secret q view e,
     is_tsig req = Some tsig ∧
     p_tsigSecrets p !! canonical_name (name_of tsig) = Some secret ∧
     tsig_verify (unix w) payload secret = None ∧
     m_question req = [q] ∧ q_type q = TypeSOA ∧ m_ns req ≠ [] ∧
     zoneExistsLocked (mem (sys w)) (NormalizeName (q_name q)) view = true ∧
     Forall (prereq_holds (mem (sys w)) (NormalizeName (q_name q)) view) (m_answer req) ∧
     ApplyDynamicUpdateRRs (P := P) (unix w) (p_zonesDir p) (NormalizeName (q_name q)) view
       (m_ns req) (sys w) = (sys w', e) ∧
     sent w' = sent w ++
       match e with None => NotifyZone (p_notifier p) (NormalizeName (q_name q)) | Some _ => [] end).
Proof.
  intros Hw Hh.
  assert (Hq : ∀ m : M T W D C Net (res string), quiet m → m w = (r, w') →
    cache w' = cache w ∧ net w' = net w ∧ ((sys w' = sys w ∧ sent w' = sent w) ∨ False)).
  { intros h Hm E. specialize (Hm w). rewrite E in Hm. destruct Hm as (?&?&?&?&_). auto. }
  assert (Hd : ∀ X : Prop, cache w' = cache w ∧ net w' = net w ∧
      ((sys w' = sys w ∧ sent w' = sent w) ∨ False) →
    cache w' = cache w ∧ net w' = net w ∧ ((sys w' = sys w ∧ sent w' = sent w) ∨ X)) by naive_solver.
  revert Hh. unfold handleDynamicUpdate, bind at 1. cbn [gets].
  unfold verifyUpdateTSIG at 1.
  case_bool_decide; [reject|].
  destruct (is_tsig req) as [tsig|] eqn:Et; [|reject].
  destruct (p_tsigSecrets p !! _) as [secret|] eqn:Es;
    [|reject].
  destruct (tsig_verify (unix w) payload secret) eqn:Ev;
    [reject|].
  set (tc := match dat tsig with DTSIG _ _ => _ | _ => _ end). clearbody tc.
  unfold updateFormatErrorResponse.
  destruct (m_question req) as [|q [|]] eqn:Eq; [reject| |reject].
  destruct (N.eqb_spec (q_type q) TypeSOA) as [Hsoa|]; cbn [negb];
    [|reject].
  destruct (negb _ && negb _); [reject|].
  unfold bind at 1. cbn [gets].
  destruct (resolveUpdateView (mem (sys w)) (NormalizeName (q_name q))) as [view|] eqn:Er;
    [|reject].
  pose proof (prerequisites_decided (mem (sys w)) (NormalizeName (q_name q)) view (m_answer req) Hw)
    as Hp.
  destruct (checkPrerequisites _ _ _ _); [reject|].
  destruct (m_ns req) as [|u us] eqn:Eu; [reject|].
  assert (Hz : zoneExistsLocked (mem (sys w)) (NormalizeName (q_name q)) view = true).
  { revert Er. unfold resolveUpdateView. rewrite normalize_idemp.
    destruct (zoneExistsLocked _ _ ViewPublic) eqn:E1; [by intros [= <-]|].
    destruct (zoneExistsLocked _ _ ViewInternal) eqn:E2; [by intros [= <-]|done]. }
  unfold bind at 1, applyUpdate at 1.
  destruct (ApplyDynamicUpdateRRs _ _ _ _ _ _) as [s1 e1] eqn:Ea. intros Hh.
  assert (Hfin : ∀ (h : M T W D C Net (res string)) w1, quiet h → h w1 = (r, w') →
    sys w' = sys w1 ∧ cache w' = cache w1 ∧ net w' = net w1 ∧ sent w' = sent w1).
  { intros h w1 Hm E. specialize (Hm w1). rewrite E in Hm. by destruct Hm as (?&?&?&?&_). }
  destruct e1 as [e1|].
  - apply Hfin in Hh as (Hs1 & Hc1 & Hn1 & Hse1); [|auto with frame].
    cbn [sys cache net sent set_sys] in *. split_and!; [done..|]. right.
    exists tsig, secret, q, view, (Some e1). rewrite Hs1, app_nil_r. done.
  - unfold bind at 1, notify at 1 in Hh.
    apply Hfin in Hh as (Hs1 & Hc1 & Hn1 & Hse1); [|auto with frame].
    cbn [sys cache net sent set_sys set_sent] in *. split_and!; [done..|]. right.
    exists tsig, secret, q, view, None. rewrite Hs1. done.
Qed.

End properties.

(** ** Behaviour to know *)

(** A verified UPDATE with an OPT record panics the server, whatever the
    outcome of the update was: the OPT record is appended behind the TSIG stub,
    and [TsigGenerate], which wants the stub last, panics. *)
Theorem signed_update_with_opt_panics {T W D C Net R V} `{DL : DnsMsgLaws} `{Tsig}
    (p : Processor T R V) req rcode lim client ctx tsig opt (w : world T W D C Net) :
  (∀ m r, is_tsig m = Some r → last (m_extra m) = Some r ∧ is_opt r = false) →
  is_edns0 req = Some opt → keyName tsig ≠ "" → rcode ≠ RcodeFormatError →
  default "" (p_tsigSecrets p !! keyName tsig) ≠ "" →
  (updateResponse p req rcode lim client ctx tsig w).1 = Err ErrPanic.
Proof.
  intros Hts He Hk Hr Hs. unfold updateResponse.
  rewrite bool_decide_false, (proj2 (N.eqb_neq _ _) Hr) by done. cbn [negb andb].
  unfold bind at 1. cbn [gets]. rewrite bool_decide_false by done. cbn [negb].
  match goal with |- context [is_tsig ?m] => destruct (is_tsig m) as [r|] eqn:Et end; [exfalso|done].
  apply Hts in Et as [Hl Ho]. cbn [m_extra set_compress] in Hl. unfold ednsReply in Hl. rewrite He in Hl.
  match type of Hl with context [set_edns0 ?m ?z ?d] => set (x := set_edns0 m z d) in *;
    destruct (set_edns0_appends m z d) as (o & Ex & Hopt & _); fold x in Ex end.
  assert (Hx : ∃ o, last (m_extra x) = Some o ∧ is_opt o = true) by (exists o; split; [rewrite Ex; apply last_snoc | done]).
  clearbody x. unfold attachResponseCookie in Hl.
  destruct (p_cookies p) as [h|]; [destruct (hasClientCookie ctx)|];
    [|destruct Hx as (? & ? & ?); simplify_eq; congruence..].
  unfold update_edns0 in Hl. destruct (edns_index x) as [i|]; [|destruct Hx as (? & ? & ?); congruence]. cbn [m_extra set_extra] in Hl.
  destruct Hx as (o' & Hx & Ho'). rewrite last_lookup in Hx, Hl.
  rewrite length_alter, list_lookup_alter, Hx in Hl. case_decide as Hi.
  - rewrite Hi, Hx in Hl. injection Hl as <-. discriminate Ho.
  - injection Hl as <-. congruence.
Qed.

(** * Witnesses *)
Definition demo_prereqs : list rr :=
  [RR (Hdr "Example.com" TypeSOA ClassANY 0) (DOther "");
   RR (Hdr "new.example.com" TypeANY ClassNONE 0) (DOther "")].
Definition demo_prereq_check : option error :=
  checkPrerequisites (mem demo_created) demo_prereqs "example.com." ViewPublic.

Lemma prerequisites_decided_witness :
  Forall (prereq_holds (mem demo_created) "example.com." ViewPublic) demo_prereqs.
Proof.
  assert (E : demo_prereq_check = None) by by vm_compute.
  pose proof (prerequisites_decided (mem demo_created) "example.com." ViewPublic demo_prereqs
    demo_created_wf) as H.
  change (checkPrerequisites (mem demo_created) demo_prereqs "example.com." ViewPublic)
    with demo_prereq_check in H. by rewrite E in H.
Defined.

Definition demo_update_request : msg :=
  set_extra (set_ns (set_answer (set_question new_msg
      [Question "example.com" TypeSOA ClassINET]) demo_prereqs) demo_updates)
    [RR (Hdr "key.example." 250 ClassANY 0) (DTSIG "hmac-sha256." "mac")].
Definition demo_updater : Processor gtree unit unit :=
  MkProcessor None None "" None None None None false None None {["key.example." := "c2VjcmV0"]}
    "/zones" false None (Some (NewNotifier true ["192.0.2.53:53"])) None.
Definition demo_update_world : world gtree ram key_table unit unit :=
  World demo_created None 0 0 (Some []) () [].
Definition demo_handled :=
  handleDynamicUpdate (P := string) demo_updater (A4 1) demo_update_request "" true noCookie
    demo_update_world.

Lemma dynamic_update_gate_witness :
  cache demo_handled.2 = None ∧ net demo_handled.2 = () ∧
  sent demo_handled.2 = [("example.com.", "192.0.2.53:53")].
Proof.
  destruct (dynamic_update_gate (P := string) demo_updater (A4 1) demo_update_request "" true
    noCookie demo_update_world demo_handled.2 demo_handled.1 demo_created_wf (pair_eta _))
    as (Hc & Hn & _).
  split; [exact Hc|]. split; [exact Hn|]. by vm_compute.
Defined.

End Update.
