(* ===== verification/Handlers.v ===== *)
(** * The handlers of the management API: internal/api

    The state the server of the API works on, and one definition per handler:
    zones.go, dnssec.go, firewall.go, settings.go, config.go, acl.go, rpz.go,
    stats.go, logs.go and the list of audit.go. A handler takes the request and
    the wildcards of its route, and gives the new state with the response.
    JSON is decoded by the interface of Http; the clocks and the random bytes
    of a request are its environment; the runtime applier is the interface the
    source declares. Requests are handled one at a time here. *)
From S2P Require Import Prelude Telemetry Radix NetAddr Dns Acl Rpz Firewall Ttl Owner Sorting Tree Records KeyStore.
From S2P Require Import Signer Files Store Access Upstream Config Sql Logging Feeds Reports Rules Http WebUI Query Reply Update.
Import Owner TTL KeyStore Store Http.

Module Handlers.

(** ** Requests *)
Record createZoneRequest := MkCreateZone { cz_Name : string; cz_View : string }.
Record dnssecZoneRequest := MkDnssecZone { dz_View : string }.
Record createSourceRequest := MkCreateSource { cs_URL : string; cs_Description : string }.
Record patchSourceRequest := MkPatchSource { ps_Enabled : option bool; ps_Description : option string }.
Record createCustomRequest := MkCreateCustom { cc_Domain : string }.
(** [createACLRuleRequest] and [updateACLRuleRequest]. *)
Record aclRuleRequest := MkRuleRequest { ar_Subnet : string; ar_Description : string; ar_Action : string }.
(** The fields of a zone are those of the configuration. *)
Record aclConfigPayload := MkAclPayload {
  MatchLists : option (gmap string (list string));
  ap_AllowQuery : list string; ap_AllowRecursion : list string; ap_AllowTransfer : list string;
  ap_Zones : option (gmap string Config.ZoneACLConfig)
}.
Record rpzPolicyPayload := MkRpzPolicy { rp_Domain : string; rp_Action : string; rp_Target : string }.
Record rpzConfigPayload := MkRpzPayload { rp_Enabled : bool; rp_Policies : list rpzPolicyPayload }.
Record logsConfigRequest := MkLogsConfig { lc_Level : string; lc_Rotation : Logging.RotationConfig }.

(** ** Responses *)
Record dnssecStatusResponse := MkDnssecStatus {
  ds_Enabled : bool; ds_Zone : string; ds_View : string; ds_Algorithm : N;
  ds_KSKTag : N; ds_ZSKTag : N; ds_DS : string
}.

Inductive body :=
| ErrorBody (e : error)
| TextBody (text : string)
| StatusBody (status message : string)
| ZonesBody (zones : list ZoneInfo)
| RecordsBody (zone : string) (view : ZoneView) (records : list ZoneRecordEntry)
| RecordBody (status message name type : string)
| ZoneBody (status message zone : string) (info : option ZoneInfo)
| DnssecBody (status : dnssecStatusResponse)
| FirewallBody (count : nat) (syncInProgress : bool)
| SourcesBody (sources : list Feeds.BlocklistSource)
| BlocklistBody (status message : string) (source : option Feeds.BlocklistSource)
    (entry : option Feeds.CustomBlocklistEntry)
| CustomBody (domains : list Feeds.CustomBlocklistEntry)
| RulesBody (rules : list Access.Rule)
| RuleBody (status message : string) (rule : option Access.Rule)
| ConfigBody (c : Config.Config)
| ConfigUpdateBody (success requiresRestart : bool)
| AclConfigBody (p : aclConfigPayload)
| RpzConfigBody (p : rpzConfigPayload)
| LinesBody (lines : list string)
| LogsConfigBody (level : string) (rotation : Logging.RotationConfig)
| StreamBody (subscription : N)
| StatsBody (s : Counters.Snapshot)
| HistoryBody (h : Reports.HistoryResponse)
| AuditBody (logs : list Reports.AuditLog)
| MetricsBody
| UIBody (r : WebUI.reply)
| Aborted.

Definition response : Type := N * body.
Definition writeJSONError (code : N) (e : error) : response := (code, ErrorBody e).
(** A handler that panics: net/http recovers and cuts the connection. *)
Definition panicked : response := (0%N, Aborted).
Definition errorMessage (code : N) (text : string) : response := writeJSONError code (errNew text).

(** ** Parts without the state *)
Definition with_acl (a : Config.ACLConfig) (c : Config.Config) : Config.Config :=
  Config.MkConfig (Config.Server c) (Config.TLS c) (Config.Listeners c) (Config.API c)
    (Config.ZonesDirectory c) (Config.Recursive c) (Config.Resolver c) (Config.Firewall c)
    (Config.Security c) (Config.RateLimit c) (Config.ECS c) (Config.Logging c) (Config.UpdateKeys c)
    (Config.XFR c) a (Config.Views c) (Config.RPZs c).
Definition with_rpz (r : Config.RPZConfig) (c : Config.Config) : Config.Config :=
  Config.MkConfig (Config.Server c) (Config.TLS c) (Config.Listeners c) (Config.API c)
    (Config.ZonesDirectory c) (Config.Recursive c) (Config.Resolver c) (Config.Firewall c)
    (Config.Security c) (Config.RateLimit c) (Config.ECS c) (Config.Logging c) (Config.UpdateKeys c)
    (Config.XFR c) (Config.ACLs c) (Config.Views c) r.

Definition aclConfigFrom (a : Config.ACLConfig) : aclConfigPayload :=
  MkAclPayload (Some (default ∅ (Config.Lists a))) (Config.AllowQuery a) (Config.AllowRecursion a)
    (Config.AllowTransfer a) (Some (Config.Zones a)).
Definition acl_toConfig (p : aclConfigPayload) (current : Config.ACLConfig) : Config.ACLConfig :=
  Config.MkACL (Some (default ∅ (MatchLists p))) (ap_AllowQuery p) (ap_AllowRecursion p)
    (ap_AllowTransfer p) (default (Config.Zones current) (ap_Zones p)).

Definition rpzConfigFrom (r : Config.RPZConfig) : rpzConfigPayload :=
  MkRpzPayload (Config.rpzEnabled r)
    (map (λ p, MkRpzPolicy (Config.pPattern p) (Config.pAction p) (Config.pTarget p)) (Config.Policies r)).
Definition rpz_toConfig (p : rpzConfigPayload) : Config.RPZConfig :=
  Config.MkRPZ (rp_Enabled p)
    (map (λ q, Config.MkRPZPolicy (rp_Domain q) (rp_Action q) (rp_Target q)) (rp_Policies p)).

Definition toDNSSECResponse (s : Status) : dnssecStatusResponse :=
  MkDnssecStatus (st_enabled s) (st_zone s) (st_view s) (st_algorithm s) (st_ksk_tag s)
    (st_zsk_tag s) (st_ds s).

(** dnsproc/xfr.go. *)
Definition ZoneOrigins {SS : SortSlice} (zones : list ZoneInfo) : list string :=
  let seen := list_to_set (C := gset string)
    (List.filter (λ o, negb (bool_decide (o = "."))) (map (λ z, NormalizeName (zi_origin z)) zones)) in
  sort_slice str_lt (elements seen).

(** What a [body] the server gives a handler reads as; [NoBody] is empty. *)
Definition body_of (rq : request) : string * option error := default ("", None) (rq_body rq).
Definition maxBody : N := 1048576.

(** Reading and decoding a request, or the response that says why not. *)
Definition unmarshalBody {A} {J : Json A} (rq : request) : response + A :=
  match read_limited maxBody (body_of rq) with
  | Err _ => inl (errorMessage StatusBadRequest "failed to read request body")
  | Ok text =>
      match json_unmarshal text with
      | None => inl (errorMessage StatusBadRequest "malformed JSON payload")
      | Some a => inr a
      end
  end.

Definition decodeBody {A} {J : Json A} (rq : request) (message : string) : response + A :=
  match json_decode (body_of rq) with
  | Decoded a => inr a
  | _ => inl (errorMessage StatusBadRequest message)
  end.

(** An empty body leaves the zero value. *)
Definition decodeDnssec {J : Json dnssecZoneRequest} (rq : request) : response + dnssecZoneRequest :=
  match rq_body rq with
  | None => inr (MkDnssecZone "")
  | Some b =>
      match json_decode b with
      | Decoded a => inr a
      | DecodeEOF => inr (MkDnssecZone "")
      | DecodeErr => inl (errorMessage StatusBadRequest "malformed JSON payload")
      end
  end.

Definition decodeRecordInput {J : Json RecordInput} (b : string * option error) : res RecordInput :=
  match json_decode b with
  | Decoded i =>
      if bool_decide (trim_space (in_name i) = "") then Err (errNew "record name is required")
      else if bool_decide (trim_space (in_type i) = "") then Err (errNew "record type is required")
      else let? _ := ResolveRecordTTL i in Ok i
  | _ => Err (errNew "malformed JSON payload")
  end.

Definition badRequest {A} (r : res A) : response + A :=
  match r with Ok a => inr a | Err e => inl (writeJSONError StatusBadRequest e) end.

Definition zoneParam (alnum : list ascii → bool) (vars : list (string * string)) : response + string :=
  let zone := trim_space (PathValue "zone" vars) in
  match ValidateZoneName alnum zone with
  | Some e => inl (writeJSONError StatusBadRequest e)
  | None => inr zone
  end.

(** [strconv.ParseInt(_, 10, 64)] and the sign check. *)
Definition idParam (message : string) (vars : list (string * string)) : response + Z :=
  match atoi (trim_space (PathValue "id" vars)) with
  | Some id => if (id <=? 0)%Z then inl (errorMessage StatusBadRequest message) else inr id
  | None => inl (errorMessage StatusBadRequest message)
  end.

(** ** The server *)
Section server.
Context {T : Type → Type} {W D P B X R : Type}.
Context {RO : RadixOps T} {MR : MapRange} {SS : SortSlice} {DT : DnsText} {DG : Digest}
  {ZP : ZoneParser} {FS : FileSys W} {ST : FileStat W} {KD : KeyDB D} {DC : DnssecCrypto P} {KT : KeyText P}
  {TR : TCPResolver} {TM : Toml Config.Config}
  {FD : FeedsDB B} {RD : RulesDB B} {CD : Logging.ConfigDB B} {AD : AuditDB B} {HD : HistoryDB B}
  {SE : ErrorText} {TT : TimeText} {DY : DayText} {FN : FeedNet X}.
Context {J1 : Json RecordInput} {J2 : Json createZoneRequest} {J3 : Json dnssecZoneRequest}
  {J4 : Json createSourceRequest} {J5 : Json patchSourceRequest} {J6 : Json createCustomRequest}
  {J7 : Json aclRuleRequest} {J8 : Json aclConfigPayload} {J9 : Json rpzConfigPayload}
  {J10 : Json logsConfigRequest} {J11 : Json Config.Config}.

(** What the handlers share: the configuration of the server, the store with
    its files and keys, the database, the engine of the firewall, the checker of
    Access (nil, or its snapshot), the worker of the feeds, the NOTIFYs sent,
    the logger with its ring and its subscribers, the counters; and the rest of
    the process, which only the applier reaches. *)
Record state := MkState {
  st_cfg : Config.Config; st_sys : system T W D; st_db : option B;
  st_fw : option (Firewall.Engine T); st_acl : option (option Access.aclSnapshot);
  st_sync : Feeds.sync_state; st_sent : list (string * string);
  st_logs : Logging.logger; st_ring : Logging.RingBuffer; st_broadcast : Logging.Broadcaster;
  st_stats : Counters.Stats; st_rest : R
}.

Definition set_cfg c s := MkState c (st_sys s) (st_db s) (st_fw s) (st_acl s) (st_sync s) (st_sent s)
  (st_logs s) (st_ring s) (st_broadcast s) (st_stats s) (st_rest s).
Definition set_sys y s := MkState (st_cfg s) y (st_db s) (st_fw s) (st_acl s) (st_sync s) (st_sent s)
  (st_logs s) (st_ring s) (st_broadcast s) (st_stats s) (st_rest s).
Definition set_db d s := MkState (st_cfg s) (st_sys s) d (st_fw s) (st_acl s) (st_sync s) (st_sent s)
  (st_logs s) (st_ring s) (st_broadcast s) (st_stats s) (st_rest s).
Definition set_fw f s := MkState (st_cfg s) (st_sys s) (st_db s) f (st_acl s) (st_sync s) (st_sent s)
  (st_logs s) (st_ring s) (st_broadcast s) (st_stats s) (st_rest s).
Definition set_checker a s := MkState (st_cfg s) (st_sys s) (st_db s) (st_fw s) a (st_sync s) (st_sent s)
  (st_logs s) (st_ring s) (st_broadcast s) (st_stats s) (st_rest s).
Definition set_sync y s := MkState (st_cfg s) (st_sys s) (st_db s) (st_fw s) (st_acl s) y (st_sent s)
  (st_logs s) (st_ring s) (st_broadcast s) (st_stats s) (st_rest s).
Definition set_sent n s := MkState (st_cfg s) (st_sys s) (st_db s) (st_fw s) (st_acl s) (st_sync s) n
  (st_logs s) (st_ring s) (st_broadcast s) (st_stats s) (st_rest s).
Definition set_logs g s := MkState (st_cfg s) (st_sys s) (st_db s) (st_fw s) (st_acl s) (st_sync s) (st_sent s)
  g (st_ring s) (st_broadcast s) (st_stats s) (st_rest s).
Definition set_ring r s := MkState (st_cfg s) (st_sys s) (st_db s) (st_fw s) (st_acl s) (st_sync s)
  (st_sent s) (st_logs s) r (st_broadcast s) (st_stats s) (st_rest s).
Definition set_broadcast b s := MkState (st_cfg s) (st_sys s) (st_db s) (st_fw s) (st_acl s) (st_sync s)
  (st_sent s) (st_logs s) (st_ring s) b (st_stats s) (st_rest s).

(** What [New] is given besides: the applier is nil or an implementation of
    [RuntimeConfigurator]; the token is the one of the first configuration. *)
Record server := MkServer {
  configPath : string; authToken : string; notifier : option Reply.Notifier;
  runtime : option (Config.Config → state → state * option error)
}.

(** The clocks and the randomness a request meets. *)
Record env := MkEnv {
  e_now : N; e_today : string; e_clock : string; e_entropy : string → string; e_unix : Z;
  e_alnum : list ascii → bool
}.

Context (srv : server) (ev : env).

Definition guard {A} (r : response + A) (s : state) (k : A → state * response) : state * response :=
  match r with inl p => (s, p) | inr a => k a end.
Notation "'let&' x := r 'for' s 'in' k" := (guard r s (λ x, k))
  (at level 200, x name, r at level 100, s at level 100, k at level 200).

Definition zonesDir (s : state) : string := Config.ZonesDirectory (st_cfg s).
Definition notify (origin : string) (s : state) : state :=
  set_sent (st_sent s ++ Update.NotifyZone (notifier srv) origin) s.

(** *** zones.go *)
Definition handleListZones (s : state) : state * response := (s, (StatusOK, ZonesBody (ListZones (mem (st_sys s))))).

Definition handleCreateZone (rq : request) (s : state) : state * response :=
  let& inp := decodeBody (A := createZoneRequest) rq "malformed JSON payload" for s in
  let name := trim_space (cz_Name inp) in
  match ValidateZoneName (e_alnum ev) name with
  | Some e => (s, writeJSONError StatusBadRequest e)
  | None =>
      let& view := badRequest (ParseZoneView (cz_View inp)) for s in
      let '(y, r) := CreateZone (e_today ev) (zonesDir s) name view (e_alnum ev) (st_sys s) in
      let s := set_sys y s in
      match r with
      | Err e => (s, if errors_is e ErrZoneAlreadyExists then errorMessage StatusConflict "zone already exists"
                     else writeJSONError StatusBadRequest e)
      | Ok info => (notify (zi_origin info) s,
                    (StatusCreated, ZoneBody "created" "zone created" (zi_origin info) (Some info)))
      end
  end.

Definition queryView (rq : request) : response + ZoneView :=
  badRequest (ParseZoneView (query_get "view" (rq_query rq))).

Definition handleDeleteZone (rq : request) (vars : list (string * string)) (s : state) : state * response :=
  let& zone := zoneParam (e_alnum ev) vars for s in
  let& view := queryView rq for s in
  let '(y, r) := DeleteZone (zonesDir s) zone view (e_alnum ev) (st_sys s) in
  let s := set_sys y s in
  match r with
  | Some e => (s, if errors_is e ErrZoneNotFound then errorMessage StatusNotFound "zone not found"
                  else writeJSONError StatusBadRequest e)
  | None => (notify (NormalizeName zone) s,
             (StatusOK, ZoneBody "deleted" "zone deleted" (NormalizeName zone) None))
  end.

Definition handleListZoneRecords (rq : request) (vars : list (string * string)) (s : state) : state * response :=
  let& zone := zoneParam (e_alnum ev) vars for s in
  let& view := queryView rq for s in
  match ListZoneRecordEntries (mem (st_sys s)) zone view with
  | Err e => (s, if errors_is e ErrZoneNotFound then errorMessage StatusNotFound "zone not found"
                 else writeJSONError StatusBadRequest e)
  | Ok records => (s, (StatusOK, RecordsBody (NormalizeName zone) view records))
  end.

(** The errors of the record operations. *)
Definition recordError (e : error) : response :=
  if errors_is e ErrZoneNotFound then errorMessage StatusNotFound "zone not found"
  else if errors_is e ErrRecordNotFound then errorMessage StatusNotFound "record not found"
  else writeJSONError StatusBadRequest e.

Definition upperType (i : RecordInput) : string := to_upper (trim_space (in_type i)).

Definition handleCreateRecord (rq : request) (vars : list (string * string)) (s : state) : state * response :=
  let& zone := zoneParam (e_alnum ev) vars for s in
  let& i := badRequest (decodeRecordInput (body_of rq)) for s in
  let& view := badRequest (ParseZoneView (in_view i)) for s in
  let '(y, r) := AddZoneRecord (P:=P) (e_now ev) (zonesDir s) zone view i (st_sys s) in
  let s := set_sys y s in
  match r with
  | Err e => (s, if errors_is e ErrZoneNotFound then errorMessage StatusNotFound "zone not found"
                 else writeJSONError StatusBadRequest e)
  | Ok None => (s, panicked)
  | Ok (Some rr) => (notify zone s, (StatusCreated, RecordBody "created" "record added" (h_name (hdr rr)) (upperType i)))
  end.

Definition handleUpdateRecord (rq : request) (vars : list (string * string)) (s : state) : state * response :=
  let& zone := zoneParam (e_alnum ev) vars for s in
  let recordID := trim_space (PathValue "id" vars) in
  if bool_decide (recordID = "") then (s, errorMessage StatusBadRequest "record id is required")
  else
    let& i := badRequest (decodeRecordInput (body_of rq)) for s in
    let& view := badRequest (ParseZoneView (in_view i)) for s in
    let '(y, r) := UpdateZoneRecordByID (P:=P) (e_now ev) (zonesDir s) zone view recordID i (st_sys s) in
    let s := set_sys y s in
    match r with
    | Err e => (s, recordError e)
    | Ok None => (s, panicked)
    | Ok (Some rr) => (notify zone s, (StatusOK, RecordBody "updated" "record updated" (h_name (hdr rr)) (upperType i)))
    end.

Definition handleDeleteRecordByID (rq : request) (zone recordID : string) (s : state) : state * response :=
  let& view := queryView rq for s in
  let '(y, r) := DeleteZoneRecordByID (P:=P) (e_now ev) (zonesDir s) zone view recordID (st_sys s) in
  let s := set_sys y s in
  match r with
  | Some e => (s, recordError e)
  | None => (notify zone s, (StatusOK, RecordBody "deleted" "record removed" "" ""))
  end.

Definition handleDeleteRecord (rq : request) (vars : list (string * string)) (s : state) : state * response :=
  let& zone := zoneParam (e_alnum ev) vars for s in
  let recordID := trim_space (PathValue "id" vars) in
  if negb (bool_decide (recordID = "")) then handleDeleteRecordByID rq zone recordID s
  else
    let& i := badRequest (decodeRecordInput (body_of rq)) for s in
    let& view := badRequest (ParseZoneView (in_view i)) for s in
    let '(y, r) := DeleteZoneRecord (P:=P) (e_now ev) (zonesDir s) zone view i (st_sys s) in
    let s := set_sys y s in
    match r with
    | Some e => (s, recordError e)
    | None => (notify zone s, (StatusOK, RecordBody "deleted" "record removed" (in_name i) (upperType i)))
    end.

(** server.go. *)
Definition handleZonesReload (s : state) : state * response :=
  let s := set_sys (LoadZonesFromDir (zonesDir s) (st_sys s)) s in
  let s := set_sent (st_sent s ++ Update.NotifyZones (notifier srv) (ZoneOrigins (ListZones (mem (st_sys s))))) s in
  (s, (StatusOK, StatusBody "ok" "zones reloaded")).

(** *** dnssec.go *)
Definition handleGetZoneDNSSEC (rq : request) (vars : list (string * string)) (s : state) : state * response :=
  let& zone := zoneParam (e_alnum ev) vars for s in
  let& view := queryView rq for s in
  if negb (zoneExistsLocked (mem (st_sys s)) (NormalizeName zone) view)
  then (s, errorMessage StatusNotFound "zone not found")
  else
    match DNSSECStatus (P:=P) (st_sys s) zone view with
    | Err e => (s, writeJSONError StatusInternalServerError e)
    | Ok status => (s, (StatusOK, DnssecBody (toDNSSECResponse status)))
    end.

Definition dnssecError (e : error) : response :=
  if errors_is e ErrZoneNotFound then errorMessage StatusNotFound "zone not found"
  else if contains (error_text e) "dnssec is not configured" then writeJSONError StatusServiceUnavailable e
  else writeJSONError StatusBadRequest e.

Definition handleEnableZoneDNSSEC (rq : request) (vars : list (string * string)) (s : state) : state * response :=
  let& zone := zoneParam (e_alnum ev) vars for s in
  let& inp := decodeDnssec rq for s in
  let& view := badRequest (ParseZoneView (dz_View inp)) for s in
  let '(y, r) := EnableDNSSEC (P:=P) (e_entropy ev) (e_clock ev) (e_now ev) (zonesDir s) zone view (st_sys s) in
  let s := set_sys y s in
  match r with
  | Err e => (s, dnssecError e)
  | Ok status => (notify (NormalizeName zone) s, (StatusOK, DnssecBody (toDNSSECResponse status)))
  end.

Definition handleDisableZoneDNSSEC (rq : request) (vars : list (string * string)) (s : state) : state * response :=
  let& zone := zoneParam (e_alnum ev) vars for s in
  let& inp := decodeDnssec rq for s in
  let& view := badRequest (ParseZoneView (dz_View inp)) for s in
  let '(y, r) := DisableDNSSEC (zonesDir s) zone view (st_sys s) in
  let s := set_sys y s in
  match r with
  | Err e => (s, dnssecError e)
  | Ok status => (notify (NormalizeName zone) s, (StatusOK, DnssecBody (toDNSSECResponse status)))
  end.

(** *** firewall.go *)
Definition errNoDatabase : response := errorMessage StatusServiceUnavailable "database unavailable".

Definition needDatabase (s : state) : response + unit :=
  match st_db s with None => inl errNoDatabase | Some _ => inr () end.

Definition blocklistsDir (s : state) : string := Config.BlocklistsDirectory (Config.Firewall (st_cfg s)).

Definition reloadFirewallBlocklists (s : state) : state :=
  match st_fw s, st_db s with
  | Some fw, Some _ =>
      set_fw (Some (Firewall.LoadFromDirWithDB (Feeds.read_list_dir (files (st_sys s)) (blocklistsDir s))
                      (Feeds.loader_db (st_db s)) fw)) s
  | _, _ => s
  end.

Definition handleFirewallStatus (s : state) : state * response :=
  (s, (StatusOK, FirewallBody (match st_fw s with Some fw => Firewall.BlockedDomainsCount fw | None => 0 end)
                   (Feeds.SyncInProgress (st_sync s)))).

Definition handleListBlocklistSources (s : state) : state * response :=
  let& _ := needDatabase s for s in
  match Feeds.ListBlocklistSources (st_db s) with
  | Err _ => (s, errorMessage StatusInternalServerError "failed to list blocklist sources")
  | Ok sources => (s, (StatusOK, SourcesBody sources))
  end.

Definition handleCreateBlocklistSource (rq : request) (s : state) : state * response :=
  let& _ := needDatabase s for s in
  let& inp := unmarshalBody (A := createSourceRequest) rq for s in
  let '(d, r) := Feeds.InsertBlocklistSource (st_db s) (cs_URL inp) (cs_Description inp) in
  let s := set_db d s in
  match r with
  | Err e =>
      (s, if errors_is e Feeds.ErrInvalidSourceURL then errorMessage StatusBadRequest "invalid blocklist source URL"
          else if errors_is e Feeds.ErrSourceAlreadyExists
               then errorMessage StatusConflict "blocklist source already exists"
               else errorMessage StatusInternalServerError "failed to create blocklist source")
  | Ok source => (s, (StatusCreated, BlocklistBody "ok" "blocklist source created" (Some source) None))
  end.

Definition noFields := "at least one of enabled or description is required".

Definition handlePatchBlocklistSource (rq : request) (vars : list (string * string)) (s : state) : state * response :=
  let& _ := needDatabase s for s in
  let& id := idParam "invalid blocklist source id" vars for s in
  let& inp := unmarshalBody (A := patchSourceRequest) rq for s in
  if Config.is_none (ps_Enabled inp) && Config.is_none (ps_Description inp)
  then (s, errorMessage StatusBadRequest noFields)
  else
    let '(d, r) := Feeds.UpdateBlocklistSource (st_db s) id
                     (Feeds.MkInput (ps_Enabled inp) (ps_Description inp)) in
    let s := set_db d s in
    match r with
    | Err e =>
        (s, if errors_is e Feeds.ErrSourceNotFound then errorMessage StatusNotFound "blocklist source not found"
            else if contains (error_text e) "no fields to update" then errorMessage StatusBadRequest noFields
            else errorMessage StatusInternalServerError "failed to update blocklist source")
    | Ok source =>
        (reloadFirewallBlocklists s,
         (StatusOK, BlocklistBody "ok" "blocklist source updated" (Some source) None))
    end.

Definition handleDeleteBlocklistSource (vars : list (string * string)) (s : state) : state * response :=
  let& _ := needDatabase s for s in
  let& id := idParam "invalid blocklist source id" vars for s in
  let '(d, e) := Feeds.DeleteBlocklistSource (st_db s) id in
  let s := set_db d s in
  match e with
  | Some e =>
      (s, if errors_is e Feeds.ErrSourceNotFound then errorMessage StatusNotFound "blocklist source not found"
          else errorMessage StatusInternalServerError "failed to delete blocklist source")
  | None => (s, (StatusOK, BlocklistBody "ok" "blocklist source deleted" None None))
  end.

(** The worker runs on its own: [SyncBlocklistSources] of Feeds. *)
Definition handleFirewallSync (s : state) : state * response :=
  let& _ := needDatabase s for s in
  let '(started, y) := Feeds.StartBlocklistSync (st_sync s) in
  let s := set_sync y s in
  if negb started then (s, errorMessage StatusConflict "blocklist sync already in progress")
  else (s, (StatusAccepted, BlocklistBody "ok" "blocklist sync started" None None)).

Definition handleListCustomBlocklist (s : state) : state * response :=
  let& _ := needDatabase s for s in
  match Feeds.ListCustomBlocklistDomains (st_db s) with
  | Err _ => (s, errorMessage StatusInternalServerError "failed to list custom blocklist domains")
  | Ok domains => (s, (StatusOK, CustomBody domains))
  end.

Definition handleCreateCustomBlocklist (rq : request) (s : state) : state * response :=
  let& _ := needDatabase s for s in
  let& inp := unmarshalBody (A := createCustomRequest) rq for s in
  let '(d, r) := Feeds.InsertCustomBlocklistDomain (st_db s) (cc_Domain inp) (e_unix ev) in
  let s := set_db d s in
  match r with
  | Err e =>
      (s, if errors_is e Firewall.ErrInvalidCustomDomain
          then errorMessage StatusBadRequest "invalid custom blocklist domain"
          else if errors_is e Feeds.ErrCustomDomainAlreadyExists
               then errorMessage StatusConflict "custom blocklist domain already exists"
               else errorMessage StatusInternalServerError "failed to create custom blocklist domain")
  | Ok entry =>
      (reloadFirewallBlocklists s,
       (StatusCreated, BlocklistBody "ok" "custom blocklist domain created" None (Some entry)))
  end.

Definition handleDeleteCustomBlocklist (vars : list (string * string)) (s : state) : state * response :=
  let& _ := needDatabase s for s in
  let& id := idParam "invalid custom blocklist domain id" vars for s in
  let '(d, e) := Feeds.DeleteCustomBlocklistDomain (st_db s) id in
  let s := set_db d s in
  match e with
  | Some e =>
      (s, if errors_is e Feeds.ErrCustomDomainNotFound
          then errorMessage StatusNotFound "custom blocklist domain not found"
          else errorMessage StatusInternalServerError "failed to delete custom blocklist domain")
  | None =>
      (reloadFirewallBlocklists s, (StatusOK, BlocklistBody "ok" "custom blocklist domain deleted" None None))
  end.

(** *** settings.go *)
Definition reloadQueryACL (s : state) : state :=
  match st_acl s with
  | None => s
  | Some c =>
      let db := match st_db s with None => None | d => Some (Rules.ListRules d) end in
      set_checker (Some (Access.Reload db c).1) s
  end.

Definition handleListACLRules (s : state) : state * response :=
  let& _ := needDatabase s for s in
  match Rules.ListRules (st_db s) with
  | Err _ => (s, errorMessage StatusInternalServerError "failed to list acl rules")
  | Ok rules => (s, (StatusOK, RulesBody rules))
  end.

(** The errors of the two operations that write a rule. *)
Definition ruleError (e : error) (other : response) : response :=
  if errors_is e Access.ErrInvalidSubnet
  then errorMessage StatusBadRequest "invalid subnet; use an IP address or CIDR notation"
  else if errors_is e Access.ErrInvalidAction
  then errorMessage StatusBadRequest "invalid action; use allow or block"
  else if errors_is e Rules.ErrRuleAlreadyExists then errorMessage StatusConflict "acl rule already exists"
  else other.

Definition handleCreateACLRule (rq : request) (s : state) : state * response :=
  let& _ := needDatabase s for s in
  let& inp := unmarshalBody (A := aclRuleRequest) rq for s in
  let '(d, r) := Rules.InsertRule (st_db s) (ar_Subnet inp) (ar_Description inp) (ar_Action inp) in
  let s := set_db d s in
  match r with
  | Err e => (s, ruleError e (errorMessage StatusInternalServerError "failed to create acl rule"))
  | Ok rule => (reloadQueryACL s, (StatusCreated, RuleBody "ok" "acl rule created" (Some rule)))
  end.

Definition handleDeleteACLRule (vars : list (string * string)) (s : state) : state * response :=
  let& _ := needDatabase s for s in
  let& id := idParam "invalid acl rule id" vars for s in
  let '(d, e) := Rules.DeleteRule (st_db s) id in
  let s := set_db d s in
  match e with
  | Some e =>
      (s, if errors_is e Rules.ErrRuleNotFound then errorMessage StatusNotFound "acl rule not found"
          else errorMessage StatusInternalServerError "failed to delete acl rule")
  | None => (reloadQueryACL s, (StatusOK, RuleBody "ok" "acl rule deleted" None))
  end.

Definition handleUpdateACLRule (rq : request) (vars : list (string * string)) (s : state) : state * response :=
  let& _ := needDatabase s for s in
  let& id := idParam "invalid acl rule id" vars for s in
  let& inp := unmarshalBody (A := aclRuleRequest) rq for s in
  let '(d, r) := Rules.UpdateRule (st_db s) id (ar_Subnet inp) (ar_Description inp) (ar_Action inp) in
  let s := set_db d s in
  match r with
  | Err e =>
      (s, ruleError e (if errors_is e Rules.ErrRuleNotFound then errorMessage StatusNotFound "acl rule not found"
                       else errorMessage StatusInternalServerError "failed to update acl rule"))
  | Ok rule => (reloadQueryACL s, (StatusOK, RuleBody "ok" "acl rule updated" (Some rule)))
  end.

(** *** config.go, acl.go and rpz.go *)
Definition handleConfigGet (s : state) : state * response :=
  (s, (StatusOK, ConfigBody (Config.ForAPIResponse (st_cfg s)))).

(** What the three handlers share once the new configuration is merged:
    prepare, write, set, apply. *)
Definition putConfig (merged : Config.Config) (restarts : Config.Config → bool) (s : state) : state * response :=
  match Config.PrepareForApply (T := T) (files (st_sys s)) merged with
  | Err e => (s, writeJSONError StatusBadRequest e)
  | Ok prepared =>
      let requiresRestart := restarts prepared in
      let '(w, e) := Config.Write (files (st_sys s)) (configPath srv) prepared in
      let s := set_sys (set_files (st_sys s) w) s in
      match e with
      | Some _ => (s, errorMessage StatusInternalServerError "failed to write configuration file")
      | None =>
          let s := set_cfg prepared s in
          let done := (StatusOK, ConfigUpdateBody true requiresRestart) in
          match runtime srv with
          | Some apply =>
              if requiresRestart then (s, done)
              else
                match apply prepared s with
                | (s, Some e) => (s, writeJSONError StatusInternalServerError e)
                | (s, None) => (s, done)
                end
          | None => (s, done)
          end
      end
  end.

Definition errNoConfigPath : response :=
  errorMessage StatusServiceUnavailable "configuration path is not configured".

Definition needConfigPath : response + unit :=
  if bool_decide (configPath srv = "") then inl errNoConfigPath else inr ().

Definition handleConfigPut (rq : request) (s : state) : state * response :=
  let& _ := needConfigPath for s in
  let& incoming := unmarshalBody (A := Config.Config) rq for s in
  putConfig (Config.MergeWithCurrent (st_cfg s) incoming) (Config.RequiresRestart (st_cfg s)) s.

Definition handleACLConfigGet (s : state) : state * response :=
  (s, (StatusOK, AclConfigBody (aclConfigFrom (Config.ACLs (st_cfg s))))).

Definition handleACLConfigPut (rq : request) (s : state) : state * response :=
  let& _ := needConfigPath for s in
  let& incoming := unmarshalBody (A := aclConfigPayload) rq for s in
  putConfig (with_acl (acl_toConfig incoming (Config.ACLs (st_cfg s))) (st_cfg s)) (λ _, false) s.

Definition handleRPZConfigGet (s : state) : state * response :=
  (s, (StatusOK, RpzConfigBody (rpzConfigFrom (Config.RPZs (st_cfg s))))).

Definition handleRPZConfigPut (rq : request) (s : state) : state * response :=
  let& _ := needConfigPath for s in
  let& incoming := unmarshalBody (A := rpzConfigPayload) rq for s in
  putConfig (with_rpz (rpz_toConfig incoming) (st_cfg s)) (λ _, false) s.

(** *** stats.go, logs.go and audit.go *)
Definition handleStats (s : state) : state * response := (s, (StatusOK, StatsBody (Counters.snapshot (st_stats s)))).

Definition handleStatsHistory (rq : request) (s : state) : state * response :=
  match st_db s with
  | None => (s, errorMessage StatusServiceUnavailable "telemetry database is not available")
  | Some d =>
      let window := trim_space (query_get "range" (rq_query rq)) in
      let window := if bool_decide (window = "") then trim_space (query_get "window" (rq_query rq)) else window in
      let window := if bool_decide (window = "") then "1h" else window in
      match Reports.History d window with
      | Err e => (s, writeJSONError StatusBadRequest e)
      | Ok history => (s, (StatusOK, HistoryBody history))
      end
  end.

Definition handleLogsHistory (s : state) : state * response := (s, (StatusOK, LinesBody (Logging.Snapshot (st_ring s)))).

(** The stream subscribes and then sends what its channel receives. *)
Definition handleLogsStream (s : state) : state * response :=
  let '(ch, b) := Logging.Subscribe (st_broadcast s) in
  (set_broadcast b s, (StatusOK, StreamBody ch)).

Definition logsConfigBody (c : Logging.Config) : body := LogsConfigBody (Logging.Level c) (Logging.Rotation c).

Definition handleLogsConfigGet (s : state) : state * response :=
  (s, (StatusOK, logsConfigBody (Logging.CurrentConfig (st_logs s)))).

Definition handleLogsConfigPut (rq : request) (s : state) : state * response :=
  let& inp := decodeBody (A := logsConfigRequest) rq "invalid JSON body" for s in
  let '(d, w, g, e) := Logging.UpdateConfig (st_db s) (Logging.MkConfig (lc_Level inp) (lc_Rotation inp))
                         (files (st_sys s)) (st_logs s) in
  let s := set_logs g (set_sys (set_files (st_sys s) w) (set_db d s)) in
  match e with
  | Some e => (s, writeJSONError StatusBadRequest e)
  | None => (s, (StatusOK, logsConfigBody (Logging.CurrentConfig (st_logs s))))
  end.

Definition handleAuditList (rq : request) (s : state) : state * response :=
  let& _ := needDatabase s for s in
  let raw := trim_space (query_get "limit" (rq_query rq)) in
  let limit := if negb (bool_decide (raw = "")) then atoi raw else Some 500%Z in
  match limit with
  | Some limit =>
      if (limit <=? 0)%Z then (s, errorMessage StatusBadRequest "invalid limit parameter")
      else
        match Reports.ListAuditLogs (st_db s) limit with
        | Err _ => (s, errorMessage StatusInternalServerError "failed to list audit logs")
        | Ok logs => (s, (StatusOK, AuditBody logs))
        end
  | None => (s, errorMessage StatusBadRequest "invalid limit parameter")
  end.

End server.
End Handlers.
