(* ===== verification/Api.v ===== *)
(** * The server of the management API: internal/api/server.go and audit.go

    The routes with the gate in front of each, the middleware that writes the
    audit log, and a request from end to end. *)
From S2P Require Import Prelude Telemetry Radix NetAddr Dns Acl Rpz Firewall Ttl Owner Sorting Tree Records KeyStore Signer.
From S2P Require Import Files Store Access Upstream Config Sql Logging Feeds Reports Rules Http WebUI Query Reply Update Handlers.
Import Owner TTL KeyStore Store Http Handlers.

Module Api.

(** One name for each handler of the multiplexer. *)
Inductive endpoint :=
| Health | Metrics | GetStats | GetStatsHistory | FirewallStatus
| ListSources | CreateSource | DeleteSource | PatchSource | FirewallSync
| ListCustom | CreateCustom | DeleteCustom
| ListRules | CreateRule | UpdateRule | DeleteRule
| EListZones | ECreateZone | EDeleteZone | ListRecords | GetDNSSEC | EnableDNS | DisableDNS | ReloadZones
| CreateRecord | UpdateRecord | DeleteRecord
| LogsHistory | LogsStream | LogsConfigGet | LogsConfigPut
| ConfigGet | ConfigPut | ACLConfigGet | ACLConfigPut | RPZConfigGet | RPZConfigPut
| AuditList | WebUI.

#[export] Instance endpoint_eq_dec : EqDecision endpoint.
Proof. solve_decision. Defined.

(** [bearerAuth], [bearerAuthOrQueryToken] or neither around the handler. *)
Inductive gate := Open | Bearer | BearerOrQuery.
Definition gate_of (e : endpoint) : gate :=
  match e with
  | Health | Metrics | WebUI => Open
  | LogsStream => BearerOrQuery
  | _ => Bearer
  end.

Definition api (l : list seg) : list seg := Lit "api" :: Lit "v1" :: l.
Definition zone_path (l : list seg) : list seg := api (Lit "zones" :: Var "zone" :: l).

Definition routes : list (route endpoint) := [
  MkRoute "GET" [Lit "health"] Health;
  MkRoute "GET" [Lit "metrics"] Metrics;
  MkRoute "GET" (api [Lit "stats"]) GetStats;
  MkRoute "GET" (api [Lit "stats"; Lit "history"]) GetStatsHistory;
  MkRoute "GET" (api [Lit "firewall"; Lit "status"]) FirewallStatus;
  MkRoute "GET" (api [Lit "firewall"; Lit "sources"]) ListSources;
  MkRoute "POST" (api [Lit "firewall"; Lit "sources"]) CreateSource;
  MkRoute "DELETE" (api [Lit "firewall"; Lit "sources"; Var "id"]) DeleteSource;
  MkRoute "PATCH" (api [Lit "firewall"; Lit "sources"; Var "id"]) PatchSource;
  MkRoute "POST" (api [Lit "firewall"; Lit "sync"]) FirewallSync;
  MkRoute "GET" (api [Lit "firewall"; Lit "custom"]) ListCustom;
  MkRoute "POST" (api [Lit "firewall"; Lit "custom"]) CreateCustom;
  MkRoute "DELETE" (api [Lit "firewall"; Lit "custom"; Var "id"]) DeleteCustom;
  MkRoute "GET" (api [Lit "settings"; Lit "acl"]) ListRules;
  MkRoute "POST" (api [Lit "settings"; Lit "acl"]) CreateRule;
  MkRoute "PUT" (api [Lit "settings"; Lit "acl"; Var "id"]) UpdateRule;
  MkRoute "DELETE" (api [Lit "settings"; Lit "acl"; Var "id"]) DeleteRule;
  MkRoute "GET" (api [Lit "zones"]) EListZones;
  MkRoute "POST" (api [Lit "zones"]) ECreateZone;
  MkRoute "DELETE" (zone_path []) EDeleteZone;
  MkRoute "GET" (zone_path [Lit "records"]) ListRecords;
  MkRoute "GET" (zone_path [Lit "dnssec"]) GetDNSSEC;
  MkRoute "POST" (zone_path [Lit "dnssec"; Lit "enable"]) EnableDNS;
  MkRoute "POST" (zone_path [Lit "dnssec"; Lit "disable"]) DisableDNS;
  MkRoute "POST" (api [Lit "zones"; Lit "reload"]) ReloadZones;
  MkRoute "POST" (zone_path [Lit "records"]) CreateRecord;
  MkRoute "PUT" (zone_path [Lit "records"; Var "id"]) UpdateRecord;
  MkRoute "DELETE" (zone_path [Lit "records"; Var "id"]) DeleteRecord;
  MkRoute "DELETE" (zone_path [Lit "records"]) DeleteRecord;
  MkRoute "GET" (api [Lit "logs"; Lit "history"]) LogsHistory;
  MkRoute "GET" (api [Lit "logs"; Lit "stream"]) LogsStream;
  MkRoute "GET" (api [Lit "logs"; Lit "config"]) LogsConfigGet;
  MkRoute "PUT" (api [Lit "logs"; Lit "config"]) LogsConfigPut;
  MkRoute "GET" (api [Lit "config"]) ConfigGet;
  MkRoute "PUT" (api [Lit "config"]) ConfigPut;
  MkRoute "GET" (api [Lit "config"; Lit "acl"]) ACLConfigGet;
  MkRoute "PUT" (api [Lit "config"; Lit "acl"]) ACLConfigPut;
  MkRoute "GET" (api [Lit "config"; Lit "rpz"]) RPZConfigGet;
  MkRoute "PUT" (api [Lit "config"; Lit "rpz"]) RPZConfigPut;
  MkRoute "GET" (api [Lit "audit"]) AuditList;
  MkRoute "GET" [Lit ""] WebUI;
  MkRoute "GET" [Rest] WebUI].

(** The text slog's JSON handler gives the stream writer for a record of level
    Info, without its newline; nothing when a sink before it has failed. *)
Class SlogText := { slog_info : string → string → list (string * string) → option string }.

Section server.
Context {T : Type → Type} {W D P B X R : Type}.
Context {RO : RadixOps T} {MR : MapRange} {SS : SortSlice} {DT : DnsText} {DG : Digest}
  {ZP : ZoneParser} {FS : FileSys W} {ST : FileStat W} {KD : KeyDB D} {DC : DnssecCrypto P} {KT : KeyText P}
  {TR : TCPResolver} {TM : Toml Config.Config}
  {FD : FeedsDB B} {RD : RulesDB B} {CD : Logging.ConfigDB B} {AD : AuditDB B} {HD : HistoryDB B}
  {SE : ErrorText} {TT : TimeText} {DY : DayText} {FN : FeedNet X}.
Context {J1 : Json RecordInput} {J2 : Json createZoneRequest} {J3 : Json dnssecZoneRequest}
  {J4 : Json createSourceRequest} {J5 : Json patchSourceRequest} {J6 : Json createCustomRequest}
  {J7 : Json aclRuleRequest} {J8 : Json aclConfigPayload} {J9 : Json rpzConfigPayload}
  {J10 : Json logsConfigRequest} {J11 : Json Config.Config} {J12 : Json string} {WB : WebBuild} {ST2 : SlogText}.
Implicit Types (s : state (T := T) (W := W) (D := D) (B := B) (R := R)).

Context (srv : server (T := T) (W := W) (D := D) (B := B) (R := R)) (ev : env).

Definition run_endpoint (e : endpoint) (rq : request) (vars : list (string * string)) s : _ * response :=
  match e with
  | Health => (s, (StatusOK, StatusBody "ok" ""))
  | Metrics => (s, (StatusOK, MetricsBody))
  | GetStats => handleStats s
  | GetStatsHistory => handleStatsHistory rq s
  | FirewallStatus => handleFirewallStatus s
  | ListSources => handleListBlocklistSources s
  | CreateSource => handleCreateBlocklistSource (X := X) rq s
  | DeleteSource => handleDeleteBlocklistSource vars s
  | PatchSource => handlePatchBlocklistSource rq vars s
  | FirewallSync => handleFirewallSync s
  | ListCustom => handleListCustomBlocklist s
  | CreateCustom => handleCreateCustomBlocklist ev rq s
  | DeleteCustom => handleDeleteCustomBlocklist vars s
  | ListRules => handleListACLRules s
  | CreateRule => handleCreateACLRule rq s
  | UpdateRule => handleUpdateACLRule rq vars s
  | DeleteRule => handleDeleteACLRule vars s
  | EListZones => handleListZones s
  | ECreateZone => handleCreateZone srv ev rq s
  | EDeleteZone => handleDeleteZone srv ev rq vars s
  | ListRecords => handleListZoneRecords ev rq vars s
  | GetDNSSEC => handleGetZoneDNSSEC (P := P) ev rq vars s
  | EnableDNS => handleEnableZoneDNSSEC (P := P) srv ev rq vars s
  | DisableDNS => handleDisableZoneDNSSEC srv ev rq vars s
  | ReloadZones => handleZonesReload srv s
  | CreateRecord => handleCreateRecord (P := P) srv ev rq vars s
  | UpdateRecord => handleUpdateRecord (P := P) srv ev rq vars s
  | DeleteRecord => handleDeleteRecord (P := P) srv ev rq vars s
  | LogsHistory => handleLogsHistory s
  | LogsStream => handleLogsStream s
  | LogsConfigGet => handleLogsConfigGet s
  | LogsConfigPut => handleLogsConfigPut rq s
  | ConfigGet => handleConfigGet s
  | ConfigPut => handleConfigPut srv rq s
  | ACLConfigGet => handleACLConfigGet s
  | ACLConfigPut => handleACLConfigPut srv rq s
  | RPZConfigGet => handleRPZConfigGet s
  | RPZConfigPut => handleRPZConfigPut srv rq s
  | AuditList => handleAuditList rq s
  | WebUI => let r := WebUI.handle (rq_method rq) (rq_path rq) in (s, (WebUI.status r, UIBody r))
  end.

(** The multiplexer with the gates, and the wildcards it set. *)
Definition gated (e : endpoint) (rq : request) (vars : list (string * string)) s : _ * response :=
  let unauthorized m := (s, errorMessage StatusUnauthorized m) in
  match gate_of e with
  | Open => run_endpoint e rq vars s
  | Bearer =>
      match bearerAuth (authToken srv) rq with
      | Some m => unauthorized m
      | None => run_endpoint e rq vars s
      end
  | BearerOrQuery =>
      match bearerAuthOrQueryToken (authToken srv) rq with
      | inl m => unauthorized m
      | inr rq => run_endpoint e rq vars s
      end
  end.

Definition dispatch (rq : request) s : _ * response * list (string * string) :=
  let path := path_segs (rq_path rq) in
  match find_route routes (rq_method rq) path with
  | Some (e, vars) => (gated e rq vars s, vars)
  | None =>
      (s, if path_known routes path then (StatusMethodNotAllowed, TextBody "Method Not Allowed")
          else (StatusNotFound, TextBody "404 page not found"), [])
  end.

(** [auditMiddleware] around the multiplexer: the handler of the server. *)
Definition succeeded (status : N) : bool := (StatusOK <=? status)%N && (status <? StatusBadRequest)%N.

(** [logger.Info]: the line goes through the stream writer, which holds no
    unfinished line, into the ring and to the subscribers. *)
Definition logInfo (message : string) (attrs : list (string * string)) s :=
  if negb (Logging.level (st_logs s) <=? 0)%Z then s
  else
    match slog_info (e_clock ev) message attrs with
    | None => s
    | Some line =>
        match Logging.Write (Logging.NewStreamWriter (Some (st_ring s)) (Some (st_broadcast s)))
                (line +:+ mk [Logging.newline]) with
        | Some w => set_broadcast (default (st_broadcast s) (Logging.w_broadcaster w))
                      (set_ring (default (st_ring s) (Logging.w_ring w)) s)
        | None => s
        end
    end.

(** The middleware after a handler that returned; a panic passes it by. *)
Definition audit (rq : request) (vars : list (string * string)) (status : N) (recordType : string) s :=
  let success := succeeded status in
  let s := logInfo "api audit"
    [("client_ip", clientIP rq); ("zone", auditTarget vars); ("action", auditAction rq); ("method", rq_method rq);
     ("path", rq_path rq); ("status", format_uint status); ("success", if success then "true" else "false")] s in
  set_db (Reports.InsertAuditLog (st_db s) (e_unix ev) (clientIP rq) (auditAction rq) (auditTarget vars)
            (auditDetails rq status success recordType) (rq_method rq) (rq_path rq) status success).1 s.

Definition serve (rq : request) s : _ * response :=
  if negb (shouldAuditRequest rq) then (dispatch rq s).1
  else
    let '(recordType, rq) :=
      if shouldInspectBody rq then
        let '(b, rq) := readAndRestoreBody rq in (extractRecordType b, rq)
      else ("", rq) in
    let '(s, r, vars) := dispatch rq s in
    match r.2 with
    | Aborted => (s, r)
    | _ => (audit rq vars r.1 recordType s, r)
    end.

(** * Lemmas *)

(** What a route that is found tells of the request. *)
Lemma find_route_some (rs : list (route endpoint)) m path e vars :
  find_route rs m path = Some (e, vars) →
  ∃ r, r ∈ rs ∧ rt_handler r = e ∧ method_matches (rt_method r) m = true ∧
    match_segs (rt_path r) path = Some vars.
Proof.
  induction rs as [|r rs IH]; cbn [find_route]; [done|].
  destruct (method_matches (rt_method r) m) eqn:Em.
  - destruct (match_segs (rt_path r) path) as [vs|] eqn:Ep.
    + intros [= <- <-]. exists r. split; [by left|done].
    + intros (r' & ? & ?)%IH. exists r'. split; [by right|done].
  - intros (r' & ? & ?)%IH. exists r'. split; [by right|done].
Qed.

(** A route whose endpoint has one pattern without wildcards gives the path. *)
Lemma match_lits ls path vars : match_segs (map Lit ls) path = Some vars → path = ls.
Proof.
  revert path. induction ls as [|l ls IH]; intros [|x path]; cbn [map match_segs]; try done.
  case_bool_decide as E; [|done]. intros ->%IH. by rewrite E.
Qed.

(** The endpoints in the routes whose patterns carry no wildcard. *)
Definition plain_path (e : endpoint) : option (list string) :=
  match e with
  | Health => Some ["health"]
  | Metrics => Some ["metrics"]
  | LogsStream => Some ["api"; "v1"; "logs"; "stream"]
  | _ => None
  end.

Definition plain_route (r : route endpoint) : bool :=
  match plain_path (rt_handler r) with Some ls => bool_decide (rt_path r = map Lit ls) | None => true end.

Lemma route_path m path e vars ls :
  find_route routes m path = Some (e, vars) → plain_path e = Some ls → path = ls.
Proof.
  intros (r & Hr & He & _ & Hp)%find_route_some Hl.
  apply list_elem_of_In in Hr. pose proof (proj1 (forallb_forall plain_route routes)) as Hall.
  specialize (Hall ltac:(by vm_compute) r Hr). unfold plain_route in Hall. rewrite He, Hl in Hall.
  apply bool_decide_eq_true in Hall. rewrite Hall in Hp.
  by eapply match_lits.
Qed.

(** Nothing but a line of the log and a row of the audit table differs. *)
Definition audit_only s s' : Prop :=
  ∃ ring bc d, s' = set_db d (set_broadcast bc (set_ring ring s)) ∧
  ((ring = st_ring s ∧ bc = st_broadcast s) ∨
   ∃ line w, Logging.Write (Logging.NewStreamWriter (Some (st_ring s)) (Some (st_broadcast s))) line = Some w ∧
     Logging.w_ring w = Some ring ∧ Logging.w_broadcaster w = Some bc) ∧
  (d = st_db s ∨ ∃ b e, st_db s = Some b ∧ d = Some (sql_insert_audit b e).1).

Lemma audit_only_refl s : audit_only s s.
Proof. exists (st_ring s), (st_broadcast s), (st_db s). split; [by destruct s|]. split; by left. Qed.

Lemma write_keeps r b line w : Logging.Write (Logging.NewStreamWriter (Some r) (Some b)) line = Some w →
  is_Some (Logging.w_ring w) ∧ is_Some (Logging.w_broadcaster w).
Proof.
  unfold Logging.Write. generalize (Logging.partial (Logging.NewStreamWriter (Some r) (Some b)) ++ bytes line) as data.
  assert (H0 : is_Some (Logging.w_ring (Logging.NewStreamWriter (Some r) (Some b))) ∧
    is_Some (Logging.w_broadcaster (Logging.NewStreamWriter (Some r) (Some b)))) by by split; eexists.
  generalize ([] : list ascii) as l. revert H0. generalize (Logging.NewStreamWriter (Some r) (Some b)) as s0.
  intros s0 H0 l data. revert s0 H0 l. induction data as [|c data IH]; intros s0 H0 l; cbn [Logging.writeLoop].
  - by intros [= <-].
  - destruct (is_char _ _); [|by apply IH]. case_bool_decide; [by apply IH|].
    destruct (Logging.dispatch s0 (mk l)) as [s1|] eqn:Ed; [|done]. apply IH.
    destruct H0 as [[r0 H1] [b0 H2]]. revert Ed. unfold Logging.dispatch. rewrite H1, H2. cbn.
    destruct (Logging.Publish b0 (mk l)); [|done]. intros [= <-]. by split; eexists.
Qed.

Lemma logInfo_only message attrs s : audit_only s (logInfo message attrs s) ∧ st_db (logInfo message attrs s) = st_db s.
Proof.
  unfold logInfo. destruct (negb _); [split; [apply audit_only_refl|done]|].
  destruct (slog_info _ _ _) as [line|]; [|split; [apply audit_only_refl|done]].
  destruct (Logging.Write _ _) as [w|] eqn:Ew; [|split; [apply audit_only_refl|done]].
  split; [|done]. destruct (write_keeps _ _ _ _ Ew) as [[r Hr] [b Hb]]. rewrite Hr, Hb. cbn.
  exists r, b, (st_db s). split; [by destruct s|]. split; [|by left]. right. by eexists _, w.
Qed.

Lemma audit_only_insert rq vars status recordType s : audit_only s (audit rq vars status recordType s).
Proof.
  unfold audit. set (s1 := logInfo _ _ s).
  destruct (logInfo_only "api audit" [("client_ip", clientIP rq); ("zone", auditTarget vars); ("action", auditAction rq);
    ("method", rq_method rq); ("path", rq_path rq); ("status", format_uint status);
    ("success", if succeeded status then "true" else "false")] s) as [(r & b & d & Hs & Hl & _) Hd].
  fold s1 in Hs, Hd. exists r, b. eexists. split; [rewrite Hs at 2; by destruct s|]. split; [done|].
  unfold Reports.InsertAuditLog. rewrite Hd. destruct (st_db s) as [b0|]; [|by left].
  right. exists b0. destruct (sql_insert_audit b0 _) as [b' e] eqn:Ei. eexists. split; [done|]. cbn [fst]. by rewrite Ei.
Qed.

(** The request carries the token of the server, which is not empty: in the
    header, or for the stream of the log in the query. *)
Definition presents_token (rq : request) : Prop :=
  authToken srv ≠ "" ∧
  ((∃ t, trim_space (header_get "Authorization" (rq_headers rq)) = "Bearer " +:+ t ∧ trim_space t = authToken srv) ∨
   (path_segs (rq_path rq) = ["api"; "v1"; "logs"; "stream"] ∧
    trim_space (query_get "token" (rq_query rq)) = authToken srv)).

(** The health check and the metrics, and the pages of a build that has them. *)
Definition open_page (rq : request) (r : response) : Prop :=
  (∃ p, path_segs (rq_path rq) = [p] ∧ p ∈ ["health"; "metrics"]) ∨
  ∃ page, r = (StatusOK, UIBody page) ∧ WebUI.serves_file (rq_method rq) (rq_path rq) page.

Lemma gated_without_token e rq vars s s' r : ¬ presents_token rq →
  find_route routes (rq_method rq) (path_segs (rq_path rq)) = Some (e, vars) →
  gated e rq vars s = (s', r) →
  s' = s ∧ (succeeded r.1 = true → open_page rq r).
Proof.
  intros Hn Hf. unfold gated. destruct (gate_of e) eqn:Eg.
  - assert (e = Health ∨ e = Metrics ∨ e = WebUI) as [-> | [-> | ->]] by (destruct e; try discriminate; auto).
    + intros [= <- <-]. split; [done|]. intros _. left. exists "health". split; [|by left]. by eapply route_path.
    + intros [= <- <-]. split; [done|]. intros _. left. exists "metrics". split; [|by right; left]. by eapply route_path.
    + cbn [run_endpoint]. intros [= <- <-]. split; [done|]. intros Hs%WebUI.handle_success. right.
      eexists. split; [|exact Hs]. by destruct Hs as (ui & read & name & data & _ & _ & _ & _ & _ & _ & ->).
  - destruct (bearerAuth (authToken srv) rq) eqn:Eb; [by intros [= <- <-]|].
    apply bearer_token in Eb as [Hne Ht]. exfalso. apply Hn. split; [done|by left].
  - destruct (bearerAuthOrQueryToken (authToken srv) rq) eqn:Eb; [by intros [= <- <-]|].
    apply query_token in Eb as [Hne Ht]. exfalso. apply Hn. split; [done|].
    destruct Ht as [Ht|Ht]; [left; by apply bearer_token in Ht as [_ ?]|right]. split; [|done].
    eapply route_path; [done|]. by destruct e.
Qed.

Lemma dispatch_without_token rq s s' r vars : ¬ presents_token rq → dispatch rq s = (s', r, vars) →
  s' = s ∧ (succeeded r.1 = true → open_page rq r).
Proof.
  intros Hn. unfold dispatch. destruct (find_route _ _ _) as [[e vs]|] eqn:Ef.
  - destruct (gated e rq vs s) as [s1 r1] eqn:Eg. intros [= <- <- _]. by eapply gated_without_token.
  - intros [= <- <- _]. split; [done|]. by case_match.
Qed.

(** Reading the body for the audit log changes nothing else of the request. *)
Definition inspected (rq : request) : string * request :=
  if shouldInspectBody rq then let '(b, rq) := readAndRestoreBody rq in (extractRecordType b, rq) else ("", rq).

Lemma inspected_same rq : let rq' := (inspected rq).2 in
  rq_method rq' = rq_method rq ∧ rq_path rq' = rq_path rq ∧ rq_query rq' = rq_query rq ∧
  rq_headers rq' = rq_headers rq ∧ rq_remote rq' = rq_remote rq.
Proof. unfold inspected, readAndRestoreBody. repeat case_match; by simplify_eq/=. Qed.


(** ** What requests do to the store *)

(** A step of the store as the API takes it: one operation of it, or files
    written beside it (the configuration, the directory of the log). *)
Inductive store_step : system T W D → system T W D → Prop :=
| step_files y w : store_step y (set_files y w)
| step_mutation c y : store_step y (run_mutation (P := P) c y).

Context {RL : RadixLaws T}.

Lemma steps_wf y y' : rtc store_step y y' → wf_mem (mem y) → wf_mem (mem y').
Proof.
  induction 1 as [|y1 y2 y3 Hs _ IH]; [done|]. intros Hw. apply IH. destruct Hs; [done|].
  by apply run_mutation_kept.
Qed.

Definition kept s (p : state (T := T) (W := W) (D := D) (B := B) (R := R) * response) : Prop :=
  rtc store_step (st_sys s) (st_sys p.1) ∧ (succeeded p.2.1 = false → st_sent p.1 = st_sent s).

Lemma kept_same s s' r : st_sys s' = st_sys s → st_sent s' = st_sent s → kept s (s', r).
Proof. intros Hy Hs. split; cbn [fst snd]; [by rewrite Hy|done]. Qed.

Lemma kept_mutation s s' r c : st_sys s' = run_mutation (P := P) c (st_sys s) →
  (succeeded r.1 = false → st_sent s' = st_sent s) → kept s (s', r).
Proof. intros Hy Hs. split; cbn [fst snd]; [|done]. rewrite Hy. apply rtc_once, step_mutation. Qed.

Lemma kept_files s s' r w : st_sys s' = set_files (st_sys s) w → st_sent s' = st_sent s → kept s (s', r).
Proof. intros Hy Hs. split; cbn [fst snd]; [|done]. rewrite Hy. apply rtc_once, step_files. Qed.

Lemma kept_guard {A} (r : response + A) s k : (∀ a, r = inr a → kept s (k a)) → kept s (guard r s k).
Proof. intros Hk. destruct r as [p|a]; cbn [guard]; [by apply kept_same|by apply Hk]. Qed.

Ltac same := repeat case_match; by apply kept_same.
Ltac guards := repeat (apply kept_guard; intros ? ?).

Lemma kept_reload_acl s : st_sys (reloadQueryACL s) = st_sys s ∧ st_sent (reloadQueryACL s) = st_sent s.
Proof. unfold reloadQueryACL. by destruct (st_acl s). Qed.
Lemma kept_reload_lists s : st_sys (reloadFirewallBlocklists s) = st_sys s ∧ st_sent (reloadFirewallBlocklists s) = st_sent s.
Proof. unfold reloadFirewallBlocklists. by destruct (st_fw s), (st_db s). Qed.

(** The applier leaves the NOTIFYs alone, and the store to its operations. *)
Definition applier_ok : Prop := ∀ apply c s, runtime srv = Some apply →
  rtc store_step (st_sys s) (st_sys (apply c s).1) ∧ st_sent (apply c s).1 = st_sent s ∧
  st_cfg (apply c s).1 = st_cfg s.

Lemma kept_config merged restarts s : applier_ok → kept s (putConfig srv merged restarts s).
Proof.
  intros Ha. unfold putConfig. destruct (Config.PrepareForApply _ _) as [c|e]; [|by apply kept_same].
  destruct (Config.Write _ _ c) as [w e]. set (s1 := set_sys (set_files (st_sys s) w) s).
  destruct e as [e|]; [by apply (kept_files _ _ _ w)|].
  destruct (runtime srv) as [apply|] eqn:Er; [|by apply (kept_files _ _ _ w)].
  destruct (restarts c); [by apply (kept_files _ _ _ w)|].
  destruct (Ha apply c (set_cfg c s1) Er) as (Hr & Hs & _).
  destruct (apply c (set_cfg c s1)) as [s2 e]. cbn [fst] in Hr, Hs.
  assert (kept s (s2, (StatusOK, ConfigUpdateBody true false))) as [Hk _].
  { split; [|done]. cbn [fst]. eapply rtc_l; [apply (step_files _ w)|]. exact Hr. }
  by destruct e; split.
Qed.

(** After the guards a handler of the store runs one operation. *)
Tactic Notation "operates" uconstr(c) :=
  let y := fresh "y" in let r := fresh "r" in let E := fresh "E" in
  match goal with |- kept _ (let '(_, _) := ?op in _) => destruct op as [y r] eqn:E end;
  destruct r; try match goal with b : option rr |- _ => destruct b end; (eapply (kept_mutation _ _ _ c); [symmetry; exact (f_equal fst E)|done]).

Lemma kept_zones e rq vars s :
  e ∈ [ECreateZone; EDeleteZone; ReloadZones; EnableDNS; DisableDNS; CreateRecord; UpdateRecord; DeleteRecord] →
  kept s (run_endpoint e rq vars s).
Proof.
  intros He. repeat (apply elem_of_cons in He as [->|He]); [..|by apply elem_of_nil in He]; cbn [run_endpoint].
  - unfold handleCreateZone. guards. case_match; [by apply kept_same|]. guards. operates (MCreate _ _ _ _ _).
  - unfold handleDeleteZone. guards. operates (MDeleteZone _ _ _ _).
  - unfold handleZonesReload. by apply (kept_mutation _ _ _ (MLoad (zonesDir s))).
  - unfold handleEnableZoneDNSSEC. guards. operates (MEnable _ _ _ _ _ _).
  - unfold handleDisableZoneDNSSEC. guards. operates (MDisable _ _ _).
  - unfold handleCreateRecord. guards. operates (MAdd _ _ _ _ _).
  - unfold handleUpdateRecord. guards. case_match; [by apply kept_same|]. guards. operates (MUpdateID _ _ _ _ _ _).
  - unfold handleDeleteRecord, handleDeleteRecordByID. guards. case_match; guards.
    + operates (MDeleteID _ _ _ _ _).
    + operates (MDelete _ _ _ _ _).
Qed.

(** The handlers that leave the store alone. *)
Ltac leaves_store :=
  match goal with |- kept ?s (?s', _) => apply (kept_same s s') end;
  first [reflexivity | exact (proj1 (kept_reload_acl _)) | exact (proj2 (kept_reload_acl _))
        | exact (proj1 (kept_reload_lists _)) | exact (proj2 (kept_reload_lists _))].

Lemma kept_lists e rq vars s :
  e ∈ [GetStatsHistory; ListSources; CreateSource; DeleteSource; PatchSource; FirewallSync; ListCustom;
       CreateCustom; DeleteCustom] → kept s (run_endpoint e rq vars s).
Proof.
  intros He. repeat (apply elem_of_cons in He as [->|He]); [..|by apply elem_of_nil in He]; cbn [run_endpoint].
  - unfold handleStatsHistory. repeat case_match; leaves_store.
  - unfold handleListBlocklistSources. guards. case_match; leaves_store.
  - unfold handleCreateBlocklistSource. guards. destruct (Feeds.InsertBlocklistSource _ _ _) as [d [?|?]]; leaves_store.
  - unfold handleDeleteBlocklistSource. guards. destruct (Feeds.DeleteBlocklistSource _ _) as [d [?|]]; leaves_store.
  - unfold handlePatchBlocklistSource. guards. destruct (_ && _); [leaves_store|].
    destruct (Feeds.UpdateBlocklistSource _ _ _) as [d [?|?]]; leaves_store.
  - unfold handleFirewallSync. guards. destruct (Feeds.StartBlocklistSync _) as [[|] y]; cbn [negb]; leaves_store.
  - unfold handleListCustomBlocklist. guards. case_match; leaves_store.
  - unfold handleCreateCustomBlocklist. guards.
    destruct (Feeds.InsertCustomBlocklistDomain _ _ _) as [d [?|?]]; leaves_store.
  - unfold handleDeleteCustomBlocklist. guards. destruct (Feeds.DeleteCustomBlocklistDomain _ _) as [d [?|]]; leaves_store.
Qed.

Lemma kept_rules e rq vars s :
  e ∈ [ListRules; CreateRule; UpdateRule; DeleteRule; ListRecords; GetDNSSEC; LogsStream; AuditList] →
  kept s (run_endpoint e rq vars s).
Proof.
  intros He. repeat (apply elem_of_cons in He as [->|He]); [..|by apply elem_of_nil in He]; cbn [run_endpoint].
  - unfold handleListACLRules. guards. case_match; leaves_store.
  - unfold handleCreateACLRule. guards. destruct (Rules.InsertRule _ _ _ _) as [d [?|?]]; leaves_store.
  - unfold handleUpdateACLRule. guards. destruct (Rules.UpdateRule _ _ _ _ _) as [d [?|?]]; leaves_store.
  - unfold handleDeleteACLRule. guards. destruct (Rules.DeleteRule _ _) as [d [?|]]; leaves_store.
  - unfold handleListZoneRecords. guards. case_match; leaves_store.
  - unfold handleGetZoneDNSSEC. guards. repeat case_match; leaves_store.
  - unfold handleLogsStream. destruct (Logging.Subscribe _) as [ch b]. leaves_store.
  - unfold handleAuditList. guards. repeat case_match; leaves_store.
Qed.

Lemma kept_configs e rq vars s : applier_ok →
  e ∈ [ConfigPut; ACLConfigPut; RPZConfigPut; LogsConfigPut] → kept s (run_endpoint e rq vars s).
Proof.
  intros Ha He. repeat (apply elem_of_cons in He as [->|He]); [..|by apply elem_of_nil in He]; cbn [run_endpoint].
  - unfold handleConfigPut. guards. by apply kept_config.
  - unfold handleACLConfigPut. guards. by apply kept_config.
  - unfold handleRPZConfigPut. guards. by apply kept_config.
  - unfold handleLogsConfigPut. guards. destruct (Logging.UpdateConfig _ _ _ _) as [[[d w] g] [err|]];
      by apply (kept_files _ _ _ w).
Qed.

Lemma kept_endpoint e rq vars s : applier_ok → kept s (run_endpoint e rq vars s).
Proof.
  intros Ha. destruct e;
    first [by apply kept_same
          | apply kept_zones; by repeat (left || right)
          | apply kept_lists; by repeat (left || right)
          | apply kept_rules; by repeat (left || right)
          | apply kept_configs; [exact Ha|by repeat (left || right)]].
Qed.

Lemma kept_dispatch rq s : applier_ok → kept s (dispatch rq s).1.
Proof.
  intros Ha. unfold dispatch, gated. repeat case_match; cbn [fst];
    first [by apply kept_same | by apply kept_endpoint].
Qed.

(** A request takes the store through its operations, and a failure sends no
    NOTIFY. *)
Lemma serve_keeps rq s s' r : applier_ok → serve rq s = (s', r) →
  rtc store_step (st_sys s) (st_sys s') ∧
  (wf_mem (mem (st_sys s)) → wf_mem (mem (st_sys s'))) ∧
  (succeeded r.1 = false → st_sent s' = st_sent s).
Proof.
  intros Ha Hs. enough (kept s (s', r)) as [Hr Hn] by (split_and!; [done|by apply steps_wf|done]).
  revert Hs. unfold serve. destruct (shouldAuditRequest rq); cbn [negb].
  - change (if shouldInspectBody rq then _ else _) with (inspected rq). destruct (inspected rq) as [rt rq'].
    pose proof (kept_dispatch rq' s Ha) as Hk. destruct (dispatch rq' s) as [[s1 r1] vars]. cbn [fst] in Hk.
    assert (Haud : kept s (audit rq' vars r1.1 rt s1, r1)).
    { destruct (audit_only_insert rq' vars r1.1 rt s1) as (ring & bc & d & -> & _). exact Hk. }
    by destruct r1.2; intros [= <- <-].
  - pose proof (kept_dispatch rq s Ha) as Hk. by intros <-.
Qed.

(** ** Changes of the configuration *)

(** The configuration a PUT asks for, and whether it counts as one that needs
    a restart; the sections of the lists and policies never do. *)
Definition requested (e : endpoint) (rq : request) s : option (Config.Config * (Config.Config → bool)) :=
  let cfg := st_cfg s in
  let never := λ _ : Config.Config, false in
  match e with
  | ConfigPut =>
      match unmarshalBody rq with
      | inr c => Some (Config.MergeWithCurrent cfg c, Config.RequiresRestart cfg)
      | inl _ => None
      end
  | ACLConfigPut =>
      match unmarshalBody rq with
      | inr p => Some (with_acl (acl_toConfig p (Config.ACLs cfg)) cfg, never)
      | inl _ => None
      end
  | RPZConfigPut =>
      match unmarshalBody rq with
      | inr p => Some (with_rpz (rpz_toConfig p) cfg, never)
      | inl _ => None
      end
  | _ => None
  end.

Definition config_endpoints : list endpoint := [ConfigPut; ACLConfigPut; RPZConfigPut].

Lemma unmarshal_refused {A} {J : Json A} rq p : unmarshalBody (A := A) rq = inl p → p.1 = StatusBadRequest.
Proof. unfold unmarshalBody. intros H. by repeat case_match; simplify_eq. Qed.

Lemma requested_run e rq vars s s' r : e ∈ config_endpoints → run_endpoint e rq vars s = (s', r) →
  (s' = s ∧ r.1 ∈ [StatusBadRequest; StatusServiceUnavailable]) ∨
  ∃ merged restarts, requested e rq s = Some (merged, restarts) ∧ putConfig srv merged restarts s = (s', r).
Proof.
  assert (Hno : ∀ k, guard (needConfigPath srv) s k = (s', r) →
    (s' = s ∧ r.1 ∈ [StatusBadRequest; StatusServiceUnavailable]) ∨ k () = (s', r)).
  { intros k. unfold needConfigPath. case_bool_decide; cbn [guard]; [|by right].
    intros [= <- <-]. left. split; [done|]. by right; left. }
  assert (Hbad : ∀ {A} {J : Json A} k, guard (unmarshalBody (A := A) rq) s k = (s', r) →
    (s' = s ∧ r.1 ∈ [StatusBadRequest; StatusServiceUnavailable]) ∨ ∃ a, unmarshalBody rq = inr a ∧ k a = (s', r)).
  { intros A J k. destruct (unmarshalBody rq) as [p|a] eqn:E; cbn [guard]; [|by eauto].
    intros [= <- <-]. left. split; [done|]. rewrite (unmarshal_refused _ _ E). by left. }
  intros He. repeat (apply elem_of_cons in He as [->|He]); [..|by apply elem_of_nil in He];
    cbn [run_endpoint]; unfold handleConfigPut, handleACLConfigPut, handleRPZConfigPut, requested;
    (intros [?|H]%Hno; [by left|]); (apply Hbad in H as [?|(a & -> & H)]; [by left|right]); eauto.
Qed.

Context {FL : FileSysLaws W} {FR : FileReads W}.

(** The configuration was validated, written in full and set; then the applier
    ran, unless a restart is needed or there is none. *)
Definition installed (prepared : Config.Config) (skip : bool) s s' (e : option error) : Prop :=
  ∃ s1 data, toml_marshal prepared = Ok data ∧ fs_read (files (st_sys s1)) (configPath srv) = Ok data ∧
    st_cfg s1 = prepared ∧ mem (st_sys s1) = mem (st_sys s) ∧ keys (st_sys s1) = keys (st_sys s) ∧
    (if skip then s' = s1 ∧ e = None
     else match runtime srv with
          | None => s' = s1 ∧ e = None
          | Some apply => apply prepared s1 = (s', e)
          end).

Lemma put_outcome merged restarts s s' r : putConfig srv merged restarts s = (s', r) →
  (∃ e, Config.PrepareForApply (T := T) (files (st_sys s)) merged = Err e ∧ s' = s ∧
     r = writeJSONError StatusBadRequest e) ∨
  ∃ prepared, Config.PrepareForApply (T := T) (files (st_sys s)) merged = Ok prepared ∧
    ((∃ w, s' = set_sys (set_files (st_sys s) w) s ∧ r.1 = StatusInternalServerError) ∨
     (installed prepared (restarts prepared) s s' None ∧
      r = (StatusOK, ConfigUpdateBody true (restarts prepared))) ∨
     (∃ e, installed prepared (restarts prepared) s s' (Some e) ∧
      r = writeJSONError StatusInternalServerError e)).
Proof.
  unfold putConfig. destruct (Config.PrepareForApply _ _) as [c|e]; [|by intros [= <- <-]; left; exists e].
  destruct (Config.Write _ _ c) as [w e] eqn:Ew. intros H. right. exists c. split; [done|].
  destruct e as [e|]; [left; exists w; by injection H as <- <-|right].
  apply Config.write_inv in Ew as (data & Hm & Hf).
  set (s1 := set_cfg c (set_sys (set_files (st_sys s) w) s)) in H.
  assert (Hi : ∀ e, (if restarts c then s' = s1 ∧ e = None
       else match runtime srv with None => s' = s1 ∧ e = None | Some apply => apply c s1 = (s', e) end) →
     installed c (restarts c) s s' e).
  { intros e He. exists s1, data. split_and!; done. }
  destruct (runtime srv) as [apply|].
  - destruct (restarts c); [injection H as <- <-; left; split; [by apply Hi|done]|].
    destruct (apply c s1) as [s2 [e|]] eqn:Ea; injection H as <- <-; [right; exists e|left]; by split; [apply Hi|].
  - injection H as <- <-. left. split; [apply Hi; by destruct (restarts c)|done].
Qed.

(** C9: a change of the configuration over the API is all or nothing, short of
    the applier: an answer below 500 other than success leaves the server as
    it was; a success means the merged configuration was validated, stands in
    full in the file and is the one in force, and the applier has run unless
    the change needs a restart; a server error leaves the configuration in
    force as it was, or comes from the applier after the new one was written
    and set. *)
Theorem config_put_transaction e rq vars s s' r : applier_ok → e ∈ config_endpoints →
  run_endpoint e rq vars s = (s', r) →
  r.1 ∈ [StatusOK; StatusBadRequest; StatusServiceUnavailable; StatusInternalServerError] ∧
  (r.1 ∈ [StatusBadRequest; StatusServiceUnavailable] → s' = s) ∧
  (r.1 = StatusOK → ∃ merged restarts prepared, requested e rq s = Some (merged, restarts) ∧
     Config.PrepareForApply (T := T) (files (st_sys s)) merged = Ok prepared ∧
     st_cfg s' = prepared ∧ installed prepared (restarts prepared) s s' None) ∧
  (r.1 = StatusInternalServerError → st_cfg s' = st_cfg s ∨
     ∃ prepared err, st_cfg s' = prepared ∧ installed prepared false s s' (Some err)).
Proof.
  intros Ha He Hrun.
  assert (Hcfg : ∀ c skip s s' err, installed c skip s s' err → st_cfg s' = c).
  { intros c skip s0 s0' err (s1 & data & _ & _ & Hc & _ & _ & H). destruct skip; [by destruct H as [-> _]|].
    destruct (runtime srv) as [apply|] eqn:Er; [|by destruct H as [-> _]].
    destruct (Ha apply c s1 Er) as (_ & _ & Hk). rewrite H in Hk. cbn [fst] in Hk. by rewrite Hk. }
  apply requested_run in Hrun as [[-> Hr]|(merged & restarts & Hq & Hp)]; [| |done].
  - destruct r as [code b]; cbn [fst] in *.
    apply elem_of_cons in Hr as [->|Hr]; [|apply list_elem_of_singleton in Hr as ->];
      (split_and!; [by repeat (left || right)|done|done|done]).
  - apply put_outcome in Hp as [(e' & _ & -> & ->)|(c & Hc & [(w & -> & Hr)|[[Hi ->]|(e' & Hi & ->)]])].
    + split_and!; [by right; left|done|done|done].
    + rewrite Hr. split_and!; [by do 3 right; left| |done|by left].
      intros Hin. repeat (apply elem_of_cons in Hin as [?|Hin]; [done|]). by apply elem_of_nil in Hin.
    + split_and!; [by left| | |done].
      * intros Hin. repeat (apply elem_of_cons in Hin as [?|Hin]; [done|]). by apply elem_of_nil in Hin.
      * intros _. exists merged, restarts, c. split_and!; [done|done|by eapply Hcfg|done].
    + split_and!; [by do 3 right; left| |done|].
      * intros Hin. repeat (apply elem_of_cons in Hin as [?|Hin]; [done|]). by apply elem_of_nil in Hin.
      * intros _. right. exists c, e'. split; [by eapply Hcfg|].
        destruct (restarts c); [by destruct Hi as (? & ? & ? & ? & ? & ? & ? & ? & ?)|done].
Qed.

(** ** Changes of the query rules *)
Context {RDL : RulesDBLaws B}.

(** What an answered change did to the table. *)
Definition rule_change (e : endpoint) (m m' : gmap Z Access.Rule) (b : body) : Prop :=
  match e, b with
  | CreateRule, RuleBody _ _ (Some r) =>
      m !! Access.ID r = None ∧ ¬ Rules.holds_subnet m None (Access.Subnet r) ∧ m' = <[Access.ID r := r]> m
  | UpdateRule, RuleBody _ _ (Some r) =>
      is_Some (m !! Access.ID r) ∧ ¬ Rules.holds_subnet m (Some (Access.ID r)) (Access.Subnet r) ∧
      m' = <[Access.ID r := r]> m
  | DeleteRule, RuleBody _ _ None => ∃ id, is_Some (m !! id) ∧ m' = delete id m
  | _, _ => False
  end.

Lemma reload_acl_checked s d c : st_db s = Some d → st_acl s = Some c →
  ∃ c', st_acl (reloadQueryACL s) = Some c' ∧ Rules.checked d c c'.
Proof.
  intros Hd Hc. unfold reloadQueryACL. rewrite Hc, Hd. eexists. split; [done|]. apply Rules.reload_checked.
Qed.

Lemma reload_acl_db s : st_db (reloadQueryACL s) = st_db s.
Proof. unfold reloadQueryACL. by destruct (st_acl s). Qed.

Lemma rule_error_fails e other : succeeded other.1 = false → succeeded (ruleError e other).1 = false.
Proof. unfold ruleError. by repeat case_match. Qed.

(** The body or the identifier of a request that is refused. *)
Lemma guard_inv {A} (r : response + A) s k p : guard r s k = p →
  (∃ q, r = inl q ∧ p = (s, q)) ∨ ∃ a, r = inr a ∧ k a = p.
Proof. destruct r; cbn [guard]; intros <-; eauto. Qed.

Lemma id_refused m vars p : idParam m vars = inl p → succeeded p.1 = false.
Proof. unfold idParam. intros H. by repeat case_match; simplify_eq. Qed.
Lemma unmarshal_fails {A} {J : Json A} rq p : unmarshalBody (A := A) rq = inl p → succeeded p.1 = false.
Proof. intros H%unmarshal_refused. by rewrite H. Qed.

(** C15: the rules the API answers for are the rules in force: a change that is
    refused leaves the table and the checker alone; one that succeeds did to
    the table what the answer says, and the checker from then on admits
    exactly the clients the table admits, unless reading the table fails or a
    row in it does not parse, when it stays as it was. *)
Theorem rules_in_force e rq vars s s' r d : e ∈ [CreateRule; UpdateRule; DeleteRule] →
  st_db s = Some d → run_endpoint e rq vars s = (s', r) →
  ∃ d', st_db s' = Some d' ∧
  (succeeded r.1 = false → Rules.rules_of d' = Rules.rules_of d ∧ st_acl s' = st_acl s) ∧
  (succeeded r.1 = true → rule_change e (Rules.rules_of d) (Rules.rules_of d') r.2 ∧
     ∀ c, st_acl s = Some c → ∃ c', st_acl s' = Some c' ∧ Rules.checked d' c c').
Proof.
  intros He Hd.
  assert (Hno : ∀ p, succeeded p.1 = false → (s, p) = (s', r) → ∃ d', st_db s' = Some d' ∧
    (succeeded r.1 = false → Rules.rules_of d' = Rules.rules_of d ∧ st_acl s' = st_acl s) ∧
    (succeeded r.1 = true → rule_change e (Rules.rules_of d) (Rules.rules_of d') r.2 ∧
       ∀ c, st_acl s = Some c → ∃ c', st_acl s' = Some c' ∧ Rules.checked d' c c')).
  { intros p Hp [= <- <-]. exists d. split_and!; [done|done|]. by rewrite Hp. }
  assert (Hdb : needDatabase s = inr ()) by (unfold needDatabase; by rewrite Hd).
  repeat (apply elem_of_cons in He as [->|He]); [..|by apply elem_of_nil in He]; cbn [run_endpoint].
  - unfold handleCreateACLRule. rewrite Hdb. cbn [guard].
    intros [(q & Hq & E)|(inp & _ & H)]%guard_inv; [apply (Hno q); [exact (unmarshal_fails _ _ Hq)|by rewrite E]|].
    rewrite Hd in H. destruct (Rules.InsertRule _ _ _ _) as [db q] eqn:Eq.
    apply Rules.insert_rule_spec in Eq as (d' & -> & Hq). exists d'.
    destruct q as [rule|err]; injection H as <- <-; rewrite ?reload_acl_db.
    + split_and!; [done|done|]. intros _. split; [|intros c Hc; by apply reload_acl_checked].
      destruct Hq as (sn & a & _ & _ & Hr & Hs & Hn & Hm). cbn. split_and!; [done| |done]. by rewrite Hr.
    + split_and!; [done|by destruct Hq|]. cbn [fst]. by rewrite rule_error_fails.
  - unfold handleUpdateACLRule. rewrite Hdb. cbn [guard].
    intros [(q & Hq & E)|(id & _ & H)]%guard_inv; [apply (Hno q); [exact (id_refused _ _ _ Hq)|by rewrite E]|].
    apply guard_inv in H as [(q & Hq & E)|(inp & _ & H)]; [apply (Hno q); [exact (unmarshal_fails _ _ Hq)|by rewrite E]|].
    rewrite Hd in H. destruct (Rules.UpdateRule _ _ _ _ _) as [db q] eqn:Eq.
    apply Rules.update_rule_spec in Eq as (d' & -> & Hq). exists d'.
    destruct q as [rule|err]; injection H as <- <-; rewrite ?reload_acl_db.
    + split_and!; [done|done|]. intros _. split; [|intros c Hc; by apply reload_acl_checked].
      destruct Hq as (sn & a & _ & _ & -> & Hs & Hsome & Hm). done.
    + split_and!; [done|by destruct Hq|]. cbn [fst]. rewrite rule_error_fails; [done|]. by case_match.
  - unfold handleDeleteACLRule. rewrite Hdb. cbn [guard].
    intros [(q & Hq & E)|(id & _ & H)]%guard_inv; [apply (Hno q); [exact (id_refused _ _ _ Hq)|by rewrite E]|].
    rewrite Hd in H. destruct (Rules.DeleteRule _ _) as [db q] eqn:Eq.
    apply Rules.delete_rule_spec in Eq as (d' & -> & Hq). exists d'.
    destruct q as [err|]; injection H as <- <-; rewrite ?reload_acl_db.
    + split_and!; [done|by destruct Hq|]. by case_match.
    + split_and!; [done|done|]. intros _. split; [by exists id|]. intros c Hc. by apply reload_acl_checked.
Qed.

(** Deleting a source leaves the engine with its domains. *)
Lemma deleted_source_still_blocks vars s : st_fw (handleDeleteBlocklistSource vars s).1 = st_fw s.
Proof.
  unfold handleDeleteBlocklistSource, guard. destruct (needDatabase s) as [?|[]]; [done|].
  destruct (idParam _ vars) as [?|id]; [done|]. by destruct (Feeds.DeleteBlocklistSource _ _) as [d [?|]].
Qed.

End server.
End Api.

(** * Witnesses: a server in memory *)
#[local] Existing Instances Signer.demo_crypto KeyStore.demo_key_text Store.demo_parser Store.demo_digest Config.demo_tcp
  Config.demo_toml.
Record demo_db := MkDemoDB {
  dd_feeds : demo_feeds; dd_rules : gmap Z rule_row; dd_settings : gmap string string;
  dd_audit : list (Z * audit_event)
}.
Definition with_feeds {A} (d : demo_db) (p : demo_feeds * A) : demo_db * A :=
  (MkDemoDB p.1 (dd_rules d) (dd_settings d) (dd_audit d), p.2).
Definition with_rules {A} (d : demo_db) (p : gmap Z rule_row * A) : demo_db * A :=
  (MkDemoDB (dd_feeds d) p.1 (dd_settings d) (dd_audit d), p.2).

#[export] Instance demo_db_feeds : FeedsDB demo_db | 100 := {|
  sql_sources d := sql_sources (dd_feeds d);
  sql_enabled_sources d := sql_enabled_sources (dd_feeds d);
  sql_insert_source d url desc := with_feeds d (sql_insert_source (dd_feeds d) url desc);
  sql_update_source d id enabled desc := with_feeds d (sql_update_source (dd_feeds d) id enabled desc);
  sql_delete_source d id := with_feeds d (sql_delete_source (dd_feeds d) id);
  sql_source_stats d id n t := with_feeds d (sql_source_stats (dd_feeds d) id n t);
  sql_customs d := sql_customs (dd_feeds d);
  sql_insert_custom d domain t := with_feeds d (sql_insert_custom (dd_feeds d) domain t);
  sql_delete_custom d id := with_feeds d (sql_delete_custom (dd_feeds d) id)
|}.

#[export] Instance demo_db_rules : RulesDB demo_db | 100 := {|
  sql_rules d := sql_rules (dd_rules d);
  sql_insert_rule d subnet desc action := with_rules d (sql_insert_rule (dd_rules d) subnet desc action);
  sql_update_rule d id subnet desc action := with_rules d (sql_update_rule (dd_rules d) id subnet desc action);
  sql_delete_rule d id := with_rules d (sql_delete_rule (dd_rules d) id)
|}.

#[export] Program Instance demo_db_rules_laws : RulesDBLaws demo_db | 100 :=
  {| rule_table d := demo_rules (dd_rules d) |}.
Next Obligation. intros d i r H. exact (rule_key (D := gmap Z rule_row) _ _ _ H). Qed.
Next Obligation. intros d rows H. exact (rules_law (D := gmap Z rule_row) _ _ H). Qed.
Next Obligation.
  intros d subnet desc action d' q H. injection H as <- <-.
  exact (insert_rule_law (dd_rules d) subnet desc action _ _ (surjective_pairing _)).
Qed.
Next Obligation.
  intros d id subnet desc action d' q H. injection H as <- <-.
  exact (update_rule_law (dd_rules d) id subnet desc action _ _ (surjective_pairing _)).
Qed.
Next Obligation. intros d id d' q H. injection H as <- <-. exact (delete_rule_law (dd_rules d) id _ _ eq_refl). Qed.

#[export] Instance demo_db_config : Logging.ConfigDB demo_db | 100 := {|
  Logging.tx := demo_db;
  Logging.sql_log_settings d := Logging.sql_log_settings (dd_settings d);
  Logging.tx_begin d := Ok d;
  Logging.tx_upsert t k v := (MkDemoDB (dd_feeds t) (dd_rules t) (<[k := v]> (dd_settings t)) (dd_audit t), None);
  Logging.tx_commit t := (t, None);
  Logging.tx_rollback t := t
|}.

#[export] Instance demo_db_audit : AuditDB demo_db | 100 := {|
  sql_insert_audit d e :=
    (MkDemoDB (dd_feeds d) (dd_rules d) (dd_settings d)
       (dd_audit d ++ [(Z.of_nat (S (length (dd_audit d))), e)]), None);
  sql_audit_logs d limit :=
    Ok (map (λ p, MkAuditRow p.1 (ev_timestamp p.2) (ev_client_ip p.2) (ev_action p.2)
                    (Some (ev_target p.2)) (Some (ev_details p.2)))
          (take (Z.to_nat limit) (reverse (dd_audit d))), None)
|}.
#[export] Program Instance demo_db_audit_laws : AuditDBLaws demo_db | 100 := {| audit_table := dd_audit |}.
Next Obligation. intros d e d' err [= <- <-]. by eexists. Qed.
Next Obligation. by intros d limit rows [= <-] _. Qed.

#[export] Instance demo_db_history : HistoryDB demo_db | 100 := {| sql_history d layout since := Ok ([], None) |}.
#[export] Instance demo_days : DayText | 100 := {| parse_day t := None |}.

(** Decoders of one text each. *)
Definition demo_json {A} (text : string) (a : A) : Json A := {|
  json_unmarshal t := if bool_decide (t = text) then Some a else None;
  json_decode b := if bool_decide (b.1 = text) then Decoded a else if bool_decide (b.1 = "") then DecodeEOF else DecodeErr
|}.
#[export] Instance demo_json_record : Json RecordInput | 100 := demo_json "record" demo_input.
#[export] Instance demo_json_zone : Json createZoneRequest | 100 := demo_json "zone" (MkCreateZone "example.org" "").
#[export] Instance demo_json_dnssec : Json dnssecZoneRequest | 100 := demo_json "dnssec" (MkDnssecZone "public").
#[export] Instance demo_json_source : Json createSourceRequest | 100 :=
  demo_json "source" (MkCreateSource "https://lists.example/ads" "").
#[export] Instance demo_json_patch : Json patchSourceRequest | 100 := demo_json "patch" (MkPatchSource (Some false) None).
#[export] Instance demo_json_custom : Json createCustomRequest | 100 := demo_json "custom" (MkCreateCustom "ads.example").
#[export] Instance demo_json_rule : Json aclRuleRequest | 100 :=
  demo_json "rule" (MkRuleRequest "10.1.2.3/8" "office" "allow").
#[export] Instance demo_json_acl : Json aclConfigPayload | 100 :=
  demo_json "acl" (MkAclPayload None [] ["10.0.0.0/8"] [] None).
#[export] Instance demo_json_rpz : Json rpzConfigPayload | 100 := demo_json "rpz" (MkRpzPayload true []).
#[export] Instance demo_json_logs : Json logsConfigRequest | 100 :=
  demo_json "logs" (MkLogsConfig "WARN" (Logging.MkRotation "/var/log/dns.log" 10 0 7)).
#[export] Instance demo_json_config : Json Config.Config | 100 := demo_json "config" Config.demo_config.
#[export] Instance demo_json_type : Json string | 100 := demo_json "record" "NS".

(** A build with one page, and log records as their message. *)
#[export] Instance demo_ui : WebBuild | 100 := {|
  web_ui := Some (MkEmbedded
    (Some (λ name, if bool_decide (name = "index.html") then inl "<html>" else inr true)) (λ _, ""))
|}.
#[export] Instance demo_slog : Api.SlogText | 100 := {| Api.slog_info _ message _ := Some message |}.

Abbreviation demo_state := (state (T := gtree) (W := ram) (D := key_table) (B := demo_db) (R := unit)).
Abbreviation demo_srv := (server (T := gtree) (W := ram) (D := key_table) (B := demo_db) (R := unit)).

Definition demo_server : demo_srv := MkServer "/etc/dns.toml" "s3cret" (Some (Reply.MkNotifier true ["10.0.0.9:53"])) None.
Definition demo_env : env := MkEnv 0 "20260101" "" (λ t, t) 0 demo_alnum.
Definition demo_start : demo_state :=
  MkState Config.demo_config demo_created (Some (MkDemoDB (MkDemo ∅ ∅) ∅ ∅ []))
    (Some (Firewall.New Firewall.BlockActionNXDOMAIN)) (Some None) (Feeds.MkSync false 0) []
    (Logging.MkLogger 0 (Logging.DefaultConfig "INFO") None) (Logging.NewRingBuffer 5) Logging.NewBroadcaster
    Counters.New ().

Definition demo_request (method path token text : string) : request :=
  MkRequest method path [] [("Authorization", "Bearer " +:+ token)] "10.0.0.1:4000" (Some (text, None)).
Definition demo_serve (rq : request) : demo_state * response :=
  Api.serve (P := string) (X := nat) demo_server demo_env rq demo_start.

Lemma no_applier : Api.applier_ok (P := string) demo_server.
Proof. by intros apply c s [=]. Qed.

Definition demo_get (path : string) : request := MkRequest "GET" path [] [] "10.0.0.1:4000" None.

Lemma demo_guess (rq : request) : rq_headers rq = [("Authorization", "Bearer guess")] →
  path_segs (rq_path rq) ≠ ["api"; "v1"; "logs"; "stream"] → ¬ Api.presents_token demo_server rq.
Proof.
  intros Hh Hpath [_ [(t & Ht & Hs)|[Hp _]]]; [|done]. rewrite Hh in Ht.
  assert (E2 : trim_space (header_get "Authorization" [("Authorization", "Bearer guess")]) = "Bearer " +:+ "guess") by by vm_compute.
  rewrite E2 in Ht. apply (f_equal (λ s, trim_prefix s "Bearer ")) in Ht. rewrite !trim_prefix_app in Ht.
  subst t. by vm_compute in Hs.
Qed.


(** A name that starts with a semicolon makes the line of the record a comment:
    the parser gives no record and no error, the handler panics after the zone
    was published and written again, no NOTIFY goes out and the audit log does
    not show the request. *)
Definition comment_text : DnsText :=
  {| type_string := type_string (DnsText := demo_dns_text);
     string_to_type := string_to_type (DnsText := demo_dns_text);
     rr_string := rr_string (DnsText := demo_dns_text);
     new_rr line := if has_prefix line ";" then Ok None else Err (errNew "dns: parse error");
     is_duplicate := is_duplicate (DnsText := demo_dns_text);
     canonical_name := canonical_name (DnsText := demo_dns_text);
     fqdn := fqdn (DnsText := demo_dns_text) |}.
Lemma comment_record_unaudited :
  let rq := demo_request "POST" "/api/v1/zones/example.com/records" "s3cret" "comment" in
  let served := Api.serve (P := string) (X := nat) (DT := comment_text)
    (J1 := demo_json "comment" (MkRecordInput ";x" "A" 300 "" "10.0.0.1" "")) demo_server demo_env rq demo_start in
  served.2 = panicked ∧ st_db served.1 = st_db demo_start ∧ st_sent served.1 = [].
Proof. cbn zeta. split_and!; by vm_compute. Qed.

Definition demo_run (e : Api.endpoint) (rq : request) : demo_state * response :=
  Api.run_endpoint (P := string) (X := nat) demo_server demo_env e rq [] demo_start.

Lemma config_put_transaction_witness :
  let rq := demo_request "PUT" "/api/v1/config/rpz" "s3cret" "rpz" in
  (demo_run Api.RPZConfigPut rq).2.1 = StatusOK ∧
  Config.rpzEnabled (Config.RPZs (st_cfg (demo_run Api.RPZConfigPut rq).1)) = true ∧
  Api.installed demo_server (st_cfg (demo_run Api.RPZConfigPut rq).1) false demo_start
    (demo_run Api.RPZConfigPut rq).1 None.
Proof.
  cbn zeta. set (rq := demo_request _ _ _ _).
  assert (H2 : (demo_run Api.RPZConfigPut rq).2.1 = StatusOK) by by vm_compute.
  assert (H3 : Config.rpzEnabled (Config.RPZs (st_cfg (demo_run Api.RPZConfigPut rq).1)) = true) by by vm_compute.
  split; [exact H2|split; [exact H3|]].
  destruct (demo_run Api.RPZConfigPut rq) as [s' r] eqn:E. cbn [fst snd] in *.
  destruct (Api.config_put_transaction (P := string) (X := nat) demo_server demo_env Api.RPZConfigPut rq [] demo_start s' r
    no_applier ltac:(by right; right; left) E) as (_ & _ & Hok & _).
  destruct (Hok H2) as (m & f & c & Hq & _ & Hc & Hi). rewrite Hc.
  assert (Hf : f = λ _, false) by (vm_compute in Hq; congruence). rewrite Hf in Hi. exact Hi.
Defined.

Lemma rules_in_force_witness :
  let rq := demo_request "POST" "/api/v1/settings/acl" "s3cret" "rule" in
  (demo_run Api.CreateRule rq).2.1 = StatusCreated ∧
  ∃ d', st_db (demo_run Api.CreateRule rq).1 = Some d' ∧
    Rules.rules_of d' ≠ ∅.
Proof.
  cbn zeta. set (rq := demo_request _ _ _ _).
  assert (H2 : (demo_run Api.CreateRule rq).2.1 = StatusCreated) by by vm_compute.
  split; [exact H2|]. destruct (demo_run Api.CreateRule rq) as [s' r] eqn:E. cbn [fst snd] in *.
  destruct (Api.rules_in_force (P := string) (X := nat) demo_server demo_env Api.CreateRule rq [] demo_start s' r
    (MkDemoDB (MkDemo ∅ ∅) ∅ ∅ []) ltac:(by left) eq_refl E) as (d' & Hd & _ & Hok).
  exists d'. split; [exact Hd|]. destruct (Hok ltac:(by rewrite H2)) as [Hc _].
  destruct (r.2); try done. destruct rule; [|done]. destruct Hc as (_ & _ & Hm). rewrite Hm. apply insert_non_empty.
Defined.
