(* ===== verification/Puts.v ===== *)
(** * Changes of the configuration at the same time: api/config.go, acl.go, rpz.go

    The server takes the lock of its configuration for one read and for one
    write; between them a PUT merges, validates and writes the file. Here every
    PUT advances in the steps that others can come between: Handlers has the
    same handlers, run alone. *)
From stdpp Require Import relations.
From S2P Require Import Prelude Telemetry Radix NetAddr Dns Acl Rpz Firewall Ttl Owner Sorting Tree Records KeyStore Signer.
From S2P Require Import Files Store Access Upstream Config Sql Logging Feeds Reports Rules Http Query Reply Update Handlers Api.
Import Owner TTL KeyStore Records Store Http Handlers.

Module Puts.

(** What a PUT asks for: the configuration to merge into the current one, and
    whether the result needs a restart. *)
Record change := MkChange {
  merge : Config.Config → Config.Config; needs : Config.Config → Config.Config → bool
}.

Section puts.
Context {T : Type → Type} {W D P B X R : Type}.
Context {RO : RadixOps T} {MR : MapRange} {SS : SortSlice} {DT : DnsText} {DG : Digest}
  {ZP : ZoneParser} {FS : FileSys W} {ST : FileStat W} {KD : KeyDB D} {DC : DnssecCrypto P} {KT : KeyText P}
  {TR : TCPResolver} {TM : Toml Config.Config}
  {FD : FeedsDB B} {RD : RulesDB B} {CD : Logging.ConfigDB B} {AD : AuditDB B} {HD : HistoryDB B}
  {SE : ErrorText} {TT : TimeText} {DY : DayText} {FN : FeedNet X}.
Context {J1 : Json RecordInput} {J2 : Json createZoneRequest} {J3 : Json dnssecZoneRequest}
  {J4 : Json createSourceRequest} {J5 : Json patchSourceRequest} {J6 : Json createCustomRequest}
  {J7 : Json aclRuleRequest} {J8 : Json aclConfigPayload} {J9 : Json rpzConfigPayload}
  {J10 : Json logsConfigRequest} {J11 : Json Config.Config}.

Abbreviation state := (state (T := T) (W := W) (D := D) (B := B) (R := R)).
Context (srv : server (T := T) (W := W) (D := D) (B := B) (R := R)).
Implicit Types s : state.

Definition change_of (e : Api.endpoint) (rq : request) : option change :=
  match e with
  | Api.ConfigPut =>
      match unmarshalBody rq with
      | inr c => Some (MkChange (λ current, Config.MergeWithCurrent current c) Config.RequiresRestart)
      | inl _ => None
      end
  | Api.ACLConfigPut =>
      match unmarshalBody rq with
      | inr p => Some (MkChange (λ current, with_acl (acl_toConfig p (Config.ACLs current)) current) (λ _ _, false))
      | inl _ => None
      end
  | Api.RPZConfigPut =>
      match unmarshalBody rq with
      | inr p => Some (MkChange (λ current, with_rpz (rpz_toConfig p) current) (λ _ _, false))
      | inl _ => None
      end
  | _ => None
  end.

(** Where a PUT is: before its read, with the merged configuration, with the one
    to write, to set and to apply, and answered. *)
Inductive put :=
| Reading (c : change)
| Preparing (merged : Config.Config) (restarts : Config.Config → bool)
| Writing (prepared : Config.Config) (restart : bool)
| Setting (prepared : Config.Config) (restart : bool)
| Applying (apply : Config.Config → state → state * option error) (prepared : Config.Config)
| Answered (r : response).

Definition advance (p : put) s : put * state :=
  match p with
  | Reading c => (Preparing (merge c (st_cfg s)) (needs c (st_cfg s)), s)
  | Preparing merged restarts =>
      match Config.PrepareForApply (T := T) (files (st_sys s)) merged with
      | Err e => (Answered (writeJSONError StatusBadRequest e), s)
      | Ok prepared => (Writing prepared (restarts prepared), s)
      end
  | Writing prepared restart =>
      let '(w, e) := Config.Write (files (st_sys s)) (configPath srv) prepared in
      (match e with
       | Some _ => Answered (errorMessage StatusInternalServerError "failed to write configuration file")
       | None => Setting prepared restart
       end, set_sys (set_files (st_sys s) w) s)
  | Setting prepared restart =>
      (match runtime srv with
       | Some apply => if restart then Answered (StatusOK, ConfigUpdateBody true restart) else Applying apply prepared
       | None => Answered (StatusOK, ConfigUpdateBody true restart)
       end, set_cfg prepared s)
  | Applying apply prepared =>
      let '(s, e) := apply prepared s in
      (Answered (match e with
                 | Some e => writeJSONError StatusInternalServerError e
                 | None => (StatusOK, ConfigUpdateBody true false)
                 end), s)
  | Answered r => (p, s)
  end.

Definition answered (p : put) : Prop := match p with Answered _ => True | _ => False end.

(** Any number of PUTs side by side; whatever else the server does in between
    leaves the configuration in force alone. *)
Inductive step : list put * state → list put * state → Prop :=
| step_put ps s i p : ps !! i = Some p → ¬ answered p → step (ps, s) (<[i := (advance p s).1]> ps, (advance p s).2)
| step_other ps s s' : st_cfg s' = st_cfg s → step (ps, s) (ps, s').

(** * Lemmas *)
Lemma change_requested e rq s :
  Api.requested e rq s = (λ c, (merge c (st_cfg s), needs c (st_cfg s))) <$> change_of e rq.
Proof. destruct e; cbn; try done; by destruct (unmarshalBody rq). Qed.

(** A PUT that is left alone is the handler of Handlers. *)
Fixpoint run (n : nat) (p : put) s : put * state :=
  match n with O => (p, s) | S n => let '(p, s) := advance p s in run n p s end.

Lemma run_answered n r s : run n (Answered r) s = (Answered r, s).
Proof. by induction n. Qed.

Theorem alone_is_handler c s : run 5 (Reading c) s =
  let '(s', r) := putConfig srv (merge c (st_cfg s)) (needs c (st_cfg s)) s in (Answered r, s').
Proof.
  change (run 5 (Reading c) s) with (run 4 (Preparing (merge c (st_cfg s)) (needs c (st_cfg s))) s).
  set (restarts := needs c (st_cfg s)). unfold putConfig. cbn [run advance].
  destruct (Config.PrepareForApply _ _) as [prepared|e]; [|done].
  cbn [advance]. destruct (Config.Write _ _ prepared) as [w [e|]]; [done|]. cbn [advance].
  destruct (runtime srv) as [apply|]; [|done]. destruct (restarts prepared) eqn:Er; [done|]. cbn [advance].
  by destruct (apply prepared _) as [s2 [e|]].
Qed.

(** ** What is in force among PUTs *)

(** A configuration that was read as in force, changed by a request, and passed
    validation over some state of the files. *)
Definition validated (c : Config.Config) : Prop := ∃ w merged, Config.PrepareForApply (T := T) (W := W) w merged = Ok c.

Definition carries (p : put) : Prop :=
  match p with Writing c _ | Setting c _ | Applying _ c => validated c | _ => True end.

(** The applier keeps the configuration in force. *)
Definition applier_keeps : Prop := ∀ apply c s, runtime srv = Some apply → st_cfg (apply c s).1 = st_cfg s.
Definition applies (p : put) : Prop := match p with Applying apply _ => runtime srv = Some apply | _ => True end.

Lemma advance_carries p s : applier_keeps → carries p → applies p → carries (advance p s).1 ∧ applies (advance p s).1 ∧
  (st_cfg (advance p s).2 = st_cfg s ∨ ∃ c, validated c ∧ st_cfg (advance p s).2 = c).
Proof.
  intros Ha Hc Hp. destruct p as [c|merged restarts|c b|c b|apply c|r]; cbn [advance].
  - by split_and!; [| |left].
  - destruct (Config.PrepareForApply _ _) as [c|e] eqn:E; (split_and!; [|done|by left]); [by eexists _, _|done].
  - destruct (Config.Write _ _ c) as [w [e|]]; (split_and!; [done|done|by left]).
  - destruct (runtime srv) as [apply|] eqn:Er; [destruct b|]; (split_and!; [done|done|right; by exists c]).
  - specialize (Ha apply c s Hp). destruct (apply c s) as [s' e]. by split_and!; [| |left].
  - by split_and!; [| |left].
Qed.

(** whatever PUTs overlap, and whatever fails, the configuration in force is the
    first one or one that passed validation as a whole. *)
Theorem in_force_validated ps s ps' s' : applier_keeps → Forall (λ p, ∃ c, p = Reading c) ps →
  rtc step (ps, s) (ps', s') → st_cfg s' = st_cfg s ∨ validated (st_cfg s').
Proof.
  intros Ha Hps Hr. assert (Hi : Forall (λ p, carries p ∧ applies p) ps) by (eapply Forall_impl; [exact Hps|]; by intros ? [c ->]).
  clear Hps. remember (ps, s) as w eqn:Ew. remember (ps', s') as w' eqn:Ew'. revert ps s Ew Hi.
  induction Hr as [w|w w1 w2 Hs Hr IH]; intros ps s -> Hi; [left; congruence|].
  inversion Hs as [ps0 s0 i p Hp Hna|ps0 s0 s1 Hc]; subst.
  - destruct (Forall_lookup_1 _ _ _ _ Hi Hp) as [Hp1 Hp2]. destruct (advance_carries p s Ha Hp1 Hp2) as (H1 & H2 & H3).
    destruct (IH eq_refl _ _ eq_refl) as [E|?]; [by apply Forall_insert|rewrite E|by right].
    destruct H3 as [E'|(c & Hc & E')]; [by left|right; by rewrite E'].
  - destruct (IH eq_refl _ _ eq_refl Hi) as [E|?]; [left; congruence|by right].
Qed.

(** A PUT is answered after its five steps; until then it can move. *)
Definition left_to_do (p : put) : nat :=
  match p with
  | Reading _ => 5 | Preparing _ _ => 4 | Writing _ _ => 3 | Setting _ _ => 2 | Applying _ _ => 1 | Answered _ => 0
  end.
Lemma advance_left p s : ¬ answered p → left_to_do (advance p s).1 < left_to_do p.
Proof. destruct p; cbn [advance]; intros Hn; repeat case_match; cbn; try lia. by destruct Hn. Qed.

Lemma answered_moves w w' : step w w' → sum_list_with left_to_do w'.1 ≤ sum_list_with left_to_do w.1.
Proof.
  destruct 1 as [ps s i p Hp Hn|]; cbn [fst]; [|done]. pose proof (advance_left p s Hn).
  pose proof (sum_insert left_to_do ps i p (advance p s).1 Hp). lia.
Qed.

(** ** Schedules *)
Fixpoint schedule (turns : list nat) (w : list put * state) : list put * state :=
  match turns with
  | [] => w
  | i :: turns =>
      match w.1 !! i with
      | Some p => schedule turns (<[i := (advance p w.2).1]> w.1, (advance p w.2).2)
      | None => w
      end
  end.

Lemma schedule_steps turns w : rtc step w (schedule turns w).
Proof.
  revert w. induction turns as [|i turns IH]; intros [ps s]; cbn [schedule fst snd]; [done|].
  destruct (ps !! i) as [p|] eqn:Ep; [|done]. destruct p as [c|m f|c b|c b|a c|r] eqn:E.
  6: { cbn [advance fst snd]. rewrite list_insert_id by done. apply IH. }
  all: subst p; (eapply rtc_l; [apply step_put; [exact Ep|by intros []]|]); apply IH.
Qed.
End puts.

(** ** Overlapping PUTs: a server in memory *)
#[local] Existing Instances Signer.demo_crypto KeyStore.demo_key_text Store.demo_parser Store.demo_digest Config.demo_tcp.

(** An encoding that tells whether the policies are on. *)
#[local] Instance demo_toml : Toml Config.Config | 0 := {|
  toml_unmarshal d base := Ok base;
  toml_marshal c := Ok (if Config.rpzEnabled (Config.RPZs c) then "policies" else "none")
|}.

Definition demo_acl : change := MkChange (λ c, with_acl (acl_toConfig (MkAclPayload None [] ["10.0.0.0/8"] [] None) (Config.ACLs c)) c) (λ _ _, false).
Definition demo_rpz : change := MkChange (λ c, with_rpz (rpz_toConfig (MkRpzPayload true [])) c) (λ _ _, false).
Definition overlapped (turns : list nat) := schedule demo_server turns ([Reading demo_acl; Reading demo_rpz], demo_start).
Abbreviation demo_put := (put (T := gtree) (W := ram) (D := key_table) (B := demo_db) (R := unit)).
Definition answers (w : list demo_put * demo_state) : list N := omap (λ p, match p with Answered r => Some r.1 | _ => None end) w.1.

(** Two PUTs of different sections, both answered with success: the one that read
    first and set last takes the other's change back. *)
Lemma update_lost : let w := overlapped [0; 1; 1; 1; 1; 0; 0; 0] in
  answers w = [StatusOK; StatusOK] ∧ Config.rpzEnabled (Config.RPZs (st_cfg w.2)) = false ∧
  Config.rpzEnabled (Config.RPZs (st_cfg (overlapped [1; 1; 1; 1]).2)) = true.
Proof. cbn zeta. split_and!; by vm_compute. Qed.

(** The file and the configuration in force can part: both are answered with
    success, the policies are on in the file and off in the server, until the
    next start. *)
Lemma file_and_server_part : let w := overlapped [0; 1; 0; 1; 0; 1; 1; 0] in
  answers w = [StatusOK; StatusOK] ∧ Config.rpzEnabled (Config.RPZs (st_cfg w.2)) = false ∧
  fs_read (files (st_sys w.2)) (configPath demo_server) = Ok "policies".
Proof. cbn zeta. split_and!; by vm_compute. Qed.

End Puts.
