(* ===== verification/Xfr.v ===== *)
(** * Zone transfers: internal/dnsproc/xfr.go

    AXFR and IXFR over TCP: the gates of a transfer, and the stream of
    messages, at most [maxRecordsPerXferMessage] records each, between two
    copies of the SOA. A TCP connection is an interface [FrameWriter]: writing
    a frame may fail, and the first failure ends the transfer. *)
From S2P Require Import Prelude Radix NetAddr Names Owner Dns Rpz Firewall Acl Sorting Tree.
From S2P Require Import Signer KeyStore Files Store Cache Access Query Reply.
Import Owner Tree Store Query Reply.

(** [TCPFrameWriter]: [K] is the state of the connection. *)
Class FrameWriter (K : Type) := { writeFrame : string → K → option error * K }.

Module Xfr.

Definition maxRecordsPerXferMessage := 100.

(** [for start := 0; start < len; start += 100]: each round consumes a
    record, so the length of the list bounds the rounds. *)
Fixpoint batchLoop (fuel : nat) (l : list rr) : list (list rr) :=
  match fuel, l with
  | _, [] => []
  | O, _ => []
  | S f, _ => take maxRecordsPerXferMessage l :: batchLoop f (drop maxRecordsPerXferMessage l)
  end.
Definition batches (l : list rr) : list (list rr) := batchLoop (length l) l.

Section xfr.
Context {T : Type → Type} {W D C Net R V K : Type}.
Context {RO : RadixOps T} {MR : MapRange} {SS : SortSlice} {DT : DnsText} {DM : DnsMsg}
  {FW : FrameWriter K}.
Implicit Types (p : Processor T R V) (k : K).
Abbreviation M := (Reply.M T W D C Net).

Definition transferAllowed p (client : addr) (zoneApex : string) : bool :=
  match p_policyEngine p with
  | Some e => ACL.AllowTransfer (Some e) client zoneApex
  | None => match p_xfrACL p with None => false | Some trusted => trusted client end
  end.

(** [packed, err := ...; if err != nil { return err }; return writeFrame(packed)] *)
Definition writePacked (packed : res string) k : option error * K :=
  match packed with Ok data => writeFrame data k | Err e => (Some e, k) end.

(** The Answer sections of the messages of a transfer. *)
Definition xferAnswers (records : list rr) (soa : rr) : list (list rr) :=
  let others := List.filter (λ r, negb (is_duplicate r soa)) records in
  [soa] :: batches others ++ [[soa]].

Definition writeXferMessage p (req : msg) (client : addr) (ctx : cookieContext)
    (answers : list rr) k : M (option error * K) :=
  let resp := set_rcode (set_aa (set_reply new_msg req) true) RcodeSuccess in
  let! packed := packResponse p (set_answer resp answers) req false client ctx in
  ret (writePacked packed k).

Fixpoint writeXferMessages p (req : msg) (client : addr) (ctx : cookieContext)
    (answers : list (list rr)) k : M (option error * K) :=
  match answers with
  | [] => ret (None, k)
  | a :: rest =>
      let! (e, k) := writeXferMessage p req client ctx a k in
      match e with
      | Some e => ret (Some e, k)
      | None => writeXferMessages p req client ctx rest k
      end
  end.

(** The reply to a transfer of a zone the server does not have. *)
Definition xferNotAuth p (req : msg) (client : addr) (ctx : cookieContext) k
    : M (option error * K) :=
  let resp := set_rcode (set_aa (set_reply new_msg req) true) RcodeNotAuth in
  let! packed := packResponse p resp req false client ctx in
  match packed with
  | Err e => ret (Some e, k)
  | Ok data => let! _ := inc XFRRefused in ret (writeFrame data k)
  end.

Definition xferRefused p (req : msg) (client : addr) (ctx : cookieContext) k
    : M (option error * K) :=
  let! packed := xfrRefusedResponse p req client ctx false in
  ret (writePacked packed k).

Definition streamZoneTransfer p (client : addr) (req : msg) (ctx : cookieContext)
    (qname : string) k : M (option error * K) :=
  if negb (p_xfrEnabled p) then xferRefused p req client ctx k
  else if negb (transferAllowed p client "") then xferRefused p req client ctx k
  else
    let view := selectView p client req in
    let! m := gets (λ w, mem (sys w)) in
    match resolveXferZone m qname view with
    | None => xferNotAuth p req client ctx k
    | Some (origin, xferView) =>
        if negb (transferAllowed p client origin) then xferRefused p req client ctx k
        else
          let records := ZoneRecords m origin xferView in
          match findSOARecord records origin with
          | None => xferNotAuth p req client ctx k
          | Some soa =>
              let! (e, k) := writeXferMessages p req client ctx (xferAnswers records soa) k in
              match e with
              | Some e => ret (Some e, k)
              | None => let! _ := inc XFRCompleted in ret (None, k)
              end
          end
    end.

End xfr.

(** * Lemmas *)
Lemma batchLoop_concat fuel l : length l ≤ fuel → concat (batchLoop fuel l) = l.
Proof.
  revert l. induction fuel as [|f IH]; intros [|r l] Hl; cbn [length] in Hl; try done; [lia|].
  cbn [batchLoop concat]. rewrite IH; [apply take_drop|].
  rewrite length_drop. cbn [length]. unfold maxRecordsPerXferMessage. lia.
Qed.

Lemma batchLoop_sizes fuel l :
  Forall (λ b, 1 ≤ length b ≤ maxRecordsPerXferMessage) (batchLoop fuel l).
Proof.
  revert l. induction fuel as [|f IH]; intros [|r l]; try constructor; [|apply IH].
  rewrite length_take. unfold maxRecordsPerXferMessage. cbn [length]. lia.
Qed.

Section lemmas.
Context {T : Type → Type} {W D C Net R V K : Type}.
Context {RO : RadixOps T} {MR : MapRange} {SS : SortSlice} {DT : DnsText} {DM : DnsMsg}
  {FW : FrameWriter K}.
Implicit Types (p : Processor T R V) (k : K) (w : world T W D C Net).

(** Frames one after the other, up to the first error. *)
Fixpoint writeSeq (frames : list (res string)) k : option error * K :=
  match frames with
  | [] => (None, k)
  | f :: rest =>
      match writePacked f k with
      | (Some e, k) => (Some e, k)
      | (None, k) => writeSeq rest k
      end
  end.

(** The message of a transfer with these answers, as it goes on the wire. *)
Definition xferFrame p req client ctx (answers : list rr) : res string :=
  pack (finalReply p
    (set_answer (set_rcode (set_aa (set_reply new_msg req) true) RcodeSuccess) answers)
    req false client ctx).

Lemma writeXferMessages_spec p req client ctx answers k w :
  (writeXferMessages p req client ctx answers k w).1 =
    writeSeq (map (xferFrame p req client ctx) answers) k ∧
  same_world w (writeXferMessages p req client ctx answers k w).2.
Proof.
  revert k w. induction answers as [|a l IH]; intros k w; cbn [writeXferMessages map writeSeq].
  { by split. }
  unfold writeXferMessage, bind.
  pose proof (pack_result p (set_answer (set_rcode (set_aa (set_reply new_msg req) true)
    RcodeSuccess) a) req false client ctx w) as Hp.
  pose proof (quiet_pack p (set_answer (set_rcode (set_aa (set_reply new_msg req) true)
    RcodeSuccess) a) req false client ctx w) as Hq.
  destruct (packResponse _ _ _ _ _ _ _) as [packed w1]; cbn [fst snd] in *. subst packed.
  fold (xferFrame p req client ctx a). cbn [ret].
  destruct (writePacked (xferFrame p req client ctx a) k) as [[e|] k1]; [by split|].
  destruct (IH k1 w1) as [H1 H2]. split; [done|]. by etrans.
Qed.

Lemma quiet_not_auth p req client ctx k :
  quiet (W := W) (D := D) (C := C) (Net := Net) (xferNotAuth p req client ctx k).
Proof.
  unfold xferNotAuth. apply quiet_bind; [auto with frame|]. intros []; auto with frame.
Qed.
Lemma quiet_xfer_refused p req client ctx k :
  quiet (W := W) (D := D) (C := C) (Net := Net) (xferRefused p req client ctx k).
Proof. unfold xferRefused. auto with frame. Qed.

(** A refusal writes one reply, without records. *)
Definition refusal p req client ctx k (out : option error * K) : Prop :=
  ∃ rcode aa ra, (rcode = RcodeRefused ∨ rcode = RcodeNotAuth) ∧
    out = writePacked (pack (finalReply p
      (set_rcode (set_ra (set_aa (set_reply new_msg req) aa) ra) rcode) req false client ctx)) k.

Lemma refused_refusal p req client ctx k w :
  refusal p req client ctx k (xferRefused p req client ctx k w).1.
Proof.
  pose proof (xfr_refused_result p req client ctx false w) as Hr.
  unfold xferRefused, bind. destruct (xfrRefusedResponse _ _ _ _ _ _) as [packed w1].
  cbn [fst] in Hr. subst packed. cbn [ret fst].
  exists RcodeRefused, false, true. split; [by left | done].
Qed.

Lemma not_auth_refusal p req client ctx k w :
  refusal p req client ctx k (xferNotAuth p req client ctx k w).1.
Proof.
  unfold refusal, xferNotAuth, bind.
  set (resp := set_rcode (set_aa (set_reply new_msg req) true) RcodeNotAuth).
  exists RcodeNotAuth, true, (m_ra (set_reply new_msg req)). split; [by right|].
  pose proof (pack_result p resp req false client ctx w) as Hp.
  destruct (packResponse _ _ _ _ _ _ _) as [packed w1]. cbn [fst] in Hp. subst packed.
  change (set_rcode (set_ra _ _) RcodeNotAuth) with resp.
  by destruct (pack _).
Qed.

End lemmas.

(** *** What the connection keeps *)
Section keeps.
Context {T : Type → Type} {W D C Net R V K : Type}.
Context {RO : RadixOps T} {MR : MapRange} {SS : SortSlice} {DT : DnsText} {DM : DnsMsg}
  {FW : FrameWriter K}.
Variable I : K → Prop.
Hypothesis writes : ∀ data k, I k → I (writeFrame data k).2.

(** Whatever the world, the handler leaves a connection with [I]. *)
Definition keeps (m : Reply.M T W D C Net (option error * K)) : Prop := ∀ w, I (m w).1.2.

Lemma keeps_ret e k : I k → keeps (ret (e, k)).
Proof. by intros ? w. Qed.
Lemma keeps_bind {A} (m : Reply.M T W D C Net A) f : (∀ x, keeps (f x)) → keeps (bind m f).
Proof. intros Hf w. unfold bind. destruct (m w) as [x w']. apply Hf. Qed.
Lemma keeps_write packed k : I k → keeps (ret (writePacked packed k)).
Proof. intros Hk w. destruct packed as [data|e]; cbn; [by apply writes|done]. Qed.
Lemma keeps_frame data k : I k → keeps (ret (writeFrame data k)).
Proof. intros Hk w. by apply writes. Qed.
Lemma keeps_chain m f : keeps m → (∀ e k, I k → keeps (f (e, k))) → keeps (bind m f).
Proof.
  intros Hm Hf w. unfold bind. specialize (Hm w). destruct (m w) as [[e k] w']. by apply Hf.
Qed.

Lemma keeps_message (p : Processor T R V) req client ctx a k : I k →
  keeps (writeXferMessage p req client ctx a k).
Proof. intros Hk. apply keeps_bind. intros packed. by apply keeps_write. Qed.

Lemma keeps_messages (p : Processor T R V) req client ctx answers k : I k →
  keeps (writeXferMessages p req client ctx answers k).
Proof.
  revert k. induction answers as [|a rest IH]; intros k Hk; cbn [writeXferMessages]; [by apply keeps_ret|].
  apply keeps_chain; [by apply keeps_message|]. intros [e|] k' Hk'; [by apply keeps_ret|by apply IH].
Qed.

Lemma keeps_refused (p : Processor T R V) req client ctx k : I k →
  keeps (xferRefused p req client ctx k).
Proof. intros Hk. apply keeps_bind. intros packed. by apply keeps_write. Qed.
Lemma keeps_not_auth (p : Processor T R V) req client ctx k : I k →
  keeps (xferNotAuth p req client ctx k).
Proof.
  intros Hk. apply keeps_bind. intros [data|e]; [|by apply keeps_ret].
  apply keeps_bind. intros _. by apply keeps_frame.
Qed.

Lemma keeps_transfer (p : Processor T R V) client req ctx qname k : I k →
  keeps (streamZoneTransfer p client req ctx qname k).
Proof.
  intros Hk. unfold streamZoneTransfer. destruct (p_xfrEnabled p); [|by apply keeps_refused].
  destruct (transferAllowed p client ""); [|by apply keeps_refused].
  apply keeps_bind. intros m. destruct (resolveXferZone m qname _) as [[origin view]|];
    [|by apply keeps_not_auth].
  destruct (transferAllowed p client origin); [|by apply keeps_refused]. cbv zeta.
  destruct (findSOARecord _ origin) as [soa|]; [|by apply keeps_not_auth].
  apply keeps_chain; [by apply keeps_messages|]. intros [e|] k' Hk'; [by apply keeps_ret|].
  apply keeps_bind. intros _. by apply keeps_ret.
Qed.
End keeps.

(** * Properties *)
Section properties.
Context {T : Type → Type} {W D C Net R V K : Type}.
Context {RO : RadixOps T} {MR : MapRange} {SS : SortSlice} {DT : DnsText} {DM : DnsMsg}
  {FW : FrameWriter K}.
Implicit Types (p : Processor T R V) (k : K) (w : world T W D C Net).

(** What a client must have been granted to see a zone. *)
Definition transferGranted p m client req qname origin view : Prop :=
  p_xfrEnabled p = true ∧ transferAllowed p client "" = true ∧
  resolveXferZone (T := T) m qname (selectView p client req) = Some (origin, view) ∧
  transferAllowed p client origin = true.

(** the answers of a transfer, read in order, are the SOA, every record
    of the zone that is not that SOA, once and in order, and the SOA again;
    no message is empty or holds more than a hundred records. *)
Theorem xfer_answers_exact records soa :
  concat (xferAnswers records soa) =
    soa :: List.filter (λ r, negb (is_duplicate r soa)) records ++ [soa] ∧
  Forall (λ a, 1 ≤ length a ≤ maxRecordsPerXferMessage) (xferAnswers records soa).
Proof.
  unfold xferAnswers, batches. split.
  - cbn [concat app]. by rewrite concat_app, batchLoop_concat by done.
  - constructor; [cbn; unfold maxRecordsPerXferMessage; lia|]. apply Forall_app. split.
    + apply batchLoop_sizes.
    + by repeat constructor.
Qed.


End properties.

End Xfr.
