(* ===== verification/Processor.v ===== *)
(** * The query processor: internal/dnsproc/processor.go, xfr.go

    [buildResponse] is the decision pipeline of a query, [HandleTCP] the entry
    point for TCP. Blocked names, policy answers, local answers and recursion
    over the cache, the resolver and the validator come together here. *)
From S2P Require Import Prelude Radix NetAddr Names Owner Dns Rpz Firewall Acl Sorting Tree.
From S2P Require Import Signer KeyStore Files Store Cache Access Upstream Validator Query Reply Update Xfr.
Import Owner Tree Signer KeyStore Store Cache Query Reply Update Xfr.

Module Proc.

Section processor.
Context {T : Type → Type} {W D P C Net R V K : Type}.
Context {RO : RadixOps T} {MR : MapRange} {SS : SortSlice} {DT : DnsText} {DG : Digest}
  {ZP : ZoneParser} {FS : FileSys W} {KD : KeyDB D} {DC : DnssecCrypto P} {KT : KeyText P}
  {DM : DnsMsg} {TS : Tsig} {RC : Ristretto C cacheEntry} {ER : ExchangeResolver R Net}
  {VA : Validator V Net} {FW : FrameWriter K}.
Implicit Types p : Processor T R V.
Abbreviation M := (Reply.M T W D C Net).

(** ** Policy answers *)
Definition blockedReply (fw : Firewall.Engine T) (req : msg) (q : question) : msg :=
  let resp rcode answer := set_answer (replyTo req true true rcode) answer in
  if bool_decide (Firewall.Action fw = Firewall.BlockActionZeroIP) then
    if (q_type q =? TypeA)%N then
      resp RcodeSuccess [RR (Hdr (q_name q) TypeA ClassINET 300) (DA (net_parse_ip "0.0.0.0"))]
    else if (q_type q =? TypeAAAA)%N then
      resp RcodeSuccess [RR (Hdr (q_name q) TypeAAAA ClassINET 300) (DAAAA (net_parse_ip "::"))]
    else resp RcodeNameError []
  else resp RcodeNameError [].

Definition blockedResponse p (fw : Firewall.Engine T) (req : msg) (q : question) (limitUDP : bool)
    (client : addr) (ctx : cookieContext) : M (res string) :=
  let! _ := inc FirewallBlocked in
  packResponse p (blockedReply fw req q) req limitUDP client ctx.

(** The reply of an RPZ action; [None] drops the query. *)
Definition rpzReply (req : msg) (q : question) (action target : string) : option msg :=
  let reply rcode answer := Some (set_answer (replyTo req true true rcode) answer) in
  if bool_decide (action = RPZ.ActionDROP) then None
  else if bool_decide (action = RPZ.ActionNODATA) then reply RcodeSuccess []
  else if bool_decide (action = RPZ.ActionCNAME) then
    if bool_decide (target = "") then reply RcodeNameError []
    else reply RcodeSuccess [RR (Hdr (q_name q) TypeCNAME ClassINET 300) (DCNAME target)]
  else if bool_decide (action = RPZ.ActionA) then
    match net_to4 (net_parse_ip target) with
    | IPNil => reply RcodeNameError []
    | ip4 => reply RcodeSuccess [RR (Hdr (q_name q) TypeA ClassINET 300) (DA ip4)]
    end
  else if bool_decide (action = RPZ.ActionAAAA) then
    let ip := net_parse_ip target in
    if bool_decide (ip = IPNil) || negb (bool_decide (net_to4 ip = IPNil))
    then reply RcodeNameError []
    else reply RcodeSuccess [RR (Hdr (q_name q) TypeAAAA ClassINET 300) (DAAAA ip)]
  else reply RcodeNameError [].

Definition rpzResponse p (req : msg) (q : question) (limitUDP : bool) (client : addr)
    (ctx : cookieContext) (action target : string) : M (res string) :=
  let! _ := inc RPZMatched in
  match rpzReply req q action target with
  | None => ret (Err ErrPolicyDrop)
  | Some resp => packResponse p resp req limitUDP client ctx
  end.

(** ** Recursion *)
Definition cacheGet (key : string) : M (option msg) := λ w,
  let '(r, c) := Get (cache w) (mono w) key in (r, set_cache w c).
Definition cacheSet (key : string) (resp : msg) : M () := λ w,
  ((), set_cache w (Set_ (cache w) (mono w) key (Some resp))).
Definition exchange (r : R) (req : msg) (client : addr) : M (res msg) := λ w,
  let '(resp, n) := Exchange r req client (net w) in (resp, set_net w n).
Definition validate (v : V) (resp : msg) : M (res bool) := λ w,
  let '(b, n) := Validate v (unix w) resp (net w) in (b, set_net w n).

Definition serverFailure p (req : msg) (client : addr) (limitUDP : bool) (ctx : cookieContext)
    : M (res string) :=
  packResponse p (replyTo req false true RcodeServerFailure) req limitUDP client ctx.

(** [resp.SetReply(req); resp.RecursionAvailable = true] on a message that
    came from the resolver or the cache. *)
Definition relayed (resp req : msg) : msg := set_ra (set_reply resp req) true.

(** The counters of a cache hit. *)
Definition countHit (cached : msg) : M () :=
  let! _ := inc CacheHit in
  let! _ := inc LocalQuery in
  if IsNegativeResponse (Some cached) then inc NegativeCacheHit else ret ().

(** After a miss: the resolver, the validator, the cache. *)
Definition queryUpstream p (key : string) (req : msg) (client : addr) (limitUDP : bool)
    (ctx : cookieContext) (resolver : R) : M (res string) :=
  let! _ := inc UpstreamQuery in
  let! r := exchange resolver req client in
  match r with
  | Err _ => serverFailure p req client limitUDP ctx
  | Ok resp =>
      let finish resp :=
        let! _ := cacheSet key resp in
        packResponse p (relayed resp req) req limitUDP client ctx in
      match p_validator p with
      | Some v =>
          if p_dnssecValidation p then
            let! authenticated := validate v resp in
            match authenticated with
            | Err _ =>
                let! _ := inc DNSSECValidationFailed in serverFailure p req client limitUDP ctx
            | Ok true => finish (set_ad resp true)
            | Ok false => finish resp
            end
          else finish resp
      | None => finish resp
      end
  end.

Definition recursiveQuery p (req : msg) (q : question) (client : addr) (limitUDP : bool)
    (ctx : cookieContext) (resolver : R) : M (res string) :=
  let key := CacheKey q (Some req) (ECSCacheContext resolver client) in
  let! c := gets cache in
  match c with
  | None => queryUpstream p key req client limitUDP ctx resolver
  | Some _ =>
      let! cached := cacheGet key in
      match cached with
      | Some cached =>
          let! _ := countHit cached in
          packResponse p (relayed cached req) req limitUDP client ctx
      | None =>
          let! _ := inc CacheMiss in queryUpstream p key req client limitUDP ctx resolver
      end
  end.

(** ** The pipeline *)

(** A question no policy has answered: the zone store, then recursion. *)
Definition answerQuestion p (client : addr) (req : msg) (q : question) (view : ZoneView)
    (limitUDP : bool) (ctx : cookieContext) : M (res string) :=
  let! m := gets (λ w, mem (sys w)) in
  let '(records, rcode, needsForward) := resolveQuestion m q view in
  let localAnswer :=
    let! _ := inc LocalQuery in
    let resp := set_answer (replyTo req true true rcode) records in
    let resp := if ((q_type q =? TypeANY) && (rcode =? RcodeSuccess))%N
                then set_tc resp true else resp in
    packResponse p resp req limitUDP client ctx in
  if needsForward && m_rd req then
    if negb (allowRecursion p client) then refusedResponse p req limitUDP client ctx
    else match activeResolver p with
         | Some r => recursiveQuery p req q client limitUDP ctx r
         | None => localAnswer
         end
  else localAnswer.

(** The zone of the name refuses the client. *)
Definition zoneRefuses p m (client : addr) (qname : string) : bool :=
  match findAuthoritativeZone (T := T) m qname, p_policyEngine p with
  | Some apex, Some e => negb (ACL.AllowQueryZone (Some e) client apex)
  | _, _ => false
  end.

Definition handleQuery p (client : addr) (req : msg) (q : question) (limitUDP : bool)
    (ctx : cookieContext) : M (res string) :=
  let view := selectView p client req in
  let! m := gets (λ w, mem (sys w)) in
  if zoneRefuses p m client (q_name q) then queryACLRefusedResponse p req limitUDP client ctx
  else if ((q_type q =? TypeAXFR) || (q_type q =? TypeIXFR))%N then
    xfrRefusedResponse p req client ctx limitUDP
  else
    match RPZ.Evaluate (p_rpz p) (q_name q) with
    | Some (action, target) => rpzResponse p req q limitUDP client ctx action target
    | None =>
        match p_firewall p with
        | Some fw =>
            if Firewall.Blocked fw (q_name q) then
              blockedResponse p fw req q limitUDP client ctx
            else answerQuestion p client req q view limitUDP ctx
        | None => answerQuestion p client req q view limitUDP ctx
        end
    end.

(** The access lists for any query. *)
Definition queryAllowed p (client : addr) : bool :=
  Access.Allowed (p_queryACL p) client &&
  match p_policyEngine p with Some e => ACL.AllowQuery e client | None => true end.

Definition formatErrorResponse p (req : msg) (limitUDP : bool) (client : addr)
    (ctx : cookieContext) : M (res string) :=
  packResponse p (replyTo req true true RcodeFormatError) req limitUDP client ctx.

Definition handleRequest p (client : addr) (req : msg) (payload : string) (limitUDP : bool)
    : M (res string) :=
  if negb (queryAllowed p client) then
    let! ctx := parseRequestCookie p req client in
    queryACLRefusedResponse p req limitUDP client ctx
  else
    let! ctx := parseRequestCookie p req client in
    if rejectBadCookie ctx then badCookieResponse p req client ctx limitUDP
    else if (m_opcode req =? OpcodeUpdate)%N then
      handleDynamicUpdate p client req payload limitUDP ctx
    else
      match m_question req with
      | [] => formatErrorResponse p req limitUDP client ctx
      | q :: _ => handleQuery p client req q limitUDP ctx
      end.

Definition payloadSizeOk (payload : string) : bool :=
  ((dnsHeaderSize <=? N.of_nat (slen payload)) && (N.of_nat (slen payload) <=? maxMessageSize))%N.

Definition buildResponse p (client : addr) (payload : string) (limitUDP : bool) : M (res string) :=
  if negb (payloadSizeOk payload) then ret (Err errBuf)
  else
    match unpack payload with
    | Err e => ret (Err e)
    | Ok req => handleRequest p client req payload limitUDP
    end.

(** ** TCP *)
Definition HandleTCP p (client : addr) (payload : string) (k : K) : M (option error * K) :=
  if negb (payloadSizeOk payload) then ret (Some errBuf, k)
  else
    match unpack payload with
    | Err e => ret (Some e, k)
    | Ok req =>
        let! ctx := parseRequestCookie p req client in
        if rejectBadCookie ctx then
          let! packed := badCookieResponse p req client ctx false in ret (writePacked packed k)
        else if (m_opcode req =? OpcodeUpdate)%N then
          let! packed := handleDynamicUpdate p client req payload false ctx in
          ret (writePacked packed k)
        else
          match m_question req with
          | [] =>
              let! packed := formatErrorResponse p req false client ctx in
              ret (writePacked packed k)
          | q :: _ =>
              if ((q_type q =? TypeAXFR) || (q_type q =? TypeIXFR))%N then
                streamZoneTransfer p client req ctx (q_name q) k
              else
                let! packed := buildResponse p client payload false in ret (writePacked packed k)
          end
    end.

Definition Response p (client : addr) (payload : string) : M (res string) :=
  buildResponse p client payload true.

(** The callback of [ResponseTCP]: it keeps one frame and refuses a second. *)
Definition frameOnce (data : string) (single : option string) : option error * option string :=
  match single with
  | Some _ => (Some (errNew "unexpected multiple TCP response frames"), single)
  | None => (None, Some data)
  end.

(** [RcodeFromPayload]. *)
Definition RcodeFromPayload (payload : string) : res N :=
  let? m := unpack payload in Ok (m_rcode m).

End processor.

Section tcp.
Context {T : Type → Type} {W D P C Net R V : Type}.
Context {RO : RadixOps T} {MR : MapRange} {SS : SortSlice} {DT : DnsText} {DG : Digest}
  {ZP : ZoneParser} {FS : FileSys W} {KD : KeyDB D} {DC : DnssecCrypto P} {KT : KeyText P}
  {DM : DnsMsg} {TS : Tsig} {RC : Ristretto C cacheEntry} {ER : ExchangeResolver R Net}
  {VA : Validator V Net}.

Definition ResponseTCP (p : Processor T R V) (client : addr) (payload : string)
    : M T W D C Net (res (option string)) :=
  let! (e, single) :=
    HandleTCP (P := P) (FW := {| writeFrame := frameOnce |}) p client payload None in
  ret (match e with Some e => Err e | None => Ok single end).

End tcp.

(** * Lemmas *)
Section lemmas.
Context {T : Type → Type} {W D P C Net R V K : Type}.
Context {RO : RadixOps T} {MR : MapRange} {SS : SortSlice} {DT : DnsText} {DG : Digest}
  {ZP : ZoneParser} {FS : FileSys W} {KD : KeyDB D} {DC : DnssecCrypto P} {KT : KeyText P}
  {DM : DnsMsg} {TS : Tsig} {RC : Ristretto C cacheEntry} {ER : ExchangeResolver R Net}
  {VA : Validator V Net}.
Implicit Types (p : Processor T R V) (w : world T W D C Net).
Abbreviation quiet := (quiet (T := T) (W := W) (D := D) (C := C) (Net := Net)).
Abbreviation readonly := (readonly (T := T) (W := W) (D := D) (C := C) (Net := Net)).

Lemma quiet_blocked p fw req q lim client ctx : quiet (blockedResponse p fw req q lim client ctx).
Proof. unfold blockedResponse. auto with frame. Qed.
Lemma quiet_rpz p req q lim client ctx action target :
  quiet (rpzResponse p req q lim client ctx action target).
Proof.
  unfold rpzResponse. apply quiet_bind; [auto with frame|]. intros _.
  destruct (rpzReply _ _ _ _); auto with frame.
Qed.
Lemma quiet_failure p req client lim ctx : quiet (serverFailure p req client lim ctx).
Proof. unfold serverFailure. auto with frame. Qed.
Lemma quiet_format_error p req lim client ctx : quiet (formatErrorResponse p req lim client ctx).
Proof. unfold formatErrorResponse. auto with frame. Qed.
Lemma quiet_count_hit m : quiet (countHit m).
Proof. unfold countHit. auto with frame. Qed.
Hint Resolve quiet_blocked quiet_rpz quiet_failure quiet_format_error quiet_count_hit : frame.

Abbreviation heedless := (heedless (T := T) (W := W) (D := D) (C := C) (Net := Net)).

Lemma heedless_blocked p fw req q lim client ctx :
  heedless (blockedResponse p fw req q lim client ctx).
Proof. unfold blockedResponse. auto with frame. Qed.
Lemma heedless_rpz p req q lim client ctx action target :
  heedless (rpzResponse p req q lim client ctx action target).
Proof.
  unfold rpzResponse. apply heedless_bind; [auto with frame|]. intros _.
  destruct (rpzReply _ _ _ _); auto with frame.
Qed.
Lemma heedless_format_error p req lim client ctx :
  heedless (formatErrorResponse p req lim client ctx).
Proof. unfold formatErrorResponse. auto with frame. Qed.
Hint Resolve heedless_blocked heedless_rpz heedless_format_error : frame.

Lemma readonly_cacheGet key : readonly (cacheGet key).
Proof. intros w. unfold cacheGet. by destruct (Get _ _ _). Qed.
Lemma readonly_cacheSet key resp : readonly (cacheSet key resp).
Proof. by intros w. Qed.
Lemma readonly_exchange r req client : readonly (exchange r req client).
Proof. intros w. unfold exchange. by destruct (Exchange _ _ _ _). Qed.
Lemma readonly_validate v resp : readonly (validate v resp).
Proof. intros w. unfold validate. by destruct (Validate _ _ _ _). Qed.
Hint Resolve readonly_cacheGet readonly_cacheSet readonly_exchange readonly_validate : frame.

(** Case analysis on a handler whose branches are known to [frame]. *)
Ltac frame :=
  repeat first
    [ solve [auto with frame]
    | apply readonly_bind; [auto with frame|]; intros ?
    | progress cbv zeta
    | case_match ].

Lemma readonly_upstream p key req client lim ctx r :
  readonly (queryUpstream p key req client lim ctx r).
Proof. unfold queryUpstream. frame. Qed.
Hint Resolve readonly_upstream : frame.

Lemma readonly_recursive p req q client lim ctx r :
  readonly (recursiveQuery p req q client lim ctx r).
Proof. unfold recursiveQuery. frame. Qed.
Hint Resolve readonly_recursive : frame.

Lemma readonly_query p client req q lim ctx : readonly (handleQuery p client req q lim ctx).
Proof. unfold handleQuery, answerQuestion. frame. Qed.

Lemma serverFailure_run p req client lim ctx w : ∃ w',
  serverFailure p req client lim ctx w =
    (pack (finalReply p (replyTo req false true RcodeServerFailure) req lim client ctx), w') ∧
  same_world w w'.
Proof. apply pack_run. Qed.

(** *** The way to the resolver *)

(** What a question must pass before anything but the zones is consulted. *)
Definition recursionGranted p (m : Memory T) (client : addr) (req : msg) (q : question) : Prop :=
  m_rd req = true ∧ clientTrusted p client = true ∧ is_Some (activeResolver p) ∧
  nameExistsInZone m (q_name q) (selectView p client req) = false ∧
  isActiveDirectoryQuery (q_name q) = false ∧
  zoneRefuses p m client (q_name q) = false ∧
  q_type q ≠ TypeAXFR ∧ q_type q ≠ TypeIXFR ∧
  RPZ.Evaluate (p_rpz p) (q_name q) = None ∧
  ∀ fw, p_firewall p = Some fw → Firewall.Blocked fw (q_name q) = false.

Definition untouched w w' : Prop := cache w' = cache w ∧ net w' = net w.

Lemma quiet_untouched {A} (m : M T W D C Net A) w : quiet m → untouched w (m w).2.
Proof. intros Hm. by destruct (Hm w) as (?&?&?&_). Qed.

Lemma answer_gate p client req q view lim ctx w :
  untouched w (answerQuestion p client req q view lim ctx w).2 ∨
  (m_rd req = true ∧ clientTrusted p client = true ∧ is_Some (activeResolver p) ∧
   nameExistsInZone (mem (sys w)) (q_name q) view = false ∧
   isActiveDirectoryQuery (q_name q) = false).
Proof.
  unfold answerQuestion, bind at 1. cbn [gets].
  pose proof (resolve_outcome (mem (sys w)) q view) as Ho.
  destruct (resolveQuestion (mem (sys w)) q view) as [[records rcode] fwd].
  destruct Ho as (Hn & _ & Hf). cbv zeta.
  assert (Hl : ∀ resp, untouched w ((let! _ := inc LocalQuery in
    packResponse p resp req lim client ctx) w).2).
  { intros. apply quiet_untouched. auto with frame. }
  destruct (fwd && m_rd req) eqn:Ef; [|left; apply Hl].
  apply andb_true_iff in Ef as [Hfwd Hrd]. apply Hf in Hfwd as [Hrc Had]. apply Hn in Hrc.
  unfold allowRecursion. destruct (clientTrusted p client); cbn [negb].
  - destruct (activeResolver p); [right; eauto 10 | left; apply Hl].
  - left. apply quiet_untouched. auto with frame.
Qed.

Lemma query_gate p client req q lim ctx w :
  untouched w (handleQuery p client req q lim ctx w).2 ∨
  recursionGranted p (mem (sys w)) client req q.
Proof.
  unfold handleQuery, bind at 1, recursionGranted. cbn [gets].
  pose proof (answer_gate p client req q (selectView p client req) lim ctx w) as Ha.
  destruct (zoneRefuses p (mem (sys w)) client (q_name q));
    [left; apply quiet_untouched; auto with frame|].
  destruct (N.eqb_spec (q_type q) TypeAXFR); cbn [orb];
    [left; apply quiet_untouched; auto with frame|].
  destruct (N.eqb_spec (q_type q) TypeIXFR);
    [left; apply quiet_untouched; auto with frame|].
  destruct (RPZ.Evaluate _ _) as [[action target]|];
    [left; apply quiet_untouched; auto with frame|].
  destruct (p_firewall p) as [fw|]; [|naive_solver].
  destruct (Firewall.Blocked fw (q_name q)) eqn:Eb;
    [left; apply quiet_untouched; auto with frame|naive_solver].
Qed.

(** *** Where a reply comes from *)

(** [m] does not look at the cache or the network in the world [w]. *)
Definition heedless_at {A} (m : M T W D C Net A) w : Prop :=
  ∀ c n, m (set_upstream w c n) = ((m w).1, set_upstream (m w).2 c n).

Lemma heedless_at_cache {A} (m : M T W D C Net A) w : heedless_at m w → cache (m w).2 = cache w.
Proof.
  intros H. specialize (H (cache w) (net w)).
  replace (set_upstream w (cache w) (net w)) with w in H by (by destruct w).
  apply (f_equal (λ x, cache x.2)) in H. exact H.
Qed.

Lemma heedless_at_bind {A B} (m : M T W D C Net A) (f : A → M T W D C Net B) w :
  heedless_at m w → heedless_at (f (m w).1) (m w).2 → heedless_at (bind m f) w.
Proof.
  intros Hm Hf c n. unfold bind. rewrite Hm. specialize (Hf c n). by destruct (m w) as [a w1].
Qed.

Lemma heedless_at_store {B} (f : Memory T → M T W D C Net B) w :
  heedless_at (f (mem (sys w))) w → heedless_at (let! m := gets (λ w, mem (sys w)) in f m) w.
Proof. intros H. by apply heedless_at_bind. Qed.

Lemma heedless_here {A} (m : M T W D C Net A) w : heedless m → heedless_at m w.
Proof. intros H c n. apply H. Qed.

(** What a reply is made of: the store and the policies alone, or a recursive
    query of the resolver in force. *)
Definition source p (req : msg) (q : question) client lim ctx (m : M T W D C Net (res string)) w : Prop :=
  heedless_at m w ∨
  ∃ r, activeResolver p = Some r ∧ m w = recursiveQuery p req q client lim ctx r w.

Lemma source_store p req q client lim ctx (f : Memory T → M T W D C Net (res string)) w :
  source p req q client lim ctx (f (mem (sys w))) w →
  source p req q client lim ctx (let! m := gets (λ w, mem (sys w)) in f m) w.
Proof. intros [H|H]; [left; by apply heedless_at_store | right; exact H]. Qed.

Lemma source_local p req q client lim ctx (m : M T W D C Net (res string)) w :
  heedless m → source p req q client lim ctx m w.
Proof. intros H. left. by apply heedless_here. Qed.

Lemma answer_sources p client req q view lim ctx w :
  source p req q client lim ctx (answerQuestion p client req q view lim ctx) w.
Proof.
  unfold answerQuestion. apply source_store.
  destruct (resolveQuestion (mem (sys w)) q view) as [[records rcode] fwd]. cbv zeta.
  destruct (fwd && m_rd req); [|apply source_local; auto with frame].
  destruct (allowRecursion p client); cbn [negb]; [|apply source_local; auto with frame].
  destruct (activeResolver p) as [r|] eqn:Er; [right; eauto | apply source_local; auto with frame].
Qed.

Lemma query_sources p client req q lim ctx w :
  source p req q client lim ctx (handleQuery p client req q lim ctx) w.
Proof.
  unfold handleQuery. apply source_store.
  destruct (zoneRefuses _ _ _ _); [apply source_local; auto with frame|].
  destruct (_ || _); [apply source_local; auto with frame|].
  destruct (RPZ.Evaluate _ _) as [[action target]|]; [apply source_local; auto with frame|].
  destruct (p_firewall p) as [fw|]; [|apply answer_sources].
  destruct (Firewall.Blocked fw (q_name q)); [apply source_local; auto with frame | apply answer_sources].
Qed.

Lemma build_sources p client payload lim w :
  heedless_at (buildResponse (P := P) p client payload lim) w ∨
  ∃ req q rest ctx r w1, unpack payload = Ok req ∧ m_question req = q :: rest ∧
    activeResolver p = Some r ∧ cache w1 = cache w ∧
    buildResponse (P := P) p client payload lim w = recursiveQuery p req q client lim ctx r w1.
Proof.
  unfold buildResponse. destruct (payloadSizeOk payload); cbn [negb]; [|left; apply heedless_here; auto with frame].
  destruct (unpack payload) as [req|e]; [|left; apply heedless_here; auto with frame].
  unfold handleRequest. destruct (queryAllowed p client); cbn [negb];
    [|left; apply heedless_here; auto with frame].
  pose proof (heedless_here _ w (heedless_parse (W := W) (D := D) (C := C) (Net := Net) p req client)) as Hp.
  pose proof (heedless_at_cache _ w Hp) as Hc.
  assert (Hl : ∀ f : cookieContext → M T W D C Net (res string), heedless (f (parseRequestCookie p req client w).1) →
    heedless_at (bind (parseRequestCookie p req client) f) w).
  { intros f Hf. apply heedless_at_bind; [done | by apply heedless_here]. }
  destruct (rejectBadCookie (parseRequestCookie p req client w).1) eqn:Eb;
    [left; apply Hl; rewrite Eb; auto with frame|].
  destruct (m_opcode req =? OpcodeUpdate)%N eqn:Eo; [left; apply Hl; rewrite Eb; auto with frame|].
  destruct (m_question req) as [|q rest] eqn:Eq; [left; apply Hl; rewrite Eb; auto with frame|].
  destruct (query_sources p client req q lim (parseRequestCookie p req client w).1
    (parseRequestCookie p req client w).2) as [Hh|(r & Hr & E)].
  - left. apply heedless_at_bind; [done|]. rewrite Eb. exact Hh.
  - right. do 6 eexists. split_and!; [reflexivity|exact Eq|exact Hr|exact Hc|].
    rewrite <-E. unfold bind. destruct (parseRequestCookie p req client w) as [ctx w1]. cbn [fst snd] in *.
    by rewrite Eb.
Qed.

End lemmas.
#[export] Hint Resolve quiet_blocked quiet_rpz quiet_failure quiet_format_error quiet_count_hit
  readonly_query : frame.

(** ** Specification: what the cache was filled with
    A run of the server: queries answered by processors that validate, and
    anything else happening to zones, clocks, network and cookies between
    them. The cache starts empty, and may be replaced by an empty one. *)
Section provenance.
Context {T : Type → Type} {W D P C Net R V : Type}.
Context {RO : RadixOps T} {MR : MapRange} {SS : SortSlice} {DT : DnsText} {DG : Digest}
  {ZP : ZoneParser} {FS : FileSys W} {KD : KeyDB D} {DC : DnssecCrypto P} {KT : KeyText P}
  {DM : DnsMsg} {TS : Tsig} {RC : Ristretto C cacheEntry} {RL : RistrettoLaws C cacheEntry}
  {ER : ExchangeResolver R Net} {VA : Validator V Net}.
Implicit Types (p : Processor T R V) (w : world T W D C Net).

Definition validates p : Prop := p_dnssecValidation p = true ∧ is_Some (p_validator p).

Inductive served : list (Processor T R V) → world T W D C Net → Prop :=
| served_start w : cache w = None ∨ cache w = Some rc_new → served [] w
| served_query ps w p client payload lim :
    served ps w → validates p → served (p :: ps) (buildResponse (P := P) p client payload lim w).2
| served_other ps w w' :
    served ps w → cache w' = cache w ∨ cache w' = None ∨ cache w' = Some rc_new → served ps w'.

(** [resp] answered a query with this cache key: a processor of the run asked
    its resolver for it, and its validator accepted what came back. *)
Definition vetted (ps : list (Processor T R V)) (key : string) (resp : msg) : Prop :=
  ∃ p r v req q rest client n raw n1 now authenticated n2,
    p ∈ ps ∧ activeResolver p = Some r ∧ p_validator p = Some v ∧ m_question req = q :: rest ∧
    key = CacheKey q (Some req) (ECSCacheContext r client) ∧
    Exchange r req client n = (Ok raw, n1) ∧
    Validate v now raw n1 = (Ok authenticated, n2) ∧
    resp = (if (authenticated : bool) then set_ad raw true else raw).

Definition cache_vetted (ps : list (Processor T R V)) w : Prop :=
  ∀ c key e, cache w = Some c → rc_holds c key e →
    ∃ resp, vetted ps key resp ∧ e_msg e = cloneForwardResponse resp.

Lemma vetted_mono ps p key resp : vetted ps key resp → vetted (p :: ps) key resp.
Proof.
  intros (p0 & r & v & req & q & rest & client & n & raw & n1 & now & b & n2 & Hp & H).
  do 13 eexists. split; [by right | exact H].
Qed.

(** What a recursive query of a validating processor answers with, and what
    it leaves in the cache. *)
Definition owed (ps : list (Processor T R V)) p (req : msg) (q : question) client r (answer : msg) : Prop :=
  answer = replyTo req false true RcodeServerFailure ∨
  ∃ resp, vetted ps (CacheKey q (Some req) (ECSCacheContext r client)) resp ∧
    (answer = relayed resp req ∨ ∃ e, answer = relayed (aged e resp) req).

Lemma upstream_owed ps p req q rest client lim ctx r w :
  validates p → activeResolver p = Some r → m_question req = q :: rest → cache_vetted ps w →
  let '(out, w') := queryUpstream p (CacheKey q (Some req) (ECSCacheContext r client)) req client lim ctx r w in
  cache_vetted (p :: ps) w' ∧
  ∃ answer, out = pack (finalReply p answer req lim client ctx) ∧ owed (p :: ps) p req q client r answer.
Proof.
  intros (Hd & v & Hv) Hr Hq Hc. unfold queryUpstream, bind at 1, inc at 1. unfold bind at 1, exchange at 1.
  assert (Hm : ∀ w' : world T W D C Net, cache w' = cache w → cache_vetted (p :: ps) w').
  { intros w' E c k e Ew Hh. rewrite E in Ew. destruct (Hc c k e Ew Hh) as (resp & Hr' & He).
    eauto using vetted_mono. }
  cbn [net set_stats]. destruct (Exchange r req client (net w)) as [[raw|e] n] eqn:Ex.
  2: { match goal with |- context [serverFailure p req client lim ctx ?w0] =>
         destruct (serverFailure_run p req client lim ctx w0) as (w' & -> & _ & Hc' & _) end.
       split; [by apply Hm|]. eexists. split; [done | by left]. }
  rewrite Hv, Hd. unfold bind at 1, validate at 1. cbn [net unix set_net set_stats].
  destruct (Validate v (unix w) raw n) as [[b|e] n1] eqn:Ev.
  2: { unfold bind at 1, inc at 1. match goal with |- context [serverFailure p req client lim ctx ?w0] =>
         destruct (serverFailure_run p req client lim ctx w0) as (w' & -> & _ & Hc' & _) end.
       split; [by apply Hm|]. eexists. split; [done | by left]. }
  set (resp := if b then set_ad raw true else raw).
  assert (Hvet : vetted (p :: ps) (CacheKey q (Some req) (ECSCacheContext r client)) resp).
  { do 13 eexists. split; [by left|]. eauto 10. }
  assert (Hrun : ∀ w0 : world T W D C Net, cache w0 = cache w →
    let '(out, w') := (let! _ := cacheSet (CacheKey q (Some req) (ECSCacheContext r client)) resp in
      packResponse p (relayed resp req) req lim client ctx) w0 in
    cache_vetted (p :: ps) w' ∧ ∃ answer, out = pack (finalReply p answer req lim client ctx) ∧
      owed (p :: ps) p req q client r answer).
  { intros w0 E0. unfold bind at 1, cacheSet at 1.
    match goal with |- context [packResponse p ?x req lim client ctx ?w0] =>
      destruct (pack_run p x req lim client ctx w0) as (w' & -> & _ & Hc' & _) end.
    split; [|eexists; split; [done|]; right; eauto].
    intros c k e Ew Hh. rewrite Hc' in Ew. cbn [cache set_cache] in Ew. rewrite E0 in Ew.
    destruct (cache w) as [c0|] eqn:Ec; [|done].
    destruct (set_holds _ _ _ _ _ _ _ Ew Hh) as [(-> & -> & _)|Hold]; [by exists resp|].
    destruct (Hc c0 k e Ec Hold) as (x & Hx & He). eauto using vetted_mono. }
  destruct b; apply Hrun; done.
Qed.

Lemma recursive_owed ps p req q rest client lim ctx r w :
  validates p → activeResolver p = Some r → m_question req = q :: rest → cache_vetted ps w →
  let '(out, w') := recursiveQuery p req q client lim ctx r w in
  cache_vetted (p :: ps) w' ∧
  ∃ answer, out = pack (finalReply p answer req lim client ctx) ∧ owed (p :: ps) p req q client r answer.
Proof.
  intros Hp Hr Hq Hc. unfold recursiveQuery, bind at 1. cbn [gets].
  destruct (cache w) as [c|] eqn:Ec; [|by apply (upstream_owed ps p req q rest)].
  unfold bind at 1, cacheGet at 1. rewrite Ec.
  destruct (Get (Some c) (mono w) _) as [[m|] c'] eqn:Eg.
  - set (key := CacheKey q (Some req) (ECSCacheContext r client)) in *.
    assert (Hc' : cache_vetted (p :: ps) (set_cache w c')).
    { intros c1 k e Ew Hh. cbn [cache set_cache] in Ew. subst c'.
      pose proof (get_holds c (mono w) key c1 k e) as Hg. rewrite Eg in Hg.
      destruct (Hc c k e Ec (Hg eq_refl Hh)) as (x & Hx & He). eauto using vetted_mono. }
    unfold bind at 1. pose proof (quiet_count_hit (W := W) (D := D) (C := C) (Net := Net) (T := T) m (set_cache w c')) as Hq1.
    destruct (countHit m (set_cache w c')) as [[] w1]. cbn [snd] in Hq1. destruct Hq1 as (_ & Hc1 & _).
    match goal with |- context [packResponse p ?x req lim client ctx ?w0] =>
      destruct (pack_run p x req lim client ctx w0) as (w' & -> & _ & Hc2 & _) end.
    split; [intros c1 k e Ew; apply Hc'; congruence|].
    eexists. split; [done|]. right.
    destruct (get_some _ _ _ _ _ Eg) as (entry & Hh & _ & Ha).
    destruct (Hc c key entry Ec Hh) as (resp & Hv & He). rewrite He in Ha.
    apply adjustRecordTTLs_spec in Ha as [_ ->]. exists resp. split; [by apply vetted_mono | eauto].
  - set (key := CacheKey q (Some req) (ECSCacheContext r client)) in *.
    unfold bind at 1, inc at 1. apply (upstream_owed ps p req q rest); try done.
    intros c1 k e Ew Hh. cbn [cache set_cache set_stats] in Ew. subst c'.
    pose proof (get_holds c (mono w) key c1 k e) as Hg. rewrite Eg in Hg. apply (Hc c k e Ec (Hg eq_refl Hh)).
Qed.

Lemma served_vetted ps w : served ps w → cache_vetted ps w.
Proof.
  induction 1 as [w Hc|ps w p client payload lim _ IH Hp|ps w w' _ IH Hc].
  - intros c k e Ew Hh. destruct Hc as [Hc|Hc]; rewrite Hc in Ew; [done|]. injection Ew as <-.
    by apply rc_new_holds in Hh.
  - destruct (build_sources (P := P) p client payload lim w) as [Hh|(req & q & rest & ctx & r & w1 & _ & Hq & Hr & Hc & ->)].
    + intros c k e Ew Hhold. rewrite (heedless_at_cache _ _ Hh) in Ew.
      destruct (IH c k e Ew Hhold) as (x & Hx & He). eauto using vetted_mono.
    + pose proof (recursive_owed ps p req q rest client lim ctx r w1 Hp Hr Hq) as H.
      destruct (recursiveQuery _ _ _ _ _ _ _ _) as [out w']. apply H.
      intros c k e Ew. apply IH. congruence.
  - intros c k e Ew Hh. destruct Hc as [Hc|[Hc|Hc]]; rewrite Hc in Ew; [by eapply IH|done|].
    injection Ew as <-. by apply rc_new_holds in Hh.
Qed.

End provenance.

(** What every frame written keeps of the connection, the handler keeps. *)
Lemma handle_tcp_keeps {T W D P C Net R V K} `{RadixOps T} `{MapRange} `{SortSlice} `{DnsText} `{Digest}
    `{ZoneParser} `{FileSys W} `{KeyDB D} `{DnssecCrypto P} `{KeyText P} `{DnsMsg} `{Tsig}
    `{Ristretto C cacheEntry} `{ExchangeResolver R Net} `{Validator V Net} `{FrameWriter K}
    (I : K → Prop) (p : Processor T R V) client payload k (w : world T W D C Net) :
  (∀ data k, I k → I (writeFrame data k).2) → I k → I (HandleTCP (P := P) p client payload k w).1.2.
Proof.
  intros Hw Hk. revert w. change (keeps I (HandleTCP (P := P) (W := W) (D := D) (C := C) p client payload k)).
  unfold HandleTCP. destruct (payloadSizeOk payload); [|by apply keeps_ret].
  destruct (unpack payload) as [req|e]; [|by apply keeps_ret]. cbn [negb].
  apply keeps_bind. intros ctx. destruct (rejectBadCookie ctx).
  { apply keeps_bind. intros packed. by apply keeps_write. }
  destruct (_ =? OpcodeUpdate)%N; [apply keeps_bind; intros packed; by apply keeps_write|].
  destruct (m_question req) as [|q qs]; [apply keeps_bind; intros packed; by apply keeps_write|].
  destruct (_ || _); [by apply keeps_transfer|]. apply keeps_bind. intros packed. by apply keeps_write.
Qed.

(** * Properties *)
Section properties.
Context {T : Type → Type} {W D P C Net R V K : Type}.
Context {RO : RadixOps T} {RL : RadixLaws T} {MR : MapRange} {SS : SortSlice} {DT : DnsText}
  {DG : Digest} {ZP : ZoneParser} {FS : FileSys W} {KD : KeyDB D} {DC : DnssecCrypto P}
  {KT : KeyText P} {DM : DnsMsg} {TS : Tsig} {RC : Ristretto C cacheEntry}
  {ER : ExchangeResolver R Net} {VA : Validator V Net}.
Implicit Types (p : Processor T R V) (w : world T W D C Net).

(** C7: this server is no open resolver: answering a query consults the
    cache, the resolver or the validator only if the client passes the query
    lists and may recurse, asks for recursion, the name is in no tree of its
    view, is no Active Directory name, is matched by no response policy and
    blocked by no list, the zone of the name does not refuse the client, and
    the query is neither a transfer nor an update. *)
Theorem recursion_gate p client payload lim w r w' :
  buildResponse (P := P) p client payload lim w = (r, w') →
  cache w' ≠ cache w ∨ net w' ≠ net w →
  ∃ req q rest, unpack payload = Ok req ∧ m_question req = q :: rest ∧
    queryAllowed p client = true ∧ m_opcode req ≠ OpcodeUpdate ∧
    recursionGranted p (mem (sys w)) client req q.
Proof.
  intros E Hc.
  assert (Hu : ∀ m : M T W D C Net (res string), offline m → m w = (r, w') → False).
  { intros m Hm Em. specialize (Hm w). rewrite Em in Hm. naive_solver. }
  revert E. unfold buildResponse.
  destruct (payloadSizeOk payload); cbn [negb]; [|intros E; exfalso; eapply Hu, E; auto with frame].
  destruct (unpack payload) as [req|] eqn:Eu; [|intros E; exfalso; eapply Hu, E; auto with frame].
  unfold handleRequest. destruct (queryAllowed p client) eqn:Eq; cbn [negb];
    [|intros E; exfalso; eapply Hu, E; auto with frame].
  pose proof (quiet_parse (W := W) (D := D) (C := C) (Net := Net) p req client w) as Hq.
  unfold bind at 1. destruct (parseRequestCookie p req client w) as [ctx w1]. cbn [snd] in Hq.
  destruct Hq as (Hsys & Hca & Hne & _). rewrite <-Hca, <-Hne in Hc.
  assert (Hu1 : ∀ m : M T W D C Net (res string), offline m → m w1 = (r, w') → False).
  { intros m Hm Em. specialize (Hm w1). rewrite Em in Hm. naive_solver. }
  destruct (rejectBadCookie ctx); [intros E; exfalso; eapply Hu1, E; auto with frame|].
  destruct (N.eqb_spec (m_opcode req) OpcodeUpdate);
    [intros E; exfalso; eapply Hu1, E; auto with frame|].
  destruct (m_question req) as [|q rest] eqn:Eqs;
    [intros E; exfalso; eapply Hu1, E; auto with frame|].
  intros E. destruct (query_gate p client req q lim ctx w1) as [Hun|Hg].
  - rewrite E in Hun. destruct Hun. naive_solver.
  - rewrite Hsys in Hg. eauto 10.
Qed.

(** a query never changes a zone, a file or a key and sends no NOTIFY:
    only an UPDATE message from a client that passes the query lists may. *)
Theorem query_readonly p client payload lim w r w' :
  buildResponse (P := P) p client payload lim w = (r, w') →
  sys w' ≠ sys w ∨ sent w' ≠ sent w →
  ∃ req, unpack payload = Ok req ∧ m_opcode req = OpcodeUpdate ∧ queryAllowed p client = true.
Proof.
  intros E Hc.
  assert (Hr : ∀ m : M T W D C Net (res string), readonly m → m w = (r, w') → False).
  { intros m Hm Em. specialize (Hm w). rewrite Em in Hm. naive_solver. }
  revert E. unfold buildResponse.
  destruct (payloadSizeOk payload); cbn [negb]; [|intros E; exfalso; eapply Hr, E; auto with frame].
  destruct (unpack payload) as [req|]; [|intros E; exfalso; eapply Hr, E; auto with frame].
  unfold handleRequest. destruct (queryAllowed p client); cbn [negb];
    [|intros E; exfalso; eapply Hr, E; auto with frame].
  destruct (N.eqb_spec (m_opcode req) OpcodeUpdate); [by eauto|].
  intros E. exfalso. eapply Hr, E. apply readonly_bind; [auto with frame|]. intros ctx.
  destruct (rejectBadCookie ctx); [auto with frame|].
  destruct (m_question req); auto with frame.
Qed.

(** a client the query lists exclude gets REFUSED, with a cookie if it
    sent one, for whatever it asks, an UPDATE included, and nothing but
    counters changes. *)
Theorem excluded_client_refused p client payload lim w req :
  payloadSizeOk payload = true → unpack payload = Ok req → queryAllowed p client = false →
  let '(r, w') := buildResponse (P := P) p client payload lim w in
  same_world w w' ∧
  r = pack (finalReply p (replyTo req false true RcodeRefused) req lim client
              (parseRequestCookie p req client w).1).
Proof.
  intros Hs Hu Hq. unfold buildResponse. rewrite Hs, Hu. cbn [negb].
  unfold handleRequest. rewrite Hq. cbn [negb]. unfold bind.
  pose proof (quiet_parse (W := W) (D := D) (C := C) (Net := Net) p req client w) as Hp.
  destruct (parseRequestCookie p req client w) as [ctx w1]; cbn [fst snd] in *.
  pose proof (acl_refused_result p req lim client ctx w1) as Hr.
  pose proof (quiet_acl_refused (W := W) (D := D) (C := C) (Net := Net) p req lim client ctx w1) as Hw.
  destruct (queryACLRefusedResponse _ _ _ _ _ _) as [r w2]; cbn [fst snd] in *.
  split; [by etrans | done].
Qed.

(** A bogus answer, like a failed exchange, becomes SERVFAIL and leaves the
    cache alone; a validated one is relayed, marked authenticated if it was
    proved so, and cached under the key of the question. *)
Lemma bogus_answer_refused p v key req client lim ctx r w :
  p_validator p = Some v → p_dnssecValidation p = true →
  let '(out, w') := queryUpstream p key req client lim ctx r w in
  let reply resp := pack (finalReply p resp req lim client ctx) in
  let servfail := reply (replyTo req false true RcodeServerFailure) in
  match Exchange r req client (net w) with
  | (Err _, n) => out = servfail ∧ cache w' = cache w ∧ net w' = n
  | (Ok resp, n) =>
      match Validate v (unix w) resp n with
      | (Err _, n) => out = servfail ∧ cache w' = cache w ∧ net w' = n
      | (Ok authenticated, n) =>
          let resp := if (authenticated : bool) then set_ad resp true else resp in
          out = reply (relayed resp req) ∧ net w' = n ∧
          cache w' = Set_ (cache w) (mono w) key (Some resp)
      end
  end.
Proof.
  intros Hv Hd. unfold queryUpstream, bind at 1, inc at 1. unfold bind at 1, exchange at 1.
  cbn [net set_stats]. destruct (Exchange r req client (net w)) as [[resp|e] n].
  2: { match goal with |- context [serverFailure p req client lim ctx ?w0] =>
         destruct (serverFailure_run p req client lim ctx w0) as (w' & -> & _ & Hc & Hn & _) end.
       done. }
  rewrite Hv, Hd. unfold bind at 1, validate at 1. cbn [net unix set_net set_stats].
  destruct (Validate v (unix w) resp n) as [[b|e] n1].
  - destruct b; unfold bind at 1, cacheSet at 1;
      match goal with |- context [packResponse p ?x req lim client ctx ?w0] =>
        destruct (pack_run p x req lim client ctx w0) as (w' & -> & _ & Hc & Hn & _) end;
      done.
  - unfold bind at 1, inc at 1.
    match goal with |- context [serverFailure p req client lim ctx ?w0] =>
      destruct (serverFailure_run p req client lim ctx w0) as (w' & -> & _ & Hc & Hn & _) end.
    done.
Qed.

(** C12: while validation is on, a client never sees an answer of the resolver
    that has not passed the validator, not even out of the cache. In any run
    that starts from an empty cache (or none) and in which every query is
    answered by a validating processor, whatever else changes between the
    queries, the reply to the next query either owes nothing to resolver and
    cache (it is the same whatever these hold), or is SERVFAIL, or relays a
    message some processor of the run got from its resolver for a query with
    the same cache key and its validator accepted: as it came, with the
    authenticated bit if it was proved so, or with its TTLs reduced by the
    seconds since. The run begins with the first query after validation was
    switched on over an empty cache: switching it on does not empty the cache. *)
Theorem bogus_answers_dropped {RTL : RistrettoLaws C cacheEntry} ps p client payload lim out w w' :
  served (P := P) ps w → validates p →
  buildResponse (P := P) p client payload lim w = (out, w') →
  (∀ c n, (buildResponse (P := P) p client payload lim (set_upstream w c n)).1 = out) ∨
  ∃ req q rest r ctx answer,
    unpack payload = Ok req ∧ m_question req = q :: rest ∧ activeResolver p = Some r ∧
    out = pack (finalReply p answer req lim client ctx) ∧
    (answer = replyTo req false true RcodeServerFailure ∨
     ∃ resp, vetted (p :: ps) (CacheKey q (Some req) (ECSCacheContext r client)) resp ∧
       (answer = relayed resp req ∨ ∃ e, answer = relayed (aged e resp) req)).
Proof.
  intros Hs%served_vetted Hp E.
  destruct (build_sources (P := P) p client payload lim w)
    as [Hh|(req & q & rest & ctx & r & w1 & Hu & Hq & Hr & Hc & Eb)].
  - left. intros c n. by rewrite Hh, E.
  - right. rewrite Eb in E.
    pose proof (recursive_owed ps p req q rest client lim ctx r w1 Hp Hr Hq) as H. rewrite E in H.
    destruct H as [_ (answer & Ho & Hans)]; [intros c k e Ew; apply Hs; congruence|].
    by exists req, q, rest, r, ctx, answer.
Qed.

(** policy comes before data: for a query that is no transfer and whose
    zone does not refuse the client, a matching response policy alone decides
    the reply (nothing at all for DROP), else a block list does; neither the
    zones, nor the cache, nor the network are looked at. *)
Theorem policy_before_data p client req q lim ctx w :
  zoneRefuses p (mem (sys w)) client (q_name q) = false →
  q_type q ≠ TypeAXFR → q_type q ≠ TypeIXFR →
  let '(out, w') := handleQuery p client req q lim ctx w in
  let reply resp := pack (finalReply p resp req lim client ctx) in
  match RPZ.Evaluate (p_rpz p) (q_name q), p_firewall p with
  | Some (action, target), _ =>
      same_world w w' ∧
      out = match rpzReply req q action target with
            | None => Err ErrPolicyDrop | Some resp => reply resp end
  | None, Some fw =>
      Firewall.Blocked fw (q_name q) = true →
      same_world w w' ∧ out = reply (blockedReply fw req q)
  | None, None => True
  end.
Proof.
  intros Hz Ha Hi. unfold handleQuery, bind at 1. cbn [gets]. rewrite Hz.
  rewrite (proj2 (N.eqb_neq _ _) Ha), (proj2 (N.eqb_neq _ _) Hi). cbn [orb].
  destruct (RPZ.Evaluate _ _) as [[action target]|].
  - unfold rpzResponse, bind at 1, inc at 1. destruct (rpzReply req q action target) as [resp|].
    + match goal with |- context [packResponse p ?x req lim client ctx ?w0] =>
        destruct (pack_run p x req lim client ctx w0) as (w' & -> & Hs) end.
      by split.
    + by split.
  - destruct (p_firewall p) as [fw|].
    + destruct (Firewall.Blocked fw (q_name q)); [|by destruct (answerQuestion _ _ _ _ _ _ _ _)].
      unfold blockedResponse, bind at 1, inc at 1.
      match goal with |- context [packResponse p ?x req lim client ctx ?w0] =>
        destruct (pack_run p x req lim client ctx w0) as (w' & -> & Hs) end.
      by split.
    + by destruct (answerQuestion _ _ _ _ _ _ _ _).
Qed.

End properties.

(** ** Behaviour to know *)

(** Whatever response code a resolver or the cache answers with, the client
    is told NOERROR: [SetReply] resets it after the exchange. An upstream
    NXDOMAIN reaches the client as an empty success. *)
Theorem upstream_rcode_lost {T R V} `{DL : DnsMsgLaws} (p : Processor T R V) resp req lim client ctx :
  m_rcode (finalReply p (relayed resp req) req lim client ctx) = RcodeSuccess.
Proof. rewrite finalReply_rcode. cbn [relayed m_rcode set_ra]. apply set_reply_rcode. Qed.

(** The OPT record of an upstream answer is relayed to a client that sent
    none. *)
Theorem upstream_opt_leaks {T R V} `{DL : DnsMsgLaws} (p : Processor T R V) resp req client ctx :
  is_edns0 req = None →
  m_extra (finalReply p (relayed resp req) req false client ctx) = m_extra resp.
Proof.
  intros Hn. unfold finalReply, ednsReply. rewrite Hn. cbn [m_extra set_compress relayed set_ra].
  apply set_reply_extra.
Qed.

(** Over TCP an UPDATE is handled without a look at the query lists that
    refuse it over UDP. *)
Theorem tcp_update_skips_query_lists {T W D P C Net R V K}
    `{RO : RadixOps T, MR : MapRange, SS : SortSlice, DT : DnsText, DG : Digest, ZP : ZoneParser,
      FS : FileSys W, KD : KeyDB D, DC : DnssecCrypto P, KT : KeyText P, DM : DnsMsg, TS : Tsig,
      RC : Ristretto C cacheEntry, ER : ExchangeResolver R Net, VA : Validator V Net,
      FW : FrameWriter K}
    (p : Processor T R V) client payload req (k : K) (w : world T W D C Net) :
  payloadSizeOk payload = true → unpack payload = Ok req → m_opcode req = OpcodeUpdate →
  p_cookies p = None →
  HandleTCP (P := P) p client payload k w =
    (let! packed := handleDynamicUpdate (P := P) p client req payload false noCookie in
     ret (writePacked packed k)) w.
Proof.
  intros Hs Hu Ho Hc. unfold HandleTCP. rewrite Hs, Hu. cbn [negb].
  unfold bind at 1, parseRequestCookie. rewrite Hc. cbn [ret rejectBadCookie noCookie].
  by rewrite (proj2 (N.eqb_eq _ _) Ho).
Qed.

(** * Witnesses *)

(** A wire format that carries one request, a network that counts. *)
Definition demo_wire (req : msg) : DnsMsg :=
  {| unpack s := Ok req; pack m := Ok "reply"; truncate := truncate (DnsMsg := demo_dns_msg);
     set_reply := set_reply (DnsMsg := demo_dns_msg);
     edns_index := edns_index (DnsMsg := demo_dns_msg);
     set_edns0 := set_edns0 (DnsMsg := demo_dns_msg);
     opt_udp_size := opt_udp_size (DnsMsg := demo_dns_msg);
     opt_do := opt_do (DnsMsg := demo_dns_msg);
     opt_set_udp_size := opt_set_udp_size (DnsMsg := demo_dns_msg);
     opt_set_do := opt_set_do (DnsMsg := demo_dns_msg) |}.
#[export] Instance demo_resolver : ExchangeResolver unit nat | 100 := {|
  Exchange r req client n := (Ok demo_answer, S n);
  ECSCacheContext r client := MkECS false client 24 56
|}.
#[export] Instance demo_validator : Validator unit nat | 100 :=
  {| Validate v now resp n := (Ok true, S n) |}.

Definition demo_recursive : Processor gtree unit unit :=
  MkProcessor (Some ()) None "" (Some is_loopback) None None None true (Some ()) None ∅ "/zones"
    false None None None.
Definition demo_query : msg :=
  set_rd (set_question new_msg [Question "www.example.org." TypeA ClassINET]) true.
Definition demo_query_world : world gtree ram key_table (gmap string cacheEntry) nat :=
  World demo_created (Some ∅) 0 0 (Some []) 0 [].
Definition demo_payload := "0123456789ab".
Definition demo_built :=
  buildResponse (P := string) (DM := demo_wire demo_query) demo_recursive (A4 2130706433)
    demo_payload true demo_query_world.

Lemma recursion_gate_witness :
  ∃ req q rest, unpack (DnsMsg := demo_wire demo_query) demo_payload = Ok req ∧
    m_question req = q :: rest ∧
    queryAllowed demo_recursive (A4 2130706433) = true ∧ m_opcode req ≠ OpcodeUpdate ∧
    recursionGranted (DM := demo_wire demo_query) demo_recursive (mem (sys demo_query_world))
      (A4 2130706433) req q.
Proof.
  pose proof (recursion_gate (P := string) (DM := demo_wire demo_query) demo_recursive
    (A4 2130706433) demo_payload true demo_query_world demo_built.1 demo_built.2) as H.
  fold demo_built in H. apply (H (pair_eta _)). right. vm_compute. discriminate.
Defined.

Definition demo_update_msg : msg :=
  let m := demo_update_request in
  Msg 7 false OpcodeUpdate false false false false false false 0 false
    (m_question m) (m_answer m) (m_ns m) (m_extra m).
Definition demo_update_world' : world gtree ram key_table (gmap string cacheEntry) nat :=
  World demo_created None 0 0 (Some []) 0 [].
Definition demo_update_built :=
  buildResponse (P := string) (DM := demo_wire demo_update_msg) demo_updater (A4 1) demo_payload
    true demo_update_world'.

Lemma query_readonly_witness :
  ∃ req, unpack (DnsMsg := demo_wire demo_update_msg) demo_payload = Ok req ∧
    m_opcode req = OpcodeUpdate ∧ queryAllowed demo_updater (A4 1) = true.
Proof.
  pose proof (query_readonly (P := string) (DM := demo_wire demo_update_msg) demo_updater (A4 1)
    demo_payload true demo_update_world' demo_update_built.1 demo_update_built.2) as H.
  fold demo_update_built in H. apply (H (pair_eta _)). right. vm_compute. discriminate.
Defined.

Definition demo_closed : Processor gtree unit unit :=
  MkProcessor None None "" None
    (Some (Some (Access.Snapshot true false [] [Prefix (A4 3232235520) 16]))) None None false None
    None ∅ "/zones" false None None None.
Definition demo_excluded :=
  buildResponse (P := string) (DM := demo_wire demo_query) demo_closed (A4 3232235777)
    demo_payload true demo_query_world.

Lemma excluded_client_refused_witness :
  same_world demo_query_world demo_excluded.2 ∧
  demo_excluded.1 = pack (DnsMsg := demo_wire demo_query)
    (finalReply (DM := demo_wire demo_query) demo_closed
       (replyTo (DM := demo_wire demo_query) demo_query false true RcodeRefused) demo_query true
       (A4 3232235777)
       (parseRequestCookie (DM := demo_wire demo_query) demo_closed demo_query (A4 3232235777)
          demo_query_world).1).
Proof.
  pose proof (excluded_client_refused (P := string) (DM := demo_wire demo_query) demo_closed
    (A4 3232235777) demo_payload true demo_query_world demo_query
    eq_refl eq_refl ltac:(by vm_compute)) as H.
  fold demo_excluded in H. rewrite (pair_eta demo_excluded) in H. exact H.
Defined.

Lemma bogus_answers_dropped_witness :
  cache demo_built.2 ≠ cache demo_query_world ∧
  let '(out, _) := buildResponse (P := string) (DM := demo_wire demo_query) demo_recursive
    (A4 2130706433) demo_payload true demo_built.2 in
  (∀ c n, (buildResponse (P := string) (DM := demo_wire demo_query) demo_recursive (A4 2130706433)
     demo_payload true (set_upstream demo_built.2 c n)).1 = out) ∨
  ∃ req q rest r ctx answer,
    unpack (DnsMsg := demo_wire demo_query) demo_payload = Ok req ∧ m_question req = q :: rest ∧
    activeResolver demo_recursive = Some r ∧
    out = pack (DnsMsg := demo_wire demo_query)
      (finalReply (DM := demo_wire demo_query) demo_recursive answer req true (A4 2130706433) ctx) ∧
    (answer = replyTo (DM := demo_wire demo_query) req false true RcodeServerFailure ∨
     ∃ resp, vetted (DM := demo_wire demo_query) [demo_recursive; demo_recursive]
         (CacheKey (DM := demo_wire demo_query) q (Some req) (ECSCacheContext r (A4 2130706433))) resp ∧
       (answer = relayed (DM := demo_wire demo_query) resp req ∨
        ∃ e, answer = relayed (DM := demo_wire demo_query) (aged e resp) req)).
Proof.
  assert (Hv : validates demo_recursive) by (split; [reflexivity | by eexists]).
  split; [vm_compute; discriminate|].
  destruct (buildResponse (P := string) (DM := demo_wire demo_query) demo_recursive (A4 2130706433)
    demo_payload true demo_built.2) as [out w'] eqn:E.
  apply (bogus_answers_dropped (P := string) (DM := demo_wire demo_query) [demo_recursive] demo_recursive
    (A4 2130706433) demo_payload true out demo_built.2 w'); [|exact Hv|exact E].
  apply (served_query (P := string) (DM := demo_wire demo_query) []); [|exact Hv].
  apply served_start. right. vm_compute. reflexivity.
Defined.

Definition demo_rpz : res (RPZ.Engine (T := gtree)) :=
  RPZ.AddPolicy (Some RPZ.New) "ads.example" "DROP" "".
Definition demo_filtering : Processor gtree unit unit :=
  MkProcessor None None "" None None None
    (Some (from_ok RPZ.New demo_rpz)) false None None ∅ "/zones" false None None None.
Definition demo_dropped :=
  handleQuery (DM := demo_wire demo_query) demo_filtering (A4 1) demo_query
    (Question "ads.example." TypeA ClassINET) true noCookie demo_query_world.

Lemma policy_before_data_witness :
  RPZ.Evaluate (p_rpz demo_filtering) "ads.example." = Some ("DROP", "") ∧
  same_world demo_query_world demo_dropped.2 ∧ demo_dropped.1 = Err ErrPolicyDrop.
Proof.
  assert (E : RPZ.Evaluate (p_rpz demo_filtering) "ads.example." = Some ("DROP", ""))
    by by vm_compute.
  assert (Hz : zoneRefuses demo_filtering (mem (sys demo_query_world)) (A4 1) "ads.example." = false)
    by by vm_compute.
  split; [exact E|].
  pose proof (policy_before_data (DM := demo_wire demo_query) demo_filtering (A4 1) demo_query
    (Question "ads.example." TypeA ClassINET) true noCookie demo_query_world Hz) as H.
  specialize (H ltac:(discriminate) ltac:(discriminate)).
  fold demo_dropped in H. rewrite (pair_eta demo_dropped) in H. cbn [q_name] in H.
  rewrite E in H. destruct H as [H1 H2]. split; [exact H1 | exact H2].
Defined.

Lemma upstream_opt_leaks_witness :
  m_extra (finalReply demo_filtering (relayed demo_opt_answer demo_query) demo_query false (A4 1)
    noCookie) = m_extra demo_opt_answer.
Proof. apply (upstream_opt_leaks demo_filtering). reflexivity. Defined.

End Proc.
