(* ===== verification/RateLimit.v ===== *)
(** * Rate limiting: internal/network/rrl.go

    A token bucket for each client address. The buckets are those of
    golang.org/x/time/rate, an interface with the law of a token bucket; an
    address whose bucket has long been idle is forgotten. Times are in
    nanoseconds; the clock stands still during one call. *)
From S2P Require Import Prelude Telemetry NetAddr Config.
Import Counters.

(** [rate.Limiter]: [NewLimiter] of a rate per second and a burst, and [Allow]
    at a time. *)
Class Limiter (L : Type) := {
  new_limiter : Z → Z → L;
  lim_allow : N → L → bool * L
}.

(** The verdicts at a list of times, and the state after them. *)
Fixpoint run_limiter `{Limiter L} (l : L) (times : list N) : list bool * L :=
  match times with
  | [] => ([], l)
  | t :: times =>
      let '(ok, l) := lim_allow t l in
      let '(oks, l) := run_limiter l times in (ok :: oks, l)
  end.

(** A bucket that has been idle for as long as it takes to fill it acts like a
    new one. *)
Class LimiterLaws L `{Limiter L} : Prop := {
  limiter_refill : ∀ limit burst times t idle,
    (1 ≤ limit)%Z → (1 ≤ burst)%Z →
    StronglySorted N.le times → Forall (λ x, x + idle ≤ t)%N times →
    (burst * 1000000000 ≤ limit * Z.of_N idle)%Z →
    lim_allow t (run_limiter (new_limiter limit burst) times).2 =
      lim_allow t (new_limiter limit burst)
}.

Module RRL.

Definition rrlCleanupInterval := 300000000000%N.
Definition rrlEntryIdleTTL := 600000000000%N.

Section limiter.
Context {L : Type} {LI : Limiter L}.

Record rrlEntry := MkEntry { limiter : L; lastSeen : N }.

(** [counts]: the statistics are set; [cleaning]: the cleanup goroutine runs. *)
Record RateLimiter := MkRateLimiter {
  enabled : bool; limit : Z; burst : Z; counts : bool; entries : gmap addr rrlEntry; cleaning : bool
}.
Definition with_entries (m : gmap addr rrlEntry) (r : RateLimiter) : RateLimiter :=
  MkRateLimiter (enabled r) (limit r) (burst r) (counts r) m (cleaning r).

Definition NewRateLimiter (cfg : Config.RateLimitConfig) (counts : bool) : RateLimiter :=
  MkRateLimiter (Config.rlEnabled cfg) (Config.RequestsPerSecond cfg) (Config.Burst cfg) counts ∅
    (Config.rlEnabled cfg).

Definition Allow (a : addr) (now : N) (r : RateLimiter) : bool * list counter * RateLimiter :=
  if negb (enabled r) || negb (is_valid a) then (true, [], r)
  else
    let e := match entries r !! a with
             | Some e => e
             | None => MkEntry (new_limiter (limit r) (burst r)) now
             end in
    let '(ok, l) := lim_allow now (limiter e) in
    (ok, if negb ok && counts r then [RRLDropped] else [],
     with_entries (<[a := MkEntry l now]> (entries r)) r).

Definition Reconfigure (cfg : Config.RateLimitConfig) (r : option RateLimiter) : option RateLimiter :=
  match r with
  | None => None
  | Some r =>
      Some (MkRateLimiter (Config.rlEnabled cfg)
        (if (0 <? Config.RequestsPerSecond cfg)%Z then Config.RequestsPerSecond cfg else limit r)
        (if (0 <? Config.Burst cfg)%Z then Config.Burst cfg else burst r)
        (counts r) (entries r) (cleaning r))
  end.

(** [lastSeen < now - 10min] on signed integers. *)
Definition expired (now : N) (e : rrlEntry) : bool := (lastSeen e + rrlEntryIdleTTL <? now)%N.
Definition sweep (now : N) (r : RateLimiter) : RateLimiter :=
  with_entries (filter (λ kv, expired now kv.2 = false) (entries r)) r.

(** [Close] ends the cleanup goroutine. *)
Definition Close (r : RateLimiter) : RateLimiter :=
  MkRateLimiter (enabled r) (limit r) (burst r) (counts r) (entries r) false.

(** A tick of the cleanup goroutine does nothing once it has ended. *)
Inductive event := Request (a : addr) (t : N) | Tick (t : N).
Definition event_time (e : event) : N := match e with Request _ t | Tick t => t end.

Definition handle (r : RateLimiter) (e : event) : option (addr * bool) * RateLimiter :=
  match e with
  | Request a t => let '(ok, _, r) := Allow a t r in (Some (a, ok), r)
  | Tick t => (None, if cleaning r then sweep t r else r)
  end.

Fixpoint run (r : RateLimiter) (es : list event) : list (addr * bool) * RateLimiter :=
  match es with
  | [] => ([], r)
  | e :: es =>
      let '(v, r) := handle r e in
      let '(vs, r) := run r es in
      (match v with Some v => v :: vs | None => vs end, r)
  end.
End limiter.
Arguments rrlEntry : clear implicits.
Arguments RateLimiter : clear implicits.

(** * Lemmas *)
Section lemmas.
Context {L : Type} {LI : Limiter L} {LL : LimiterLaws L}.
Implicit Types (r : RateLimiter L) (a : addr) (es : list event).

(** The times of one client, and its verdicts. *)
Definition times_of a es : list N :=
  omap (λ e, match e with Request b t => if decide (b = a) then Some t else None | Tick _ => None end) es.
Definition verdicts_of a (vs : list (addr * bool)) : list bool :=
  omap (λ v, if decide (v.1 = a) then Some v.2 else None) vs.

Lemma run_limiter_snoc (l : L) times t :
  run_limiter l (times ++ [t]) =
    let '(oks, l) := run_limiter l times in
    let '(ok, l) := lim_allow t l in (oks ++ [ok], l).
Proof.
  revert l. induction times as [|x times IH]; intros l; cbn [run_limiter app].
  - by destruct (lim_allow t l).
  - destruct (lim_allow x l) as [ok l1]. rewrite IH. destruct (run_limiter l1 times) as [oks l2].
    by destruct (lim_allow t l2).
Qed.

(** What an entry says of the bucket the client would have alone, whose
    requests so far are [past]: it is that bucket, or it is gone and the
    bucket has filled up. *)
Definition tracks r (now : N) a (past : list N) : Prop :=
  StronglySorted N.le past ∧ Forall (λ t, t ≤ now)%N past ∧
  match entries r !! a with
  | Some e => Forall (λ t, t ≤ lastSeen e)%N past ∧
      limiter e = (run_limiter (new_limiter (limit r) (burst r)) past).2
  | None => Forall (λ t, t + rrlEntryIdleTTL ≤ now)%N past
  end.

Lemma refilled r now t past : (1 ≤ limit r)%Z → (1 ≤ burst r)%Z → (burst r ≤ 600 * limit r)%Z →
  StronglySorted N.le past → Forall (λ t, t + rrlEntryIdleTTL ≤ now)%N past → (now ≤ t)%N →
  lim_allow t (run_limiter (new_limiter (limit r) (burst r)) past).2 =
    lim_allow t (new_limiter (limit r) (burst r)).
Proof.
  intros Hl Hb Hf Hs HF Ht. apply (limiter_refill _ _ _ _ rrlEntryIdleTTL); [done..| |].
  - eapply Forall_impl; [exact HF|]. cbn. lia.
  - unfold rrlEntryIdleTTL. lia.
Qed.

Lemma sorted_snoc (l : list N) t : StronglySorted N.le l → Forall (λ x, x ≤ t)%N l →
  StronglySorted N.le (l ++ [t]).
Proof.
  induction l as [|x l IH]; cbn [app]; [by repeat constructor|].
  intros Hs%StronglySorted_inv [Hx Hl]%Forall_cons. destruct Hs as [Hs Hle].
  constructor; [by apply IH|]. apply Forall_app. split; [done|by constructor].
Qed.

Lemma tracks_later r now t a past : tracks r now a past → (now ≤ t)%N → tracks r t a past.
Proof.
  intros (Hs & HF & He) Ht. split_and!; [done|eapply Forall_impl; [exact HF|]; cbn; lia|].
  destruct (entries r !! a); [done|]. eapply Forall_impl; [exact He|]. cbn. lia.
Qed.

(** What makes a limiter work: it is on, and a bucket fills up before its
    client is forgotten. *)
Definition sound r : Prop :=
  enabled r = true ∧ (1 ≤ limit r)%Z ∧ (1 ≤ burst r)%Z ∧ (burst r ≤ 600 * limit r)%Z.

Lemma request_tracks r now a past t ok cs r' : sound r → is_valid a = true →
  tracks r now a past → (now ≤ t)%N → Allow a t r = (ok, cs, r') →
  (ok, (run_limiter (new_limiter (limit r) (burst r)) (past ++ [t])).2) =
    lim_allow t (run_limiter (new_limiter (limit r) (burst r)) past).2 ∧
  tracks r' t a (past ++ [t]).
Proof.
  intros (He & Hl & Hb & Hf) Ha Ht Hn. pose proof (tracks_later _ _ t _ _ Ht Hn) as (Hs & HF & Hm).
  unfold Allow. rewrite He, Ha. cbn [negb orb]. intros E.
  assert (Heq : lim_allow t (match entries r !! a with
      | Some e => limiter e | None => new_limiter (limit r) (burst r) end) =
      lim_allow t (run_limiter (new_limiter (limit r) (burst r)) past).2).
  { destruct (entries r !! a) as [e|]; [by destruct Hm as [_ ->]|].
    symmetry. by eapply refilled. }
  replace (limiter match entries r !! a with
    | Some e => e | None => MkEntry (new_limiter (limit r) (burst r)) t end) with
    (match entries r !! a with Some e => limiter e | None => new_limiter (limit r) (burst r) end) in E
    by (by destruct (entries r !! a)).
  rewrite Heq in E. rewrite run_limiter_snoc.
  destruct (run_limiter (new_limiter (limit r) (burst r)) past) as [oks l] eqn:Er. cbn [snd] in *.
  destruct (lim_allow t l) as [ok' l'] eqn:El. injection E as <- _ <-. split; [done|].
  assert (HF' : Forall (λ x, x ≤ t)%N (past ++ [t])) by (apply Forall_app; by repeat constructor).
  split_and!; [by apply sorted_snoc|done|]. cbn [with_entries entries limit burst].
  rewrite lookup_insert_eq. cbn [lastSeen limiter]. split; [done|].
  rewrite run_limiter_snoc, Er, El. done.
Qed.

Lemma other_tracks r now a b past t : a ≠ b → tracks r now a past → (now ≤ t)%N →
  tracks (Allow b t r).2 t a past.
Proof.
  intros Hab Ht Hn. apply (tracks_later _ _ t) in Ht; [|done]. unfold Allow.
  destruct (negb (enabled r) || negb (is_valid b)); [done|].
  destruct (lim_allow t _) as [ok l]. destruct Ht as (Hs & HF & Hm). split_and!; [done..|].
  cbn [snd with_entries entries limit burst]. by rewrite lookup_insert_ne.
Qed.

Lemma sweep_tracks r now a past t : tracks r now a past → (now ≤ t)%N → tracks (sweep t r) t a past.
Proof.
  intros Ht Hn. apply (tracks_later _ _ t) in Ht; [|done]. destruct Ht as (Hs & HF & Hm).
  split_and!; [done..|]. unfold sweep. cbn [with_entries entries limit burst].
  rewrite map_lookup_filter. destruct (entries r !! a) as [e|]; [|done]. cbn [mbind option_bind].
  case_guard as Hx; [done|]. cbn in Hx. apply not_false_iff_true in Hx. unfold expired in Hx.
  apply N.ltb_lt in Hx. destruct Hm as [Hm _]. eapply Forall_impl; [exact Hm|]. cbn. lia.
Qed.

Lemma allow_frame r a t : let r' := (Allow a t r).2 in
  enabled r' = enabled r ∧ limit r' = limit r ∧ burst r' = burst r.
Proof. unfold Allow. by repeat case_match. Qed.

Lemma run_tracks es r now a past : sound r → is_valid a = true → tracks r now a past →
  StronglySorted N.le (now :: map event_time es) →
  verdicts_of a (run r es).1 =
    (run_limiter (run_limiter (new_limiter (limit r) (burst r)) past).2 (times_of a es)).1.
Proof.
  revert r now past. induction es as [|e es IH]; intros r now past Hr Ha Ht Hs; [done|].
  cbn [map] in Hs. apply StronglySorted_inv in Hs as [Hs [Hn _]%Forall_cons].
  cbn [run]. destruct e as [b t|t]; cbn [handle event_time] in *.
  - destruct (allow_frame r b t) as (He & Hl & Hb).
    destruct (Allow b t r) as [[ok cs] r'] eqn:E. cbn [snd] in He, Hl, Hb.
    assert (Hr' : sound r') by (unfold sound; by rewrite He, Hl, Hb).
    destruct (run r' es) as [vs r2] eqn:Er. cbn [fst]. unfold times_of. cbn [omap list_omap].
    fold (times_of a es). unfold verdicts_of. cbn [omap list_omap fst snd]. fold (verdicts_of a vs).
    assert (Evs : vs = (run r' es).1) by by rewrite Er. rewrite Evs. case_decide as Hba.
    + subst b. destruct (request_tracks _ _ _ _ _ _ _ _ Hr Ha Ht Hn E) as [Hv Ht'].
      cbn [run_limiter]. rewrite <-Hv. rewrite (IH r' t (past ++ [t])), Hl, Hb by done.
      by destruct (run_limiter (run_limiter _ (past ++ [t])).2 (times_of a es)).
    + pose proof (other_tracks _ _ a b _ t ltac:(done) Ht Hn) as Ht'. rewrite E in Ht'.
      by rewrite (IH r' t past), Hl, Hb.
  - set (r' := if cleaning r then sweep t r else r).
    destruct (run r' es) as [vs r2] eqn:Er. cbn [fst]. unfold times_of. cbn [omap list_omap].
    fold (times_of a es). assert (Evs : vs = (run r' es).1) by by rewrite Er. rewrite Evs.
    subst r'. destruct (cleaning r).
    + rewrite (IH (sweep t r) t past); [done|done|done|by eapply sweep_tracks|done].
    + rewrite (IH r t past); [done|done|done|by eapply tracks_later|done].
Qed.
End lemmas.

(** * Properties *)

(** C38: a limiter that is on, with at least one request a second, a burst of
    at least one and no larger than 600 seconds refill, treats each client by
    itself: whatever other clients send and whenever idle clients are
    forgotten, the verdicts a client gets from the start are those of one token
    bucket of its own, over its own requests, as long as its settings are not
    changed. Beyond 600 seconds' refill the cleanup gives a client tokens early. *)
Theorem rate_limit_per_client {L : Type} {LI : Limiter L} {LL : LimiterLaws L}
    (cfg : Config.RateLimitConfig) (counts : bool) (es : list event) (a : addr) :
  Config.rlEnabled cfg = true →
  (1 ≤ Config.RequestsPerSecond cfg)%Z → (1 ≤ Config.Burst cfg)%Z →
  (Config.Burst cfg ≤ 600 * Config.RequestsPerSecond cfg)%Z →
  is_valid a = true → StronglySorted N.le (map event_time es) →
  verdicts_of a (run (NewRateLimiter cfg counts) es).1 =
    (run_limiter (new_limiter (Config.RequestsPerSecond cfg) (Config.Burst cfg)) (times_of a es)).1.
Proof.
  intros He Hl Hb Hf Ha Hs. rewrite (run_tracks es (NewRateLimiter cfg counts) 0 a []); try done.
  - split_and!; [constructor|constructor|]. cbn. rewrite lookup_empty. constructor.
  - constructor; [done|]. apply Forall_forall. intros; lia.
Qed.

(** ** A token bucket *)

(** Tokens are counted in billionths. *)
Record bucket := MkBucket { b_limit : Z; b_burst : Z; tokens : Z; b_last : N }.
Definition nano : Z := 1000000000.
Definition refill (t : N) (b : bucket) : Z :=
  Z.min (b_burst b * nano) (tokens b + Z.of_N (t - b_last b) * b_limit b).
#[export] Instance bucket_limiter : Limiter bucket := {|
  new_limiter limit burst := MkBucket limit burst (burst * nano) 0;
  lim_allow t b :=
    if (nano <=? refill t b)%Z
    then (true, MkBucket (b_limit b) (b_burst b) (refill t b - nano) t) else (false, b)
|}.

Lemma bucket_run limit burst times t b : (1 ≤ limit)%Z → (1 ≤ burst)%Z →
  Forall (λ x, x ≤ t)%N times →
  b = (run_limiter (new_limiter limit burst) times).2 →
  b_limit b = limit ∧ b_burst b = burst ∧ (0 ≤ tokens b)%Z ∧ (b_last b ≤ t)%N.
Proof.
  intros Hl Hb HF ->. revert HF. induction times as [|x times IH] using rev_ind.
  - cbn. unfold nano. intros _. split_and!; lia.
  - intros [HF [Hx _]%Forall_cons]%Forall_app. rewrite run_limiter_snoc.
    specialize (IH HF). destruct (run_limiter (new_limiter limit burst) times) as [oks l].
    cbn [snd] in *. destruct IH as (H1 & H2 & H3 & H4). cbn [lim_allow bucket_limiter].
    destruct (Z.leb_spec nano (refill x l)); cbn [snd b_limit b_burst tokens b_last]; split_and!;
      (done || lia).
Qed.

#[export] Instance bucket_laws : LimiterLaws bucket.
Proof.
  split. intros limit burst times t idle Hl Hb Hs HF Hi.
  assert (HF' : Forall (λ x, x ≤ t - idle)%N times) by (eapply Forall_impl; [exact HF|]; cbn; lia).
  destruct (bucket_run _ _ _ _ _ Hl Hb HF' eq_refl) as (H1 & H2 & H3 & H4).
  assert (Hidle : (t - idle + idle ≤ t)%N ∨ times = []).
  { destruct times; [by right|left]. apply Forall_cons in HF as [? _]. lia. }
  destruct Hidle as [Hidle| ->]; [|done].
  cbn [lim_allow bucket_limiter].
  assert (Er : refill t (run_limiter (new_limiter limit burst) times).2 = (burst * nano)%Z).
  { unfold refill. rewrite H1, H2. apply Z.min_l. unfold nano.
    assert (Z.of_N idle ≤ Z.of_N (t - b_last (run_limiter (new_limiter limit burst) times).2))%Z by lia.
    nia. }
  assert (En : refill t (new_limiter limit burst) = (burst * nano)%Z).
  { unfold refill. cbn. apply Z.min_l. nia. }
  rewrite Er, En, H1, H2. cbn [new_limiter bucket_limiter b_limit b_burst].
  destruct (Z.leb_spec nano (burst * nano)); [done|]. unfold nano in *. lia.
Qed.

(** ** Witnesses and consequences *)
Definition sec : N := 1000000000.
Definition demo_limiter : RateLimiter bucket :=
  NewRateLimiter (Config.MkRateLimit true 1 2) true.
Definition demo_events : list event :=
  [Request (A4 1) (10 * sec); Request (A4 2) (10 * sec); Request (A4 1) (10 * sec);
   Request (A4 1) (10 * sec); Tick (700 * sec); Request (A4 1) (700 * sec)].

Lemma rate_limit_per_client_witness :
  verdicts_of (A4 1) (run demo_limiter demo_events).1 = [true; true; false; true].
Proof.
  unfold demo_limiter. rewrite (rate_limit_per_client (Config.MkRateLimit true 1 2) true demo_events (A4 1)).
  - by vm_compute.
  - done.
  - cbn. lia.
  - cbn. lia.
  - cbn. lia.
  - done.
  - cbn. repeat constructor; by vm_compute.
Defined.

(** A burst of 700 at one request a second: the client that spent it is
    forgotten after ten minutes and then has 700 tokens, where its own bucket
    would have 600. *)
Definition large_burst : list event :=
  map (λ _, Request (A4 1) (10 * sec)) (seq 0 700) ++ Tick (611 * sec) ::
  map (λ _, Request (A4 1) (611 * sec)) (seq 0 700).
Lemma large_burst_refilled :
  length (List.filter id (verdicts_of (A4 1) (run (L := bucket) (NewRateLimiter (Config.MkRateLimit true 1 700) true) large_burst).1)) = 1400 ∧
  length (List.filter id (run_limiter (new_limiter (L := bucket) 1 700) (times_of (A4 1) large_burst)).1) = 1301.
Proof. split; by vm_compute. Qed.

(** New limits do not reach the buckets of clients already seen. *)
Lemma reconfigure_keeps_old_limits :
  let r := (run demo_limiter (take 4 demo_events)).2 in
  ∃ r', Reconfigure (Config.MkRateLimit true 1000 2000) (Some r) = Some r' ∧
    (Allow (A4 1) (10 * sec) r').1.1 = false ∧ (Allow (A4 3) (10 * sec) r').1.1 = true.
Proof. eexists. split; [done|]. split; by vm_compute. Qed.

(** A limiter that is turned on by a reconfiguration is never cleaned up. *)
Lemma enabled_later_never_swept {L} cfg cfg' counts r' :
  Config.rlEnabled cfg = false →
  Reconfigure cfg' (Some (NewRateLimiter (L := L) cfg counts)) = Some r' → cleaning r' = false.
Proof. intros Hc [= <-]. cbn. done. Qed.

End RRL.
