(* ===== verification/Network.v ===== *)
(** * Listeners: internal/network

    UDP (udp.go), TCP (tcp.go), DNS over TLS (dot.go) and DNS over HTTPS
    (doh.go) in front of the query processor, with client_addr.go, answer.go,
    address.go and the framing of RFC 1035. Sockets are interfaces: what can be
    read, and writes that may fail. Handlers pass on a [server]: the world of
    the processor, the rate limiter and the counters of the listener. *)
From S2P Require Import Prelude Telemetry Radix NetAddr Encoding Names Owner Dns Rpz Firewall Acl Sorting.
From S2P Require Import Tree Signer KeyStore Files Store Cache Access Upstream Validator Config Query.
From S2P Require Import Reply Update Xfr Processor RateLimit.
Import Counters Tree Store Cache Upstream Reply.

(** The writing side of a connection: [Write], and [SetWriteDeadline] where
    the connection has one. *)
Class ConnWriter (K : Type) := {
  c_write : string → K → option error * K;
  c_set_write_deadline : N → K → option error * K
}.

(** What [io.ReadFull] gives: all bytes, or why not. *)
Inductive read_result := RData (data : string) | REOF | RTimeout | RClosed | ROther.

(** The reading side of a TLS connection. *)
Class ConnReader (K : Type) := {
  c_set_read_deadline : N → K → option error * K;
  c_read_full : nat → K → read_result * K
}.

(** [c_pending] is what the peer will have sent before it stops. A read takes
    from it or says why not; deadlines and writes leave it. *)
Class ConnLaws (K : Type) `{ConnWriter K} `{ConnReader K} := {
  c_pending : K → list ascii;
  read_full_law : ∀ n k d k', c_read_full n k = (RData d, k') →
    slen d = n ∧ c_pending k = bytes d ++ c_pending k';
  read_deadline_law : ∀ t k, c_pending (c_set_read_deadline t k).2 = c_pending k;
  write_deadline_law : ∀ t k, c_pending (c_set_write_deadline t k).2 = c_pending k;
  write_law : ∀ data k, c_pending (c_write data k).2 = c_pending k
}.

(** A peer that is not cut off: what it sends is read, deadlines can be set. *)
Class ConnLive (K : Type) `{ConnLaws K} : Prop := {
  read_full_live : ∀ n k, n ≤ length (c_pending k) → ∃ d k', c_read_full n k = (RData d, k');
  read_deadline_live : ∀ t k, (c_set_read_deadline t k).1 = None
}.

Module Network.

Definition maxDNSMessageSize := 65535%N.
Definition tcpLengthPrefix := 2.
Definition tcpReadTimeout := 3000000000%N.
Definition tcpXferTimeout := 300000000000%N.

(** ** Client addresses: client_addr.go *)

(** [net.Addr]; any other kind is known by its text. *)
Inductive net_addr := NilAddr | UDPAddr (ip : net_ip) | TCPAddr (ip : net_ip) | OtherAddr (text : string).

Definition ipToNetip (ip : net_ip) : addr :=
  match addr_from_slice ip with Some a => unmap a | None => AInvalid end.

(** The address of a text with a port. *)
Definition hostAddr (text : string) : addr :=
  match SplitHostPort text with
  | inr _ => AInvalid
  | inl (host, _) => match parse_addr host with Some ip => unmap ip | None => AInvalid end
  end.

Definition ClientIPFromAddr (remote : net_addr) : addr :=
  match remote with
  | NilAddr => AInvalid
  | UDPAddr ip | TCPAddr ip => ipToNetip ip
  | OtherAddr text => hostAddr text
  end.

(** ** Listen addresses: address.go *)
Definition gnetAddresses (proto address : string) : list string :=
  if contains address "://" then [address]
  else
    let addrs := [proto +:+ "://" +:+ address] in
    match SplitHostPort address with
    | inr _ => addrs
    | inl (host, port) =>
        if bool_decide (host = "::") || bool_decide (host = "[::]")
        then addrs ++ [proto +:+ "4://0.0.0.0:" +:+ port] else addrs
    end.

(** ** Frames *)
Definition frame (data : string) : string :=
  put_uint16 (N.of_nat (slen data) mod 65536) +:+ data.

(** [binary.BigEndian.Uint16] of the first two bytes. *)
Definition frame_length (header : list ascii) : N :=
  match header with a :: b :: _ => uint16_of a b | _ => 0 end.

(** [Peek] and [Discard] of a buffer. *)
Definition errShortBuffer := errNew "short buffer".
Definition Peek (n : nat) (buffer : list ascii) : res (list ascii) :=
  if length buffer <? n then Err errShortBuffer else Ok (take n buffer).
Definition Discard (n : nat) (buffer : list ascii) : res (list ascii) :=
  if length buffer <? n then Err errShortBuffer else Ok (drop n buffer).

Inductive action := ANone | AClose.

Section network.
Context {T : Type → Type} {W D P C Net R V L K : Type}.
Context {RO : RadixOps T} {MR : MapRange} {SS : SortSlice} {DT : DnsText} {DG : Digest}
  {ZP : ZoneParser} {FS : FileSys W} {KD : KeyDB D} {DC : DnssecCrypto P} {KT : KeyText P}
  {DM : DnsMsg} {TS : Tsig} {RC : Ristretto C cacheEntry} {ER : ExchangeResolver R Net}
  {VA : Validator V Net} {LI : Limiter L} {CW : ConnWriter K}.
Implicit Types (p : Reply.Processor T R V) (k : K).

Record server := Server {
  sw : world T W D C Net;
  rrl : option (RRL.RateLimiter L);
  counts : list counter
}.
Definition now (s : server) : N := mono (sw s).
Definition set_sw (s : server) w := Server w (rrl s) (counts s).
Definition count (cs : list counter) (s : server) : server := Server (sw s) (rrl s) (counts s ++ cs).

(** [s.rrl != nil && !s.rrl.Allow(client)], negated. *)
Definition allowClient (client : addr) (s : server) : bool * server :=
  match rrl s with
  | None => (true, s)
  | Some r =>
      let '(ok, cs, r) := RRL.Allow client (now s) r in
      (ok, Server (sw s) (Some r) (counts s ++ cs))
  end.

Definition recordAnswer (response : string) : list counter :=
  match unpack response with
  | Err _ => []
  | Ok m =>
      if (m_rcode m =? RcodeNameError)%N then [NXDomainAnswer]
      else if (m_rcode m =? RcodeRefused)%N then [RefusedAnswer]
      else if (m_rcode m =? RcodeSuccess)%N && m_aa m then [AuthoritativeAnswer]
      else []
  end.

Definition IsZoneTransferQuery (payload : string) : bool :=
  if (N.of_nat (slen payload) <? dnsHeaderSize)%N then false
  else
    match unpack payload with
    | Err _ => false
    | Ok req =>
        match m_question req with
        | [] => false
        | q :: _ => ((q_type q =? TypeAXFR) || (q_type q =? TypeIXFR))%N
        end
    end.

(** ** UDP: udp.go *)
Definition OnDatagram p (remote : net_addr) (next : res string) (s : server) k : server * K :=
  match next with
  | Err _ => (count [Dropped] s, k)
  | Ok payload =>
      if slen payload =? 0 then (s, k)
      else
        let client := ClientIPFromAddr remote in
        let '(ok, s) := allowClient client s in
        if negb ok then (s, k)
        else
          let '(response, w) := Proc.Response (P := P) p client payload (sw s) in
          let s := set_sw s w in
          match response with
          | Err e => if errors_is e ErrPolicyDrop then (s, k) else (count [ParseError] s, k)
          | Ok response =>
              match c_write response k with
              | (Some _, k) => (count [WriteError] s, k)
              | (None, k) => (count (UDPQuery :: recordAnswer response) s, k)
              end
          end
  end.

(** ** TCP: tcp.go *)

(** What the callback of [HandleTCP] changes: the connection, the last reply,
    the deadline of the connection and the counters. *)
Record stream := Stream {
  conn : K; lastResponse : option string; deadline : N; write_counts : list counter
}.

(** The callback of TCP. [at_] is the time of the call. *)
Definition writeTCP (at_ : N) (isXfer : bool) (data : string) (st : stream) : option error * stream :=
  match c_write (frame data) (conn st) with
  | (Some e, k) => (Some e, Stream k (Some data) (deadline st) (write_counts st ++ [WriteError]))
  | (None, k) =>
      (None, Stream k (Some data) (if isXfer then (at_ + tcpXferTimeout)%N else deadline st)
               (write_counts st))
  end.

(** The callback of DNS over TLS. *)
Definition writeDoT (at_ : N) (isXfer : bool) (data : string) (st : stream) : option error * stream :=
  let writeTimeout := if isXfer then tcpXferTimeout else tcpReadTimeout in
  let failed e k := (Some e, Stream k (Some data) (deadline st) (write_counts st ++ [WriteError])) in
  match c_set_write_deadline (at_ + writeTimeout)%N (conn st) with
  | (Some e, k) => failed e k
  | (None, k) =>
      match c_write (frame data) k with
      | (Some e, k) => failed e k
      | (None, k) =>
          (None, Stream k (Some data) (if isXfer then (at_ + tcpXferTimeout)%N else deadline st)
                   (write_counts st))
      end
  end.

(** One message of a stream: its handler, what is written, and whether the
    connection goes on. [writer] is the callback, [answered] the counter of an
    answered query. *)
Definition handleMessage (writer : N → bool → string → stream → option error * stream)
    (answered : counter) p (remote : net_addr) (payload : string) (s : server) (dl : N) k
    : action * server * N * K :=
  let client := ClientIPFromAddr remote in
  let '(ok, s) := allowClient client s in
  if negb ok then (ANone, s, (now s + tcpReadTimeout)%N, k)
  else
    let isXfer := IsZoneTransferQuery payload in
    let dl := if isXfer then (now s + tcpXferTimeout)%N else dl in
    let '((e, st), w) :=
      Proc.HandleTCP (P := P) (FW := {| writeFrame := writer (now s) isXfer |}) p client payload
        (Stream k None dl []) (sw s) in
    let s := count (write_counts st) (set_sw s w) in
    match e with
    | Some e =>
        if errors_is e ErrPolicyDrop then (ANone, s, (now s + tcpReadTimeout)%N, conn st)
        else (AClose, if isXfer then s else count [ParseError] s, deadline st, conn st)
    | None =>
        let s := count [answered] s in
        let s := match lastResponse st with
                 | Some response => if isXfer then s else count (recordAnswer response) s
                 | None => s
                 end in
        (ANone, s, (if isXfer then now s + tcpXferTimeout else now s + tcpReadTimeout)%N, conn st)
    end.
Definition tcpMessage := handleMessage writeTCP TCPQuery.
Definition dotMessage := handleMessage writeDoT DoTQuery.

(** The loop of [OnTraffic]: every round takes a message of at least three
    bytes out of the buffer, so its length bounds the rounds. *)
Fixpoint trafficLoop (fuel : nat) p (remote : net_addr) (buffer : list ascii) (s : server) (dl : N) k
    : action * server * N * K * list ascii :=
  let dropped := (AClose, count [Dropped] s, dl, k, buffer) in
  match fuel with
  | O => (ANone, s, dl, k, buffer)
  | S f =>
      let buffered := length buffer in
      if buffered <? tcpLengthPrefix then (ANone, s, dl, k, buffer)
      else
        match Peek tcpLengthPrefix buffer with
        | Err _ => dropped
        | Ok header =>
            let msgLen := frame_length header in
            if ((msgLen <? 1) || (maxDNSMessageSize <? msgLen))%N then dropped
            else
              let frameLen := tcpLengthPrefix + N.to_nat msgLen in
              if buffered <? frameLen then (ANone, s, dl, k, buffer)
              else
                match Peek frameLen buffer, Discard frameLen buffer with
                | Ok frame, Ok buffer =>
                    let payload := mk (drop tcpLengthPrefix frame) in
                    let '(a, s, dl, k) := tcpMessage p remote payload s dl k in
                    match a with
                    | AClose => (AClose, s, dl, k, buffer)
                    | ANone => trafficLoop f p remote buffer s dl k
                    end
                | _, _ => dropped
                end
        end
  end.

(** The connections of the reactor and their deadlines. *)
Abbreviation connections := (gmap nat N).
Definition OnOpen (c : nat) (s : server) (conns : connections) : connections :=
  <[c := (now s + tcpReadTimeout)%N]> conns.
Definition OnClose (c : nat) (conns : connections) : connections := delete c conns.

Definition OnTraffic p (c : nat) (remote : net_addr) (conns : connections) (buffer : list ascii)
    (s : server) k : action * connections * server * K * list ascii :=
  let dl := default (now s + tcpReadTimeout)%N (conns !! c) in
  if (dl <? now s)%N then (AClose, <[c := dl]> conns, count [TCPTimeout] s, k, buffer)
  else
    let '(a, s, dl, k, buffer) := trafficLoop (length buffer) p remote buffer s dl k in
    (a, <[c := dl]> conns, s, k, buffer).

(** The tick closes the connections whose deadline has passed. *)
Definition late (s : server) (conns : connections) : list nat :=
  map fst (List.filter (λ cd, (cd.2 <? now s)%N) (range conns)).
Definition OnTick (s : server) (conns : connections) : list nat * connections * server :=
  let closed := late s conns in
  (closed, foldr delete conns closed, count (map (λ _, TCPTimeout) closed) s).

(** ** DNS over TLS: dot.go *)
Section dot.
Context {CR : ConnReader K}.

(** [None] is out of fuel; a round consumes at least three bytes. *)
Fixpoint serveConn (fuel : nat) p (remote : net_addr) (s : server) (dl : N) k : option (server * K) :=
  match fuel with
  | O => None
  | S f =>
      match c_set_read_deadline dl k with
      | (Some _, k) => Some (count [Dropped] s, k)
      | (None, k) =>
          match c_read_full tcpLengthPrefix k with
          | (RData header, k) =>
              let msgLen := frame_length (bytes header) in
              if ((msgLen <? 1) || (maxDNSMessageSize <? msgLen))%N then Some (count [Dropped] s, k)
              else
                match c_read_full (N.to_nat msgLen) k with
                | (RData payload, k) =>
                    let '(a, s, dl, k) := dotMessage p remote payload s dl k in
                    match a with
                    | AClose => Some (s, k)
                    | ANone => serveConn f p remote s dl k
                    end
                | (RTimeout, k) => Some (count [TCPTimeout] s, k)
                | (_, k) => Some (count [Dropped] s, k)
                end
          | (REOF, k) | (RTimeout, k) => Some (count [TCPTimeout] s, k)
          | (_, k) => Some (s, k)
          end
      end
  end.
Definition serveDoT (fuel : nat) p (remote : net_addr) (s : server) k : option (server * K) :=
  serveConn fuel p remote s (now s + tcpReadTimeout)%N k.
End dot.

(** ** DNS over HTTPS: doh.go *)
Definition dnsMessageMediaType := "application/dns-message".
Definition maxDoHBodySize := 65535%N.

(** What a handler reads of a request: the parameter [dns] of the query, the
    header [Content-Type], the body with the error that may end it. *)
Record request := Req {
  method : string; dns_param : string; content_type : string;
  body : string * option error; remote_addr : string
}.
(** What a handler wrote; a handler that writes nothing answers 200 with no
    body. *)
Inductive http_response := HNothing | HError (text : string) (code : N) | HMessage (body : string).
Definition status (r : http_response) : N :=
  match r with HNothing => 200 | HError _ code => code | HMessage _ => 200 end.

Definition clientIPFromHTTPRequest (r : request) : addr :=
  match SplitHostPort (remote_addr r) with
  | inr _ =>
      match net_parse_ip (remote_addr r) with
      | IPNil => AInvalid
      | ip => ClientIPFromAddr (TCPAddr ip)
      end
  | inl (host, _) => match parse_addr host with Some ip => unmap ip | None => AInvalid end
  end.

Definition writeDNSResponse p (r : request) (payload : string) (s : server) k
    : http_response * server * K :=
  let client := clientIPFromHTTPRequest r in
  let '(ok, s) := allowClient client s in
  if negb ok then (HNothing, s, k)
  else
    let '(response, w) := Proc.ResponseTCP (P := P) p client payload (sw s) in
    let s := set_sw s w in
    match response with
    | Err e =>
        if errors_is e ErrPolicyDrop then (HNothing, s, k)
        else (HError "bad request" 400, count [ParseError] s, k)
    | Ok response =>
        let response := default "" response in
        match c_write response k with
        | (Some _, k) => (HMessage response, count [WriteError] s, k)
        | (None, k) => (HMessage response, count (DoHQuery :: recordAnswer response) s, k)
        end
    end.

Definition handleDoHGet p (r : request) (s : server) k : http_response * server * K :=
  let raw := trim_space (dns_param r) in
  if bool_decide (raw = "") then (HError "missing dns query parameter" 400, s, k)
  else
    match base64_decode RawURLEncoding raw with
    | Err _ => (HError "invalid dns parameter encoding" 400, s, k)
    | Ok payload => writeDNSResponse p r payload s k
    end.

Definition handleDoHPost p (r : request) (s : server) k : http_response * server * K :=
  let mediaType := trim_space (hd "" (split (content_type r) ";")) in
  if negb (bool_decide (mediaType = dnsMessageMediaType))
  then (HError "unsupported media type" 415, s, k)
  else
    match read_limited (maxDoHBodySize + 1)%N (body r) with
    | Err _ => (HError "failed to read request body" 400, s, k)
    | Ok payload =>
        if (slen payload =? 0) || (maxDoHBodySize <? N.of_nat (slen payload))%N
        then (HError "invalid dns message size" 400, s, k)
        else writeDNSResponse p r payload s k
    end.

Definition handleDNSQuery p (r : request) (s : server) k : http_response * server * K :=
  if bool_decide (method r = "GET") then handleDoHGet p r s k
  else if bool_decide (method r = "POST") then handleDoHPost p r s k
  else (HError "method not allowed" 405, s, k).

End network.
Arguments server : clear implicits.

(** Messages in a row, until one ends the connection; the last component is
    what was not served. *)
Fixpoint serveAll {S K : Type} (h : string → S → N → K → action * S * N * K) (ps : list string)
    (s : S) (dl : N) (k : K) : action * S * N * K * list string :=
  match ps with
  | [] => (ANone, s, dl, k, [])
  | x :: ps =>
      let '(a, s, dl, k) := h x s dl k in
      match a with AClose => (AClose, s, dl, k, ps) | ANone => serveAll h ps s dl k end
  end.

(** * Lemmas *)

(** ** Framing *)
Inductive message := Short | Bad | Message (payload : string) (rest : list ascii).
Definition nextMessage (buffer : list ascii) : message :=
  let n := N.to_nat (frame_length buffer) in
  if length buffer <? 2 then Short
  else if n =? 0 then Bad
  else if length buffer <? 2 + n then Short
  else Message (mk (take n (drop 2 buffer))) (drop (2 + n) buffer).

Definition wire (ps : list string) : list ascii := concat (map (λ x, bytes (frame x)) ps).
Definition sendable (x : string) : Prop := 1 ≤ slen x ∧ (N.of_nat (slen x) < 65536)%N.

Lemma frame_length_bound l : (frame_length l < 65536)%N.
Proof.
  destruct l as [|a [|b l]]; cbn [frame_length]; [lia..|]. unfold uint16_of.
  pose proof (code_bound a). pose proof (code_bound b). lia.
Qed.

Lemma next_frame x rest : sendable x → nextMessage (bytes (frame x) ++ rest) = Message x rest.
Proof.
  intros [H1 H2]. unfold frame. rewrite N.mod_small by done. rewrite bytes_app.
  destruct (put_uint16_roundtrip _ H2) as (a & b & -> & E). rewrite bytes_mk.
  unfold nextMessage. cbn [app frame_length length]. rewrite E, Nat2N.id.
  assert (Hl : length (bytes x ++ rest) = slen x + length rest) by by rewrite length_app.
  destruct (Nat.eqb_spec (slen x) 0); [lia|]. change (S (S ?n) <? 2) with false. cbn iota.
  rewrite Hl. destruct (Nat.ltb_spec (S (S (slen x + length rest))) (2 + slen x)); [lia|].
  cbn [drop Nat.add]. unfold slen.
  rewrite drop_0, (take_app_length (bytes x)), (drop_app_length (bytes x)). by rewrite mk_bytes.
Qed.

Lemma next_app b x : nextMessage (b ++ x) =
  match nextMessage b with
  | Message p rest => Message p (rest ++ x) | Bad => Bad | Short => nextMessage (b ++ x)
  end.
Proof.
  unfold nextMessage at 2. destruct (Nat.ltb_spec (length b) 2) as [?|H2]; [done|].
  assert (Ef : frame_length (b ++ x) = frame_length b) by (by destruct b as [|? [|? b]]; cbn in *; [lia..|]).
  unfold nextMessage. rewrite Ef. rewrite length_app.
  destruct (Nat.ltb_spec (length b + length x) 2); [lia|].
  destruct (N.to_nat (frame_length b) =? 0); [done|].
  destruct (Nat.ltb_spec (length b) (2 + N.to_nat (frame_length b))); [done|].
  destruct (Nat.ltb_spec (length b + length x) (2 + N.to_nat (frame_length b))); [lia|].
  f_equal; [|by rewrite drop_app_le by lia].
  f_equal. rewrite drop_app_le by lia. rewrite take_app_le; [done|]. rewrite length_drop. lia.
Qed.

Lemma next_shorter b x rest : nextMessage b = Message x rest → S (length rest) ≤ length b.
Proof.
  unfold nextMessage. destruct (Nat.ltb_spec (length b) 2); [done|].
  destruct (_ =? 0); [done|]. destruct (Nat.ltb_spec (length b) (2 + N.to_nat (frame_length b))); [done|].
  intros [= <- <-]. rewrite length_drop. lia.
Qed.

Lemma next_loop_shape b : match nextMessage b with
  | Short => length b < 2 ∨ 2 ≤ length b < 2 + N.to_nat (frame_length b) ∧ (1 ≤ frame_length b)%N
  | Bad => 2 ≤ length b ∧ frame_length b = 0%N
  | Message x rest => 2 + N.to_nat (frame_length b) ≤ length b ∧ (1 ≤ frame_length b)%N ∧
      x = mk (take (N.to_nat (frame_length b)) (drop 2 b)) ∧ rest = drop (2 + N.to_nat (frame_length b)) b
  end.
Proof.
  unfold nextMessage. destruct (Nat.ltb_spec (length b) 2); [by left|].
  destruct (Nat.eqb_spec (N.to_nat (frame_length b)) 0); [lia|].
  destruct (Nat.ltb_spec (length b) (2 + N.to_nat (frame_length b))); [right|]; split_and!; (done || lia).
Qed.

Section lemmas.
Context {T : Type → Type} {W D P C Net R V L K : Type}.
Context {RO : RadixOps T} {MR : MapRange} {SS : SortSlice} {DT : DnsText} {DG : Digest}
  {ZP : ZoneParser} {FS : FileSys W} {KD : KeyDB D} {DC : DnssecCrypto P} {KT : KeyText P}
  {DM : DnsMsg} {TS : Tsig} {RC : Ristretto C cacheEntry} {ER : ExchangeResolver R Net}
  {VA : Validator V Net} {LI : Limiter L} {CW : ConnWriter K}.
Implicit Types (p : Reply.Processor T R V) (k : K) (s : server T W D C Net L).
Abbreviation tcp := (tcpMessage (T := T) (P := P)).
Abbreviation loop := (trafficLoop (T := T) (P := P)).

(** One round of the loop. *)
Lemma loop_step f p remote b s dl k :
  loop (S f) p remote b s dl k =
    match nextMessage b with
    | Short => (ANone, s, dl, k, b)
    | Bad => (AClose, count [Dropped] s, dl, k, b)
    | Message x rest =>
        let '(a, s, dl, k) := tcp p remote x s dl k in
        match a with AClose => (AClose, s, dl, k, rest) | ANone => loop f p remote rest s dl k end
    end.
Proof.
  pose proof (next_loop_shape b) as Hn. pose proof (frame_length_bound b) as Hb.
  assert (Ef : ∀ n, 2 ≤ n → frame_length (take n b) = frame_length b).
  { intros [|[|n]] ?; [lia..|]. by destruct b as [|? [|? b]]. }
  cbn [trafficLoop]. unfold tcpLengthPrefix, Peek, Discard.
  destruct (nextMessage b) as [| |x rest].
  - destruct Hn as [Hn|[Hn Hz]]; [by apply Nat.ltb_lt in Hn as ->|].
    destruct (Nat.ltb_spec (length b) 2); [done|]. rewrite Ef by done.
    destruct (N.ltb_spec (frame_length b) 1); [lia|].
    destruct (N.ltb_spec maxDNSMessageSize (frame_length b)); [unfold maxDNSMessageSize in *; lia|].
    cbn [orb]. destruct (Nat.ltb_spec (length b) (2 + N.to_nat (frame_length b))); [done|lia].
  - destruct Hn as [Hn Hz]. destruct (Nat.ltb_spec (length b) 2); [lia|].
    rewrite Ef by done. by rewrite Hz.
  - destruct Hn as (Hn & Hz & -> & ->). destruct (Nat.ltb_spec (length b) 2); [lia|].
    rewrite Ef by done. destruct (N.ltb_spec (frame_length b) 1); [lia|].
    destruct (N.ltb_spec maxDNSMessageSize (frame_length b)); [unfold maxDNSMessageSize in *; lia|].
    cbn [orb]. destruct (Nat.ltb_spec (length b) (2 + N.to_nat (frame_length b))); [lia|].
    by rewrite skipn_firstn_comm, Nat.add_sub' .
Qed.

Lemma loop_empty f p remote b s dl k : nextMessage b = Short →
  loop f p remote b s dl k = (ANone, s, dl, k, b).
Proof. intros E. destruct f; [done|]. by rewrite loop_step, E. Qed.

(** The length of the buffer is fuel enough. *)
Lemma loop_fuel f p remote b s dl k : length b ≤ f →
  loop f p remote b s dl k = loop (length b) p remote b s dl k.
Proof.
  revert b s dl k. induction f as [f IH] using lt_wf_ind. intros b s dl k Hf.
  destruct (nextMessage b) as [| |x rest] eqn:E; [by rewrite !loop_empty| |].
  - pose proof (next_loop_shape b) as Hn. rewrite E in Hn.
    destruct f; [lia|]. destruct (length b); [lia|]. by rewrite !loop_step, E.
  - apply next_shorter in E as Hr. destruct f as [|f]; [lia|].
    destruct (length b) as [|n] eqn:El; [lia|]. rewrite !loop_step, E.
    destruct (tcp p remote x s dl k) as [[[a s'] dl'] k']. destruct a; [|done].
    rewrite (IH f), (IH n) by lia. done.
Qed.

(** Serving the buffer so far, then the rest with what comes. *)
Lemma loop_app f p remote b x s dl k : length (b ++ x) ≤ f →
  loop f p remote (b ++ x) s dl k =
    let '(a, s, dl, k, rest) := loop (length b) p remote b s dl k in
    match a with
    | ANone => loop (length (rest ++ x)) p remote (rest ++ x) s dl k
    | AClose => (AClose, s, dl, k, rest ++ x)
    end.
Proof.
  revert b s dl k. induction f as [f IH] using lt_wf_ind. intros b s dl k Hf.
  destruct (nextMessage b) as [| |y rest] eqn:E.
  - rewrite (loop_empty (length b)) by done. by apply loop_fuel.
  - pose proof (next_loop_shape b) as Hn. rewrite E in Hn. rewrite length_app in Hf.
    destruct f; [lia|]. destruct (length b); [lia|]. by rewrite !loop_step, next_app, E.
  - apply next_shorter in E as Hr. rewrite length_app in Hf. destruct f as [|f]; [lia|].
    destruct (length b) as [|n] eqn:El; [lia|]. rewrite !loop_step, next_app, E.
    destruct (tcp p remote y s dl k) as [[[a s'] dl'] k']. destruct a; [|done].
    rewrite (loop_fuel n) by lia. rewrite (IH f) by (rewrite ?length_app; lia). done.
Qed.

Lemma loop_frames p remote ps rest s dl k : Forall sendable ps → nextMessage rest = Short →
  loop (length (wire ps ++ rest)) p remote (wire ps ++ rest) s dl k =
    let '(a, s, dl, k, left_) := serveAll (tcp p remote) ps s dl k in
    (a, s, dl, k, wire left_ ++ rest).
Proof.
  intros HF Hr. revert s dl k. induction HF as [|x ps Hx HF IH]; intros s dl k.
  - cbn [serveAll]. by apply loop_empty.
  - unfold wire at 1 2. cbn [map concat]. fold (wire ps). rewrite <-!app_assoc.
    pose proof (next_frame x (wire ps ++ rest) Hx) as E. apply next_shorter in E as Hl.
    destruct (length (bytes (frame x) ++ wire ps ++ rest)) as [|n]; [lia|].
    rewrite loop_step, E. cbn [serveAll].
    destruct (tcp p remote x s dl k) as [[[a s'] dl'] k']. destruct a; [|done].
    rewrite loop_fuel by lia. apply IH.
Qed.

(** A connection that goes on has a deadline to come. *)
Lemma message_deadline writer done_ p remote x s dl k a s' dl' k' :
  handleMessage (P := P) writer done_ p remote x s dl k = (a, s', dl', k') → a = ANone →
  (now s' ≤ dl')%N.
Proof.
  unfold handleMessage. destruct (allowClient _ s) as [ok s1]. destruct ok; cbn [negb].
  - destruct (Proc.HandleTCP _ _ _ _ _) as [[e st] w]. destruct e as [e|].
    + destruct (errors_is e ErrPolicyDrop); intros [= <- <- <- <-]; [|done].
      intros _. unfold now, tcpReadTimeout. cbn. lia.
    + intros [= <- <- <- <-] _. destruct (lastResponse st), (IsZoneTransferQuery x);
        unfold now, tcpReadTimeout, tcpXferTimeout; cbn; lia.
  - intros [= <- <- <- <-] _. unfold now, tcpReadTimeout. lia.
Qed.

Lemma loop_deadline f p remote b s dl k a s' dl' k' b' : (now s ≤ dl)%N →
  loop f p remote b s dl k = (a, s', dl', k', b') → a = ANone → (now s' ≤ dl')%N.
Proof.
  revert b s dl k. induction f as [|f IH]; intros b s dl k Hd; [by intros [= <- <- <- <- <-]|].
  rewrite loop_step. destruct (nextMessage b) as [| |x rest].
  - by intros [= <- <- <- <- <-].
  - by intros [= <- <- <- <- <-].
  - destruct (tcp p remote x s dl k) as [[[a1 s1] dl1] k1] eqn:E. destruct a1.
    + apply IH. by eapply message_deadline.
    + by intros [= <- <- <- <- <-].
Qed.

Lemma traffic_app p c remote conns b x s k :
  OnTraffic (P := P) p c remote conns (b ++ x) s k =
    let '(a, conns, s, k, rest) := OnTraffic (P := P) p c remote conns b s k in
    match a with
    | ANone => OnTraffic (P := P) p c remote conns (rest ++ x) s k
    | AClose => (AClose, conns, s, k, rest ++ x)
    end.
Proof.
  unfold OnTraffic at 1 2. set (dl := default _ _).
  destruct (N.ltb_spec dl (now s)) as [?|Hd]; [done|]. rewrite loop_app by done.
  destruct (loop (length b) p remote b s dl k) as [[[[a s1] dl1] k1] rest] eqn:E.
  destruct a; [|done]. apply loop_deadline in E; [|done|done].
  unfold OnTraffic. rewrite lookup_insert_eq. unfold default, from_option, id.
  destruct (N.ltb_spec dl1 (now s1)); [lia|].
  destruct (loop _ p remote (rest ++ x) s1 dl1 k1) as [[[[a2 s2] dl2] k2] b2].
  by rewrite insert_insert_eq.
Qed.
End lemmas.


(** ** DNS over TLS *)
Section dot.
Context {T : Type → Type} {W D P C Net R V L K : Type}.
Context {RO : RadixOps T} {MR : MapRange} {SS : SortSlice} {DT : DnsText} {DG : Digest}
  {ZP : ZoneParser} {FS : FileSys W} {KD : KeyDB D} {DC : DnssecCrypto P} {KT : KeyText P}
  {DM : DnsMsg} {TS : Tsig} {RC : Ristretto C cacheEntry} {ER : ExchangeResolver R Net}
  {VA : Validator V Net} {LI : Limiter L} {CW : ConnWriter K} {CR : ConnReader K} {CL : ConnLaws K}.
Implicit Types (p : Reply.Processor T R V) (k : K) (s : server T W D C Net L).
Abbreviation dot := (dotMessage (T := T) (P := P)).
Abbreviation serve := (serveConn (T := T) (P := P)).

Lemma writeDoT_pending at_ isXfer data st :
  c_pending (conn (writeDoT at_ isXfer data st).2) = c_pending (conn st).
Proof.
  unfold writeDoT. set (t := (at_ + _)%N).
  pose proof (write_deadline_law t (conn st)) as H1.
  destruct (c_set_write_deadline t (conn st)) as [[e|] k1]; [done|]. cbn in H1.
  pose proof (write_law (frame data) k1) as H2.
  destruct (c_write (frame data) k1) as [[e|] k2]; cbn in *; congruence.
Qed.

Lemma message_pending p remote x s dl k a s' dl' k' :
  dot p remote x s dl k = (a, s', dl', k') → c_pending k' = c_pending k.
Proof.
  unfold dotMessage, handleMessage. destruct (allowClient _ s) as [ok s1].
  destruct ok; cbn [negb]; [|by intros [= <- <- <- <-]].
  set (st0 := Stream k None _ []).
  pose proof (Proc.handle_tcp_keeps (P := P)
    (H14 := {| writeFrame := writeDoT (now s1) (IsZoneTransferQuery x) |})
    (λ st, c_pending (conn st) = c_pending k) p (ClientIPFromAddr remote) x st0 (sw s1)) as Hk.
  destruct (Proc.HandleTCP _ _ _ _ _) as [[e st] w]. cbn [fst snd] in Hk.
  specialize (Hk ltac:(intros ?? <-; apply writeDoT_pending) eq_refl).
  destruct e as [e|]; [destruct (errors_is _ _)|]; by intros [= <- <- <- <-].
Qed.

(** Every round takes at least three bytes, so the connection is served to
    its end; more fuel changes nothing. *)
Lemma serve_total n p remote s dl k : length (c_pending k) < n →
  ∃ s' k', ∀ f, n ≤ f → serve f p remote s dl k = Some (s', k').
Proof.
  revert s dl k. induction n as [|n IH]; intros s dl k Hn; [lia|].
  pose proof (read_deadline_law dl k) as Hd.
  destruct (c_set_read_deadline dl k) as [[e|] k1] eqn:Ed; cbn in Hd.
  { exists (count [Dropped] s), k1. intros [|f] ?; [lia|]. cbn [serveConn]. by rewrite Ed. }
  destruct (c_read_full tcpLengthPrefix k1) as [rd k2] eqn:Eh.
  destruct rd as [header| | | |];
    try (do 2 eexists; intros [|f] ?; [lia|]; cbn [serveConn]; rewrite Ed, Eh; reflexivity).
  apply read_full_law in Eh as Hh. destruct Hh as [Hl Hp]. unfold tcpLengthPrefix in Hl.
  destruct ((frame_length (bytes header) <? 1) || (maxDNSMessageSize <? frame_length (bytes header)))%N
    eqn:Eb.
  { do 2 eexists. intros [|f] ?; [lia|]. cbn [serveConn]. by rewrite Ed, Eh, Eb. }
  destruct (c_read_full (N.to_nat (frame_length (bytes header))) k2) as [rd k3] eqn:Er.
  destruct rd as [payload| | | |];
    try (do 2 eexists; intros [|f] ?; [lia|]; cbn [serveConn]; rewrite Ed, Eh, Eb, Er; reflexivity).
  apply read_full_law in Er as Hr. destruct Hr as [_ Hr].
  destruct (dot p remote payload s dl k3) as [[[a s1] dl1] k4] eqn:Em.
  apply message_pending in Em as Hm. destruct a.
  - assert (Hlen : length (c_pending k4) < n).
    { rewrite Hm. rewrite <-Hd, Hp, length_app, Hr, length_app in Hn. unfold slen in Hl. lia. }
    destruct (IH s1 dl1 k4 Hlen) as (s' & k' & Hs). exists s', k'. intros [|f] Hf; [lia|].
    cbn [serveConn]. rewrite Ed, Eh, Eb, Er, Em. apply Hs. lia.
  - do 2 eexists. intros [|f] ?; [lia|]. cbn [serveConn]. rewrite Ed, Eh, Eb, Er, Em. reflexivity.
Qed.

Context {CV : ConnLive K}.

(** Reading a frame that is to come. *)
Lemma read_frame x rest k : sendable x → c_pending k = bytes (frame x) ++ rest →
  ∃ header k1 k2, c_read_full tcpLengthPrefix k = (RData header, k1) ∧
    frame_length (bytes header) = N.of_nat (slen x) ∧
    c_read_full (slen x) k1 = (RData x, k2) ∧ c_pending k2 = rest.
Proof.
  intros [H1 H2] Hp. unfold frame in Hp. rewrite N.mod_small, bytes_app in Hp by done.
  destruct (put_uint16_roundtrip _ H2) as (a & b & Eu & E). rewrite Eu, bytes_mk in Hp.
  destruct (read_full_live 2 k) as (h & k1 & Eh); [rewrite Hp; cbn; lia|].
  apply read_full_law in Eh as Hh. destruct Hh as [Hl Hh]. rewrite Hp in Hh.
  unfold slen in Hl. destruct (bytes h) as [|a' [|b' [|? ?]]] eqn:Ebh; cbn in Hl; [lia..| |lia].
  cbn in Hh. injection Hh as <- <- Hh.
  destruct (read_full_live (slen x) k1) as (y & k2 & Ey).
  { rewrite <-Hh, length_app. unfold slen. lia. }
  apply read_full_law in Ey as Hy. destruct Hy as [Hly Hy]. rewrite <-Hh in Hy.
  apply app_inj_1 in Hy as [Hxy Hrest]; [|unfold slen in Hly; lia].
  assert (y = x) as -> by (rewrite <-(mk_bytes y), <-Hxy; apply mk_bytes).
  exists h, k1, k2. rewrite Ebh. by split_and!.
Qed.

Lemma serve_frame f p remote x rest s dl k : sendable x → c_pending k = bytes (frame x) ++ rest →
  ∃ k1, c_pending k1 = rest ∧
    serve (S f) p remote s dl k =
      (let '(a, s, dl, k) := dot p remote x s dl k1 in
       match a with AClose => Some (s, k) | ANone => serve f p remote s dl k end).
Proof.
  intros Hx Hp. cbn [serveConn]. pose proof (read_deadline_law dl k) as Hd.
  pose proof (read_deadline_live dl k) as Hl.
  destruct (c_set_read_deadline dl k) as [e k0]. cbn [fst snd] in *. subst e. rewrite Hp in Hd.
  destruct (read_frame x rest k0 Hx Hd) as (h & k1 & k2 & E1 & Ef & E2 & Hr). exists k2.
  split; [done|]. rewrite E1, Ef, Nat2N.id. destruct Hx as [H1 H2].
  destruct (N.ltb_spec (N.of_nat (slen x)) 1); [lia|].
  destruct (N.ltb_spec maxDNSMessageSize (N.of_nat (slen x))); [unfold maxDNSMessageSize in *; lia|].
  cbn [orb]. rewrite E2. by destruct (dot p remote x s dl k2) as [[[[] ?] ?] ?].
Qed.
End dot.

(** * Properties *)
Section properties.
Context {T : Type → Type} {W D P C Net R V L K : Type}.
Context {RO : RadixOps T} {MR : MapRange} {SS : SortSlice} {DT : DnsText} {DG : Digest}
  {ZP : ZoneParser} {FS : FileSys W} {KD : KeyDB D} {DC : DnssecCrypto P} {KT : KeyText P}
  {DM : DnsMsg} {TS : Tsig} {RC : Ristretto C cacheEntry} {ER : ExchangeResolver R Net}
  {VA : Validator V Net} {LI : Limiter L} {CW : ConnWriter K}.
Implicit Types (p : Reply.Processor T R V) (k : K) (s : server T W D C Net L).

(** Segments of a stream as they arrive. *)
Fixpoint deliver p (c : nat) (remote : net_addr) (segments : list (list ascii))
    (conns : gmap nat N) (buffer : list ascii) s k
    : action * gmap nat N * server T W D C Net L * K * list ascii :=
  match segments with
  | [] => (ANone, conns, s, k, buffer)
  | x :: segments =>
      let '(a, conns, s, k, rest) := OnTraffic (P := P) p c remote conns (buffer ++ x) s k in
      match a with
      | AClose => (AClose, conns, s, k, rest ++ concat segments)
      | ANone => deliver p c remote segments conns rest s k
      end
  end.

Lemma deliver_concat p c remote segments y conns s k buffer :
  (let '(a, conns, s, k, rest) := OnTraffic (P := P) p c remote conns (buffer ++ y) s k in
   match a with
   | AClose => (AClose, conns, s, k, rest ++ concat segments)
   | ANone => deliver p c remote segments conns rest s k
   end) = OnTraffic (P := P) p c remote conns (buffer ++ y ++ concat segments) s k.
Proof.
  revert y conns s k buffer. induction segments as [|z segments IH]; intros y conns s k buffer.
  - cbn [concat deliver]. rewrite app_nil_r.
    destruct (OnTraffic p c remote conns (buffer ++ y) s k) as [[[[[] ?] ?] ?] ?]; [done|].
    by rewrite app_nil_r.
  - rewrite (app_assoc buffer), (traffic_app p c remote conns (buffer ++ y)).
    destruct (OnTraffic p c remote conns (buffer ++ y) s k) as [[[[[] c1] s1] k1] rest]; [|done].
    cbn [deliver concat]. apply IH.
Qed.

(** the framing of TCP does not depend on how the network cuts the stream:
    segments that arrive one by one have the replies, the counters, the
    deadline, the verdict and the bytes left over of the whole stream arriving
    at once. *)
Theorem tcp_chunking p c remote segments x conns s k :
  deliver p c remote (x :: segments) conns [] s k =
    OnTraffic (P := P) p c remote conns (concat (x :: segments)) s k.
Proof.
  cbn [deliver]. exact (deliver_concat p c remote segments x conns s k []).
Qed.


(** a TLS connection is served to its end, in finitely many rounds; and a
    complete frame on it is one message to the handler, whatever follows. *)
Theorem dot_serves {CR : ConnReader K} {CL : ConnLaws K} {CV : ConnLive K} p remote s dl k :
  (∃ s' k', ∀ f, length (c_pending k) < f → serveConn (P := P) f p remote s dl k = Some (s', k')) ∧
  ∀ f x rest, sendable x → c_pending k = bytes (frame x) ++ rest →
    ∃ k1, c_pending k1 = rest ∧
      serveConn (P := P) (S f) p remote s dl k =
        (let '(a, s, dl, k) := dotMessage (P := P) p remote x s dl k1 in
         match a with AClose => Some (s, k) | ANone => serveConn (P := P) f p remote s dl k end).
Proof.
  split; [|by intros f x rest; apply serve_frame].
  destruct (serve_total (P := P) (S (length (c_pending k))) p remote s dl k) as (s' & k' & Hs); [lia|].
  exists s', k'. intros f Hf. apply Hs. lia.
Qed.

(** the two ways to ask over HTTPS agree: a message of 1 to 65535 bytes in
    the query, as base64url without padding, is answered as the same message
    in the body of a POST. *)
Theorem doh_get_is_post p payload remote ctype ct bd s k :
  sendable payload → trim_space (hd "" (split ctype ";")) = dnsMessageMediaType →
  handleDNSQuery (P := P) p (Req "GET" (raw_url_encode payload) ct bd remote) s k =
    handleDNSQuery (P := P) p (Req "POST" "" ctype (payload, None) remote) s k.
Proof.
  intros [H1 H2] Hc. unfold handleDNSQuery. cbn [method].
  change (bool_decide ("GET" = "GET")) with true. change (bool_decide ("POST" = "GET")) with false.
  change (bool_decide ("POST" = "POST")) with true. cbn iota.
  unfold handleDoHGet, handleDoHPost. cbn [dns_param content_type body].
  rewrite Hc, (bool_decide_eq_true_2 (dnsMessageMediaType = _)) by done. cbn [negb]. unfold read_limited. cbn [fst snd].
  unfold maxDoHBodySize.
  destruct (N.leb_spec (65535 + 1) (N.of_nat (slen payload))); [lia|].
  destruct (Nat.eqb_spec (slen payload) 0); [lia|].
  destruct (N.ltb_spec 65535 (N.of_nat (slen payload))); [lia|]. cbn [orb].
  rewrite trimmed_trim by apply raw_url_trimmed.
  rewrite bool_decide_eq_false_2 by by apply raw_url_nonempty. by rewrite raw_url_roundtrip.
Qed.
End properties.


(** ** Behaviour to know *)

(** A query over HTTPS that is dropped by the rate limiter is answered 200 with
    no body: the handler returns without writing anything. *)
Lemma doh_dropped_is_ok {T : Type → Type} {W D P C Net R V L K : Type}
    `{RO : RadixOps T, MR : MapRange, SS : SortSlice, DT : DnsText, DG : Digest, ZP : ZoneParser,
      FS : FileSys W, KD : KeyDB D, DC : DnssecCrypto P, KT : KeyText P, DM : DnsMsg, TS : Tsig,
      RC : Ristretto C cacheEntry, ER : ExchangeResolver R Net, VA : Validator V Net,
      LI : Limiter L, CW : ConnWriter K}
    (p : Reply.Processor T R V) r payload (s : server T W D C Net L) (k : K) :
  (allowClient (clientIPFromHTTPRequest r) s).1 = false →
  let '(resp, _, _) := writeDNSResponse (P := P) p r payload s k in
  resp = HNothing ∧ status resp = 200%N.
Proof.
  intros Ha. unfold writeDNSResponse. destruct (allowClient _ s) as [ok s1]. cbn in Ha. by subst ok.
Qed.

(** ** Witnesses *)

(** A connection over bytes that have arrived. *)
Record pipe := Pipe { incoming : list ascii; written : list string }.
#[export] Instance pipe_writer : ConnWriter pipe := {|
  c_write data k := (None, Pipe (incoming k) (written k ++ [data]));
  c_set_write_deadline t k := (None, k)
|}.
#[export] Instance pipe_reader : ConnReader pipe := {|
  c_set_read_deadline t k := (None, k);
  c_read_full n k :=
    if n <=? length (incoming k)
    then (RData (mk (take n (incoming k))), Pipe (drop n (incoming k)) (written k))
    else (if length (incoming k) =? 0 then REOF else ROther, Pipe [] (written k))
|}.
#[export] Instance pipe_laws : ConnLaws pipe.
Proof.
  refine {| c_pending := incoming |}; [|done..].
  intros n k d k'. cbn [c_read_full pipe_reader].
  destruct (Nat.leb_spec n (length (incoming k))); [|by destruct (_ =? 0)].
  intros [= <- <-]. unfold slen. rewrite bytes_mk, length_take. cbn [incoming].
  split; [lia|by rewrite take_drop].
Defined.
#[export] Instance pipe_live : ConnLive pipe.
Proof.
  split; [|done]. intros n k Hn. cbn [c_pending pipe_laws] in Hn. cbn [c_read_full pipe_reader].
  destruct (Nat.leb_spec n (length (incoming k))); [by eauto|lia].
Qed.

Import Signer KeyStore Proc RRL.
Abbreviation demo_dns := (Proc.demo_wire Proc.demo_query).
Definition demo_server : server gtree ram key_table (gmap string cacheEntry) nat RRL.bucket :=
  Server Proc.demo_query_world (Some RRL.demo_limiter) [].
Definition demo_frames : list string := [Proc.demo_payload; Proc.demo_payload; Proc.demo_payload].
Definition demo_remote : net_addr := TCPAddr (IP4b 2130706433).

Lemma demo_sendable : Forall sendable demo_frames.
Proof. repeat constructor; by vm_compute. Qed.


Lemma dot_serves_witness :
  ∃ s' k', ∀ f, 42 < f →
    serveConn (DM := demo_dns) (P := string) f Proc.demo_recursive demo_remote demo_server 0
      (Pipe (wire demo_frames) []) = Some (s', k').
Proof.
  pose proof (dot_serves (DM := demo_dns) (P := string) Proc.demo_recursive demo_remote demo_server 0
    (Pipe (wire demo_frames) [])) as [Ht _]. exact Ht.
Defined.

Lemma doh_get_is_post_witness :
  handleDNSQuery (DM := demo_dns) (P := string) Proc.demo_recursive
    (Req "GET" (raw_url_encode Proc.demo_payload) "" ("", None) "127.0.0.1:9") demo_server (Pipe [] []) =
  handleDNSQuery (DM := demo_dns) (P := string) Proc.demo_recursive
    (Req "POST" "" "application/dns-message; q=1" (Proc.demo_payload, None) "127.0.0.1:9")
    demo_server (Pipe [] []).
Proof.
  apply (doh_get_is_post (DM := demo_dns)); [|by vm_compute].
  split; vm_compute; [lia|done].
Defined.

End Network.
