(* ===== verification/Runtime.v ===== *)
(** * Applying a configuration while the server runs: internal/runtime/applier.go

    The applier behind the management API, with [ApplyRuntimeConfig] of the
    query processor and the ACLs of network/acl.go. The objects the processor
    shares with the rest of the process are kept once: the forwarder and the
    iterative resolver, which it holds as references, the engine of the
    firewall and the checker of the query rules, which the state of the
    handlers holds. A validator is the resolver it asks; the anchors it
    compares with are those of the package. *)
From S2P Require Import Prelude Telemetry Radix NetAddr Dns Acl Rpz Firewall Ttl Owner Sorting Tree Records.
From S2P Require Import KeyStore Signer Files Store Access Upstream Validator Config Sql Logging Feeds Reports Rules.
From S2P Require Import Http WebUI Query Iterative Reply Update Handlers Api RateLimit.
Import Owner TTL KeyStore Store Http Handlers.

Module Runtime.

(** The two resolvers, as the processor refers to them. *)
Inductive resolver_ref := TheForwarder | TheIterative.

#[export] Instance resolver_ref_eq_dec : EqDecision resolver_ref.
Proof. solve_decision. Defined.

(** network/acl.go. *)
Definition ACLFromConfig (c : Config.Config) : res (list prefix) := Access.ParseACL (Config.TrustedSubnetsCSV c).
Definition ACLFromXFRConfig (c : Config.Config) : res (list prefix) := Access.ParseACL (Config.XFRAllowedSubnetsCSV c).

(** [uint8(_)] of an int. *)
Definition uint8 (n : Z) : N := Z.to_N (n mod 256).

(** iterative.go. *)
Definition SetDNSSECValidation (enabled : bool) (r : Iterative.IterativeResolver) : Iterative.IterativeResolver :=
  Iterative.MkIterative (Iterative.rootHints r) enabled (Iterative.qnameMinimization r) (Iterative.maxDepth r).

Section runtime.
Context {T : Type → Type} {W D P B : Type}.
Context {RO : RadixOps T} {MR : MapRange} {SS : SortSlice} {DT : DnsText} {DG : Digest} {DV : DnssecVerify}
  {ZP : ZoneParser} {FS : FileSys W} {ST : FileStat W} {KD : KeyDB D} {DC : DnssecCrypto P} {KT : KeyText P}
  {TR : TCPResolver} {TM : Toml Config.Config}
  {FD : FeedsDB B} {RD : RulesDB B} {CD : Logging.ConfigDB B} {L : Type}.

Abbreviation Processor := (Reply.Processor T resolver_ref resolver_ref).

(** What the applier reaches besides the state of the API: its own fields and
    the objects behind them. *)
Record process := MkProcess {
  pr_proc : option Processor; pr_forwarder : option Upstream.Forwarder; pr_iterative : option Iterative.IterativeResolver;
  pr_limiter : option (RRL.RateLimiter L); pr_trusted : option (list prefix); pr_xfr : option (list prefix);
  pr_policy : option ACL.Engine; pr_anchors : Anchors.anchors
}.

Abbreviation state := (Handlers.state (T := T) (W := W) (D := D) (B := B) (R := process)).

(** ** processor.go *)
Definition ApplyRuntimeConfig (cfg : Config.Config) (trustedACL xfrACL : list prefix) (policyEngine : ACL.Engine)
    (rpzEngine : option (RPZ.Engine (T := T))) (p : process) : process :=
  match pr_proc p with
  | None => p
  | Some q =>
      let dnssec := Config.DNSSECValidation (Config.Security cfg) in
      let q1 := Reply.MkProcessor (Reply.p_forwarder q) (Reply.p_iterative q) (Config.ResolverMode cfg)
        (Some (Access.Trusted (Some trustedACL))) (Reply.p_queryACL q) (Reply.p_firewall q) rpzEngine dnssec
        (Reply.p_validator q) (Reply.p_cookies q) (Config.NormalizedTSIGKeys cfg) (Config.ZonesDirectory cfg)
        (Config.xfrEnabled (Config.XFR cfg)) (Some (Access.Trusted (Some xfrACL))) (Reply.p_notifier q)
        (Some policyEngine) in
      let validator :=
        if dnssec then
          match Reply.activeResolver q1 with Some r => Some r | None => Reply.p_validator q end
        else None in
      let q2 := Reply.MkProcessor (Reply.p_forwarder q1) (Reply.p_iterative q1) (Reply.p_resolverMode q1)
        (Reply.p_acl q1) (Reply.p_queryACL q1) (Reply.p_firewall q1) (Reply.p_rpz q1) (Reply.p_dnssecValidation q1)
        validator (Reply.p_cookies q1) (Reply.p_tsigSecrets q1) (Reply.p_zonesDir q1) (Reply.p_xfrEnabled q1)
        (Reply.p_xfrACL q1) (Reply.p_notifier q1) (Reply.p_policyEngine q1) in
      let forwarder :=
        match Reply.p_forwarder q with
        | Some _ =>
            (λ f, Upstream.SetECS (Config.ecsOn (Config.ECS cfg)) (uint8 (Config.IPv4PrefixLength (Config.ECS cfg)))
                    (uint8 (Config.IPv6PrefixLength (Config.ECS cfg))) (Upstream.SetDNSSECValidation dnssec f))
              <$> pr_forwarder p
        | None => pr_forwarder p
        end in
      let iterative :=
        match Reply.p_iterative q with
        | Some _ => SetDNSSECValidation dnssec <$> pr_iterative p
        | None => pr_iterative p
        end in
      MkProcess (Some q2) forwarder iterative (pr_limiter p) (pr_trusted p) (pr_xfr p) (pr_policy p) (pr_anchors p)
  end.

(** ** applier.go *)
Definition set_process (f : process → process) (s : state) : state :=
  MkState (st_cfg s) (st_sys s) (st_db s) (st_fw s) (st_acl s) (st_sync s) (st_sent s)
    (st_logs s) (st_ring s) (st_broadcast s) (st_stats s) (f (st_rest s)).

Definition with_limiter r p := MkProcess (pr_proc p) (pr_forwarder p) (pr_iterative p) r (pr_trusted p) (pr_xfr p)
  (pr_policy p) (pr_anchors p).
Definition with_trusted a p := MkProcess (pr_proc p) (pr_forwarder p) (pr_iterative p) (pr_limiter p) a (pr_xfr p)
  (pr_policy p) (pr_anchors p).
Definition with_xfr a p := MkProcess (pr_proc p) (pr_forwarder p) (pr_iterative p) (pr_limiter p) (pr_trusted p) a
  (pr_policy p) (pr_anchors p).
Definition with_policy e p := MkProcess (pr_proc p) (pr_forwarder p) (pr_iterative p) (pr_limiter p) (pr_trusted p)
  (pr_xfr p) e (pr_anchors p).
Definition with_anchors a p := MkProcess (pr_proc p) (pr_forwarder p) (pr_iterative p) (pr_limiter p) (pr_trusted p)
  (pr_xfr p) (pr_policy p) a.
Definition with_resolvers f i p := MkProcess (pr_proc p) f i (pr_limiter p) (pr_trusted p) (pr_xfr p) (pr_policy p)
  (pr_anchors p).

(** Steps that end early with an error. *)
Definition step : Type := state → state * option error.
Definition seq (a b : step) : step := λ s, match a s with (s, Some e) => (s, Some e) | (s, None) => b s end.
Notation "a >> b" := (seq a b) (at level 62, right associativity).
Definition built {A} (label : string) (r : res A) (k : A → step) : step := λ s,
  match r with Err e => (s, Some (errWrap label e)) | Ok a => k a s end.
Definition run (f : state → state) : step := λ s, (f s, None).

Definition applyLogging (cfg : Config.Config) : step := λ s,
  let log := Config.Logging cfg in
  let logCfg := Logging.MkConfig (Config.LogLevel (Config.Server cfg))
    (Logging.MkRotation (Config.FilePath log) (Config.MaxSizeMB log) (Config.MaxBackups log) (Config.MaxAgeDays log)) in
  match st_db s with
  | Some _ =>
      let '(d, w, g, e) := Logging.UpdateConfig (st_db s) logCfg (files (st_sys s)) (st_logs s) in
      (set_logs g (set_sys (set_files (st_sys s) w) (set_db d s)), errWrap "apply logging config: %w" <$> e)
  | None =>
      let '(g, e) := Logging.SetLevel (Config.LogLevel (Config.Server cfg)) (st_logs s) in
      (set_logs g s, errWrap "apply log level: %w" <$> e)
  end.

Definition applyAnchors (cfg : Config.Config) : step := λ s,
  let '(e, a) := Anchors.ApplyCustomAnchors (Config.NormalizedRootAnchors (Config.Security cfg))
                   (pr_anchors (st_rest s)) in
  (set_process (with_anchors a) s, errWrap "apply root anchors: %w" <$> e).

Definition applyForwarder (cfg : Config.Config) : step := λ s,
  match pr_forwarder (st_rest s) with
  | Some f =>
      if bool_decide (Config.ResolverMode cfg = "forward") then
        match Upstream.SetUpstreams (Config.Upstreams (Config.Recursive cfg)) f with
        | Err e => (s, Some (errWrap "apply upstreams: %w" e))
        | Ok f =>
            let f := Upstream.SetECS (Config.ecsOn (Config.ECS cfg)) (uint8 (Config.IPv4PrefixLength (Config.ECS cfg)))
                       (uint8 (Config.IPv6PrefixLength (Config.ECS cfg)))
                       (Upstream.SetDNSSECValidation (Config.DNSSECValidation (Config.Security cfg)) f) in
            (set_process (λ p, with_resolvers (Some f) (pr_iterative p) p) s, None)
        end
      else (s, None)
  | None => (s, None)
  end.

(** [Processor.IterativeResolver()] gives the one the processor refers to. *)
Definition applyIterative (cfg : Config.Config) (s : state) : state :=
  if bool_decide (Config.ResolverMode cfg = "iterative") then
    match pr_proc (st_rest s) with
    | Some q =>
        match Reply.p_iterative q with
        | Some _ =>
            set_process (λ p, with_resolvers (pr_forwarder p)
              (SetDNSSECValidation (Config.DNSSECValidation (Config.Security cfg)) <$> pr_iterative p) p) s
        | None => s
        end
    | None => s
    end
  else s.

Definition applyFirewall (cfg : Config.Config) : step := λ s,
  match st_fw s, st_db s with
  | Some fw, Some _ =>
      match Firewall.ParseBlockAction (Config.BlockAction (Config.Firewall cfg)) with
      | Err e => (s, Some (errWrap "parse firewall block action: %w" e))
      | Ok action =>
          let fw := Firewall.SetAction fw action in
          let dir := Config.BlocklistsDirectory (Config.Firewall cfg) in
          (set_fw (Some (Firewall.LoadFromDirWithDB (Feeds.read_list_dir (files (st_sys s)) dir)
                           (Feeds.loader_db (st_db s)) fw)) s, None)
      end
  | _, _ => (s, None)
  end.

Definition applyZones (cfg : Config.Config) (s : state) : state :=
  set_sys (LoadZonesFromDir (Config.ZonesDirectory cfg) (st_sys s)) s.

Definition Apply (cfg : Config.Config) : step :=
  applyLogging cfg >>
  run (set_process (λ p, with_limiter (RRL.Reconfigure (Config.RateLimit cfg) (pr_limiter p)) p)) >>
  built "parse trusted subnets: %w" (ACLFromConfig cfg) (λ trusted,
  run (set_process (with_trusted (Some trusted))) >>
  built "parse xfr subnets: %w" (ACLFromXFRConfig cfg) (λ xfr,
  run (set_process (with_xfr (Some xfr))) >>
  built "parse acl/views: %w" (Config.BuildPolicyEngine cfg) (λ policy,
  run (set_process (with_policy (Some policy))) >>
  built "parse rpz: %w" (Config.BuildRPZEngine (T := T) cfg) (λ rpz,
  run (set_process (ApplyRuntimeConfig cfg trusted xfr policy rpz)) >>
  applyAnchors cfg >>
  applyForwarder cfg >>
  run (applyIterative cfg) >>
  applyFirewall cfg >>
  run (applyZones cfg))))).

(** * Lemmas *)

(** Steps that only move along a preorder. *)
Definition along (R : relation state) (a : step) : Prop := ∀ s, R s (a s).1.

Lemma along_seq R `{!Transitive R} a b : along R a → along R b → along R (a >> b).
Proof.
  intros Ha Hb s. specialize (Ha s). unfold seq. destruct (a s) as [s1 [e|]]; [done|]. cbn [fst] in *.
  etrans; [exact Ha|apply Hb].
Qed.

Lemma along_built R `{!Reflexive R} {A} label (r : res A) k :
  (∀ a, r = Ok a → along R (k a)) → along R (built label r k).
Proof. intros Hk s. unfold built. destruct r as [a|e]; [by apply Hk|done]. Qed.

Ltac steps :=
  repeat match goal with
    | |- along _ (seq _ _) => apply along_seq; [apply _|..]
    | |- along _ (built _ _ _) => apply along_built; [apply _|intros ? _]
    end.

(** They take the store through its operations, and leave the NOTIFYs and the
    configuration of the API alone. *)
Definition kept (s s' : state) : Prop :=
  rtc (Api.store_step (P := P)) (st_sys s) (st_sys s') ∧ st_sent s' = st_sent s ∧ st_cfg s' = st_cfg s.
#[local] Instance kept_preorder : PreOrder kept.
Proof.
  split; [done|]. intros s1 s2 s3 (Ra & Sa & Ca) (Rb & Sb & Cb).
  split_and!; [by etrans|by rewrite Sb|by rewrite Cb].
Qed.
Abbreviation keeps := (along kept).

Lemma keeps_process f : keeps (run (set_process f)).
Proof. by intros s. Qed.

Lemma keeps_logging cfg : keeps (applyLogging cfg).
Proof.
  intros s. unfold applyLogging. destruct (st_db s).
  - destruct (Logging.UpdateConfig _ _ _ _) as [[[d w] g] e]. split; [|done]. apply rtc_once, Api.step_files.
  - by destruct (Logging.SetLevel _ _).
Qed.

Lemma keeps_forwarder cfg : keeps (applyForwarder cfg).
Proof.
  intros s. unfold applyForwarder. destruct (pr_forwarder _); [|done]. case_bool_decide; [|done].
  by destruct (Upstream.SetUpstreams _ _).
Qed.

Lemma keeps_iterative cfg : keeps (run (applyIterative cfg)).
Proof.
  intros s. unfold run, applyIterative. case_bool_decide; [|done]. destruct (pr_proc _) as [q|]; [|done].
  by destruct (Reply.p_iterative q).
Qed.

Lemma keeps_firewall cfg : keeps (applyFirewall cfg).
Proof.
  intros s. unfold applyFirewall. destruct (st_fw s), (st_db s); try done.
  by destruct (Firewall.ParseBlockAction _).
Qed.

Lemma keeps_anchors cfg : keeps (applyAnchors cfg).
Proof. intros s. unfold applyAnchors. by destruct (Anchors.ApplyCustomAnchors _ _). Qed.

Lemma keeps_zones cfg : keeps (run (applyZones cfg)).
Proof. intros s. split; [|done]. apply rtc_once, (Api.step_mutation (MLoad _)). Qed.

#[local] Hint Resolve keeps_process keeps_logging keeps_forwarder keeps_iterative
  keeps_firewall keeps_anchors keeps_zones : core.

Lemma apply_keeps cfg : keeps (Apply cfg).
Proof. unfold Apply. steps; auto. Qed.

(** What the applier has no way to change: the resolvers, the cookies, the
    notifier and the shared engines the processor was built with, whether there
    is a forwarder and a limiter, the hints and the minimisation of the iterative resolver. *)
Definition wiring (p : process) :=
  ((λ q : Processor, (Reply.p_forwarder q, Reply.p_iterative q, Reply.p_cookies q, Reply.p_notifier q,
      Reply.p_queryACL q, Reply.p_firewall q)) <$> pr_proc p,
   (λ _, ()) <$> pr_forwarder p, (λ _, ()) <$> pr_limiter p,
   (λ i, (Iterative.rootHints i, Iterative.qnameMinimization i)) <$> pr_iterative p).
Definition same_wiring (s s' : state) : Prop := wiring (st_rest s') = wiring (st_rest s).
#[local] Instance same_wiring_preorder : PreOrder same_wiring.
Proof. split; [done|]. intros s1 s2 s3 H1 H2. by etrans; [exact H2|]. Qed.

Lemma wired_logging cfg : along same_wiring (applyLogging cfg).
Proof.
  intros s. unfold applyLogging. destruct (st_db s).
  - by destruct (Logging.UpdateConfig _ _ _ _) as [[[d w] g] e].
  - by destruct (Logging.SetLevel _ _).
Qed.

Lemma wired_runtime cfg trusted xfr policy rpz :
  along same_wiring (run (set_process (ApplyRuntimeConfig cfg trusted xfr policy rpz))).
Proof.
  intros s. unfold same_wiring, ApplyRuntimeConfig. cbn. destruct (st_rest s) as [[q|] f i l t x pol a]; [|done].
  cbn. unfold wiring. cbn. f_equal; [f_equal; f_equal|].
  - by destruct (Reply.p_forwarder q), f.
  - by destruct (Reply.p_iterative q), i.
Qed.

Lemma wired_anchors cfg : along same_wiring (applyAnchors cfg).
Proof. intros s. unfold applyAnchors. by destruct (Anchors.ApplyCustomAnchors _ _). Qed.

Lemma wired_forwarder cfg : along same_wiring (applyForwarder cfg).
Proof.
  intros s. unfold same_wiring, applyForwarder. destruct (pr_forwarder (st_rest s)) as [f|] eqn:Ef; [|done].
  case_bool_decide; [|done]. destruct (Upstream.SetUpstreams _ _); [|done]. cbn. unfold wiring. cbn. by rewrite Ef.
Qed.

Lemma wired_iterative cfg : along same_wiring (run (applyIterative cfg)).
Proof.
  intros s. unfold same_wiring, run, applyIterative. case_bool_decide; [|done].
  destruct (pr_proc (st_rest s)) as [q|] eqn:Eq; [|done]. destruct (Reply.p_iterative q); [|done].
  cbn. unfold wiring. cbn. rewrite Eq. by destruct (pr_iterative (st_rest s)).
Qed.

Lemma wired_firewall cfg : along same_wiring (applyFirewall cfg).
Proof.
  intros s. unfold applyFirewall. destruct (st_fw s), (st_db s); try done. by destruct (Firewall.ParseBlockAction _).
Qed.

Lemma wired_limiter cfg : along same_wiring (run (set_process (λ p,
  with_limiter (RRL.Reconfigure (Config.RateLimit cfg) (pr_limiter p)) p))).
Proof. intros s. unfold same_wiring, wiring. cbn. by destruct (pr_limiter (st_rest s)). Qed.

#[local] Hint Resolve wired_limiter wired_logging wired_runtime wired_anchors wired_forwarder wired_iterative wired_firewall : wiring.

Lemma apply_wiring cfg s : wiring (st_rest (Apply cfg s).1) = wiring (st_rest s).
Proof.
  revert s. change (along same_wiring (Apply cfg)). unfold Apply.
  steps;
    solve [auto with wiring | by intros s].
Qed.

(** A run without an error went through every step. *)
Lemma seq_ok a b s s' : (a >> b) s = (s', None) → ∃ s1, a s = (s1, None) ∧ b s1 = (s', None).
Proof. unfold seq. destruct (a s) as [s1 [e|]]; [done|]. intros H. by exists s1. Qed.

Lemma built_ok {A} label (r : res A) k s s' : built label r k s = (s', None) → ∃ a, r = Ok a ∧ k a s = (s', None).
Proof. unfold built. destruct r as [a|e]; [|done]. intros H. by exists a. Qed.

(** What is in force after a configuration: of the logger, *)
Definition logs_in_force (cfg : Config.Config) (s s' : state) : Prop :=
  match st_db s with
  | Some _ =>
      let log := Config.Logging cfg in
      Logging.CurrentConfig (st_logs s') = Logging.MkConfig (Config.LogLevel (Config.Server cfg))
        (Logging.MkRotation (Config.FilePath log) (Config.MaxSizeMB log) (Config.MaxBackups log) (Config.MaxAgeDays log))
  | None => Logging.ParseLevel (Config.LogLevel (Config.Server cfg)) = Ok (Logging.level (st_logs s'))
  end.

(** of the processor, which keeps what it shares or was built with, *)
Definition processor_in_force (cfg : Config.Config) trusted xfr policy rpz (q q' : Processor) : Prop :=
  let dnssec := Config.DNSSECValidation (Config.Security cfg) in
  Reply.p_acl q' = Some (Access.Trusted (Some trusted)) ∧ Reply.p_xfrACL q' = Some (Access.Trusted (Some xfr)) ∧
  Reply.p_policyEngine q' = Some policy ∧ Reply.p_rpz q' = rpz ∧
  Reply.p_resolverMode q' = Config.ResolverMode cfg ∧ Reply.p_zonesDir q' = Config.ZonesDirectory cfg ∧
  Reply.p_xfrEnabled q' = Config.xfrEnabled (Config.XFR cfg) ∧
  Reply.p_tsigSecrets q' = Config.NormalizedTSIGKeys cfg ∧
  Reply.p_dnssecValidation q' = dnssec ∧ (dnssec = false → Reply.p_validator q' = None) ∧
  (dnssec = true → ∀ r, Reply.activeResolver q' = Some r → Reply.p_validator q' = Some r) ∧
  (Reply.p_forwarder q' = Reply.p_forwarder q ∧ Reply.p_iterative q' = Reply.p_iterative q ∧
   Reply.p_cookies q' = Reply.p_cookies q ∧ Reply.p_notifier q' = Reply.p_notifier q ∧
   Reply.p_queryACL q' = Reply.p_queryACL q ∧ Reply.p_firewall q' = Reply.p_firewall q).

(** of the forwarder, *)
Definition forwarder_in_force (cfg : Config.Config) (p' : process) : Prop :=
  Config.ResolverMode cfg = "forward" → ∀ f', pr_forwarder p' = Some f' →
  let ecs := Config.ECS cfg in
  Upstream.ValidatedUpstreams (Config.Upstreams (Config.Recursive cfg)) = Ok (Upstream.upstreams f') ∧
  Upstream.f_dnssecValidation f' = Config.DNSSECValidation (Config.Security cfg) ∧
  Upstream.ecsEnabled f' = Config.ecsOn ecs ∧
  Upstream.ecsIPv4PrefixLen f' = uint8 (Config.IPv4PrefixLength ecs) ∧
  Upstream.ecsIPv6PrefixLen f' = uint8 (Config.IPv6PrefixLength ecs).

(** of the iterative resolver, when the processor has one, *)
Definition iterative_in_force (cfg : Config.Config) (p' : process) : Prop :=
  ∀ q' i', pr_proc p' = Some q' → Reply.p_iterative q' ≠ None → pr_iterative p' = Some i' →
  Iterative.i_dnssecValidation i' = Config.DNSSECValidation (Config.Security cfg).

(** and of the firewall: the action, and the lists of the directory and of the
    database as the files stood. *)
Definition firewall_in_force (cfg : Config.Config) (s s' : state) : Prop :=
  ∀ fw, st_fw s = Some fw → st_db s ≠ None →
  ∃ action w, Firewall.ParseBlockAction (Config.BlockAction (Config.Firewall cfg)) = Ok action ∧
    st_fw s' = Some (Firewall.LoadFromDirWithDB
      (Feeds.read_list_dir w (Config.BlocklistsDirectory (Config.Firewall cfg)))
      (Feeds.loader_db (st_db s')) (Firewall.SetAction fw action)) ∧
    st_sys s' = LoadZonesFromDir (Config.ZonesDirectory cfg) (set_files (st_sys s) w).

Lemma save_some d c : (Logging.SaveConfig (Some d) c).1 ≠ None.
Proof. unfold Logging.SaveConfig. by repeat case_match. Qed.

Lemma logging_spec cfg s s' : applyLogging cfg s = (s', None) →
  logs_in_force cfg s s' ∧ st_fw s' = st_fw s ∧ (st_db s' = None ↔ st_db s = None) ∧ st_rest s' = st_rest s ∧
  ∃ w, st_sys s' = set_files (st_sys s) w.
Proof.
  unfold applyLogging, logs_in_force. destruct (st_db s) as [d|] eqn:Ed.
  - set (c := Logging.MkConfig _ _). destruct (Logging.UpdateConfig _ c _ _) as [[[d' w] g] e] eqn:E.
    intros [= <- He]. destruct e; [done|]. cbn [st_logs st_fw st_db st_rest st_sys].
    assert (Logging.CurrentConfig g = c ∧ d' ≠ None) as [Hc Hd].
    { revert E. unfold Logging.UpdateConfig. destruct (Logging.validateConfig c); [done|].
      destruct (Logging.SetLevel _ _) as [g1 [e1|]]; [done|].
      destruct (Logging.ensureLogDirectory _ _) as [w1 [e1|]]; [done|].
      destruct (Logging.SaveConfig (Some d) c) as [d1 e1] eqn:Es. intros [= <- _ <- ->]. split; [done|].
      pose proof (save_some d c) as Hs. by rewrite Es in Hs. }
    split_and!; [exact Hc|done|by split|done|by exists w].
  - destruct (Logging.SetLevel _ _) as [g e] eqn:E. intros [= <- He]. destruct e; [done|].
    cbn [st_logs st_fw st_db st_rest st_sys]. split; [|split; [done|split; [by unfold set_logs; cbn; rewrite Ed|split; [done|]]]].
    2: { exists (files (st_sys s)). unfold set_logs. cbn. by destruct (st_sys s). }
    revert E. unfold Logging.SetLevel. destruct (Logging.ParseLevel _); [|done]. by intros [= <-].
Qed.

Lemma anchors_spec cfg s s' : applyAnchors cfg s = (s', None) → ∃ a,
  Anchors.loadAnchors (Config.NormalizedRootAnchors (Config.Security cfg)) = Ok (Anchors.rootKeys a) ∧
  s' = set_process (with_anchors a) s.
Proof.
  unfold applyAnchors, Anchors.ApplyCustomAnchors. destruct (Anchors.loadAnchors _) as [keys|e] eqn:E; [|done].
  intros [= <-]. eexists. split; [|reflexivity]. done.
Qed.

Lemma forwarder_spec cfg s s' : applyForwarder cfg s = (s', None) →
  ∃ f, s' = set_process (λ p, with_resolvers f (pr_iterative p) p) s ∧
    forwarder_in_force cfg (st_rest s').
Proof.
  unfold applyForwarder, forwarder_in_force.
  assert (Hsame : set_process (λ p, with_resolvers (pr_forwarder (st_rest s)) (pr_iterative p) p) s = s)
    by (by destruct s as [????????? ? ? []]).
  destruct (pr_forwarder (st_rest s)) as [f|] eqn:Ef.
  - case_bool_decide as Em.
    + unfold Upstream.SetUpstreams. destruct (Upstream.ValidatedUpstreams _) as [addrs|e]; [|done].
      cbn [res_bind]. intros [= <-]. eexists. split; [done|]. by intros _ f' [= <-].
    + intros [= <-]. exists (Some f). by rewrite Hsame.
  - intros [= <-]. exists None. rewrite Hsame. split; [done|]. intros _ f'. by rewrite Ef.
Qed.

Lemma firewall_spec cfg s s' : applyFirewall cfg s = (s', None) →
  ∃ fw', s' = set_fw fw' s ∧
  ∀ fw, st_fw s = Some fw → st_db s ≠ None → ∃ action,
    Firewall.ParseBlockAction (Config.BlockAction (Config.Firewall cfg)) = Ok action ∧
    fw' = Some (Firewall.LoadFromDirWithDB
      (Feeds.read_list_dir (files (st_sys s)) (Config.BlocklistsDirectory (Config.Firewall cfg)))
      (Feeds.loader_db (st_db s)) (Firewall.SetAction fw action)).
Proof.
  unfold applyFirewall. destruct (st_fw s) as [fw|] eqn:Ef.
  - destruct (st_db s) as [d|] eqn:Ed.
    + destruct (Firewall.ParseBlockAction _) as [action|e]; [|done]. intros [= <-]. eexists. split; [done|].
      intros _ [= <-] _. by exists action.
    + intros [= <-]. exists (Some fw). split; [by destruct s; cbn in *; subst|done].
  - intros [= <-]. exists None. split; [by destruct s; cbn in *; subst|done].
Qed.

Lemma iterative_spec cfg s : ∃ i, applyIterative cfg s = set_process (λ p, with_resolvers (pr_forwarder p) i p) s ∧
  (iterative_in_force cfg (st_rest s) → iterative_in_force cfg (st_rest (applyIterative cfg s))).
Proof.
  assert (Hsame : set_process (λ p, with_resolvers (pr_forwarder p) (pr_iterative (st_rest s)) p) s = s)
    by (by destruct s as [????????? ? ? []]).
  unfold applyIterative. case_bool_decide; [|by exists (pr_iterative (st_rest s))].
  destruct (pr_proc (st_rest s)) as [q|] eqn:Eq; [|by exists (pr_iterative (st_rest s))].
  destruct (Reply.p_iterative q) as [r|] eqn:Er; [|by exists (pr_iterative (st_rest s))].
  eexists. split; [done|]. intros _ q' i' Hq Hn.
  cbn. intros (i & _ & ->)%fmap_Some. done.
Qed.

Lemma runtime_in_force cfg trusted xfr policy rpz p q : pr_proc p = Some q →
  let p' := ApplyRuntimeConfig cfg trusted xfr policy rpz p in
  (∃ q', pr_proc p' = Some q' ∧ processor_in_force cfg trusted xfr policy rpz q q') ∧
  iterative_in_force cfg p' ∧ pr_limiter p' = pr_limiter p ∧ pr_trusted p' = pr_trusted p ∧
  pr_xfr p' = pr_xfr p ∧ pr_policy p' = pr_policy p.
Proof.
  intros Hq p'. subst p'. unfold ApplyRuntimeConfig. rewrite Hq. split_and!; try done.
  - eexists. split; [done|]. unfold processor_in_force. split_and!; try done.
    + intros Hd. cbn. by rewrite Hd.
    + intros Hd r Hr. unfold Reply.activeResolver in Hr |- *. cbn in Hr |- *. rewrite Hd. by rewrite Hr.
  - intros q' i' [= <-] Hn. cbn in *. destruct (Reply.p_iterative q); [|done]. by intros (i & _ & ->)%fmap_Some.
Qed.

(** Everything that is in force once a configuration was accepted. *)
Definition applied (cfg : Config.Config) (s s' : state) (q : Processor) : Prop :=
  let p' := st_rest s' in
  ∃ trusted xfr policy rpz, ACLFromConfig cfg = Ok trusted ∧ ACLFromXFRConfig cfg = Ok xfr ∧
    Config.BuildPolicyEngine cfg = Ok policy ∧ Config.BuildRPZEngine (T := T) cfg = Ok rpz ∧
    (∃ q', pr_proc p' = Some q' ∧ processor_in_force cfg trusted xfr policy rpz q q') ∧
    pr_trusted p' = Some trusted ∧ pr_xfr p' = Some xfr ∧ pr_policy p' = Some policy ∧
    pr_limiter p' = RRL.Reconfigure (Config.RateLimit cfg) (pr_limiter (st_rest s)) ∧
    Anchors.loadAnchors (Config.NormalizedRootAnchors (Config.Security cfg)) = Ok (Anchors.rootKeys (pr_anchors p')) ∧
    logs_in_force cfg s s' ∧ forwarder_in_force cfg p' ∧ iterative_in_force cfg p' ∧ firewall_in_force cfg s s' ∧
    ∃ w, st_sys s' = LoadZonesFromDir (Config.ZonesDirectory cfg) (set_files (st_sys s) w).

Lemma apply_effect cfg s s' q : Apply cfg s = (s', None) → pr_proc (st_rest s) = Some q → applied cfg s s' q.
Proof.
  intros H Hq. unfold applied. set (p' := st_rest s'). cbn zeta. unfold Apply in H.
  apply seq_ok in H as (s1 & (Hlog & Hfw1 & Hdb1 & Hrest1 & w & Hsys1)%logging_spec & H).
  apply seq_ok in H as (s2 & [= E2] & H). apply built_ok in H as (trusted & Ht & H).
  apply seq_ok in H as (s3 & [= E3] & H). apply built_ok in H as (xfr & Hx & H).
  apply seq_ok in H as (s4 & [= E4] & H). apply built_ok in H as (policy & Hp & H).
  apply seq_ok in H as (s5 & [= E5] & H). apply built_ok in H as (rpz & Hr & H).
  apply seq_ok in H as (s6 & [= E6] & H).
  apply seq_ok in H as (s7 & (a & Ha & E7)%anchors_spec & H).
  apply seq_ok in H as (s8 & (f & E8 & Hf)%forwarder_spec & H).
  apply seq_ok in H as (s9 & [= E9] & H). destruct (iterative_spec cfg s8) as (i & Ei & Hi).
  apply seq_ok in H as (s10 & (fw & E10 & Hfw)%firewall_spec & H). injection H as E11.
  assert (Hq5 : pr_proc (st_rest s5) = Some q) by (subst s5 s4 s3 s2; cbn; by rewrite Hrest1).
  destruct (runtime_in_force cfg trusted xfr policy rpz (st_rest s5) q Hq5)
    as ((q' & Hq' & Hpf) & Hit & Hl & Htr & Hxf & Hpo).
  exists trusted, xfr, policy, rpz. split_and!; try done.
  - exists q'. split; [|done]. subst p' s' s10 s9. rewrite Ei. subst s8 s7 s6. exact Hq'.
  - subst p' s' s10 s9. rewrite Ei. subst s8 s7 s6. cbn. rewrite Htr. by subst s5 s4 s3.
  - subst p' s' s10 s9. rewrite Ei. subst s8 s7 s6. cbn. rewrite Hxf. by subst s5 s4.
  - subst p' s' s10 s9. rewrite Ei. subst s8 s7 s6. cbn. rewrite Hpo. by subst s5.
  - subst p' s' s10 s9. rewrite Ei. subst s8 s7 s6. cbn. rewrite Hl. subst s5 s4 s3 s2. cbn. by rewrite Hrest1.
  - subst p' s' s10 s9. rewrite Ei. by subst s8 s7.
  - revert Hlog. unfold logs_in_force. subst s' s10 s9. rewrite Ei. by subst s8 s7 s6 s5 s4 s3 s2.
  - subst p' s' s10 s9. rewrite Ei. exact Hf.
  - subst p' s' s10 s9. apply Hi. subst s8 s7 s6. exact Hit.
  - intros fw0 Hfw0 Hdb0. assert (E9' : st_fw s9 = st_fw s1 ∧ st_db s9 = st_db s1 ∧ st_sys s9 = st_sys s1).
    { subst s9. rewrite Ei. by subst s8 s7 s6 s5 s4 s3 s2. }
    destruct E9' as (F9 & D9 & Y9). destruct (Hfw fw0) as (action & Hact & ->);
      [by rewrite F9, Hfw1|by rewrite D9, Hdb1|]. exists action, w. split; [done|]. subst s' s10. cbn.
    rewrite Y9, Hsys1. done.
  - exists w. subst s' s10 s9. rewrite Ei. subst s8 s7 s6 s5 s4 s3 s2. cbn. by rewrite Hsys1.
Qed.


(** ** A configuration that was prepared *)
Lemma prepared_inv w merged cfg : Config.PrepareForApply (T := T) w merged = Ok cfg →
  let c := Config.settle merged in
  Config.Validate (T := T) w c = None ∧
  ∃ up, cfg = Config.with_recursive (Config.MkRecursive up (Config.TrustedSubnets (Config.Recursive c))) c.
Proof.
  unfold Config.PrepareForApply. cbn zeta. fold (Config.settle merged). set (c := Config.settle merged).
  destruct (Config.Validate (T := T) w c) as [e|]; [done|]. unfold Config.normalizeUpstreamsForStorage.
  case_bool_decide; cbn [negb].
  - destruct (Upstream.ValidatedUpstreams _) as [up|e]; [|done]. intros [= <-]. split; [done|by exists up].
  - intros [= <-]. split; [done|]. exists (Config.Upstreams (Config.Recursive c)).
    destruct c as [????? []]. reflexivity.
Qed.

Lemma prepared_builds w merged cfg : Config.PrepareForApply (T := T) w merged = Ok cfg →
  (∃ policy, Config.BuildPolicyEngine cfg = Ok policy) ∧ (∃ rpz, Config.BuildRPZEngine (T := T) cfg = Ok rpz) ∧
  ∃ action, Firewall.ParseBlockAction (Config.BlockAction (Config.Firewall cfg)) = Ok action.
Proof.
  intros (Hv & up & ->)%prepared_inv. set (c := Config.settle merged) in *. clearbody c.
  change (Config.BuildPolicyEngine _) with (Config.BuildPolicyEngine c).
  change (Config.BuildRPZEngine _) with (Config.BuildRPZEngine (T := T) c). cbn [Config.Firewall Config.with_recursive].
  unfold Config.Validate in Hv. rewrite Config.first_error_none, !Forall_cons in Hv.
  destruct Hv as (_ & _ & _ & _ & _ & _ & Hb & _ & _ & _ & _ & _ & _ & _ & _ & Ha & Hr & _).
  split_and!.
  - by apply Config.error_of_none.
  - by destruct (Config.validateRPZ_builds c Hr) as (rpz & ? & _); exists rpz.
  - unfold Config.validateBlockAction in Hb. apply Config.check_none, bool_decide_eq_true in Hb.
    unfold Firewall.ParseBlockAction.
    repeat (apply elem_of_cons in Hb as [->|Hb]; [by eexists|]). by apply elem_of_nil in Hb.
Qed.

(** The steps that can refuse a configuration. *)
Definition refusals : list string :=
  ["apply logging config: %w"; "apply log level: %w"; "parse trusted subnets: %w"; "parse xfr subnets: %w";
   "apply root anchors: %w"; "apply upstreams: %w"].

Definition refuses (labels : list string) (a : step) : Prop := ∀ s s' e,
  a s = (s', Some e) → ∃ label e', label ∈ labels ∧ e = errWrap label e'.

Lemma refuses_seq ls a b : refuses ls a → refuses ls b → refuses ls (a >> b).
Proof. intros Ha Hb s s' e. unfold seq. destruct (a s) as [s1 [e1|]] eqn:E; [intros [= <- <-]; by eapply Ha|apply Hb]. Qed.
Lemma refuses_run ls f : refuses ls (run f).
Proof. by intros s s' e. Qed.
Lemma refuses_built {A} ls label (r : res A) k :
  ((∃ a, r = Ok a) ∨ label ∈ ls) → (∀ a, r = Ok a → refuses ls (k a)) → refuses ls (built label r k).
Proof.
  intros Hr Hk s s' e. unfold built. destruct r as [a|e1]; [by apply Hk|]. intros [= <- <-].
  destruct Hr as [[a ?]|Hl]; [done|]. by exists label, e1.
Qed.

Lemma wrapped (ls : list string) label (e : option error) e' : errWrap label <$> e = Some e' → label ∈ ls →
  ∃ l e0, l ∈ ls ∧ e' = errWrap l e0.
Proof. intros (e0 & _ & ->)%fmap_Some Hl. by exists label, e0. Qed.

Ltac label := by repeat (left || right).


End runtime.

(** ** The server with its applier *)
Section server.
Context {T : Type → Type} {W D P B X : Type}.
Context {RO : RadixOps T} {RL : RadixLaws T} {MR : MapRange} {SS : SortSlice} {DT : DnsText} {DG : Digest}
  {DV : DnssecVerify} {ZP : ZoneParser} {FS : FileSys W} {FL : FileSysLaws W} {ST : FileStat W} {KD : KeyDB D}
  {DC : DnssecCrypto P} {KT : KeyText P} {TR : TCPResolver} {TM : Toml Config.Config}
  {FD : FeedsDB B} {RD : RulesDB B} {CD : Logging.ConfigDB B} {AD : AuditDB B} {HD : HistoryDB B}
  {SE : ErrorText} {TT : TimeText} {DY : DayText} {FN : FeedNet X} {L : Type}.
Context {J1 : Json RecordInput} {J2 : Json createZoneRequest} {J3 : Json dnssecZoneRequest}
  {J4 : Json createSourceRequest} {J5 : Json patchSourceRequest} {J6 : Json createCustomRequest}
  {J7 : Json aclRuleRequest} {J8 : Json aclConfigPayload} {J9 : Json rpzConfigPayload}
  {J10 : Json logsConfigRequest} {J11 : Json Config.Config} {J12 : Json string}
  {WB : WebBuild} {ST2 : Api.SlogText}.

Abbreviation state := (Handlers.state (T := T) (W := W) (D := D) (B := B) (R := process (T := T) (L := L))).
Abbreviation srv_type := (server (T := T) (W := W) (D := D) (B := B) (R := process (T := T) (L := L))).

Definition with_applier (srv : srv_type) : srv_type :=
  MkServer (configPath srv) (authToken srv) (notifier srv) (Some Apply).

Lemma applier_conforms srv : Api.applier_ok (P := P) (with_applier srv).
Proof. intros apply c s [= <-]. apply (apply_keeps c s). Qed.

(** C5: the server with its applier changes the store by the operations of the
    store alone: whatever the request, the store it leaves is the old one after
    such operations and files written beside it, so well-formed trees stay
    well-formed; and a request that is answered with a failure sends no
    NOTIFY. *)
Theorem server_store_discipline srv ev rq (s s' : state) r :
  Api.serve (P := P) (X := X) (with_applier srv) ev rq s = (s', r) →
  rtc (Api.store_step (P := P)) (st_sys s) (st_sys s') ∧
  (wf_mem (mem (st_sys s)) → wf_mem (mem (st_sys s'))) ∧
  (Api.succeeded r.1 = false → st_sent s' = st_sent s).
Proof. apply Api.serve_keeps, applier_conforms. Qed.

End server.

(** ** What the applier does not reach *)

(** A plain address among the trusted subnets passes the validation, which
    reads them as a match list, and is refused by the applier, which wants
    prefixes: the API has then already written and set it. *)
Definition plain_subnet : Config.Config :=
  Config.with_recursive (Config.MkRecursive ["1.1.1.1"] ["10.0.0.1"]) Config.demo_config.
#[local] Existing Instances Config.demo_tcp Config.demo_toml Signer.demo_crypto KeyStore.demo_key_text Store.demo_parser
  Store.demo_digest Validator.demo_verify.

Lemma plain_subnet_refused :
  (∃ cfg, Config.PrepareForApply (T := gtree) (∅ : ram) plain_subnet = Ok cfg ∧
     ∃ e, ACLFromConfig cfg = Err e).
Proof. eexists. split; [by vm_compute|]. eexists. by vm_compute. Qed.

(** Changing the slaves to notify, the cookies or the token of the API counts as
    a change that needs no restart, while the applier leaves the notifier and
    the cookies as they are. *)
Definition other_token : Config.Config :=
  let c := Config.demo_config in
  Config.MkConfig (Config.Server c) (Config.TLS c) (Config.Listeners c)
    (Config.MkAPI (Config.apiListen (Config.API c)) "rotated" (Config.TLSCert (Config.API c)) (Config.TLSKey (Config.API c)))
    (Config.ZonesDirectory c) (Config.Recursive c) (Config.Resolver c) (Config.Firewall c)
    (Config.MkSecurity true false "" []) (Config.RateLimit c) (Config.ECS c) (Config.Logging c)
    (Config.UpdateKeys c) (Config.MkXFR true [] ["10.0.0.9"]) (Config.ACLs c) (Config.Views c) (Config.RPZs c).

Lemma silent_settings : Config.RequiresRestart Config.demo_config other_token = false.
Proof. by vm_compute. Qed.

End Runtime.

(** * Witnesses *)
#[local] Existing Instances Config.demo_tcp Config.demo_toml Signer.demo_crypto KeyStore.demo_key_text Store.demo_parser
  Store.demo_digest Validator.demo_verify.

Definition demo_processor : Reply.Processor gtree Runtime.resolver_ref Runtime.resolver_ref :=
  Reply.MkProcessor (Some Runtime.TheForwarder) None "forward" None None None None false None None ∅ "" false None None None.

Abbreviation live_state := (state (T := gtree) (W := ram) (D := key_table) (B := demo_db)
  (R := Runtime.process (T := gtree) (L := nat))).

Definition demo_process : Runtime.process (T := gtree) (L := nat) :=
  Runtime.MkProcess (Some demo_processor) (Some (Upstream.NewForwarder ["9.9.9.9"])) None None None None None
    (Anchors.MkAnchors true None []).
Definition demo_live : live_state :=
  MkState Config.demo_config demo_created (Some (MkDemoDB (MkDemo ∅ ∅) ∅ ∅ []))
    (Some (Firewall.New Firewall.BlockActionNXDOMAIN)) (Some None) (Feeds.MkSync false 0) []
    (Logging.MkLogger 0 (Logging.DefaultConfig "INFO") None) (Logging.NewRingBuffer 5) Logging.NewBroadcaster
    Counters.New demo_process.
Definition demo_live_server : server (T := gtree) (W := ram) (D := key_table) (B := demo_db)
    (R := Runtime.process (T := gtree) (L := nat)) :=
  MkServer "/etc/dns.toml" "s3cret" (Some (Reply.MkNotifier true ["10.0.0.9:53"])) None.

Definition live_serve (rq : request) : live_state * response :=
  Api.serve (P := string) (X := nat) (Runtime.with_applier demo_live_server) demo_env rq demo_live.

Lemma server_store_discipline_witness :
  let rq := demo_request "POST" "/api/v1/zones/example.com/records" "s3cret" "record" in
  (live_serve rq).2.1 = StatusCreated ∧ wf_mem (mem (st_sys (live_serve rq).1)).
Proof.
  cbn zeta. set (rq := demo_request _ _ _ _). split; [by vm_compute|].
  destruct (live_serve rq) as [s' r] eqn:E. cbn [fst].
  eapply (Runtime.server_store_discipline (P := string) (X := nat) demo_live_server demo_env rq demo_live s' r E).
  exact demo_created_wf.
Defined.

(** A parser of resource records that reads a key-signing key. *)
Definition key_line : DnsText :=
  {| type_string := type_string (DnsText := demo_dns_text);
     string_to_type := string_to_type (DnsText := demo_dns_text);
     rr_string := rr_string (DnsText := demo_dns_text);
     new_rr line := Ok (Some (Validator.demo_key "." 257 line));
     is_duplicate := is_duplicate (DnsText := demo_dns_text);
     canonical_name := canonical_name (DnsText := demo_dns_text);
     fqdn := fqdn (DnsText := demo_dns_text) |}.
#[local] Existing Instance key_line | 0.

Definition demo_apply : live_state * option error := Runtime.Apply Config.demo_config demo_live.


