(* ===== verification/Start.v ===== *)
(** * Starting the server: cmd/arx-dns/main.go

    The steps of [main] in their order, from the files to the services, with
    the constructors they call: what is read, built and shared, and where the
    start ends. The services are named, not run. A failed step ends the
    process with status 1; what it did to the files stays. *)
From S2P Require Import Prelude Telemetry Radix NetAddr Dns Acl Rpz Firewall Ttl Owner Sorting Tree Records.
From S2P Require Import KeyStore Signer Files Store Cache Access Upstream Validator Config RootHints Sql Logging Feeds Reports Rules.
From S2P Require Import Schema Http Watcher Query Iterative Reply Update Handlers Api RateLimit Runtime.
Import Owner TTL KeyStore Store Http Handlers Runtime.

(** What the statements of the handlers see of an opened main.db: its tables,
    and those of the keys. *)
Class OpenedDB (W C B D : Type) := {
  opened_tables : W → Schema.DB C → B;
  opened_keys : W → Schema.DB C → D
}.

(** [ristretto.NewCache] and [tls.LoadX509KeyPair]. *)
Class StartEnv (W Ch : Type) := {
  new_cache : res Ch;
  load_key_pair : W → string → string → option error
}.

Module Start.

(** A service that was started, and the end of a start that failed. *)
Inductive service := SvcAPI | SvcUDP | SvcTCP | SvcDoT (address : string) | SvcDoH (address : string).

#[export] Instance service_eq_dec : EqDecision service.
Proof. solve_decision. Defined.

(** The message, and the services that were already running. *)
Record exit := MkExit { why : string; running : list service }.

Section start.
Context {T : Type → Type} {W C D P B X Y L Ch : Type}.
Context {RO : RadixOps T} {MR : MapRange} {SS : SortSlice} {DT : DnsText} {DM : DnsMsg} {DQ : DnsQuestion} {DG : Digest}
  {DV : DnssecVerify} {ZP : ZoneParser} {FS : FileSys W} {ST : FileStat W} {SQ : Sqlite W C} {FN : FsNotify W}
  {KD : KeyDB D} {DC : DnssecCrypto P} {KT : KeyText P} {TR : TCPResolver} {TM : Toml Config.Config} {HM : Hmac}
  {FD : FeedsDB B} {RD : RulesDB B} {CD : Logging.ConfigDB B} {CL : DnsClient X} {HN : HintsNet Y}
  {OD : OpenedDB W C B D} {SE : StartEnv W Ch}.

Abbreviation Processor := (Reply.Processor T resolver_ref resolver_ref).
Abbreviation process := (Runtime.process (T := T) (L := L)).
Abbreviation state := (Handlers.state (T := T) (W := W) (D := D) (B := B) (R := process)).
Abbreviation server := (Handlers.server (T := T) (W := W) (D := D) (B := B) (R := process)).

(** ** The state of a start, and its steps *)
Record machine := MkMachine { m_files : W; m_hints : Y; m_net : Upstream.network (X := X) }.
Definition M (A : Type) : Type := machine → machine * (exit + A).
Definition ret {A} (a : A) : M A := λ m, (m, inr a).
Definition bind {A A'} (x : M A) (k : A → M A') : M A' := λ m,
  match x m with (m, inl e) => (m, inl e) | (m, inr a) => k a m end.
Definition on_files {A} (f : W → W * A) : M A := λ m,
  let '(w, a) := f (m_files m) in (MkMachine w (m_hints m) (m_net m), inr a).
Definition reads {A} (f : W → A) : M A := λ m, (m, inr (f (m_files m))).
(** [os.Exit(1)] after a message, with what is running by then. *)
Definition fatal {A} (message : string) (started : list service) : M A := λ m, (m, inl (MkExit message started)).
Definition check (message : string) (e : option error) : M () :=
  match e with Some _ => fatal message [] | None => ret () end.
Definition demand {A} (message : string) (r : res A) : M A :=
  match r with Err _ => fatal message [] | Ok a => ret a end.

Notation "'let*' x ':=' m 'in' k" := (bind m (λ x, k))
  (at level 10, x pattern, m at level 100, k at level 200).

(** ** Constructors *)

(** dnsproc/processor.go. *)
Definition New (forwarder iterative : option resolver_ref) (resolverMode : string)
    (acl : option (addr → bool)) (queryACL : option (option Access.aclSnapshot)) (fw : option (Firewall.Engine T))
    (dnssecValidation : bool) (cookies : option Reply.CookieHandler) (tsigSecrets : gmap string string)
    (zonesDir : string) (xfrEnabled : bool) (xfrACL : option (addr → bool)) (notifier : option Reply.Notifier)
    (policyEngine : option ACL.Engine) : Processor :=
  let p : Processor := Reply.MkProcessor forwarder iterative resolverMode acl queryACL fw None dnssecValidation None cookies
    tsigSecrets zonesDir xfrEnabled xfrACL notifier policyEngine in
  let validator := if dnssecValidation then Reply.activeResolver p else None in
  Reply.MkProcessor forwarder iterative resolverMode acl queryACL fw None dnssecValidation validator cookies
    tsigSecrets zonesDir xfrEnabled xfrACL notifier policyEngine.
Definition SetRPZ (engine : option (RPZ.Engine (T := T))) (p : Processor) : Processor :=
  Reply.MkProcessor (Reply.p_forwarder p) (Reply.p_iterative p) (Reply.p_resolverMode p) (Reply.p_acl p)
    (Reply.p_queryACL p) (Reply.p_firewall p) engine (Reply.p_dnssecValidation p) (Reply.p_validator p)
    (Reply.p_cookies p) (Reply.p_tsigSecrets p) (Reply.p_zonesDir p) (Reply.p_xfrEnabled p) (Reply.p_xfrACL p)
    (Reply.p_notifier p) (Reply.p_policyEngine p).

(** dnsproc/acl.go: the checker of a database that is not nil. *)
Definition NewQueryAccessChecker (db : B) : res (option Access.aclSnapshot) :=
  match Access.Reload (Some (Rules.ListRules (Some db))) None with
  | (_, Some e) => Err e
  | (snap, None) => Ok snap
  end.

(** config.go. *)
Definition BuildTLSConfig (c : Config.Config) (w : W) : option error :=
  if negb (Config.EncryptedDNSEnabled c) then Some (errNew "tls certificate and key paths are required")
  else errWrap "load tls certificate: %w" <$>
    load_key_pair w (Config.CertFile (Config.TLS c)) (Config.KeyFile (Config.TLS c)).

(** network.NewCookieEngine behind the variable of [main]: a pointer that stays
    nil is still a handler once it is passed as the interface. *)
Definition cookieHandler (secret : option string) : Reply.CookieHandler :=
  Reply.MkCookieHandler (Access.ServerCookie secret) (Access.Verify secret).

(** ** The parts of [main] *)
Definition newLogger (cfg : Config.Config) (db : option B) (g : Logging.logger) : M (option B * Logging.logger) :=
  let* (db, g, e) := on_files (λ w, let '(db, w, g, e) :=
    Logging.New (Config.LogLevel (Config.Server cfg)) db w g in (w, (db, g, e))) in
  let* _ := check "invalid log level configuration" e in
  let log := Config.Logging cfg in
  let logCfg := Logging.MkConfig (Config.LogLevel (Config.Server cfg))
    (Logging.MkRotation (Config.FilePath log) (Config.MaxSizeMB log) (Config.MaxBackups log) (Config.MaxAgeDays log)) in
  on_files (λ w, let '(db, w, g, _) := Logging.UpdateConfig db logCfg w g in (w, (db, g))).

Definition loadHints (cfg : Config.Config) (now : N) : M (list string) :=
  let* hints := (λ m,
    let '(hints, w, y) := RootHints.LoadRootHints (Some cfg) (Config.RootHintsFile (Config.Resolver cfg))
      (Config.AutoUpdateRootHints (Config.Resolver cfg)) Config.DefaultRootHints now (m_files m) (m_hints m) in
    (MkMachine w y (m_net m), inr hints)) in
  match hints with
  | [] => fatal "no root hints available after fetch and fallback" []
  | _ => ret hints
  end.

Definition newResolver (cfg : Config.Config) (hints : list string)
    : M (option Upstream.Forwarder * option Iterative.IterativeResolver) :=
  if bool_decide (Config.ResolverMode cfg = "forward") then
    let* f := demand "invalid upstream configuration"
      (Upstream.NewForwarderFromConfig (Config.Upstreams (Config.Recursive cfg))
         (Config.DNSSECValidation (Config.Security cfg)) (Config.ecsOn (Config.ECS cfg))
         (uint8 (Config.IPv4PrefixLength (Config.ECS cfg))) (uint8 (Config.IPv6PrefixLength (Config.ECS cfg)))) in
    let* e := (λ m, let '(e, n) := Upstream.PreWarm f (m_net m) in (MkMachine (m_files m) (m_hints m) n, inr e)) in
    let* _ := check "upstream pre-warm failed" e in
    ret (Some f, None)
  else if bool_decide (Config.ResolverMode cfg = "iterative") then
    let* i := demand "invalid iterative resolver configuration"
      (Iterative.NewIterativeFromConfig hints (Config.DNSSECValidation (Config.Security cfg))
         (Config.QNameMinimization (Config.Resolver cfg))) in
    ret (None, Some i)
  else fatal "invalid resolver mode" [].

Definition newCookies (cfg : Config.Config) : M (option string) :=
  if Config.DNSCookiesEnabled (Config.Security cfg)
  then let* secret := demand "invalid dns cookie secret" (Config.DNSCookieSecretBytes cfg) in ret (Some secret)
  else ret None.

(** The listeners for encrypted DNS, when a certificate is configured; the
    others are running by then. *)
Definition startServices (cfg : Config.Config) : M (list service) :=
  let base := [SvcAPI; SvcUDP; SvcTCP] in
  if Config.EncryptedDNSEnabled cfg then
    let* e := reads (BuildTLSConfig cfg) in
    match e with
    | Some _ => fatal "failed to load tls configuration" base
    | None =>
        let l := Config.Listeners cfg in
        ret (base ++ (if bool_decide (trim_space (Config.DoT l) = "") then [] else [SvcDoT (Config.DoT l)])
                  ++ (if bool_decide (trim_space (Config.DoH l) = "") then [] else [SvcDoH (Config.DoH l)]))
    end
  else ret base.

(** What runs in the end; the watchers with the clocks they start at. *)
Record live := MkLive {
  l_cfg : Config.Config; l_state : state; l_server : server; l_cache : Ch; l_hints : list string;
  l_firewallWatch : option (Watcher.watcher W (Firewall.Engine T) ());
  l_zoneWatch : option (Watcher.watcher W (Memory T) bool);
  l_services : list service
}.

Definition processorOf (cfg : Config.Config) (forwarder : option Upstream.Forwarder)
    (iterative : option Iterative.IterativeResolver) (acl xfrACL : list prefix) (queryACL : option Access.aclSnapshot)
    (fw : Firewall.Engine T) (secret : option string) (notifier : Reply.Notifier) (policy : ACL.Engine)
    (rpz : option (RPZ.Engine (T := T))) : Processor :=
  SetRPZ rpz
    (New ((λ _, TheForwarder) <$> forwarder) ((λ _, TheIterative) <$> iterative) (Config.ResolverMode cfg)
      (Some (Access.Trusted (Some acl))) (Some queryACL) (Some fw) (Config.DNSSECValidation (Config.Security cfg))
      (Some (cookieHandler secret)) (Config.NormalizedTSIGKeys cfg) (Config.ZonesDirectory cfg)
      (Config.xfrEnabled (Config.XFR cfg)) (Some (Access.Trusted (Some xfrACL))) (Some notifier) (Some policy)).

Definition start (configPath : string) (rnd : res string) (now : N) (g : Logging.logger) : M live :=
  let* e := on_files (λ w, Config.Bootstrap w configPath) in
  let* _ := check "failed to bootstrap runtime environment" e in
  let* r := on_files (λ w, Config.Load (T := T) w rnd configPath) in
  let* cfg := demand "failed to load configuration" r in
  let '(e, anchors) := Anchors.InitAnchorsWithCustom (Config.NormalizedRootAnchors (Config.Security cfg))
    (Anchors.MkAnchors false None []) in
  let* _ := check "failed to initialize DNSSEC root anchors" e in
  let* r := on_files (λ w, Schema.OpenDB (C := C) "./data" w) in
  let* telemetryDB := demand "failed to open telemetry databases" r in
  let* db := reads (λ w, opened_tables w telemetryDB) in
  let* (db, g) := newLogger cfg (Some db) g in
  let* store := reads (λ w,
    LoadZonesFromDir (Config.ZonesDirectory cfg)
      (MkSystem (MkMemory radix_new radix_new ∅ ∅ ∅ true) w (opened_keys w telemetryDB))) in
  let* action := demand "invalid firewall block action"
    (Firewall.ParseBlockAction (Config.BlockAction (Config.Firewall cfg))) in
  let* fw := reads (λ w,
    Firewall.LoadFromDirWithDB (Feeds.read_list_dir w (Config.BlocklistsDirectory (Config.Firewall cfg)))
      (Feeds.loader_db db) (Firewall.New action)) in
  let* hints := loadHints cfg now in
  let* cache := demand "failed to initialize response cache" new_cache in
  let* acl := demand "invalid trusted subnets configuration" (ACLFromConfig cfg) in
  let* xfrACL := demand "invalid zone transfer ACL configuration" (ACLFromXFRConfig cfg) in
  let* slaves := demand "invalid notify slaves configuration" (Config.NormalizedNotifySlaves cfg) in
  let notifier := Update.NewNotifier (Config.xfrEnabled (Config.XFR cfg)) slaves in
  let* (forwarder, iterative) := newResolver cfg hints in
  let* secret := newCookies cfg in
  let* queryACL := match db with
    | Some d => demand "failed to load query access ACL" (NewQueryAccessChecker d)
    | None => ret (Some (Access.Snapshot false false [] []))
    end in
  let* policy := demand "invalid acl/views configuration" (Config.BuildPolicyEngine cfg) in
  let* rpz := demand "invalid rpz configuration" (Config.BuildRPZEngine (T := T) cfg) in
  let proc := processorOf cfg forwarder iterative acl xfrACL queryACL fw secret notifier policy rpz in
  let* (e, fwWatch) := reads (Watcher.startFirewallWatcher (Config.BlocklistsDirectory (Config.Firewall cfg)) (Some fw) now) in
  let* _ := check "failed to start blocklist watcher" e in
  let* (e, zoneWatch) := reads (Watcher.startZoneWatcher (Config.ZonesDirectory cfg) (mem store) now) in
  let* _ := check "failed to start zone file watcher" e in
  let rrl := RRL.NewRateLimiter (Config.RateLimit cfg) true in
  let process := MkProcess (Some proc) forwarder iterative (Some rrl) (Some acl) (Some xfrACL) None anchors in
  let* store := reads (λ w, set_files store w) in
  let s := MkState cfg store db (Some fw) (Some queryACL) (Feeds.MkSync false 0) [] g
    (Logging.NewRingBuffer (Z.of_nat Logging.defaultRingCapacity)) Logging.NewBroadcaster Counters.New process in
  let srv := MkServer configPath (Config.AuthToken (Config.API cfg)) (Some notifier) (Some Apply) in
  let* services := startServices cfg in
  ret (MkLive cfg s srv cache hints fwWatch zoneWatch services).

(** * Lemmas *)
Lemma bind_ok {A A'} (x : M A) (k : A → M A') m m' b : bind x k m = (m', inr b) →
  ∃ m1 a, x m = (m1, inr a) ∧ k a m1 = (m', inr b).
Proof. unfold bind. destruct (x m) as [m1 [e|a]]; [done|]. intros H. by exists m1, a. Qed.

Lemma demand_ok {A} msg (r : res A) m m' a : demand msg r m = (m', inr a) → r = Ok a ∧ m' = m.
Proof. unfold demand. destruct r; [|done]. by intros [= <- <-]. Qed.

Lemma check_ok msg e m m' u : check msg e m = (m', inr u) → e = None ∧ m' = m.
Proof. unfold check. destruct e; [done|]. by intros [= <- _]. Qed.

Lemma on_files_ok {A} (f : W → W * A) m m' a : on_files f m = (m', inr a) → (f (m_files m)).2 = a.
Proof. unfold on_files. destruct (f (m_files m)). by intros [= _ <-]. Qed.

Lemma reads_ok {A} (f : W → A) m m' a : reads f m = (m', inr a) → f (m_files m) = a ∧ m' = m.
Proof. by intros [= <- <-]. Qed.

Tactic Notation "next" ident(H) "as" simple_intropattern(a) ident(E) :=
  let m := fresh "m" in
  apply bind_ok in H as (m & a & E & H);
  lazymatch type of E with
  | demand _ _ _ = _ => apply demand_ok in E as [E ->]
  | check _ _ _ = _ => apply check_ok in E as [E ->]
  | reads _ _ = _ => apply reads_ok in E as [E ->]
  | on_files _ _ = _ => apply on_files_ok in E
  | _ => idtac
  end.

(** The resolver of the mode, and only that one. *)
Definition resolver_started (cfg : Config.Config) (hints : list string) (forwarder : option Upstream.Forwarder)
    (iterative : option Iterative.IterativeResolver) : Prop :=
  let dnssec := Config.DNSSECValidation (Config.Security cfg) in
  let ecs := Config.ECS cfg in
  (Config.ResolverMode cfg = "forward" ∧ iterative = None ∧ ∃ addrs,
     Upstream.ValidatedUpstreams (Config.Upstreams (Config.Recursive cfg)) = Ok addrs ∧
     forwarder = Some (Upstream.MkForwarder addrs dnssec (Config.ecsOn ecs) (uint8 (Config.IPv4PrefixLength ecs))
                         (uint8 (Config.IPv6PrefixLength ecs)))) ∨
  (Config.ResolverMode cfg = "iterative" ∧ forwarder = None ∧ ∃ addrs, Upstream.NormalizeUpstreams hints = Ok addrs ∧
     iterative = Some (Iterative.NewIterativeResolver addrs dnssec (Config.QNameMinimization (Config.Resolver cfg)))).

Lemma uint8_mod n : (uint8 n mod 256)%N = uint8 n.
Proof. unfold uint8. apply N.mod_small. pose proof (Z.mod_pos_bound n 256). lia. Qed.

Lemma new_resolver_ok cfg hints m m' f i : newResolver cfg hints m = (m', inr (f, i)) →
  resolver_started cfg hints f i.
Proof.
  unfold newResolver, resolver_started. intros H. case_bool_decide as Hf; [left|case_bool_decide as Hi; [right|done]].
  - next H as f0 E. next H as ? Ep. next H as ? Ec. injection H as <- <- <-. revert E. unfold Upstream.NewForwarderFromConfig.
    destruct (Upstream.ValidatedUpstreams _) as [addrs|e]; [|done]. cbn [res_bind]. rewrite !uint8_mod.
    intros [= <-]. split_and!; [done..|]. by exists addrs.
  - next H as i0 E. injection H as <- <- <-. revert E. unfold Iterative.NewIterativeFromConfig.
    destruct (Upstream.NormalizeUpstreams hints) as [addrs|e]; [|done]. cbn. intros [= <-]. split_and!; [done..|].
    by exists addrs.
Qed.

Lemma new_cookies_ok cfg m m' secret : newCookies cfg m = (m', inr secret) →
  if Config.DNSCookiesEnabled (Config.Security cfg)
  then ∃ bytes, Config.DNSCookieSecretBytes cfg = Ok bytes ∧ secret = Some bytes else secret = None.
Proof.
  unfold newCookies. destruct (Config.DNSCookiesEnabled _); [|by intros [= _ <-]].
  intros H. next H as a E. injection H as <- <-. by exists a.
Qed.

Lemma load_hints_ok cfg now m m' hints : loadHints cfg now m = (m', inr hints) → hints ≠ [].
Proof.
  unfold loadHints. intros H. apply bind_ok in H as (m1 & a & _ & H). destruct a; [done|]. by injection H as _ <-.
Qed.

(** The services of a configuration. *)
Definition servicesOf (cfg : Config.Config) : list service :=
  [SvcAPI; SvcUDP; SvcTCP] ++
  (if Config.EncryptedDNSEnabled cfg then
     (if bool_decide (trim_space (Config.DoT (Config.Listeners cfg)) = "") then [] else [SvcDoT (Config.DoT (Config.Listeners cfg))]) ++
     (if bool_decide (trim_space (Config.DoH (Config.Listeners cfg)) = "") then [] else [SvcDoH (Config.DoH (Config.Listeners cfg))])
   else []).

Lemma start_services_ok cfg m m' l : startServices cfg m = (m', inr l) → l = servicesOf cfg.
Proof.
  unfold startServices, servicesOf. destruct (Config.EncryptedDNSEnabled cfg); [|by intros [= _ <-]].
  intros H. next H as a E. destruct a; [done|]. by injection H as _ <-.
Qed.

Lemma init_anchors_ok lines a : Anchors.InitAnchorsWithCustom lines (Anchors.MkAnchors false None []) = (None, a) →
  Anchors.loadAnchors lines = Ok (Anchors.rootKeys a).
Proof. unfold Anchors.InitAnchorsWithCustom. cbn. by destruct (Anchors.loadAnchors lines); intros [= <-]. Qed.

(** What a start built, from the configuration it read. *)
Definition built_from (cfg : Config.Config) (l : live) : Prop :=
  let p := st_rest (l_state l) in
  ∃ trusted xfr slaves policy rpz queryACL secret,
    (∃ w, Config.Validate (T := T) w cfg = None) ∧
    ACLFromConfig cfg = Ok trusted ∧ ACLFromXFRConfig cfg = Ok xfr ∧ Config.NormalizedNotifySlaves cfg = Ok slaves ∧
    Config.BuildPolicyEngine cfg = Ok policy ∧ Config.BuildRPZEngine (T := T) cfg = Ok rpz ∧
    st_acl (l_state l) = Some queryACL ∧
    (if Config.DNSCookiesEnabled (Config.Security cfg)
     then ∃ bytes, Config.DNSCookieSecretBytes cfg = Ok bytes ∧ secret = Some bytes else secret = None) ∧
    (∃ fw, st_fw (l_state l) = Some fw ∧
      pr_proc p = Some (processorOf cfg (pr_forwarder p) (pr_iterative p) trusted xfr queryACL fw secret
        (Update.NewNotifier (Config.xfrEnabled (Config.XFR cfg)) slaves) policy rpz)) ∧
    l_hints l ≠ [] ∧ resolver_started cfg (l_hints l) (pr_forwarder p) (pr_iterative p) ∧
    pr_limiter p = Some (RRL.NewRateLimiter (Config.RateLimit cfg) true) ∧
    pr_trusted p = Some trusted ∧ pr_xfr p = Some xfr ∧
    Anchors.loadAnchors (Config.NormalizedRootAnchors (Config.Security cfg)) = Ok (Anchors.rootKeys (pr_anchors p)) ∧
    st_cfg (l_state l) = cfg ∧ l_services l = servicesOf cfg.

Lemma loaded_valid rnd path w cfg : (Config.Load (T := T) w rnd path).2 = Ok cfg →
  ∃ w', Config.Validate (T := T) w' cfg = None.
Proof.
  destruct (Config.Load w rnd path) as [w' r] eqn:E. cbn. intros ->.
  apply Config.load_inv in E as (_ & w1 & data & c & _ & _ & E). revert E. unfold Config.afterRead.
  destruct (Config.EnsureDNSCookieSecret _ _ _ _) as [[w2 c2] [e|]]; [done|].
  destruct (Config.Validate w2 c2) eqn:Hv; [done|]. intros [= _ <-]. by exists w2.
Qed.

Lemma start_builds path rnd now g m m' l : start path rnd now g m = (m', inr l) → built_from (l_cfg l) l.
Proof.
  unfold start. intros H. next H as e0 E0. next H as u0 _0. next H as r Er. next H as cfg Ec. rewrite Ec in Er.
  apply loaded_valid in Er. destruct (Anchors.InitAnchorsWithCustom _ _) as [e anchors] eqn:Ea. next H as u1 E1. subst e.
  apply init_anchors_ok in Ea. next H as rdb Edb. next H as tdb E2. next H as tables E3. next H as [db g1] E4.
  next H as store E5. next H as action Eact. next H as fw Efw. next H as hints E6. apply load_hints_ok in E6.
  next H as cache E7. next H as trusted Et. next H as xfr Ex. next H as slaves Es. next H as [f i] Ef.
  apply new_resolver_ok in Ef. next H as secret Ek. apply new_cookies_ok in Ek. next H as queryACL Eq.
  next H as policy Ep. next H as rpz Ez. next H as [e1 fwWatch] Ew. next H as u2 E8. next H as [e2 zoneWatch] Ew2.
  next H as u3 E9. next H as store2 E10. next H as services E11. apply start_services_ok in E11.
  injection H as <- <-. exists trusted, xfr, slaves, policy, rpz, queryACL, secret. cbn.
  split_and!; try done. by exists fw.
Qed.
(** * Properties *)

(** What a configuration decides of a processor. *)
Definition config_view (q : Processor) :=
  (Reply.p_forwarder q, Reply.p_iterative q, Reply.p_resolverMode q, Reply.p_acl q, Reply.p_rpz q,
   Reply.p_dnssecValidation q, Reply.p_validator q, Reply.p_tsigSecrets q, Reply.p_zonesDir q, Reply.p_xfrEnabled q,
   Reply.p_xfrACL q, Reply.p_policyEngine q).

(** Whatever happens to a running server: configurations that are applied, in
    full or up to an error, and changes of the rest of the state. *)
Definition runs (s s' : state) : Prop := (∃ cfg, s' = (Apply cfg s).1) ∨ st_rest s' = st_rest s.

Lemma runs_wiring s s' : rtc runs s s' → wiring (st_rest s') = wiring (st_rest s).
Proof.
  induction 1 as [|s1 s2 s3 [[cfg ->]|Hs] _ IH]; [done|..]; rewrite IH; [apply apply_wiring|by rewrite Hs].
Qed.

Lemma restart_mode c1 c2 : Config.RequiresRestart c1 c2 = false → Config.ResolverMode c1 = Config.ResolverMode c2.
Proof.
  unfold Config.RequiresRestart. intros H. apply orb_false_iff in H as [_ H].
  by apply negb_false_iff, bool_decide_eq_true in H.
Qed.

Lemma same_view cfg trusted xfr policy rpz q0 q f i queryACL fw secret n :
  processor_in_force cfg trusted xfr policy rpz q0 q →
  let q2 := processorOf cfg f i trusted xfr queryACL fw secret n policy rpz in
  Reply.p_forwarder q = Reply.p_forwarder q2 → Reply.p_iterative q = Reply.p_iterative q2 →
  Reply.activeResolver q ≠ None → config_view q = config_view q2.
Proof.
  intros (Ha & Hx & Hp & Hr & Hm & Hz & He & Ht & Hd & Hv0 & Hv1 & _) q2 Hf Hi Hn.
  assert (Hact : Reply.activeResolver q = Reply.activeResolver q2).
  { unfold Reply.activeResolver. by rewrite Hf, Hi, Hm. }
  unfold config_view. rewrite Hf, Hi, Ha, Hx, Hp, Hr, Hm, Hz, He, Ht, Hd.
  enough (Reply.p_validator q = Reply.p_validator q2) as -> by done.
  unfold q2, processorOf, New, SetRPZ. cbn.
  destruct (Config.DNSSECValidation _) eqn:Ed; [|by apply Hv0].
  destruct (Reply.activeResolver q) as [r|] eqn:Er; [|done]. rewrite (Hv1 eq_refl r eq_refl), Hact. done.
Qed.

(** Which resolver is there is decided by the mode at the start. *)
Definition layout (forward : bool) (p : process) : Prop :=
  ∃ q, pr_proc p = Some q ∧ is_Some (pr_limiter p) ∧
  Reply.p_forwarder q = (if forward then Some TheForwarder else None) ∧
  Reply.p_iterative q = (if forward then None else Some TheIterative) ∧
  if forward then is_Some (pr_forwarder p) ∧ pr_iterative p = None
  else pr_forwarder p = None ∧ is_Some (pr_iterative p).

Lemma layout_wiring b p p' : wiring p' = wiring p → layout b p → layout b p'.
Proof.
  intros Hw (q & Hq & [r Hr] & Hf & Hi & Hb). destruct p as [? f i ? ? ? ? ?], p' as [q' f' i' r' ? ? ? ?].
  unfold wiring in Hw. cbn in *. subst. destruct q' as [q'|], r' as [r'|]; [|done..]. cbn in Hw.
  injection Hw as Hf' Hi' _ _ _ _ Ef Ei. exists q'. split_and!; [done|by eexists|congruence|congruence|].
  destruct b, Hb as [Hb Hb'].
  - destruct Hb as [x ->], f'; [|done]. subst i. by destruct i'.
  - destruct Hb' as [x ->], i'; [|done]. subst f. by destruct f'.
Qed.

Lemma started_layout cfg l : built_from cfg l →
  layout (bool_decide (Config.ResolverMode cfg = "forward")) (st_rest (l_state l)).
Proof.
  intros (trusted & xfr & slaves & policy & rpz & queryACL & secret & _ & _ & _ & _ & _ & _ & _ & _ &
    (fw & _ & Hq) & _ & Hr & Hl & _).
  eexists. split; [exact Hq|]. rewrite Hl. split; [by eexists|]. cbn.
  destruct Hr as [(-> & -> & addrs & _ & ->)|(-> & -> & addrs & _ & ->)]; by cbn.
Qed.

Lemma started_active cfg (q : Processor) (b : bool) :
  Config.ResolverMode cfg = (if b then "forward" else "iterative") → Reply.p_resolverMode q = Config.ResolverMode cfg →
  Reply.p_forwarder q = (if b then Some TheForwarder else None) →
  Reply.p_iterative q = (if b then None else Some TheIterative) → Reply.activeResolver q ≠ None.
Proof.
  unfold Reply.activeResolver. intros Hm -> Hf Hi. rewrite Hf, Hi, Hm. by destruct b.
Qed.

Lemma started_mode cfg l : built_from cfg l →
  Config.ResolverMode cfg = (if bool_decide (Config.ResolverMode cfg = "forward") then "forward" else "iterative").
Proof.
  intros (? & ? & ? & ? & ? & ? & ? & _ & _ & _ & _ & _ & _ & _ & _ & _ & _ & Hr & _).
  by destruct Hr as [(-> & _)|(-> & _)].
Qed.

(** The limits of a configuration replace those in force. *)
Lemma reconfigured w cfg (r : RRL.RateLimiter L) : Config.Validate (T := T) w cfg = None →
  let r2 := RRL.NewRateLimiter (L := L) (Config.RateLimit cfg) true in
  ∃ r', RRL.Reconfigure (Config.RateLimit cfg) (Some r) = Some r' ∧ RRL.enabled r' = RRL.enabled r2 ∧
    (RRL.enabled r2 = true → RRL.limit r' = RRL.limit r2 ∧ RRL.burst r' = RRL.burst r2).
Proof.
  intros Hv r2. eexists. split; [done|]. split; [done|]. cbn. intros He.
  unfold Config.Validate in Hv. rewrite Config.first_error_none, !Forall_cons in Hv.
  destruct Hv as (_ & _ & _ & _ & _ & _ & _ & _ & _ & _ & Hrl & _).
  unfold Config.validateRateLimit in Hrl. rewrite He in Hrl. cbn [negb] in Hrl.
  apply Config.first_error_none in Hrl as [Hq [Hb _]%Forall_cons]%Forall_cons.
  apply Config.check_none, Z.leb_le in Hq. apply Config.check_none, Z.leb_le in Hb.
  rewrite !(proj2 (Z.ltb_lt _ _)) by lia. done.
Qed.

Lemma same_forwarder cfg hints (b : bool) (p' : process) f2 i2 : resolver_started cfg hints f2 i2 →
  Config.ResolverMode cfg = (if b then "forward" else "iterative") →
  (if b then is_Some (pr_forwarder p') ∧ pr_iterative p' = None else pr_forwarder p' = None ∧ is_Some (pr_iterative p')) →
  forwarder_in_force cfg p' → pr_forwarder p' = f2.
Proof.
  intros Hr Hm Hb Hf. destruct Hr as [(Hm' & -> & addrs & Hv & ->)|(Hm' & -> & _)]; destruct b; try congruence.
  - destruct Hb as [[f Ef] _]. destruct (Hf Hm f Ef) as (Hv' & Hd & He & H4 & H6). rewrite Ef. f_equal.
    rewrite Hv in Hv'. injection Hv' as ->. by destruct f; cbn in *; subst.
  - by destruct Hb.
Qed.

Lemma same_iterative cfg hints (b : bool) (p' : process) q' f2 i2 : resolver_started cfg hints f2 i2 →
  Config.ResolverMode cfg = (if b then "forward" else "iterative") →
  pr_proc p' = Some q' → Reply.p_iterative q' = (if b then None else Some TheIterative) →
  (if b then is_Some (pr_forwarder p') ∧ pr_iterative p' = None else pr_forwarder p' = None ∧ is_Some (pr_iterative p')) →
  iterative_in_force cfg p' → ∀ i', pr_iterative p' = Some i' → ∃ i0, i2 = Some i0 ∧
     Iterative.i_dnssecValidation i' = Iterative.i_dnssecValidation i0.
Proof.
  intros Hr Hm Hq Hi Hb Hif i' Ei. destruct b; [by destruct Hb; congruence|].
  destruct Hr as [(Hm' & _)|(_ & _ & addrs & _ & ->)]; [congruence|]. eexists. split; [done|]. cbn.
  apply (Hif q'); [done|by rewrite Hi|done].
Qed.

(** ** Starts that fail *)
Definition fails (Q : exit → Prop) {A} (x : M A) : Prop := ∀ m m' e, x m = (m', inl e) → Q e.

Lemma fails_bind Q {A A'} (x : M A) (k : A → M A') : fails Q x → (∀ a, fails Q (k a)) → fails Q (bind x k).
Proof.
  intros Hx Hk m m' e. unfold bind. destruct (x m) as [m1 [e1|a]] eqn:E; [intros [= <- <-]; by eapply Hx|by apply Hk].
Qed.
Lemma fails_never Q {A} (x : M A) : (∀ m, ∃ m' a, x m = (m', inr a)) → fails Q x.
Proof. intros H m m' e E. destruct (H m) as (? & ? & E'). by rewrite E in E'. Qed.
Lemma fails_ret Q {A} (a : A) : fails Q (ret a).
Proof. apply fails_never. intros m. by eexists _, _. Qed.
Lemma fails_reads Q {A} (f : W → A) : fails Q (reads f).
Proof. apply fails_never. intros m. by eexists _, _. Qed.
Lemma fails_on_files Q {A} (f : W → W * A) : fails Q (on_files f).
Proof. apply fails_never. intros m. unfold on_files. destruct (f (m_files m)). by eexists _, _. Qed.

(** Nothing runs yet. *)
Definition nothing_runs (e : exit) : Prop := running e = [].
Lemma fails_fatal {A} msg : fails nothing_runs (fatal (A := A) msg []).
Proof. by intros m m' e [= <- <-]. Qed.
Lemma fails_demand {A} msg (r : res A) : fails nothing_runs (demand msg r).
Proof. unfold demand. destruct r; [apply fails_ret|apply fails_fatal]. Qed.
Lemma fails_check msg e : fails nothing_runs (check msg e).
Proof. unfold check. destruct e; [apply fails_fatal|apply fails_ret]. Qed.
Lemma fails_mono (Q Q' : exit → Prop) {A} (x : M A) : (∀ e, Q e → Q' e) → fails Q x → fails Q' x.
Proof. intros HQ Hx m m' e E. by eapply HQ, Hx. Qed.

#[local] Hint Resolve fails_ret fails_reads fails_on_files fails_fatal fails_demand fails_check : fails.
Ltac fails_steps := repeat first
  [ solve [auto with fails]
  | apply fails_bind; [|let a := fresh "a" in intros a]
  | match goal with |- fails _ (match ?x with _ => _ end) => destruct x end
  | case_bool_decide ].

Lemma fails_resolver cfg hints : fails nothing_runs (newResolver cfg hints).
Proof.
  unfold newResolver. fails_steps. apply fails_never. intros m. destruct (Upstream.PreWarm _ _). by eexists _, _.
Qed.
Lemma fails_hints cfg now : fails nothing_runs (loadHints cfg now).
Proof.
  unfold loadHints. fails_steps. apply fails_never. intros m.
  destruct (RootHints.LoadRootHints _ _ _ _ _ _ _) as [[h w] y]. by eexists _, _.
Qed.
Lemma fails_logger cfg db g : fails nothing_runs (newLogger cfg db g).
Proof. unfold newLogger. fails_steps. Qed.
Lemma fails_cookies cfg : fails nothing_runs (newCookies cfg).
Proof. unfold newCookies. fails_steps. Qed.
#[local] Hint Resolve fails_resolver fails_hints fails_logger fails_cookies : fails.

Definition late_failure (e : exit) : Prop :=
  running e = [] ∨ running e = [SvcAPI; SvcUDP; SvcTCP] ∧ why e = "failed to load tls configuration".
Lemma fails_early {A} (x : M A) : fails nothing_runs x → fails late_failure x.
Proof. apply fails_mono. intros e He. by left. Qed.
Lemma fails_services cfg : fails late_failure (startServices cfg).
Proof.
  unfold startServices. fails_steps. intros ? ? ? [= <- <-]. by right.
Qed.
#[local] Hint Resolve fails_early fails_services : fails.

(** a start that fails has opened no listener: up to the last step nothing
    runs that could answer, and the one failure after that is a certificate
    that cannot be loaded, with the API and the plain listeners running. *)
Theorem failed_start path rnd now g m m' e : start path rnd now g m = (m', inl e) →
  running e = [] ∨ running e = [SvcAPI; SvcUDP; SvcTCP] ∧ why e = "failed to load tls configuration".
Proof.
  revert m m' e. change (fails late_failure (start path rnd now g)). unfold start.
  fails_steps.
Qed.


(** With cookies turned off the processor still has a handler, the engine that
    is not there: it verifies nothing, so that every request which returns a
    server cookie is refused. *)
Lemma disabled_cookies_refuse l req opt client :
  built_from (l_cfg l) l → Config.DNSCookiesEnabled (Config.Security (l_cfg l)) = false →
  is_edns0 req = Some opt → Reply.hasClientCookie (Reply.findCookie (opt_options opt)) = true →
  Reply.hasServerCookie (Reply.findCookie (opt_options opt)) = true →
  ∃ q, pr_proc (st_rest (l_state l)) = Some q ∧
  ∀ w : Reply.world T W D () (), Reply.rejectBadCookie (Reply.parseRequestCookie q req client w).1 = true.
Proof.
  intros (trusted & xfr & slaves & policy & rpz & queryACL & secret & _ & _ & _ & _ & _ & _ & _ & Hk & (fw & _ & Hq) & _)
    Hoff Ho Hc Hs.
  rewrite Hoff in Hk. subst secret. eexists. split; [exact Hq|]. intros w.
  unfold Reply.parseRequestCookie. cbn. by rewrite Ho, Hc, Hs.
Qed.
End start.

End Start.

(** * Witnesses *)

(** A machine with its files, and databases that hold what they are asked to. *)
#[export] Instance disk_stat : FileStat disk | 100 := {| fs_stat d p := fs_stat (d_files d) p |}.
#[export] Instance disk_notify : FsNotify disk | 100 := {|
  new_watcher := None; watch_add _ _ := None; watch_stat _ _ := false
|}.
#[export] Instance demo_opened : OpenedDB disk string demo_db key_table | 100 := {|
  opened_tables _ _ := MkDemoDB (MkDemo ∅ ∅) ∅ ∅ []; opened_keys _ _ := ∅
|}.
#[export] Instance demo_start_env : StartEnv disk () | 100 := {|
  new_cache := Ok (); load_key_pair _ _ _ := Some (errNew "tls: failed to find any PEM data in certificate input")
|}.
#[local] Existing Instances Config.demo_tcp Config.demo_toml Signer.demo_crypto KeyStore.demo_key_text Store.demo_parser
  Store.demo_digest Validator.demo_verify.
#[local] Existing Instances Upstream.oracle_client RootHints.demo_hints_net.
#[local] Existing Instance key_line | 0.

Abbreviation demo_oracle_net := (msg → string → res (option msg)).
Definition demo_machine (answers : bool) : Start.machine (W := disk) (X := demo_oracle_net) (Y := nat) :=
  Start.MkMachine (MkDisk ∅ ∅) 0 (Upstream.Network
    (λ req _, if answers then Ok (Some (set_question new_msg (m_question req))) else Err (errNew "network is unreachable"))
    (Upstream.Registry ∅ 0) []).
Definition demo_logger : Logging.logger := Logging.MkLogger 0 (Logging.DefaultConfig "INFO") None.
Definition demo_start (answers : bool) := Start.start (T := gtree) (W := disk) (C := string) (D := key_table)
  (B := demo_db) (X := demo_oracle_net) (Y := nat) (L := nat) (Ch := ()) "./config.toml" (Ok Config.demo_random) 100
  demo_logger (demo_machine answers).

Lemma failed_start_witness : ∃ m' e, demo_start false = (m', inl e) ∧ Start.late_failure e.
Proof.
  assert (H : match (demo_start false).2 with inl _ => True | inr _ => False end) by by vm_compute.
  destruct (demo_start false) as [m' [e|l]] eqn:E; [|destruct H]. exists m', e. split; [reflexivity|].
  unfold demo_start in E. exact (Start.failed_start _ _ _ _ _ _ _ E).
Defined.

