(* ===== verification/Services.v ===== *)
(** * The services side by side: cmd/arx-dns/main.go, network/reactor.go, network/bootstrap.go, network/config.go

    What runs after the start: one goroutine per service with the goroutine
    that closes it down, the channel of errors, the context and [main], which
    waits for a signal or an error, as a step relation over all interleavings.
    A run of a service may end with whatever the listener below it gives; what
    is used of net, net/http and gnet is that a closed listener, a server that
    is shut down and an engine that is stopped end their loops. *)
From S2P Require Import Prelude Telemetry Radix NetAddr Dns Owner Upstream Config Network Start.
Import Start.

Module Services.

Definition errChCapacity : nat := 5.

(** What a run comes back with; [Failed] is neither nil nor canceled. *)
Inductive outcome := Nil | Canceled | Failed (e : error).

(** Where the goroutine of a service is. *)
Inductive pc :=
| Binding                  (* the call that opens the listener *)
| Serving                  (* Accept, Serve, or the select of runReactor *)
| Draining                 (* the last receive of runReactor *)
| Returned (r : outcome)
| Sending (e : error)      (* errCh <- err *)
| Stopping                 (* stop() *)
| Ending                   (* the deferred wg.Done() *)
| Finished.

(** A service: [closing] once the goroutine that waits for the context has
    closed it, the connections whose handlers run, and the error it ended with. *)
Record routine := MkRoutine {
  svc : service; at_ : pc; closing : bool; conns : nat; failure : option error
}.
Definition spawn (s : service) : routine := MkRoutine s Binding false 0 None.
Definition goto (p : pc) (r : routine) : routine := MkRoutine (svc r) p (closing r) (conns r) (failure r).
Definition close (r : routine) : routine := MkRoutine (svc r) (at_ r) true (conns r) (failure r).
Definition set_conns (n : nat) (r : routine) : routine := MkRoutine (svc r) (at_ r) (closing r) n (failure r).
Definition fail (e : error) (r : routine) : routine := MkRoutine (svc r) (Sending e) (closing r) (conns r) (Some e).

(** [ctx.Err()]. *)
Definition ctx_err (cancelled : bool) : outcome := if cancelled then Canceled else Nil.

(** The runs of the services with their goroutines, [true] for the steps that
    end something and [false] for the traffic. api/server.go: a server that is
    shut down serves no more, and does not wait for the requests it handles. *)
Inductive runAPI (cancelled : bool) : bool → routine → routine → Prop :=
| api_listen r : at_ r = Binding → closing r = false → runAPI cancelled true r (goto Serving r)
| api_refused r e : at_ r = Binding → runAPI cancelled true r (goto (Returned (Failed e)) r)
| api_shut_early r : at_ r = Binding → closing r = true → runAPI cancelled true r (goto (Returned (ctx_err cancelled)) r)
| api_shutdown r : cancelled = true → closing r = false → runAPI cancelled true r (close r)
| api_accept r : at_ r = Serving → closing r = false → runAPI cancelled false r (set_conns (S (conns r)) r)
| api_handled r n : conns r = S n → runAPI cancelled false r (set_conns n r)
| api_error r e : at_ r = Serving → runAPI cancelled true r (goto (Returned (Failed e)) r)
| api_closed r : at_ r = Serving → closing r = true → runAPI cancelled true r (goto (Returned (ctx_err cancelled)) r).

(** network/doh.go: the goroutine starts once the listener is open. *)
Inductive runDoH (cancelled : bool) : bool → routine → routine → Prop :=
| doh_listen r : at_ r = Binding → runDoH cancelled true r (goto Serving r)
| doh_refused r e : at_ r = Binding → runDoH cancelled true r (goto (Returned (Failed e)) r)
| doh_shutdown r : cancelled = true → at_ r ≠ Binding → closing r = false → runDoH cancelled true r (close r)
| doh_accept r : at_ r = Serving → closing r = false → runDoH cancelled false r (set_conns (S (conns r)) r)
| doh_handled r n : conns r = S n → runDoH cancelled false r (set_conns n r)
| doh_error r e : at_ r = Serving → runDoH cancelled true r (goto (Returned (Failed e)) r)
| doh_closed r : at_ r = Serving → closing r = true → runDoH cancelled true r (goto (Returned (ctx_err cancelled)) r).

(** network/dot.go: an error of Accept ends the loop only when the context is
    cancelled, and is tried again otherwise. *)
Inductive runDoT (cancelled : bool) : bool → routine → routine → Prop :=
| dot_listen r : at_ r = Binding → runDoT cancelled true r (goto Serving r)
| dot_refused r e : at_ r = Binding → runDoT cancelled true r (goto (Returned (Failed e)) r)
| dot_close r : cancelled = true → at_ r ≠ Binding → closing r = false → runDoT cancelled true r (close r)
| dot_accept r : at_ r = Serving → closing r = false → runDoT cancelled false r (set_conns (S (conns r)) r)
| dot_handled r n : conns r = S n → runDoT cancelled false r (set_conns n r)
| dot_retry r : at_ r = Serving → cancelled = false → runDoT cancelled false r r
| dot_closed r : at_ r = Serving → cancelled = true → runDoT cancelled true r (goto (Returned Canceled) r).

(** network/reactor.go: [gnet.Rotate] in a goroutine of its own, stopped by the
    one that [OnBoot] starts; its result may come before or after the context
    is seen to be cancelled. *)
Inductive runReactor (cancelled : bool) : bool → routine → routine → Prop :=
| gnet_boot r : at_ r = Binding → runReactor cancelled true r (goto Serving r)
| gnet_refused r e : at_ r = Binding →
    runReactor cancelled true r (goto (Returned (Failed (errWrap "%s reactor: %w" e))) r)
| gnet_stop r : cancelled = true → at_ r ≠ Binding → closing r = false → runReactor cancelled true r (close r)
| gnet_error r e : at_ r = Serving ∨ at_ r = Draining →
    runReactor cancelled true r (goto (Returned (Failed (errWrap "%s reactor: %w" e))) r)
| gnet_ended r : at_ r = Serving → closing r = true → runReactor cancelled true r (goto (Returned (ctx_err cancelled)) r)
| gnet_done r : at_ r = Serving → cancelled = true → runReactor cancelled true r (goto Draining r)
| gnet_drained r : at_ r = Draining → closing r = true →
    runReactor cancelled true r (goto (Returned (ctx_err cancelled)) r).

Definition rstep (cancelled b : bool) (r r' : routine) : Prop :=
  match svc r with
  | SvcAPI => runAPI cancelled b r r'
  | SvcDoH _ => runDoH cancelled b r r'
  | SvcDoT _ => runDoT cancelled b r r'
  | SvcUDP | SvcTCP => runReactor cancelled b r r'
  end.

(** ** The process *)
Inductive mpc :=
| Starting (l : list service)   (* the calls of startService that are left *)
| Selecting
| Leaving                       (* after <-ctx.Done(): stop() *)
| Waiting                       (* wg.Wait() *)
| Exited (status : nat).

Record world := MkWorld { cancelled : bool; errCh : list error; wg : nat; routines : list routine; main : mpc }.
Definition at_main (m : mpc) (w : world) : world := MkWorld (cancelled w) (errCh w) (wg w) (routines w) m.
Definition with_routine (i : nat) (r : routine) (w : world) : world :=
  MkWorld (cancelled w) (errCh w) (wg w) (<[i := r]> (routines w)) (main w).
(** [stop()] and [wg.Done()]. *)
Definition stop (w : world) : world := MkWorld true (errCh w) (wg w) (routines w) (main w).
Definition done_ (w : world) : world := MkWorld (cancelled w) (errCh w) (wg w - 1) (routines w) (main w).
Definition send (e : error) (w : world) : world := MkWorld (cancelled w) (errCh w ++ [e]) (wg w) (routines w) (main w).
(** [startService]. *)
Definition startService (s : service) (w : world) : world :=
  MkWorld (cancelled w) (errCh w) (S (wg w)) (routines w ++ [spawn s]) (main w).

Inductive step : bool → world → world → Prop :=
| s_start s l w : main w = Starting (s :: l) → step true w (at_main (Starting l) (startService s w))
| s_started w : main w = Starting [] → step true w (at_main Selecting w)
| s_ctx_done w : main w = Selecting → cancelled w = true → step true w (at_main Leaving w)
| s_error w e l : main w = Selecting → errCh w = e :: l → step true w (at_main (Exited 1) w)
| s_stop w : main w = Leaving → step true w (at_main Waiting (stop w))
| s_wait w : main w = Waiting → wg w = 0 → step true w (at_main (Exited 0) w)
| s_signal w : (∀ c, main w ≠ Exited c) → cancelled w = false → step true w (stop w)
| s_run b w i r r' : (∀ c, main w ≠ Exited c) → routines w !! i = Some r → rstep (cancelled w) b r r' →
    step b w (with_routine i r' w)
| s_failed w i r e : (∀ c, main w ≠ Exited c) → routines w !! i = Some r → at_ r = Returned (Failed e) →
    step true w (with_routine i (fail e r) w)
| s_ended w i r o : (∀ c, main w ≠ Exited c) → routines w !! i = Some r → at_ r = Returned o → (∀ e, o ≠ Failed e) →
    step true w (with_routine i (goto Ending r) w)
| s_send w i r e : (∀ c, main w ≠ Exited c) → routines w !! i = Some r → at_ r = Sending e →
    length (errCh w) < errChCapacity → step true w (with_routine i (goto Stopping r) (send e w))
| s_stopped w i r : (∀ c, main w ≠ Exited c) → routines w !! i = Some r → at_ r = Stopping →
    step true w (with_routine i (goto Ending r) (stop w))
| s_done w i r : (∀ c, main w ≠ Exited c) → routines w !! i = Some r → at_ r = Ending →
    step true w (with_routine i (goto Finished r) (done_ w)).

Definition launch (l : list service) : world := MkWorld false [] 0 [] (Starting l).

(** Runs with the number of their steps that end something. *)
Inductive run : nat → world → world → Prop :=
| run_nil w : run 0 w w
| run_work n w w1 w2 : step true w w1 → run n w1 w2 → run (S n) w w2
| run_traffic n w w1 w2 : step false w w1 → run n w1 w2 → run n w w2.

(** ** network/bootstrap.go, network/config.go *)
Record Listener := MkListener { Address : string; ReusePortSockets : Z }.
Definition socketCount (numCPU : Z) (l : Listener) : Z :=
  let n := if (ReusePortSockets l <=? 0)%Z then numCPU else ReusePortSockets l in
  if (n <? 1)%Z then 1%Z else n.
Definition NewReactors (c : Config.Config) : Listener * Listener :=
  let l := MkListener (Config.ListenAddress c) (Config.EventLoops (Config.Server c)) in (l, l).

(** * Lemmas *)
Definition alive (r : routine) : nat := match at_ r with Finished => 0 | _ => 1 end.
Definition sent (r : routine) : nat :=
  match at_ r, failure r with (Stopping | Ending | Finished), Some _ => 1 | _, _ => 0 end.
Definition phase_ok (c : bool) (r : routine) : Prop :=
  match at_ r with
  | Sending e => failure r = Some e
  | Stopping => failure r ≠ None
  | Ending | Finished => True
  | _ => failure r = None
  end ∧ (closing r = true → c = true) ∧ (at_ r = Draining → svc r = SvcUDP ∨ svc r = SvcTCP).
Definition to_start (m : mpc) : list service := match m with Starting l => l | _ => [] end.
Definition running_main (m : mpc) : Prop := ∀ c, m ≠ Exited c.

Record inv (l : list service) (w : world) : Prop := {
  inv_services : map svc (routines w) ++ to_start (main w) = l;
  inv_wg : wg w = sum_list_with alive (routines w);
  inv_sent : length (errCh w) = sum_list_with sent (routines w);
  inv_phase : Forall (phase_ok (cancelled w)) (routines w);
  inv_from : Forall (λ e, Exists (λ r, failure r = Some e) (routines w)) (errCh w);
  inv_main : match main w with
    | Starting _ | Selecting => True
    | Leaving | Waiting => cancelled w = true
    | Exited 0 => cancelled w = true ∧ wg w = 0
    | Exited 1 => errCh w ≠ []
    | Exited _ => False
    end
}.

Lemma rstep_frame c b r r' : rstep c b r r' → phase_ok c r →
  alive r' = alive r ∧ sent r' = sent r ∧ failure r' = failure r ∧ svc r' = svc r ∧ phase_ok c r'.
Proof.
  intros H (Hp & Hc & Hd). unfold phase_ok, alive, sent. revert H. unfold rstep.
  destruct (svc r) eqn:Es; intros H; destruct H; destruct r as [s p cl m f]; cbn in *;
    repeat match goal with Ho : _ ∨ _ |- _ => destruct Ho end; subst.
  all: try (split_and!; by auto). all: try (destruct p; split_and!; by auto). all: try (destruct f; split_and!; by auto).
Qed.

Lemma phase_mono c c' r : (c = true → c' = true) → phase_ok c r → phase_ok c' r.
Proof. intros H (Hp & Hc & Hd). split_and!; auto. Qed.

Lemma failures_kept (l : list routine) i r r' e : l !! i = Some r → (∀ e, failure r = Some e → failure r' = Some e) →
  Exists (λ x, failure x = Some e) l → Exists (λ x, failure x = Some e) (<[i := r']> l).
Proof.
  intros Hi Hf (x & Hx & He)%Exists_exists. apply list_elem_of_lookup in Hx as [j Hj]. apply Exists_exists.
  destruct (decide (j = i)) as [->|Hne].
  - exists r'. split; [|apply Hf; congruence]. apply list_elem_of_lookup. exists i.
    apply list_lookup_insert_eq. by eapply lookup_lt_Some.
  - exists x. split; [|done]. apply list_elem_of_lookup. exists j. by rewrite list_lookup_insert_ne.
Qed.

(** A step of one goroutine keeps the invariant. *)
Lemma inv_routine l w i r r' c' errs' wg' : inv l w → running_main (main w) → routines w !! i = Some r →
  (cancelled w = true → c' = true) → svc r' = svc r → phase_ok c' r' →
  (∀ e, failure r = Some e → failure r' = Some e) →
  wg' + alive r = wg w + alive r' → length errs' + sent r = length (errCh w) + sent r' →
  (∀ e, e ∈ errs' → e ∈ errCh w ∨ failure r' = Some e) →
  inv l (MkWorld c' errs' wg' (<[i := r']> (routines w)) (main w)).
Proof.
  intros [Hs Hw He Hp Hf Hm] Hr Hi Hc Hsvc Hok Hfail Hwg Herr Hsrc.
  pose proof (sum_insert alive _ _ _ r' Hi). pose proof (sum_insert sent _ _ _ r' Hi). split; cbn.
  - rewrite <-Hs. f_equal. rewrite list_fmap_insert, Hsvc, <-list_fmap_insert. by rewrite list_insert_id.
  - lia.
  - lia.
  - apply Forall_insert; [|done]. eapply Forall_impl; [exact Hp|]. intros x. by apply phase_mono.
  - apply Forall_forall. intros e [Hin|Hin]%Hsrc.
    + rewrite Forall_forall in Hf. by eapply failures_kept, Hf.
    + apply Exists_exists. exists r'. split; [|done]. apply list_elem_of_lookup. exists i.
      apply list_lookup_insert_eq. by eapply lookup_lt_Some.
  - destruct (main w) as [| | | |c]; auto. by destruct (Hr c).
Qed.

Ltac at_phase :=
  match goal with H : inv ?l ?w, Hi : routines ?w !! ?i = Some ?r, Ha : at_ ?r = _ |- _ =>
    let Hp := fresh "Hp" in let Hf := fresh "Hf" in let Hcl := fresh "Hcl" in
    pose proof (inv_phase _ _ H) as Hp; rewrite Forall_forall in Hp;
    destruct (Hp r) as (Hf & Hcl & _); [by eapply list_elem_of_lookup_2|]; rewrite Ha in Hf; clear Hp
  end.

Ltac routine_sums :=
  try done; unfold alive, sent, phase_ok; cbn;
  repeat match goal with
    | Ha : at_ _ = _ |- _ => rewrite Ha
    | Hf : failure _ = _ |- _ => rewrite Hf
    end; rewrite ?length_app; cbn; try lia; auto; try (by split_and!).

Lemma world_step l b w w' : inv l w → step b w w' → inv l w'.
Proof.
  intros H Hs. destruct Hs as [s l' w Hm|w Hm|w Hm Hc|w e l' Hm He|w Hm|w Hm Hw|w Hr Hc|b w i r r' Hr Hi Hrs|
    w i r e Hr Hi Ha|w i r o Hr Hi Ha Ho|w i r e Hr Hi Ha Hlen|w i r Hr Hi Ha|w i r Hr Hi Ha].
  1-7: destruct w as [c errs g rs m]; cbn in *; destruct H as [H1 H2 H3 H4 H5 H6]; cbn in *; subst; cbn in *.
  - split; cbn; rewrite ?map_app, ?sum_list_with_app; cbn; [by rewrite <-app_assoc|lia..| | |done].
    + apply Forall_app. split; [done|]. by repeat constructor.
    + eapply Forall_impl; [exact H5|]. intros e He. apply Exists_app. by left.
  - by split.
  - by split.
  - by split.
  - split; try done. eapply Forall_impl; [exact H4|]. intros r. by apply phase_mono.
  - by split.
  - split; try done. { eapply Forall_impl; [exact H4|]. intros r. by apply phase_mono. }
    destruct m as [| | | |c]; try done. by destruct (Hr c).
  - pose proof (inv_phase _ _ H) as Hp. rewrite Forall_forall in Hp.
    destruct (rstep_frame _ _ _ _ Hrs) as (Ea & Es & Ef & Ev & Ho); [apply Hp; by eapply list_elem_of_lookup_2|].
    apply (inv_routine l w i r r' (cancelled w)); [done..|intros ? <-; done|lia|lia|by left].
  - at_phase. apply (inv_routine l w i r _ (cancelled w)); routine_sums. done.
  - at_phase. apply (inv_routine l w i r _ (cancelled w)); routine_sums.
  - at_phase. apply (inv_routine l w i r _ (cancelled w)); routine_sums.
    intros e0. rewrite elem_of_app, list_elem_of_singleton. intros [?| ->]; auto.
  - at_phase. apply (inv_routine l w i r _ true); routine_sums.
  - at_phase. pose proof (sum_lookup alive _ _ _ Hi) as Hal. rewrite <-(inv_wg _ _ H) in Hal. unfold alive in Hal.
    rewrite Ha in Hal. apply (inv_routine l w i r _ (cancelled w)); routine_sums.
Qed.

Lemma inv_launch l : inv l (launch l).
Proof. by split. Qed.

Lemma world_run l n w w' : run n w w' → inv l w → inv l w'.
Proof. induction 1 as [|n w w1 w2 Hs _ IH|n w w1 w2 Hs _ IH]; intros Hi; [done|..]; eapply IH, world_step; eauto. Qed.

(** ** How many steps are left *)
Definition rank (r : routine) : nat :=
  match at_ r with
  | Binding => 7 | Serving => 6 | Draining => 5 | Returned _ => 4 | Sending _ => 3 | Stopping => 2 | Ending => 1
  | Finished => 0
  end + (if closing r then 0 else 1).
Definition main_rank (m : mpc) : nat :=
  match m with Starting l => 9 * length l + 4 | Selecting => 3 | Leaving => 2 | Waiting => 1 | Exited _ => 0 end.
Definition measure (w : world) : nat :=
  main_rank (main w) + sum_list_with rank (routines w) + (if cancelled w then 0 else 1).

Lemma rstep_rank c b r r' : rstep c b r r' → rank r' + (if b then 1 else 0) ≤ rank r.
Proof.
  unfold rstep, rank. intros H. destruct (svc r); destruct H; destruct r as [s p cl m f]; cbn in *;
    repeat match goal with Ho : _ ∨ _ |- _ => destruct Ho end; subst; cbn; try lia; by destruct cl; cbn; try lia.
Qed.

Lemma measure_routine k i r r' w w1 : routines w !! i = Some r → routines w1 = routines w → main w1 = main w →
  (cancelled w = true → cancelled w1 = true) → rank r' + k ≤ rank r → measure (with_routine i r' w1) + k ≤ measure w.
Proof.
  intros Hi Hr Hm Hc Hk. pose proof (sum_insert rank _ _ _ r' Hi). unfold measure. cbn. rewrite Hr, Hm.
  destruct (cancelled w); [rewrite Hc by done; lia|destruct (cancelled w1); lia].
Qed.

Lemma world_step_measure b w w' : step b w w' → measure w' + (if b then 1 else 0) ≤ measure w.
Proof.
  intros [s l' w0 Hm|w0 Hm|w0 Hm Hc|w0 e l' Hm He|w0 Hm|w0 Hm Hw|w0 Hr Hc|b0 w0 i r r' Hr Hi Hrs|
    w0 i r e Hr Hi Ha|w0 i r o Hr Hi Ha Ho|w0 i r e Hr Hi Ha Hlen|w0 i r Hr Hi Ha|w0 i r Hr Hi Ha].
  1-7: destruct w0 as [c errs g rs m]; unfold measure; cbn in *; subst; cbn; try lia; try (destruct c; lia).
  3-7: by eapply (measure_routine 1); [exact Hi|done..|unfold rank; cbn; rewrite Ha; lia].
  - rewrite sum_list_with_app. cbn. lia.
  - apply rstep_rank in Hrs. by eapply measure_routine.
Qed.

Lemma run_bounded n w w' : run n w w' → n + measure w' ≤ measure w.
Proof. induction 1 as [|n w w1 w2 Hs%world_step_measure _ IH|n w w1 w2 Hs%world_step_measure _ IH]; cbn in *; lia. Qed.

Lemma services_count cfg : length (servicesOf cfg) ≤ errChCapacity.
Proof. unfold servicesOf, errChCapacity. destruct (Config.EncryptedDNSEnabled cfg); repeat case_bool_decide; cbn; lia. Qed.

(** ** Nothing waits for ever *)
Lemma sum_below (f : routine → nat) l i r : (∀ x, f x ≤ 1) → l !! i = Some r → f r = 0 → sum_list_with f l < length l.
Proof.
  intros Hf. revert i. induction l as [|x l IH]; intros [|i]; cbn; [done..| |].
  - intros [= ->] ->. assert (sum_list_with f l ≤ length l); [|lia]. clear IH.
    induction l as [|y l IH]; cbn; [done|]. specialize (Hf y). lia.
  - intros Hi Hr. specialize (IH i Hi Hr). specialize (Hf x). lia.
Qed.

Lemma send_possible l w i r e : inv l w → length l ≤ errChCapacity → routines w !! i = Some r → at_ r = Sending e →
  length (errCh w) < errChCapacity.
Proof.
  intros H Hl Hi Ha. rewrite (inv_sent _ _ H).
  assert (Hlt : sum_list_with sent (routines w) < length (routines w)).
  { apply (sum_below sent _ i r); [|done|unfold sent; by rewrite Ha].
    intros x. unfold sent. destruct (at_ x), (failure x); lia. }
  pose proof (f_equal length (inv_services _ _ H)) as Hs. rewrite length_app, length_map in Hs. lia.
Qed.

(** A goroutine that has not finished can move once the context is cancelled. *)
Lemma routine_moves l w i r : inv l w → length l ≤ errChCapacity → running_main (main w) → cancelled w = true →
  routines w !! i = Some r → at_ r ≠ Finished → ∃ w', step true w w'.
Proof.
  intros H Hl Hr Hc Hi Hf.
  assert (Hrun : ∀ r', rstep true true r r' → ∃ w', step true w w').
  { intros r' Hs. eexists. eapply (s_run true w i); [done|exact Hi|]. by rewrite Hc. }
  assert (Hcl : at_ r ≠ Binding → closing r = false → ∃ w', step true w w').
  { intros Hb Ec. apply (Hrun (close r)). unfold rstep. destruct (svc r); by constructor. }
  destruct (at_ r) as [| | |o|e| | |] eqn:Ha; [..|done].
  - apply (Hrun (goto (Returned (Failed (if svc r is (SvcUDP | SvcTCP) then errWrap "%s reactor: %w" (errNew "") else errNew ""))) r)).
    unfold rstep. destruct (svc r); by constructor.
  - destruct (closing r) eqn:Ecl; [|by apply Hcl].
    apply (Hrun (goto (Returned Canceled) r)). unfold rstep.
    destruct (svc r); [by apply api_closed|by apply gnet_ended|by apply gnet_ended|by apply dot_closed|by apply doh_closed].
  - destruct (closing r) eqn:Ecl; [|by apply Hcl].
    pose proof (inv_phase _ _ H) as Hp. rewrite Forall_forall in Hp.
    destruct (Hp r) as (_ & _ & Hd); [by eapply list_elem_of_lookup_2|].
    apply (Hrun (goto (Returned Canceled) r)). unfold rstep. by destruct (Hd Ha) as [-> | ->]; apply gnet_drained.
  - destruct o as [| |e]; eexists; [by eapply s_ended..|by eapply s_failed].
  - eexists. eapply s_send; [done..|]. by eapply send_possible.
  - eexists. by eapply s_stopped.
  - eexists. by eapply s_done.
Qed.

Lemma main_moves l w : inv l w → length l ≤ errChCapacity → running_main (main w) → cancelled w = true →
  ∃ w', step true w w'.
Proof.
  intros H Hl Hr Hc. destruct (main w) as [[|s l']| | | |c] eqn:Hm; [eexists; by constructor..| |by destruct (Hr c)].
  destruct (wg w) as [|g] eqn:Hg; [eexists; by constructor|].
  assert (∃ i r, routines w !! i = Some r ∧ at_ r ≠ Finished) as (i & r & Hi & Ha).
  { rewrite (inv_wg _ _ H) in Hg. clear -Hg. induction (routines w) as [|x rs IH]; [done|]. cbn in Hg.
    destruct (decide (alive x = 0)) as [E|E].
    - rewrite E in Hg. destruct (IH Hg) as (i & r & ? & ?). by exists (S i), r.
    - exists 0, x. split; [done|]. intros Ha. apply E. unfold alive. by rewrite Ha. }
  eapply routine_moves; [exact H|done|by rewrite Hm|done|exact Hi|done].
Qed.

(** ** What stays *)
Definition failed_at (i : nat) (e : error) (w : world) : Prop := ∃ r, routines w !! i = Some r ∧ failure r = Some e.

Lemma failed_insert (i j : nat) e r r' (rs : list routine) : rs !! j = Some r → (∀ e, failure r = Some e → failure r' = Some e) →
  (∃ x, rs !! i = Some x ∧ failure x = Some e) → ∃ x, <[j := r']> rs !! i = Some x ∧ failure x = Some e.
Proof.
  intros Hj Hf (x & Hx & He). destruct (decide (i = j)) as [->|Hne].
  - exists r'. rewrite list_lookup_insert_eq by (by eapply lookup_lt_Some). split; [done|apply Hf; congruence].
  - exists x. by rewrite list_lookup_insert_ne.
Qed.

Lemma step_failed l b w w' i e : inv l w → step b w w' → failed_at i e w → failed_at i e w'.
Proof.
  intros H Hs Hw. unfold failed_at in *. destruct Hs as [s l' w Hm|w Hm|w Hm Hc|w e' l' Hm He|w Hm|w Hm Hw0|w Hr Hc|b w j r r' Hr Hi Hrs|
    w j r e' Hr Hi Ha|w j r o Hr Hi Ha Ho|w j r e' Hr Hi Ha Hlen|w j r Hr Hi Ha|w j r Hr Hi Ha]; try exact Hw.
  - destruct Hw as (r & Hr & He). exists r. split; [|done]. cbn. by apply lookup_app_l_Some.
  - pose proof (inv_phase _ _ H) as Hp. rewrite Forall_forall in Hp.
    destruct (rstep_frame _ _ _ _ Hrs) as (_ & _ & Ef & _); [apply Hp; by eapply list_elem_of_lookup_2|].
    eapply failed_insert; [exact Hi| |exact Hw]. by rewrite Ef.
  - at_phase. eapply failed_insert; [exact Hi| |exact Hw]. by rewrite Hf.
  - by eapply failed_insert; [exact Hi| |exact Hw].
  - by eapply failed_insert; [exact Hi| |exact Hw].
  - by eapply failed_insert; [exact Hi| |exact Hw].
  - by eapply failed_insert; [exact Hi| |exact Hw].
Qed.

Definition leaving (w : world) : Prop := cancelled w = true ∧ (main w = Leaving ∨ main w = Waiting ∨ main w = Exited 0).
Lemma step_leaving b w w' : step b w w' → leaving w → leaving w'.
Proof.
  intros Hs [Hc Hm]. destruct Hs; cbn in *; try (destruct Hm as [?|[?|?]]; congruence); split; cbn; auto.
Qed.

(** Once [main] leaves, the process can end with status 0. *)
Lemma can_leave l w : length l ≤ errChCapacity → inv l w → leaving w → ∃ n w', run n w w' ∧ main w' = Exited 0 ∧
  ∀ i e, failed_at i e w → failed_at i e w'.
Proof.
  intros Hl. remember (measure w) as k eqn:Ek. revert w Ek. induction (lt_wf k) as [k _ IH]. intros w -> Hi [Hc Hm].
  assert (main w = Exited 0 ∨ running_main (main w)) as [He|He]
    by (unfold running_main; destruct Hm as [->|[->| ->]]; [right; done..|by left]).
  { exists 0, w. split; [constructor|done]. }
  destruct (main_moves l w Hi Hl He Hc) as (w1 & H1).
  pose proof (world_step_measure _ _ _ H1) as Hlt. cbv iota in Hlt. pose proof (world_step _ _ _ _ Hi H1) as Hi1.
  destruct (IH (measure w1) ltac:(lia) w1 eq_refl Hi1 (step_leaving _ _ _ H1 (conj Hc Hm))) as (n & w' & Hr & Hx & Hf).
  exists (S n), w'. split_and!; [by econstructor|done|]. intros i e Hw. apply Hf. eapply step_failed; [exact Hi|exact H1|exact Hw].
Qed.

(** * Properties *)

(** The status of the process: it is 1 only when a service failed, and 0 only
    after the context was cancelled and every service, each started once, has
    returned. *)
Lemma exit_status cfg n w c : run n (launch (servicesOf cfg)) w → main w = Exited c →
  (c = 1 ∧ Exists (λ r, failure r ≠ None) (routines w)) ∨
  (c = 0 ∧ cancelled w = true ∧ map svc (routines w) = servicesOf cfg ∧ Forall (λ r, at_ r = Finished) (routines w)).
Proof.
  intros Hr Hm. pose proof (world_run _ _ _ _ Hr (inv_launch _)) as [Hs Hw _ _ Hf Hx]. rewrite Hm in Hs, Hx.
  destruct c as [|[|c]]; [right|left|done].
  - destruct Hx as [Hc Hg]. rewrite app_nil_r in Hs. split_and!; [done..|]. rewrite Hw in Hg. clear -Hg.
    induction (routines w) as [|r rs IH]; [done|]. cbn in Hg. constructor; [|apply IH; lia].
    unfold alive in Hg. destruct (at_ r); lia || done.
  - split; [done|]. destruct (errCh w) as [|e l]; [done|]. apply Forall_cons in Hf as [Hf _].
    eapply Exists_impl; [exact Hf|]. by intros r ->.
Qed.


(** * Limits of the code *)
Lemma run_trans n k w1 w2 w3 : run n w1 w2 → run k w2 w3 → run (n + k) w1 w3.
Proof. induction 1 as [|n w w1 w2 Hs _ IH|n w w1 w2 Hs _ IH]; intros Hr; [done|..]; econstructor; eauto. Qed.

Lemma start_rest l w : main w = Starting l → ∃ n w', run n w w' ∧ main w' = Selecting ∧ cancelled w' = cancelled w ∧
  ∀ i r, routines w !! i = Some r → routines w' !! i = Some r.
Proof.
  revert w. induction l as [|s l IH]; intros w Hm.
  - eexists 1, _. split_and!; [eapply run_work; [by apply s_started|constructor]|done..].
  - destruct (IH (at_main (Starting l) (startService s w)) eq_refl) as (n & w' & Hr & Hs & Hc & Hk).
    exists (S n), w'. split_and!; [eapply run_work; [by eapply s_start|done]|done..|].
    intros i r Hi. apply Hk. cbn. by apply lookup_app_l_Some.
Qed.

(** A service that cannot open its listener before [main] waits ends the
    process with status 0 as well as with 1: the error and the context are both
    ready by then, and select takes either. *)
Lemma failure_can_exit_zero cfg e : ∃ n w, run n (launch (servicesOf cfg)) w ∧ main w = Exited 0 ∧ failed_at 0 e w.
Proof.
  set (l := servicesOf cfg). assert (Hl : length l ≤ errChCapacity) by apply services_count.
  assert (∃ rest, l = SvcAPI :: rest) as [rest El] by (eexists; reflexivity).
  set (w0 := launch l). pose (r0 := spawn SvcAPI).
  pose (r1 := goto (Returned (Failed e)) r0). pose (r2 := fail e r1).
  pose (r3 := goto Stopping r2). pose (r4 := goto Ending r3).
  set (w5 := MkWorld true [e] 1 [r4] (Starting rest)).
  assert (H5 : run 5 w0 w5).
  { unfold w0, launch. rewrite El. eapply run_work; [by eapply s_start|].
    eapply run_work; [eapply (s_run true _ 0 r0 r1); [done|done|by eapply (api_refused false r0 e)]|].
    eapply run_work; [by eapply (s_failed _ 0 r1 e)|]. eapply run_work.
    { eapply (s_send _ 0 r2 e); [done..|]. unfold errChCapacity. cbn. lia. }
    eapply run_work; [by eapply (s_stopped _ 0 r3)|]. constructor. }
  destruct (start_rest rest w5 eq_refl) as (n & w6 & H6 & Hm & Hc & Hk).
  assert (H7 : run 1 w6 (at_main Leaving w6)) by (eapply run_work; [by apply s_ctx_done|constructor]).
  pose proof (run_trans _ _ _ _ _ (run_trans _ _ _ _ _ H5 H6) H7) as H.
  destruct (can_leave l (at_main Leaving w6) Hl) as (k & w' & Hr & Hx & Hf); [eapply world_run, inv_launch; exact H|by split; [|left]|].
  eexists _, w'. split_and!; [by eapply run_trans|done|]. apply Hf. exists r4. split; [|done]. by apply Hk.
Qed.

(** The run of the API returns when the server begins to shut down, whatever
    requests it still handles, and nothing waits for them. *)
Lemma requests_cut_off r : at_ r = Serving → svc r = SvcAPI → closing r = false → ∃ r1 r2,
  rstep true true r r1 ∧ rstep true true r1 r2 ∧ at_ r2 = Returned Canceled ∧ conns r2 = conns r.
Proof.
  intros Ha Hs Hc. exists (close r), (goto (Returned Canceled) (close r)). unfold rstep. cbn. rewrite Hs.
  split_and!; [by constructor|by apply (api_closed true (close r))|done..].
Qed.

End Services.

