(* ===== verification/Stream.v ===== *)
(** * What the server sends on its own: the log stream of api/logs.go and the NOTIFY
    datagrams of dnsproc/notify.go *)
From S2P Require Import Prelude Telemetry NetAddr Dns Owner Files Reply Update Logging Http Api.
Import Http Counters.

(** [net.DialTimeout] and the write of a datagram, and [mdns.Id]. *)
Class NotifyNet (X : Type) := {
  dial_udp : X → string → X * option error;
  write_udp : X → string → string → X * option error;
  msg_id : X → N * X
}.

(** ** The loop of [handleLogsStream] *)
Module Stream.
Import Logging.

Definition connected : string := ": connected" +:+ mk [newline; newline].
Definition frame (line : string) : string := "data: " +:+ line +:+ mk [newline; newline].

(** The stream of one subscriber: what was written, the lines published since it
    subscribed, and how many of them found its channel full. *)
Record session := MkSession {
  broadcaster : Broadcaster; written : string; following : bool; published : list string; dropped : nat
}.

Definition begin (b : Broadcaster) : N * session :=
  let '(ch, b) := Subscribe b in (ch, MkSession b connected true [] 0).
(** The deferred [Unsubscribe]. *)
Definition leave (ch : N) (b : Broadcaster) (s : session) : session :=
  MkSession (Unsubscribe b (Some ch)) (written s) false (published s) (dropped s).
Definition full (ch : N) (b : Broadcaster) : bool :=
  match channels b !! ch with Some c => negb (length (buffer c) <? subscriberBuffer) | None => false end.

(** The loop, and what the rest of the process does to the broadcaster. *)
Inductive step (ch : N) : session → session → Prop :=
| st_line s line b : following s = true → receive (broadcaster s) ch = Some (line, b) →
    step ch s (MkSession b (written s +:+ frame line) true (published s) (dropped s))
| st_write_fails s line b : following s = true → receive (broadcaster s) ch = Some (line, b) → step ch s (leave ch b s)
| st_done s : following s = true → step ch s (leave ch (broadcaster s) s)
| st_closed s : following s = true → channels (broadcaster s) !! ch = Some (MkChannel [] true) →
    step ch s (leave ch (broadcaster s) s)
| st_publish s line b : following s = true → Publish (broadcaster s) line = Some b →
    step ch s (MkSession b (written s) true (published s ++ [line])
      (if full ch (broadcaster s) then S (dropped s) else dropped s))
| st_others s b : broadcast_ok b → channels b !! ch = channels (broadcaster s) !! ch →
    (ch ∈ subscribers b ↔ ch ∈ subscribers (broadcaster s)) →
    step ch s (MkSession b (written s) (following s) (published s) (dropped s)).

(** * Lemmas *)
Definition inv (ch : N) (s : session) : Prop := ∃ got,
  written s = connected +:+ mk (concat (map (λ l, bytes (frame l)) got)) ∧
  if following s then
    ∃ buf, broadcast_ok (broadcaster s) ∧ ch ∈ subscribers (broadcaster s) ∧
      channels (broadcaster s) !! ch = Some (MkChannel buf false) ∧
      got ++ buf `sublist_of` published s ∧ length (published s) = length (got ++ buf) + dropped s
  else ch ∉ subscribers (broadcaster s) ∧ got `sublist_of` published s.

Lemma inv_begin b : broadcast_ok b → inv (begin b).1 (begin b).2.
Proof.
  intros Hb. exists []. split; [done|]. exists []. split_and!; try done; [by apply subscribe_ok| |]; cbn; [set_solver|].
  by rewrite lookup_insert_eq.
Qed.

Lemma receive_ok b ch line b' buf : channels b !! ch = Some (MkChannel buf false) → receive b ch = Some (line, b') →
  ∃ rest, buf = line :: rest ∧ b' = MkBroadcaster (subscribers b) (<[ch := MkChannel rest false]> (channels b)) (next_chan b).
Proof. unfold receive. intros ->. destruct buf as [|l rest]; [done|]. intros [= <- <-]. by exists rest. Qed.

Lemma received_ok b ch rest : broadcast_ok b → is_Some (channels b !! ch) →
  broadcast_ok (MkBroadcaster (subscribers b) (<[ch := MkChannel rest false]> (channels b)) (next_chan b)).
Proof.
  intros [H1 H2] Hc. split; cbn; intros c; destruct (decide (c = ch)) as [->|Hne].
  - intros _. exists rest. by rewrite lookup_insert_eq.
  - rewrite lookup_insert_ne by done. apply H1.
  - intros _. by apply H2.
  - rewrite lookup_insert_ne by done. apply H2.
Qed.

Lemma inv_leave ch s b got buf : written s = connected +:+ mk (concat (map (λ l, bytes (frame l)) got)) →
  got ++ buf `sublist_of` published s → inv ch (leave ch b s).
Proof.
  intros Hw Hl. exists got. split; [exact Hw|]. cbn. split; [set_solver|].
  etrans; [|exact Hl]. by apply sublist_inserts_r.
Qed.

Lemma inv_publish ch s line b got buf : broadcast_ok (broadcaster s) → ch ∈ subscribers (broadcaster s) →
  channels (broadcaster s) !! ch = Some (MkChannel buf false) → got ++ buf `sublist_of` published s →
  length (published s) = length (got ++ buf) + dropped s → Publish (broadcaster s) line = Some b →
  let n := if full ch (broadcaster s) then S (dropped s) else dropped s in
  ∃ buf', broadcast_ok b ∧ ch ∈ subscribers b ∧ channels b !! ch = Some (MkChannel buf' false) ∧
    got ++ buf' `sublist_of` published s ++ [line] ∧ length (published s ++ [line]) = length (got ++ buf') + n.
Proof.
  intros Hok Hsub Hch Hl Hn Hp n. destruct (publish_some _ line Hok) as (b' & Hp' & Hs & _ & Hc).
  rewrite Hp in Hp'. injection Hp' as <-. pose proof (publish_ok _ _ _ Hok Hp) as Hok'.
  specialize (Hc ch). rewrite decide_True, Hch in Hc by done. cbn in Hc. unfold accepted in Hc. cbn [buffer] in Hc.
  unfold n, full. rewrite Hch. cbn [buffer]. destruct (Nat.ltb_spec (length buf) subscriberBuffer); cbn [negb].
  - exists (buf ++ [line]). rewrite Hs, app_assoc, !(length_app _ [line]). split_and!; try done; [|lia].
    by apply sublist_app.
  - exists buf. rewrite Hs, (length_app _ [line]). cbn [length]. split_and!; try done; [|lia]. by apply sublist_inserts_r.
Qed.

Lemma session_step ch s s' : inv ch s → step ch s s' → inv ch s'.
Proof.
  intros (got & Hw & Hf) Hs. destruct Hs as [s line b Ef Hr|s line b Ef Hr|s Ef|s Ef Hc|s line b Ef Hp|s b Hb Hc Hin];
    try rewrite Ef in Hf; try destruct Hf as (buf & Hok & Hsub & Hch & Hl & Hn).
  - destruct (receive_ok _ _ _ _ _ Hch Hr) as (rest & -> & ->). exists (got ++ [line]). cbn. split.
    + rewrite Hw, map_app, concat_app. cbn. rewrite app_nil_r. apply bytes_inj.
      by rewrite !bytes_app, !bytes_mk, <-app_assoc.
    + exists rest. rewrite <-app_assoc. split_and!; try done; [by apply received_ok; [|eexists]|by rewrite lookup_insert_eq].
  - by eapply inv_leave.
  - by eapply inv_leave.
  - by eapply inv_leave.
  - exists got. split; [exact Hw|]. by apply (inv_publish ch s line b got buf).
  - exists got. split; [exact Hw|]. cbn. destruct (following s).
    + destruct Hf as (buf & Hok & Hsub & Hch & Hl & Hn). exists buf. split_and!; try done; [by apply Hin|by rewrite Hc].
    + destruct Hf as [Hn Hl]. split; [by rewrite Hin|done].
Qed.

Lemma session_run ch s s' : rtc (step ch) s s' → inv ch s → inv ch s'.
Proof. induction 1 as [|s s1 s2 Hs _ IH]; [done|]. intros Hi. by eapply IH, session_step. Qed.

(** ** Reading the stream *)

(** What an EventSource makes of it: the data lines. *)
Definition data_line (l : string) : option string :=
  if has_prefix l "data: " then Some (trim_prefix l "data: ") else None.
Definition events (text : string) : list string := omap data_line (split text newline).

Definition plain (s : string) : Prop := Forall (λ c, is_char newline c = false) (bytes s).

Lemma split_line w rest : Forall (λ c, is_char newline c = false) w →
  split_with (is_char newline) (w ++ newline :: rest) = w :: split_with (is_char newline) rest.
Proof.
  intros Hw. assert (Hn : is_char newline newline = true) by by apply bool_decide_true.
  rewrite split_with_app by done. cbn [split_with]. by rewrite Hn, app_nil_r.
Qed.

Lemma split_newline rest : split_with (is_char newline) (newline :: rest) = [] :: split_with (is_char newline) rest.
Proof. by apply (split_line []). Qed.

Lemma bytes_frame l : bytes (frame l) = bytes ("data: " +:+ l) ++ newline :: newline :: [].
Proof. unfold frame. by rewrite !bytes_app, bytes_mk, <-app_assoc. Qed.

Lemma plain_data l : plain l → plain ("data: " +:+ l).
Proof. intros Hl. unfold plain. rewrite bytes_app. apply Forall_app. split; [by repeat constructor|done]. Qed.

Lemma split_frames got : Forall plain got →
  split_with (is_char newline) (concat (map (λ l, bytes (frame l)) got)) =
  concat (map (λ l, [bytes ("data: " +:+ l); []]) got) ++ [[]].
Proof.
  induction 1 as [|l got Hl _ IH]; [done|]. cbn [map concat]. rewrite bytes_frame, <-app_assoc. cbn [app].
  rewrite split_line by by apply plain_data. rewrite split_newline. by rewrite IH.
Qed.

Lemma events_frames got : Forall plain got →
  events (connected +:+ mk (concat (map (λ l, bytes (frame l)) got))) = got.
Proof.
  intros Hg. unfold events, split, connected. rewrite !bytes_app, !bytes_mk, <-app_assoc. cbn [app].
  rewrite split_line by by repeat constructor. rewrite split_newline. rewrite split_frames by done.
  cbn [map]. change (omap data_line (mk (bytes ": connected") :: mk [] :: ?x)) with (omap data_line x).
  clear Hg. induction got as [|l got IH]; [done|]. cbn [map concat app]. rewrite mk_bytes.
  assert (Hd : data_line ("data: " +:+ l) = Some l).
  { unfold data_line. rewrite (proj2 (has_prefix_spec _ _)) by by exists l. by rewrite trim_prefix_app. }
  change (omap data_line (?x :: mk [] :: ?y)) with
    (match data_line x with Some v => v :: omap data_line y | None => omap data_line y end).
  by rewrite Hd, IH.
Qed.

Lemma sublist_whole {A} (l k : list A) : l `sublist_of` k → length k = length l → l = k.
Proof.
  induction 1 as [|x l k H IH|x l k H IH]; cbn; intros Hn; [done|by rewrite IH by lia|].
  apply sublist_length in H. lia.
Qed.

Lemma Forall_below {A} (P : A → Prop) l k : l `sublist_of` k → Forall P k → Forall P l.
Proof. induction 1; intros Hk; [done|..]; apply Forall_cons in Hk as [? ?]; auto. Qed.

(** the log stream shows what was logged: the events a client reads are lines
    that were published since it subscribed, in their order and unaltered; as
    long as its channel was never full they are all of them but those still in
    the channel, at most sixty-four; and when the handler returns, for whatever
    reason, the channel is no longer subscribed. *)
Theorem stream_exact b s' : broadcast_ok b → rtc (step (begin b).1) (begin b).2 s' → Forall plain (published s') →
  events (written s') `sublist_of` published s' ∧
  (following s' = true → dropped s' = 0 → ∃ buf, channels (broadcaster s') !! (begin b).1 = Some (MkChannel buf false) ∧
     published s' = events (written s') ++ buf) ∧
  (following s' = false → (begin b).1 ∉ subscribers (broadcaster s')).
Proof.
  intros Hb Hr Hp. destruct (session_run _ _ _ Hr (inv_begin b Hb)) as (got & Hw & Hf).
  assert (Hsub : got `sublist_of` published s').
  { destruct (following s'); [|apply Hf]. destruct Hf as (buf & _ & _ & _ & Hl & _). etrans; [|exact Hl]. by apply sublist_inserts_r. }
  assert (Hgot : Forall plain got) by by eapply Forall_below.
  rewrite Hw, events_frames by done. split_and!; [done| |].
  - intros Ef Hd. rewrite Ef in Hf. destruct Hf as (buf & _ & _ & Hc & Hl & Hn). exists buf. split; [done|]. symmetry. apply sublist_whole; [done|lia].
  - intros Ef. rewrite Ef in Hf. apply Hf.
Qed.

End Stream.

(** ** Sending NOTIFY: dnsproc/notify.go *)
Module Notify.
Section notify.
Context {X : Type} {NN : NotifyNet X} {DM : DnsMsg}.

Definition notifyMessage (id : N) (origin : string) : msg :=
  Msg id false OpcodeNotify true false false false false false RcodeSuccess false
    [Question origin TypeSOA ClassINET] [] [] [].

(** The counters of one datagram, with what was sent where. *)
Record sending := MkSending { net : X; counters : list counter; datagrams : list (string * string) }.
Definition counted (c : counter) (x : X) (s : sending) : sending := MkSending x (counters s ++ [c]) (datagrams s).

Definition sendNotify (origin target : string) (s : sending) : sending :=
  let '(id, x) := msg_id (net s) in
  match pack (notifyMessage id origin) with
  | Err _ => counted NotifyFailed x s
  | Ok payload =>
      match dial_udp x target with
      | (x, Some _) => counted NotifyFailed x s
      | (x, None) =>
          match write_udp x target payload with
          | (x, Some _) => counted NotifyFailed x s
          | (x, None) => MkSending x (counters s ++ [NotifySent]) (datagrams s ++ [(target, payload)])
          end
      end
  end.

(** The goroutines of a zone, one per slave, in any order; [NotifyZones] waits for
    those of one zone before the next. *)
Inductive notify (origin : string) : list string → sending → sending → Prop :=
| notify_none s : notify origin [] s s
| notify_one target before after s s' :
    notify origin (before ++ after) (sendNotify origin target s) s' → notify origin (before ++ target :: after) s s'.

Inductive notifyAll : list (string * list string) → sending → sending → Prop :=
| all_none s : notifyAll [] s s
| all_zone origin slaves rest s s1 s2 :
    notify origin slaves s s1 → notifyAll rest s1 s2 → notifyAll ((origin, slaves) :: rest) s s2.

(** * Lemmas *)
Definition sent_ok (origin : string) (targets : list string) (s s' : sending) : Prop :=
  ∃ cs ds, counters s' = counters s ++ cs ∧ datagrams s' = datagrams s ++ ds ∧
    Forall (λ c, c = NotifySent ∨ c = NotifyFailed) cs ∧ length cs = length targets ∧
    length ds = length (List.filter (λ c, match c with NotifySent => true | _ => false end) cs) ∧
    Forall (λ d, d.1 ∈ targets ∧ ∃ id, pack (notifyMessage id origin) = Ok d.2) ds.

Lemma send_ok origin target s : sent_ok origin [target] s (sendNotify origin target s).
Proof.
  unfold sendNotify, sent_ok. destruct (msg_id (net s)) as [id x].
  destruct (pack _) as [payload|e] eqn:Ep; [destruct (dial_udp x target) as [x1 [e|]];
    [|destruct (write_udp x1 target payload) as [x2 [e|]]]|].
  3: { exists [NotifySent], [(target, payload)]. cbn. split_and!; try done.
    - apply Forall_singleton. by left.
    - apply Forall_singleton. split; [by left|by exists id]. }
  all: exists [NotifyFailed], []; cbn; rewrite app_nil_r; split_and!; try done; apply Forall_singleton; by right.
Qed.

Lemma sent_trans origin t1 t2 targets s s1 s2 : (∀ t, t ∈ t1 ∨ t ∈ t2 → t ∈ targets) →
  length targets = length t1 + length t2 → sent_ok origin t1 s s1 → sent_ok origin t2 s1 s2 → sent_ok origin targets s s2.
Proof.
  intros Ht Hn (c1 & d1 & Ec1 & Ed1 & Hc1 & Hl1 & Hk1 & Hd1) (c2 & d2 & Ec2 & Ed2 & Hc2 & Hl2 & Hk2 & Hd2).
  exists (c1 ++ c2), (d1 ++ d2). rewrite Ec2, Ec1, Ed2, Ed1, !app_assoc, List.filter_app, !length_app.
  split_and!; try done; try lia; [by apply Forall_app|]. apply Forall_app.
  split; (eapply Forall_impl; [eassumption|]); intros d [Hd Hp]; (split; [apply Ht; auto|done]).
Qed.

(** every slave of a zone is sent one message, counted once as sent or failed:
    one that asks for the SOA of the zone with the opcode NOTIFY, when it could
    be packed, and only to those slaves. *)
Theorem notify_reaches origin targets s s' : notify origin targets s s' → sent_ok origin targets s s'.
Proof.
  induction 1 as [s|target before after s s' _ IH].
  - exists [], []. by rewrite !app_nil_r.
  - eapply (sent_trans _ [target] (before ++ after)); [|rewrite !length_app; cbn; lia|apply send_ok|exact IH].
    intros t. set_solver.
Qed.

Lemma notify_total origin targets s : ∃ s', notify origin targets s s'.
Proof.
  revert s. induction targets as [|t l IH]; intros s; [eexists; constructor|].
  destruct (IH (sendNotify origin t s)) as [s' Hs]. exists s'. by apply (notify_one origin t [] l).
Qed.
End notify.
End Notify.
